(* ===== verification/_CoqProject ===== *)
-Q . S2P
Prelude.v
PyValue.v
Sha256.v
Json.v
Contract.v
Atomicity.v
Fabrication.v
Supervisor.v
SupervisorSpec.v
Exploration.v
Decimal.v
Pool.v
PoolSafety.v
PoolTheorems.v
DateTime.v
Regex.v
RecoveryCommon.v
Coverage.v
CoverageTheorems.v
MutationContract.v
MutationReceipts.v
MutationTheorems.v
GitObjects.v
Observation.v
ObservationTheorems.v
Ledger.v
LedgerTheorems.v
ReconcileTheorems.v
Admissibility.v
AdmissibilityTheorems.v
Url.v
Collect.v
Briefing.v
BriefingTheorems.v
DeliveryTheorems.v
Fields.v
Cycles.v
CycleTheorems.v
Remediation.v
RemediationTheorems.v
QueueTheorems.v
ScoreOrderTheorems.v
Release.v
ReleaseTheorems.v
Digest.v
DigestTheorems.v
ResearchTheorems.v
MergeGuard.v
MergeGuardTheorems.v
Watchdog.v
WatchdogTheorems.v
WorkerCommon.v
WorkerTransport.v
WorkerSources.v
WorkerEngine.v
WorkerExample.v
WorkerCollectTheorems.v
WorkerCursorTheorems.v
WorkerCommitTheorems.v
WorkerOutcomeTheorems.v
