(* ===== verification/Prelude.v ===== *)
(** * The coordinator's Python tools, verified

    A development for the Python side of the agent coordinator: the protocols
    and contracts the tools under [src/scripts], [src/tools] and [src/formal]
    implement.  Definitions follow the source operation by operation and keep
    its names; results are in the [*Theorems] files, or below the definitions
    in the earlier ones.  [src/] is left out of the file names below.

    ** The program and the files that model it

    Protocols, state machines with fenced ownership:
    - [scripts/daily_briefing_atomicity_model.py], the failure-atomic delivery
      of the daily briefing: [Atomicity].  [DeliveryState] is the source's
      dataclass, [apply] dispatches to one definition per command, [attempt]
      keeps the old state on failure, [run_fixture] replays a fixture.
    - [scripts/fabrication_recovery_protocol.py], jobs with leases, budgets and
      dead letters: [Fabrication], laid out the same way.
    - [scripts/daily_briefing_receipts.py], lane manifests and delivery
      documents: [Briefing].  Its delivery machine works on untyped documents;
      the typed machine it refines is in [DeliveryTheorems].

    The recovery supervisor, at three levels:
    - [formal/ContinuousRecoverySupervisor.tla]: [SupervisorSpec] ([Next],
      [Safety]).
    - [formal/continuous_recovery_supervisor.py], the executable model and its
      breadth-first search: [Supervisor] ([transition], [explore]).
    - [tools/run_continuous_artifact_recovery_pool.py], the real pool: [Pool],
      a small-step machine of the main thread interleaved with the signal
      handler, the clock and the workers' exits.

    Artifact recovery, [tools/artifact_recovery/]:
    - [common.py]: [RecoveryCommon] (timestamps, typed fields, the public-safety
      scan) and [GitObjects] (repositories, branches, commits, artifacts).
    - [source_coverage.py]: [Coverage].
    - [mutation_receipts_contract.py], [mutation_receipts.py]:
      [MutationContract], [MutationReceipts].
    - [observation.py]: [Observation]; [ledger.py]: [Ledger].  A batch of
      observations is normalised by the first and merged by the second.
    - [evidence_admissibility.py]: [Admissibility].

    The recovery worker, [tools/artifact_recovery_worker_runtime/], which claims
    jobs, collects from the sources and feeds the ledger:
    - [common.py], [config.py]: [WorkerCommon] (errors, instants, credentials,
      settings, the manifest of sources).
    - [transport.py], [delivery.py]: [WorkerTransport].  A computation of the
      worker carries the log of what it did and the two files the workers
      share; servers, clocks, disks and the fence answer through an
      [environment], a record of functions of the log.
    - [sources.py]: [WorkerSources] ([collect] and its loop over the pages).
    - [engine.py] and the loop of [run_continuous_artifact_recovery_worker.py]:
      [WorkerEngine].  [run] is [gather], [commit] inside the fence, and
      [conclude]; [process_one] and [serve] are around it.  It calls
      [Observation], [Coverage] and [Ledger] as the code calls their sources.

    Portfolio contracts:
    - [scripts/portfolio_remediation_queue.py]: [Remediation].
    - [scripts/portfolio_release_manifest.py]: [Release].
    - [scripts/digest_provenance.py]: [Digest].

    Tools that act on the world and say what they found:
    - [scripts/semantic_merge_guard.py], the preview of a merge: [MergeGuard],
      computations over the history of git commands, with git as an oracle.
    - [tools/overnight_job_watchdog.py], the check that a nightly job ran and
      left its evidence: [Watchdog]; GitHub and its snapshots are a [client], a
      record of operations.

    Shared by them: [PyValue] (Python values, strings, dicts), [Json]
    (canonical JSON), [Sha256], [DateTime] ([datetime.fromisoformat]), [Regex]
    ([re]), [Decimal] ([int] and [str]), [Url] ([urllib.parse]), [Contract]
    (checks the raising contracts copy from one another), [Collect] and [Fields]
    (those of the validators that collect complaints) and [Cycles] (the search
    for cyclic dependencies two of them copy).  These model the part of Python
    and its standard library the sources rely on, of CPython 3.11.

    How state and failure are written: a Python dataclass or dict with fixed
    fields is a [Record], with a [*_value] function for its document; a
    function that may raise returns [result] (this file); a validator that
    appends to a list of errors returns [checked] ([Collect]); loops are
    [for_each], [map_enum] and [check_each]; an object that several calls
    mutate (the pool's tables, the stack of the cycle search) is a field of the
    state they pass on.

    ** What the theorems show

    - Protocols: the handlers refine an abstract protocol
      ([Atomicity.apply_refines_protocol], [Fabrication.job_refines_protocol],
      [DeliveryTheorems.transition_refines_machine]; the first is the documented
      one, but for takeovers by the present owner); a failed attempt changes
      nothing; accepted commands may be delivered again; an older fence is
      refused; settled deliveries and jobs stay settled; delivery can be
      reached from every state; a job never exceeds its delivery budget.
    - Supervisor: the executable model refines the TLA+ specification, every
      reachable state is safe, a shutdown ends, and [explore] visits exactly
      the states within its depth.
    - Pool, under every interleaving: the live workers are bounded, the exit
      status says what happened, survivors of the grace period are killed, and
      a run without a stop inside the respawn loop never raises; a stop inside
      it does raise, in every pool, and leaves the process it was starting
      without a signal ([PoolTheorems.stop_during_respawn_raises]).
    - Coverage: a report says complete exactly when the receipts cover every
      required source, and is rebuilt from its own document.
    - Mutation receipts: an intent is ready exactly when its preconditions hold
      and it has no rival; rivals for a version of a target are held back, all
      of them and nobody else.
    - Observations and ledger: normalising is idempotent, evidence stays in its
      repository, an item is called complete only with its evidence, merging a
      batch again changes nothing, and the queue holds only what may be
      recovered automatically.
    - Admissibility: current evidence deserves it, the queue covers exactly the
      evidence that is not current, and a report replays.
    - Briefing: the verdict on a manifest is the declarative one, and does not
      depend on the order of arrival.
    - Remediation queue: in a valid queue ranks are priorities, dependencies
      come first and have no cycle ([_find_cycles] is exact), findings are
      tracked once and nothing is authorised; the verdict does not depend on
      the iteration order of a set.
    - Release manifest: a release is closure-ready exactly when it may close,
      and what valid means in each mode.
    - Evidence digests: the items of a valid digest come from official sources
      inside its window and are ranked by fit or by merit, the roles of a
      company are complete and consistent, and supersession has no cycle.
    - Merge guard: whatever git answers, the commands are from a fixed list of
      argument vectors, none of which moves a branch or commits,
      the exit status says what was found, and the worktree is removed; a
      reference that moves during a clean preview still leaves the review on
      offer; repeated TOML tables are reported exactly.
    - Watchdog: a report says success exactly when a run of the night passed
      every requirement, evidence is accepted exactly when receipt, ledger and
      report agree about finished work, which night a moment belongs to, that the
      delay is of wall clocks, how [locate] may fail, at most four requests, one
      line per output, and the emitted fixtures pass.

    - Recovery worker: reading a source ends within the limit of pages whatever
      it answers; the marks of the cursor file never go back and are earned,
      however the workers of a pool interleave, and move only after the ledger
      is saved; cutting the items into batches loses none; success means that
      every required source was covered and nothing in the ledger is left to
      do; a job is reported at most twice.  A run finishes only if its
      collection took no time, and an exception that is not the worker's leaves
      the job unreported ([WorkerOutcomeTheorems]).

    ** Bounds and fuel

    - [Supervisor.search] takes fuel and returns [None] without it;
      [Exploration.exploration_exact] gives an amount that is enough and the
      result every larger amount has.
    - [Cycles.visit] takes the nesting of calls the interpreter allows and
      raises [RecursionError] beyond it; [CycleTheorems.find_cycles_exact]:
      one more than the number of nodes is enough; [Digest] passes
      it that many, its digests having at most 200 items.
    - [Regex.ends] iterates a star at most as often as characters remain, and
      only while it advances: [Regex.search_spec] relates it to the meaning of
      the pattern.
    - [Sha256.process] has one unit per block and [str_replace] one per
      character; [DateTime.skip_digits] and [find_zone] one per character of
      the text; [Json.float_repr] looks for the exponent of a double from -330 on
      with 700 units and for at most 17 digits.  Each stops before its fuel
      does.  [Watchdog.get_from] has the four attempts of the source, which
      [WatchdogTheorems.requests_are_bounded] shows to be enough.
    - [WorkerSources.read_pages] has [page_fuel], one page more than the limit:
      [WorkerCollectTheorems.collection_is_bounded] shows it to be enough and
      that more would change nothing.  [WorkerEngine.serve], the endless loop of
      the process, returns [None] while it is still running.

    ** What the model leaves out

    - A [str] holds code points below 256, one [ascii] each, and the keys of a
      document are texts, as [json.loads] makes them.
    - The interpreter's recursion limit is modelled for [_find_cycles] only;
      memory is unbounded.
    - The pool's clock is exact, in nanoseconds.
    - [Ledger] works on ledgers this program wrote: a typed record.
      [validate_ledger] is modelled on every document.
    - Reading and writing files, parsing JSON text, arguments and printing.  The
      worker's writes are events that may fail; a write is atomic.
    - The worker's heartbeat thread is the list of its outcomes during the run;
      its clock has whole microseconds and time zone UTC.
    - What git and GitHub answer, the files of a worktree, the resolution of
      paths, where [json.loads] finds a repeated key, and the time-zone database
      are parameters, and so are the worker's servers, disks and mail.  Git
      prints ASCII.

    ** Not modelled

    Nothing below is assumed by a theorem; the manifest lists every part with
    its reason.
    - Scripts that are network, git and process I/O around the modelled core:
      the command lines of the recovery queue and its enqueuing, the scheduled
      digests, the portfolio briefing producers, nightly maintenance, the
      memebank and fleet publication and migration scripts.
    - Generators, renderers and validators of fixed repository content, whose
      lines are templates and tables of expected values.
    - The Rust coordinator.
    What these parts decide is decided by the modelled core they call; the rest
    of their behaviour is that of the services they talk to, which no theorem
    here could be about.

    ** This file

    Exceptions and fallible computations, loops, runs of a transition system,
    with the tactics ([inv_result], [bool_hyps], [solve_raises]) and hint
    database ([raises]) the components share. *)
From stdpp Require Export prelude strings gmap sorting pretty.
From Stdlib Require Export ZArith Lia.

#[global] Set Default Goal Selector "!".

Declare Scope py_scope.
Delimit Scope py_scope with py.

(** ** Exceptions and fallible computations

    A Python function that may raise is a function into [result]: [Raise]
    carries the class of the exception and its text. *)

Inductive exn_class : Set :=
  | ProtocolError | ModelCheckError | PoolError | RecoveryError
  | ContractError | QueueError
  | OverflowError | KeyError | IndexError | TypeError | ValueError | AssertionError | AttributeError
  | RecursionError | ManifestError | DigestError | GuardError | WatchdogError
  | OSError | JSONDecodeError | WorkerError (retryable : bool) (error_class : string).

#[export] Instance exn_class_eq_dec : EqDecision exn_class.
Proof. solve_decision. Defined.

Record exn : Set := Exn { exn_cls : exn_class; exn_msg : string }.

#[export] Instance exn_eq_dec : EqDecision exn.
Proof. solve_decision. Defined.

Inductive result (A : Type) : Type :=
  | Ok (a : A)
  | Raise (e : exn).
Arguments Ok {A} a.
Arguments Raise {A} e.

#[export] Instance result_ret : MRet result := @Ok.
#[export] Instance result_bind : MBind result := λ A B f m,
  match m with Ok a => f a | Raise e => Raise e end.
#[export] Instance result_fmap : FMap result := λ A B f m,
  match m with Ok a => Ok (f a) | Raise e => Raise e end.

(** [if b: raise e] *)
Definition raise_if (b : bool) (e : exn) : result unit :=
  if b then Raise e else Ok tt.

(** A [for] loop whose body updates an accumulator and may raise. *)
Fixpoint for_each {A B : Type} (l : list A) (body : A → B → result B) (acc : B)
  : result B :=
  match l with
  | [] => Ok acc
  | x :: l => acc ← body x acc; for_each l body acc
  end.

(** The same loop over [enumerate(l, start=i)]. *)
Fixpoint for_enum {A B : Type} (i : nat) (l : list A)
    (body : nat → A → B → result B) (acc : B) : result B :=
  match l with
  | [] => Ok acc
  | x :: l => acc ← body i x acc; for_enum (S i) l body acc
  end.

Definition is_ok {A} (r : result A) : bool :=
  match r with Ok _ => true | Raise _ => false end.

Section result_lemmas.
Context {A B : Type}.

Lemma bind_Ok (m : result A) (f : A → result B) (b : B) :
  m ≫= f = Ok b ↔ ∃ a, m = Ok a ∧ f a = Ok b.
Proof. destruct m; split; [eauto|by intros (a' & [= <-] & H)|done|by intros (? & ? & _)]. Qed.

Lemma bind_Raise (m : result A) (f : A → result B) (e : exn) :
  m ≫= f = Raise e ↔ m = Raise e ∨ ∃ a, m = Ok a ∧ f a = Raise e.
Proof.
  destruct m; split; [eauto|by intros [?|(a' & [= <-] & H)]|
    intros [= ->]; by left|by intros [[= ->]|(? & ? & _)]].
Qed.

Lemma raise_if_Ok b e u : raise_if b e = Ok u ↔ b = false.
Proof. destruct b, u; simpl; split; congruence. Qed.

Lemma raise_if_Raise b e e' : raise_if b e = Raise e' ↔ b = true ∧ e = e'.
Proof. destruct b; simpl; split; [by intros [= ->]|by intros [_ ->]|done|by intros [? _]]. Qed.

End result_lemmas.

(** A computation that can only fail with exceptions of one class. *)
Definition raises_only {A} (C : exn_class) (r : result A) : Prop :=
  match r with Ok _ => True | Raise e => exn_cls e = C end.

Lemma raises_only_Raise {A} C (r : result A) e :
  raises_only C r → r = Raise e → exn_cls e = C.
Proof. by intros H ->. Qed.

Lemma raises_only_bind {A B} C (m : result A) (f : A → result B) :
  raises_only C m → (∀ a, m = Ok a → raises_only C (f a)) → raises_only C (m ≫= f).
Proof. destruct m; simpl; auto. Qed.

Lemma raises_only_raise_if C b msg : raises_only C (raise_if b (Exn C msg)).
Proof. by destruct b. Qed.

Lemma raises_only_Ok {A} C (a : A) : raises_only C (Ok a).
Proof. done. Qed.

Lemma raises_only_exn {A} C msg : raises_only C (Raise (A:=A) (Exn C msg)).
Proof. done. Qed.

Create HintDb raises.
#[export] Hint Resolve raises_only_raise_if raises_only_Ok raises_only_exn : raises.

(** Walks through a computation, branch by branch. *)
Ltac solve_raises :=
  repeat match goal with
  | |- raises_only _ (_ ≫= _) => apply raises_only_bind; [|intros ? ?]
  | |- raises_only _ (let _ := _ in _) => cbv zeta
  | |- raises_only _ (if ?b then _ else _) => destruct b eqn:?
  | |- raises_only _ (match ?x with _ => _ end) => destruct x eqn:?
  end; auto with raises.

Section loop_lemmas.
Context {A B : Type}.

(** A loop preserves what its body preserves. *)
Lemma for_each_inv (P : B → Prop) (l : list A) body (acc acc' : B) :
  (∀ x b b', x ∈ l → P b → body x b = Ok b' → P b') →
  P acc → for_each l body acc = Ok acc' → P acc'.
Proof.
  revert acc; induction l as [|x l IH]; intros acc Hbody HP; simpl.
  - by intros [= <-].
  - intros (b & Hb & Hl)%bind_Ok. eapply IH; [| |exact Hl].
    + intros y c c' Hy. apply Hbody. by right.
    + eapply Hbody; [by left|done|done].
Qed.

(** What holds of the elements passed so far, element by element. *)
Lemma for_each_prefix (P : list A → B → Prop) body (l : list A) done acc acc' :
  (∀ done x b b', P done b → body x b = Ok b' → P (done ++ [x]) b') →
  P done acc → for_each l body acc = Ok acc' → P (done ++ l) acc'.
Proof.
  intros Hstep. revert done acc; induction l as [|x l IH]; intros done acc HP; simpl.
  - intros [= <-]. by rewrite app_nil_r.
  - intros (b & Hb & Hl)%bind_Ok.
    replace (done ++ x :: l) with ((done ++ [x]) ++ l) by (by rewrite <- app_assoc).
    eapply IH; [|exact Hl]. by eapply Hstep.
Qed.
End loop_lemmas.

(** ** Automation *)

(** Peel the binds and guards of a computation known to have succeeded. *)
Ltac inv_step :=
  match goal with
  | H : _ ≫= _ = Ok _ |- _ =>
      let a := fresh "a" in let Ha := fresh "Hok" in
      apply bind_Ok in H as (a & Ha & H)
  | H : raise_if _ _ = Ok _ |- _ => apply raise_if_Ok in H
  | H : Ok _ = Ok _ |- _ => injection H as H; try subst
  | H : Raise _ = Ok _ |- _ => discriminate H
  | H : Ok _ = Raise _ |- _ => discriminate H
  | u : unit |- _ => destruct u
  end.
Ltac inv_result := repeat (inv_step; simplify_eq/=).

Ltac bool_hyps :=
  repeat match goal with
  | H : _ && _ = true |- _ => apply andb_true_iff in H as [? ?]
  | H : _ || _ = false |- _ => apply orb_false_iff in H as [? ?]
  | H : negb _ = true |- _ => apply negb_true_iff in H
  | H : negb _ = false |- _ => apply negb_false_iff in H
  | H : bool_decide _ = true |- _ => apply bool_decide_eq_true in H
  | H : bool_decide _ = false |- _ => apply bool_decide_eq_false in H
  | H : (_ <? _)%Z = true |- _ => apply Z.ltb_lt in H
  | H : (_ <? _)%Z = false |- _ => apply Z.ltb_ge in H
  | H : (_ <=? _)%Z = true |- _ => apply Z.leb_le in H
  | H : (_ <=? _)%Z = false |- _ => apply Z.leb_gt in H
  | H : (_ =? _)%Z = true |- _ => apply Z.eqb_eq in H
  | H : (_ =? _)%Z = false |- _ => apply Z.eqb_neq in H
  end.

(** ** Lists *)

Lemma elem_of_concat_imap {A B} (f : nat → A → list B) (l : list A) (x : B) :
  x ∈ concat (imap f l) ↔ ∃ i y, l !! i = Some y ∧ x ∈ f i y.
Proof.
  rewrite list_elem_of_In, in_concat. split.
  - intros (ys & Hys & Hx). apply list_elem_of_In, list_elem_of_lookup in Hys as [i Hi].
    rewrite list_lookup_imap in Hi. destruct (l !! i) as [y|] eqn:Hy; [|done].
    injection Hi as <-. exists i, y. by rewrite list_elem_of_In.
  - intros (i & y & Hy & Hx). exists (f i y). split; [|by apply list_elem_of_In].
    apply list_elem_of_In, list_elem_of_lookup. exists i. by rewrite list_lookup_imap, Hy.
Qed.

Lemma existsb_elem_of {A} (p : A → bool) (l : list A) :
  existsb p l = true ↔ ∃ x, x ∈ l ∧ p x = true.
Proof. rewrite existsb_exists. setoid_rewrite list_elem_of_In. done. Qed.

Lemma empty_iff {A} (l : list A) : l = [] ↔ ∀ x, x ∉ l.
Proof.
  split; [intros -> x; apply not_elem_of_nil|].
  destruct l as [|x l]; [done|]. intros H. destruct (H x). by left.
Qed.

(** ** Runs of a transition system *)

Section runs.
Context {S : Type} (step : S → S → Prop).

(** Invariants of a transition system extend to its runs. *)
Lemma rtc_inv (P : S → Prop) x y :
  (∀ a b, P a → step a b → P b) → P x → rtc step x y → P y.
Proof. intros Hstep HP. induction 1; eauto. Qed.

(** Two-state facts that are reflexive and transitive extend to runs. *)
Lemma rtc_rel (I : S → Prop) (R : S → S → Prop) `{!PreOrder R} x y :
  (∀ a b, I a → step a b → I b ∧ R a b) → I x → rtc step x y → R x y.
Proof.
  intros Hstep HI Hrun; revert HI. induction Hrun as [|a b c Hab _ IH].
  - reflexivity.
  - intros Ha. destruct (Hstep _ _ Ha Hab) as [Hb HR].
    etransitivity; [done|auto].
Qed.
End runs.

(** ** Computations that fail with one of several classes of exception *)

Definition raises_in {A} (Cs : list exn_class) (r : result A) : Prop :=
  match r with Ok _ => True | Raise e => exn_cls e ∈ Cs end.

Lemma raises_in_bind {A B} Cs (m : result A) (f : A → result B) :
  raises_in Cs m → (∀ a, m = Ok a → raises_in Cs (f a)) → raises_in Cs (m ≫= f).
Proof. destruct m; simpl; auto. Qed.

Lemma raises_in_only {A} Cs C (r : result A) :
  raises_only C r → C ∈ Cs → raises_in Cs r.
Proof. destruct r; simpl; [done|]. by intros ->. Qed.

Lemma raises_in_Ok {A} Cs (a : A) : raises_in Cs (Ok a).
Proof. done. Qed.

Lemma raises_in_raise_if Cs b e : exn_cls e ∈ Cs → raises_in Cs (raise_if b e).
Proof. by destruct b. Qed.

Lemma raises_in_fmap {A B} Cs (f : A → B) (r : result A) :
  raises_in Cs r → raises_in Cs (f <$> r).
Proof. by destruct r. Qed.

Lemma raises_in_for_each {A B} Cs (l : list A) (body : A → B → result B) acc :
  (∀ x b, x ∈ l → raises_in Cs (body x b)) → raises_in Cs (for_each l body acc).
Proof.
  revert acc; induction l as [|x l IH]; intros acc H; simpl; [done|].
  apply raises_in_bind; [apply H; by left|]. intros a _. apply IH. intros. apply H. by right.
Qed.

Ltac solve_raises_in :=
  repeat match goal with
  | |- raises_in _ (_ ≫= _) => apply raises_in_bind; [|intros ? ?]
  | |- raises_in _ (_ <$> _) => apply raises_in_fmap
  | |- raises_in _ (raise_if _ _) => apply raises_in_raise_if
  | |- raises_in _ (let _ := _ in _) => cbv zeta
  | |- raises_in _ (if ?b then _ else _) => destruct b eqn:?
  | |- raises_in _ (match ?x with _ => _ end) => destruct x eqn:?
  | |- raises_in ?Cs (Raise ?e) => change (exn_cls e ∈ Cs)
  | |- raises_in _ (Ok _) => done
  | |- exn_cls _ ∈ _ => apply (bool_decide_eq_true_1 _); reflexivity
  end; auto with raises.

(** A fallible map over [enumerate(l)]. *)
Fixpoint map_enum {A B : Type} (i : nat) (l : list A) (f : nat → A → result B)
  : result (list B) :=
  match l with
  | [] => Ok []
  | x :: l => y ← f i x; ys ← map_enum (S i) l f; Ok (y :: ys)
  end.

Section map_enum_lemmas.
Context {A B : Type} (f : nat → A → result B).

(** The outputs correspond to the inputs, position by position. *)
Lemma map_enum_Forall2 i l ys :
  map_enum i l f = Ok ys → Forall2 (λ x y, ∃ j, f j x = Ok y) l ys.
Proof.
  revert i ys; induction l as [|x l IH]; intros i ys; simpl.
  - intros [= <-]. constructor.
  - intros (y & Hy & (ys' & Hys & [= <-])%bind_Ok)%bind_Ok. constructor; eauto.
Qed.

Lemma map_enum_Ok i l ys :
  (∀ j, Forall2 (λ x y, f j x = Ok y) l ys) → map_enum i l f = Ok ys.
Proof.
  revert i ys; induction l as [|x l IH]; intros i ys H.
  - specialize (H i). by inversion H.
  - pose proof (H i) as Hi. inversion Hi; subst. simpl.
    replace (f i x) with (Ok y) by done. simpl.
    rewrite (IH (S i) l'); [done|]. intros j. specialize (H j). by inversion H.
Qed.

Lemma raises_in_map_enum Cs i l :
  (∀ j x, x ∈ l → raises_in Cs (f j x)) → raises_in Cs (map_enum i l f).
Proof.
  revert i; induction l as [|x l IH]; intros i H; simpl; [done|].
  apply raises_in_bind; [apply H; by left|]. intros y _.
  apply raises_in_bind; [|done]. apply IH. intros. apply H. by right.
Qed.

Lemma map_enum_length i l ys : map_enum i l f = Ok ys → length ys = length l.
Proof. intros H%map_enum_Forall2. symmetry. by eapply Forall2_length. Qed.
End map_enum_lemmas.

(** Elements that read back, at every position, are read back as a list. *)
Lemma map_enum_again {A V} (to_value : A → V) (read : nat → V → result A) i l :
  (∀ j x, x ∈ l → read j (to_value x) = Ok x) → map_enum i (map to_value l) read = Ok l.
Proof.
  intros H. apply map_enum_Ok. intros j. revert H. induction l as [|x l IH]; intros H;
    simpl; constructor; [apply H; by left|]. apply IH. intros ???. apply H. by right.
Qed.

Lemma map_enum_elem {A B} (f : nat → A → result B) i l ys y :
  map_enum i l f = Ok ys → y ∈ ys → ∃ j x, x ∈ l ∧ f j x = Ok y.
Proof.
  intros H%map_enum_Forall2 (k & Hk)%list_elem_of_lookup.
  destruct (Forall2_lookup_r _ _ _ _ _ H Hk) as (x & Hx & j & Hj).
  exists j, x. split; [by eapply list_elem_of_lookup_2|done].
Qed.
