(* ===== verification/PyValue.v ===== *)
(** * Python values

    The values the coordinator's tools handle are JSON documents as
    [json.loads] returns them.  A [str] is a [string] whose characters are its
    code points (so the model covers code points below 256, one [ascii] each);
    an [int] is a [Z]; a [float] is an IEEE double as a [spec_float]; a [dict]
    is its list of items in insertion order.  The file also holds the string
    predicates the sources write as regular expressions, and the rendering of
    values inside error texts. *)
From S2P Require Import Prelude.
From Stdlib Require Export Ascii.
From Stdlib Require Import SpecFloat.
Open Scope char_scope.
Open Scope stdpp_scope.

#[warnings="-register-all"]
Inductive value : Type :=
  | VNone
  | VBool (b : bool)
  | VInt (z : Z)
  | VFloat (f : spec_float)
  | VStr (s : string)
  | VList (l : list value)
  | VDict (d : list (string * value)).

Section value_ind.
Context (P : value → Prop).
Context (HNone : P VNone) (HBool : ∀ b, P (VBool b)) (HInt : ∀ z, P (VInt z))
  (HFloat : ∀ f, P (VFloat f)) (HStr : ∀ s, P (VStr s))
  (HList : ∀ l, Forall P l → P (VList l))
  (HDict : ∀ d, Forall (λ kv, P kv.2) d → P (VDict d)).

(** Induction that reaches the elements of lists and dicts. *)
Fixpoint value_nested_ind (v : value) : P v :=
  match v with
  | VNone => HNone
  | VBool b => HBool b
  | VInt z => HInt z
  | VFloat f => HFloat f
  | VStr s => HStr s
  | VList l => HList l
      ((fix go (l : list value) : Forall P l :=
          match l with
          | [] => Forall_nil_2 _
          | x :: l => Forall_cons_2 _ _ _ (value_nested_ind x) (go l)
          end) l)
  | VDict d => HDict d
      ((fix go (d : list (string * value)) : Forall (λ kv, P kv.2) d :=
          match d with
          | [] => Forall_nil_2 _
          | x :: d => Forall_cons_2 _ _ _ (value_nested_ind x.2) (go d)
          end) d)
  end.
End value_ind.

(** ** String equality and membership in constant sets *)

Notation "s =? t" := (String.eqb s t) (at level 70, no associativity) : py_scope.
Open Scope py_scope.

Definition mem_str (s : string) (l : list string) : bool := existsb (String.eqb s) l.

(** [s == o] for an optional string [o]. *)
Definition eq_opt (s : string) (o : option string) : bool :=
  match o with Some t => s =? t | None => false end.

(** ** Mappings *)

Abbreviation items := (list (string * value)).

(** [d.get(k, default)]; a [dict] holds a key once, so the first hit is it. *)
Fixpoint dict_get_or (d : items) (k : string) (default : value) : value :=
  match d with
  | [] => default
  | (k', v) :: d => if k =? k' then v else dict_get_or d k default
  end.
Definition dict_get (d : items) (k : string) : value := dict_get_or d k VNone.

Definition dict_keys (d : items) : list string := d.*1.
Definition dict_has (d : items) (k : string) : bool := mem_str k (dict_keys d).

(** [d[k] = v]: an existing key keeps its position, a new one goes last. *)
Fixpoint dict_set (d : items) (k : string) (v : value) : items :=
  match d with
  | [] => [(k, v)]
  | (k', v') :: d =>
      if k =? k' then (k, v) :: d else (k', v') :: dict_set d k v
  end.

Definition strs (l : list string) : value := VList (map VStr l).
Definition opt_str (o : option string) : value :=
  match o with None => VNone | Some s => VStr s end.
Definition opt_bool (o : option bool) : value :=
  match o with None => VNone | Some b => VBool b end.

Definition is_some {A} (o : option A) : bool :=
  match o with Some _ => true | None => false end.
Definition is_none (v : value) : bool :=
  match v with VNone => true | _ => false end.
(** [v is True], [v is False], [v is b]. *)
Definition is_bool (v : value) (b : bool) : bool :=
  match v with VBool b' => Bool.eqb b b' | _ => false end.

(** ** Strings *)

Definition slen (s : string) : Z := Z.of_nat (String.length s).

Fixpoint all_chars (p : ascii → bool) (s : string) : bool :=
  match s with
  | EmptyString => true
  | String c s => p c && all_chars p s
  end.

Definition code (c : ascii) : N := N_of_ascii c.
Definition in_range (lo hi : ascii) (c : ascii) : bool :=
  (code lo <=? code c)%N && (code c <=? code hi)%N.
Definition is_digit : ascii → bool := in_range "0" "9".
Definition is_lower : ascii → bool := in_range "a" "z".
Definition is_upper : ascii → bool := in_range "A" "Z".
Definition is_alnum (c : ascii) : bool := is_digit c || is_lower c || is_upper c.
Definition is_hex (c : ascii) : bool := is_digit c || in_range "a" "f" c.
Definition one_of (s : string) (c : ascii) : bool :=
  bool_decide (c ∈ String.list_ascii_of_string s).

(** [re.fullmatch] of [[class]{lo,hi}] and of [[head][class]{lo,hi}]. *)
Definition rx_rep (p : ascii → bool) (lo hi : Z) (s : string) : bool :=
  (lo <=? slen s)%Z && (slen s <=? hi)%Z && all_chars p s.
Definition rx_head_rep (h p : ascii → bool) (lo hi : Z) (s : string) : bool :=
  match s with
  | EmptyString => false
  | String c s => h c && rx_rep p lo hi s
  end.

Definition ends_with (s suffix : string) : bool :=
  (String.length suffix <=? String.length s)%nat &&
  bool_decide (String.substring (String.length s - String.length suffix)
    (String.length suffix) s = suffix).

Fixpoint starts_with (s prefix : string) : bool :=
  match prefix, s with
  | EmptyString, _ => true
  | String _ _, EmptyString => false
  | String p prefix, String c s => bool_decide (p = c) && starts_with s prefix
  end.

(** [needle in s] *)
Fixpoint contains (needle s : string) : bool :=
  starts_with s needle ||
  match s with EmptyString => false | String _ s => contains needle s end.

Fixpoint str_join (sep : string) (l : list string) : string :=
  match l with
  | [] => EmptyString
  | [s] => s
  | s :: l => s +:+ sep +:+ str_join sep l
  end.

(** [str(n)] and [f"{n}"]. *)
Definition str_int (z : Z) : string := pretty z.
Definition str_nat (n : nat) : string := pretty (N.of_nat n).

(** [int(s, 10)] of a text of ASCII digits; CPython refuses more than 4300. *)
Fixpoint int_of_digits (acc : Z) (s : string) : Z :=
  match s with
  | EmptyString => acc
  | String c s => int_of_digits (acc * 10 + Z.of_N (code c - 48)) s
  end.
Definition int_of_str (s : string) : result Z :=
  raise_if (4300 <? slen s)%Z
    (Exn ValueError ("Exceeds the limit (4300 digits) for integer string conversion: value has "
       +:+ str_int (slen s)
       +:+ " digits; use sys.set_int_max_str_digits() to increase the limit")) ;;
  Ok (int_of_digits 0 s).

(** [sorted(l)] on strings: by code points. *)
Definition sorted_strs (l : list string) : list string := merge_sort String.le l.

(** [sorted(set(a) - set(b))] *)
Definition sorted_diff (a b : list string) : list string :=
  sorted_strs (filter (λ k, k ∉ b) (remove_dups a)).

(** ** [repr] of a [str] *)

Definition hex_char (n : N) : ascii :=
  ascii_of_N (if (n <? 10)%N then 48 + n else 87 + n)%N.
Definition hex2 (n : N) : string :=
  String (hex_char (n / 16)) (String (hex_char (n `mod` 16)) EmptyString).

Definition quote_c : ascii := "'"%char.
Definition dquote_c : ascii := "034"%char.

Definition repr_char (quote : ascii) (c : ascii) : string :=
  let n := code c in
  if bool_decide (c = quote) || bool_decide (c = "\"%char) then
    String "\" (String c EmptyString)
  else if (n =? 9)%N then "\t" else if (n =? 10)%N then "\n"
  else if (n =? 13)%N then "\r"
  else if (n <? 32)%N || ((127 <=? n)%N && (n <=? 160)%N) || (n =? 173)%N then
    "\x" +:+ hex2 n
  else String c EmptyString.

Fixpoint flat_map_str (f : ascii → string) (s : string) : string :=
  match s with
  | EmptyString => EmptyString
  | String c s => f c +:+ flat_map_str f s
  end.

Definition repr_str (s : string) : string :=
  let chars := String.list_ascii_of_string s in
  let quote := if bool_decide (quote_c ∈ chars) && negb (bool_decide (dquote_c ∈ chars))
               then dquote_c else quote_c in
  String quote (flat_map_str (repr_char quote) s +:+ String quote EmptyString).

(** [repr] of a list of [str], as f-strings render [sorted(...)]. *)
Definition repr_strs (l : list string) : string :=
  "[" +:+ str_join ", " (map repr_str l) +:+ "]".

(** ** Lemmas on strings *)

Lemma all_chars_app p s t : all_chars p (s +:+ t) = all_chars p s && all_chars p t.
Proof.
  induction s as [|c s IH]; [done|].
  change (p c && all_chars p (s +:+ t) = all_chars p (String c s) && all_chars p t).
  simpl. by rewrite IH, andb_assoc.
Qed.

Lemma length_app_str s t : String.length (s +:+ t) = (String.length s + String.length t)%nat.
Proof.
  induction s as [|c s IH]; [done|].
  change (S (String.length (s +:+ t)) = S (String.length s + String.length t))%nat.
  by rewrite IH.
Qed.

(** ** Sets of strings as constants *)

(** [v in S] for a set [S] of strings: unhashable operands raise. *)
Definition in_strings (v : value) (S : list string) : result bool :=
  match v with
  | VStr s => Ok (mem_str s S)
  | VList _ => Raise (Exn TypeError "unhashable type: 'list'")
  | VDict _ => Raise (Exn TypeError "unhashable type: 'dict'")
  | _ => Ok false
  end.

(** [isinstance(v, str) and p(v)], else raise. *)
Definition expect_str (p : string → bool) (v : value) (e : exn) : result string :=
  match v with
  | VStr s => if p s then Ok s else Raise e
  | _ => Raise e
  end.

(** [isinstance(v, int) and not isinstance(v, bool) and p(v)], else raise. *)
Definition expect_int (p : Z → bool) (v : value) (e : exn) : result Z :=
  match v with
  | VInt z => if p z then Ok z else Raise e
  | _ => Raise e
  end.

(** [set(value) == expected] on the keys of a dict. *)
Definition same_keys (d : items) (expected : list string) : bool :=
  forallb (λ k, mem_str k expected) (dict_keys d) &&
  forallb (λ k, mem_str k (dict_keys d)) expected.

Definition keys_mismatch (d : items) (expected : list string) (field : string) : string :=
  field +:+ " keys mismatch: missing=" +:+ repr_strs (sorted_diff expected (dict_keys d))
  +:+ ", extra=" +:+ repr_strs (sorted_diff (dict_keys d) expected).

#[global] Arguments expect_str : simpl never.
#[global] Arguments expect_int : simpl never.
#[global] Arguments raise_if : simpl never.

Section expect_lemmas.
Lemma expect_str_Ok p v e s : expect_str p v e = Ok s ↔ v = VStr s ∧ p s = true.
Proof.
  unfold expect_str, expect_int. destruct v; try (split; [done|by intros [? _]]).
  split; [case_match; [intros [= ->]; auto|done]|by intros [[= ->] ->]].
Qed.

Lemma expect_str_opt p o e s :
  expect_str p (opt_str o) e = Ok s ↔ o = Some s ∧ p s = true.
Proof.
  rewrite expect_str_Ok. destruct o; simpl; split; intros [? ?]; simplify_eq; auto.
Qed.

Lemma expect_str_VStr p s e : p s = true → expect_str p (VStr s) e = Ok s.
Proof. intros Hp. by apply expect_str_Ok. Qed.


Lemma expect_int_Ok p v e z : expect_int p v e = Ok z ↔ v = VInt z ∧ p z = true.
Proof.
  unfold expect_str, expect_int. destruct v; try (split; [done|by intros [? _]]).
  split; [case_match; [intros [= ->]; auto|done]|by intros [[= ->] ->]].
Qed.


Lemma expect_int_VInt p z e : p z = true → expect_int p (VInt z) e = Ok z.
Proof. intros Hp. by apply expect_int_Ok. Qed.

Lemma mem_str_In s l : mem_str s l = true ↔ s ∈ l.
Proof.
  unfold mem_str. rewrite existsb_exists, list_elem_of_In.
  split; [by intros (t & Ht & ->%String.eqb_eq)|].
  intros Hs. exists s. by rewrite String.eqb_refl.
Qed.

Lemma eq_opt_true s o : eq_opt s o = true ↔ o = Some s.
Proof.
  destruct o; simpl; [rewrite String.eqb_eq|]; split; intros; simplify_eq; auto.
Qed.

Lemma eq_opt_false s o : eq_opt s o = false ↔ o ≠ Some s.
Proof. rewrite <- eq_opt_true. by destruct (eq_opt s o). Qed.

Lemma eq_opt_refl s : eq_opt s (Some s) = true.
Proof. apply String.eqb_refl. Qed.
End expect_lemmas.

Lemma raises_only_expect_str C p v msg : raises_only C (expect_str p v (Exn C msg)).
Proof. unfold expect_str. solve_raises. Qed.
Lemma raises_only_expect_int C p v msg : raises_only C (expect_int p v (Exn C msg)).
Proof. unfold expect_int. solve_raises. Qed.
#[export] Hint Resolve raises_only_expect_str raises_only_expect_int : raises.

(** Splits a successful chain of checks into its facts. *)
Ltac inv_checks :=
  repeat (inv_step ||
    match goal with
    | H : expect_str _ (VStr _) _ = Ok _ |- _ => apply expect_str_Ok in H as [[= <-] H]
    | H : expect_str _ (opt_str _) _ = Ok _ |- _ =>
        let E := fresh "Hopt" in apply expect_str_opt in H as [E H]
    | H : expect_str _ _ _ = Ok _ |- _ =>
        let E := fresh "Hval" in apply expect_str_Ok in H as [E H]
    | H : expect_int _ (VInt _) _ = Ok _ |- _ => apply expect_int_Ok in H as [[= <-] H]
    | H : expect_int _ _ _ = Ok _ |- _ =>
        let E := fresh "Hval" in apply expect_int_Ok in H as [E H]
    | H : (_ =? _)%py = true |- _ => apply String.eqb_eq in H
    | H : (_ =? _)%py = false |- _ => apply String.eqb_neq in H
    | H : eq_opt _ _ = true |- _ => apply eq_opt_true in H
    | H : eq_opt _ _ = false |- _ => apply eq_opt_false in H
    | H : mem_str _ _ = true |- _ => apply mem_str_In in H
    end).

Lemma raise_if_false b e : b = false → raise_if b e = Ok tt.
Proof. by intros ->. Qed.

(** Runs a chain of checks whose conditions are among the hypotheses. *)
Ltac run_checks :=
  repeat (simpl;
    first
      [ rewrite expect_str_VStr by assumption
      | rewrite expect_int_VInt by (assumption || by apply Z.ltb_lt)
      | rewrite raise_if_false by
          (reflexivity || assumption || (simpl; rewrite ?String.eqb_refl; reflexivity)) ]).

(** ** [sorted(l, key=...)] for a key that is a text *)

Definition key_leb {A} (key : A → string) (x y : A) : Prop := String.le (key x) (key y).
#[export] Instance key_leb_dec {A} (key : A → string) : RelDecision (key_leb key).
Proof. unfold key_leb. intros x y. apply _. Defined.
#[export] Instance key_leb_trans {A} (key : A → string) : Transitive (key_leb key).
Proof. intros x y z. unfold key_leb. by etransitivity. Qed.
#[export] Instance key_leb_total {A} (key : A → string) : Total (key_leb key).
Proof. intros x y. unfold key_leb. apply (total String.le). Qed.

Definition sort_by {A} (key : A → string) (l : list A) : list A := merge_sort (key_leb key) l.

Lemma key_inj {A K} (key : A → K) (l : list A) x y :
  NoDup (map key l) → x ∈ l → y ∈ l → key x = key y → x = y.
Proof.
  intros Hnd Hx Hy Heq. apply list_elem_of_lookup in Hx as [i Hi], Hy as [j Hj].
  assert (i = j) as ->; [|congruence].
  eapply NoDup_lookup; [exact Hnd|by rewrite list_lookup_fmap, Hi|].
  by rewrite list_lookup_fmap, Hj, Heq.
Qed.

Section sort_by.
Context {A : Type} (key : A → string).

Lemma sort_by_Permutation l : sort_by key l ≡ₚ l.
Proof. apply merge_sort_Permutation. Qed.

Lemma sort_by_elem l x : x ∈ sort_by key l ↔ x ∈ l.
Proof. by rewrite sort_by_Permutation. Qed.

(** Distinct keys: the order of the input does not matter. *)
Lemma sort_by_perm l l' :
  NoDup (map key l) → l ≡ₚ l' → sort_by key l = sort_by key l'.
Proof.
  intros Hnd Hp. apply (StronglySorted_unique_strong (key_leb key)).
  - intros x y Hx Hy Hxy Hyx. rewrite sort_by_elem in Hx, Hy. rewrite <- Hp in Hy.
    eapply key_inj; [done..|]. by apply (anti_symm String.le).
  - by apply StronglySorted_merge_sort; apply _.
  - by apply StronglySorted_merge_sort; apply _.
  - by rewrite !sort_by_Permutation.
Qed.

Lemma sort_by_idem l : NoDup (map key l) → sort_by key (sort_by key l) = sort_by key l.
Proof. intros Hnd. symmetry. apply sort_by_perm; [done|]. by rewrite sort_by_Permutation. Qed.

Lemma map_sort_by_NoDup {B} (f : A → B) l : NoDup (map f l) → NoDup (map f (sort_by key l)).
Proof. intros Hnd. by rewrite (sort_by_Permutation l). Qed.
End sort_by.

Lemma sorted_strs_perm l l' : l ≡ₚ l' → sorted_strs l = sorted_strs l'.
Proof.
  intros Hp. apply (StronglySorted_unique String.le);
    [by apply StronglySorted_merge_sort; apply _..|].
  unfold sorted_strs. by rewrite !merge_sort_Permutation.
Qed.

Lemma sorted_strs_Permutation l : sorted_strs l ≡ₚ l.
Proof. apply merge_sort_Permutation. Qed.

Lemma sorted_strs_idem l : sorted_strs (sorted_strs l) = sorted_strs l.
Proof. apply sorted_strs_perm, sorted_strs_Permutation. Qed.

Lemma sorted_strs_nil l : sorted_strs l = [] ↔ l = [].
Proof.
  split; [|by intros ->]. intros H. apply Permutation_nil_r.
  by rewrite <- (sorted_strs_Permutation l), H.
Qed.

(** [set(a) <= set(b)] *)
Lemma sorted_diff_nil a b : sorted_diff a b = [] ↔ a ⊆ b.
Proof.
  unfold sorted_diff. rewrite sorted_strs_nil. split.
  - intros Hnil k Hk. destruct (decide (k ∈ b)) as [|Hn]; [done|].
    assert (k ∈ filter (λ k, k ∉ b) (remove_dups a)) as Hin
      by by rewrite list_elem_of_filter, elem_of_remove_dups.
    rewrite Hnil in Hin. by apply not_elem_of_nil in Hin.
  - intros Hsub. destruct (filter (λ k, k ∉ b) (remove_dups a)) as [|k l] eqn:Hf; [done|].
    assert (k ∈ filter (λ k, k ∉ b) (remove_dups a)) as Hk by (rewrite Hf; by left).
    rewrite list_elem_of_filter, elem_of_remove_dups in Hk.
    destruct Hk as [Hn Hk]. by destruct Hn; apply Hsub.
Qed.

(** ** Dicts of typed values: [d.get(k)] and [d[k] = v] *)

Section assoc.
Context {A : Type}.
Implicit Types (l : list (string * A)) (k : string) (e : A).

Fixpoint assoc_get l k : option A :=
  match l with
  | [] => None
  | (k', e) :: l => if String.eqb k k' then Some e else assoc_get l k
  end.
Fixpoint assoc_set l k e : list (string * A) :=
  match l with
  | [] => [(k, e)]
  | (k', e') :: l => if String.eqb k k' then (k, e) :: l else (k', e') :: assoc_set l k e
  end.

Lemma assoc_get_set l k e k' :
  assoc_get (assoc_set l k e) k' = if String.eqb k' k then Some e else assoc_get l k'.
Proof.
  induction l as [|[j x] l IH]; simpl; [done|].
  destruct (String.eqb_spec k j) as [->|Hkj]; simpl; [by destruct (String.eqb k' j)|].
  rewrite IH. destruct (String.eqb_spec k' j) as [->|]; [|done].
  destruct (String.eqb_spec j k); [by subst|done].
Qed.

Lemma assoc_set_same l k e : assoc_get l k = Some e → assoc_set l k e = l.
Proof.
  induction l as [|[j x] l IH]; simpl; [done|].
  destruct (String.eqb_spec k j) as [->|]; [by intros [= ->]|]. intros H. by rewrite IH.
Qed.

Lemma assoc_set_fresh l k e : k ∉ l.*1 → assoc_set l k e = l ++ [(k, e)].
Proof.
  induction l as [|[j x] l IH]; csimpl; [done|]. rewrite not_elem_of_cons. intros [Hj Hl].
  destruct (String.eqb_spec k j); [done|]. by rewrite IH.
Qed.

Lemma assoc_set_keys l k e :
  (assoc_set l k e).*1 = if bool_decide (k ∈ l.*1) then l.*1 else l.*1 ++ [k].
Proof.
  induction l as [|[j x] l IH]; [done|]. cbn [assoc_set].
  destruct (String.eqb_spec k j) as [->|Hkj]; csimpl.
  - rewrite bool_decide_eq_true_2 by by left. done.
  - rewrite IH. case_bool_decide as H1; case_bool_decide as H2; try done.
    + destruct H2. by right.
    + apply elem_of_cons in H2 as [|]; done.
Qed.

Lemma assoc_set_NoDup l k e : NoDup l.*1 → NoDup (assoc_set l k e).*1.
Proof.
  intros Hl. rewrite assoc_set_keys. case_bool_decide as Hk; [done|].
  apply NoDup_app. split; [done|]. split; [|apply NoDup_singleton].
  intros j Hj ->%list_elem_of_singleton. done.
Qed.

Lemma assoc_get_elem l k e : NoDup l.*1 → assoc_get l k = Some e ↔ (k, e) ∈ l.
Proof.
  induction l as [|[j x] l IH]; simpl.
  { intros _. split; [done|]. by intros ?%not_elem_of_nil. }
  intros [Hj Hl]%NoDup_cons. rewrite elem_of_cons. destruct (String.eqb_spec k j) as [->|Hkj].
  - split; [intros [= ->]; by left|]. intros [[= ->]|Hin]; [done|].
    destruct Hj. by apply (list_elem_of_fmap_2 fst) in Hin.
  - rewrite IH by done. split; [by right|]. by intros [[= ? _]|].
Qed.

Lemma assoc_get_perm l l' k : NoDup l.*1 → l ≡ₚ l' → assoc_get l k = assoc_get l' k.
Proof.
  intros Hl Hp. assert (NoDup l'.*1) by by rewrite <- Hp.
  apply option_eq. intros e. by rewrite !assoc_get_elem, Hp by done.
Qed.
End assoc.
