(* ===== verification/Sha256.v ===== *)
(** * SHA-256

    [hashlib.sha256(data).hexdigest()]: the sources identify states, commands
    and documents by the digest of their canonical JSON text.  Words are [N]
    kept below [2^32]; the text is hashed as one byte per character (every
    hashed text is ASCII).  The facts other files use are that a digest is 64
    lowercase hexadecimal digits ([sha256_hex_digest]). *)
From S2P Require Import Prelude PyValue.

Module Sha.
Open Scope N_scope.

Definition w32 (x : N) : N := N.land x 0xffffffff.
Definition add32 (x y : N) : N := w32 (x + y).
Definition rotr (x n : N) : N := N.lor (N.shiftr x n) (w32 (N.shiftl x (32 - n))).

Definition ch (x y z : N) : N := N.lxor (N.land x y) (N.land (N.lxor x 0xffffffff) z).
Definition maj (x y z : N) : N :=
  N.lxor (N.land x y) (N.lxor (N.land x z) (N.land y z)).
Definition big_sigma0 (x : N) : N := N.lxor (rotr x 2) (N.lxor (rotr x 13) (rotr x 22)).
Definition big_sigma1 (x : N) : N := N.lxor (rotr x 6) (N.lxor (rotr x 11) (rotr x 25)).
Definition small_sigma0 (x : N) : N :=
  N.lxor (rotr x 7) (N.lxor (rotr x 18) (N.shiftr x 3)).
Definition small_sigma1 (x : N) : N :=
  N.lxor (rotr x 17) (N.lxor (rotr x 19) (N.shiftr x 10)).

(** The constants are the first 32 bits of the fractional parts of the cube
    roots (rounds) and square roots (initial words) of the first primes. *)
Definition is_prime (n : N) : bool :=
  forallb (λ d, negb (n mod d =? 0)) (map N.of_nat (seq 2 (N.to_nat (N.sqrt n) - 1))).
Definition primes : list N := List.filter is_prime (map N.of_nat (seq 2 310)).

(** Integer cube root, one bit at a time from the top. *)
Fixpoint cube_root (bits : nat) (n r : N) : N :=
  match bits with
  | O => r
  | S b =>
      let r' := r + N.shiftl 1 (N.of_nat b) in
      cube_root b n (if r' * r' * r' <=? n then r' else r)
  end.

Definition round_constants : list N := Eval vm_compute in
  map (λ p, w32 (cube_root 36 (N.shiftl p 96) 0)) (take 64 primes).

Record words := Words { wa : N; wb : N; wc : N; wd : N; we : N; wf : N; wg : N; wh : N }.

Definition initial_words : words := Eval vm_compute in
  match map (λ p, w32 (N.sqrt (N.shiftl p 64))) (take 8 primes) with
  | [a; b; c; d; e; f; g; h] => Words a b c d e f g h
  | _ => Words 0 0 0 0 0 0 0 0
  end.

(** The schedule is built backwards: the most recent word is first. *)
Fixpoint extend_schedule (n : nat) (w : list N) : list N :=
  match n with
  | O => w
  | S n =>
      let at_ i := nth i w 0 in
      extend_schedule n
        (add32 (add32 (small_sigma1 (at_ 1%nat)) (at_ 6%nat))
               (add32 (small_sigma0 (at_ 14%nat)) (at_ 15%nat)) :: w)
  end.

Definition round (s : words) (kw : N * N) : words :=
  let t1 := add32 (add32 (add32 (wh s) (big_sigma1 (we s))) (ch (we s) (wf s) (wg s)))
                  (add32 kw.1 kw.2) in
  let t2 := add32 (big_sigma0 (wa s)) (maj (wa s) (wb s) (wc s)) in
  Words (add32 t1 t2) (wa s) (wb s) (wc s) (add32 (wd s) t1) (we s) (wf s) (wg s).

Definition compress (s : words) (block : list N) : words :=
  let w := rev (extend_schedule 48 (rev block)) in
  let r := foldl round s (zip round_constants w) in
  Words (add32 (wa s) (wa r)) (add32 (wb s) (wb r)) (add32 (wc s) (wc r))
        (add32 (wd s) (wd r)) (add32 (we s) (we r)) (add32 (wf s) (wf r))
        (add32 (wg s) (wg r)) (add32 (wh s) (wh r)).

Fixpoint to_words (bytes : list N) : list N :=
  match bytes with
  | a :: b :: c :: d :: bytes =>
      N.lor (N.shiftl a 24) (N.lor (N.shiftl b 16) (N.lor (N.shiftl c 8) d))
        :: to_words bytes
  | _ => []
  end.

Definition be_bytes (n : nat) (x : N) : list N :=
  map (λ i, N.land (N.shiftr x (8 * N.of_nat i)) 0xff) (rev (seq 0 n)).

(** Padding to a multiple of 64 bytes: 0x80, zeros, the bit length. *)
Definition pad (bytes : list N) : list N :=
  let len := length bytes in
  let zeros := (63 - (len + 8) mod 64)%nat in
  bytes ++ [0x80] ++ repeat 0 zeros ++ be_bytes 8 (8 * N.of_nat len).

Fixpoint process (fuel : nat) (s : words) (ws : list N) : words :=
  match fuel with
  | O => s
  | S fuel =>
      match ws with
      | [] => s
      | _ => process fuel (compress s (take 16 ws)) (drop 16 ws)
      end
  end.

Definition hash_words (bytes : list N) : words :=
  let ws := to_words (pad bytes) in process (length ws) initial_words ws.

Definition hex_bytes (l : list N) : string := foldr (λ b s, hex2 b +:+ s) EmptyString l.

Definition words_list (s : words) : list N :=
  [wa s; wb s; wc s; wd s; we s; wf s; wg s; wh s].

Definition hexdigest (s : words) : string :=
  hex_bytes (mjoin (map (be_bytes 4) (words_list s))).

(** ** The digest is 64 lowercase hexadecimal digits *)

Lemma hex_char_is_hex n : n < 16 → is_hex (hex_char n) = true.
Proof.
  intros Hn. destruct n as [|p]; [done|].
  do 4 (destruct p as [p|p|]; try reflexivity); lia.
Qed.

Lemma hex_bytes_spec l :
  Forall (λ b, b < 256) l →
  String.length (hex_bytes l) = (2 * length l)%nat ∧ all_chars is_hex (hex_bytes l) = true.
Proof.
  induction 1 as [|b l Hb _ [IHl IHc]]; [done|]. split.
  - change (String.length (hex2 b +:+ hex_bytes l) = (2 * length (b :: l))%nat).
    rewrite length_app_str, IHl. simpl. lia.
  - change (all_chars is_hex (hex2 b +:+ hex_bytes l) = true).
    rewrite all_chars_app, IHc. simpl. rewrite !hex_char_is_hex; [done|..].
    + apply N.mod_lt. lia.
    + apply N.Div0.div_lt_upper_bound. lia.
Qed.

Lemma be_bytes_spec n x : length (be_bytes n x) = n ∧ Forall (λ b, b < 256) (be_bytes n x).
Proof.
  unfold be_bytes. split.
  - by rewrite length_map, length_rev, length_seq.
  - apply Forall_forall. intros b (i & -> & _)%list_elem_of_fmap.
    change 0xff with (N.ones 8). rewrite N.land_ones. apply N.mod_lt. lia.
Qed.

Lemma hexdigest_spec s :
  String.length (hexdigest s) = 64%nat ∧ all_chars is_hex (hexdigest s) = true.
Proof.
  unfold hexdigest.
  destruct (hex_bytes_spec (mjoin (map (be_bytes 4) (words_list s)))) as [Hlen Hhex].
  - apply Forall_join, Forall_forall. intros l (x & -> & _)%list_elem_of_fmap.
    apply be_bytes_spec.
  - split; [|done]. rewrite Hlen. reflexivity.
Qed.

End Sha.

(** [hashlib.sha256(text.encode(...)).hexdigest()] *)
Definition sha256_hex (text : string) : string :=
  Sha.hexdigest (Sha.hash_words (map code (String.list_ascii_of_string text))).

Lemma sha256_hex_digest text : rx_rep is_hex 64 64 (sha256_hex text) = true.
Proof.
  unfold rx_rep, slen, sha256_hex.
  destruct (Sha.hexdigest_spec (Sha.hash_words (map code (String.list_ascii_of_string text))))
    as [-> ->].
  reflexivity.
Qed.

Example sha256_abc :
  sha256_hex "abc" = "ba7816bf8f01cfea414140de5dae2223b00361a396177a9cb410ff61f20015ad".
Proof. vm_compute. reflexivity. Qed.

Example sha256_two_blocks :
  sha256_hex "abcdbcdecdefdefgefghfghighijhijkijkljklmklmnlmnomnopnopq" =
  "248d6a61d20638b8e5c026930c3e6039a33ce45964ff2167f6ecedd419db06c1".
Proof. vm_compute. reflexivity. Qed.

(** Equal digests come from equal texts or from a collision. *)
Lemma text_or_collision t u :
  sha256_hex t = sha256_hex u → t = u ∨ (t ≠ u ∧ sha256_hex t = sha256_hex u).
Proof. intros H. destruct (decide (t = u)); auto. Qed.

(** Proofs never look inside a digest; evaluation by [vm_compute] still does. *)
#[global] Opaque sha256_hex.
