(* ===== verification/Json.v ===== *)
(** * Canonical JSON

    [json.dumps(value, sort_keys=True, separators=(",", ":"),
    ensure_ascii=True)], the text every digest of the sources is taken of.
    [canonical_inj]: two documents without floats have the same canonical text
    only if they are the same document up to the order of dict items. *)
From S2P Require Import Prelude PyValue Sha256.
From Stdlib Require Import SpecFloat.

(** ** Floats: [float.__repr__], the shortest decimal that reads back *)
Module FloatRepr.
Open Scope Z_scope.

(** [num/den] of the mantissa and the half-gaps to its neighbours, scaled by
    [2^2] so that the quarter gap below a power of two is integral. *)
Definition scale (e : Z) : Z * Z :=
  if e <? 2 then (1, 2 ^ (2 - e)) else (2 ^ (e - 2), 1).

(** [10^k] as a fraction. *)
Definition ten (k : Z) : Z * Z := if k <? 0 then (1, 10 ^ (- k)) else (10 ^ k, 1).

(** The position of the decimal point: least [k] with [num/den < 10^k]. *)
Fixpoint point_from (fuel : nat) (num den k : Z) : Z :=
  match fuel with
  | O => k
  | S fuel =>
      let '(tn, td) := ten k in
      if num * td <? tn * den then k else point_from fuel num den (k + 1)
  end.

(** Nearest integer to [a/b], ties to even. *)
Definition round_div (a b : Z) : Z :=
  let q := a / b in
  match Z.compare (2 * (a mod b)) b with
  | Lt => q
  | Gt => q + 1
  | Eq => if Z.even q then q else q + 1
  end.

(** The shortest digit string [d] with [d * 10^(k - n)] inside the rounding
    interval of the double. *)
Fixpoint shortest (fuel : nat) (n : Z) (num den lo hi k : Z) (closed : bool) : Z * Z :=
  let '(tn, td) := ten (k - n) in
  let d := round_div (num * td) (den * tn) in
  match fuel with
  | O => (d, n)
  | S fuel =>
      let below := if closed then lo * td <=? d * tn * den else lo * td <? d * tn * den in
      let above := if closed then d * tn * den <=? hi * td else d * tn * den <? hi * td in
      if below && above then (d, n) else shortest fuel (n + 1) num den lo hi k closed
  end.

Definition pad_zeros (k : Z) : string :=
  Nat.iter (Z.to_nat k) (String "0") EmptyString.

Fixpoint strip_zeros (fuel : nat) (d : Z) : Z :=
  match fuel with
  | O => d
  | S fuel => if (d mod 10 =? 0) && (0 <? d) then strip_zeros fuel (d / 10) else d
  end.

(** [digits] with the decimal point [k] digits in. *)
Definition layout (digits : string) (k : Z) : string :=
  let n := slen digits in
  if (-4 <? k) && (k <=? 16) then
    if k <=? 0 then "0." +:+ pad_zeros (- k) +:+ digits
    else if n <=? k then digits +:+ pad_zeros (k - n) +:+ ".0"
    else String.substring 0 (Z.to_nat k) digits +:+ "." +:+
         String.substring (Z.to_nat k) (Z.to_nat (n - k)) digits
  else
    let e := k - 1 in
    let mant := String.substring 0 1 digits +:+
      (if n =? 1 then EmptyString
       else "." +:+ String.substring 1 (Z.to_nat (n - 1)) digits) in
    let ae := str_int (Z.abs e) in
    mant +:+ (if e <? 0 then "e-" else "e+") +:+
      (if slen ae =? 1 then "0" +:+ ae else ae).

Definition repr_pos (m e : Z) : string :=
  let '(sn, sd) := scale e in
  let num := 4 * m * sn in
  let gap := if (m =? 2 ^ 52) && (-1074 <? e) then 1 else 2 in
  let lo := num - gap * sn in
  let hi := num + 2 * sn in
  let k := point_from 700 num sd (-330) in
  let '(d, n) := shortest 16 1 num sd lo hi k (Z.even m) in
  let k := if d =? 10 ^ n then k + 1 else k in
  layout (str_int (strip_zeros 20 d)) k.
End FloatRepr.

(** [json.dumps] of a float. *)
Definition float_repr (f : spec_float) : string :=
  match f with
  | S754_zero s => if s then "-0.0" else "0.0"
  | S754_infinity s => if s then "-Infinity" else "Infinity"
  | S754_nan => "NaN"
  | S754_finite s m e =>
      let r := FloatRepr.repr_pos (Z.pos m) e in if s then "-" +:+ r else r
  end.

(** [f"{v}"] of a hashable value. *)
Definition str_scalar (v : value) : string :=
  match v with
  | VNone => "None"
  | VBool b => if b then "True" else "False"
  | VInt z => str_int z
  | VFloat (S754_infinity s) => if s then "-inf" else "inf"
  | VFloat S754_nan => "nan"
  | VFloat f => float_repr f
  | VStr s => s
  | VList _ | VDict _ => EmptyString
  end.

(** ** Strings: [ensure_ascii] escapes *)

Definition json_esc (c : ascii) : string :=
  let n := code c in
  if (n =? 34)%N then String "\" (String dquote_c EmptyString)
  else if (n =? 92)%N then "\\"
  else if (n =? 10)%N then "\n" else if (n =? 13)%N then "\r"
  else if (n =? 9)%N then "\t" else if (n =? 12)%N then "\f"
  else if (n =? 8)%N then "\b"
  else if (32 <=? n)%N && (n <=? 126)%N then String c EmptyString
  else "\u00" +:+ hex2 n.

Definition json_str (s : string) : string :=
  String dquote_c (flat_map_str json_esc s +:+ String dquote_c EmptyString).

(** ** Values *)

Definition key_le {A} (x y : string * A) : Prop := String.le x.1 y.1.
#[export] Instance key_le_dec {A} : RelDecision (@key_le A).
Proof. intros x y. unfold key_le. apply _. Defined.
#[export] Instance key_le_total {A} : Total (@key_le A).
Proof. intros x y. apply (total String.le). Qed.
#[export] Instance key_le_trans {A} : Transitive (@key_le A).
Proof. intros x y z. apply (transitivity (R := String.le)). Qed.

Definition sort_items {A} (d : list (string * A)) : list (string * A) :=
  merge_sort key_le d.

Definition render_item (kv : string * string) : string :=
  json_str kv.1 +:+ ":" +:+ kv.2.

Fixpoint canonical (v : value) : string :=
  match v with
  | VNone => "null"
  | VBool b => if b then "true" else "false"
  | VInt z => str_int z
  | VFloat f => float_repr f
  | VStr s => json_str s
  | VList l => "[" +:+ str_join "," (map canonical l) +:+ "]"
  | VDict d =>
      "{" +:+ str_join "," (map render_item
                (sort_items (map (λ kv, (kv.1, canonical kv.2)) d))) +:+ "}"
  end.

(** [hashlib.sha256(canonical).hexdigest()] *)
Definition sha256_value (v : value) : string := sha256_hex (canonical v).

(** ** Canonical text determines the document *)

(** The document with the items of every dict in key order. *)
Fixpoint norm (v : value) : value :=
  match v with
  | VList l => VList (map norm l)
  | VDict d => VDict (sort_items (map (λ kv, (kv.1, norm kv.2)) d))
  | _ => v
  end.

Fixpoint no_float (v : value) : bool :=
  match v with
  | VFloat _ => false
  | VList l => forallb no_float l
  | VDict d => forallb (λ kv, no_float kv.2) d
  | _ => true
  end.

(** The text of a document whose dicts are already sorted. *)
Fixpoint enc (v : value) : string :=
  match v with
  | VNone => "null"
  | VBool b => if b then "true" else "false"
  | VInt z => str_int z
  | VFloat f => float_repr f
  | VStr s => json_str s
  | VList l => "[" +:+ str_join "," (map enc l) +:+ "]"
  | VDict d => "{" +:+ str_join "," (map (λ kv, render_item (kv.1, enc kv.2)) d) +:+ "}"
  end.

Section merge_sort_map.
Context {A B : Type} (R : relation A) (R' : relation B) (f : A → B).
Context `{∀ x y, Decision (R x y), ∀ x y, Decision (R' x y)}.
Context (HR : ∀ x y, R' (f x) (f y) ↔ R x y).

Lemma list_merge_map l1 l2 :
  list_merge R' (map f l1) (map f l2) = map f (list_merge R l1 l2).
Proof.
  revert l2. induction l1 as [|x1 l1 IH1]; intros l2; [by destruct l2|].
  induction l2 as [|x2 l2 IH2]; [done|]. simpl.
  destruct (decide (R x1 x2)) as [HRx|HRx];
    destruct (decide (R' (f x1) (f x2))) as [HRy|HRy]; simpl.
  - f_equal. apply (IH1 (x2 :: l2)).
  - by apply HR in HRx.
  - by apply HR in HRy.
  - f_equal. apply IH2.
Qed.

Lemma merge_list_to_stack_map st l :
  merge_list_to_stack R' (map (option_map (map f)) st) (map f l) =
  map (option_map (map f)) (merge_list_to_stack R st l).
Proof.
  revert l; induction st as [|[l'|] st IH]; intros l; simpl; [done| |done].
  by rewrite list_merge_map, IH.
Qed.

Lemma merge_stack_map st :
  merge_stack R' (map (option_map (map f)) st) = map f (merge_stack R st).
Proof.
  induction st as [|[l'|] st IH]; simpl; [done| |done].
  by rewrite IH, list_merge_map.
Qed.

Lemma merge_sort_map l : merge_sort R' (map f l) = map f (merge_sort R l).
Proof.
  unfold merge_sort. change (@nil (option (list B))) with (map (option_map (map f)) []).
  generalize (@nil (option (list A))). induction l as [|x l IH]; intros st; simpl.
  - apply merge_stack_map.
  - change [f x] with (map f [x]). rewrite merge_list_to_stack_map. apply IH.
Qed.
End merge_sort_map.

Lemma canonical_norm v : canonical v = enc (norm v).
Proof.
  induction v as [|b|z|f|s|l IH|d IH] using value_nested_ind; try done.
  - simpl. do 2 f_equal. rewrite map_map.
    f_equal. induction IH as [|x l Hx _ IHl]; simpl; congruence.
  - simpl. do 2 f_equal. unfold sort_items.
    replace (map (λ kv, (kv.1, canonical kv.2)) d) with
      (map (λ kv, (kv.1, enc kv.2)) (map (λ kv, (kv.1, norm kv.2)) d)).
    + rewrite (merge_sort_map key_le key_le (λ kv, (kv.1, enc kv.2))); [|done]. by rewrite map_map.
    + rewrite map_map. induction IH as [|x d Hx _ IHd]; simpl; [done|].
      f_equal; [by rewrite Hx|exact IHd].
Qed.

(** Texts that may follow a document: they do not start with a digit. *)
Definition no_digit_head (r : string) : Prop :=
  match r with EmptyString => True | String c _ => is_digit c = false end.

Lemma app_cons_str c s t : String c s +:+ t = String c (s +:+ t).
Proof. done. Qed.
Lemma app_nil_str t : EmptyString +:+ t = t.
Proof. done. Qed.
Lemma app_assoc_str s t u : (s +:+ t) +:+ u = s +:+ (t +:+ u).
Proof. induction s as [|c s IH]; [done|]. rewrite !app_cons_str. by rewrite IH. Qed.
Lemma app_nil_r_str s : s +:+ EmptyString = s.
Proof. induction s as [|c s IH]; [done|]. rewrite app_cons_str. by rewrite IH. Qed.

(** *** Strings *)

Definition hex_val (c : ascii) : N :=
  if is_digit c then (code c - 48)%N else (code c - 87)%N.

(** Reads one character of a JSON string, [None] at the closing quote. *)
Definition unesc (s : string) : option (ascii * string) :=
  match s with
  | String "\"%char (String "u"%char (String _ (String _ (String h (String l r))))) =>
      Some (ascii_of_N (16 * hex_val h + hex_val l), r)
  | String "\"%char (String c r) =>
      Some ((if bool_decide (c = "n"%char) then "010"%char
             else if bool_decide (c = "r"%char) then "013"%char
             else if bool_decide (c = "t"%char) then "009"%char
             else if bool_decide (c = "f"%char) then "012"%char
             else if bool_decide (c = "b"%char) then "008"%char else c), r)
  | String c r => if bool_decide (c = dquote_c) then None else Some (c, r)
  | EmptyString => None
  end.

Lemma unesc_esc c r : unesc (json_esc c +:+ r) = Some (c, r).
Proof. destruct c as [[] [] [] [] [] [] [] []]; reflexivity. Qed.

Lemma json_chars_inj s t r1 r2 :
  flat_map_str json_esc s +:+ String dquote_c r1 =
  flat_map_str json_esc t +:+ String dquote_c r2 → s = t ∧ r1 = r2.
Proof.
  revert t. induction s as [|c s IH]; intros [|d t]; simpl; rewrite ?app_nil_str.
  - by intros [= ->].
  - intros Heq%(f_equal unesc). rewrite app_assoc_str, unesc_esc in Heq. discriminate Heq.
  - intros Heq%(f_equal unesc). rewrite app_assoc_str, unesc_esc in Heq. discriminate Heq.
  - intros Heq%(f_equal unesc). rewrite !app_assoc_str, !unesc_esc in Heq.
    injection Heq as -> Heq. by destruct (IH _ Heq) as [-> ->].
Qed.

Lemma json_str_inj s t r1 r2 :
  json_str s +:+ r1 = json_str t +:+ r2 → s = t ∧ r1 = r2.
Proof.
  unfold json_str. rewrite !app_cons_str, !app_assoc_str, !app_cons_str, !app_nil_str.
  intros [= Heq]. by apply json_chars_inj.
Qed.

(** *** Integers *)

Lemma pretty_N_go_digits x s :
  all_chars is_digit s = true → all_chars is_digit (pretty_N_go x s) = true.
Proof.
  revert s. induction (N.lt_wf_0 x) as [x _ IH]; intros s Hs.
  destruct (decide (0 < x)%N) as [Hx|Hx]; cycle 1.
  { replace x with 0%N by lia. by rewrite pretty_N_go_0. }
  rewrite pretty_N_go_step by done. apply IH; [by apply N.div_lt|].
  simpl. rewrite Hs, andb_true_r. unfold pretty_N_char. by repeat case_match.
Qed.

Lemma pretty_N_go_length x s : (String.length s ≤ String.length (pretty_N_go x s))%nat.
Proof.
  revert s. induction (N.lt_wf_0 x) as [x _ IH]; intros s.
  destruct (decide (0 < x)%N) as [Hx|Hx]; cycle 1.
  { replace x with 0%N by lia. by rewrite pretty_N_go_0. }
  rewrite pretty_N_go_step by done.
  etransitivity; [|apply IH; by apply N.div_lt]. simpl. lia.
Qed.

Lemma pretty_N_digits (n : N) :
  all_chars is_digit (pretty n) = true ∧ pretty n ≠ EmptyString.
Proof.
  unfold pretty, pretty_N. case_decide as Hn; [done|]. split.
  - by apply pretty_N_go_digits.
  - rewrite pretty_N_go_step by lia. intros Heq%(f_equal String.length).
    pose proof (pretty_N_go_length (n `div` 10) (String (pretty_N_char (n `mod` 10)) EmptyString))
      as Hlen. rewrite Heq in Hlen. simpl in Hlen. lia.
Qed.

Lemma digits_app_inj a b r1 r2 :
  all_chars is_digit a = true → all_chars is_digit b = true →
  no_digit_head r1 → no_digit_head r2 → a +:+ r1 = b +:+ r2 → a = b ∧ r1 = r2.
Proof.
  revert b. induction a as [|c a IH]; intros [|d b] Ha Hb H1 H2;
    rewrite ?app_nil_str, ?app_cons_str.
  - done.
  - intros ->. simpl in *. by rewrite H1 in Hb.
  - intros <-. simpl in *. by rewrite H2 in Ha.
  - intros [= -> Heq]. simpl in *. bool_hyps. by edestruct IH as [-> ->].
Qed.

Lemma pretty_N_app_inj (n m : N) r1 r2 :
  no_digit_head r1 → no_digit_head r2 →
  pretty n +:+ r1 = pretty m +:+ r2 → n = m ∧ r1 = r2.
Proof.
  intros H1 H2 Heq.
  destruct (pretty_N_digits n) as [Hn _], (pretty_N_digits m) as [Hm _].
  destruct (digits_app_inj _ _ _ _ Hn Hm H1 H2 Heq) as [Hnm ->].
  by apply (inj pretty) in Hnm.
Qed.

(** The sign and the magnitude of the decimal text. *)
Lemma str_int_sign z :
  str_int z = (if (z <? 0)%Z then "-" else EmptyString) +:+ pretty (Z.abs_N z).
Proof. by destruct z. Qed.

Lemma str_int_inj z1 z2 r1 r2 :
  no_digit_head r1 → no_digit_head r2 →
  str_int z1 +:+ r1 = str_int z2 +:+ r2 → z1 = z2 ∧ r1 = r2.
Proof.
  intros H1 H2. rewrite !str_int_sign, !app_assoc_str.
  destruct (pretty_N_digits (Z.abs_N z1)) as [Hd1 Hne1].
  destruct (pretty_N_digits (Z.abs_N z2)) as [Hd2 Hne2].
  destruct (Z.ltb_spec z1 0) as [Hz1|Hz1], (Z.ltb_spec z2 0) as [Hz2|Hz2];
    rewrite ?app_nil_str, ?app_cons_str.
  - intros [= Heq%pretty_N_app_inj]; [|done..]. split; [lia|tauto].
  - destruct (pretty (Z.abs_N z2)) as [|c s]; [done|]. rewrite app_cons_str.
    intros [= <- _]. by simpl in Hd2.
  - destruct (pretty (Z.abs_N z1)) as [|c s]; [done|]. rewrite app_cons_str.
    intros [= -> _]. by simpl in Hd1.
  - intros Heq%pretty_N_app_inj; [|done..]. split; [lia|tauto].
Qed.

(** *** The first character tells the kind of document *)

Definition tag (c : ascii) : nat :=
  if is_digit c || bool_decide (c = "-"%char) then 3
  else if bool_decide (c = "n"%char) then 0
  else if bool_decide (c = "t"%char) then 1
  else if bool_decide (c = "f"%char) then 2
  else if bool_decide (c = dquote_c) then 4
  else if bool_decide (c = "["%char) then 5
  else if bool_decide (c = "{"%char) then 6 else 7.

Definition vtag (v : value) : nat :=
  match v with
  | VNone => 0 | VBool true => 1 | VBool false => 2 | VInt _ => 3
  | VStr _ => 4 | VList _ => 5 | VDict _ => 6 | VFloat _ => 8
  end.

Lemma enc_head v : no_float v = true → ∃ c s, enc v = String c s ∧ tag c = vtag v.
Proof.
  destruct v as [|[]|z|f|s|l|d]; intros Hf; try discriminate Hf; try by eexists _, _.
  simpl. rewrite str_int_sign.
  destruct (z <? 0)%Z; [by eexists _, _|]. rewrite app_nil_str.
  destruct (pretty_N_digits (Z.abs_N z)) as [Hd Hne].
  destruct (pretty (Z.abs_N z)) as [|c s]; [done|].
  exists c, s. split; [done|]. simpl in Hd. bool_hyps.
  unfold tag. by replace (is_digit c) with true.
Qed.

(** *** Comma-separated sequences *)

Definition tail_join (sep : string) (l : list string) : string :=
  foldr (λ s acc, sep +:+ s +:+ acc) EmptyString l.

Lemma str_join_cons sep s l : str_join sep (s :: l) = s +:+ tail_join sep l.
Proof.
  revert s. induction l as [|t l IH]; intros s; simpl.
  - by rewrite app_nil_r_str.
  - simpl in IH. by rewrite IH.
Qed.

Section seq_inj.
Context {A : Type} (f : A → string) (ok : A → Prop) (close : ascii).
Context (Hclose : is_digit close = false) (Hcomma : close ≠ ","%char).
Context (Hhead : ∀ x c s, ok x → f x = String c s → c ≠ close).
Context (Hne : ∀ x, ok x → f x ≠ EmptyString).

Definition elt_inj (x : A) : Prop := ∀ y r1 r2,
  ok x → ok y → no_digit_head r1 → no_digit_head r2 →
  f x +:+ r1 = f y +:+ r2 → x = y ∧ r1 = r2.

Lemma tail_no_digit l r :
  no_digit_head (tail_join "," (map f l) +:+ String close r).
Proof. by destruct l. Qed.

Lemma tail_join_inj l1 l2 r1 r2 :
  Forall elt_inj l1 → Forall ok l1 → Forall ok l2 →
  tail_join "," (map f l1) +:+ String close r1 =
  tail_join "," (map f l2) +:+ String close r2 → l1 = l2 ∧ r1 = r2.
Proof.
  intros Hinj; revert l2. induction Hinj as [|x l1 Hx _ IH];
    intros [|y l2] Hok1 Hok2; simpl; rewrite ?app_cons_str, ?app_nil_str.
  - by intros [= ->].
  - intros [= Heq _]. by destruct Hcomma.
  - intros [= Heq _]. by destruct Hcomma.
  - inversion_clear Hok1; inversion_clear Hok2.
    rewrite !app_assoc_str. intros [= Heq].
    destruct (Hx y _ _ ltac:(done) ltac:(done) (tail_no_digit _ _) (tail_no_digit _ _) Heq)
      as [-> Htail].
    by destruct (IH l2 ltac:(done) ltac:(done) Htail) as [-> ->].
Qed.

Lemma seq_join_inj l1 l2 r1 r2 :
  Forall elt_inj l1 → Forall ok l1 → Forall ok l2 →
  str_join "," (map f l1) +:+ String close r1 =
  str_join "," (map f l2) +:+ String close r2 → l1 = l2 ∧ r1 = r2.
Proof.
  assert (Hcons : ∀ x l r s, ok x →
    (f x +:+ tail_join "," (map f l)) +:+ String close r = String close s → False).
  { intros x l r s Hok. destruct (f x) as [|c t] eqn:E; [by apply Hne in E|].
    intros [= Heq _]. by eapply Hhead. }
  destruct l1 as [|x l1], l2 as [|y l2]; intros Hinj Hok1 Hok2; simpl map;
    rewrite ?str_join_cons.
  - simpl. rewrite !app_nil_str. by intros [= ->].
  - inversion_clear Hok2. simpl str_join at 1. rewrite app_nil_str.
    intros Heq. symmetry in Heq. by eapply Hcons in Heq.
  - inversion_clear Hok1. simpl str_join. rewrite app_nil_str.
    intros Heq. by eapply Hcons in Heq.
  - inversion_clear Hok1; inversion_clear Hok2; inversion_clear Hinj as [|? ? Hx Hl].
    rewrite !app_assoc_str. intros Heq.
    destruct (Hx y _ _ ltac:(done) ltac:(done) (tail_no_digit _ _) (tail_no_digit _ _) Heq)
      as [-> Htail].
    by destruct (tail_join_inj _ _ _ _ Hl ltac:(done) ltac:(done) Htail) as [-> ->].
Qed.
End seq_inj.

Lemma no_float_list l : forallb no_float l = true → Forall (λ v, no_float v = true) l.
Proof. intros H. apply List.Forall_forall. by apply forallb_forall. Qed.

Definition enc_item (kv : string * value) : string := render_item (kv.1, enc kv.2).

Definition enc_unique (v : value) : Prop :=
  elt_inj enc (λ v, no_float v = true) v.

Lemma enc_item_unique kv :
  enc_unique kv.2 → elt_inj enc_item (λ kv, no_float kv.2 = true) kv.
Proof.
  destruct kv as [k v]. intros Hv [k' v'] r1 r2 Hok1 Hok2 H1 H2.
  unfold enc_item, render_item. simpl. rewrite !app_assoc_str.
  intros [-> Heq]%json_str_inj. rewrite !app_cons_str, !app_nil_str in Heq.
  injection Heq as Heq. simpl in *.
  by destruct (Hv v' _ _ Hok1 Hok2 H1 H2 Heq) as [-> ->].
Qed.

Lemma enc_inj v : enc_unique v.
Proof.
  unfold enc_unique.
  induction v as [|b|z|f|s|l IH|d IH] using value_nested_ind;
    intros w r1 r2 Hv Hw H1 H2 Heq;
    destruct (enc_head w Hw) as (c & s' & Hc & Htag);
    try discriminate Hv; simpl in Hv.
  all: assert (∀ c' t, tag c' ≠ vtag w → String c' t ≠ enc w +:+ r2) as Hdiff
    by (intros c' t Hne; rewrite Hc, app_cons_str; intros [= -> _]; congruence).
  - destruct w as [|[]| | | | |]; try (by apply Hdiff in Heq). simpl in Heq.
    by apply (inj (String.app _)) in Heq.
  - destruct b, w as [|[]| | | | |]; try (by apply Hdiff in Heq); simpl in Heq;
      by apply (inj (String.app _)) in Heq.
  - destruct (enc_head (VInt z) Hv) as (cz & sz & Hcz & Htz).
    simpl enc in *. destruct w as [|[]|z'| | | |]; try (rewrite Hcz in Heq; by apply Hdiff in Heq; rewrite ?Htz).
    all: try (rewrite Hcz, app_cons_str in Heq; apply Hdiff in Heq; [done|by rewrite Htz]).
    by apply str_int_inj in Heq as [-> ->].
  - destruct w as [|[]| | |s0| |]; try (by apply Hdiff in Heq).
    by apply json_str_inj in Heq as [-> ->].
  - destruct w as [|[]| | | |l'|]; try (by apply Hdiff in Heq).
    simpl in Heq. rewrite !app_cons_str, !app_assoc_str, !app_nil_str in Heq.
    injection Heq as Heq.
    apply (seq_join_inj enc (λ v, no_float v = true)) in Heq as [-> ->]; try done.
    + intros x c0 s0 Hx Hs ->. destruct (enc_head x Hx) as (? & ? & Hs' & Ht).
      rewrite Hs in Hs'. injection Hs' as <- <-. by destruct x as [|[]| | | | |].
    + intros x Hx Hs. destruct (enc_head x Hx) as (? & ? & Hs' & _). congruence.
    + by apply no_float_list.
    + by apply no_float_list.
  - destruct w as [|[]| | | | |d']; try (by apply Hdiff in Heq).
    simpl in Heq. rewrite !app_cons_str, !app_assoc_str, !app_nil_str in Heq.
    injection Heq as Heq.
    apply (seq_join_inj enc_item (λ kv, no_float kv.2 = true)) in Heq as [-> ->]; try done.
    + by intros x c0 s0 _ [= <- _].
    + eapply Forall_impl; [exact IH|]. intros kv. apply enc_item_unique.
    + apply List.Forall_forall. by apply forallb_forall.
    + apply List.Forall_forall. by apply forallb_forall.
Qed.

(** Sorting dicts keeps a document free of floats. *)
Lemma no_float_norm v : no_float v = true → no_float (norm v) = true.
Proof.
  induction v as [|b|z|f|s|l IH|d IH] using value_nested_ind; try done.
  - intros Hl%no_float_list. simpl. apply forallb_forall.
    intros x (y & <- & Hy)%in_map_iff.
    rewrite List.Forall_forall in IH, Hl. auto.
  - intros Hd. simpl in *. rewrite forallb_forall in Hd. apply forallb_forall.
    intros x Hx%list_elem_of_In. unfold sort_items in Hx.
    rewrite merge_sort_Permutation in Hx.
    apply list_elem_of_In, in_map_iff in Hx as (y & <- & Hy). simpl.
    rewrite List.Forall_forall in IH. auto.
Qed.

(** Two float-free documents with the same canonical text are equal up to the
    order of dict items. *)
Lemma canonical_inj v w :
  no_float v = true → no_float w = true →
  canonical v = canonical w → norm v = norm w.
Proof.
  intros Hv%no_float_norm Hw%no_float_norm. rewrite !canonical_norm. intros Heq.
  destruct (enc_inj (norm v) (norm w) EmptyString EmptyString) as [? _]; try done.
  by rewrite Heq.
Qed.

(** ** Records as dicts: a dict of scalars is determined by its text *)

Lemma dict_get_perm d1 d2 k x :
  d1 ≡ₚ d2 → NoDup d1.*1 → dict_get_or d1 k x = dict_get_or d2 k x.
Proof.
  induction 1 as [|[a v] d1 d2 _ IH|[a v] [b w] d|d1 d2 d3 H12 IH12 H23 IH23]; intros Hnd.
  - done.
  - simpl in *. inversion_clear Hnd. by rewrite IH.
  - simpl in *. inversion_clear Hnd as [|? ? Hnot _].
    destruct (k =? a)%py eqn:Ea, (k =? b)%py eqn:Eb; try done.
    apply String.eqb_eq in Ea, Eb. subst. destruct Hnot. by left.
  - rewrite IH12 by done. apply IH23. by rewrite <- H12.
Qed.

Definition scalar (v : value) : Prop := norm v = v.

Lemma norm_scalar_dict d : Forall (λ kv, scalar kv.2) d → norm (VDict d) = VDict (sort_items d).
Proof.
  intros Hd. simpl. do 2 f_equal.
  induction Hd as [|[k v] d Hv _ IH]; simpl in *; [done|]. unfold scalar in Hv. simpl in Hv. by rewrite Hv, IH.
Qed.

(** Two dicts of scalars with the same keys and the same canonical text hold
    the same values. *)
Lemma scalar_dict_inj d1 d2 :
  Forall (λ kv, scalar kv.2) d1 → Forall (λ kv, scalar kv.2) d2 →
  NoDup d1.*1 → NoDup d2.*1 →
  no_float (VDict d1) = true → no_float (VDict d2) = true →
  canonical (VDict d1) = canonical (VDict d2) →
  ∀ k, dict_get d1 k = dict_get d2 k.
Proof.
  intros Hs1 Hs2 Hn1 Hn2 Hf1 Hf2 Heq k.
  apply canonical_inj in Heq; [|done..].
  rewrite !norm_scalar_dict in Heq by done. injection Heq as Heq.
  unfold dict_get. rewrite <- (dict_get_perm (sort_items d1) d1), Heq.
  - apply dict_get_perm; [apply merge_sort_Permutation|].
    unfold sort_items. by rewrite merge_sort_Permutation.
  - apply merge_sort_Permutation.
  - unfold sort_items. by rewrite merge_sort_Permutation.
Qed.

Lemma opt_str_inj o p : opt_str o = opt_str p → o = p.
Proof. destruct o, p; simpl; congruence. Qed.
Lemma opt_bool_inj o p : opt_bool o = opt_bool p → o = p.
Proof. destruct o, p; simpl; congruence. Qed.
Lemma scalar_opt_str o : scalar (opt_str o).
Proof. by destruct o. Qed.
Lemma scalar_opt_bool o : scalar (opt_bool o).
Proof. by destruct o. Qed.
Lemma no_float_opt_str o : no_float (opt_str o) = true.
Proof. by destruct o. Qed.
Lemma no_float_opt_bool o : no_float (opt_bool o) = true.
Proof. by destruct o. Qed.

(** Closes the side conditions of [scalar_dict_inj] for the dict of a record. *)
Ltac record_dict :=
  first
    [ by repeat first [apply scalar_opt_str | apply scalar_opt_bool | constructor]
    | simpl; rewrite ?no_float_opt_str, ?no_float_opt_bool; reflexivity
    | vm_compute; apply (bool_decide_unpack _); vm_compute; exact I ].
