(* ===== verification/Contract.v ===== *)
(** * Checks shared by the contracts

    The scripts each carry their own copy of a handful of checks (duplicate
    JSON keys, exact key sets, digests, bounded arrays, the comparison of
    expected errors).  This file holds each check once, over the class of the
    exception the script raises, with the lemmas about it; a component's own
    definition applies it to the component's exception. *)
From S2P Require Import Prelude PyValue.

(** ** Checks *)

(** [^[0-9a-f]{64}$] and [^[a-zA-Z0-9][a-zA-Z0-9._:-]{2,127}$] *)
Definition is_sha256 (s : string) : bool := rx_rep is_hex 64 64 s.
Definition is_identifier (s : string) : bool :=
  rx_head_rep is_alnum (λ c, is_alnum c || one_of "._:-" c) 2 127 s.

(** The [object_pairs_hook] of [json.loads] that refuses repeated keys. *)
Definition pairs_of (C : exn_class) (pairs : list (string * value)) : result items :=
  for_each pairs (λ kv (result : items),
    if dict_has result kv.1 then Raise (Exn C ("duplicate JSON key: " +:+ kv.1))
    else Ok (dict_set result kv.1 kv.2)) [].

Definition exact_keys (C : exn_class) (d : items) (expected : list string) (field : string)
  : result unit :=
  raise_if (negb (same_keys d expected)) (Exn C (keys_mismatch d expected field)).

(** A non-empty array of at most [maximum] elements. *)
Definition bounded_array (v : value) (maximum : Z) (e : exn) : result (list value) :=
  match v with
  | VList l =>
      if (1 <=? Z.of_nat (length l))%Z && (Z.of_nat (length l) <=? maximum)%Z
      then Ok l else Raise e
  | _ => Raise e
  end.

Definition expect_dict (v : value) (e : exn) : result items :=
  match v with VDict d => Ok d | _ => Raise e end.

(** The comparison of the expected and the observed error of a step. *)
Definition check_error_of (C : exn_class) (error_contains : value)
    (observed : option string) (where_ : string) : result unit :=
  match error_contains with
  | VNone =>
      raise_if (is_some observed) (Exn C (where_ +:+ " had unexpected error"))
  | VStr EmptyString => Raise (Exn C "error_contains must be null or non-empty text")
  | VStr needle =>
      raise_if (match observed with None => true | Some e => negb (contains needle e) end)
        (Exn C (where_ +:+ " error mismatch"))
  | _ => Raise (Exn C "error_contains must be null or non-empty text")
  end.

(** ** Optional fields *)

Definition holds (p : string → bool) (o : option string) : Prop :=
  ∃ s, o = Some s ∧ p s = true.

(** An absent field, or a field that passes the check. *)
Definition absent_or (p : string → bool) (o : option string) : Prop :=
  o = None ∨ holds p o.

Lemma is_some_false {A} (o : option A) : is_some o = false ↔ o = None.
Proof. by destruct o. Qed.

(** ** Lemmas *)

Lemma dict_set_new d k v : k ∉ dict_keys d → dict_set d k v = d ++ [(k, v)].
Proof.
  induction d as [|[k' v'] d IH]; [done|]. simpl. rewrite not_elem_of_cons.
  intros [Hk Hd]. destruct (k =? k')%py eqn:E; [by apply String.eqb_eq in E|].
  by rewrite IH.
Qed.

Lemma pairs_loop C l acc r :
  for_each l (λ kv (result : items),
    if dict_has result kv.1 then Raise (Exn C ("duplicate JSON key: " +:+ kv.1))
    else Ok (dict_set result kv.1 kv.2)) acc = Ok r ↔
  r = acc ++ l ∧ NoDup l.*1 ∧ (∀ k, k ∈ l.*1 → k ∉ dict_keys acc).
Proof.
  revert acc. induction l as [|[k v] l IH]; intros acc; simpl.
  - rewrite app_nil_r. split; [intros [= ->]|intros (-> & _)]; [|done].
    split; [done|split; [constructor|set_solver]].
  - unfold dict_has. destruct (mem_str k (dict_keys acc)) eqn:Hk; simpl.
    + apply mem_str_In in Hk. split; [done|]. intros (_ & _ & Hnot).
      destruct (Hnot k); set_solver.
    + assert (k ∉ dict_keys acc) as Hk' by (rewrite <- mem_str_In; congruence).
      rewrite dict_set_new, IH, NoDup_cons by done. unfold dict_keys.
      rewrite fmap_app, <- app_assoc. simpl. split.
      * intros (-> & Hnd & Hnot). split; [done|]. split; [split; [|done]|].
        -- intros Hin. destruct (Hnot k Hin). set_solver.
        -- intros k2 [->|Hk2]%elem_of_cons; [done|]. specialize (Hnot k2 Hk2). set_solver.
      * intros (-> & [Hkl Hnd] & Hnot). split; [done|]. split; [done|].
        intros k2 Hk2. specialize (Hnot k2). set_solver.
Qed.

(** The hook accepts exactly the item lists without a repeated key. *)
Lemma pairs_of_Ok C l r : pairs_of C l = Ok r ↔ r = l ∧ NoDup l.*1.
Proof.
  unfold pairs_of. rewrite pairs_loop. simpl. split; [naive_solver|].
  intros [-> Hnd]. split; [done|split; [done|]]. intros k _. apply not_elem_of_nil.
Qed.

Lemma exact_keys_Ok C d expected field u :
  exact_keys C d expected field = Ok u ↔ same_keys d expected = true.
Proof. unfold exact_keys. by rewrite raise_if_Ok, negb_false_iff. Qed.

Lemma raises_only_exact_keys C d expected field :
  raises_only C (exact_keys C d expected field).
Proof. apply raises_only_raise_if. Qed.
#[export] Hint Resolve raises_only_exact_keys : raises.

(** A JSON value is an object with exactly the given items, in any order. *)
Definition is_object (v : value) (fields : items) : Prop :=
  ∃ d, v = VDict d ∧ same_keys d fields.*1 = true ∧
       Forall (λ kx, dict_get d kx.1 = kx.2) fields.

(** ** Automation for field-by-field reasoning *)

(** Turns the optional fields of a validated record into plain equations. *)
Ltac optional :=
  repeat match goal with
  | H : is_some ?o || _ = false |- _ => apply orb_false_iff in H as [H ?]
  | H : is_some ?o = false |- _ => apply is_some_false in H
  | H : negb (is_some ?o) = false |- _ => clear H
  end; simplify_eq.

(** Splits a hypothesis [x ∈ [c1; ...; cn]] into its cases. *)
Ltac split_members :=
  repeat match goal with
  | H : _ ∈ _ :: _ |- _ => apply elem_of_cons in H as [H|H]; simplify_eq/=; try done
  | H : _ ∈ [] |- _ => by apply elem_of_nil in H
  end.
