(* ===== verification/Atomicity.v ===== *)
(** * Failure-atomic delivery of the daily briefing

    Models [scripts/daily_briefing_atomicity_model.py]: the fenced delivery
    state machine ([DeliveryState], [apply], [attempt]) and the replay of a
    fixture of scenarios ([run_fixture]).  A state is only ever replaced as a
    whole, so every operation is a function from a state to a result. *)
From S2P Require Import Prelude PyValue Sha256 Json Contract.

Module Atomicity.

(** ** Constants and field checks *)

Definition MODEL_VERSION : string := "daily-briefing-atomicity/v1".
Definition FIXTURE_VERSION : string := "daily-briefing-atomicity-fixture/v1".
Definition MAX_SCENARIOS : Z := 64.
Definition MAX_STEPS : Z := 128.

Definition DIGEST (s : string) : bool := is_sha256 s.
Definition IDENTIFIER (s : string) : bool := is_identifier s.

Definition PHASES : list string :=
  ["pending"; "claimed"; "composed"; "delivery_started"; "ambiguous"; "delivered"].

Definition COMMAND_FIELDS : list (string * list string) :=
  [ ("claim", ["kind"; "fence"; "owner_digest"]);
    ("compose", ["kind"; "fence"; "input_digest"; "composition_digest"]);
    ("begin_delivery", ["kind"; "fence"; "destination_digest"; "attempt_id"]);
    ("mark_ambiguous", ["kind"; "fence"; "attempt_id"]);
    ("record_receipt", ["kind"; "fence"; "attempt_id"; "receipt_digest"]);
    ("takeover", ["kind"; "fence"; "owner_digest"]);
    ("prove_absent", ["kind"; "fence"; "attempt_id"; "reconciliation_digest"]) ].

Definition fields_of (kind : string) : option (list string) :=
  snd <$> List.find (λ kf, kind =? kf.1) COMMAND_FIELDS.

Definition err (msg : string) : exn := Exn ProtocolError msg.

Definition _pairs (pairs : list (string * value)) : result items :=
  pairs_of ProtocolError pairs.

Definition sha256 (v : value) : string := sha256_value v.

Definition _expect_digest (v : value) (field : string) : result string :=
  expect_str DIGEST v (err (field +:+ " must be a lowercase SHA-256 digest")).

Definition _expect_identifier (v : value) (field : string) : result string :=
  expect_str IDENTIFIER v (err (field +:+ " has an invalid identifier")).

Definition _expect_fence (v : value) (field : string) : result Z :=
  expect_int (λ z, (0 <? z)%Z) v (err (field +:+ " must be a positive integer")).

Definition _expect_exact_keys (d : items) (expected : list string) (field : string)
  : result unit := exact_keys ProtocolError d expected field.

(** ** State *)

Record DeliveryState : Set := mkDeliveryState {
  model_version : string;
  run_id : string;
  input_digest : string;
  policy_digest : string;
  phase : string;
  fence : Z;
  owner_digest : option string;
  composition_digest : option string;
  destination_digest : option string;
  attempt_id : option string;
  receipt_digest : option string;
  reconciled_attempt_id : option string;
  reconciliation_digest : option string }.

#[export] Instance DeliveryState_eq_dec : EqDecision DeliveryState.
Proof. solve_decision. Defined.

Definition validate (self : DeliveryState) : result unit :=
  raise_if (negb (model_version self =? MODEL_VERSION))
    (err "state model_version is unsupported") ;;
  _expect_identifier (VStr (run_id self)) "state.run_id" ;;
  _expect_digest (VStr (input_digest self)) "state.input_digest" ;;
  _expect_digest (VStr (policy_digest self)) "state.policy_digest" ;;
  raise_if (negb (mem_str (phase self) PHASES))
    (err ("unsupported phase: " +:+ phase self)) ;;
  if phase self =? "pending" then
    raise_if (negb (fence self =? 0)%Z || is_some (owner_digest self))
      (err "pending state cannot have an owner or fence") ;;
    raise_if (existsb is_some
        [composition_digest self; destination_digest self; attempt_id self;
         receipt_digest self; reconciled_attempt_id self; reconciliation_digest self])
      (err "pending state contains delivery data")
  else
    _expect_fence (VInt (fence self)) "state.fence" ;;
    raise_if (negb (is_some (owner_digest self)))
      (err "non-pending state must have an owner") ;;
    _expect_digest (opt_str (owner_digest self)) "state.owner_digest" ;;
    raise_if (xorb (is_some (reconciled_attempt_id self))
                   (is_some (reconciliation_digest self)))
      (err "reconciliation identity and digest must be paired") ;;
    (if is_some (reconciled_attempt_id self) then
       _expect_identifier (opt_str (reconciled_attempt_id self))
         "state.reconciled_attempt_id" ;;
       _expect_digest (opt_str (reconciliation_digest self))
         "state.reconciliation_digest" ;;
       Ok tt
     else Ok tt) ;;
    if phase self =? "claimed" then
      raise_if (existsb is_some
          [composition_digest self; destination_digest self; attempt_id self;
           receipt_digest self; reconciled_attempt_id self; reconciliation_digest self])
        (err "claimed state contains composed or delivery data")
    else
      _expect_digest (opt_str (composition_digest self)) "state.composition_digest" ;;
      if phase self =? "composed" then
        raise_if (existsb is_some
            [destination_digest self; attempt_id self; receipt_digest self])
          (err "composed state contains an active delivery")
      else
        _expect_digest (opt_str (destination_digest self)) "state.destination_digest" ;;
        _expect_identifier (opt_str (attempt_id self)) "state.attempt_id" ;;
        if mem_str (phase self) ["delivery_started"; "ambiguous"] then
          raise_if (is_some (receipt_digest self))
            (err (phase self +:+ " state cannot contain a delivery receipt"))
        else if phase self =? "delivered" then
          _expect_digest (opt_str (receipt_digest self)) "state.receipt_digest" ;; Ok tt
        else Ok tt.

(** [DeliveryState.initial] on the three values of a scenario. *)
Definition initial (run_id input_digest policy_digest : value) : result DeliveryState :=
  run_id ← _expect_identifier run_id "run_id";
  input_digest ← _expect_digest input_digest "input_digest";
  policy_digest ← _expect_digest policy_digest "policy_digest";
  let state := mkDeliveryState MODEL_VERSION run_id input_digest policy_digest
                 "pending" 0 None None None None None None None in
  validate state ;; Ok state.

(** [dataclasses.asdict] *)
Definition asdict (s : DeliveryState) : value :=
  VDict [ ("model_version", VStr (model_version s));
          ("run_id", VStr (run_id s));
          ("input_digest", VStr (input_digest s));
          ("policy_digest", VStr (policy_digest s));
          ("phase", VStr (phase s));
          ("fence", VInt (fence s));
          ("owner_digest", opt_str (owner_digest s));
          ("composition_digest", opt_str (composition_digest s));
          ("destination_digest", opt_str (destination_digest s));
          ("attempt_id", opt_str (attempt_id s));
          ("receipt_digest", opt_str (receipt_digest s));
          ("reconciled_attempt_id", opt_str (reconciled_attempt_id s));
          ("reconciliation_digest", opt_str (reconciliation_digest s)) ].

Definition state_sha256 (state : DeliveryState) : result string :=
  validate state ;; Ok (sha256 (asdict state)).

(** ** Commands *)

Definition _command (command : value) : result (string * Z * items) :=
  match command with
  | VDict d =>
      match dict_get d "kind" with
      | VStr kind =>
          match fields_of kind with
          | Some fields =>
              _expect_exact_keys d fields ("command." +:+ kind) ;;
              f ← _expect_fence (dict_get d "fence") "fence";
              Ok (kind, f, d)
          | None => Raise (err "command kind is unsupported")
          end
      | _ => Raise (err "command kind is unsupported")
      end
  | _ => Raise (err "command must be an object")
  end.

Definition _require_fence (state : DeliveryState) (f : Z) : result unit :=
  raise_if (negb (f =? fence state)%Z)
    (err ("stale or future fence: expected " +:+ str_int (fence state) +:+
          ", got " +:+ str_int f)).

(** What a branch of [apply] does: [return state], or falls through with
    [next_state] to the final validation. *)
Inductive outcome : Set := Return | Next (next_state : DeliveryState).

Definition with_lease (s : DeliveryState) (ph : string) (f : Z) (owner : string) :=
  mkDeliveryState (model_version s) (run_id s) (input_digest s) (policy_digest s)
    ph f (Some owner) (composition_digest s) (destination_digest s) (attempt_id s)
    (receipt_digest s) (reconciled_attempt_id s) (reconciliation_digest s).

Definition with_phase (s : DeliveryState) (ph : string) (comp dest att rcpt recid recdig :
    option string) :=
  mkDeliveryState (model_version s) (run_id s) (input_digest s) (policy_digest s)
    ph (fence s) (owner_digest s) comp dest att rcpt recid recdig.

Definition apply_claim (state : DeliveryState) (f : Z) (command : items) : result outcome :=
  owner ← _expect_digest (dict_get command "owner_digest") "owner_digest";
  if phase state =? "pending" then Ok (Next (with_lease state "claimed" f owner))
  else if (f =? fence state)%Z && eq_opt owner (owner_digest state) then Ok Return
  else Raise (err "run is already claimed; use takeover").

Definition apply_takeover (state : DeliveryState) (f : Z) (command : items)
  : result outcome :=
  owner ← _expect_digest (dict_get command "owner_digest") "owner_digest";
  raise_if (phase state =? "pending")
    (err "pending run must be claimed, not taken over") ;;
  raise_if (f <=? fence state)%Z
    (err "takeover fence must be newer than current fence") ;;
  let ph := if phase state =? "delivery_started" then "ambiguous" else phase state in
  Ok (Next (with_lease state ph f owner)).

Definition apply_compose (state : DeliveryState) (f : Z) (command : items)
  : result outcome :=
  _require_fence state f ;;
  input ← _expect_digest (dict_get command "input_digest") "input_digest";
  composition ← _expect_digest (dict_get command "composition_digest") "composition_digest";
  raise_if (negb (input =? input_digest state))
    (err "composition input does not match run input") ;;
  if phase state =? "claimed" then
    Ok (Next (with_phase state "composed" (Some composition) (destination_digest state)
      (attempt_id state) (receipt_digest state) (reconciled_attempt_id state)
      (reconciliation_digest state)))
  else if mem_str (phase state) ["composed"; "delivery_started"; "ambiguous"; "delivered"]
          && eq_opt composition (composition_digest state) then Ok Return
  else Raise (err "composition conflicts with durable state").

Definition apply_begin_delivery (state : DeliveryState) (f : Z) (command : items)
  : result outcome :=
  _require_fence state f ;;
  destination ← _expect_digest (dict_get command "destination_digest") "destination_digest";
  att ← _expect_identifier (dict_get command "attempt_id") "attempt_id";
  raise_if (eq_opt att (reconciled_attempt_id state))
    (err "a reconciled-absent attempt ID cannot be reused") ;;
  if phase state =? "composed" then
    Ok (Next (with_phase state "delivery_started" (composition_digest state)
      (Some destination) (Some att) None (reconciled_attempt_id state)
      (reconciliation_digest state)))
  else if mem_str (phase state) ["delivery_started"; "ambiguous"; "delivered"]
          && (eq_opt destination (destination_digest state)
              && eq_opt att (attempt_id state)) then Ok Return
  else Raise (err "another delivery attempt is already durable").

Definition apply_mark_ambiguous (state : DeliveryState) (f : Z) (command : items)
  : result outcome :=
  _require_fence state f ;;
  att ← _expect_identifier (dict_get command "attempt_id") "attempt_id";
  raise_if (negb (eq_opt att (attempt_id state)))
    (err "ambiguous marker does not match active attempt") ;;
  if phase state =? "delivery_started" then
    Ok (Next (with_phase state "ambiguous" (composition_digest state)
      (destination_digest state) (attempt_id state) (receipt_digest state)
      (reconciled_attempt_id state) (reconciliation_digest state)))
  else if phase state =? "ambiguous" then Ok Return
  else Raise (err "only an in-flight delivery can become ambiguous").

Definition apply_record_receipt (state : DeliveryState) (f : Z) (command : items)
  : result outcome :=
  _require_fence state f ;;
  att ← _expect_identifier (dict_get command "attempt_id") "attempt_id";
  receipt ← _expect_digest (dict_get command "receipt_digest") "receipt_digest";
  raise_if (negb (eq_opt att (attempt_id state)))
    (err "receipt does not match active attempt") ;;
  if mem_str (phase state) ["delivery_started"; "ambiguous"] then
    Ok (Next (with_phase state "delivered" (composition_digest state)
      (destination_digest state) (attempt_id state) (Some receipt)
      (reconciled_attempt_id state) (reconciliation_digest state)))
  else if (phase state =? "delivered") && eq_opt receipt (receipt_digest state) then
    Ok Return
  else Raise (err "receipt conflicts with durable delivery state").

Definition apply_prove_absent (state : DeliveryState) (f : Z) (command : items)
  : result outcome :=
  _require_fence state f ;;
  att ← _expect_identifier (dict_get command "attempt_id") "attempt_id";
  evidence ← _expect_digest (dict_get command "reconciliation_digest")
    "reconciliation_digest";
  if (phase state =? "ambiguous") && eq_opt att (attempt_id state) then
    Ok (Next (with_phase state "composed" (composition_digest state)
      None None None (Some att) (Some evidence)))
  else if (phase state =? "composed") && eq_opt att (reconciled_attempt_id state)
          && eq_opt evidence (reconciliation_digest state) then Ok Return
  else Raise (err "absence proof must match the current ambiguous attempt").

Definition dispatch (state : DeliveryState) (kind : string) (f : Z) (command : items)
  : result outcome :=
  if kind =? "claim" then apply_claim state f command
  else if kind =? "takeover" then apply_takeover state f command
  else if kind =? "compose" then apply_compose state f command
  else if kind =? "begin_delivery" then apply_begin_delivery state f command
  else if kind =? "mark_ambiguous" then apply_mark_ambiguous state f command
  else if kind =? "record_receipt" then apply_record_receipt state f command
  else if kind =? "prove_absent" then apply_prove_absent state f command
  else Raise (err ("unsupported command kind: " +:+ kind)).

Definition apply (state : DeliveryState) (command : value) : result DeliveryState :=
  validate state ;;
  '(kind, f, d) ← _command command;
  out ← dispatch state kind f d;
  match out with
  | Return => Ok state
  | Next next_state => validate next_state ;; Ok next_state
  end.

Record AttemptResult : Set := mkAttempt {
  ok : bool; changed : bool; state : DeliveryState;
  before_sha256 : string; command_sha256 : string; after_sha256 : string;
  error : option string }.

(** [except ProtocolError] turns the exception into a result; any other
    exception, and one raised outside the [try], propagates. *)
Definition attempt (st : DeliveryState) (command : value) : result AttemptResult :=
  before ← state_sha256 st;
  let command_digest := sha256 command in
  match apply st command with
  | Raise (Exn ProtocolError msg) =>
      Ok (mkAttempt false false st before command_digest before (Some msg))
  | Raise e => Raise e
  | Ok next_state =>
      after ← state_sha256 next_state;
      Ok (mkAttempt true (negb (after =? before)) next_state before command_digest
            after None)
  end.

(** ** Replaying a fixture *)

Definition check_error : value → option string → string → result unit :=
  check_error_of ProtocolError.

Definition step_receipt (r : AttemptResult) : value :=
  VDict [ ("ok", VBool (ok r)); ("changed", VBool (changed r));
          ("before_sha256", VStr (before_sha256 r));
          ("command_sha256", VStr (command_sha256 r));
          ("after_sha256", VStr (after_sha256 r));
          ("error", opt_str (error r)) ].

(** One iteration of the loop over a scenario's steps. *)
Definition run_step (scenario_id : string) (step_index : nat) (step : value)
    (acc : DeliveryState * list value) : result (DeliveryState * list value) :=
  let '(st, step_receipts) := acc in
  let where_ := "scenario " +:+ scenario_id +:+ " step " +:+ str_nat step_index in
  step ← expect_dict step (err (where_ +:+ " must be an object"));
  _expect_exact_keys step ["command"; "expect_ok"; "expect_changed"; "error_contains"]
    ("scenario." +:+ scenario_id +:+ ".steps[" +:+ str_nat step_index +:+ "]") ;;
  command ← expect_dict (dict_get step "command")
    (err (where_ +:+ " command must be an object"));
  r ← attempt st (VDict command);
  raise_if (negb (is_bool (dict_get step "expect_ok") (ok r)))
    (err (where_ +:+ " ok mismatch")) ;;
  raise_if (negb (is_bool (dict_get step "expect_changed") (changed r)))
    (err (where_ +:+ " change mismatch")) ;;
  check_error (dict_get step "error_contains") (error r) where_ ;;
  Ok (state r, step_receipts ++ [step_receipt r]).

Definition run_scenario (scenario_index : nat) (scenario : value) (receipts : list value)
  : result (list value) :=
  let at_ := "[" +:+ str_nat scenario_index +:+ "]" in
  scenario ← expect_dict scenario
    (err ("scenario " +:+ str_nat scenario_index +:+ " must be an object"));
  _expect_exact_keys scenario ["id"; "initial"; "steps"; "expected_final_phase"]
    ("scenario" +:+ at_) ;;
  scenario_id ← _expect_identifier (dict_get scenario "id") ("scenario" +:+ at_ +:+ ".id");
  init ← expect_dict (dict_get scenario "initial")
    (err ("scenario " +:+ scenario_id +:+ " initial must be an object"));
  _expect_exact_keys init ["run_id"; "input_digest"; "policy_digest"]
    ("scenario." +:+ scenario_id +:+ ".initial") ;;
  st ← initial (dict_get init "run_id") (dict_get init "input_digest")
         (dict_get init "policy_digest");
  steps ← bounded_array (dict_get scenario "steps") MAX_STEPS
    (err ("scenario " +:+ scenario_id +:+ " has invalid steps"));
  '(final, step_receipts) ← for_enum 0 steps (run_step scenario_id) (st, []);
  let expected_phase := dict_get scenario "expected_final_phase" in
  known ← in_strings expected_phase PHASES;
  raise_if (negb known || negb (str_scalar expected_phase =? phase final))
    (err ("scenario " +:+ scenario_id +:+ " final phase mismatch: expected "
          +:+ str_scalar expected_phase +:+ ", got " +:+ phase final)) ;;
  final_sha ← state_sha256 final;
  Ok (receipts ++
      [VDict [ ("scenario_id", VStr scenario_id); ("final_phase", VStr (phase final));
               ("final_state_sha256", VStr final_sha);
               ("steps", VList step_receipts) ]]).

Definition run_fixture (value : items) : result items :=
  _expect_exact_keys value ["schema_version"; "scenarios"] "fixture" ;;
  raise_if (match dict_get value "schema_version" with
            | VStr s => negb (s =? FIXTURE_VERSION) | _ => true end)
    (err "fixture schema_version is unsupported") ;;
  scenarios ← bounded_array (dict_get value "scenarios") MAX_SCENARIOS
    (err "fixture scenarios must be a bounded non-empty array");
  receipts ← for_enum 0 scenarios run_scenario [];
  Ok [ ("model_version", VStr MODEL_VERSION); ("fixture_version", VStr FIXTURE_VERSION);
       ("scenario_count", VInt (Z.of_nat (length receipts)));
       ("receipt_sha256", VStr (sha256 (VList receipts)));
       ("scenarios", VList receipts) ].

(** ** Well-formed states *)

Abbreviation digest_opt := (holds DIGEST).
Abbreviation ident_opt := (holds IDENTIFIER).

Record base_ok (s : DeliveryState) : Prop := {
  bo_version : model_version s = MODEL_VERSION;
  bo_run : IDENTIFIER (run_id s) = true;
  bo_input : DIGEST (input_digest s) = true;
  bo_policy : DIGEST (policy_digest s) = true }.

(** The reconciliation evidence is absent, or a pair of an attempt and a digest. *)
Definition recon_ok (s : DeliveryState) : Prop :=
  (reconciled_attempt_id s = None ∧ reconciliation_digest s = None) ∨
  (ident_opt (reconciled_attempt_id s) ∧ digest_opt (reconciliation_digest s)).

Definition no_delivery (s : DeliveryState) : Prop :=
  destination_digest s = None ∧ attempt_id s = None ∧ receipt_digest s = None.
Definition no_data (s : DeliveryState) : Prop :=
  composition_digest s = None ∧ no_delivery s ∧
  reconciled_attempt_id s = None ∧ reconciliation_digest s = None.
Definition leased (s : DeliveryState) : Prop :=
  (0 < fence s)%Z ∧ digest_opt (owner_digest s).
Definition bound (s : DeliveryState) : Prop :=
  digest_opt (composition_digest s) ∧ digest_opt (destination_digest s) ∧
  ident_opt (attempt_id s).

(** What each phase of the protocol carries. *)
Inductive data_ok (s : DeliveryState) : Prop :=
  | pending_ok : phase s = "pending" → fence s = 0%Z → owner_digest s = None →
      no_data s → data_ok s
  | claimed_ok : phase s = "claimed" → leased s → no_data s → data_ok s
  | composed_ok : phase s = "composed" → leased s → recon_ok s →
      digest_opt (composition_digest s) → no_delivery s → data_ok s
  | started_ok : phase s = "delivery_started" → leased s → recon_ok s → bound s →
      receipt_digest s = None → data_ok s
  | ambiguous_ok : phase s = "ambiguous" → leased s → recon_ok s → bound s →
      receipt_digest s = None → data_ok s
  | delivered_ok : phase s = "delivered" → leased s → recon_ok s → bound s →
      digest_opt (receipt_digest s) → data_ok s.

Definition Wf (s : DeliveryState) : Prop := base_ok s ∧ data_ok s.

Ltac unpack :=
  unfold leased, bound, recon_ok, no_data, no_delivery, holds in *;
  repeat match goal with
  | H : _ ∧ _ |- _ => destruct H
  | H : ∃ _, _ |- _ => destruct H
  | H : _ ∨ _ |- _ => destruct H
  | H : base_ok _ |- _ => destruct H
  end; simplify_eq/=.

Lemma Wf_validate s : Wf s → validate s = Ok tt.
Proof.
  intros [Hb Hd]. destruct s as [mv run inp pol ph f ow comp dest att rc rid rdg].
  destruct Hd; unpack; unfold validate, _expect_identifier, _expect_digest, _expect_fence;
    by run_checks.
Qed.

Ltac data_facts :=
  unfold no_data, no_delivery, leased, bound, recon_ok, holds; simpl;
  repeat split; try lia; solve [eauto 7 | left; eauto | right; eauto 7].

Lemma validate_Wf s : validate s = Ok tt → Wf s.
Proof.
  destruct s as [mv run inp pol ph f ow comp dest att rc rid rdg].
  unfold validate, _expect_identifier, _expect_digest, _expect_fence.
  cbn [model_version run_id input_digest policy_digest phase fence owner_digest
    composition_digest destination_digest attempt_id receipt_digest
    reconciled_attempt_id reconciliation_digest].
  intros H. repeat inv_step. bool_hyps.
  repeat match goal with
  | H : expect_str _ _ _ = Ok _ |- _ => apply expect_str_Ok in H as [[= <-] H] end.
  apply String.eqb_eq in Hok. apply mem_str_In in Hok3. split; [by split|].
  unfold PHASES in Hok3. rewrite !elem_of_cons, elem_of_nil in Hok3.
  destruct Hok3 as [->|[->|[->|[->|[->|[->|[]]]]]]]; simpl in H; inv_checks; optional.
  all: bool_hyps; unfold DIGEST, IDENTIFIER in *; repeat case_match; inv_checks; optional.
  all: repeat match goal with H : xorb _ (is_some ?o) = false |- _ => destruct o; [discriminate H|clear H] end.
  all: first [apply pending_ok; data_facts | apply claimed_ok; data_facts
    | apply composed_ok; data_facts | apply started_ok; data_facts
    | apply ambiguous_ok; data_facts | apply delivered_ok; data_facts].
Qed.

Lemma validate_iff s : validate s = Ok tt ↔ Wf s.
Proof. split; [apply validate_Wf|apply Wf_validate]. Qed.

(** ** Abstract protocol

    The protocol as a relation between states and parsed commands, one rule per
    way a command can succeed. *)

Inductive cmd : Set :=
  | Claim (f : Z) (owner : string)
  | Takeover (f : Z) (owner : string)
  | Compose (f : Z) (input composition : string)
  | BeginDelivery (f : Z) (destination att : string)
  | MarkAmbiguous (f : Z) (att : string)
  | RecordReceipt (f : Z) (att receipt : string)
  | ProveAbsent (f : Z) (att evidence : string).

Definition cmd_fence (c : cmd) : Z :=
  match c with
  | Claim f _ | Takeover f _ | Compose f _ _ | BeginDelivery f _ _
  | MarkAmbiguous f _ | RecordReceipt f _ _ | ProveAbsent f _ _ => f
  end.

(** The JSON object of a command. *)
Definition cmd_fields (c : cmd) : items :=
  match c with
  | Claim f o => [("kind", VStr "claim"); ("fence", VInt f); ("owner_digest", VStr o)]
  | Takeover f o =>
      [("kind", VStr "takeover"); ("fence", VInt f); ("owner_digest", VStr o)]
  | Compose f i c =>
      [("kind", VStr "compose"); ("fence", VInt f); ("input_digest", VStr i);
       ("composition_digest", VStr c)]
  | BeginDelivery f d a =>
      [("kind", VStr "begin_delivery"); ("fence", VInt f); ("destination_digest", VStr d);
       ("attempt_id", VStr a)]
  | MarkAmbiguous f a =>
      [("kind", VStr "mark_ambiguous"); ("fence", VInt f); ("attempt_id", VStr a)]
  | RecordReceipt f a r =>
      [("kind", VStr "record_receipt"); ("fence", VInt f); ("attempt_id", VStr a);
       ("receipt_digest", VStr r)]
  | ProveAbsent f a e =>
      [("kind", VStr "prove_absent"); ("fence", VInt f); ("attempt_id", VStr a);
       ("reconciliation_digest", VStr e)]
  end.

Definition cmd_ok (c : cmd) : Prop :=
  (0 < cmd_fence c)%Z ∧
  match c with
  | Claim _ o | Takeover _ o => DIGEST o = true
  | Compose _ i c => DIGEST i = true ∧ DIGEST c = true
  | BeginDelivery _ d a => DIGEST d = true ∧ IDENTIFIER a = true
  | MarkAmbiguous _ a => IDENTIFIER a = true
  | RecordReceipt _ a r | ProveAbsent _ a r => IDENTIFIER a = true ∧ DIGEST r = true
  end.

(** A JSON value is the object of a command, its keys in any order. *)
Definition encodes (v : value) (c : cmd) : Prop := is_object v (cmd_fields c).

(** The rules of the protocol, as the code has them; [takeover_newer] does not ask
    for another owner. *)
Inductive step (s : DeliveryState) : cmd → DeliveryState → Prop :=
  | claim_pending f o : phase s = "pending" →
      step s (Claim f o) (with_lease s "claimed" f o)
  | claim_replay f o : phase s ≠ "pending" → f = fence s → owner_digest s = Some o →
      step s (Claim f o) s
  | takeover_newer f o ph : phase s ≠ "pending" → (fence s < f)%Z →
      ph = (if phase s =? "delivery_started" then "ambiguous" else phase s) →
      step s (Takeover f o) (with_lease s ph f o)
  | compose_claimed f c : f = fence s → phase s = "claimed" →
      step s (Compose f (input_digest s) c)
        (with_phase s "composed" (Some c) (destination_digest s) (attempt_id s)
           (receipt_digest s) (reconciled_attempt_id s) (reconciliation_digest s))
  | compose_replay f c : f = fence s → phase s ≠ "pending" → phase s ≠ "claimed" →
      composition_digest s = Some c → step s (Compose f (input_digest s) c) s
  | begin_composed f d a : f = fence s → reconciled_attempt_id s ≠ Some a →
      phase s = "composed" →
      step s (BeginDelivery f d a)
        (with_phase s "delivery_started" (composition_digest s) (Some d) (Some a) None
           (reconciled_attempt_id s) (reconciliation_digest s))
  | begin_replay f d a : f = fence s → reconciled_attempt_id s ≠ Some a →
      phase s ∈ ["delivery_started"; "ambiguous"; "delivered"] →
      destination_digest s = Some d → attempt_id s = Some a →
      step s (BeginDelivery f d a) s
  | mark_started f a : f = fence s → attempt_id s = Some a →
      phase s = "delivery_started" →
      step s (MarkAmbiguous f a)
        (with_phase s "ambiguous" (composition_digest s) (destination_digest s)
           (attempt_id s) (receipt_digest s) (reconciled_attempt_id s)
           (reconciliation_digest s))
  | mark_replay f a : f = fence s → attempt_id s = Some a → phase s = "ambiguous" →
      step s (MarkAmbiguous f a) s
  | receipt_new f a r : f = fence s → attempt_id s = Some a →
      phase s ∈ ["delivery_started"; "ambiguous"] →
      step s (RecordReceipt f a r)
        (with_phase s "delivered" (composition_digest s) (destination_digest s)
           (attempt_id s) (Some r) (reconciled_attempt_id s) (reconciliation_digest s))
  | receipt_replay f a r : f = fence s → attempt_id s = Some a → phase s = "delivered" →
      receipt_digest s = Some r → step s (RecordReceipt f a r) s
  | absent_ambiguous f a e : f = fence s → phase s = "ambiguous" → attempt_id s = Some a →
      step s (ProveAbsent f a e)
        (with_phase s "composed" (composition_digest s) None None None (Some a) (Some e))
  | absent_replay f a e : f = fence s → phase s = "composed" →
      reconciled_attempt_id s = Some a → reconciliation_digest s = Some e →
      step s (ProveAbsent f a e) s.

Definition out_state (s : DeliveryState) (o : outcome) : DeliveryState :=
  match o with Return => s | Next n => n end.

(** Steps preserve well-formedness: the validation that ends [apply] never
    rejects what a branch built. *)
Lemma step_Wf s c s' : Wf s → cmd_ok c → step s c s' → Wf s'.
Proof.
  intros [Hb Hd] [Hf Hc] Hstep.
  assert (base_ok s') as Hb' by (destruct Hstep; destruct Hb; by split).
  split; [done|]. clear Hb Hb'. destruct s as [mv run inp pol ph f0 ow comp dest att rc rid rdg].
  destruct Hstep; simpl in *; try done; destruct Hd; simpl in *; subst; try done; unpack;
    repeat match goal with H : _ ∈ _ :: _ |- _ =>
      rewrite ?elem_of_cons, ?elem_of_nil in H; destruct H as [H|H]; try done end;
    try (destruct H as [H|[]]; done); subst; simpl.
  all: first [apply claimed_ok; data_facts | apply composed_ok; data_facts
    | apply started_ok; data_facts | apply ambiguous_ok; data_facts
    | apply delivered_ok; data_facts].
Qed.

(** ** The code refines the abstract protocol *)

Lemma command_inv v kind f d :
  _command v = Ok (kind, f, d) ↔
  v = VDict d ∧ dict_get d "kind" = VStr kind ∧
  (∃ fields, fields_of kind = Some fields ∧ same_keys d fields = true) ∧
  dict_get d "fence" = VInt f ∧ (0 < f)%Z.
Proof.
  unfold _command. split.
  - intros H. destruct v as [| | | | | |d']; try discriminate H.
    destruct (dict_get d' "kind") as [| | | |k| |] eqn:Hk; try discriminate H.
    destruct (fields_of k) as [fields|] eqn:Hf; try discriminate H.
    unfold _expect_fence, _expect_exact_keys, exact_keys in H. inv_checks. bool_hyps. eauto 10.
  - intros (-> & -> & (fields & -> & Hkeys) & Hf & Hpos).
    unfold _expect_fence, _expect_exact_keys, exact_keys. rewrite Hf, Hkeys. by run_checks.
Qed.

Lemma fields_of_inv kind fields :
  fields_of kind = Some fields →
  kind ∈ ["claim"; "compose"; "begin_delivery"; "mark_ambiguous"; "record_receipt";
          "takeover"; "prove_absent"].
Proof.
  unfold fields_of. destruct (List.find _ _) as [kf|] eqn:Hf; [|done]. intros _.
  apply List.find_some in Hf as [Hin Heq%String.eqb_eq]. subst kind.
  apply list_elem_of_In in Hin. unfold COMMAND_FIELDS in Hin.
  rewrite !elem_of_cons, elem_of_nil in Hin. rewrite !elem_of_cons, elem_of_nil.
  naive_solver.
Qed.

Ltac unfold_branches :=
  unfold apply_claim, apply_takeover, apply_compose, apply_begin_delivery,
    apply_mark_ambiguous, apply_record_receipt, apply_prove_absent,
    _require_fence, _expect_digest, _expect_identifier in *.

(** Decides the conditions of a branch one by one. *)
Ltac branch_cases H :=
  repeat match type of H with
  | (if ?b then _ else _) = Ok _ => destruct b eqn:?
  end; repeat (progress (inv_checks; bool_hyps)).

Ltac encode_cmd :=
  subst; split;
    [eexists; split; [reflexivity|split; [assumption|]];
     cbn [cmd_fields]; rewrite !Forall_cons, Forall_nil; by eauto 10
    |split; [by split; auto| ] ].

Section refinement.
#[local] Arguments mem_str : simpl never.

Lemma dispatch_step s v kind f d out :
  _command v = Ok (kind, f, d) → dispatch s kind f d = Ok out →
  ∃ c, encodes v c ∧ cmd_ok c ∧ step s c (out_state s out).
Proof.
  intros (-> & Hkind & (fields & Hfields & Hkeys) & Hfence & Hpos)%command_inv.
  pose proof (fields_of_inv _ _ Hfields) as Hin.
  rewrite !elem_of_cons, elem_of_nil in Hin.
  destruct Hin as [->|[->|[->|[->|[->|[->|[->|[]]]]]]]];
    unfold dispatch; simpl; injection Hfields as <-; unfold_branches; intros H;
    inv_checks; bool_hyps; branch_cases H; simpl in *.
  - eexists (Claim _ _). encode_cmd. by apply claim_pending.
  - eexists (Claim _ _). encode_cmd. by apply claim_replay.
  - eexists (Compose _ _ _). encode_cmd. by apply compose_claimed.
  - eexists (Compose _ _ _). encode_cmd.
    apply compose_replay; [done| |done|done].
    intros Hp. rewrite Hp, !elem_of_cons, elem_of_nil in H. naive_solver.
  - eexists (BeginDelivery _ _ _). encode_cmd. by apply begin_composed.
  - eexists (BeginDelivery _ _ _). encode_cmd. by apply begin_replay.
  - eexists (MarkAmbiguous _ _). encode_cmd. by apply mark_started.
  - eexists (MarkAmbiguous _ _). encode_cmd. by apply mark_replay.
  - eexists (RecordReceipt _ _ _). encode_cmd. by apply receipt_new.
  - eexists (RecordReceipt _ _ _). encode_cmd. by apply receipt_replay.
  - eexists (Takeover _ _). encode_cmd. by apply takeover_newer.
  - eexists (ProveAbsent _ _ _). encode_cmd. by apply absent_ambiguous.
  - eexists (ProveAbsent _ _ _). encode_cmd. by apply absent_replay.
Qed.

Definition cmd_kind (c : cmd) : string :=
  match c with
  | Claim _ _ => "claim" | Takeover _ _ => "takeover" | Compose _ _ _ => "compose"
  | BeginDelivery _ _ _ => "begin_delivery" | MarkAmbiguous _ _ => "mark_ambiguous"
  | RecordReceipt _ _ _ => "record_receipt" | ProveAbsent _ _ _ => "prove_absent"
  end.

Lemma encodes_command v c d :
  v = VDict d → encodes v c → cmd_ok c → _command v = Ok (cmd_kind c, cmd_fence c, d).
Proof.
  intros -> (d' & [= <-] & Hkeys & Hget) [Hpos _]. apply command_inv.
  split; [done|]. destruct c; cbn [cmd_fields] in *; rewrite !Forall_cons in Hget;
    destruct Hget as (? & ? & _);
    (split; [done|split; [by eexists; split|done]]).
Qed.

(** Evaluates the conditions of a branch from the premises of a rule. *)
Ltac eval_branch :=
  repeat (simpl; first
    [ rewrite expect_str_VStr by assumption
    | rewrite Z.eqb_refl
    | rewrite String.eqb_refl
    | match goal with
      | H : phase ?s = _ |- context [phase ?s =? _] => rewrite H
      | H : phase ?s ≠ ?p |- context [phase ?s =? ?p] =>
          rewrite (proj2 (String.eqb_neq _ _) H)
      | H : phase ?s ∈ ?l |- context [mem_str (phase ?s) ?l] =>
          rewrite (proj2 (mem_str_In _ _) H)
      | H : ?o = Some ?x |- context [eq_opt ?x ?o] =>
          rewrite (proj2 (eq_opt_true _ _) H)
      | H : ?o ≠ Some ?x |- context [eq_opt ?x ?o] =>
          rewrite (proj2 (eq_opt_false _ _) H)
      | H : (?x < ?y)%Z |- context [(?y <=? ?x)%Z] =>
          rewrite (proj2 (Z.leb_gt _ _) H)
      end
    | rewrite raise_if_false by reflexivity ]).

Lemma step_dispatch s c d s' :
  Wf s → cmd_ok c → Forall (λ kx, dict_get d kx.1 = kx.2) (cmd_fields c) →
  step s c s' →
  ∃ out, dispatch s (cmd_kind c) (cmd_fence c) d = Ok out ∧ out_state s out = s'.
Proof.
  intros [_ Hd] [_ Hok] Hget Hstep. unfold dispatch.
  destruct Hstep; cbn [cmd_fields cmd_kind cmd_fence] in *; rewrite !Forall_cons in Hget;
    simpl in Hget, Hok; destruct_and?; unfold_branches;
    repeat match goal with H : dict_get _ _ = _ |- _ => rewrite H; clear H end;
    subst.
  - eexists (Next _). split; [|done]. by eval_branch.
  - eexists Return. split; [|done]. by eval_branch.
  - eexists (Next _). split; [|done]. by eval_branch.
  - eexists (Next _). split; [|done]. by eval_branch.
  - eexists Return. split; [|done].
    assert (phase s ∈ ["composed"; "delivery_started"; "ambiguous"; "delivered"]) as Hp
      by (destruct Hd; [done|done|..]; rewrite !elem_of_cons, elem_of_nil; tauto).
    by eval_branch.
  - eexists (Next _). split; [|done]. by eval_branch.
  - eexists Return. split; [|done].
    assert (phase s ≠ "composed") as Hp
      by (intros Hp; rewrite Hp, !elem_of_cons, elem_of_nil in *; naive_solver).
    by eval_branch.
  - eexists (Next _). split; [|done]. by eval_branch.
  - eexists Return. split; [|done]. by eval_branch.
  - eexists (Next _). split; [|done]. by eval_branch.
  - eexists Return. split; [|done]. by eval_branch.
  - eexists (Next _). split; [|done]. by eval_branch.
  - eexists Return. split; [|done]. by eval_branch.
Qed.

(** Forgets the branch structure of [apply]. *)
Lemma apply_steps s v s' :
  apply s v = Ok s' ↔ Wf s ∧ ∃ c, encodes v c ∧ cmd_ok c ∧ step s c s'.
Proof.
  unfold apply. split.
  - intros H. inv_step. rename Hok into Hval. destruct a. apply validate_iff in Hval.
    split; [done|]. inv_step. destruct a as [[kind f] d]. inv_step.
    destruct (dispatch_step _ _ _ _ _ _ Hok Hok0) as (c & Henc & Hcok & Hstep).
    exists c. split; [done|split; [done|]].
    destruct a; simpl in *; inv_checks; done.
  - intros (Hwf & c & Henc & Hcok & Hstep).
    rewrite (Wf_validate _ Hwf). simpl.
    destruct Henc as (d & -> & Hkeys & Hget).
    rewrite (encodes_command (VDict d) c d); [|done|by exists d|done]. simpl.
    destruct (step_dispatch s c d s' Hwf Hcok Hget Hstep) as (out & -> & Hout).
    destruct out; simpl in Hout; subst; simpl; [done|].
    by rewrite (Wf_validate _ (step_Wf _ _ _ Hwf Hcok Hstep)).
Qed.
End refinement.

Definition accepts (s s' : DeliveryState) : Prop := ∃ v, apply s v = Ok s'.

Lemma accepts_Wf s s' : accepts s s' → Wf s ∧ Wf s'.
Proof.
  intros (v & (Hwf & c & _ & Hcok & Hstep)%apply_steps). eauto using step_Wf.
Qed.

(** The object of a command, as the fixtures write it. *)
Definition cmd_value (c : cmd) : value := VDict (cmd_fields c).

Lemma cmd_value_encodes c : encodes (cmd_value c) c.
Proof.
  eexists; split; [reflexivity|]. destruct c; split; try reflexivity;
    cbn [cmd_fields]; by rewrite !Forall_cons, Forall_nil.
Qed.

Lemma accepts_step s c s' : Wf s → cmd_ok c → step s c s' → accepts s s'.
Proof. exists (cmd_value c). apply apply_steps. eauto using cmd_value_encodes. Qed.

(** A JSON value is the object of at most one command. *)
Lemma encodes_fun v c1 c2 : encodes v c1 → encodes v c2 → c1 = c2.
Proof.
  intros (d & -> & _ & H1) (d' & [= <-] & _ & H2).
  destruct c1, c2; cbn [cmd_fields] in *; rewrite !Forall_cons in H1, H2; simpl in *;
    destruct_and?; congruence.
Qed.

(** [initial] builds well-formed states. *)
Lemma initial_Wf run inp pol s : initial run inp pol = Ok s → Wf s.
Proof. unfold initial. intros H. repeat inv_step. by apply validate_iff. Qed.

(** *** What the steps of the protocol preserve *)

(** The run's identity never changes and its fence never goes back. *)
Definition same_run (s s' : DeliveryState) : Prop :=
  run_id s' = run_id s ∧ input_digest s' = input_digest s ∧
  policy_digest s' = policy_digest s ∧ (fence s ≤ fence s')%Z.

(** Once delivered, the delivery is final: only the lease may still change. *)
Definition delivery_kept (s s' : DeliveryState) : Prop :=
  phase s = "delivered" →
  phase s' = "delivered" ∧ composition_digest s' = composition_digest s ∧
  destination_digest s' = destination_digest s ∧ attempt_id s' = attempt_id s ∧
  receipt_digest s' = receipt_digest s.

#[export] Instance same_run_preorder : PreOrder same_run.
Proof.
  split.
  - intros s. by unfold same_run.
  - intros s t u (?&?&?&?) (?&?&?&?). unfold same_run. repeat split; try congruence; lia.
Qed.

#[export] Instance delivery_kept_preorder : PreOrder delivery_kept.
Proof.
  split.
  - intros s. by unfold delivery_kept.
  - intros s t u Hst Htu Hs. destruct (Hst Hs) as (Ht&?&?&?&?).
    destruct (Htu Ht) as (?&?&?&?&?). repeat split; congruence.
Qed.

Lemma step_same_run s c s' : Wf s → cmd_ok c → step s c s' → same_run s s'.
Proof.
  intros [_ Hd] [Hf _] Hstep. unfold same_run.
  destruct Hstep; simpl in *; repeat split; try lia.
  destruct Hd; try congruence; lia.
Qed.

Lemma step_delivery_kept s c s' : step s c s' → delivery_kept s s'.
Proof.
  intros Hstep Hp. destruct Hstep; simpl in *; try congruence; try by repeat split.
  - subst ph. by rewrite Hp.
  - rewrite Hp, !elem_of_cons, elem_of_nil in *. naive_solver.
Qed.

(** *** Only [ProtocolError] is raised *)

Lemma validate_raises s : raises_only ProtocolError (validate s).
Proof.
  unfold validate, _expect_identifier, _expect_digest, _expect_fence, err. solve_raises.
Qed.
#[local] Hint Resolve validate_raises : raises.

Lemma dispatch_raises s kind f d : raises_only ProtocolError (dispatch s kind f d).
Proof. unfold dispatch. unfold_branches. unfold err. solve_raises. Qed.
#[local] Hint Resolve dispatch_raises : raises.

Lemma command_raises v : raises_only ProtocolError (_command v).
Proof. unfold _command, _expect_exact_keys, _expect_fence, err. solve_raises. Qed.
#[local] Hint Resolve command_raises : raises.

Lemma apply_raises s v : raises_only ProtocolError (apply s v).
Proof. unfold apply. solve_raises. Qed.

(** *** Replays *)

Definition is_takeover (c : cmd) : bool :=
  match c with Takeover _ _ => true | _ => false end.

(** The accepting step of a command other than a takeover accepts it again
    without further change. *)
Lemma step_replay s c s' : step s c s' → is_takeover c = false → step s' c s'.
Proof.
  intros Hstep Hc. destruct Hstep; try done.
  - by apply claim_replay.
  - by apply claim_replay.
  - by apply (compose_replay (with_phase s "composed" (Some c) _ _ _ _ _)).
  - by apply compose_replay.
  - by apply begin_replay; simpl; rewrite ?elem_of_cons; auto.
  - by apply begin_replay.
  - by apply mark_replay.
  - by apply mark_replay.
  - by apply receipt_replay.
  - by apply receipt_replay.
  - by apply absent_replay.
  - by apply absent_replay.
Qed.

Lemma step_fence s c s' : step s c s' → phase s ≠ "pending" → (fence s ≤ cmd_fence c)%Z.
Proof. intros Hstep Hp. destruct Hstep; simpl; try lia; congruence. Qed.

Lemma Wf_leased s : Wf s → (0 < fence s)%Z → phase s ≠ "pending".
Proof. intros [_ Hd] Hf Hp. destruct Hd; simpl in *; try congruence; lia. Qed.

Lemma run_Wf s s' : rtc accepts s s' → Wf s → Wf s'.
Proof.
  intros Hrun Hwf. apply (rtc_inv accepts Wf s); [|done..].
  by intros a b _ [_ Hb]%accepts_Wf.
Qed.

Lemma accepts_rel s s' :
  accepts s s' → same_run s s' ∧ delivery_kept s s'.
Proof.
  intros (v & (Hwf & c & _ & Hcok & Hstep)%apply_steps).
  eauto using step_same_run, step_delivery_kept.
Qed.

(** *** Progress *)

Definition some_digest : string :=
  "0000000000000000000000000000000000000000000000000000000000000000".

(** Two attempt identities, so that one of them was not the last reconciled. *)
Lemma fresh_attempt (o : option string) : ∃ a, IDENTIFIER a = true ∧ o ≠ Some a.
Proof.
  destruct (decide (o = Some "attempt-1")) as [->|Ho].
  - by exists "attempt-2".
  - by exists "attempt-1".
Qed.

Definition rank (ph : string) : nat :=
  if ph =? "pending" then 0 else if ph =? "claimed" then 1
  else if ph =? "composed" then 2
  else if ph =? "delivered" then 4 else 3.

Lemma Wf_fence s : Wf s → phase s ≠ "pending" → (0 < fence s)%Z.
Proof. intros [_ Hd] Hp. by destruct Hd as [|? []|? []|? []|? []|? []]. Qed.

(** A run that is not delivered can always advance to a later phase. *)
Lemma progress s :
  Wf s → phase s ≠ "delivered" → ∃ s', accepts s s' ∧ rank (phase s) < rank (phase s').
Proof.
  intros Hwf Hp. pose proof (Wf_fence s Hwf) as Hf.
  assert (DIGEST some_digest = true) as Hdig by reflexivity.
  destruct (fresh_attempt (reconciled_attempt_id s)) as (a & Ha & Hne).
  assert (∀ c s', cmd_ok c → step s c s' → rank (phase s) < rank (phase s') →
    ∃ s', accepts s s' ∧ rank (phase s) < rank (phase s')) as Hgo
    by (intros c s' Hc Hs Hr; exists s'; eauto using accepts_step).
  pose proof Hwf as [[_ _ Hinp _] Hd].
  destruct Hd as [Hph|Hph _|Hph _|Hph _ _ (_ & _ & att & Hatt & Hid)
    |Hph _ _ (_ & _ & att & Hatt & Hid)|Hph]; rewrite Hph in Hf; [| | | | |done].
  - apply (Hgo (Claim 1 some_digest) _ ltac:(by split) (claim_pending s _ _ Hph)).
    rewrite Hph. by apply Nat.ltb_lt.
  - apply (Hgo (Compose (fence s) (input_digest s) some_digest) _
      ltac:(by split; [apply Hf|]) (compose_claimed s _ _ eq_refl Hph)).
    rewrite Hph. by apply Nat.ltb_lt.
  - apply (Hgo (BeginDelivery (fence s) some_digest a) _
      ltac:(by split; [apply Hf|]) (begin_composed s _ _ _ eq_refl Hne Hph)).
    rewrite Hph. by apply Nat.ltb_lt.
  - eapply (Hgo (RecordReceipt (fence s) att some_digest) _ ltac:(by split; [apply Hf|])).
    + apply receipt_new; [done|done|]. rewrite Hph, elem_of_cons. by left.
    + rewrite Hph. by apply Nat.ltb_lt.
  - eapply (Hgo (RecordReceipt (fence s) att some_digest) _ ltac:(by split; [apply Hf|])).
    + apply receipt_new; [done|done|]. rewrite Hph, !elem_of_cons. by right; left.
    + rewrite Hph. by apply Nat.ltb_lt.
Qed.

Lemma delivery_reachable_aux n s :
  4 - rank (phase s) ≤ n → Wf s → ∃ s', rtc accepts s s' ∧ phase s' = "delivered".
Proof.
  revert s; induction n as [|n IH]; intros s Hn Hwf;
    destruct (decide (phase s = "delivered")) as [Hp|Hp]; try by exists s.
  - destruct (progress s Hwf Hp) as (s' & _ & Hlt). exfalso.
    assert (rank (phase s') ≤ 4) by (unfold rank; repeat case_match; lia). lia.
  - destruct (progress s Hwf Hp) as (s' & Hacc & Hlt).
    destruct (IH s') as (t & Hrun & Ht); [lia|by apply accepts_Wf in Hacc as [_ ?]|].
    exists t. split; [by eapply rtc_l|done].
Qed.


(** *** The digest of a state determines it *)

Definition state_items (s : DeliveryState) : items :=
  match asdict s with VDict d => d | _ => [] end.

Lemma asdict_get s t k :
  canonical (asdict s) = canonical (asdict t) →
  dict_get (state_items s) k = dict_get (state_items t) k.
Proof. intros Heq. apply scalar_dict_inj; record_dict || exact Heq. Qed.

Lemma state_fields_eq s t :
  model_version s = model_version t → run_id s = run_id t →
  input_digest s = input_digest t → policy_digest s = policy_digest t →
  phase s = phase t → fence s = fence t → owner_digest s = owner_digest t →
  composition_digest s = composition_digest t →
  destination_digest s = destination_digest t → attempt_id s = attempt_id t →
  receipt_digest s = receipt_digest t →
  reconciled_attempt_id s = reconciled_attempt_id t →
  reconciliation_digest s = reconciliation_digest t → s = t.
Proof. destruct s, t. simpl. by intros -> -> -> -> -> -> -> -> -> -> -> -> ->. Qed.

Lemma asdict_inj s t : canonical (asdict s) = canonical (asdict t) → s = t.
Proof.
  intros Heq. pose proof (λ k, asdict_get s t k Heq) as Hget.
  apply state_fields_eq.
  - by injection (Hget "model_version").
  - by injection (Hget "run_id").
  - by injection (Hget "input_digest").
  - by injection (Hget "policy_digest").
  - by injection (Hget "phase").
  - by injection (Hget "fence").
  - exact (opt_str_inj _ _ (Hget "owner_digest")).
  - exact (opt_str_inj _ _ (Hget "composition_digest")).
  - exact (opt_str_inj _ _ (Hget "destination_digest")).
  - exact (opt_str_inj _ _ (Hget "attempt_id")).
  - exact (opt_str_inj _ _ (Hget "receipt_digest")).
  - exact (opt_str_inj _ _ (Hget "reconciled_attempt_id")).
  - exact (opt_str_inj _ _ (Hget "reconciliation_digest")).
Qed.

(** *** Sequences of commands *)

Definition replay (s : DeliveryState) (cs : list cmd) : result DeliveryState :=
  for_each cs (λ c s, apply s (cmd_value c)) s.

Lemma replay_app s cs ds : replay s (cs ++ ds) = s' ← replay s cs; replay s' ds.
Proof.
  unfold replay. revert s. induction cs as [|c cs IH]; intros s; [done|]. simpl.
  destruct (apply s (cmd_value c)); simpl; [apply IH|done].
Qed.

Lemma replay_cons s c cs s' :
  Wf s → cmd_ok c → step s c s' → Wf s' ∧ replay s (c :: cs) = replay s' cs.
Proof.
  intros Hwf Hok Hstep. split; [eauto using step_Wf|].
  unfold replay. simpl.
  rewrite (proj2 (apply_steps s (cmd_value c) s')); eauto using cmd_value_encodes.
Qed.

(** Begin an attempt, lose track of it, prove it absent. *)
Definition absent_commands (f : Z) (x : string) : list cmd :=
  [BeginDelivery f some_digest x; MarkAmbiguous f x; ProveAbsent f x some_digest].

Lemma absent_cycle s x :
  Wf s → phase s = "composed" → IDENTIFIER x = true → reconciled_attempt_id s ≠ Some x →
  ∃ s', replay s (absent_commands (fence s) x) = Ok s' ∧ Wf s' ∧ phase s' = "composed" ∧
        reconciled_attempt_id s' = Some x ∧ fence s' = fence s.
Proof.
  intros Hwf Hp Hx Hne.
  assert (0 < fence s)%Z as Hf by (apply Wf_fence; [done|by rewrite Hp]).
  unfold absent_commands.
  destruct (replay_cons s (BeginDelivery (fence s) some_digest x) [MarkAmbiguous (fence s) x; ProveAbsent (fence s) x some_digest] _
    Hwf ltac:(by split) (begin_composed s _ some_digest x eq_refl Hne Hp)) as [Hwf1 ->].
  match type of Hwf1 with Wf ?t => set (s1 := t) in * end.
  destruct (replay_cons s1 (MarkAmbiguous (fence s) x) [ProveAbsent (fence s) x some_digest] _
    Hwf1 ltac:(by split) (mark_started s1 (fence s) x eq_refl eq_refl eq_refl)) as [Hwf2 ->].
  match type of Hwf2 with Wf ?t => set (s2 := t) in * end.
  destruct (replay_cons s2 (ProveAbsent (fence s) x some_digest) [] _ Hwf2 ltac:(by split)
    (absent_ambiguous s2 (fence s) x some_digest eq_refl eq_refl eq_refl)) as [Hwf3 ->].
  eexists. split; [reflexivity|]. by split.
Qed.

(** ** Properties *)

(** The protocol as [docs/daily-briefing-atomicity-model.md] states it: a takeover
    needs a newer fence and another owner than the present one. *)
Definition documented (s : DeliveryState) (c : cmd) (s' : DeliveryState) : Prop :=
  step s c s' ∧ match c with Takeover _ o => owner_digest s ≠ Some o | _ => True end.
(** What the code allows besides: the present owner takes over from itself. *)
Definition retaken (s : DeliveryState) (c : cmd) (s' : DeliveryState) : Prop :=
  ∃ f o, c = Takeover f o ∧ owner_digest s = Some o ∧ phase s ≠ "pending" ∧ (fence s < f)%Z ∧
    s' = with_lease s (if phase s =? "delivery_started" then "ambiguous" else phase s) f o.

Lemma step_documented s c s' : step s c s' ↔ documented s c s' ∨ retaken s c s'.
Proof.
  split.
  - intros Hst. destruct c as [|f o| | | | |]; try by left.
    destruct (decide (owner_digest s = Some o)) as [Ho|]; [right|by left].
    inversion Hst; subst. by exists f, o.
  - intros [[Hst _]|(f & o & -> & _ & Hp & Hf & ->)]; [done|]. by apply takeover_newer.
Qed.

(** C37: refinement.  [apply] accepts a JSON command exactly when the state
    validates, the value is the object of a well-formed command and the
    documented protocol allows it, or it is a takeover by the present owner
    under a newer fence, which the document forbids and the code does not; the
    resulting state is the rule's, so the validation at the end of [apply] never
    rejects a state [apply] built. *)
Theorem apply_refines_protocol s v s' :
  apply s v = Ok s' ↔
  validate s = Ok tt ∧ ∃ c, encodes v c ∧ cmd_ok c ∧ (documented s c s' ∨ retaken s c s') ∧
    validate s' = Ok tt.
Proof.
  setoid_rewrite <- step_documented. rewrite apply_steps, validate_iff. split.
  - intros (Hwf & c & Henc & Hok & Hstep). split; [done|]. exists c.
    split; [done|split; [done|split; [done|]]]. apply Wf_validate. eauto using step_Wf.
  - intros (Hwf & c & Henc & Hok & Hstep & _). eauto.
Qed.

(** Failure atomicity.  On a valid state [attempt] always returns a
    result.  An accepted command carries the state [apply] built; a rejected
    one leaves the state and its digest as they were, reports no change, and
    carries the text of the [ProtocolError]. *)
Theorem attempt_failure_atomic s v :
  validate s = Ok tt →
  ∃ r, attempt s v = Ok r ∧ validate (state r) = Ok tt ∧
    if ok r then apply s v = Ok (state r) ∧ error r = None
    else state r = s ∧ changed r = false ∧ after_sha256 r = before_sha256 r ∧
         ∃ msg, error r = Some msg ∧ apply s v = Raise (Exn ProtocolError msg).
Proof.
  intros Hval. unfold attempt, state_sha256. rewrite Hval. simpl.
  pose proof (apply_raises s v) as Hraise.
  destruct (apply s v) as [s'|[cls msg]] eqn:Happ; simpl in Hraise.
  - assert (validate s' = Ok tt) as Hval'.
    { apply validate_iff. assert (accepts s s') as Hacc by (by exists v).
      by apply accepts_Wf in Hacc as [_ ?]. }
    rewrite Hval'. simpl. eexists. split; [reflexivity|]. by repeat split.
  - subst cls. eexists. split; [done|]. simpl. eauto 10.
Qed.

(** Change detection.  If [attempt] accepts a command and reports no change
    then the state is literally the same, or its canonical JSON text and the
    new one are different texts with the same SHA-256. *)
Theorem unchanged_is_same_state s v r :
  attempt s v = Ok r → changed r = false →
  state r = s ∨
  (canonical (asdict (state r)) ≠ canonical (asdict s) ∧
   sha256_hex (canonical (asdict (state r))) = sha256_hex (canonical (asdict s))).
Proof.
  unfold attempt, state_sha256. intros H Hch. repeat inv_step.
  destruct (apply s v) as [s'|[cls msg]] eqn:Happ.
  - repeat inv_step. cbn [changed state] in *. bool_hyps. apply String.eqb_eq in Hch.
    destruct (text_or_collision _ _ Hch) as [Heq|Hne]; [left; by apply asdict_inj|by right].
  - destruct cls; inv_step. by left.
Qed.

(** Replay safety.  A command that was accepted, unless it is a takeover, is
    accepted again in the resulting state and changes nothing. *)
Theorem accepted_command_replays s v s' :
  apply s v = Ok s' → (∀ f o, ¬ encodes v (Takeover f o)) → apply s' v = Ok s'.
Proof.
  rewrite !apply_steps. intros (Hwf & c & Henc & Hok & Hstep) Hnot.
  split; [eauto using step_Wf|]. exists c. split; [done|split; [done|]].
  eapply step_replay; [done|]. destruct c; try done. by edestruct Hnot.
Qed.

(** Fencing.  Once a run holds a fence, every command with an older fence
    is rejected with a [ProtocolError], now and after any later commands. *)
Theorem older_fence_rejected s s' v c :
  validate s = Ok tt → phase s ≠ "pending" → rtc accepts s s' →
  encodes v c → (cmd_fence c < fence s)%Z →
  ∃ msg, apply s' v = Raise (Exn ProtocolError msg).
Proof.
  intros Hwf%validate_iff Hp Hrun Henc Hlt.
  pose proof (run_Wf _ _ Hrun Hwf) as Hwf'.
  assert (same_run s s') as (_ & _ & _ & Hle).
  { apply (rtc_rel accepts Wf same_run); [|done|done].
    intros a b _ Hab. split; [by apply accepts_Wf in Hab as [_ ?]|by apply accepts_rel]. }
  destruct (apply s' v) as [t|[cls msg]] eqn:Happ.
  - apply apply_steps in Happ as (_ & c' & Henc' & _ & Hstep).
    rewrite (encodes_fun _ _ _ Henc' Henc) in Hstep.
    pose proof (Wf_fence s Hwf Hp).
    apply step_fence in Hstep; [lia|]. apply Wf_leased; [done|lia].
  - pose proof (apply_raises s' v) as Hr. rewrite Happ in Hr. simpl in Hr. subst.
    by exists msg.
Qed.

(** Identity and finality.  Along every sequence of accepted commands the
    run, its input and its policy stay the same and the fence never goes back;
    once delivered, the composition, destination, attempt and receipt never
    change, so a run records at most one receipt. *)
Theorem delivery_is_final s s' :
  rtc accepts s s' → same_run s s' ∧ delivery_kept s s'.
Proof.
  induction 1 as [s|s t u Hst _ [IH1 IH2]]; [by split; reflexivity|].
  apply accepts_rel in Hst as [H1 H2]. split; etransitivity; eauto.
Qed.

(** No blind retry.  A takeover never leaves a delivery in flight: a
    delivery that had started becomes ambiguous, with its attempt still bound. *)
Theorem takeover_makes_ambiguous s v f o s' :
  apply s v = Ok s' → encodes v (Takeover f o) →
  phase s' ≠ "delivery_started" ∧ attempt_id s' = attempt_id s ∧
  (phase s = "delivery_started" → phase s' = "ambiguous").
Proof.
  intros (_ & c & Henc & _ & Hstep)%apply_steps Htk.
  rewrite (encodes_fun _ _ _ Henc Htk) in Hstep. inversion Hstep; subst; simpl.
  destruct (phase s =? "delivery_started")%py eqn:E; inv_checks; naive_solver.
Qed.

(** The bar on reusing a reconciled attempt covers only the latest one.
    From a composed run, an attempt proved absent is refused while it is the
    latest reconciled attempt, yet accepted again once a second attempt has been
    proved absent in between. *)
Theorem reconciled_attempt_returns s a b :
  validate s = Ok tt → phase s = "composed" →
  IDENTIFIER a = true → IDENTIFIER b = true → a ≠ b → reconciled_attempt_id s ≠ Some a →
  let absent := absent_commands (fence s) in
  let begin_a := BeginDelivery (fence s) some_digest a in
  is_ok (replay s (absent a ++ [begin_a])) = false ∧
  ∃ s', replay s (absent a ++ absent b ++ [begin_a]) = Ok s' ∧
        phase s' = "delivery_started" ∧ attempt_id s' = Some a.
Proof.
  intros Hwf%validate_iff Hp Ha Hb Hne Hrec absent begin_a. subst absent begin_a.
  destruct (absent_cycle s a Hwf Hp Ha Hrec) as (s1 & H1 & Hwf1 & Hp1 & Hr1 & Hf1).
  assert (reconciled_attempt_id s1 ≠ Some b) as Hrb by congruence.
  destruct (absent_cycle s1 b Hwf1 Hp1 Hb Hrb) as (s2 & H2 & Hwf2 & Hp2 & Hr2 & Hf2).
  rewrite Hf1 in H2, Hf2. rewrite !replay_app, H1. cbn [mbind result_bind].
  rewrite replay_app, H2. cbn [mbind result_bind]. split.
  - unfold replay. simpl. destruct (apply s1 _) as [t|] eqn:E; [|done].
    apply apply_steps in E as (_ & c & Henc & _ & Hstep).
    rewrite (encodes_fun _ _ _ Henc (cmd_value_encodes _)) in Hstep.
    inversion Hstep; congruence.
  - assert (reconciled_attempt_id s2 ≠ Some a) as Hr by congruence.
    assert (0 < fence s)%Z as Hf by (apply Wf_fence; [done|by rewrite Hp]).
    destruct (replay_cons s2 (BeginDelivery (fence s) some_digest a) [] _ Hwf2
      ltac:(by split) (begin_composed s2 _ _ _ (eq_sym Hf2) Hr Hp2)) as [_ ->].
    eexists. split; [reflexivity|]. by split.
Qed.

(** C39: no dead ends.  From every valid state some sequence of accepted
    commands delivers the briefing. *)
Theorem delivery_reachable s :
  validate s = Ok tt → ∃ s', rtc accepts s s' ∧ phase s' = "delivered".
Proof. intros Hwf%validate_iff. by eapply delivery_reachable_aux. Qed.

(** Duplicate keys.  [_pairs] accepts exactly the item lists without a
    repeated key, and then keeps every item in order. *)
Theorem pairs_rejects_duplicates l r : _pairs l = Ok r ↔ r = l ∧ NoDup l.*1.
Proof. apply pairs_of_Ok. Qed.

(** ** Witnesses: the properties at concrete runs *)

Definition demo_pending : DeliveryState :=
  mkDeliveryState MODEL_VERSION "run-1" some_digest some_digest "pending" 0
    None None None None None None None.
Definition demo (cs : list cmd) : DeliveryState :=
  match replay demo_pending cs with Ok s => s | Raise _ => demo_pending end.
Definition demo_composed : DeliveryState :=
  demo [Claim 1 some_digest; Compose 1 some_digest some_digest].
Definition demo_started : DeliveryState :=
  demo [Claim 1 some_digest; Compose 1 some_digest some_digest;
        BeginDelivery 1 some_digest "attempt-1"].

(** The owner of the demo's delivery takes it over from itself. *)
Example present_owner_retakes :
  ∃ s', apply demo_started (cmd_value (Takeover 2 some_digest)) = Ok s' ∧
    retaken demo_started (Takeover 2 some_digest) s'.
Proof.
  eexists. split; [vm_compute; reflexivity|]. by exists 2%Z, some_digest.
Qed.

Lemma attempt_failure_atomic_witness :
  validate demo_started = Ok tt ∧ ∃ r, attempt demo_started VNone = Ok r ∧ ok r = false ∧
    state r = demo_started.
Proof.
  split; [vm_compute; reflexivity|].
  destruct (attempt_failure_atomic demo_started VNone eq_refl) as (r & Hr & _ & Hok).
  exists r. split; [exact Hr|].
  destruct (ok r) eqn:E; [|split; [reflexivity|by destruct Hok] ].
  destruct Hok as [Hok _]. vm_compute in Hok. discriminate Hok.
Defined.

Lemma unchanged_is_same_state_witness :
  ∃ r, attempt demo_started (cmd_value (BeginDelivery 1 some_digest "attempt-1")) = Ok r ∧
       changed r = false ∧
       (state r = demo_started ∨
        (canonical (asdict (state r)) ≠ canonical (asdict demo_started) ∧
         sha256_hex (canonical (asdict (state r))) =
         sha256_hex (canonical (asdict demo_started)))).
Proof.
  destruct (attempt demo_started (cmd_value (BeginDelivery 1 some_digest "attempt-1")))
    as [r|e] eqn:E; [|vm_compute in E; discriminate E].
  exists r. split; [reflexivity|].
  assert (changed r = false) as Hch by (vm_compute in E; injection E as <-; reflexivity).
  split; [exact Hch|]. exact (unchanged_is_same_state _ _ r E Hch).
Defined.

Lemma accepted_command_replays_witness :
  apply demo_composed (cmd_value (BeginDelivery 1 some_digest "attempt-1")) = Ok demo_started ∧
  apply demo_started (cmd_value (BeginDelivery 1 some_digest "attempt-1")) = Ok demo_started.
Proof.
  assert (apply demo_composed (cmd_value (BeginDelivery 1 some_digest "attempt-1"))
          = Ok demo_started) as H by (vm_compute; reflexivity).
  split; [exact H|]. apply (accepted_command_replays _ _ _ H).
  intros f o Henc. discriminate (encodes_fun _ _ _ Henc (cmd_value_encodes _)).
Defined.

Lemma older_fence_rejected_witness :
  let s := demo [Claim 5 some_digest] in
  ∃ msg, apply s (cmd_value (Compose 4 some_digest some_digest))
         = Raise (Exn ProtocolError msg).
Proof.
  apply (older_fence_rejected (demo [Claim 5 some_digest]) _ _
           (Compose 4 some_digest some_digest)).
  - vm_compute. reflexivity.
  - vm_compute. discriminate.
  - apply rtc_refl.
  - apply cmd_value_encodes.
  - vm_compute. reflexivity.
Defined.

Lemma delivery_is_final_witness :
  rtc accepts demo_pending demo_composed ∧
  same_run demo_pending demo_composed ∧ delivery_kept demo_pending demo_composed.
Proof.
  assert (rtc accepts demo_pending demo_composed) as H.
  { apply (rtc_l _ _ (demo [Claim 1 some_digest])).
    - exists (cmd_value (Claim 1 some_digest)). vm_compute. reflexivity.
    - apply rtc_once. exists (cmd_value (Compose 1 some_digest some_digest)).
      vm_compute. reflexivity. }
  split; [exact H|]. exact (delivery_is_final _ _ H).
Defined.

Lemma takeover_makes_ambiguous_witness :
  ∃ s', apply demo_started (cmd_value (Takeover 2 some_digest)) = Ok s' ∧
        phase s' = "ambiguous".
Proof.
  destruct (apply demo_started (cmd_value (Takeover 2 some_digest))) as [s'|e] eqn:E;
    [|vm_compute in E; discriminate E].
  exists s'. split; [reflexivity|].
  apply (takeover_makes_ambiguous demo_started _ 2 some_digest s' E).
  - exact (cmd_value_encodes (Takeover 2 some_digest)).
  - vm_compute. reflexivity.
Defined.

Lemma reconciled_attempt_returns_witness :
  ∃ s', replay demo_composed
          (absent_commands 1 "attempt-1" ++ absent_commands 1 "attempt-2" ++
           [BeginDelivery 1 some_digest "attempt-1"]) = Ok s' ∧
        phase s' = "delivery_started" ∧ attempt_id s' = Some "attempt-1".
Proof.
  apply (reconciled_attempt_returns demo_composed "attempt-1" "attempt-2");
    vm_compute; first [reflexivity | discriminate].
Defined.

Lemma delivery_reachable_witness :
  ∃ s', rtc accepts demo_started s' ∧ phase s' = "delivered".
Proof. apply delivery_reachable. vm_compute. reflexivity. Defined.

End Atomicity.
