(* ===== verification/Fabrication.v ===== *)
(** * Recovery of fenced fabrication jobs

    Models [scripts/fabrication_recovery_protocol.py]: the job state machine of
    fenced workers and broker acknowledgements ([JobState], [apply],
    [attempt]) and the replay of a fixture ([run_fixture]). *)
From S2P Require Import Prelude PyValue Sha256 Json Contract.

Module Fabrication.

(** ** Constants and field checks *)

Definition MODEL_VERSION : string := "fabrication-recovery-protocol/v1".
Definition FIXTURE_VERSION : string := "fabrication-recovery-fixture/v1".
Definition MAX_SCENARIOS : Z := 64.
Definition MAX_STEPS : Z := 160.

Definition PHASES : list string :=
  ["queued"; "running"; "failed"; "completed"; "dead-lettered"].

Definition DIGEST (s : string) : bool := is_sha256 s.
Definition IDENTIFIER (s : string) : bool := is_identifier s.
Definition FAILURE_CODE (s : string) : bool :=
  rx_head_rep is_lower (λ c, is_lower c || is_digit c || one_of "_.-" c) 2 95 s.

Definition COMMAND_FIELDS : list (string * list string) :=
  [ ("claim", ["kind"; "fence"; "worker_digest"; "delivery_count"]);
    ("checkpoint", ["kind"; "fence"; "worker_digest"; "sequence"; "checkpoint_digest";
                    "provider_task_digest"; "artifact_ref_digest"]);
    ("complete", ["kind"; "fence"; "worker_digest"; "final_artifact_digest"]);
    ("fail", ["kind"; "fence"; "worker_digest"; "failure_code"; "retryable"]);
    ("dead_letter", ["kind"; "fence"; "worker_digest"; "dlq_digest"]);
    ("ack", ["kind"; "terminal_digest"]) ].

Definition fields_of (kind : string) : option (list string) :=
  snd <$> List.find (λ kf, kind =? kf.1) COMMAND_FIELDS.

Definition err (msg : string) : exn := Exn ProtocolError msg.

Definition _pairs (pairs : list (string * value)) : result items :=
  pairs_of ProtocolError pairs.

Definition sha256 (v : value) : string := sha256_value v.

Definition _expect_exact_keys (d : items) (expected : list string) (field : string)
  : result unit := exact_keys ProtocolError d expected field.

Definition _expect_identifier (v : value) (field : string) : result string :=
  expect_str IDENTIFIER v (err (field +:+ " has an invalid identifier")).

Definition _expect_digest (v : value) (field : string) : result string :=
  expect_str DIGEST v (err (field +:+ " must be a lowercase SHA-256 digest")).

Definition _optional_digest (v : value) (field : string) : result (option string) :=
  match v with
  | VNone => Ok None
  | _ => s ← _expect_digest v field; Ok (Some s)
  end.

Definition _expect_positive (v : value) (field : string) : result Z :=
  expect_int (λ z, (0 <? z)%Z) v (err (field +:+ " must be a positive integer")).

Definition _expect_nonnegative (v : value) (field : string) : result Z :=
  expect_int (λ z, (0 <=? z)%Z) v (err (field +:+ " must be a non-negative integer")).

Definition _expect_failure_code (v : value) (field : string) : result string :=
  expect_str FAILURE_CODE v (err (field +:+ " has an invalid failure code")).

(** ** State *)

Record JobState : Set := mkJobState {
  model_version : string;
  job_id : string;
  message_id : string;
  max_deliveries : Z;
  phase : string;
  fence : Z;
  worker_digest : option string;
  delivery_count : Z;
  checkpoint_sequence : Z;
  checkpoint_digest : option string;
  provider_task_digest : option string;
  artifact_ref_digest : option string;
  final_artifact_digest : option string;
  failure_code : option string;
  retryable : option bool;
  dlq_digest : option string;
  acked : bool }.

#[export] Instance JobState_eq_dec : EqDecision JobState.
Proof. solve_decision. Defined.

(** [any(value is not None for value in (final, failure, retryable, dlq))] *)
Definition has_terminal_data (self : JobState) : bool :=
  is_some (final_artifact_digest self) || is_some (failure_code self)
  || is_some (retryable self) || is_some (dlq_digest self).

Definition validate (self : JobState) : result unit :=
  raise_if (negb (model_version self =? MODEL_VERSION))
    (err "state model_version is unsupported") ;;
  _expect_identifier (VStr (job_id self)) "state.job_id" ;;
  _expect_identifier (VStr (message_id self)) "state.message_id" ;;
  _expect_positive (VInt (max_deliveries self)) "state.max_deliveries" ;;
  raise_if (negb (mem_str (phase self) PHASES))
    (err ("unsupported state phase: " +:+ phase self)) ;;
  _expect_nonnegative (VInt (fence self)) "state.fence" ;;
  _expect_nonnegative (VInt (delivery_count self)) "state.delivery_count" ;;
  _expect_nonnegative (VInt (checkpoint_sequence self)) "state.checkpoint_sequence" ;;
  raise_if (max_deliveries self <? delivery_count self)%Z
    (err "state delivery_count exceeds max_deliveries") ;;
  (if (checkpoint_sequence self =? 0)%Z then
     raise_if (is_some (checkpoint_digest self) || is_some (provider_task_digest self)
               || is_some (artifact_ref_digest self))
       (err "checkpoint metadata requires a positive checkpoint sequence")
   else
     _expect_digest (opt_str (checkpoint_digest self)) "state.checkpoint_digest" ;;
     _optional_digest (opt_str (provider_task_digest self)) "state.provider_task_digest" ;;
     _optional_digest (opt_str (artifact_ref_digest self)) "state.artifact_ref_digest" ;;
     Ok tt) ;;
  if phase self =? "queued" then
    raise_if (negb (fence self =? 0)%Z || is_some (worker_digest self))
      (err "queued state cannot have an active lease") ;;
    raise_if (negb (delivery_count self =? 0)%Z)
      (err "initial queued state must have zero deliveries") ;;
    raise_if (has_terminal_data self || acked self)
      (err "queued state contains terminal metadata")
  else
    _expect_positive (VInt (fence self)) "state.fence" ;;
    _expect_positive (VInt (delivery_count self)) "state.delivery_count" ;;
    _expect_digest (opt_str (worker_digest self)) "state.worker_digest" ;;
    if phase self =? "running" then
      raise_if (has_terminal_data self || acked self)
        (err "running state contains terminal metadata")
    else if phase self =? "failed" then
      _expect_failure_code (opt_str (failure_code self)) "state.failure_code" ;;
      raise_if (negb (is_some (retryable self)))
        (err "failed state requires retryable boolean") ;;
      raise_if (is_some (final_artifact_digest self) || is_some (dlq_digest self))
        (err "failed state contains incompatible terminal data") ;;
      raise_if (acked self) (err "failed state cannot be broker-acked")
    else if phase self =? "completed" then
      _expect_digest (opt_str (final_artifact_digest self)) "state.final_artifact_digest" ;;
      raise_if (is_some (failure_code self) || is_some (retryable self)
                || is_some (dlq_digest self))
        (err "completed state contains failure or DLQ data")
    else if phase self =? "dead-lettered" then
      _expect_failure_code (opt_str (failure_code self)) "state.failure_code" ;;
      raise_if (negb (is_some (retryable self)))
        (err "dead-lettered state requires original retryable boolean") ;;
      _expect_digest (opt_str (dlq_digest self)) "state.dlq_digest" ;;
      raise_if (is_some (final_artifact_digest self))
        (err "dead-lettered state contains final artifact")
    else Ok tt.

Definition initial (job_id message_id max_deliveries : value) : result JobState :=
  job_id ← _expect_identifier job_id "job_id";
  message_id ← _expect_identifier message_id "message_id";
  max_deliveries ← _expect_positive max_deliveries "max_deliveries";
  let state := mkJobState MODEL_VERSION job_id message_id max_deliveries "queued" 0
                 None 0 0 None None None None None None None false in
  validate state ;; Ok state.

Definition terminal_phase (ph : string) : bool := mem_str ph ["completed"; "dead-lettered"].

(** The object [terminal_digest] hashes: everything but owner, budget and ack. *)
Definition terminal_value (self : JobState) : value :=
  VDict [ ("model_version", VStr (model_version self));
          ("job_id", VStr (job_id self));
          ("message_id", VStr (message_id self));
          ("phase", VStr (phase self));
          ("fence", VInt (fence self));
          ("delivery_count", VInt (delivery_count self));
          ("checkpoint_sequence", VInt (checkpoint_sequence self));
          ("checkpoint_digest", opt_str (checkpoint_digest self));
          ("provider_task_digest", opt_str (provider_task_digest self));
          ("artifact_ref_digest", opt_str (artifact_ref_digest self));
          ("final_artifact_digest", opt_str (final_artifact_digest self));
          ("failure_code", opt_str (failure_code self));
          ("retryable", opt_bool (retryable self));
          ("dlq_digest", opt_str (dlq_digest self)) ].

Definition terminal_digest (self : JobState) : result string :=
  validate self ;;
  raise_if (negb (terminal_phase (phase self)))
    (err "terminal digest requires committed terminal state") ;;
  Ok (sha256 (terminal_value self)).

Definition asdict (s : JobState) : value :=
  VDict [ ("model_version", VStr (model_version s));
          ("job_id", VStr (job_id s));
          ("message_id", VStr (message_id s));
          ("max_deliveries", VInt (max_deliveries s));
          ("phase", VStr (phase s));
          ("fence", VInt (fence s));
          ("worker_digest", opt_str (worker_digest s));
          ("delivery_count", VInt (delivery_count s));
          ("checkpoint_sequence", VInt (checkpoint_sequence s));
          ("checkpoint_digest", opt_str (checkpoint_digest s));
          ("provider_task_digest", opt_str (provider_task_digest s));
          ("artifact_ref_digest", opt_str (artifact_ref_digest s));
          ("final_artifact_digest", opt_str (final_artifact_digest s));
          ("failure_code", opt_str (failure_code s));
          ("retryable", opt_bool (retryable s));
          ("dlq_digest", opt_str (dlq_digest s));
          ("acked", VBool (acked s)) ].

Definition state_sha256 (state : JobState) : result string :=
  validate state ;; Ok (sha256 (asdict state)).

(** ** Commands *)

Definition _parse_command (command : value) : result (string * items) :=
  match command with
  | VDict d =>
      match dict_get d "kind" with
      | VStr kind =>
          match fields_of kind with
          | Some fields =>
              _expect_exact_keys d fields ("command." +:+ kind) ;; Ok (kind, d)
          | None => Raise (err "command kind is unsupported")
          end
      | _ => Raise (err "command kind is unsupported")
      end
  | _ => Raise (err "command must be an object")
  end.

Definition _require_owner (state : JobState) (f worker : value) : result (Z * string) :=
  parsed_fence ← _expect_positive f "fence";
  parsed_worker ← _expect_digest worker "worker_digest";
  raise_if (phase state =? "queued") (err "queued job has no active owner") ;;
  raise_if (negb (parsed_fence =? fence state)%Z
            || negb (eq_opt parsed_worker (worker_digest state)))
    (err "stale or non-owning worker mutation") ;;
  Ok (parsed_fence, parsed_worker).

Inductive outcome : Set := Return | Next (next_state : JobState).

(** [replace(state, phase=, fence=, worker_digest=, delivery_count=,
    failure_code=, retryable=)] *)
Definition with_lease (s : JobState) (f : Z) (worker : string) (delivery : Z)
    (code : option string) (retry : option bool) : JobState :=
  mkJobState (model_version s) (job_id s) (message_id s) (max_deliveries s) "running"
    f (Some worker) delivery (checkpoint_sequence s) (checkpoint_digest s)
    (provider_task_digest s) (artifact_ref_digest s) (final_artifact_digest s)
    code retry (dlq_digest s) (acked s).

Definition with_checkpoint (s : JobState) (f : Z) (worker : string) (seq : Z)
    (checkpoint : string) (provider artifact_ref : option string) : JobState :=
  mkJobState (model_version s) (job_id s) (message_id s) (max_deliveries s) (phase s)
    f (Some worker) (delivery_count s) seq (Some checkpoint) provider artifact_ref
    (final_artifact_digest s) (failure_code s) (retryable s) (dlq_digest s) (acked s).

(** [replace] of the phase and the terminal metadata. *)
Definition with_phase (s : JobState) (ph : string) (final : option string)
    (code : option string) (retry : option bool) (dlq : option string) (ack : bool)
  : JobState :=
  mkJobState (model_version s) (job_id s) (message_id s) (max_deliveries s) ph
    (fence s) (worker_digest s) (delivery_count s) (checkpoint_sequence s)
    (checkpoint_digest s) (provider_task_digest s) (artifact_ref_digest s)
    final code retry dlq ack.

Definition apply_claim (state : JobState) (command : items) : result outcome :=
  f ← _expect_positive (dict_get command "fence") "fence";
  worker ← _expect_digest (dict_get command "worker_digest") "worker_digest";
  delivery ← _expect_positive (dict_get command "delivery_count") "delivery_count";
  raise_if (max_deliveries state <? delivery)%Z
    (err "delivery_count exceeds max_deliveries") ;;
  let behind := (f <=? fence state)%Z || (delivery <=? delivery_count state)%Z in
  if phase state =? "queued" then
    raise_if behind (err "initial claim must advance fence and delivery") ;;
    Ok (Next (with_lease state f worker delivery (failure_code state) (retryable state)))
  else if (phase state =? "running") && (f =? fence state)%Z
          && eq_opt worker (worker_digest state)
          && (delivery =? delivery_count state)%Z then Ok Return
  else if phase state =? "running" then
    raise_if behind (err "takeover must advance both fence and delivery_count") ;;
    Ok (Next (with_lease state f worker delivery (failure_code state) (retryable state)))
  else if phase state =? "failed" then
    raise_if (negb (bool_decide (retryable state = Some true)))
      (err "non-retryable failure cannot be reclaimed") ;;
    raise_if behind (err "retry claim must advance both fence and delivery_count") ;;
    Ok (Next (with_lease state f worker delivery None None))
  else Raise (err "terminal job cannot be reclaimed for execution").

Definition apply_checkpoint (state : JobState) (command : items) : result outcome :=
  '(f, worker) ← _require_owner state (dict_get command "fence")
                   (dict_get command "worker_digest");
  raise_if (negb (phase state =? "running")) (err "checkpoint requires running state") ;;
  sequence ← _expect_positive (dict_get command "sequence") "sequence";
  checkpoint ← _expect_digest (dict_get command "checkpoint_digest") "checkpoint_digest";
  provider ← _optional_digest (dict_get command "provider_task_digest")
    "provider_task_digest";
  artifact_ref ← _optional_digest (dict_get command "artifact_ref_digest")
    "artifact_ref_digest";
  if (sequence =? checkpoint_sequence state)%Z then
    if eq_opt checkpoint (checkpoint_digest state)
       && bool_decide (provider = provider_task_digest state)
       && bool_decide (artifact_ref = artifact_ref_digest state) then Ok Return
    else Raise (err "checkpoint sequence conflicts with durable data")
  else
    raise_if (sequence <=? checkpoint_sequence state)%Z
      (err "checkpoint sequence is stale") ;;
    raise_if (negb (sequence =? checkpoint_sequence state + 1)%Z)
      (err "checkpoint sequence must advance by exactly one") ;;
    Ok (Next (with_checkpoint state f worker sequence checkpoint provider artifact_ref)).

Definition apply_complete (state : JobState) (command : items) : result outcome :=
  '(f, worker) ← _require_owner state (dict_get command "fence")
                   (dict_get command "worker_digest");
  artifact ← _expect_digest (dict_get command "final_artifact_digest")
    "final_artifact_digest";
  if (phase state =? "completed") && eq_opt artifact (final_artifact_digest state)
     && (f =? fence state)%Z && eq_opt worker (worker_digest state) then Ok Return
  else
    raise_if (negb (phase state =? "running")) (err "completion requires running state") ;;
    raise_if (checkpoint_sequence state =? 0)%Z
      (err "completion requires at least one durable checkpoint") ;;
    Ok (Next (with_phase state "completed" (Some artifact) (failure_code state)
                (retryable state) (dlq_digest state) (acked state))).

Definition apply_fail (state : JobState) (command : items) : result outcome :=
  '(f, worker) ← _require_owner state (dict_get command "fence")
                   (dict_get command "worker_digest");
  failure ← _expect_failure_code (dict_get command "failure_code") "failure_code";
  match dict_get command "retryable" with
  | VBool retry =>
      if (phase state =? "failed") && eq_opt failure (failure_code state)
         && bool_decide (retryable state = Some retry)
         && (f =? fence state)%Z && eq_opt worker (worker_digest state) then Ok Return
      else
        raise_if (negb (phase state =? "running"))
          (err "failure recording requires running state") ;;
        Ok (Next (with_phase state "failed" (final_artifact_digest state) (Some failure)
                    (Some retry) (dlq_digest state) (acked state)))
  | _ => Raise (err "retryable must be boolean")
  end.

Definition apply_dead_letter (state : JobState) (command : items) : result outcome :=
  '(f, worker) ← _require_owner state (dict_get command "fence")
                   (dict_get command "worker_digest");
  dlq ← _expect_digest (dict_get command "dlq_digest") "dlq_digest";
  if (phase state =? "dead-lettered") && eq_opt dlq (dlq_digest state)
     && (f =? fence state)%Z && eq_opt worker (worker_digest state) then Ok Return
  else
    raise_if (negb (phase state =? "failed"))
      (err "dead-lettering requires committed failure state") ;;
    raise_if (bool_decide (retryable state = Some true)
              && (delivery_count state <? max_deliveries state)%Z)
      (err "retryable failure cannot enter DLQ before max deliveries") ;;
    Ok (Next (with_phase state "dead-lettered" (final_artifact_digest state)
                (failure_code state) (retryable state) (Some dlq) (acked state))).

Definition apply_ack (state : JobState) (command : items) : result outcome :=
  expected ← _expect_digest (dict_get command "terminal_digest") "terminal_digest";
  actual ← terminal_digest state;
  raise_if (negb (expected =? actual))
    (err "broker ACK does not match committed terminal state") ;;
  if acked state then Ok Return
  else Ok (Next (with_phase state (phase state) (final_artifact_digest state)
                   (failure_code state) (retryable state) (dlq_digest state) true)).

Definition dispatch (state : JobState) (kind : string) (command : items) : result outcome :=
  if kind =? "claim" then apply_claim state command
  else if kind =? "checkpoint" then apply_checkpoint state command
  else if kind =? "complete" then apply_complete state command
  else if kind =? "fail" then apply_fail state command
  else if kind =? "dead_letter" then apply_dead_letter state command
  else if kind =? "ack" then apply_ack state command
  else Raise (err ("unsupported command kind: " +:+ kind)).

Definition apply (state : JobState) (command : value) : result JobState :=
  validate state ;;
  '(kind, d) ← _parse_command command;
  out ← dispatch state kind d;
  match out with
  | Return => Ok state
  | Next next_state => validate next_state ;; Ok next_state
  end.

Record AttemptResult : Set := mkAttempt {
  ok : bool; changed : bool; state : JobState;
  before_sha256 : string; command_sha256 : string; after_sha256 : string;
  result_terminal_digest : option string; error : option string }.

Definition attempt (st : JobState) (command : value) : result AttemptResult :=
  before ← state_sha256 st;
  let command_digest := sha256 command in
  match apply st command with
  | Raise (Exn ProtocolError msg) =>
      Ok (mkAttempt false false st before command_digest before None (Some msg))
  | Raise e => Raise e
  | Ok next_state =>
      after ← state_sha256 next_state;
      terminal ← (if terminal_phase (phase next_state)
                  then t ← terminal_digest next_state; Ok (Some t) else Ok None);
      Ok (mkAttempt true (negb (after =? before)) next_state before command_digest
            after terminal None)
  end.

(** ** Replaying a fixture *)

Definition check_error : value → option string → string → result unit :=
  check_error_of ProtocolError.

Definition step_receipt (r : AttemptResult) : value :=
  VDict [ ("ok", VBool (ok r)); ("changed", VBool (changed r));
          ("before_sha256", VStr (before_sha256 r));
          ("command_sha256", VStr (command_sha256 r));
          ("after_sha256", VStr (after_sha256 r));
          ("terminal_digest", opt_str (result_terminal_digest r));
          ("error", opt_str (error r)) ].

(** The command of a step, its terminal digest filled in from the state when
    the step asks for it. *)
Definition step_command (st : JobState) (use_terminal : value) (command : items)
  : result items :=
  match use_terminal with
  | VBool true =>
      raise_if (match dict_get command "kind" with VStr k => negb (k =? "ack") | _ => true end)
        (err "terminal_digest_from_state is valid only for ACK commands") ;;
      t ← terminal_digest st; Ok (dict_set command "terminal_digest" (VStr t))
  | VBool false => Ok command
  | _ => Raise (err "terminal_digest_from_state must be boolean")
  end.

Definition run_step (scenario_id : string) (step_index : nat) (step : value)
    (acc : JobState * list value) : result (JobState * list value) :=
  let '(st, step_receipts) := acc in
  let where_ := "scenario " +:+ scenario_id +:+ " step " +:+ str_nat step_index in
  step ← expect_dict step (err (where_ +:+ " must be an object"));
  _expect_exact_keys step
    ["command"; "terminal_digest_from_state"; "expect_ok"; "expect_changed"; "error_contains"]
    ("scenario." +:+ scenario_id +:+ ".steps[" +:+ str_nat step_index +:+ "]") ;;
  command ← expect_dict (dict_get step "command")
    (err (where_ +:+ " command must be an object"));
  command ← step_command st (dict_get step "terminal_digest_from_state") command;
  r ← attempt st (VDict command);
  raise_if (negb (is_bool (dict_get step "expect_ok") (ok r)))
    (err (where_ +:+ " ok mismatch")) ;;
  raise_if (negb (is_bool (dict_get step "expect_changed") (changed r)))
    (err (where_ +:+ " change mismatch")) ;;
  check_error (dict_get step "error_contains") (error r) where_ ;;
  Ok (state r, step_receipts ++ [step_receipt r]).

Definition run_scenario (scenario_index : nat) (scenario : value) (receipts : list value)
  : result (list value) :=
  let at_ := "[" +:+ str_nat scenario_index +:+ "]" in
  scenario ← expect_dict scenario
    (err ("scenario " +:+ str_nat scenario_index +:+ " must be an object"));
  _expect_exact_keys scenario
    ["id"; "initial"; "steps"; "expected_final_phase"; "expected_acked"]
    ("scenario" +:+ at_) ;;
  scenario_id ← _expect_identifier (dict_get scenario "id") ("scenario" +:+ at_ +:+ ".id");
  init ← expect_dict (dict_get scenario "initial")
    (err ("scenario " +:+ scenario_id +:+ " initial must be an object"));
  _expect_exact_keys init ["job_id"; "message_id"; "max_deliveries"]
    ("scenario." +:+ scenario_id +:+ ".initial") ;;
  st ← initial (dict_get init "job_id") (dict_get init "message_id")
         (dict_get init "max_deliveries");
  steps ← bounded_array (dict_get scenario "steps") MAX_STEPS
    (err ("scenario " +:+ scenario_id +:+ " has invalid steps"));
  '(final, step_receipts) ← for_enum 0 steps (run_step scenario_id) (st, []);
  let expected_phase := dict_get scenario "expected_final_phase" in
  known ← in_strings expected_phase PHASES;
  raise_if (negb known || negb (str_scalar expected_phase =? phase final))
    (err ("scenario " +:+ scenario_id +:+ " final phase mismatch: expected "
          +:+ str_scalar expected_phase +:+ ", got " +:+ phase final)) ;;
  raise_if (negb (is_bool (dict_get scenario "expected_acked") (acked final)))
    (err ("scenario " +:+ scenario_id +:+ " final ACK state mismatch")) ;;
  final_sha ← state_sha256 final;
  terminal ← (if terminal_phase (phase final)
              then t ← terminal_digest final; Ok (VStr t) else Ok VNone);
  Ok (receipts ++
      [VDict [ ("scenario_id", VStr scenario_id); ("final_phase", VStr (phase final));
               ("final_acked", VBool (acked final));
               ("final_state_sha256", VStr final_sha);
               ("terminal_digest", terminal); ("steps", VList step_receipts) ]]).

Definition run_fixture (value : items) : result items :=
  _expect_exact_keys value ["schema_version"; "scenarios"] "fixture" ;;
  raise_if (match dict_get value "schema_version" with
            | VStr s => negb (s =? FIXTURE_VERSION) | _ => true end)
    (err "fixture schema_version is unsupported") ;;
  scenarios ← bounded_array (dict_get value "scenarios") MAX_SCENARIOS
    (err "fixture scenarios must be a bounded non-empty array");
  receipts ← for_enum 0 scenarios run_scenario [];
  Ok [ ("model_version", VStr MODEL_VERSION); ("fixture_version", VStr FIXTURE_VERSION);
       ("scenario_count", VInt (Z.of_nat (length receipts)));
       ("receipt_sha256", VStr (sha256 (VList receipts)));
       ("scenarios", VList receipts) ].

(** ** Well-formed states *)

Record base_ok (s : JobState) : Prop := {
  bo_version : model_version s = MODEL_VERSION;
  bo_job : IDENTIFIER (job_id s) = true;
  bo_message : IDENTIFIER (message_id s) = true;
  bo_fence : (0 ≤ fence s)%Z;
  bo_deliveries : (0 ≤ delivery_count s ≤ max_deliveries s)%Z;
  bo_budget : (0 < max_deliveries s)%Z;
  bo_sequence : (0 ≤ checkpoint_sequence s)%Z }.

Definition checkpoint_ok (s : JobState) : Prop :=
  (checkpoint_sequence s = 0%Z ∧ checkpoint_digest s = None ∧
   provider_task_digest s = None ∧ artifact_ref_digest s = None) ∨
  (checkpoint_sequence s ≠ 0%Z ∧ holds DIGEST (checkpoint_digest s) ∧
   absent_or DIGEST (provider_task_digest s) ∧ absent_or DIGEST (artifact_ref_digest s)).

Definition no_terminal (s : JobState) : Prop :=
  final_artifact_digest s = None ∧ failure_code s = None ∧ retryable s = None ∧
  dlq_digest s = None ∧ acked s = false.
Definition leased (s : JobState) : Prop :=
  (0 < fence s)%Z ∧ (0 < delivery_count s)%Z ∧ holds DIGEST (worker_digest s).
Definition failure_ok (s : JobState) : Prop :=
  holds FAILURE_CODE (failure_code s) ∧ ∃ b, retryable s = Some b.

(** What each phase of a job carries. *)
Inductive data_ok (s : JobState) : Prop :=
  | queued_ok : phase s = "queued" → fence s = 0%Z → worker_digest s = None →
      delivery_count s = 0%Z → no_terminal s → data_ok s
  | running_ok : phase s = "running" → leased s → no_terminal s → data_ok s
  | failed_ok : phase s = "failed" → leased s → failure_ok s →
      final_artifact_digest s = None → dlq_digest s = None → acked s = false → data_ok s
  | completed_ok : phase s = "completed" → leased s →
      holds DIGEST (final_artifact_digest s) → failure_code s = None →
      retryable s = None → dlq_digest s = None → data_ok s
  | dead_ok : phase s = "dead-lettered" → leased s → failure_ok s →
      holds DIGEST (dlq_digest s) → final_artifact_digest s = None → data_ok s.

Definition Wf (s : JobState) : Prop := base_ok s ∧ checkpoint_ok s ∧ data_ok s.

Ltac unpack :=
  unfold leased, failure_ok, checkpoint_ok, no_terminal, holds, absent_or in *;
  repeat match goal with
  | H : _ ∧ _ |- _ => destruct H
  | H : ∃ _, _ |- _ => destruct H
  | H : _ ∨ _ |- _ => destruct H
  | H : base_ok _ |- _ => destruct H
  end; simplify_eq/=.

Lemma _optional_digest_Ok o f r :
  _optional_digest (opt_str o) f = Ok r ↔ r = o ∧ absent_or DIGEST o.
Proof.
  unfold _optional_digest, _expect_digest, absent_or, holds. destruct o as [s|]; simpl.
  - split.
    + intros H. inv_checks. eauto.
    + intros [-> [?|(t & [= <-] & Hs)]]; [done|]. by rewrite expect_str_VStr.
  - split; [intros [= <-]; auto|by intros [-> _]].
Qed.

Lemma _optional_digest_holds o f : absent_or DIGEST o → _optional_digest (opt_str o) f = Ok o.
Proof. intros. by apply _optional_digest_Ok. Qed.

(** The checkpoint check of [validate]. *)
Definition checkpoint_check (self : JobState) : result unit :=
  if (checkpoint_sequence self =? 0)%Z then
    raise_if (is_some (checkpoint_digest self) || is_some (provider_task_digest self)
              || is_some (artifact_ref_digest self))
      (err "checkpoint metadata requires a positive checkpoint sequence")
  else
    _expect_digest (opt_str (checkpoint_digest self)) "state.checkpoint_digest" ;;
    _optional_digest (opt_str (provider_task_digest self)) "state.provider_task_digest" ;;
    _optional_digest (opt_str (artifact_ref_digest self)) "state.artifact_ref_digest" ;;
    Ok tt.

Lemma checkpoint_check_iff s : checkpoint_check s = Ok tt ↔ checkpoint_ok s.
Proof.
  unfold checkpoint_check, checkpoint_ok, _expect_digest.
  destruct (Z.eqb_spec (checkpoint_sequence s) 0) as [Hz|Hz]; split.
  - intros H. inv_checks. bool_hyps. optional. left. by repeat split.
  - intros [(_ & -> & -> & ->)|(? & _)]; done.
  - intros H. right. inv_checks.
    repeat match goal with
    | H : _optional_digest _ _ = Ok _ |- _ => apply _optional_digest_Ok in H as [-> H] end.
    unfold holds. eauto 8.
  - intros [(? & _)|(_ & (d & -> & Hd) & Hp & Ha)]; [done|]. simpl.
    rewrite expect_str_VStr, !_optional_digest_holds by done. done.
Qed.

Lemma job_Wf_validate s : Wf s → validate s = Ok tt.
Proof.
  intros (Hb & Hc%checkpoint_check_iff & Hd). unfold validate.
  fold (checkpoint_check s). rewrite Hc. clear Hc.
  unfold _expect_identifier, _expect_digest, _expect_positive,
    _expect_nonnegative, _expect_failure_code, has_terminal_data.
  destruct s as [mv j m mx ph f w dc seq ck pr ar fa fc rt dq ac]. simpl in *.
  destruct Hb as [? ? ? Hf [Hdc0 Hdc] ? Hseq]; simpl in *.
  apply Z.leb_le in Hf, Hdc0, Hseq. apply Z.ltb_ge in Hdc.
  destruct Hd; unpack; by run_checks.
Qed.

Ltac data_facts :=
  unfold no_terminal, leased, failure_ok, holds; simpl;
  repeat split; try lia; solve [eauto 7].

Lemma job_validate_Wf s : validate s = Ok tt → Wf s.
Proof.
  unfold validate. fold (checkpoint_check s). intros H.
  unfold _expect_identifier, _expect_digest, _expect_positive,
    _expect_nonnegative, _expect_failure_code, has_terminal_data in H.
  repeat inv_step. bool_hyps.
  repeat match goal with
  | H : expect_str _ _ _ = Ok _ |- _ => apply expect_str_Ok in H as [[= <-] H]
  | H : expect_int _ _ _ = Ok _ |- _ => apply expect_int_Ok in H as [[= <-] H] end.
  bool_hyps. apply String.eqb_eq in Hok. apply mem_str_In in Hok3.
  split; [by split|split; [by apply checkpoint_check_iff|] ].
  clear Hok8. destruct s as [mv j m mx ph f w dc seq ck pr ar fa fc rt dq ac]. simpl in *.
  unfold PHASES in Hok3. split_members; simpl in H; inv_checks; bool_hyps; optional.
  all: try (destruct rt; [|discriminate]).
  all: first [apply queued_ok; data_facts | apply running_ok; data_facts
    | apply failed_ok; data_facts | apply completed_ok; data_facts
    | apply dead_ok; data_facts].
Qed.

Lemma job_validate_iff s : validate s = Ok tt ↔ Wf s.
Proof. split; [apply job_validate_Wf|apply job_Wf_validate]. Qed.

(** ** Abstract protocol

    One rule per way a parsed command can succeed. *)

Inductive cmd : Set :=
  | Claim (f : Z) (worker : string) (delivery : Z)
  | Checkpoint (f : Z) (worker : string) (seq : Z) (digest : string)
      (provider artifact : option string)
  | Complete (f : Z) (worker artifact : string)
  | Fail_ (f : Z) (worker code : string) (retry : bool)
  | DeadLetter (f : Z) (worker dlq : string)
  | Ack (terminal : string).

(** The JSON object of a command. *)
Definition cmd_fields (c : cmd) : items :=
  match c with
  | Claim f w d =>
      [("kind", VStr "claim"); ("fence", VInt f); ("worker_digest", VStr w);
       ("delivery_count", VInt d)]
  | Checkpoint f w n ck pr ar =>
      [("kind", VStr "checkpoint"); ("fence", VInt f); ("worker_digest", VStr w);
       ("sequence", VInt n); ("checkpoint_digest", VStr ck);
       ("provider_task_digest", opt_str pr); ("artifact_ref_digest", opt_str ar)]
  | Complete f w a =>
      [("kind", VStr "complete"); ("fence", VInt f); ("worker_digest", VStr w);
       ("final_artifact_digest", VStr a)]
  | Fail_ f w k r =>
      [("kind", VStr "fail"); ("fence", VInt f); ("worker_digest", VStr w);
       ("failure_code", VStr k); ("retryable", VBool r)]
  | DeadLetter f w q =>
      [("kind", VStr "dead_letter"); ("fence", VInt f); ("worker_digest", VStr w);
       ("dlq_digest", VStr q)]
  | Ack t => [("kind", VStr "ack"); ("terminal_digest", VStr t)]
  end.

(** The worker and the fence a command speaks for; an ack speaks for the broker. *)
Definition cmd_owner (c : cmd) : option (Z * string) :=
  match c with
  | Claim f w _ | Checkpoint f w _ _ _ _ | Complete f w _ | Fail_ f w _ _
  | DeadLetter f w _ => Some (f, w)
  | Ack _ => None
  end.

Definition cmd_ok (c : cmd) : Prop :=
  match cmd_owner c with Some (f, w) => (0 < f)%Z ∧ DIGEST w = true | None => True end ∧
  match c with
  | Claim _ _ d => (0 < d)%Z
  | Checkpoint _ _ n ck pr ar =>
      (0 < n)%Z ∧ DIGEST ck = true ∧ absent_or DIGEST pr ∧ absent_or DIGEST ar
  | Complete _ _ a => DIGEST a = true
  | Fail_ _ _ k _ => FAILURE_CODE k = true
  | DeadLetter _ _ q => DIGEST q = true
  | Ack t => DIGEST t = true
  end.

(** A JSON value is the object of a command, its keys in any order. *)
Definition encodes (v : value) (c : cmd) : Prop := is_object v (cmd_fields c).
Definition cmd_value (c : cmd) : value := VDict (cmd_fields c).

Definition owner (s : JobState) (f : Z) (w : string) : Prop :=
  f = fence s ∧ worker_digest s = Some w.
(** A claim that advances both the fence and the delivery count within budget. *)
Definition advances (s : JobState) (f d : Z) : Prop :=
  (fence s < f)%Z ∧ (delivery_count s < d ≤ max_deliveries s)%Z.
Definition terminal (s : JobState) : Prop := phase s ∈ ["completed"; "dead-lettered"].

Inductive step (s : JobState) : cmd → JobState → Prop :=
  | claim_queued f w d : phase s = "queued" → advances s f d →
      step s (Claim f w d) (with_lease s f w d (failure_code s) (retryable s))
  | claim_same f w d : phase s = "running" → owner s f w → d = delivery_count s →
      step s (Claim f w d) s
  | claim_takeover f w d : phase s = "running" → advances s f d →
      step s (Claim f w d) (with_lease s f w d (failure_code s) (retryable s))
  | claim_retry f w d : phase s = "failed" → retryable s = Some true → advances s f d →
      step s (Claim f w d) (with_lease s f w d None None)
  | checkpoint_same f w n ck : phase s = "running" → owner s f w →
      n = checkpoint_sequence s → checkpoint_digest s = Some ck →
      step s (Checkpoint f w n ck (provider_task_digest s) (artifact_ref_digest s)) s
  | checkpoint_next f w n ck pr ar : phase s = "running" → owner s f w →
      n = (checkpoint_sequence s + 1)%Z →
      step s (Checkpoint f w n ck pr ar) (with_checkpoint s f w n ck pr ar)
  | complete_new f w a : phase s = "running" → owner s f w →
      checkpoint_sequence s ≠ 0%Z →
      step s (Complete f w a)
        (with_phase s "completed" (Some a) (failure_code s) (retryable s) (dlq_digest s)
           (acked s))
  | complete_same f w a : phase s = "completed" → owner s f w →
      final_artifact_digest s = Some a → step s (Complete f w a) s
  | fail_new f w k r : phase s = "running" → owner s f w →
      step s (Fail_ f w k r)
        (with_phase s "failed" (final_artifact_digest s) (Some k) (Some r) (dlq_digest s)
           (acked s))
  | fail_same f w k r : phase s = "failed" → owner s f w → failure_code s = Some k →
      retryable s = Some r → step s (Fail_ f w k r) s
  | dead_letter_new f w q : phase s = "failed" → owner s f w →
      (retryable s = Some true → delivery_count s = max_deliveries s) →
      step s (DeadLetter f w q)
        (with_phase s "dead-lettered" (final_artifact_digest s) (failure_code s)
           (retryable s) (Some q) (acked s))
  | dead_letter_same f w q : phase s = "dead-lettered" → owner s f w →
      dlq_digest s = Some q → step s (DeadLetter f w q) s
  | ack_new : terminal s → acked s = false →
      step s (Ack (sha256 (terminal_value s)))
        (with_phase s (phase s) (final_artifact_digest s) (failure_code s) (retryable s)
           (dlq_digest s) true)
  | ack_same : terminal s → acked s = true →
      step s (Ack (sha256 (terminal_value s))) s.

Lemma step_base s c s' : Wf s → cmd_ok c → step s c s' → base_ok s' ∧ checkpoint_ok s'.
Proof.
  intros (Hb & Hc & _) [Ho Hk] Hstep.
  destruct Hstep; simpl in Ho, Hk; unfold advances, owner in *; destruct_and?; split; try done;
    try (destruct Hb; split; simpl; lia || done).
  right. simpl. destruct Hb. split; [lia|]. unfold holds. eauto 8.
Qed.

(** Steps preserve well-formedness: the validation that ends [apply] never
    rejects what a branch built. *)
Lemma job_step_Wf s c s' : Wf s → cmd_ok c → step s c s' → Wf s'.
Proof.
  intros Hwf Hok Hstep. destruct (step_base s c s' Hwf Hok Hstep) as [Hb Hc].
  split; [done|split; [done|] ]. clear Hb Hc.
  destruct Hwf as (Hb & _ & Hd), Hok as [Ho Hk].
  destruct Hstep; simpl in Ho, Hk; unfold advances, owner, terminal in *; try done;
    destruct Hd; try congruence; unpack; split_members; simpl.
  all: try congruence.
  all: first [apply running_ok; [done|data_facts..]
    | apply failed_ok; [done|data_facts..] | apply completed_ok; [done|data_facts..]
    | apply dead_ok; [done|data_facts..] ].
Qed.

(** ** The code refines the abstract protocol *)

Definition out_state (s : JobState) (o : outcome) : JobState :=
  match o with Return => s | Next n => n end.

Lemma job_command_inv v kind d :
  _parse_command v = Ok (kind, d) ↔
  v = VDict d ∧ dict_get d "kind" = VStr kind ∧
  ∃ fields, fields_of kind = Some fields ∧ same_keys d fields = true.
Proof.
  unfold _parse_command, _expect_exact_keys. split.
  - intros H. destruct v as [| | | | | |d']; try discriminate H.
    destruct (dict_get d' "kind") as [| | | |k| |] eqn:Hk; try discriminate H.
    destruct (fields_of k) as [fields|] eqn:Hf; try discriminate H.
    inv_step. apply exact_keys_Ok in Hok. inv_checks. eauto.
  - intros (-> & -> & fields & -> & Hkeys).
    by rewrite (proj2 (exact_keys_Ok _ _ _ _ tt) Hkeys).
Qed.

Lemma job_fields_of_inv kind fields :
  fields_of kind = Some fields →
  kind ∈ ["claim"; "checkpoint"; "complete"; "fail"; "dead_letter"; "ack"].
Proof.
  unfold fields_of. destruct (List.find _ _) as [kf|] eqn:Hf; [|done]. intros _.
  apply List.find_some in Hf as [Hin Heq%String.eqb_eq]. subst kind.
  apply list_elem_of_In in Hin. unfold COMMAND_FIELDS in Hin. split_members; set_solver.
Qed.

Lemma optional_digest_inv v f r :
  _optional_digest v f = Ok r → v = opt_str r ∧ absent_or DIGEST r.
Proof.
  unfold _optional_digest, _expect_digest, absent_or, holds. intros H.
  destruct v; inv_checks; simplify_eq; eauto.
Qed.

Lemma require_owner_inv s vf vw f w :
  _require_owner s vf vw = Ok (f, w) →
  vf = VInt f ∧ vw = VStr w ∧ (0 < f)%Z ∧ DIGEST w = true ∧ owner s f w.
Proof.
  unfold _require_owner, _expect_positive, _expect_digest, owner.
  intros H. inv_checks. bool_hyps. inv_checks. simplify_eq. eauto 10.
Qed.

Lemma require_owner_ok s f w :
  phase s ≠ "queued" → (0 < f)%Z → DIGEST w = true → owner s f w →
  _require_owner s (VInt f) (VStr w) = Ok (f, w).
Proof.
  unfold _require_owner, _expect_positive, _expect_digest, owner.
  intros Hp%String.eqb_neq Hf Hw [-> ->]. apply Z.ltb_lt in Hf. rewrite Hp.
  rewrite expect_int_VInt by done. simpl. rewrite expect_str_VStr by done. simpl.
  by rewrite Z.eqb_refl, String.eqb_refl.
Qed.

(** The digest an acknowledgement must carry. *)
Lemma terminal_digest_iff s t :
  terminal_digest s = Ok t ↔ Wf s ∧ terminal s ∧ t = sha256 (terminal_value s).
Proof.
  unfold terminal_digest, terminal_phase, terminal. split.
  - intros H. inv_step. destruct a. apply job_validate_iff in Hok. inv_checks. bool_hyps.
    by inv_checks.
  - intros (Hwf%job_validate_iff & Ht%mem_str_In & ->). by rewrite Hwf, Ht.
Qed.

Ltac branch_cases H :=
  repeat match type of H with
  | (if ?b then _ else _) = Ok _ => destruct b eqn:?
  end; repeat (progress (inv_checks; bool_hyps));
  repeat match goal with
  | H : _optional_digest _ _ = Ok _ |- _ => apply optional_digest_inv in H as [? H]
  | H : _ || _ = false |- _ => apply orb_false_iff in H as [? ?]
  end; bool_hyps.

Ltac encode_cmd :=
  subst; split;
    [eexists; split; [reflexivity|split; [assumption|] ];
     cbn [cmd_fields]; rewrite !Forall_cons, Forall_nil; by eauto 10
    |split; [by split; simpl; auto| ] ].

Ltac owner_step H :=
  inv_step; let f := fresh "f" in let w := fresh "w" in
  let Hr := fresh "Hown" in
  match goal with a : (Z * string)%type |- _ => destruct a as [f w] end;
  match goal with H : _require_owner _ _ _ = Ok _ |- _ =>
    apply require_owner_inv in H as (? & ? & ? & ? & Hr) end.


Section refinement.
#[local] Arguments mem_str : simpl never.
#[local] Arguments eq_opt : simpl never.

(** What [apply] gets from a successful dispatch. *)
Definition sound (s : JobState) (d : items) (out : outcome) : Prop :=
  ∃ c, encodes (VDict d) c ∧ cmd_ok c ∧ step s c (out_state s out).

Lemma claim_sound s d out :
  dict_get d "kind" = VStr "claim" → same_keys d (cmd_fields (Claim 0 EmptyString 0)).*1 = true →
  apply_claim s d = Ok out → sound s d out.
Proof.
  intros Hkind Hkeys H. unfold apply_claim, _expect_positive, _expect_digest in H.
  inv_checks. bool_hyps. branch_cases H; eexists (Claim _ _ _); encode_cmd; simpl.
  - by apply claim_queued.
  - by apply claim_same.
  - by apply claim_takeover.
  - by apply claim_retry.
Qed.

Lemma checkpoint_sound s d out :
  dict_get d "kind" = VStr "checkpoint" →
  same_keys d (cmd_fields (Checkpoint 0 EmptyString 0 EmptyString None None)).*1 = true →
  apply_checkpoint s d = Ok out → sound s d out.
Proof.
  intros Hkind Hkeys H. unfold apply_checkpoint, _expect_positive, _expect_digest in H.
  owner_step H. inv_checks. bool_hyps. branch_cases H;
    eexists (Checkpoint _ _ _ _ _ _); encode_cmd; simpl.
  - by apply checkpoint_same.
  - by apply checkpoint_next.
Qed.

Lemma complete_sound s d out :
  dict_get d "kind" = VStr "complete" →
  same_keys d (cmd_fields (Complete 0 EmptyString EmptyString)).*1 = true →
  apply_complete s d = Ok out → sound s d out.
Proof.
  intros Hkind Hkeys H. unfold apply_complete, _expect_digest in H.
  owner_step H. inv_checks. bool_hyps. branch_cases H;
    eexists (Complete _ _ _); encode_cmd; simpl.
  - by apply complete_same.
  - by apply complete_new.
Qed.

Lemma fail_sound s d out :
  dict_get d "kind" = VStr "fail" →
  same_keys d (cmd_fields (Fail_ 0 EmptyString EmptyString false)).*1 = true →
  apply_fail s d = Ok out → sound s d out.
Proof.
  intros Hkind Hkeys H. unfold apply_fail, _expect_failure_code in H.
  owner_step H. inv_checks. destruct (dict_get d "retryable") eqn:?; try done.
  branch_cases H; eexists (Fail_ _ _ _ _); encode_cmd; simpl.
  - by apply fail_same.
  - by apply fail_new.
Qed.

Lemma dead_letter_sound s d out :
  dict_get d "kind" = VStr "dead_letter" →
  same_keys d (cmd_fields (DeadLetter 0 EmptyString EmptyString)).*1 = true →
  (delivery_count s ≤ max_deliveries s)%Z →
  apply_dead_letter s d = Ok out → sound s d out.
Proof.
  intros Hkind Hkeys Hle H. unfold apply_dead_letter, _expect_digest in H.
  owner_step H. inv_checks. branch_cases H; eexists (DeadLetter _ _ _); encode_cmd; simpl.
  - by apply dead_letter_same.
  - apply dead_letter_new; [done..|]. intros Hr.
    match goal with H : _ && _ = false |- _ => apply andb_false_iff in H as [Hb|Hb] end;
      bool_hyps; [done|lia].
Qed.

Lemma ack_sound s d out :
  dict_get d "kind" = VStr "ack" → same_keys d (cmd_fields (Ack EmptyString)).*1 = true →
  apply_ack s d = Ok out → sound s d out.
Proof.
  intros Hkind Hkeys H. unfold apply_ack, _expect_digest in H. inv_checks.
  apply terminal_digest_iff in Hok0 as (_ & Ht & ->). bool_hyps. inv_checks.
  branch_cases H; eexists (Ack _); encode_cmd; simpl.
  - by apply ack_same.
  - by apply ack_new.
Qed.

Lemma dispatch_sound s v kind d out :
  Wf s → _parse_command v = Ok (kind, d) → dispatch s kind d = Ok out → sound s d out.
Proof.
  intros (Hb & _) (-> & Hkind & fields & Hfields & Hkeys)%job_command_inv H.
  pose proof (job_fields_of_inv _ _ Hfields) as Hin.
  split_members; injection Hfields as <-; unfold dispatch in H; simpl in H.
  - by apply claim_sound.
  - by apply checkpoint_sound.
  - by apply complete_sound.
  - by apply fail_sound.
  - apply dead_letter_sound; [done..| |done]. by destruct Hb as [? ? ? ? [? ?] ? ?].
  - by apply ack_sound.
Qed.

(** Evaluates the conditions of a branch from the premises of a rule. *)
Ltac eval_branch :=
  repeat (simpl; first
    [ rewrite expect_str_VStr by assumption
    | rewrite expect_int_VInt by (by apply Z.ltb_lt)
    | rewrite require_owner_ok by (assumption || congruence)
    | rewrite _optional_digest_holds by assumption
    | rewrite Z.eqb_refl
    | rewrite String.eqb_refl
    | match goal with
      | H : phase ?s = _ |- context [phase ?s =? _] => rewrite H
      | H : ?o = Some ?x |- context [eq_opt ?x ?o] =>
          rewrite (proj2 (eq_opt_true _ _) H)
      | H : (?x < ?y)%Z |- context [(?y <=? ?x)%Z] => rewrite (proj2 (Z.leb_gt _ _) H)
      | H : (?x ≤ ?y)%Z |- context [(?y <? ?x)%Z] => rewrite (proj2 (Z.ltb_ge _ _) H)
      | H : ?x ≠ 0%Z |- context [(?x =? 0)%Z] => rewrite (proj2 (Z.eqb_neq _ _) H)
      | H : (?x < ?y)%Z |- context [(?y =? ?x)%Z] =>
          rewrite (proj2 (Z.eqb_neq y x)) by lia
      | H : ?x = ?y |- context [(?x =? ?y)%Z] => rewrite (proj2 (Z.eqb_eq _ _) H)
      | H : retryable _ = Some _ |- _ => rewrite H
      end
    | rewrite bool_decide_eq_true_2 by done
    | rewrite raise_if_false by reflexivity ]).

Ltac begin_branch out :=
  match goal with Hk : dict_get ?d "kind" = VStr ?k |- _ =>
    exists out, k; split; [exact Hk|split; [clear Hk|reflexivity] ] end;
  unfold dispatch; simpl;
  unfold apply_claim, apply_checkpoint, apply_complete, apply_fail, apply_dead_letter,
    apply_ack, _expect_digest, _expect_positive, _expect_failure_code;
  repeat match goal with H : dict_get _ _ = _ |- _ => rewrite H; clear H end.

Lemma job_step_dispatch s c d s' :
  Wf s → cmd_ok c → Forall (λ kx, dict_get d kx.1 = kx.2) (cmd_fields c) →
  step s c s' →
  ∃ out kind, dict_get d "kind" = VStr kind ∧ dispatch s kind d = Ok out ∧
              out_state s out = s'.
Proof.
  intros Hwf Hok Hget Hstep.
  pose proof (λ Ht, proj2 (terminal_digest_iff s _) (conj Hwf (conj Ht eq_refl))) as Htd.
  destruct Hwf as ([_ _ _ _ [_ Hle] _ _] & _ & Hd).
  destruct Hstep; unfold cmd_ok in Hok; cbn [cmd_fields cmd_owner] in *;
    rewrite !Forall_cons in Hget; simpl in Hget, Hok; unfold advances in *;
    destruct_and?;
    repeat match goal with H : owner s ?f ?w |- _ =>
      lazymatch goal with H' : f = fence s |- _ => fail | _ => idtac end;
      pose proof (proj1 H); pose proof (proj2 H) end.
  - begin_branch (Next (with_lease s f w d0 (failure_code s) (retryable s))).
    by eval_branch.
  - begin_branch Return. subst d0. by eval_branch.
  - begin_branch (Next (with_lease s f w d0 (failure_code s) (retryable s))).
    by eval_branch.
  - begin_branch (Next (with_lease s f w d0 None None)). by eval_branch.
  - begin_branch Return. subst n. by eval_branch.
  - begin_branch (Next (with_checkpoint s f w n ck pr ar)). subst n.
    rewrite require_owner_ok by (assumption || congruence). simpl. eval_branch.
    rewrite (proj2 (Z.eqb_neq _ _)) by lia. rewrite (proj2 (Z.leb_gt _ _)) by lia.
    by eval_branch.
  - begin_branch (Next (with_phase s "completed" (Some a) (failure_code s) (retryable s)
      (dlq_digest s) (acked s))). by eval_branch.
  - begin_branch Return. by eval_branch.
  - begin_branch (Next (with_phase s "failed" (final_artifact_digest s) (Some k) (Some r)
      (dlq_digest s) (acked s))). by eval_branch.
  - begin_branch Return. by eval_branch.
  - begin_branch (Next (with_phase s "dead-lettered" (final_artifact_digest s)
      (failure_code s) (retryable s) (Some q) (acked s))). eval_branch.
    rewrite raise_if_false; [done|]. apply andb_false_iff.
    destruct (bool_decide _) eqn:E; [right|by left]. bool_hyps. apply Z.ltb_ge.
    match goal with H : _ → _ = max_deliveries s |- _ => rewrite H by done end. lia.
  - begin_branch Return. by eval_branch.
  - begin_branch (Next (with_phase s (phase s) (final_artifact_digest s) (failure_code s)
      (retryable s) (dlq_digest s) true)). rewrite Htd by done. eval_branch.
    match goal with H : acked s = _ |- _ => by rewrite H end.
  - begin_branch Return. rewrite Htd by done. eval_branch.
    match goal with H : acked s = _ |- _ => by rewrite H end.
Qed.

Lemma kind_of_cmd c d :
  cmd_ok c → encodes (VDict d) c →
  ∃ kind, dict_get d "kind" = VStr kind ∧ _parse_command (VDict d) = Ok (kind, d).
Proof.
  intros _ (d' & [= <-] & Hkeys & Hget).
  destruct c; cbn [cmd_fields] in *; rewrite !Forall_cons in Hget;
    destruct Hget as (Hk & _); simpl in Hk; eexists; (split; [exact Hk|]);
    apply job_command_inv; (split; [done|split; [exact Hk|] ]); by eexists.
Qed.

Lemma job_apply_steps s v s' :
  apply s v = Ok s' ↔ Wf s ∧ ∃ c, encodes v c ∧ cmd_ok c ∧ step s c s'.
Proof.
  unfold apply. split.
  - intros H. inv_step. rename Hok into Hval. destruct a. apply job_validate_iff in Hval.
    split; [done|]. inv_step. destruct a as [kind d]. inv_step.
    destruct (dispatch_sound _ _ _ _ _ Hval Hok Hok0) as (c & Henc & Hcok & Hstep).
    apply job_command_inv in Hok as [-> _]. exists c. split; [done|split; [done|] ].
    destruct a; simpl in *; inv_checks; done.
  - intros (Hwf & c & Henc & Hcok & Hstep).
    rewrite (job_Wf_validate _ Hwf). simpl.
    pose proof Henc as (d & -> & Hkeys & Hget).
    destruct (kind_of_cmd c d Hcok Henc) as (k & Hk & ->). simpl.
    destruct (job_step_dispatch s c d s' Hwf Hcok Hget Hstep) as (out & k' & Hk' & Hd & Hout).
    assert (k' = k) as -> by congruence. rewrite Hd. simpl.
    destruct out; simpl in Hout; subst; simpl; [done|].
    by rewrite (job_Wf_validate _ (job_step_Wf _ _ _ Hwf Hcok Hstep)).
Qed.
End refinement.

(** ** Runs *)

Definition accepts (s s' : JobState) : Prop := ∃ v, apply s v = Ok s'.

Lemma job_cmd_value_encodes c : encodes (cmd_value c) c.
Proof.
  eexists; split; [reflexivity|]. destruct c; split; try reflexivity;
    cbn [cmd_fields]; by rewrite !Forall_cons, Forall_nil.
Qed.

Lemma accepts_inv s s' :
  accepts s s' → Wf s ∧ Wf s' ∧ ∃ c, cmd_ok c ∧ step s c s'.
Proof.
  intros (v & (Hwf & c & _ & Hcok & Hstep)%job_apply_steps). eauto 6 using job_step_Wf.
Qed.

Lemma job_accepts_step s c s' : Wf s → cmd_ok c → step s c s' → accepts s s'.
Proof. exists (cmd_value c). apply job_apply_steps. eauto using job_cmd_value_encodes. Qed.

(** A JSON value is the object of at most one command. *)
Lemma job_encodes_fun v c1 c2 : encodes v c1 → encodes v c2 → c1 = c2.
Proof.
  intros (d & -> & _ & H1) (d' & [= <-] & _ & H2).
  destruct c1, c2; cbn [cmd_fields] in *; rewrite !Forall_cons in H1, H2; simpl in *;
    destruct_and?; try congruence.
  assert (provider = provider0) by (apply opt_str_inj; congruence).
  assert (artifact = artifact0) by (apply opt_str_inj; congruence). congruence.
Qed.

Lemma job_initial_Wf job msg budget s : initial job msg budget = Ok s → Wf s.
Proof. unfold initial. intros H. repeat inv_step. by apply job_validate_iff. Qed.

Lemma job_run_Wf s s' : rtc accepts s s' → Wf s → Wf s'.
Proof.
  intros Hrun Hwf. apply (rtc_inv accepts Wf s); [|done..].
  by intros a b _ (_ & Hb & _)%accepts_inv.
Qed.

(** *** Only [ProtocolError] is raised *)

Lemma job_validate_raises s : raises_only ProtocolError (validate s).
Proof.
  unfold validate, _optional_digest, _expect_identifier, _expect_digest, _expect_positive,
    _expect_nonnegative, _expect_failure_code, err. solve_raises.
Qed.
#[local] Hint Resolve job_validate_raises : raises.

Lemma terminal_digest_raises s : raises_only ProtocolError (terminal_digest s).
Proof. unfold terminal_digest, err. solve_raises. Qed.
#[local] Hint Resolve terminal_digest_raises : raises.

Lemma job_dispatch_raises s kind d : raises_only ProtocolError (dispatch s kind d).
Proof.
  unfold dispatch, apply_claim, apply_checkpoint, apply_complete, apply_fail,
    apply_dead_letter, apply_ack, _require_owner, _optional_digest, _expect_digest,
    _expect_positive, _expect_failure_code, err. solve_raises.
Qed.
#[local] Hint Resolve job_dispatch_raises : raises.

Lemma job_command_raises v : raises_only ProtocolError (_parse_command v).
Proof. unfold _parse_command, _expect_exact_keys, err. solve_raises. Qed.
#[local] Hint Resolve job_command_raises : raises.

Lemma job_apply_raises s v : raises_only ProtocolError (apply s v).
Proof. unfold apply. solve_raises. Qed.

(** *** What the steps preserve *)

(** The job keeps its identity and budget; its fence, its delivery count and
    its checkpoint sequence only grow, and a checkpoint is never rewritten. *)
Definition advances_to (s s' : JobState) : Prop :=
  job_id s' = job_id s ∧ message_id s' = message_id s ∧
  max_deliveries s' = max_deliveries s ∧ (fence s ≤ fence s')%Z ∧
  (delivery_count s ≤ delivery_count s')%Z ∧
  (checkpoint_sequence s ≤ checkpoint_sequence s')%Z ∧
  (checkpoint_sequence s' = checkpoint_sequence s →
   checkpoint_digest s' = checkpoint_digest s ∧
   provider_task_digest s' = provider_task_digest s ∧
   artifact_ref_digest s' = artifact_ref_digest s).

#[export] Instance advances_to_preorder : PreOrder advances_to.
Proof.
  split.
  - intros s. unfold advances_to. repeat split; lia.
  - intros s t u (?&?&?&?&?&?&Hst) (?&?&?&?&?&?&Htu). unfold advances_to.
    split_and!; try congruence; try lia. intros Heq.
    destruct Hst as (?&?&?); [lia|]. destruct Htu as (?&?&?); [lia|].
    repeat split; congruence.
Qed.

Lemma step_advances s c s' : step s c s' → advances_to s s'.
Proof.
  intros Hstep. unfold advances_to.
  destruct Hstep; unfold advances, owner in *; destruct_and?; simpl;
    repeat split; try lia; try done; subst; lia.
Qed.

(** A committed terminal state changes in nothing but its acknowledgement. *)
Definition only_acked (s s' : JobState) : Prop :=
  terminal s →
  s' = s ∨ s' = with_phase s (phase s) (final_artifact_digest s) (failure_code s)
                  (retryable s) (dlq_digest s) true.

Lemma with_phase_id s :
  s = with_phase s (phase s) (final_artifact_digest s) (failure_code s) (retryable s)
        (dlq_digest s) (acked s).
Proof. by destruct s. Qed.

#[export] Instance only_acked_preorder : PreOrder only_acked.
Proof.
  split.
  - intros s _. by left.
  - intros s t u Hst Htu Hs. destruct (Hst Hs) as [->|Ht]; [by apply Htu|].
    rewrite Ht in Htu. destruct Htu as [->| ->]; [done|by right..].
Qed.

Lemma terminal_not s ph :
  terminal s → phase s = ph → mem_str ph ["completed"; "dead-lettered"] = false → False.
Proof. intros Ht <- H%not_true_iff_false. apply H, mem_str_In, Ht. Qed.

Lemma step_only_acked s c s' : step s c s' → only_acked s s'.
Proof.
  intros Hstep Ht. destruct Hstep; try (by left); try (by right);
    by edestruct (terminal_not s).
Qed.

(** A failure that is not retryable is never run again. *)
Definition not_reclaimed (s s' : JobState) : Prop :=
  phase s = "failed" → retryable s ≠ Some true →
  phase s' ∈ ["failed"; "dead-lettered"] ∧ retryable s' = retryable s ∧
  failure_code s' = failure_code s ∧ fence s' = fence s ∧
  worker_digest s' = worker_digest s ∧ delivery_count s' = delivery_count s.

Lemma step_not_reclaimed s c s' : step s c s' → not_reclaimed s s'.
Proof.
  intros Hstep Hp Hr. destruct Hstep; try congruence; simpl; try (rewrite Hp);
    repeat split; set_solver.
Qed.

Lemma run_not_reclaimed s s' :
  rtc accepts s s' → phase s ∈ ["failed"; "dead-lettered"] → retryable s ≠ Some true ∨ phase s = "dead-lettered" →
  phase s' ∈ ["failed"; "dead-lettered"] ∧ retryable s' = retryable s ∧
  failure_code s' = failure_code s ∧ fence s' = fence s ∧
  worker_digest s' = worker_digest s ∧ delivery_count s' = delivery_count s.
Proof.
  induction 1 as [s|s t u Hst _ IH]; [by repeat split|]. intros Hp Hr.
  apply accepts_inv in Hst as (_ & _ & c & _ & Hstep).
  assert (phase t ∈ ["failed"; "dead-lettered"] ∧ retryable t = retryable s ∧
    failure_code t = failure_code s ∧ fence t = fence s ∧
    worker_digest t = worker_digest s ∧ delivery_count t = delivery_count s ∧
    (phase s = "dead-lettered" → phase t = "dead-lettered"))
    as (Hpt & Hrt & ? & ? & ? & ? & Hd).
  { split_members.
    - destruct Hr as [Hr|]; [|congruence].
      destruct (step_not_reclaimed _ _ _ Hstep Hp Hr) as (?&?&?&?&?&?).
      repeat split; try done. congruence.
    - assert (terminal s) as Ht by (unfold terminal; rewrite Hp; set_solver).
      destruct (step_only_acked _ _ _ Hstep Ht) as [->| ->]; simpl; rewrite Hp;
        repeat split; set_solver. }
  destruct (IH Hpt) as (?&?&?&?&?&?); [rewrite Hrt; tauto|].
  repeat split; congruence.
Qed.

(** *** Replays *)

(** The step that accepts a command accepts it again without further change. *)
Lemma job_step_replay s c s' : step s c s' → step s' c s'.
Proof.
  intros Hstep. destruct Hstep; first
    [ by apply claim_same | by apply checkpoint_same
    | by apply (checkpoint_same (with_checkpoint s f w n ck pr ar))
    | by apply complete_same | by apply fail_same | by apply dead_letter_same
    | by apply ack_same | by apply (ack_same (with_phase s _ _ _ _ _ true)) ].
Qed.

Lemma job_step_fence s c s' f w :
  step s c s' → cmd_owner c = Some (f, w) → (fence s ≤ f)%Z.
Proof.
  intros Hstep Hc. destruct Hstep; simplify_eq/=; unfold advances, owner in *;
    destruct_and?; lia.
Qed.

(** *** The budget of deliveries *)

(** The state after a command, which a rejection leaves as it was. *)
Definition after (s : JobState) (v : value) : JobState :=
  match apply s v with Ok s' => s' | Raise _ => s end.

(** How many of the commands start a new delivery. *)
Fixpoint deliveries (s : JobState) (commands : list value) : nat :=
  match commands with
  | [] => 0
  | v :: commands =>
      (if (fence (after s v) =? fence s)%Z then 0 else 1) + deliveries (after s v) commands
  end.

Lemma after_accepts s v : after s v = s ∨ accepts s (after s v).
Proof. unfold after. destruct (apply s v) eqn:E; [right; by exists v|by left]. Qed.

Lemma step_delivery s c s' :
  step s c s' → fence s' ≠ fence s → (delivery_count s < delivery_count s')%Z.
Proof.
  intros Hstep Hne. destruct Hstep; simpl in *; unfold advances, owner in *;
    destruct_and?; try congruence; lia.
Qed.

(** *** Progress *)

Definition some_digest : string :=
  "0000000000000000000000000000000000000000000000000000000000000000".

Lemma sha256_DIGEST v : DIGEST (sha256 v) = true.
Proof. apply sha256_hex_digest. Qed.

(** A valid state can take a step of the protocol and go on from there. *)
Lemma via s c s' (P : JobState → Prop) :
  Wf s → cmd_ok c → step s c s' →
  (Wf s' → ∃ t, rtc accepts s' t ∧ P t) → ∃ t, rtc accepts s t ∧ P t.
Proof.
  intros Hwf Hok Hstep Hgo. destruct Hgo as (t & Hrun & HP); [eauto using job_step_Wf|].
  exists t. split; [|done]. eapply rtc_l; [by eapply job_accepts_step|done].
Qed.

Definition is_acked (s : JobState) : Prop := terminal s ∧ acked s = true.

Lemma ack_from_terminal s : Wf s → terminal s → ∃ t, rtc accepts s t ∧ is_acked t.
Proof.
  intros Hwf Ht. destruct (acked s) eqn:Ha; [by exists s|].
  eapply (via s _ _ _ Hwf); [|by apply ack_new|].
  - split; [done|]. apply sha256_DIGEST.
  - intros _. eexists. by split.
Qed.

Lemma ack_from_running s :
  Wf s → phase s = "running" → ∃ t, rtc accepts s t ∧ is_acked t.
Proof.
  intros Hwf Hp. pose proof Hwf as ([? ? ? ? ? ? Hseq] & _ & Hd).
  assert (leased s) as (Hf & _ & w & Hw & Hdw) by (by destruct Hd; congruence || done).
  eapply (via s (Checkpoint (fence s) w (checkpoint_sequence s + 1) some_digest None None)
    _ _ Hwf); [|by apply checkpoint_next|].
  { split; [done|]. split; [lia|]. repeat split; by left. }
  match goal with |- Wf ?t → _ => set (s1 := t) end. intros Hwf1.
  eapply (via s1 (Complete (fence s) w some_digest) _ _ Hwf1); [by split| |].
  - apply complete_new; [done|done|]. simpl. lia.
  - intros Hwf2. apply ack_from_terminal; [done|]. unfold terminal. simpl. set_solver.
Qed.

Lemma ack_from_any s : Wf s → ∃ t, rtc accepts s t ∧ is_acked t.
Proof.
  intros Hwf. pose proof Hwf as (Hb & _ & Hd).
  destruct Hb as [_ _ _ _ [Hdc Hmax] Hbudget _].
  destruct Hd as [Hp Hf _ Hdc0 _|Hp _ _|Hp (Hf & _ & w & Hw & Hdw) (_ & r & Hr) _ _ _
    |Hp _ _ _ _ _|Hp _ _ _ _].
  - eapply (via s (Claim 1 some_digest 1) _ _ Hwf); [by split| |].
    + apply claim_queued; [done|]. unfold advances. lia.
    + intros Hwf'. by apply ack_from_running.
  - by apply ack_from_running.
  - destruct (decide (r = true ∧ (delivery_count s < max_deliveries s)%Z)) as [[-> Hlt]|Hno].
    + eapply (via s (Claim (fence s + 1) some_digest (delivery_count s + 1)) _ _ Hwf).
      * split; [by split; [lia|]|lia].
      * apply claim_retry; [done|done|]. unfold advances. lia.
      * intros Hwf'. by apply ack_from_running.
    + eapply (via s (DeadLetter (fence s) w some_digest) _ _ Hwf); [by split| |].
      * apply dead_letter_new; [done|done|]. intros ?. assert (r = true) by congruence.
        assert (¬ (delivery_count s < max_deliveries s)%Z) by tauto. lia.
      * intros Hwf'. apply ack_from_terminal; [done|]. unfold terminal. simpl. set_solver.
  - apply ack_from_terminal; [done|]. unfold terminal. rewrite Hp. set_solver.
  - apply ack_from_terminal; [done|]. unfold terminal. rewrite Hp. set_solver.
Qed.

(** *** The terminal digest determines what it names *)

Definition terminal_items (s : JobState) : items :=
  match terminal_value s with VDict d => d | _ => [] end.

Lemma terminal_value_get s t k :
  canonical (terminal_value s) = canonical (terminal_value t) →
  dict_get (terminal_items s) k = dict_get (terminal_items t) k.
Proof. intros Heq. apply scalar_dict_inj; record_dict || exact Heq. Qed.

(** What an acknowledgement commits to. *)
Definition same_outcome (s t : JobState) : Prop :=
  job_id s = job_id t ∧ message_id s = message_id t ∧ phase s = phase t ∧
  fence s = fence t ∧ delivery_count s = delivery_count t ∧
  checkpoint_sequence s = checkpoint_sequence t ∧
  checkpoint_digest s = checkpoint_digest t ∧
  provider_task_digest s = provider_task_digest t ∧
  artifact_ref_digest s = artifact_ref_digest t ∧
  final_artifact_digest s = final_artifact_digest t ∧
  failure_code s = failure_code t ∧ retryable s = retryable t ∧
  dlq_digest s = dlq_digest t.

Lemma terminal_value_inj s t :
  canonical (terminal_value s) = canonical (terminal_value t) → same_outcome s t.
Proof.
  intros Heq. pose proof (λ k, terminal_value_get s t k Heq) as Hget. unfold same_outcome.
  split_and!.
  - by injection (Hget "job_id").
  - by injection (Hget "message_id").
  - by injection (Hget "phase").
  - by injection (Hget "fence").
  - by injection (Hget "delivery_count").
  - by injection (Hget "checkpoint_sequence").
  - exact (opt_str_inj _ _ (Hget "checkpoint_digest")).
  - exact (opt_str_inj _ _ (Hget "provider_task_digest")).
  - exact (opt_str_inj _ _ (Hget "artifact_ref_digest")).
  - exact (opt_str_inj _ _ (Hget "final_artifact_digest")).
  - exact (opt_str_inj _ _ (Hget "failure_code")).
  - exact (opt_bool_inj _ _ (Hget "retryable")).
  - exact (opt_str_inj _ _ (Hget "dlq_digest")).
Qed.

(** ** Properties *)

(** C40: refinement.  [apply] accepts a JSON command exactly when the job
    validates, the value is the object of a well-formed command and a rule of
    the abstract protocol allows it; the resulting job is the rule's, so the
    validation at the end of [apply] never rejects a job [apply] built. *)
Theorem job_refines_protocol s v s' :
  apply s v = Ok s' ↔
  validate s = Ok tt ∧ ∃ c, encodes v c ∧ cmd_ok c ∧ step s c s' ∧ validate s' = Ok tt.
Proof.
  rewrite job_apply_steps, job_validate_iff. split.
  - intros (Hwf & c & Henc & Hok & Hstep). split; [done|]. exists c.
    split; [done|split; [done|split; [done|] ] ]. apply job_Wf_validate. eauto using job_step_Wf.
  - intros (Hwf & c & Henc & Hok & Hstep & _). eauto.
Qed.

(** Failure atomicity.  On a valid job [attempt] always returns a result.
    An accepted command carries the job [apply] built and, exactly when that
    job is terminal, its terminal digest; a rejected one leaves the job and its
    digest as they were and carries the text of the [ProtocolError]. *)
Theorem job_attempt_atomic s v :
  validate s = Ok tt →
  ∃ r, attempt s v = Ok r ∧ validate (state r) = Ok tt ∧
    if ok r then
      apply s v = Ok (state r) ∧ error r = None ∧
      (result_terminal_digest r =
       if terminal_phase (phase (state r)) then Some (sha256 (terminal_value (state r)))
       else None)
    else state r = s ∧ changed r = false ∧ after_sha256 r = before_sha256 r ∧
         ∃ msg, error r = Some msg ∧ apply s v = Raise (Exn ProtocolError msg).
Proof.
  intros Hval. unfold attempt, state_sha256. rewrite Hval. simpl.
  pose proof (job_apply_raises s v) as Hraise.
  destruct (apply s v) as [s'|[cls msg]] eqn:Happ; simpl in Hraise.
  - assert (validate s' = Ok tt) as Hval'.
    { apply job_validate_iff. assert (accepts s s') as Hacc by (by exists v).
      by apply accepts_inv in Hacc as (_ & ? & _). }
    unfold terminal_digest. rewrite Hval'. simpl.
    destruct (terminal_phase (phase s')) eqn:Ht; simpl;
      (eexists; split; [reflexivity|]); simpl; by rewrite ?Ht.
  - subst cls. eexists. split; [done|]. simpl. eauto 10.
Qed.

(** At-least-once delivery is safe.  A command that was accepted is accepted
    again in the resulting job and changes nothing. *)
Theorem job_command_replays s v s' : apply s v = Ok s' → apply s' v = Ok s'.
Proof.
  rewrite !job_apply_steps. intros (Hwf & c & Henc & Hok & Hstep).
  split; [eauto using job_step_Wf|]. eauto using job_step_replay.
Qed.

(** Stale workers.  After a takeover or a retry moved the fence, every
    command of a worker with an older fence is rejected with a
    [ProtocolError], at once and after any later commands. *)
Theorem stale_worker_rejected s s' v c f w :
  rtc accepts s s' → validate s = Ok tt → encodes v c → cmd_owner c = Some (f, w) →
  (f < fence s)%Z → ∃ msg, apply s' v = Raise (Exn ProtocolError msg).
Proof.
  intros Hrun Hwf%job_validate_iff Henc Hc Hlt.
  assert (advances_to s s') as (_ & _ & _ & Hle & _).
  { apply (rtc_rel accepts Wf advances_to); [|done|done].
    intros a b _ (_ & ? & ? & _ & ?)%accepts_inv. eauto using step_advances. }
  destruct (apply s' v) as [t|[cls msg]] eqn:Happ.
  - apply job_apply_steps in Happ as (_ & c' & Henc' & _ & Hstep).
    rewrite (job_encodes_fun _ _ _ Henc' Henc) in Hstep.
    apply (job_step_fence _ _ _ _ _ Hstep) in Hc. lia.
  - pose proof (job_apply_raises s' v) as Hr. rewrite Happ in Hr. simpl in Hr. subst.
    by exists msg.
Qed.

(** Bounded execution.  Whatever commands are sent to a valid job, in any
    order and with any rejections between them, at most
    [max_deliveries - delivery_count] of them start a new delivery. *)
Theorem deliveries_within_budget s commands :
  validate s = Ok tt →
  (Z.of_nat (deliveries s commands) ≤ max_deliveries s - delivery_count s)%Z.
Proof.
  intros Hwf%job_validate_iff. revert s Hwf.
  induction commands as [|v vs IH]; intros s Hwf; cbn [deliveries].
  - destruct Hwf as ([_ _ _ _ [? ?] _ _] & _). lia.
  - destruct (after_accepts s v) as [->|(_ & Hwf' & c & _ & Hstep)%accepts_inv].
    + rewrite Z.eqb_refl. by apply IH.
    + pose proof (step_advances _ _ _ Hstep) as (_ & _ & Hm & _ & Hle & _).
      pose proof (step_delivery _ _ _ Hstep). specialize (IH _ Hwf').
      destruct (Z.eqb_spec (fence (after s v)) (fence s)); lia.
Qed.

(** Durable progress.  Along every run of accepted commands the job keeps
    its identity and budget; the fence, the delivery count and the checkpoint
    sequence never go back; and the checkpoint of a sequence number is never
    rewritten. *)
Theorem job_progress_is_durable s s' : rtc accepts s s' → advances_to s s'.
Proof.
  induction 1 as [s|s t u Hst _ IH]; [reflexivity|].
  apply accepts_inv in Hst as (_ & _ & c & _ & Hstep).
  etransitivity; [by eapply step_advances|done].
Qed.

(** Terminal states are final.  Once completed or dead-lettered, a job
    changes in nothing but the broker acknowledgement, so its terminal digest
    stays what it was, and the acknowledgement is accepted exactly with it. *)
Theorem terminal_is_final s s' t v :
  rtc accepts s s' → terminal_digest s = Ok t →
  (s' = s ∨ s' = with_phase s (phase s) (final_artifact_digest s) (failure_code s)
                   (retryable s) (dlq_digest s) true) ∧
  terminal_digest s' = Ok t ∧
  ∀ u, encodes v (Ack u) → (is_ok (apply s' v) = true ↔ u = t).
Proof.
  intros Hrun (Hwf & Ht & ->)%terminal_digest_iff.
  assert (only_acked s s') as Hack.
  { clear -Hrun. induction Hrun as [s|s t u Hst _ IH]; [reflexivity|].
    apply accepts_inv in Hst as (_ & _ & c & _ & Hstep).
    etransitivity; [by eapply step_only_acked|done]. }
  pose proof (job_run_Wf _ _ Hrun Hwf) as Hwf'.
  assert (terminal s' ∧ terminal_value s' = terminal_value s) as [Ht' Hv]
    by (by destruct (Hack Ht) as [->| ->]).
  split; [by apply Hack|]. split; [apply terminal_digest_iff; by rewrite Hv|].
  intros u Henc. split.
  - destruct (apply s' v) as [s2|] eqn:E; [|done]. intros _.
    apply job_apply_steps in E as (_ & c & Henc' & _ & Hstep).
    rewrite (job_encodes_fun _ _ _ Henc' Henc) in Hstep.
    inversion Hstep; subst; by rewrite Hv.
  - intros ->. rewrite <- Hv in Henc.
    assert (∃ s2, step s' (Ack (sha256 (terminal_value s'))) s2) as (s2 & Hstep).
    { destruct (acked s') eqn:Ha; eexists; [by apply ack_same|by apply ack_new]. }
    rewrite (proj2 (job_apply_steps s' v s2)); [done|]. split; [done|].
    eexists. split; [done|]. split; [|done]. split; [done|]. apply sha256_DIGEST.
Qed.

(** A failure recorded as not retryable is never executed again: every run
    keeps it failed or dead-letters it, with its failure code, its fence, its
    worker and its delivery count unchanged. *)
Theorem non_retryable_never_runs s s' :
  rtc accepts s s' → phase s = "failed" → retryable s ≠ Some true →
  phase s' ∈ ["failed"; "dead-lettered"] ∧ retryable s' = retryable s ∧
  failure_code s' = failure_code s ∧ fence s' = fence s ∧
  worker_digest s' = worker_digest s ∧ delivery_count s' = delivery_count s.
Proof.
  intros Hrun Hp Hr. apply run_not_reclaimed; [done|rewrite Hp; set_solver|by left].
Qed.

(** No dead ends.  From every valid job some sequence of accepted commands
    reaches a terminal state that the broker has acknowledged. *)
Theorem acknowledgement_reachable s :
  validate s = Ok tt →
  ∃ s', rtc accepts s s' ∧ phase s' ∈ ["completed"; "dead-lettered"] ∧ acked s' = true.
Proof. intros Hwf%job_validate_iff. destruct (ack_from_any s Hwf) as (t & ? & ? & ?). eauto. Qed.

(** An acknowledgement commits to the outcome.  Two jobs with the same
    terminal digest agree on the job, the message, the phase, the lease, the
    checkpoint, the artifact and the failure, or their canonical texts are a
    collision of SHA-256. *)
Theorem terminal_digest_binds s s' t :
  terminal_digest s = Ok t → terminal_digest s' = Ok t →
  same_outcome s s' ∨
  (canonical (terminal_value s) ≠ canonical (terminal_value s') ∧
   sha256_hex (canonical (terminal_value s)) = sha256_hex (canonical (terminal_value s'))).
Proof.
  intros (_ & _ & ->)%terminal_digest_iff (_ & _ & Heq)%terminal_digest_iff.
  destruct (text_or_collision _ _ Heq) as [Hc|Hne]; [left; by apply terminal_value_inj|by right].
Qed.

(** ** Witnesses: the properties at concrete runs *)

Definition demo_queued : JobState :=
  mkJobState MODEL_VERSION "job-1" "msg-1" 2 "queued" 0 None 0 0 None None None None None
    None None false.
Definition demo (cs : list cmd) : JobState :=
  foldl (λ s c, after s (cmd_value c)) demo_queued cs.
Definition demo_running : JobState := demo [Claim 1 some_digest 1].
Definition demo_completed : JobState :=
  demo [Claim 1 some_digest 1; Checkpoint 1 some_digest 1 some_digest None None;
        Complete 1 some_digest some_digest].
Definition demo_failed : JobState :=
  demo [Claim 1 some_digest 1; Fail_ 1 some_digest "bad_input" false].

Lemma job_attempt_atomic_witness :
  validate demo_running = Ok tt ∧
  ∃ r, attempt demo_running VNone = Ok r ∧ ok r = false ∧ state r = demo_running.
Proof.
  split; [vm_compute; reflexivity|].
  destruct (job_attempt_atomic demo_running VNone eq_refl) as (r & Hr & _ & Hok).
  exists r. split; [exact Hr|].
  destruct (ok r) eqn:E; [|split; [reflexivity|by destruct Hok] ].
  destruct Hok as [Hok _]. vm_compute in Hok. discriminate Hok.
Defined.

Lemma job_command_replays_witness :
  apply demo_queued (cmd_value (Claim 1 some_digest 1)) = Ok demo_running ∧
  apply demo_running (cmd_value (Claim 1 some_digest 1)) = Ok demo_running.
Proof.
  assert (apply demo_queued (cmd_value (Claim 1 some_digest 1)) = Ok demo_running) as H
    by (vm_compute; reflexivity).
  split; [exact H|]. exact (job_command_replays _ _ _ H).
Defined.

Lemma stale_worker_rejected_witness :
  let s := demo [Claim 1 some_digest 1; Claim 5 some_digest 2] in
  ∃ msg, apply s (cmd_value (Complete 1 some_digest some_digest))
         = Raise (Exn ProtocolError msg).
Proof.
  apply (stale_worker_rejected (demo [Claim 1 some_digest 1; Claim 5 some_digest 2]) _ _
           (Complete 1 some_digest some_digest) 1 some_digest).
  - apply rtc_refl.
  - vm_compute. reflexivity.
  - apply job_cmd_value_encodes.
  - reflexivity.
  - vm_compute. reflexivity.
Defined.

Lemma deliveries_within_budget_witness :
  let vs := map cmd_value [Claim 1 some_digest 1; Claim 2 some_digest 2; Claim 3 some_digest 3] in
  deliveries demo_queued vs = 2 ∧
  (Z.of_nat (deliveries demo_queued vs) ≤ max_deliveries demo_queued - 0)%Z.
Proof.
  split; [vm_compute; reflexivity|]. apply (deliveries_within_budget demo_queued).
  vm_compute. reflexivity.
Defined.

Lemma job_progress_is_durable_witness :
  rtc accepts demo_queued demo_running ∧ advances_to demo_queued demo_running.
Proof.
  assert (rtc accepts demo_queued demo_running) as H.
  { apply rtc_once. exists (cmd_value (Claim 1 some_digest 1)). vm_compute. reflexivity. }
  split; [exact H|]. exact (job_progress_is_durable _ _ H).
Defined.

Lemma terminal_is_final_witness :
  ∃ t, terminal_digest demo_completed = Ok t ∧
       is_ok (apply demo_completed (cmd_value (Ack t))) = true.
Proof.
  destruct (terminal_digest demo_completed) as [t|e] eqn:E;
    [|vm_compute in E; discriminate E].
  exists t. split; [reflexivity|].
  destruct (terminal_is_final demo_completed demo_completed t (cmd_value (Ack t))
    (rtc_refl _ _) E) as (_ & _ & H).
  apply (H t (job_cmd_value_encodes (Ack t))). reflexivity.
Defined.

Lemma non_retryable_never_runs_witness :
  rtc accepts demo_failed (after demo_failed (cmd_value (DeadLetter 1 some_digest some_digest))) ∧
  phase (after demo_failed (cmd_value (DeadLetter 1 some_digest some_digest)))
    ∈ ["failed"; "dead-lettered"].
Proof.
  assert (rtc accepts demo_failed
    (after demo_failed (cmd_value (DeadLetter 1 some_digest some_digest)))) as H.
  { apply rtc_once. exists (cmd_value (DeadLetter 1 some_digest some_digest)).
    vm_compute. reflexivity. }
  split; [exact H|].
  apply (non_retryable_never_runs _ _ H); vm_compute; [reflexivity|discriminate].
Defined.

Lemma acknowledgement_reachable_witness :
  ∃ s', rtc accepts demo_failed s' ∧ phase s' ∈ ["completed"; "dead-lettered"] ∧
        acked s' = true.
Proof. apply acknowledgement_reachable. vm_compute. reflexivity. Defined.

Lemma terminal_digest_binds_witness :
  ∃ t, terminal_digest demo_completed = Ok t ∧
       (same_outcome demo_completed demo_completed ∨
        (canonical (terminal_value demo_completed) ≠ canonical (terminal_value demo_completed) ∧
         sha256_hex (canonical (terminal_value demo_completed)) =
         sha256_hex (canonical (terminal_value demo_completed)))).
Proof.
  destruct (terminal_digest demo_completed) as [t|e] eqn:E;
    [|vm_compute in E; discriminate E].
  exists t. split; [reflexivity|]. exact (terminal_digest_binds _ _ t E E).
Defined.

End Fabrication.
