(* ===== verification/Supervisor.v ===== *)
(** * The bounded model of the recovery supervisor

    Models [formal/continuous_recovery_supervisor.py]: the abstract states and
    events of a pool of one to three workers ([enabled_events], [transition],
    [invariant_errors]) and the breadth-first exploration that checks them
    ([explore]). *)
From S2P Require Import Prelude PyValue.

Module Supervisor.

(** ** States and events *)

Definition MAX_MODEL_WORKERS : Z := 3.
Definition MODEL_MAX_RESTARTS : Z := 2.
Definition MODEL_MAX_BACKOFF_SECONDS : Z := 4.
Definition MODEL_DEPTH : nat := 10.

Definition model_error (msg : string) : exn := Exn ModelCheckError msg.

Inductive Phase : Set := RUNNING | BACKOFF | STOPPING | KILLING | STOPPED | STUCK.

Inductive EventKind : Set :=
  | CRASH | STABLE_EXIT | BACKOFF_ELAPSED | WINDOW_ELAPSED | STOP_REQUESTED
  | CHILD_EXITED | TERMINATE_GRACE_EXPIRED | KILL_GRACE_EXPIRED.

Record Event : Set := mkEvent { kind : EventKind; slot : option nat }.

Record Slot : Set := mkSlot {
  phase : Phase;
  attempts : Z;
  backoff_seconds : Z;
  generation : Z }.

Record SupervisorState : Set := mkState {
  stopping : bool;
  operator_stop : bool;
  budget_exhausted : bool;
  terminate_grace_elapsed : bool;
  kill_grace_elapsed : bool;
  kill_timeout : bool;
  slots : list Slot }.

#[export] Instance Phase_eq_dec : EqDecision Phase.
Proof. solve_decision. Defined.
#[export] Instance EventKind_eq_dec : EqDecision EventKind.
Proof. solve_decision. Defined.
#[export] Instance Event_eq_dec : EqDecision Event.
Proof. solve_decision. Defined.
#[export] Instance Slot_eq_dec : EqDecision Slot.
Proof. solve_decision. Defined.
#[export] Instance SupervisorState_eq_dec : EqDecision SupervisorState.
Proof. solve_decision. Defined.

(** [kind.value] *)
Definition kind_value (k : EventKind) : string :=
  match k with
  | CRASH => "crash" | STABLE_EXIT => "stable_exit"
  | BACKOFF_ELAPSED => "backoff_elapsed" | WINDOW_ELAPSED => "window_elapsed"
  | STOP_REQUESTED => "stop_requested" | CHILD_EXITED => "child_exited"
  | TERMINATE_GRACE_EXPIRED => "terminate_grace_expired"
  | KILL_GRACE_EXPIRED => "kill_grace_expired"
  end.

Definition label (e : Event) : string :=
  match slot e with
  | None => kind_value (kind e)
  | Some i => kind_value (kind e) +:+ "[" +:+ str_nat (S i) +:+ "]"
  end.

Definition expected_backoff (attempts maximum : Z) : result Z :=
  raise_if (attempts <? 1)%Z (model_error "backoff attempts must be positive") ;;
  Ok (Z.min maximum (Z.shiftl 1 (attempts - 1))).

Definition initial_state (worker_count : Z) : result SupervisorState :=
  raise_if (negb ((1 <=? worker_count)%Z && (worker_count <=? MAX_MODEL_WORKERS)%Z))
    (model_error "model worker count is outside 1..3") ;;
  Ok (mkState false false false false false false
        (replicate (Z.to_nat worker_count) (mkSlot RUNNING 0 0 0))).

(** ** Enabled events, sorted by kind and slot *)

Definition event_key (e : Event) : string * Z :=
  (kind_value (kind e), match slot e with None => (-1)%Z | Some i => Z.of_nat i end).

Definition event_leb (a b : Event) : bool :=
  String.ltb (event_key a).1 (event_key b).1
  || (((event_key a).1 =? (event_key b).1)%py && ((event_key a).2 <=? (event_key b).2)%Z).
Definition event_le (a b : Event) : Prop := event_leb a b = true.
#[export] Instance event_le_dec : RelDecision event_le.
Proof. intros a b. unfold event_le. apply _. Defined.

Definition in_phase (p : Phase) (s : Slot) : bool := bool_decide (phase s = p).

(** The events of one slot of a state that is not stopping. *)
Definition slot_events (index : nat) (s : Slot) : list Event :=
  match phase s with
  | RUNNING =>
      [mkEvent CRASH (Some index); mkEvent STABLE_EXIT (Some index)]
      ++ (if negb (attempts s =? 0)%Z then [mkEvent WINDOW_ELAPSED (Some index)] else [])
  | BACKOFF => [mkEvent BACKOFF_ELAPSED (Some index)]
  | _ => []
  end.

(** The events of one slot of a state that is stopping. *)
Definition exit_events (index : nat) (s : Slot) : list Event :=
  match phase s with
  | STOPPING | KILLING => [mkEvent CHILD_EXITED (Some index)]
  | _ => []
  end.

Definition enabled_events (state : SupervisorState) : list Event :=
  if kill_timeout state then []
  else
    merge_sort event_le
      (if negb (stopping state) then
         mkEvent STOP_REQUESTED None :: concat (imap slot_events (slots state))
       else
         concat (imap exit_events (slots state))
         ++ (if negb (terminate_grace_elapsed state)
                && existsb (in_phase STOPPING) (slots state)
             then [mkEvent TERMINATE_GRACE_EXPIRED None] else [])
         ++ (if terminate_grace_elapsed state && negb (kill_grace_elapsed state)
                && existsb (in_phase KILLING) (slots state)
             then [mkEvent KILL_GRACE_EXPIRED None] else [])).

(** ** Transitions *)

Definition with_phase (s : Slot) (p : Phase) : Slot :=
  mkSlot p (attempts s) (backoff_seconds s) (generation s).
Definition settled (s : Slot) (p : Phase) : Slot := mkSlot p (attempts s) 0 (generation s).

Definition stop_slot (exited_slot : option nat) (exited_attempts : option Z)
    (index : nat) (s : Slot) : Slot :=
  if bool_decide (exited_slot = Some index) then
    mkSlot STOPPED (default (attempts s) exited_attempts) 0 (generation s)
  else match phase s with
       | RUNNING => settled s STOPPING
       | BACKOFF => settled s STOPPED
       | _ => s
       end.

Definition _stop_slots (slots : list Slot) (exited_slot : option nat)
    (exited_attempts : option Z) : list Slot :=
  imap (stop_slot exited_slot exited_attempts) slots.

(** [replace] of the slots and of the flags of a state. *)
Definition with_slots (s : SupervisorState) (l : list Slot) : SupervisorState :=
  mkState (stopping s) (operator_stop s) (budget_exhausted s)
    (terminate_grace_elapsed s) (kill_grace_elapsed s) (kill_timeout s) l.

(** [slots[event.slot]], under the [assert] that the event names a slot. *)
Definition get_slot (state : SupervisorState) (event : Event) : result (nat * Slot) :=
  match slot event with
  | None => Raise (Exn AssertionError EmptyString)
  | Some i => match slots state !! i with
              | Some s => Ok (i, s)
              | None => Raise (Exn IndexError "list index out of range")
              end
  end.

Definition replace_phase (p q : Phase) (s : Slot) : Slot :=
  if in_phase p s then with_phase s q else s.

Definition transition (state : SupervisorState) (event : Event) : result SupervisorState :=
  raise_if (negb (bool_decide (event ∈ enabled_events state)))
    (model_error ("disabled transition: " +:+ label event)) ;;
  match kind event with
  | STOP_REQUESTED =>
      Ok (mkState true true (budget_exhausted state) (terminate_grace_elapsed state)
            (kill_grace_elapsed state) (kill_timeout state)
            (_stop_slots (slots state) None None))
  | CRASH =>
      '(i, s) ← get_slot state event;
      let n := (attempts s + 1)%Z in
      if (MODEL_MAX_RESTARTS <? n)%Z then
        Ok (mkState true (operator_stop state) true (terminate_grace_elapsed state)
              (kill_grace_elapsed state) (kill_timeout state)
              (_stop_slots (slots state) (Some i) (Some n)))
      else
        b ← expected_backoff n MODEL_MAX_BACKOFF_SECONDS;
        Ok (with_slots state (<[i := mkSlot BACKOFF n b (generation s)]> (slots state)))
  | STABLE_EXIT =>
      '(i, s) ← get_slot state event;
      b ← expected_backoff 1 MODEL_MAX_BACKOFF_SECONDS;
      Ok (with_slots state (<[i := mkSlot BACKOFF 1 b (generation s)]> (slots state)))
  | WINDOW_ELAPSED =>
      '(i, s) ← get_slot state event;
      Ok (with_slots state
            (<[i := mkSlot (phase s) 0 (backoff_seconds s) (generation s)]> (slots state)))
  | BACKOFF_ELAPSED =>
      '(i, s) ← get_slot state event;
      Ok (with_slots state
            (<[i := mkSlot RUNNING (attempts s) 0 (generation s + 1)]> (slots state)))
  | CHILD_EXITED =>
      '(i, s) ← get_slot state event;
      Ok (with_slots state (<[i := settled s STOPPED]> (slots state)))
  | TERMINATE_GRACE_EXPIRED =>
      Ok (mkState (stopping state) (operator_stop state) (budget_exhausted state) true
            (kill_grace_elapsed state) (kill_timeout state)
            (map (replace_phase STOPPING KILLING) (slots state)))
  | KILL_GRACE_EXPIRED =>
      Ok (mkState (stopping state) (operator_stop state) (budget_exhausted state)
            (terminate_grace_elapsed state) true true
            (map (replace_phase KILLING STUCK) (slots state)))
  end.

(** ** Invariants *)

Definition live (s : Slot) : bool :=
  match phase s with RUNNING | STOPPING | KILLING | STUCK => true | _ => false end.

Definition when (b : bool) (msg : string) : list string := if b then [msg] else [].
Definition at_slot (msg : string) (index : nat) : string :=
  msg +:+ "[" +:+ str_nat (S index) +:+ "]".

Definition slot_errors (index : nat) (s : Slot) : list string :=
  when (negb ((0 <=? attempts s)%Z && (attempts s <=? MODEL_MAX_RESTARTS + 1)%Z))
    (at_slot "attempt_bound" index)
  ++ when (generation s <? 0)%Z (at_slot "generation_nonnegative" index)
  ++ (if in_phase BACKOFF s then
        if negb ((1 <=? attempts s)%Z && (attempts s <=? MODEL_MAX_RESTARTS)%Z)
        then [at_slot "backoff_has_admissible_attempt" index]
        else match expected_backoff (attempts s) MODEL_MAX_BACKOFF_SECONDS with
             | Ok b => when (negb (backoff_seconds s =? b)%Z)
                         (at_slot "backoff_is_exact_and_capped" index)
             | Raise _ => []
             end
      else when (negb (backoff_seconds s =? 0)%Z) (at_slot "delay_only_in_backoff" index)).

Definition invariant_errors (state : SupervisorState) : list string :=
  let workers := Z.of_nat (length (slots state)) in
  when (negb ((1 <=? workers)%Z && (workers <=? MAX_MODEL_WORKERS)%Z))
    "worker_count_is_bounded"
  ++ when ((operator_stop state || budget_exhausted state || terminate_grace_elapsed state
            || kill_grace_elapsed state || kill_timeout state) && negb (stopping state))
    "stop_flags_imply_stopping"
  ++ when (kill_grace_elapsed state && negb (terminate_grace_elapsed state))
    "kill_grace_follows_terminate_grace"
  ++ when (kill_timeout state && negb (kill_grace_elapsed state))
    "kill_timeout_follows_kill_grace"
  ++ when (kill_timeout state && negb (existsb (in_phase STUCK) (slots state)))
    "kill_timeout_has_stuck_child"
  ++ when (stopping state && existsb (in_phase BACKOFF) (slots state))
    "no_pending_respawn_after_stop"
  ++ when (negb (stopping state)
           && existsb (λ s, in_phase STOPPING s || in_phase KILLING s
                            || in_phase STOPPED s || in_phase STUCK s) (slots state))
    "shutdown_phase_requires_stop"
  ++ when (MAX_MODEL_WORKERS <? Z.of_nat (length (filter (λ s, live s = true) (slots state))))%Z
    "at_most_three_live_children"
  ++ concat (imap slot_errors (slots state)).

Definition is_terminal (state : SupervisorState) : bool :=
  stopping state && forallb (λ s, in_phase STOPPED s || in_phase STUCK s) (slots state).

(** ** Bounded exploration *)

#[export] Instance Phase_countable : Countable Phase.
Proof.
  refine (inj_countable'
    (λ p, match p with RUNNING => 0 | BACKOFF => 1 | STOPPING => 2 | KILLING => 3
          | STOPPED => 4 | STUCK => 5 end)
    (λ n, match n with 0 => RUNNING | 1 => BACKOFF | 2 => STOPPING | 3 => KILLING
          | 4 => STOPPED | _ => STUCK end) _). by intros [].
Defined.
#[export] Instance Slot_countable : Countable Slot.
Proof.
  refine (inj_countable'
    (λ s, (phase s, attempts s, backoff_seconds s, generation s))
    (λ t, let '(p, a, b, g) := t in mkSlot p a b g) _). by intros [].
Defined.
#[export] Instance SupervisorState_countable : Countable SupervisorState.
Proof.
  refine (inj_countable'
    (λ s, (stopping s, operator_stop s, budget_exhausted s, terminate_grace_elapsed s,
           kill_grace_elapsed s, kill_timeout s, slots s))
    (λ t, let '(a, b, c, d, e, f, l) := t in mkState a b c d e f l) _). by intros [].
Defined.

Record ExplorationReceipt : Set := mkReceipt {
  workers : Z;
  states : nat;
  transitions : nat;
  terminal_states : nat;
  maximum_depth : nat;
  clean_shutdown_witness : list string;
  budget_exhaustion_witness : list string;
  kill_timeout_witness : list string }.

(** The variables of [explore]; a queue entry is a state, its depth and its trace. *)
Abbreviation entry := (SupervisorState * nat * list Event)%type.

Record Search : Set := mkSearch {
  queue : list entry;
  seen : gmap SupervisorState nat;
  taken : nat;
  terminals : gset SupervisorState;
  clean : list string;
  budget : list string;
  killed : list string }.

Definition kind_name (k : EventKind) : string :=
  match k with
  | CRASH => "CRASH" | STABLE_EXIT => "STABLE_EXIT" | BACKOFF_ELAPSED => "BACKOFF_ELAPSED"
  | WINDOW_ELAPSED => "WINDOW_ELAPSED" | STOP_REQUESTED => "STOP_REQUESTED"
  | CHILD_EXITED => "CHILD_EXITED" | TERMINATE_GRACE_EXPIRED => "TERMINATE_GRACE_EXPIRED"
  | KILL_GRACE_EXPIRED => "KILL_GRACE_EXPIRED"
  end.

(** [repr] of an event and of a trace, as the error texts show them. *)
Definition repr_event (e : Event) : string :=
  "Event(kind=<EventKind." +:+ kind_name (kind e) +:+ ": " +:+ repr_str (kind_value (kind e))
  +:+ ">, slot=" +:+ (match slot e with None => "None" | Some i => str_nat i end) +:+ ")".
Definition repr_trace (trace : list Event) : string :=
  match trace with
  | [e] => "(" +:+ repr_event e +:+ ",)"
  | _ => "(" +:+ str_join ", " (map repr_event trace) +:+ ")"
  end.

(** The first labels found are kept. *)
Definition first_labels (old : list string) (found : bool) (labels : list string)
  : list string :=
  match old with [] => if found then labels else [] | _ => old end.

Definition record_terminal (state : SupervisorState) (trace : list Event) (b : Search)
  : Search :=
  if is_terminal state then
    let labels := map label trace in
    mkSearch (queue b) (seen b) (taken b) ({[ state ]} ∪ terminals b)
      (first_labels (clean b) (operator_stop state && negb (kill_timeout state)) labels)
      (first_labels (budget b) (budget_exhausted state) labels)
      (first_labels (killed b) (kill_timeout state) labels)
  else b.

(** The check that a stopping state starts no child. *)
Definition check_respawn (state next_state : SupervisorState) (event : Event)
  : result unit :=
  if stopping state then
    for_each (zip (slots state) (slots next_state)) (λ '(before, after) _,
      raise_if ((generation before <? generation after)%Z
                || in_phase RUNNING after || in_phase BACKOFF after)
        (model_error ("respawn after stop via " +:+ label event))) tt
  else Ok tt.

Definition explore_event (state : SupervisorState) (current_depth : nat)
    (trace : list Event) (event : Event) (b : Search) : result Search :=
  next_state ← transition state event;
  check_respawn state next_state event ;;
  let next_depth := S current_depth in
  let fresh := match seen b !! next_state with
               | None => true | Some d => (next_depth <? d)%nat end in
  Ok (if fresh then
        mkSearch (queue b ++ [(next_state, next_depth, trace ++ [event])])
          (<[next_state := next_depth]> (seen b)) (S (taken b)) (terminals b)
          (clean b) (budget b) (killed b)
      else mkSearch (queue b) (seen b) (S (taken b)) (terminals b)
             (clean b) (budget b) (killed b)).

(** One iteration of the [while] loop, on the entry taken from the queue. *)
Definition visit (depth : nat) (entry : entry) (b : Search) : result Search :=
  let '(state, current_depth, trace) := entry in
  let errors := invariant_errors state in
  raise_if (match errors with [] => false | _ => true end)
    (model_error ("invariant failure after " +:+ repr_trace trace +:+ ": "
                  +:+ str_join ", " errors)) ;;
  let b := record_terminal state trace b in
  if (depth <=? current_depth)%nat then Ok b
  else for_each (enabled_events state) (explore_event state current_depth trace) b.

(** The [while] loop; [None] when the fuel runs out. *)
Fixpoint search (fuel : nat) (depth : nat) (b : Search) : option (result Search) :=
  match fuel with
  | 0 => None
  | S fuel =>
      match queue b with
      | [] => Some (Ok b)
      | e :: rest =>
          match visit depth e (mkSearch rest (seen b) (taken b) (terminals b)
                                 (clean b) (budget b) (killed b)) with
          | Raise err => Some (Raise err)
          | Ok b => search fuel depth b
          end
      end
  end.

Definition no_labels (l : list string) : bool := match l with [] => true | _ => false end.

(** The checks and the receipt after the loop. *)
Definition receipt (worker_count : Z) (depth : nat) (b : Search)
  : result ExplorationReceipt :=
  raise_if (no_labels (clean b))
    (model_error "no bounded clean-shutdown witness was reachable") ;;
  raise_if (no_labels (budget b))
    (model_error "no bounded restart-exhaustion witness was reachable") ;;
  raise_if (no_labels (killed b))
    (model_error "no bounded kill-timeout witness was reachable") ;;
  Ok (mkReceipt worker_count (size (seen b)) (taken b) (size (terminals b)) depth
        (clean b) (budget b) (killed b)).

Definition start (initial : SupervisorState) : Search :=
  mkSearch [(initial, 0, [])] {[ initial := 0 ]} 0 ∅ [] [] [].

Definition explore (fuel : nat) (worker_count : Z) (depth : nat)
  : option (result ExplorationReceipt) :=
  match initial_state worker_count with
  | Raise e => Some (Raise e)
  | Ok initial =>
      r ← search fuel depth (start initial);
      Some (b ← r; receipt worker_count depth b)
  end.
End Supervisor.
