(* ===== verification/SupervisorSpec.v ===== *)
(** * The supervisor's specification and its refinement

    Models [formal/ContinuousRecoverySupervisor.tla] over the states of the
    executable model: the actions of [Next] for arbitrary bounds, and the
    invariants of [Safety].  A TLA+ function on [Workers] is the list of its
    values.  The theorems relate the executable [transition] to [Next]. *)
From S2P Require Import Prelude PyValue Supervisor.
Import Supervisor.

Module SupervisorSpec.

(** ** The specification *)

Definition BackoffFor (MaxBackoff n : Z) : Z :=
  if (2 ^ (n - 1) <=? MaxBackoff)%Z then (2 ^ (n - 1))%Z else MaxBackoff.

Definition StopPhase (p : Phase) : Phase :=
  match p with RUNNING => STOPPING | BACKOFF => STOPPED | _ => p end.

Definition Init (s : SupervisorState) : Prop :=
  ∃ n, (1 ≤ n ≤ 3)%nat ∧
    s = mkState false false false false false false (replicate n (mkSlot RUNNING 0 0 0)).

Section spec.
Context (MaxRestarts MaxBackoff : Z).

Definition stop_all (l : list Slot) : list Slot :=
  map (λ sl, mkSlot (StopPhase (phase sl)) (attempts sl) 0 (generation sl)) l.

Inductive Next (s : SupervisorState) : SupervisorState → Prop :=
  | Crash_exhausted i sl : stopping s = false → slots s !! i = Some sl →
      phase sl = RUNNING → (MaxRestarts < attempts sl + 1)%Z →
      Next s (mkState true (operator_stop s) true (terminate_grace_elapsed s)
                (kill_grace_elapsed s) (kill_timeout s)
                (<[i := mkSlot STOPPED (attempts sl + 1) 0 (generation sl)]>
                   (stop_all (slots s))))
  | Crash_backoff i sl : stopping s = false → slots s !! i = Some sl →
      phase sl = RUNNING → (attempts sl + 1 ≤ MaxRestarts)%Z →
      Next s (with_slots s
                (<[i := mkSlot BACKOFF (attempts sl + 1)
                          (BackoffFor MaxBackoff (attempts sl + 1)) (generation sl)]>
                   (slots s)))
  | StableExit i sl : stopping s = false → slots s !! i = Some sl →
      phase sl = RUNNING →
      Next s (with_slots s
                (<[i := mkSlot BACKOFF 1 (BackoffFor MaxBackoff 1) (generation sl)]>
                   (slots s)))
  | BackoffElapsed i sl : stopping s = false → slots s !! i = Some sl →
      phase sl = BACKOFF →
      Next s (with_slots s
                (<[i := mkSlot RUNNING (attempts sl) 0 (generation sl + 1)]> (slots s)))
  | WindowElapsed i sl : stopping s = false → slots s !! i = Some sl →
      phase sl = RUNNING → (0 < attempts sl)%Z →
      Next s (with_slots s
                (<[i := mkSlot (phase sl) 0 (backoff_seconds sl) (generation sl)]>
                   (slots s)))
  | StopRequested : stopping s = false →
      Next s (mkState true true (budget_exhausted s) (terminate_grace_elapsed s)
                (kill_grace_elapsed s) (kill_timeout s) (stop_all (slots s)))
  | ChildExited i sl : stopping s = true → slots s !! i = Some sl →
      phase sl = STOPPING ∨ phase sl = KILLING →
      Next s (with_slots s (<[i := mkSlot STOPPED (attempts sl) 0 (generation sl)]> (slots s)))
  | TerminateGraceExpired : stopping s = true → terminate_grace_elapsed s = false →
      (∃ sl, sl ∈ slots s ∧ phase sl = STOPPING) →
      Next s (mkState (stopping s) (operator_stop s) (budget_exhausted s) true
                (kill_grace_elapsed s) (kill_timeout s)
                (map (replace_phase STOPPING KILLING) (slots s)))
  | KillGraceExpired : stopping s = true → terminate_grace_elapsed s = true →
      kill_grace_elapsed s = false → (∃ sl, sl ∈ slots s ∧ phase sl = KILLING) →
      Next s (mkState (stopping s) (operator_stop s) (budget_exhausted s)
                (terminate_grace_elapsed s) true true
                (map (replace_phase KILLING STUCK) (slots s))).

(** [Safety] *)
Definition TypeOK (s : SupervisorState) : Prop :=
  Forall (λ sl, 0 ≤ attempts sl ∧ 0 ≤ backoff_seconds sl ∧ 0 ≤ generation sl)%Z (slots s).
Definition AtMostThreeLiveChildren (s : SupervisorState) : Prop :=
  length (filter (λ sl, live sl = true) (slots s)) ≤ 3.
Definition NoRespawnAfterStop (s : SupervisorState) : Prop :=
  stopping s = true → Forall (λ sl, phase sl ≠ BACKOFF) (slots s).
Definition GraceOrder (s : SupervisorState) : Prop :=
  (kill_grace_elapsed s = true → terminate_grace_elapsed s = true) ∧
  (kill_timeout s = true → kill_grace_elapsed s = true) ∧
  (terminate_grace_elapsed s = true → stopping s = true).
Definition BackoffExact (s : SupervisorState) : Prop :=
  Forall (λ sl,
    if decide (phase sl = BACKOFF)
    then (1 ≤ attempts sl ≤ MaxRestarts)%Z ∧
         backoff_seconds sl = BackoffFor MaxBackoff (attempts sl)
    else backoff_seconds sl = 0%Z) (slots s).
Definition AttemptBound (s : SupervisorState) : Prop :=
  Forall (λ sl, (attempts sl ≤ MaxRestarts + 1)%Z) (slots s).

Definition Safety (s : SupervisorState) : Prop :=
  TypeOK s ∧ AtMostThreeLiveChildren s ∧ NoRespawnAfterStop s ∧ GraceOrder s ∧
  BackoffExact s ∧ AttemptBound s.

(** ** An inductive invariant *)

(** What the flags of a state allow a slot to be. *)
Definition slot_ok (s : SupervisorState) (sl : Slot) : Prop :=
  (0 ≤ attempts sl ≤ MaxRestarts + 1)%Z ∧ (0 ≤ generation sl)%Z ∧
  match phase sl with
  | RUNNING => stopping s = false ∧ (attempts sl ≤ MaxRestarts)%Z ∧ backoff_seconds sl = 0%Z
  | BACKOFF => stopping s = false ∧ (1 ≤ attempts sl ≤ MaxRestarts)%Z ∧
      backoff_seconds sl = BackoffFor MaxBackoff (attempts sl)
  | STOPPING => stopping s = true ∧ terminate_grace_elapsed s = false ∧
      backoff_seconds sl = 0%Z
  | KILLING => stopping s = true ∧ terminate_grace_elapsed s = true ∧
      kill_grace_elapsed s = false ∧ backoff_seconds sl = 0%Z
  | STOPPED => stopping s = true ∧ backoff_seconds sl = 0%Z
  | STUCK => kill_timeout s = true ∧ backoff_seconds sl = 0%Z
  end.

Record Inv (s : SupervisorState) : Prop := {
  inv_workers : 1 ≤ length (slots s) ≤ 3;
  inv_stop_flags : stopping s = false →
    operator_stop s = false ∧ budget_exhausted s = false ∧
    terminate_grace_elapsed s = false;
  inv_kill : kill_timeout s = kill_grace_elapsed s;
  inv_kill_grace : kill_grace_elapsed s = true → terminate_grace_elapsed s = true;
  inv_stuck : kill_timeout s = true → ∃ sl, sl ∈ slots s ∧ phase sl = STUCK;
  inv_slots : Forall (slot_ok s) (slots s) }.

Lemma Inv_slot s i sl : Inv s → slots s !! i = Some sl → slot_ok s sl.
Proof. intros HI Hi. exact (Forall_lookup_1 _ _ _ _ (inv_slots s HI) Hi). Qed.

(** Changing one slot of a state. *)
Lemma Inv_with_slot s i sl sl' :
  Inv s → slots s !! i = Some sl → phase sl ≠ STUCK → slot_ok s sl' →
  Inv (with_slots s (<[i := sl']> (slots s))).
Proof.
  intros [Hw Hf Hk Hg Hst Hs] Hi Hne Hok. split; try done.
  - simpl. by rewrite length_insert.
  - intros (sl0 & Hin & Hp)%Hst. apply list_elem_of_lookup in Hin as [j Hj].
    exists sl0. split; [|done]. apply list_elem_of_lookup. exists j. simpl.
    rewrite list_lookup_insert_ne; [done|]. intros ->. congruence.
  - by apply Forall_insert.
Qed.

Lemma slot_ok_stop s t sl :
  stopping s = false → terminate_grace_elapsed s = false →
  kill_timeout s = false →
  stopping t = true → terminate_grace_elapsed t = false → slot_ok s sl →
  slot_ok t (mkSlot (StopPhase (phase sl)) (attempts sl) 0 (generation sl)).
Proof.
  intros H1 H2 H3 H4 H5 (Ha & Hg & Hp). split; [done|split; [done|] ]. simpl.
  destruct (phase sl); simpl; destruct_and?; try congruence; by repeat split.
Qed.

Lemma Inv_Init s : (0 ≤ MaxRestarts)%Z → Init s → Inv s.
Proof.
  intros HM (n & Hn & ->). split; simpl; try done; [by rewrite length_replicate|].
  apply Forall_replicate. unfold slot_ok. simpl. repeat split; lia || done.
Qed.

Lemma Inv_stopping s :
  Inv s → stopping s = false → terminate_grace_elapsed s = false ∧
  kill_grace_elapsed s = false ∧ kill_timeout s = false.
Proof.
  intros [_ Hf Hk Hg _ _] Hs. destruct (Hf Hs) as (_ & _ & Ht). rewrite Hk.
  destruct (kill_grace_elapsed s); [|done]. rewrite Hg in Ht by done. done.
Qed.

Lemma Next_Inv s s' : (1 ≤ MaxRestarts)%Z → Inv s → Next s s' → Inv s'.
Proof.
  intros HM HI Hstep. pose proof (Inv_stopping s HI) as Hns. destruct Hstep as [i sl Hr Hi Hph Hn|i sl Hr Hi Hph Hn|i sl Hr Hi Hph
    |i sl Hr Hi Hph|i sl Hr Hi Hph Hn|Hr|i sl Hr Hi Hph|Hr Ht Hex|Hr Ht Hkg Hex].
  - destruct Hns as (Ht & Hkg & Hkt); [done|]. destruct HI as [Hw Hf Hk Hg Hst Hs].
    pose proof (Forall_lookup_1 _ _ _ _ Hs Hi) as (Ha & Hgen & Hp).
    rewrite Hph in Hp. split; simpl; try done; try congruence.
    + unfold stop_all. by rewrite length_insert, length_map.
    + apply Forall_insert; [|split; simpl; [lia|done] ].
      apply Forall_map. eapply Forall_impl; [exact Hs|]. intros. simpl.
      eapply slot_ok_stop; done.
  - eapply Inv_with_slot; [done|done|congruence|].
    pose proof (Inv_slot _ _ _ HI Hi) as (Ha & Hg & Hp). rewrite Hph in Hp.
    split; simpl; [lia|]. repeat split; try done; lia.
  - eapply Inv_with_slot; [done|done|congruence|].
    pose proof (Inv_slot _ _ _ HI Hi) as (Ha & Hg & Hp).
    split; simpl; [lia|]. repeat split; try done; lia.
  - eapply Inv_with_slot; [done|done|congruence|].
    pose proof (Inv_slot _ _ _ HI Hi) as (Ha & Hg & Hp). rewrite Hph in Hp.
    split; simpl; [lia|]. repeat split; try done; lia.
  - eapply Inv_with_slot; [done|done|congruence|].
    pose proof (Inv_slot _ _ _ HI Hi) as (Ha & Hg & Hp). rewrite Hph in Hp.
    split; simpl; [lia|]. rewrite Hph. repeat split; try done; try lia; tauto.
  - destruct Hns as (Ht & Hkg & Hkt); [done|]. destruct HI as [Hw Hf Hk Hg Hst Hs].
    split; simpl; try done; try congruence.
    + unfold stop_all. by rewrite length_map.
    + apply Forall_map. eapply Forall_impl; [exact Hs|]. intros. simpl.
      eapply slot_ok_stop; done.
  - eapply Inv_with_slot; [done|done|by destruct Hph as [-> | ->]|].
    pose proof (Inv_slot _ _ _ HI Hi) as (Ha & Hg & Hp).
    split; simpl; [lia|]. by repeat split.
  - destruct HI as [Hw Hf Hk Hg Hst Hs]. split; simpl; try done; try congruence.
    + by rewrite length_map.
    + intros (sl & Hin & Hp)%Hst. exists sl. split; [|done]. apply list_elem_of_fmap.
      exists sl. split; [|done]. unfold replace_phase, in_phase. by rewrite Hp.
    + apply Forall_map. eapply Forall_impl; [exact Hs|]. intros sl (Ha & Hgen & Hp).
      unfold replace_phase, in_phase. simpl.
      assert (kill_grace_elapsed s = false) as Hkg
        by (destruct (kill_grace_elapsed s); [by rewrite Hg in Ht|done]).
      destruct (phase sl) eqn:E; simpl; split; simpl; try done; rewrite ?E;
        naive_solver.
  - destruct HI as [Hw Hf Hk Hg Hst Hs]. split; simpl; try done; try congruence.
    + by rewrite length_map.
    + intros _. destruct Hex as (sl & Hin & Hp). exists (with_phase sl STUCK).
      split; [|done]. apply list_elem_of_fmap. exists sl. split; [|done].
      unfold replace_phase, in_phase. by rewrite Hp.
    + apply Forall_map. eapply Forall_impl; [exact Hs|]. intros sl (Ha & Hgen & Hp).
      unfold replace_phase, in_phase. simpl.
      destruct (phase sl) eqn:E; simpl; split; simpl; try done; rewrite ?E;
        naive_solver.
Qed.

Lemma Inv_Safety s : (1 ≤ MaxBackoff)%Z → Inv s → Safety s.
Proof.
  intros HB [Hw Hf Hk Hg Hst Hs]. unfold Safety. split_and!.
  - eapply Forall_impl; [exact Hs|]. intros sl (Ha & Hgen & Hp). split; [lia|].
    split; [|done]. destruct (phase sl); try lia.
    destruct Hp as (_ & Ha1 & ->). unfold BackoffFor. case_match; [|lia].
    apply Z.pow_nonneg. lia.
  - unfold AtMostThreeLiveChildren.
    pose proof (length_filter (λ sl, live sl = true) (slots s)). lia.
  - intros Hstop. eapply Forall_impl; [exact Hs|]. intros sl (_ & _ & Hp) E.
    rewrite E in Hp. naive_solver congruence.
  - repeat split; [done|congruence|]. intros Ht. destruct (stopping s) eqn:E; [done|].
    destruct Hf as (_ & _ & ?); congruence.
  - eapply Forall_impl; [exact Hs|]. intros sl (Ha & Hgen & Hp). simpl.
    destruct (decide _) as [E|E]; [rewrite E in Hp|]; [tauto|].
    destruct (phase sl); naive_solver.
  - eapply Forall_impl; [exact Hs|]. intros sl (Ha & _). simpl. lia.
Qed.
End spec.

(** ** Enabled events *)

(** When an event is enabled, by kind. *)
Definition enabled (s : SupervisorState) (e : Event) : Prop :=
  kill_timeout s = false ∧
  match kind e, slot e with
  | STOP_REQUESTED, None => stopping s = false
  | CRASH, Some i | STABLE_EXIT, Some i =>
      stopping s = false ∧ ∃ sl, slots s !! i = Some sl ∧ phase sl = RUNNING
  | WINDOW_ELAPSED, Some i =>
      stopping s = false ∧ ∃ sl, slots s !! i = Some sl ∧ phase sl = RUNNING ∧
        attempts sl ≠ 0%Z
  | BACKOFF_ELAPSED, Some i =>
      stopping s = false ∧ ∃ sl, slots s !! i = Some sl ∧ phase sl = BACKOFF
  | CHILD_EXITED, Some i =>
      stopping s = true ∧ ∃ sl, slots s !! i = Some sl ∧
        (phase sl = STOPPING ∨ phase sl = KILLING)
  | TERMINATE_GRACE_EXPIRED, None =>
      stopping s = true ∧ terminate_grace_elapsed s = false ∧
      ∃ sl, sl ∈ slots s ∧ phase sl = STOPPING
  | KILL_GRACE_EXPIRED, None =>
      stopping s = true ∧ terminate_grace_elapsed s = true ∧
      kill_grace_elapsed s = false ∧ ∃ sl, sl ∈ slots s ∧ phase sl = KILLING
  | _, _ => False
  end.

Lemma elem_of_slot_events e i sl :
  e ∈ slot_events i sl ↔
  slot e = Some i ∧
  match kind e with
  | CRASH | STABLE_EXIT => phase sl = RUNNING
  | WINDOW_ELAPSED => phase sl = RUNNING ∧ attempts sl ≠ 0%Z
  | BACKOFF_ELAPSED => phase sl = BACKOFF
  | _ => False
  end.
Proof.
  unfold slot_events. destruct e as [k o]. simpl.
  destruct (phase sl); destruct (Z.eqb_spec (attempts sl) 0); simpl;
    rewrite ?elem_of_cons, ?elem_of_nil; destruct k; naive_solver.
Qed.

Lemma elem_of_exit_events e i sl :
  e ∈ exit_events i sl ↔
  slot e = Some i ∧ kind e = CHILD_EXITED ∧ (phase sl = STOPPING ∨ phase sl = KILLING).
Proof.
  unfold exit_events. destruct e as [k o]. simpl.
  destruct (phase sl); rewrite ?list_elem_of_singleton, ?elem_of_nil; naive_solver.
Qed.

Lemma existsb_phase p l :
  existsb (in_phase p) l = true ↔ ∃ sl, sl ∈ l ∧ phase sl = p.
Proof.
  rewrite existsb_elem_of. unfold in_phase. by setoid_rewrite bool_decide_eq_true.
Qed.

Lemma elem_of_when {A} (b : bool) (x y : A) :
  x ∈ (if b then [y] else []) ↔ b = true ∧ x = y.
Proof. destruct b; rewrite ?list_elem_of_singleton, ?elem_of_nil; naive_solver. Qed.

Lemma enabled_iff s e : e ∈ enabled_events s ↔ enabled s e.
Proof.
  unfold enabled_events, enabled.
  destruct (kill_timeout s); [rewrite elem_of_nil; naive_solver|].
  rewrite (merge_sort_Permutation event_le _). destruct (stopping s) eqn:Hs; simpl.
  - rewrite !elem_of_app, !elem_of_when, elem_of_concat_imap, !andb_true_iff,
      !negb_true_iff, !existsb_phase.
    setoid_rewrite elem_of_exit_events. destruct e as [k [i|] ]; destruct k; simpl;
      naive_solver.
  - rewrite elem_of_cons, elem_of_concat_imap. setoid_rewrite elem_of_slot_events.
    destruct e as [k [i|] ]; destruct k; simpl; naive_solver.
Qed.

(** ** The executable transition refines the specification *)

#[local] Arguments expected_backoff : simpl never.

Definition MR : Z := MODEL_MAX_RESTARTS.
Definition MB : Z := MODEL_MAX_BACKOFF_SECONDS.

Lemma expected_backoff_spec n : (1 ≤ n)%Z → expected_backoff n MODEL_MAX_BACKOFF_SECONDS = Ok (BackoffFor MB n).
Proof.
  intros Hn. change MODEL_MAX_BACKOFF_SECONDS with MB.
  unfold expected_backoff, BackoffFor. rewrite (proj2 (Z.ltb_ge _ _) Hn). simpl.
  rewrite Z.shiftl_1_l. f_equal. destruct (Z.leb_spec (2 ^ (n - 1)) MB); lia.
Qed.

(** Stopping the slots of a state in which no slot is past its life. *)
Lemma stop_slots_none s :
  Inv MR MB s → stopping s = false → _stop_slots (slots s) None None = stop_all (slots s).
Proof.
  intros HI Hs. pose proof (Inv_stopping MR MB s HI Hs) as (_ & _ & Hkt).
  unfold _stop_slots, stop_all. apply list_eq. intros i.
  rewrite list_lookup_imap, list_lookup_fmap.
  destruct (slots s !! i) as [sl|] eqn:Hi; [|done]. simpl. f_equal.
  destruct (Inv_slot _ _ _ _ _ HI Hi) as (_ & _ & Hp). unfold stop_slot, settled. simpl.
  destruct sl as [p a b g]. destruct p; simpl in *; naive_solver congruence.
Qed.

Lemma stop_slots_exited s i sl n :
  Inv MR MB s → stopping s = false → slots s !! i = Some sl →
  _stop_slots (slots s) (Some i) (Some n) =
  <[i := mkSlot STOPPED n 0 (generation sl)]> (stop_all (slots s)).
Proof.
  intros HI Hs Hi. rewrite <- (stop_slots_none s HI Hs). unfold _stop_slots.
  apply list_eq. intros j. rewrite list_lookup_imap. destruct (decide (i = j)) as [<-|Hne].
  - rewrite Hi, list_lookup_insert_eq; [|rewrite length_imap; by eapply lookup_lt_Some].
    simpl. unfold stop_slot. by rewrite bool_decide_eq_true_2.
  - rewrite list_lookup_insert_ne, list_lookup_imap by done.
    destruct (slots s !! j) as [sj|]; [|done]. simpl. f_equal. unfold stop_slot.
    by rewrite bool_decide_eq_false_2 by congruence.
Qed.

Lemma transition_disabled s e :
  ¬ enabled s e →
  transition s e = Raise (model_error ("disabled transition: " +:+ label e)).
Proof.
  intros Hne. unfold transition. rewrite bool_decide_eq_false_2; [done|].
  by rewrite enabled_iff.
Qed.

Ltac enabled_slot Hen :=
  let Hs := fresh "Hstop" in let sl := fresh "sl" in let Hi := fresh "Hi" in
  let Hp := fresh "Hp" in
  destruct Hen as (Hs & sl & Hi & Hp); unfold get_slot; simpl; rewrite Hi; simpl.

Ltac enabled_cases Hen k o :=
  unfold enabled in Hen; destruct Hen as [Hkt Hen];
  destruct k, o as [i|]; simpl in Hen; try done.

(** An enabled event always has a successor, the one the specification gives. *)
Lemma enabled_transition s e :
  Inv MR MB s → enabled s e → ∃ s', transition s e = Ok s' ∧ Next MR MB s s'.
Proof.
  intros HI Hen. unfold transition. rewrite bool_decide_eq_true_2 by (by rewrite enabled_iff).
  simpl. destruct e as [k o]. enabled_cases Hen k o; simpl.
  - enabled_slot Hen. pose proof (Inv_slot _ _ _ _ _ HI Hi) as (Ha & _).
    change MODEL_MAX_RESTARTS with MR. destruct (Z.ltb_spec MR (attempts sl + 1)).
    + rewrite (stop_slots_exited _ _ _ _ HI Hstop Hi). eexists. split; [done|].
      by apply Crash_exhausted.
    + rewrite expected_backoff_spec by lia. simpl. eexists. split; [done|].
      by apply Crash_backoff.
  - enabled_slot Hen. eexists. split; [done|]. by eapply StableExit.
  - enabled_slot Hen. eexists. split; [done|]. by apply BackoffElapsed.
  - enabled_slot Hen. destruct Hp as [Hp Hne].
    pose proof (Inv_slot _ _ _ _ _ HI Hi) as (Ha & _).
    eexists. split; [done|]. apply WindowElapsed; [done|done|done|lia].
  - rewrite (stop_slots_none _ HI Hen). eexists. split; [done|]. by apply StopRequested.
  - enabled_slot Hen. eexists. split; [done|]. by apply ChildExited.
  - eexists. split; [done|]. destruct Hen as (? & ? & ?). by apply TerminateGraceExpired.
  - eexists. split; [done|]. destruct Hen as (? & ? & ? & ?). by apply KillGraceExpired.
Qed.

Lemma transition_iff s e s' :
  Inv MR MB s → transition s e = Ok s' → enabled s e ∧ Next MR MB s s'.
Proof.
  intros HI Ht. assert (enabled s e) as Hen.
  { unfold transition in Ht. inv_step. apply raise_if_Ok, negb_false_iff, bool_decide_eq_true in Hok.
    by apply enabled_iff. }
  split; [done|]. destruct (enabled_transition s e HI Hen) as (s2 & Ht2 & HN). congruence.
Qed.

(** Runs [transition] on a given event of a given slot. *)
Ltac fire Hi := intros s2 Ht; unfold transition in Ht; inv_step;
  unfold get_slot in Ht; simpl in Ht; try rewrite Hi in Ht; simpl in Ht.

Lemma Next_enabled s s' :
  Inv MR MB s → Next MR MB s s' → ∃ e, transition s e = Ok s'.
Proof.
  intros HI HN. pose proof (Inv_stopping _ _ s HI) as Hns.
  assert (∀ i sl, slots s !! i = Some sl → (phase sl = STOPPING ∨ phase sl = KILLING) →
    kill_timeout s = false) as Hkt.
  { intros i sl Hi Hp. rewrite (inv_kill _ _ s HI).
    destruct (kill_grace_elapsed s) eqn:E; [|done].
    pose proof (inv_kill_grace _ _ s HI E). pose proof (Inv_slot _ _ _ _ _ HI Hi) as (_&_&H2).
    destruct Hp as [Hp|Hp]; rewrite Hp in H2; naive_solver congruence. }
  assert (∀ e, enabled s e → (∀ s2, transition s e = Ok s2 → s2 = s') →
    ∃ e, transition s e = Ok s') as Hgo.
  { intros e Hen Heq. destruct (enabled_transition s e HI Hen) as (s2 & Ht & _).
    exists e. by rewrite Ht, (Heq s2 Ht). }
  destruct HN as [i sl Hr Hi Hph Hn|i sl Hr Hi Hph Hn|i sl Hr Hi Hph
    |i sl Hr Hi Hph|i sl Hr Hi Hph Hn|Hr|i sl Hr Hi Hph|Hr Htg Hex|Hr Htg Hkg Hex].
  - apply (Hgo (mkEvent CRASH (Some i))); [split; [by apply Hns|simpl; by eauto 6]|]. fire Hi.
    change MODEL_MAX_RESTARTS with MR in Ht. rewrite (proj2 (Z.ltb_lt _ _) Hn) in Ht.
    rewrite (stop_slots_exited _ _ _ _ HI Hr Hi) in Ht. by injection Ht.
  - apply (Hgo (mkEvent CRASH (Some i))); [split; [by apply Hns|simpl; by eauto 6]|]. fire Hi.
    change MODEL_MAX_RESTARTS with MR in Ht. rewrite (proj2 (Z.ltb_ge _ _) Hn) in Ht.
    pose proof (Inv_slot _ _ _ _ _ HI Hi) as (Ha & _).
    rewrite expected_backoff_spec in Ht by lia. by injection Ht.
  - apply (Hgo (mkEvent STABLE_EXIT (Some i))); [split; [by apply Hns|simpl; by eauto 6]|]. fire Hi.
    by injection Ht.
  - apply (Hgo (mkEvent BACKOFF_ELAPSED (Some i))); [split; [by apply Hns|simpl; by eauto 6]|]. fire Hi.
    by injection Ht.
  - apply (Hgo (mkEvent WINDOW_ELAPSED (Some i))).
    + split; [by apply Hns|]. split; [done|]. exists sl. repeat split; try done. lia.
    + fire Hi. by injection Ht.
  - apply (Hgo (mkEvent STOP_REQUESTED None)); [split; [by apply Hns|done]|]. fire Hr.
    rewrite (stop_slots_none _ HI Hr) in Ht. by injection Ht.
  - apply (Hgo (mkEvent CHILD_EXITED (Some i))); [split; [by eapply Hkt|simpl; by eauto 6]|]. fire Hi.
    by injection Ht.
  - apply (Hgo (mkEvent TERMINATE_GRACE_EXPIRED None)).
    + destruct Hex as (sl & Hin & Hp). pose proof Hin as [i Hi]%list_elem_of_lookup.
      split; [eapply Hkt; eauto|]. simpl. by eauto 8.
    + fire I. by injection Ht.
  - apply (Hgo (mkEvent KILL_GRACE_EXPIRED None)).
    + destruct Hex as (sl & Hin & Hp). pose proof Hin as [i Hi]%list_elem_of_lookup.
      split; [eapply Hkt; eauto|]. simpl. by eauto 8.
    + fire I. by injection Ht.
Qed.
End SupervisorSpec.
