(* ===== verification/Exploration.v ===== *)
(** * Exploration of the supervisor model

    What holds of every reachable state of [Supervisor], and the correctness of
    the breadth-first search [explore]: it terminates, never raises, visits
    exactly the states reachable within its depth, and the traces in its
    receipt are runs of the model. *)
From S2P Require Import Prelude PyValue Supervisor SupervisorSpec.
Import Supervisor SupervisorSpec.

Module Exploration.

Notation SInv := (Inv MR MB).

(** ** Moves of the executable model *)

Definition moves (s s' : SupervisorState) : Prop := ∃ e, transition s e = Ok s'.

Lemma initial_Inv n s : initial_state n = Ok s → SInv s.
Proof.
  unfold initial_state. intros H. inv_result. bool_hyps. apply Inv_Init; [done|].
  exists (Z.to_nat n). split; [unfold MAX_MODEL_WORKERS in *; lia|done].
Qed.

Lemma moves_Inv s s' : SInv s → moves s s' → SInv s'.
Proof. intros HI [e [_ HN]%transition_iff]; [by eapply Next_Inv|done]. Qed.

Lemma reachable_Inv n s0 s : initial_state n = Ok s0 → rtc moves s0 s → SInv s.
Proof.
  intros H0 Hrun. apply (rtc_inv moves SInv s0); eauto using moves_Inv, initial_Inv.
Qed.

(** ** The checked invariants *)

Lemma when_nil b msg : when b msg = [] ↔ b = false.
Proof. by destruct b. Qed.

Lemma slot_errors_nil s i sl : slot_ok MR MB s sl → slot_errors i sl = [].
Proof.
  intros (Ha & Hg & Hp). unfold slot_errors, in_phase.
  assert ((0 <=? attempts sl)%Z && (attempts sl <=? MODEL_MAX_RESTARTS + 1)%Z = true) as ->
    by (apply andb_true_iff; rewrite !Z.leb_le; exact Ha).
  rewrite (proj2 (Z.ltb_ge _ _) Hg). simpl.
  destruct (phase sl) eqn:E; rewrite ?bool_decide_eq_false_2, ?bool_decide_eq_true_2 by done;
    try (assert (backoff_seconds sl = 0%Z) as -> by tauto; done).
  destruct Hp as (_ & Hb & ->).
  assert ((1 <=? attempts sl)%Z && (attempts sl <=? MODEL_MAX_RESTARTS)%Z = true) as ->
    by (apply andb_true_iff; rewrite !Z.leb_le; exact Hb).
  rewrite expected_backoff_spec by lia. simpl. by rewrite Z.eqb_refl.
Qed.

Lemma existsb_phase_false s p :
  SInv s → (∀ sl, slot_ok MR MB s sl → phase sl = p → False) →
  existsb (in_phase p) (slots s) = false.
Proof.
  intros HI Hno. apply not_true_iff_false. rewrite existsb_phase.
  intros (sl & [i Hi]%list_elem_of_lookup & Hp). eauto using Inv_slot.
Qed.

Lemma Inv_errors s : SInv s → invariant_errors s = [].
Proof.
  intros HI. pose proof HI as [Hw Hf Hk Hg Hst Hs]. unfold invariant_errors.
  assert (∀ l m : list string, l = [] → m = [] → l ++ m = []) as Happ by (by intros ?? -> ->).
  cbv zeta. repeat apply Happ; try apply when_nil.
  - unfold MAX_MODEL_WORKERS. apply negb_false_iff, andb_true_iff. rewrite !Z.leb_le. lia.
  - destruct (stopping s) eqn:E; [by rewrite andb_false_r|].
    destruct (Hf eq_refl) as (-> & -> & Ht). destruct (Inv_stopping _ _ s HI E) as (-> & -> & ->).
    done.
  - destruct (kill_grace_elapsed s); [by rewrite Hg|done].
  - rewrite Hk. by destruct (kill_grace_elapsed s).
  - destruct (kill_timeout s); [|done]. rewrite (proj2 (existsb_phase STUCK _)); auto.
  - destruct (stopping s) eqn:E; [|done]. apply existsb_phase_false; [done|].
    intros sl (_ & _ & Hp) Hb. rewrite Hb in Hp. naive_solver congruence.
  - destruct (stopping s) eqn:E; [done|]. simpl. apply not_true_iff_false.
    rewrite existsb_elem_of. intros (sl & [i Hi]%list_elem_of_lookup & Hb).
    destruct (Inv_slot _ _ _ _ _ HI Hi) as (_ & _ & Hp).
    destruct (Inv_stopping _ _ s HI E) as (_ & _ & Hkt).
    unfold in_phase in Hb. destruct (phase sl); simpl in Hb; naive_solver congruence.
  - apply Z.ltb_ge. unfold MAX_MODEL_WORKERS.
    pose proof (length_filter (λ sl, live sl = true) (slots s)). lia.
  - apply elem_of_nil_inv. intros x. rewrite elem_of_concat_imap.
    intros (i & sl & Hi & Hx). rewrite (slot_errors_nil s) in Hx by eauto using Inv_slot.
    by apply elem_of_nil in Hx.
Qed.

(** ** Shutdown *)

Definition settled_phase (p : Phase) : Prop := p = STOPPED ∨ p = STUCK.

Lemma is_terminal_iff s :
  is_terminal s = true ↔
  stopping s = true ∧ ∀ i sl, slots s !! i = Some sl → settled_phase (phase sl).
Proof.
  unfold is_terminal, settled_phase. rewrite andb_true_iff, forallb_forall. unfold in_phase.
  setoid_rewrite orb_true_iff. setoid_rewrite bool_decide_eq_true.
  setoid_rewrite <- list_elem_of_In. setoid_rewrite list_elem_of_lookup. naive_solver.
Qed.

(** A state without enabled events is a terminal one. *)
Lemma stuck_terminal s : SInv s → enabled_events s = [] ↔ is_terminal s = true.
Proof.
  intros HI. rewrite is_terminal_iff. pose proof HI as [Hw Hf Hk Hg Hst Hs]. split.
  - intros Hnil. assert (∀ e, ¬ enabled s e) as Hno
      by (intros e; rewrite <- enabled_iff, Hnil; apply not_elem_of_nil).
    assert (stopping s = true) as Hstop.
    { apply not_false_iff_true. intros E. apply (Hno (mkEvent STOP_REQUESTED None)).
      destruct (Inv_stopping _ _ s HI E) as (_ & _ & ?). by split. }
    split; [done|]. intros i sl Hi. unfold settled_phase.
    pose proof (Hno (mkEvent CHILD_EXITED (Some i))) as Hex. unfold enabled in Hex.
    destruct (Inv_slot _ _ _ _ _ HI Hi) as (_ & _ & Hp). simpl in Hex.
    destruct (phase sl) eqn:E; destruct_and?; try congruence; auto.
    + exfalso. apply Hex. split; [|eauto].
      rewrite Hk. destruct (kill_grace_elapsed s); [|done]. by rewrite Hg in *.
    + exfalso. apply Hex. split; [by rewrite Hk|eauto].
  - intros [Hstop Hset]. apply elem_of_nil_inv. intros e. rewrite enabled_iff.
    intros [_ Hen]. destruct e as [k [i|] ]; destruct k; simpl in Hen; try done;
      repeat match goal with H : _ ∧ _ |- _ => destruct H | H : ∃ _, _ |- _ => destruct H end;
      try congruence;
      repeat match goal with H : _ ∈ slots s |- _ => apply list_elem_of_lookup in H as [? H] end;
      match goal with H : slots s !! _ = Some _ |- _ => apply Hset in H end;
      unfold settled_phase in *; naive_solver congruence.
Qed.

(** Steps a slot may still take once the pool is stopping. *)
Definition slot_measure (sl : Slot) : nat :=
  match phase sl with STOPPING => 2 | KILLING => 1 | _ => 0 end.
Definition measure (s : SupervisorState) : nat := sum_list_with slot_measure (slots s).

Lemma sum_insert {A} (f : A → nat) l i x y :
  l !! i = Some x →
  sum_list_with f (<[i := y]> l) + f x = sum_list_with f l + f y.
Proof.
  revert i; induction l as [|z l IH]; intros [|i]; simpl; intros Hi; try done.
  - injection Hi as ->. lia.
  - specialize (IH _ Hi). lia.
Qed.

Lemma sum_map_le {A} (f : A → nat) (g : A → A) l :
  (∀ x, f (g x) ≤ f x) → sum_list_with f (map g l) ≤ sum_list_with f l.
Proof. intros Hle. induction l as [|x l IH]; simpl; [done|]. pose proof (Hle x). lia. Qed.

Lemma sum_map_lt {A} (f : A → nat) (g : A → A) l x :
  (∀ x, f (g x) ≤ f x) → x ∈ l → f (g x) < f x →
  sum_list_with f (map g l) < sum_list_with f l.
Proof.
  intros Hle Hin Hlt. induction l as [|y l IH]; simpl; [by apply elem_of_nil in Hin|].
  apply elem_of_cons in Hin as [<-|Hin].
  - pose proof (sum_map_le f g l Hle). lia.
  - specialize (IH Hin). pose proof (Hle y). lia.
Qed.

Lemma replace_phase_measure p q sl :
  slot_measure (with_phase sl q) ≤ slot_measure (with_phase sl p) →
  slot_measure (replace_phase p q sl) ≤ slot_measure sl.
Proof.
  unfold replace_phase, in_phase, slot_measure. destruct (bool_decide_reflect (phase sl = p)) as [->|];
    simpl; [done|lia].
Qed.

Definition generations (s : SupervisorState) : list Z := map generation (slots s).

Lemma generation_insert l i sl sl' :
  l !! i = Some sl → generation sl' = generation sl →
  map generation (<[i := sl']> l) = map generation l.
Proof.
  intros Hi Hg. rewrite (list_fmap_insert generation). rewrite Hg.
  apply list_insert_id. by rewrite list_lookup_fmap, Hi.
Qed.

Lemma generation_replace p q l :
  map generation (map (replace_phase p q) l) = map generation l.
Proof.
  rewrite map_map. apply map_ext. intros sl. unfold replace_phase. by case_match.
Qed.

(** A stopping pool takes only steps towards the end and starts no child. *)
Lemma stopping_step s s' :
  SInv s → stopping s = true → Next MR MB s s' →
  stopping s' = true ∧ measure s' < measure s ∧ generations s' = generations s ∧
  length (slots s') = length (slots s).
Proof.
  intros HI Hs HN. unfold measure, generations.
  destruct HN as [i sl Hr|i sl Hr|i sl Hr|i sl Hr|i sl Hr|Hr|i sl Hr Hi Hph
    |Hr Ht (sl & Hin & Hp)|Hr Ht Hkg (sl & Hin & Hp)]; try congruence; simpl.
  - split; [done|]. split; [|split; [by erewrite generation_insert|apply length_insert] ].
    assert (0 < slot_measure sl) by (unfold slot_measure; destruct Hph as [-> | ->]; lia).
    pose proof (sum_insert slot_measure _ _ _ (mkSlot STOPPED (attempts sl) 0 (generation sl)) Hi)
      as Heq. change (slot_measure (mkSlot STOPPED _ _ _)) with 0 in Heq. lia.
  - split; [done|]. split; [|split; [apply generation_replace|apply length_map] ].
    apply (sum_map_lt _ _ _ sl); [|done|].
    + intros x. apply replace_phase_measure. simpl. unfold slot_measure. simpl. lia.
    + unfold replace_phase, in_phase, slot_measure. rewrite Hp. simpl. lia.
  - split; [done|]. split; [|split; [apply generation_replace|apply length_map] ].
    apply (sum_map_lt _ _ _ sl); [|done|].
    + intros x. apply replace_phase_measure. simpl. unfold slot_measure. simpl. lia.
    + unfold replace_phase, in_phase, slot_measure. rewrite Hp. simpl. lia.
Qed.

Lemma measure_bound s : measure s ≤ 2 * length (slots s).
Proof.
  unfold measure. induction (slots s) as [|sl l IH]; simpl; [done|].
  assert (slot_measure sl ≤ 2) by (unfold slot_measure; destruct (phase sl); lia). lia.
Qed.

Lemma stopping_run k s s' :
  SInv s → stopping s = true → nsteps moves k s s' →
  stopping s' = true ∧ k + measure s' ≤ measure s ∧ generations s' = generations s ∧
  SInv s'.
Proof.
  intros HI Hs Hrun. induction Hrun as [s|k s t u Hst _ IH]; [by split_and!|].
  pose proof (moves_Inv _ _ HI Hst) as HIt.
  destruct Hst as [e [_ HN]%transition_iff]; [|done].
  destruct (stopping_step _ _ HI Hs HN) as (Ht & Hm & Hg & _).
  destruct (IH HIt Ht) as (Hu & Hm' & Hg' & HIu). split_and!; [done|lia|congruence|done].
Qed.

(** ** The search *)

(** The runs of the model, by their events. *)
Inductive path (s : SupervisorState) : list Event → SupervisorState → Prop :=
  | path_nil : path s [] s
  | path_snoc tr t e u : path s tr t → transition t e = Ok u → path s (tr ++ [e]) u.

Lemma path_rtc s tr t : path s tr t → rtc moves s t.
Proof. induction 1 as [|tr t e u _ IH Ht]; [done|]. eapply rtc_r; [done|by exists e]. Qed.

Lemma path_nil_inv s t : path s [] t → t = s.
Proof. intros H. inversion H as [|tr ? ? ? ? ? Heq]; [done|]. by destruct tr. Qed.

Lemma moves_enabled s e s' : transition s e = Ok s' → e ∈ enabled_events s.
Proof.
  unfold transition. intros H. inv_step.
  by apply raise_if_Ok, negb_false_iff, bool_decide_eq_true in Hok.
Qed.

Definition seen_within (b : Search) (s : SupervisorState) (d : nat) : Prop :=
  ∃ d', seen b !! s = Some d' ∧ d' ≤ d.

(** What a list of labels in the search stands for: the trace of a terminal
    state that has the property, or the absence of one so far. *)
Definition labels_ok (s0 : SupervisorState) (depth : nat) (b : Search)
    (found : SupervisorState → bool) (labels : list string) : Prop :=
  match labels with
  | [] => ∀ s, s ∈ terminals b → found s = false
  | _ => ∃ tr s, path s0 tr s ∧ length tr ≤ depth ∧ is_terminal s = true ∧
                 found s = true ∧ labels = map label tr
  end.
Definition clean_stop (s : SupervisorState) : bool := operator_stop s && negb (kill_timeout s).

Record consistent (s0 : SupervisorState) (depth : nat) (b : Search) : Prop := {
  c_queue : ∀ s d tr, (s, d, tr) ∈ queue b →
    path s0 tr s ∧ length tr = d ∧ d ≤ depth ∧ seen_within b s d;
  c_seen : ∀ s d, seen b !! s = Some d → ∃ tr, path s0 tr s ∧ length tr = d ∧ d ≤ depth;
  c_init : seen_within b s0 0;
  c_terminals : ∀ s, s ∈ terminals b → is_terminal s = true ∧ is_Some (seen b !! s);
  c_clean : labels_ok s0 depth b clean_stop (clean b);
  c_budget : labels_ok s0 depth b budget_exhausted (budget b);
  c_killed : labels_ok s0 depth b kill_timeout (killed b) }.

(** A state whose successors are recorded, if they are within the depth. *)
Definition expanded (depth : nat) (b : Search) (s : SupervisorState) (d : nat) : Prop :=
  (is_terminal s = true → s ∈ terminals b) ∧
  (d < depth → ∀ e s', transition s e = Ok s' → seen_within b s' (S d)).

(** Every state seen waits in the queue or is expanded, except the one in hand. *)
Definition closed (depth : nat) (hand : option (SupervisorState * nat)) (b : Search) : Prop :=
  ∀ s d, seen b !! s = Some d →
    hand = Some (s, d) ∨ (∃ tr, (s, d, tr) ∈ queue b) ∨ expanded depth b s d.

(** The search only adds to what it has recorded. *)
Definition grows (b b' : Search) : Prop :=
  (∀ s d, seen_within b s d → seen_within b' s d) ∧ terminals b' = terminals b.

#[export] Instance grows_preorder : PreOrder grows.
Proof.
  split; [by split|]. intros a b c [H1 H2] [H3 H4]. split; [auto|congruence].
Qed.

Lemma expanded_grows depth b b' s d :
  grows b b' → expanded depth b s d → expanded depth b' s d.
Proof. intros [Hs Ht] [H1 H2]. split; [by rewrite Ht|eauto]. Qed.

(** *** One event *)

Lemma for_each_ok {A B} (l : list A) (body : A → B → result B) (acc : B) :
  (∀ x, x ∈ l → body x acc = Ok acc) → for_each l body acc = Ok acc.
Proof.
  induction l as [|x l IH]; simpl; intros Hall; [done|].
  rewrite Hall by set_solver. simpl. apply IH. set_solver.
Qed.

Lemma check_respawn_ok s e s' :
  SInv s → transition s e = Ok s' → check_respawn s s' e = Ok tt.
Proof.
  intros HI Ht. unfold check_respawn. destruct (stopping s) eqn:Hs; [|done].
  destruct (transition_iff _ _ _ HI Ht) as [_ HN].
  destruct (stopping_step _ _ HI Hs HN) as (Hs' & _ & Hg & _).
  assert (SInv s') as HI' by (by eapply Next_Inv).
  apply for_each_ok. intros [sl sl'] [i Hi]%list_elem_of_lookup.
  apply lookup_zip_with_Some in Hi as (? & ? & [= <- <-] & Hi & Hi').
  apply raise_if_false.
  assert (generation sl' = generation sl) as ->.
  { assert (generations s !! i = generations s' !! i) as Heq by congruence.
    unfold generations in Heq. rewrite !list_lookup_fmap, Hi, Hi' in Heq. by injection Heq. }
  rewrite Z.ltb_irrefl. destruct (Inv_slot _ _ _ _ _ HI' Hi') as (_ & _ & Hp).
  unfold in_phase. destruct (phase sl'); simpl; naive_solver congruence.
Qed.

(** The fuel a queue entry may use: its own visit and those of its successors. *)
Fixpoint weight (k : nat) : nat :=
  match k with 0 => 1 | S k => 1 + 11 * weight k end.
Definition queue_weight (depth : nat) (q : list entry) : nat :=
  sum_list_with (λ e : entry, weight (depth - e.1.2)) q.

Lemma queue_weight_app depth q1 q2 :
  queue_weight depth (q1 ++ q2) = queue_weight depth q1 + queue_weight depth q2.
Proof. apply sum_list_with_app. Qed.

(** The search after a new state, or a shorter way to a known one, is queued. *)
Definition push (b : Search) (s : SupervisorState) (d : nat) (tr : list Event) : Search :=
  mkSearch (queue b ++ [(s, d, tr)]) (<[s := d]> (seen b)) (S (taken b)) (terminals b)
    (clean b) (budget b) (killed b).
Definition skip (b : Search) : Search :=
  mkSearch (queue b) (seen b) (S (taken b)) (terminals b) (clean b) (budget b) (killed b).

Lemma push_within b s d tr :
  (∀ d', seen b !! s = Some d' → d < d') →
  seen_within (push b s d tr) s d ∧ grows b (push b s d tr).
Proof.
  intros Hlt. unfold grows, seen_within, push. simpl.
  split; [exists d; by rewrite lookup_insert_eq|]. split; [|done].
  intros t k (d' & Hd' & Hle). destruct (decide (s = t)) as [->|Hne].
  - exists d. rewrite lookup_insert_eq. specialize (Hlt _ Hd'). split; [done|lia].
  - exists d'. by rewrite lookup_insert_ne.
Qed.

Section search.
Context (s0 : SupervisorState) (depth : nat).
Context (Hs0 : SInv s0) (Hstart : is_terminal s0 = false).

Lemma path_Inv tr s : path s0 tr s → SInv s.
Proof.
  intros Hp%path_rtc. apply (rtc_inv moves SInv s0); eauto using moves_Inv.
Qed.

Lemma push_consistent b s d tr :
  consistent s0 depth b → path s0 tr s → length tr = d → d ≤ depth →
  (∀ d', seen b !! s = Some d' → d < d') → consistent s0 depth (push b s d tr).
Proof.
  intros [Hq Hseen Hi Ht Hcl Hb Hk] Hp Hlen Hd Hlt.
  destruct (push_within b s d tr Hlt) as [Hnew [Hgrow _] ]. split; try done.
  - intros t k tr'. unfold push. simpl. rewrite elem_of_app, list_elem_of_singleton.
    intros [Hin|[= -> -> ->] ]; [|done].
    destruct (Hq _ _ _ Hin) as (? & ? & ? & ?). eauto.
  - intros t k. unfold push. simpl. rewrite lookup_insert_Some.
    intros [ [<- <-]|[_ Htk] ]; eauto.
  - by apply Hgrow.
  - intros t Hin. destruct (Ht t Hin) as [? Hs]. split; [done|]. unfold push. simpl.
    rewrite lookup_insert_is_Some'. by right.
Qed.

Lemma push_closed b hand s d tr :
  closed depth hand b → (∀ d', seen b !! s = Some d' → d < d') →
  closed depth hand (push b s d tr).
Proof.
  intros Hc Hlt t k. destruct (push_within b s d tr Hlt) as [_ Hgrow].
  unfold push at 1. simpl. rewrite lookup_insert_Some.
  intros [ [<- <-]|[_ Htk] ].
  - right; left. exists tr. set_solver.
  - destruct (Hc t k Htk) as [?|[ [tr' Hin]|Hex] ]; [by left| |].
    + right; left. exists tr'. set_solver.
    + right; right. by eapply expanded_grows.
Qed.

Lemma explore_event_ok s d tr e b :
  consistent s0 depth b → path s0 tr s → length tr = d → d < depth →
  e ∈ enabled_events s → closed depth (Some (s, d)) b →
  ∃ b' s', transition s e = Ok s' ∧ explore_event s d tr e b = Ok b' ∧
    consistent s0 depth b' ∧ closed depth (Some (s, d)) b' ∧ grows b b' ∧
    seen_within b' s' (S d) ∧
    queue_weight depth (queue b') ≤ queue_weight depth (queue b) + weight (depth - S d).
Proof.
  intros Hc Hpath Hlen Hd He Hclosed. pose proof (path_Inv _ _ Hpath) as HI.
  destruct (enabled_transition s e HI) as (s' & Ht & _); [by apply enabled_iff|].
  unfold explore_event. rewrite Ht. simpl. rewrite (check_respawn_ok s e s' HI Ht). simpl.
  assert (path s0 (tr ++ [e]) s') as Hpath' by (by eapply path_snoc).
  assert (length (tr ++ [e]) = S d) as Hlen' by (rewrite length_app; simpl; lia).
  assert ((∀ d', seen b !! s' = Some d' → S d < d') →
    ∃ b' s2, Ok s' = Ok s2 ∧ Ok (push b s' (S d) (tr ++ [e])) = Ok b' ∧
    consistent s0 depth b' ∧ closed depth (Some (s, d)) b' ∧ grows b b' ∧
    seen_within b' s2 (S d) ∧
    queue_weight depth (queue b') ≤ queue_weight depth (queue b) + weight (depth - S d))
    as Hpush.
  { intros Hlt. destruct (push_within b s' (S d) (tr ++ [e]) Hlt) as [Hnew Hgrow].
    eexists _, s'. split; [done|]. split; [done|]. split; [by apply push_consistent|].
    split; [by apply push_closed|]. split; [done|]. split; [done|].
    unfold push. simpl. rewrite queue_weight_app. unfold queue_weight at 2. simpl. lia. }
  destruct (seen b !! s') as [d'|] eqn:Hseen; [|by apply Hpush].
  destruct (Nat.ltb_spec (S d) d'); [apply Hpush; intros ? [= <-]; lia|].
  exists (skip b), s'. split; [done|]. split; [done|]. split; [by destruct Hc|].
  split; [done|]. split; [by split|]. split; [by exists d'|]. simpl. lia.
Qed.

(** *** The events of one state *)

Lemma explore_events_ok s d tr l b :
  consistent s0 depth b → path s0 tr s → length tr = d → d < depth →
  (∀ e, e ∈ l → e ∈ enabled_events s) → closed depth (Some (s, d)) b →
  ∃ b', for_each l (explore_event s d tr) b = Ok b' ∧
    consistent s0 depth b' ∧ closed depth (Some (s, d)) b' ∧ grows b b' ∧
    (∀ e s', e ∈ l → transition s e = Ok s' → seen_within b' s' (S d)) ∧
    queue_weight depth (queue b') ≤
      queue_weight depth (queue b) + length l * weight (depth - S d).
Proof.
  intros Hc Hp Hlen Hd. revert b Hc. induction l as [|e l IH]; intros b Hc Hall Hcl; simpl.
  - exists b. split_and!; try done; [|lia]. intros e s' []%elem_of_nil.
  - destruct (explore_event_ok s d tr e b) as
      (b1 & s1 & Ht & -> & Hc1 & Hcl1 & Hg1 & Hs1 & Hw1); [done..|apply Hall; set_solver|done|].
    simpl. destruct (IH b1) as (b2 & -> & Hc2 & Hcl2 & Hg2 & Hs2 & Hw2);
      [done|set_solver|done|].
    exists b2. split_and!; try done; [by etransitivity| |lia].
    intros e' s' [->|Hin]%elem_of_cons Ht'; [|by eauto].
    rewrite Ht in Ht'. injection Ht' as <-. by apply Hg2.
Qed.

(** *** One state *)

Lemma length_concat_imap {A B} k (f : nat → A → list B) l :
  (∀ i x, length (f i x) ≤ k) → length (concat (imap f l)) ≤ k * length l.
Proof.
  revert f. induction l as [|x l IH]; intros f Hf; [simpl; lia|].
  rewrite imap_cons. simpl. rewrite length_app.
  pose proof (Hf 0 x). pose proof (IH (f ∘ S) (λ i, Hf (S i))). lia.
Qed.

Lemma enabled_length s : length (slots s) ≤ 3 → length (enabled_events s) ≤ 11.
Proof.
  intros Hlen. unfold enabled_events. destruct (kill_timeout s); [simpl; lia|].
  rewrite (merge_sort_Permutation event_le _). destruct (stopping s); simpl.
  - rewrite !length_app.
    pose proof (length_concat_imap 1 exit_events (slots s)) as H1.
    assert (length (concat (imap exit_events (slots s))) ≤ 1 * length (slots s))
      by (apply H1; intros i x; unfold exit_events; destruct (phase x); simpl; lia).
    repeat case_match; simpl; lia.
  - assert (length (concat (imap slot_events (slots s))) ≤ 3 * length (slots s)).
    { apply length_concat_imap. intros i x. unfold slot_events.
      destruct (phase x); simpl; repeat case_match; simpl; lia. }
    lia.
Qed.

Lemma first_labels_ok b found labels s tr st :
  labels_ok s0 depth b found labels →
  path s0 tr s → length tr ≤ depth → is_terminal s = true →
  terminals st = {[ s ]} ∪ terminals b →
  labels_ok s0 depth st found (first_labels labels (found s) (map label tr)).
Proof.
  intros Hl Hp Hlen Ht Hst. destruct labels as [|x labels]; simpl; [|exact Hl].
  destruct (found s) eqn:Hf.
  - assert (tr ≠ []) as Hne.
    { intros ->. apply path_nil_inv in Hp as ->. congruence. }
    destruct tr as [|e tr]; [done|]. exists (e :: tr), s. by split_and!.
  - intros t. rewrite Hst, elem_of_union, elem_of_singleton. intros [->|Hin]; [done|].
    by apply Hl.
Qed.

(** Taking an entry from the queue. *)
Definition pop (b : Search) (rest : list entry) : Search :=
  mkSearch rest (seen b) (taken b) (terminals b) (clean b) (budget b) (killed b).

Lemma pop_ok b s d tr rest :
  queue b = (s, d, tr) :: rest → consistent s0 depth b → closed depth None b →
  consistent s0 depth (pop b rest) ∧ closed depth (Some (s, d)) (pop b rest) ∧
  path s0 tr s ∧ length tr = d ∧ d ≤ depth ∧ seen_within b s d.
Proof.
  intros Hq [Hque Hseen Hi Ht Hc Hb Hk] Hcl.
  destruct (Hque s d tr) as (Hp & Hlen & Hd & Hw); [rewrite Hq; set_solver|].
  split_and!; try done.
  - split; try done. intros t k tr' Hin. apply Hque. rewrite Hq. set_solver.
  - intros t k Htk. destruct (Hcl t k Htk) as [?|[ [tr' Hin]|Hex] ]; [done| |by right; right].
    rewrite Hq in Hin. apply elem_of_cons in Hin as [[= -> -> _]|Hin]; [by left|].
    right; left. by exists tr'.
Qed.

Lemma record_terminal_ok b s d tr :
  consistent s0 depth b → closed depth (Some (s, d)) b →
  path s0 tr s → length tr = d → d ≤ depth → seen_within b s d →
  let b' := record_terminal s tr b in
  consistent s0 depth b' ∧ closed depth (Some (s, d)) b' ∧
  seen b' = seen b ∧ queue b' = queue b ∧ (is_terminal s = true → s ∈ terminals b').
Proof.
  intros [Hq Hseen Hi Ht Hc Hb Hk] Hcl Hp Hlen Hd (k & Hsk & _).
  unfold record_terminal. destruct (is_terminal s) eqn:E; [|by split].
  split_and!; try done; [| |set_solver].
  - split; simpl; try done.
    + intros t. rewrite elem_of_union, elem_of_singleton. intros [->|Hin]; [by eauto|by eauto].
    + apply (first_labels_ok b clean_stop); [done|done|lia|done|done].
    + apply (first_labels_ok b budget_exhausted); [done|done|lia|done|done].
    + apply (first_labels_ok b kill_timeout); [done|done|lia|done|done].
  - intros t j Htj. destruct (Hcl t j Htj) as [?|[?|[H1 H2] ] ]; [by left|by right; left|].
    right; right. split; [|done]. intros Hterm. simpl. specialize (H1 Hterm). set_solver.
Qed.

Lemma visit_ok b s d tr rest :
  queue b = (s, d, tr) :: rest → consistent s0 depth b → closed depth None b →
  ∃ b', visit depth (s, d, tr) (pop b rest) = Ok b' ∧
    consistent s0 depth b' ∧ closed depth None b' ∧
    queue_weight depth (queue b') < queue_weight depth (queue b).
Proof.
  intros Hq Hc Hcl. destruct (pop_ok _ _ _ _ _ Hq Hc Hcl) as (Hc1 & Hcl1 & Hp & Hlen & Hd & Hw).
  pose proof (path_Inv _ _ Hp) as HI. unfold visit. rewrite (Inv_errors s HI). simpl.
  destruct (record_terminal_ok (pop b rest) s d tr Hc1 Hcl1 Hp Hlen Hd Hw)
    as (Hc2 & Hcl2 & Hseen2 & Hq2 & Ht2).
  set (b2 := record_terminal s tr (pop b rest)) in *.
  assert (queue_weight depth (queue b) = weight (depth - d) + queue_weight depth (queue b2))
    as Hwq by (by rewrite Hq, Hq2).
  destruct (Nat.leb_spec depth d) as [Hle|Hlt].
  - exists b2. split_and!; try done.
    + intros t k Htk. destruct (Hcl2 t k Htk) as [[= -> ->]|[?|?] ]; [|by right; left|by right; right].
      right; right. split; [done|]. lia.
    + rewrite Hwq. destruct (depth - d); simpl; lia.
  - destruct (explore_events_ok s d tr (enabled_events s) b2) as
      (b3 & -> & Hc3 & Hcl3 & [Hg3 Ht3] & Hs3 & Hw3); try done.
    exists b3. split_and!; try done.
    + intros t k Htk. destruct (Hcl3 t k Htk) as [[= -> ->]|[?|?] ]; [|by right; left|by right; right].
      right; right. split; [by rewrite Ht3|]. intros _ e s' Hst. eapply Hs3; [|done].
      by eapply moves_enabled.
    + pose proof (enabled_length s (proj2 (inv_workers _ _ s HI))).
      assert (length (enabled_events s) * weight (depth - S d) ≤ 11 * weight (depth - S d))
        by (apply Nat.mul_le_mono_r; done).
      replace (depth - d) with (S (depth - S d)) in Hwq by lia. cbn [weight] in Hwq. lia.
Qed.

(** *** The whole search *)

Lemma search_ok m b :
  queue_weight depth (queue b) ≤ m → consistent s0 depth b → closed depth None b →
  ∃ b', search (S m) depth b = Some (Ok b') ∧ consistent s0 depth b' ∧
        closed depth None b' ∧ queue b' = [].
Proof.
  revert b. induction m as [|m IH]; intros b Hm Hc Hcl; cbn [search].
  - destruct (queue b) as [|[ [s d] tr] rest] eqn:Hq; [by exists b|].
    exfalso. revert Hm. unfold queue_weight. simpl. destruct (depth - d); simpl; lia.
  - destruct (queue b) as [|[ [s d] tr] rest] eqn:Hq; [by exists b|].
    destruct (visit_ok b s d tr rest Hq Hc Hcl) as (b1 & Hv & Hc1 & Hcl1 & Hw).
    unfold pop in Hv. rewrite Hv. apply IH; [|done|done]. rewrite Hq in Hw. lia.
Qed.

Lemma start_ok : consistent s0 depth (start s0) ∧ closed depth None (start s0).
Proof.
  split.
  - split; simpl; try done.
    + intros s d tr. rewrite list_elem_of_singleton. intros [= -> -> ->].
      split_and!; [constructor|done|lia|]. exists 0. split; [by apply lookup_singleton_eq|done].
    + intros s d. rewrite lookup_singleton_Some. intros [<- <-].
      exists []. split_and!; [constructor|done|lia].
    + exists 0. split; [by apply lookup_singleton_eq|done].
  - intros s d. simpl. rewrite lookup_singleton_Some. intros [<- <-].
    right; left. exists []. set_solver.
Qed.

(** When the queue is empty, what was seen is what is reachable in the depth. *)
Lemma finished b :
  consistent s0 depth b → closed depth None b → queue b = [] →
  ∀ s, is_Some (seen b !! s) ↔ ∃ tr, path s0 tr s ∧ length tr ≤ depth.
Proof.
  intros Hc Hcl Hq s. split.
  - intros [d Hd]. destruct (c_seen _ _ _ Hc _ _ Hd) as (tr & ? & <- & ?). eauto.
  - intros (tr & Hp & Hlen). cut (seen_within b s (length tr)).
    { intros (d & Hd & _). eauto. }
    induction Hp as [|tr t e u Hp IH Ht]; [by apply Hc|].
    rewrite length_app in *. simpl in *.
    destruct IH as (d & Hd & Hle); [lia|].
    destruct (Hcl _ _ Hd) as [?|[ [tr' Hin]|[_ Hex] ] ]; [done|by rewrite Hq in Hin; apply elem_of_nil in Hin|].
    destruct (Hex ltac:(lia) e u Ht) as (k & Hk & Hkle). exists k. split; [done|lia].
Qed.

Lemma finished_terminals b :
  consistent s0 depth b → closed depth None b → queue b = [] →
  ∀ s, s ∈ terminals b ↔ is_Some (seen b !! s) ∧ is_terminal s = true.
Proof.
  intros Hc Hcl Hq s. split; [by intros [? ?]%(c_terminals _ _ _ Hc)|].
  intros [ [d Hd] Ht]. destruct (Hcl _ _ Hd) as [?|[ [tr Hin]|[Hex _] ] ]; [done| |by apply Hex].
  rewrite Hq in Hin. by apply elem_of_nil in Hin.
Qed.
End search.

Lemma search_mono fuel k depth b r :
  search fuel depth b = Some r → search (fuel + k) depth b = Some r.
Proof.
  revert b. induction fuel as [|fuel IH]; intros b; [done|]. simpl.
  destruct (queue b) as [|e rest]; [done|]. destruct (visit _ _ _); [apply IH|done].
Qed.

(** *** Runs given by their events *)

Definition run (s : SupervisorState) (tr : list Event) : result SupervisorState :=
  for_each tr (λ e s, transition s e) s.

Lemma run_path s tr t : run s tr = Ok t → path s tr t.
Proof.
  assert (∀ pre u, path s pre u → run u tr = Ok t → path s (pre ++ tr) t) as Hgo.
  { unfold run. induction tr as [|e tr IH]; intros pre u Hp H; simpl in H.
    - injection H as ->. by rewrite app_nil_r.
    - inv_step. replace (pre ++ e :: tr) with ((pre ++ [e]) ++ tr) by by rewrite <- app_assoc.
      eapply IH; [|exact H]. by eapply path_snoc. }
  apply (Hgo []). constructor.
Qed.

Definition ev (k : EventKind) : Event := mkEvent k None.
Definition at_ (k : EventKind) (i : nat) : Event := mkEvent k (Some i).
Definition workers_of (n : nat) : SupervisorState :=
  mkState false false false false false false (replicate n (mkSlot RUNNING 0 0 0)).

(** Runs of [n] workers to a clean stop, to an exhausted budget and to a
    child that survives its kill. *)
Definition clean_run (n : nat) : list Event :=
  ev STOP_REQUESTED :: map (at_ CHILD_EXITED) (seq 0 n).
Definition budget_run (n : nat) : list Event :=
  [at_ CRASH 0; at_ BACKOFF_ELAPSED 0; at_ CRASH 0; at_ BACKOFF_ELAPSED 0; at_ CRASH 0]
  ++ map (at_ CHILD_EXITED) (seq 1 (n - 1)).
Definition kill_run : list Event :=
  [ev STOP_REQUESTED; ev TERMINATE_GRACE_EXPIRED; ev KILL_GRACE_EXPIRED].

Definition ends_in (found : SupervisorState → bool) (s0 : SupervisorState) (tr : list Event)
  : bool :=
  match run s0 tr with Ok s => is_terminal s && found s | Raise _ => false end.

Lemma labels_found s0 depth b found labels tr :
  labels_ok s0 depth b found labels →
  (∀ s, s ∈ terminals b ↔ (∃ tr, path s0 tr s ∧ length tr ≤ depth) ∧ is_terminal s = true) →
  ends_in found s0 tr = true → length tr ≤ depth →
  no_labels labels = false ∧
  ∃ tr s, path s0 tr s ∧ length tr ≤ depth ∧ is_terminal s = true ∧ found s = true ∧
          labels = map label tr.
Proof.
  intros Hl Hterm Hend Hlen. destruct labels as [|x labels]; [|by split].
  unfold ends_in in Hend. destruct (run s0 tr) as [s|] eqn:Hr; [|done]. bool_hyps.
  exfalso. apply run_path in Hr. rewrite (Hl s) in *; [done|]. apply Hterm. eauto.
Qed.

Lemma initial_cases n s0 :
  initial_state n = Ok s0 → ∃ k, s0 = workers_of k ∧ (k = 1 ∨ k = 2 ∨ k = 3).
Proof.
  unfold initial_state. intros H. inv_result. bool_hyps. unfold MAX_MODEL_WORKERS in *.
  exists (Z.to_nat n). split; [done|lia].
Qed.

Lemma demo_runs k :
  k = 1 ∨ k = 2 ∨ k = 3 →
  ends_in clean_stop (workers_of k) (clean_run k) = true ∧ length (clean_run k) ≤ 7 ∧
  ends_in budget_exhausted (workers_of k) (budget_run k) = true ∧
  length (budget_run k) ≤ 7 ∧ ends_in kill_timeout (workers_of k) kill_run = true.
Proof. intros [->|[->| ->] ]; split_and!; first [vm_compute; reflexivity|simpl; lia]. Qed.

(** What a receipt says of the states within its depth. *)
Definition within (s0 : SupervisorState) (depth : nat) (s : SupervisorState) : Prop :=
  ∃ tr, path s0 tr s ∧ length tr ≤ depth.
Definition witnessed (s0 : SupervisorState) (depth : nat) (found : SupervisorState → bool)
    (labels : list string) : Prop :=
  ∃ tr s, path s0 tr s ∧ length tr ≤ depth ∧ is_terminal s = true ∧ found s = true ∧
          labels = map label tr.

Lemma explore_ok n s0 depth :
  initial_state n = Ok s0 → 7 ≤ depth →
  ∃ fuel r, explore fuel n depth = Some (Ok r) ∧
    (∃ X : gset SupervisorState, (∀ s, s ∈ X ↔ within s0 depth s) ∧ states r = size X) ∧
    (∃ T : gset SupervisorState,
       (∀ s, s ∈ T ↔ within s0 depth s ∧ is_terminal s = true) ∧ terminal_states r = size T) ∧
    witnessed s0 depth clean_stop (clean_shutdown_witness r) ∧
    witnessed s0 depth budget_exhausted (budget_exhaustion_witness r) ∧
    witnessed s0 depth kill_timeout (kill_timeout_witness r).
Proof.
  intros Hinit Hdepth. pose proof (initial_Inv _ _ Hinit) as HI.
  destruct (initial_cases _ _ Hinit) as (k & -> & Hk).
  destruct (start_ok (workers_of k) depth HI eq_refl) as [Hc Hcl].
  destruct (search_ok (workers_of k) depth HI eq_refl _ _ (le_n _) Hc Hcl)
    as (b & Hrun & Hcb & Hclb & Hq).
  pose proof (finished _ _ b Hcb Hclb Hq) as Hfin.
  pose proof (finished_terminals _ _ b Hcb Hclb Hq) as Hterm.
  setoid_rewrite Hfin in Hterm.
  destruct (demo_runs k Hk) as (E1 & L1 & E2 & L2 & E3).
  destruct (labels_found _ _ _ _ _ _ (c_clean _ _ _ Hcb) Hterm E1 ltac:(lia)) as [N1 W1].
  destruct (labels_found _ _ _ _ _ _ (c_budget _ _ _ Hcb) Hterm E2 ltac:(lia)) as [N2 W2].
  destruct (labels_found _ _ _ _ _ _ (c_killed _ _ _ Hcb) Hterm E3 ltac:(simpl; lia)) as [N3 W3].
  eexists _, _. split.
  { unfold explore. rewrite Hinit. rewrite Hrun. simpl. unfold receipt.
    rewrite N1, N2, N3. reflexivity. }
  simpl. split; [|split; [|done] ].
  - exists (dom (seen b)). split; [|by rewrite size_dom].
    intros s. rewrite elem_of_dom. apply Hfin.
  - by exists (terminals b).
Qed.

(** ** Properties *)

(** C2: the executable model is the TLA+ specification.  In every state
    reachable from an initial one, the successors [transition] gives to the
    enabled events are exactly the successors of [Next]. *)
Theorem model_refines_specification n s0 s s' :
  initial_state n = Ok s0 → rtc moves s0 s →
  ((∃ e, e ∈ enabled_events s ∧ transition s e = Ok s') ↔
   Next MODEL_MAX_RESTARTS MODEL_MAX_BACKOFF_SECONDS s s').
Proof.
  intros H0 Hrun. pose proof (reachable_Inv _ _ _ H0 Hrun) as HI. split.
  - by intros (e & _ & [_ ?]%transition_iff).
  - intros HN. destruct (Next_enabled _ _ HI HN) as [e He].
    exists e. split; [by eapply moves_enabled|done].
Qed.

(** C10: safety and progress.  In every reachable state the checker's invariants
    hold, every enabled event has a successor, any other event is rejected, and
    no event is enabled only when the pool has terminated. *)
Theorem reachable_states_safe n s0 s :
  initial_state n = Ok s0 → rtc moves s0 s →
  invariant_errors s = [] ∧
  (∀ e, is_ok (transition s e) = true ↔ e ∈ enabled_events s) ∧
  (enabled_events s = [] ↔ is_terminal s = true).
Proof.
  intros H0 Hrun. pose proof (reachable_Inv _ _ _ H0 Hrun) as HI.
  split; [by apply Inv_errors|]. split; [|by apply stuck_terminal].
  intros e. split.
  - destruct (transition s e) eqn:E; [|done]. intros _. by eapply moves_enabled.
  - intros (s' & -> & _)%enabled_iff%enabled_transition; done.
Qed.

(** C17: shutdown terminates and starts nothing.  From a reachable stopping
    state every run has at most two steps per worker, stays stopping, never
    starts a child, and can always be continued until the pool has terminated. *)
Theorem shutdown_terminates n s0 s s' k :
  initial_state n = Ok s0 → rtc moves s0 s → stopping s = true → nsteps moves k s s' →
  k ≤ 2 * length (slots s) ∧ stopping s' = true ∧
  map generation (slots s') = map generation (slots s) ∧
  existsb (in_phase RUNNING) (slots s') = false ∧
  (is_terminal s' = true ∨ ∃ s2, moves s' s2).
Proof.
  intros H0 Hrun Hs Hk. pose proof (reachable_Inv _ _ _ H0 Hrun) as HI.
  destruct (stopping_run _ _ _ HI Hs Hk) as (Hs' & Hm & Hg & HI').
  pose proof (measure_bound s). split; [lia|]. split; [done|]. split; [done|]. split.
  - apply existsb_phase_false; [done|]. intros sl (_ & _ & Hp) Hph. rewrite Hph in Hp.
    naive_solver congruence.
  - destruct (enabled_events s') as [|e l] eqn:E; [left; by apply stuck_terminal|right].
    destruct (enabled_transition s' e HI') as (s2 & Ht & _).
    + apply enabled_iff. rewrite E. set_solver.
    + by exists s2, e.
Qed.

(** C1: the bounded exploration is exact.  For every worker count the model
    admits and every depth from 7 on, [explore] terminates and returns a
    receipt (so none of its checks fails), which counts exactly the states and
    the terminal states reachable within the depth and whose three witnesses
    are the labels of runs to such terminal states. *)
Theorem exploration_exact n s0 depth :
  initial_state n = Ok s0 → 7 ≤ depth →
  ∃ enough r, (∀ fuel, enough ≤ fuel → explore fuel n depth = Some (Ok r)) ∧
    (∃ X : gset SupervisorState, (∀ s, s ∈ X ↔ within s0 depth s) ∧ states r = size X) ∧
    (∃ T : gset SupervisorState,
       (∀ s, s ∈ T ↔ within s0 depth s ∧ is_terminal s = true) ∧ terminal_states r = size T) ∧
    witnessed s0 depth clean_stop (clean_shutdown_witness r) ∧
    witnessed s0 depth budget_exhausted (budget_exhaustion_witness r) ∧
    witnessed s0 depth kill_timeout (kill_timeout_witness r).
Proof.
  intros Hinit Hdepth. destruct (explore_ok n s0 depth Hinit Hdepth) as (fuel & r & Hr & Hrest).
  exists fuel, r. split; [|done]. intros fuel' Hle.
  unfold explore in *. rewrite Hinit in *.
  destruct (search fuel depth (start s0)) as [x|] eqn:E; [|done].
  apply (search_mono _ (fuel' - fuel)) in E.
  replace (fuel + (fuel' - fuel)) with fuel' in E by lia. by rewrite E.
Qed.

(** The specification's THEOREM holds for every pool that may restart a
    worker at all: with at least one restart and a positive backoff bound, every
    state reachable by [Next] from [Init] satisfies [Safety]. *)
Theorem specification_is_safe max_restarts max_backoff s0 s :
  (1 ≤ max_restarts)%Z → (1 ≤ max_backoff)%Z →
  Init s0 → rtc (Next max_restarts max_backoff) s0 s → Safety max_restarts max_backoff s.
Proof.
  intros Hr Hb H0 Hrun. apply Inv_Safety; [done|].
  apply (rtc_inv (Next max_restarts max_backoff) (Inv max_restarts max_backoff) s0);
    [|apply Inv_Init; [lia|done]|done].
  intros a b Ha Hab. by eapply Next_Inv.
Qed.

(** Without that assumption the THEOREM fails.  With [MaxRestarts = 0],
    which the specification's ASSUME admits, a stable exit puts a worker in
    backoff with one attempt, and [BackoffExact] is violated. *)
Theorem specification_unsafe_without_restarts max_backoff :
  ∃ s0 s, Init s0 ∧ rtc (Next 0 max_backoff) s0 s ∧ ¬ Safety 0 max_backoff s.
Proof.
  exists (workers_of 1). eexists. split; [exists 1; split; [lia|done]|]. split.
  - apply rtc_once, (StableExit 0 max_backoff (workers_of 1) 0 (mkSlot RUNNING 0 0 0));
      reflexivity.
  - intros (_ & _ & _ & _ & HB & _). unfold BackoffExact in HB. simpl in HB.
    apply Forall_cons in HB as [ [ [_ Hle] _] _]. simpl in Hle. lia.
Qed.

(** ** Witnesses: the properties at concrete runs *)

Definition demo_stopping : SupervisorState :=
  mkState true true false false false false
    [mkSlot STOPPING 0 0 0; mkSlot STOPPING 0 0 0].

Lemma demo_stopping_moves : moves (workers_of 2) demo_stopping.
Proof. exists (ev STOP_REQUESTED). vm_compute. reflexivity. Qed.

Lemma model_refines_specification_witness :
  Next MODEL_MAX_RESTARTS MODEL_MAX_BACKOFF_SECONDS (workers_of 2) demo_stopping.
Proof.
  apply (model_refines_specification 2 (workers_of 2) (workers_of 2) demo_stopping).
  - vm_compute. reflexivity.
  - apply rtc_refl.
  - exists (ev STOP_REQUESTED). split; [|vm_compute; reflexivity].
    vm_compute. apply list_elem_of_In. simpl. tauto.
Defined.

Lemma reachable_states_safe_witness :
  invariant_errors demo_stopping = [] ∧
  (enabled_events demo_stopping = [] ↔ is_terminal demo_stopping = true).
Proof.
  destruct (reachable_states_safe 2 (workers_of 2) demo_stopping) as (H1 & _ & H3).
  - vm_compute. reflexivity.
  - apply rtc_once, demo_stopping_moves.
  - split; [exact H1|exact H3].
Defined.

Lemma shutdown_terminates_witness :
  stopping demo_stopping = true ∧ 0 ≤ 2 * length (slots demo_stopping) ∧
  (is_terminal demo_stopping = true ∨ ∃ s2, moves demo_stopping s2).
Proof.
  destruct (shutdown_terminates 2 (workers_of 2) demo_stopping demo_stopping 0)
    as (H1 & H2 & _ & _ & H5).
  - vm_compute. reflexivity.
  - apply rtc_once, demo_stopping_moves.
  - reflexivity.
  - constructor.
  - split; [exact H2|split; [exact H1|exact H5] ].
Defined.

Lemma exploration_exact_witness :
  ∃ enough r, ∀ fuel, enough ≤ fuel → explore fuel 3 10 = Some (Ok r).
Proof.
  destruct (exploration_exact 3 (workers_of 3) 10) as (enough & r & H & _).
  - vm_compute. reflexivity.
  - lia.
  - exists enough, r. exact H.
Defined.

Lemma specification_is_safe_witness : Safety 2 4 demo_stopping.
Proof.
  apply (specification_is_safe 2 4 (workers_of 2)).
  - lia.
  - lia.
  - exists 2. split; [lia|reflexivity].
  - apply rtc_once. exact (StopRequested 2 4 (workers_of 2) eq_refl).
Defined.

(** The receipt of one worker to depth 10. *)
Example explore_one_worker :
  ∃ r, explore 200 1 10 = Some (Ok r) ∧ states r = 80 ∧ transitions r = 101 ∧
       terminal_states r = 34.
Proof. eexists. split; [vm_compute; reflexivity|]. by split_and!. Qed.

End Exploration.
