(* ===== verification/Decimal.v ===== *)
(** * Decimal texts

    [int(s, 10)] on texts of ASCII digits against [str] of an [int]: the round
    trips, and the texts that are the canonical form of a number. *)
From S2P Require Import Prelude PyValue Json Contract.

(** A digit and its value. *)
Lemma is_digit_range c : is_digit c = true ↔ (48 ≤ code c ≤ 57)%N.
Proof. unfold is_digit, in_range. rewrite andb_true_iff, !N.leb_le. done. Qed.

Lemma digit_char c : is_digit c = true → pretty_N_char (code c - 48) = c.
Proof.
  destruct c as [b0 b1 b2 b3 b4 b5 b6 b7]. revert b0 b1 b2 b3 b4 b5 b6 b7.
  by intros [] [] [] [] [] [] [] [].
Qed.

Lemma char_digit n : (n < 10)%N → code (pretty_N_char n) = (48 + n)%N.
Proof.
  intros Hn. assert (n ∈ [0;1;2;3;4;5;6;7;8;9]%N) as Hin by (rewrite !elem_of_cons; lia).
  split_members; by vm_compute.
Qed.

(** [int_of_digits] in [N]. *)
Fixpoint digits_value (acc : N) (s : string) : N :=
  match s with
  | EmptyString => acc
  | String c s => digits_value (acc * 10 + (code c - 48)) s
  end.

Lemma int_of_digits_value acc s :
  int_of_digits (Z.of_N acc) s = Z.of_N (digits_value acc s).
Proof.
  revert acc. induction s as [|c s IH]; intros acc; [done|]. simpl.
  rewrite <- IH. f_equal. lia.
Qed.

Lemma digits_value_go x s :
  digits_value 0 (pretty_N_go x s) = digits_value x s.
Proof.
  revert s. induction (N.lt_wf_0 x) as [x _ IH]; intros s.
  destruct (decide (0 < x)%N) as [Hx|Hx]; cycle 1.
  { replace x with 0%N by lia. by rewrite pretty_N_go_0. }
  rewrite pretty_N_go_step by done. rewrite IH by (by apply N.div_lt).
  cbn [digits_value].
  rewrite char_digit by (by apply N.mod_lt). f_equal.
  rewrite (N.add_comm 48), N.add_sub, N.mul_comm. symmetry. by apply N.div_mod.
Qed.

Lemma go_digits_value s x :
  all_chars is_digit s = true → (0 < x)%N →
  pretty_N_go (digits_value x s) EmptyString = pretty_N_go x s.
Proof.
  revert x. induction s as [|c s IH]; intros x Hs Hx; [done|]. simpl in *. bool_hyps.
  rewrite IH by (done || lia). rewrite pretty_N_go_step by lia.
  match goal with H : is_digit c = true |- _ =>
    pose proof (digit_char c H) as Hc; apply is_digit_range in H end.
  assert ((x * 10 + (code c - 48)) `div` 10 = x ∧
          (x * 10 + (code c - 48)) `mod` 10 = code c - 48)%N as [-> ->].
  { split; [symmetry; apply (N.div_unique _ _ _ (code c - 48)); lia|].
    symmetry; apply (N.mod_unique _ _ x); lia. }
  by rewrite Hc.
Qed.

Lemma digits_value_mono s x : (x ≤ digits_value x s)%N.
Proof.
  revert x. induction s as [|c s IH]; intros x; simpl; [done|].
  pose proof (IH (x * 10 + (code c - 48))%N). lia.
Qed.

Lemma int_of_pretty (n : N) : int_of_digits 0 (pretty n) = Z.of_N n.
Proof.
  change 0%Z with (Z.of_N 0). rewrite int_of_digits_value. f_equal.
  unfold pretty, pretty_N. case_decide as Hn; [by subst|]. apply digits_value_go.
Qed.

(** A text without a leading zero is the text of its value. *)
Lemma pretty_of_digits c s :
  is_digit c = true → c ≠ "0"%char → all_chars is_digit s = true →
  pretty (digits_value 0 (String c s)) = String c s.
Proof.
  intros Hc Hne Hs. pose proof (digit_char c Hc) as Hch. apply is_digit_range in Hc.
  assert (0 < code c - 48)%N as Hpos.
  { destruct (decide (code c = 48)%N) as [E|]; [|lia]. exfalso. apply Hne.
    rewrite <- Hch, E. done. }
  simpl digits_value. pose proof (digits_value_mono s (0 * 10 + (code c - 48))).
  unfold pretty, pretty_N. case_decide as Hz; [lia|].
  rewrite go_digits_value by (done || lia). rewrite N.mul_0_l, N.add_0_l.
  rewrite pretty_N_go_step by done.
  rewrite N.div_small, N.mod_small by lia. by rewrite pretty_N_go_0, Hch.
Qed.

(** The length of the text of a number below a power of ten. *)
Lemma pretty_go_length k x s :
  (x < 10 ^ N.of_nat k)%N → String.length (pretty_N_go x s) ≤ k + String.length s.
Proof.
  revert x s. induction k as [|k IH]; intros x s Hx.
  - change (10 ^ N.of_nat 0)%N with 1%N in Hx. replace x with 0%N by lia.
    by rewrite pretty_N_go_0.
  - destruct (decide (0 < x)%N) as [Hpos|]; cycle 1.
    { replace x with 0%N by lia. rewrite pretty_N_go_0. lia. }
    rewrite pretty_N_go_step by done.
    rewrite Nat2N.inj_succ, N.pow_succ_r' in Hx.
    pose proof (IH (x `div` 10)%N (String (pretty_N_char (x `mod` 10)) s)) as Hlen.
    simpl in Hlen. etransitivity; [apply Hlen|lia]. apply N.div_lt_upper_bound; lia.
Qed.

Lemma pretty_length k (n : N) :
  0 < k → (n < 10 ^ N.of_nat k)%N → String.length (pretty n) ≤ k.
Proof.
  intros Hk Hn. unfold pretty, pretty_N. case_decide; [simpl; lia|].
  pose proof (pretty_go_length k n EmptyString Hn) as Hlen. simpl in Hlen. lia.
Qed.

Lemma str_int_nonneg z : (0 ≤ z)%Z → str_int z = pretty (Z.to_N z).
Proof.
  intros Hz. rewrite str_int_sign. rewrite (proj2 (Z.ltb_ge _ _) Hz).
  by destruct z.
Qed.

(** [int] undoes [str]. *)
Lemma int_of_str_int z :
  (0 ≤ z < 10 ^ 18)%Z → int_of_str (str_int z) = Ok z.
Proof.
  intros Hz. unfold int_of_str. rewrite str_int_nonneg by lia.
  assert (slen (pretty (Z.to_N z)) ≤ 18)%Z as Hlen.
  { unfold slen. pose proof (pretty_length 18 (Z.to_N z)) as H.
    assert (String.length (pretty (Z.to_N z)) ≤ 18); [|lia]. apply H; [lia|].
    change (10 ^ N.of_nat 18)%N with (Z.to_N (10 ^ 18)). lia. }
  rewrite (proj2 (Z.ltb_ge 4300 (slen (pretty (Z.to_N z))))) by lia. simpl.
  rewrite int_of_pretty. f_equal. lia.
Qed.

(** The text of a positive number starts with a digit other than zero. *)
Lemma go_head x s :
  (0 < x)%N → ∃ c t, pretty_N_go x s = String c t ∧ (49 ≤ code c ≤ 57)%N.
Proof.
  revert s. induction (N.lt_wf_0 x) as [x _ IH]; intros s Hx.
  rewrite pretty_N_go_step by done.
  destruct (decide (0 < x `div` 10)%N) as [Hq|Hq].
  - apply IH; [by apply N.div_lt|done].
  - assert (x `div` 10 = 0)%N as Hz by (by apply N.le_0_r, N.nlt_ge). rewrite Hz, pretty_N_go_0.
    apply N.div_small_iff in Hz; [|done]. rewrite N.mod_small by done.
    eexists _, s. split; [done|]. rewrite char_digit by done. lia.
Qed.

Lemma pretty_head (n : N) :
  (0 < n)%N → ∃ c t, pretty n = String c t ∧ (49 ≤ code c ≤ 57)%N.
Proof. intros Hn. unfold pretty, pretty_N. case_decide; [lia|by apply go_head]. Qed.
