(* ===== verification/Pool.v ===== *)
(** * The pool of artifact-recovery workers

    Models [tools/run_continuous_artifact_recovery_pool.py]: the parsing of its
    settings, the restart budget ([RestartBudget]), and [main] as a machine
    whose main thread is interleaved with the signal handler [request_stop],
    with the passing of time and with the exits of the worker processes.  Times
    are whole nanoseconds: the floats of [time.monotonic] are taken as exact. *)
From S2P Require Import Prelude PyValue.

Module Pool.

(** ** Settings *)

Definition MAX_WORKERS : Z := 3.
Definition DEFAULT_MAX_RESTARTS : Z := 5.
Definition DEFAULT_RESTART_WINDOW_SECONDS : Z := 300.
Definition DEFAULT_RESTART_BACKOFF_MAX_SECONDS : Z := 60.
Definition DEFAULT_STABLE_RUNTIME_SECONDS : Z := 120.
Definition DEFAULT_SHUTDOWN_GRACE_SECONDS : Z := 30.
Definition DEFAULT_KILL_GRACE_SECONDS : Z := 5.

Definition pool_error (msg : string) : exn := Exn PoolError msg.

(** Zero, or decimal digits without a leading zero. *)
Definition _CANONICAL_UNSIGNED_DECIMAL (s : string) : bool :=
  (s =? "0") || match s with
                | String c s => in_range "1" "9" c && all_chars is_digit s
                | EmptyString => false
                end.

(** An alphanumeric character and at most 95 of the class [A-Za-z0-9._-]. *)
Definition _WORKER_ID_PREFIX (s : string) : bool :=
  rx_head_rep is_alnum (λ c, is_alnum c || one_of "._-" c) 0 95 s.

Definition _bounded_int (raw : option string) (name : string) (default minimum maximum : Z)
  : result Z :=
  match raw with
  | None => Ok default
  | Some raw =>
      raise_if (negb (_CANONICAL_UNSIGNED_DECIMAL raw))
        (pool_error (name +:+ " must be an integer encoded as canonical unsigned decimal text")) ;;
      value ← int_of_str raw;
      raise_if (negb ((minimum <=? value)%Z && (value <=? maximum)%Z))
        (pool_error (name +:+ " must be between " +:+ str_int minimum +:+ " and "
                     +:+ str_int maximum)) ;;
      Ok value
  end.

Definition worker_count (raw : option string) : result Z :=
  _bounded_int raw "ARTIFACT_RECOVERY_WORKER_COUNT" 3 1 MAX_WORKERS.

Definition worker_id_prefix (raw : option string) : result string :=
  let value := default "continuous-recovery" raw in
  raise_if (negb (_WORKER_ID_PREFIX value))
    (pool_error ("ARTIFACT_RECOVERY_WORKER_ID_PREFIX must be 1..96 ASCII "
                 +:+ "letters, digits, dots, underscores, or hyphens and start "
                 +:+ "with an alphanumeric character")) ;;
  Ok value.

Record Settings : Set := mkSettings {
  count : Z;
  prefix : string;
  max_restarts : Z;
  restart_window_seconds : Z;
  restart_backoff_max_seconds : Z;
  stable_runtime_seconds : Z;
  shutdown_grace_seconds : Z;
  kill_grace_seconds : Z }.

(** The settings [main] reads from the environment, in its order. *)
Definition settings (getenv : string → option string) : result Settings :=
  count ← worker_count (getenv "ARTIFACT_RECOVERY_WORKER_COUNT");
  prefix ← worker_id_prefix (getenv "ARTIFACT_RECOVERY_WORKER_ID_PREFIX");
  max_restarts ← _bounded_int (getenv "ARTIFACT_RECOVERY_MAX_RESTARTS")
    "ARTIFACT_RECOVERY_MAX_RESTARTS" DEFAULT_MAX_RESTARTS 0 100;
  window ← _bounded_int (getenv "ARTIFACT_RECOVERY_RESTART_WINDOW_SECONDS")
    "ARTIFACT_RECOVERY_RESTART_WINDOW_SECONDS" DEFAULT_RESTART_WINDOW_SECONDS 10 86400;
  backoff ← _bounded_int (getenv "ARTIFACT_RECOVERY_RESTART_BACKOFF_MAX_SECONDS")
    "ARTIFACT_RECOVERY_RESTART_BACKOFF_MAX_SECONDS" DEFAULT_RESTART_BACKOFF_MAX_SECONDS 1 3600;
  stable ← _bounded_int (getenv "ARTIFACT_RECOVERY_STABLE_RUNTIME_SECONDS")
    "ARTIFACT_RECOVERY_STABLE_RUNTIME_SECONDS" DEFAULT_STABLE_RUNTIME_SECONDS 1 86400;
  shutdown ← _bounded_int (getenv "ARTIFACT_RECOVERY_SHUTDOWN_GRACE_SECONDS")
    "ARTIFACT_RECOVERY_SHUTDOWN_GRACE_SECONDS" DEFAULT_SHUTDOWN_GRACE_SECONDS 1 3600;
  kill ← _bounded_int (getenv "ARTIFACT_RECOVERY_KILL_GRACE_SECONDS")
    "ARTIFACT_RECOVERY_KILL_GRACE_SECONDS" DEFAULT_KILL_GRACE_SECONDS 1 60;
  Ok (mkSettings count prefix max_restarts window backoff stable shutdown kill).

(** ** The restart budget *)

Definition second : Z := 1000000000.

(** [RestartBudget._events]: the exits of each slot still in its window. *)
Abbreviation Events := (gmap nat (list Z)).

Fixpoint drop_before (cutoff : Z) (history : list Z) : list Z :=
  match history with
  | t :: rest => if (t <? cutoff)%Z then drop_before cutoff rest else history
  | [] => []
  end.

Definition reset (events : Events) (index : nat) : Events := delete index events.

Record Recorded : Set := mkRecorded { allowed : bool; backoff : Z; attempts : Z }.

(** [RestartBudget.record]; the backoff is in nanoseconds. *)
Definition record (s : Settings) (events : Events) (index : nat) (observed_at : Z)
  : Recorded * Events :=
  let history := default [] (events !! index) in
  let cutoff := (observed_at - restart_window_seconds s * second)%Z in
  let history := drop_before cutoff history ++ [observed_at] in
  let attempts := Z.of_nat (length history) in
  (mkRecorded (attempts <=? max_restarts s)%Z
     (Z.min (restart_backoff_max_seconds s) (2 ^ Z.max 0 (attempts - 1)) * second)%Z
     attempts,
   <[index := history]> events).

(** ** Dicts keyed by slot, in insertion order *)

Section slots.
Context {A : Type}.

Fixpoint slot_set (d : list (nat * A)) (k : nat) (v : A) : list (nat * A) :=
  match d with
  | [] => [(k, v)]
  | (k', v') :: d => if k =? k' then (k, v) :: d else (k', v') :: slot_set d k v
  end%nat.
Definition slot_del (d : list (nat * A)) (k : nat) : list (nat * A) :=
  filter (λ kv, kv.1 ≠ k) d.
Definition slot_has (d : list (nat * A)) (k : nat) : bool := bool_decide (k ∈ d.*1).
End slots.

(** ** Processes *)

Record Proc : Set := mkProc {
  worker_id : string;
  status : option Z;
  terminated : bool;
  killed : bool }.

Record World : Set := mkWorld {
  clock : Z;
  procs : gmap nat Proc;
  next_pid : nat }.

(** [child.poll()] *)
Definition poll (w : World) (pid : nat) : option Z := p ← procs w !! pid; status p.
Definition is_alive (w : World) (pid : nat) : bool :=
  match procs w !! pid with Some p => negb (is_some (status p)) | None => false end.

Definition send (f : Proc → Proc) (pid : nat) (w : World) : World :=
  mkWorld (clock w)
    (alter (λ p, if is_some (status p) then p else f p) pid (procs w)) (next_pid w).
Definition sigterm (p : Proc) : Proc := mkProc (worker_id p) (status p) true (killed p).
Definition sigkill (p : Proc) : Proc := mkProc (worker_id p) (status p) (terminated p) true.

(** A signal to every child that has not exited. *)
Definition signal_all (f : Proc → Proc) (children : list (nat * nat)) (w : World) : World :=
  foldr (send f) w children.*2.

(** ** The machine *)

(** Where the main thread is, with the variables of the loop it is in. *)
Inductive Pc : Set :=
  | AtStart (todo : list nat)
  | StartSpawned (index pid : nat) (todo : list nat)
  | AtHead
  | AtPoll (now : Z) (todo : list (nat * nat))
  | AtRecord (now : Z) (index : nat) (runtime : Z) (todo : list (nat * nat))
  | AtSchedule (now : Z) (index : nat) (delay : Z) (todo : list (nat * nat))
  | AtStop
  | AtReap (todo : list (nat * nat))
  | AtDeadline
  | AtRespawn (now : Z) (todo : list (nat * Z))
  | RespawnSpawned (now : Z) (index pid : nat) (todo : list (nat * Z))
  | RespawnStored (now : Z) (index : nat) (todo : list (nat * Z))
  | AtSleep
  | Returned (code : Z)
  | Raised (e : exn).

(** The variables of [main]. *)
Record Machine : Set := mkMachine {
  pc : Pc;
  stopping : bool;
  exit_code : Z;
  shutdown_deadline : option Z;
  kill_deadline : option Z;
  kill_sent : bool;
  children : list (nat * nat);
  started_at : gmap nat Z;
  pending_respawns : list (nat * Z);
  events : Events;
  world : World }.

Definition goto (m : Machine) (p : Pc) : Machine :=
  mkMachine p (stopping m) (exit_code m) (shutdown_deadline m) (kill_deadline m)
    (kill_sent m) (children m) (started_at m) (pending_respawns m) (events m) (world m).
Definition with_children (m : Machine) (c : list (nat * nat)) (s : gmap nat Z) : Machine :=
  mkMachine (pc m) (stopping m) (exit_code m) (shutdown_deadline m) (kill_deadline m)
    (kill_sent m) c s (pending_respawns m) (events m) (world m).
Definition with_pending (m : Machine) (p : list (nat * Z)) : Machine :=
  mkMachine (pc m) (stopping m) (exit_code m) (shutdown_deadline m) (kill_deadline m)
    (kill_sent m) (children m) (started_at m) p (events m) (world m).
Definition with_events (m : Machine) (e : Events) : Machine :=
  mkMachine (pc m) (stopping m) (exit_code m) (shutdown_deadline m) (kill_deadline m)
    (kill_sent m) (children m) (started_at m) (pending_respawns m) e (world m).
Definition with_world (m : Machine) (w : World) : Machine :=
  mkMachine (pc m) (stopping m) (exit_code m) (shutdown_deadline m) (kill_deadline m)
    (kill_sent m) (children m) (started_at m) (pending_respawns m) (events m) w.

(** What a stop does: no respawns, a deadline, a SIGTERM to every child. *)
Definition begin_stop (s : Settings) (now : Z) (code : Z) (m : Machine) : Machine :=
  mkMachine (pc m) true code (Some (now + shutdown_grace_seconds s * second)%Z)
    (kill_deadline m) (kill_sent m) (children m) (started_at m) [] (events m)
    (signal_all sigterm (children m) (world m)).

(** [request_stop], the handler of SIGTERM and SIGINT. *)
Definition request_stop (s : Settings) (m : Machine) : Machine :=
  if stopping m then m else begin_stop s (clock (world m)) (exit_code m) m.

(** [spawn]: a new process and the time it started; [next_pid m] is its pid. *)
Definition spawn (s : Settings) (index : nat) (m : Machine) : Machine :=
  let w := world m in
  let p := mkProc (prefix s +:+ "-" +:+ str_nat (S index)) None false false in
  mkMachine (pc m) (stopping m) (exit_code m) (shutdown_deadline m) (kill_deadline m)
    (kill_sent m) (children m) (<[index := clock w]> (started_at m)) (pending_respawns m)
    (events m) (mkWorld (clock w) (<[next_pid w := p]> (procs w)) (S (next_pid w))).

(** One turn of the loop that polls the children. *)
Definition poll_child (s : Settings) (now : Z) (index pid : nat) (todo : list (nat * nat))
    (m : Machine) : Machine :=
  match poll (world m) pid with
  | None => goto m (AtPoll now todo)
  | Some _ =>
      let runtime := Z.max 0 (now - default now (started_at m !! index)) in
      let m := with_children m (slot_del (children m) index)
                 (delete index (started_at m)) in
      goto m (if stopping m then AtPoll now todo else AtRecord now index runtime todo)
  end.

Definition record_exit (s : Settings) (now : Z) (index : nat) (runtime : Z)
    (todo : list (nat * nat)) (m : Machine) : Machine :=
  let ev := if (stable_runtime_seconds s * second <=? runtime)%Z
            then reset (events m) index else events m in
  let '(r, ev) := record s ev index now in
  let m := with_events m ev in
  if allowed r then goto m (AtSchedule now index (backoff r) todo)
  else goto (begin_stop s now 2 m) AtStop.

Definition reap_child (index pid : nat) (todo : list (nat * nat)) (m : Machine) : Machine :=
  goto (match poll (world m) pid with
        | None => m
        | Some _ => with_children m (slot_del (children m) index)
                      (delete index (started_at m))
        end) (AtReap todo).

(** The end of the stopping branch: deadlines, SIGKILL, the return. *)
Definition check_deadlines (s : Settings) (m : Machine) : Machine :=
  let now := clock (world m) in
  match children m with
  | [] => goto m (Returned (exit_code m))
  | _ =>
      match shutdown_deadline m with
      | Some deadline =>
          if negb (deadline <=? now)%Z then goto m AtSleep
          else if negb (kill_sent m) then
            mkMachine AtSleep (stopping m) (exit_code m) (shutdown_deadline m)
              (Some (now + kill_grace_seconds s * second)%Z) true (children m)
              (started_at m) (pending_respawns m) (events m)
              (signal_all sigkill (children m) (world m))
          else match kill_deadline m with
               | Some kd => if (kd <=? now)%Z then goto m (Returned 2) else goto m AtSleep
               | None => goto m AtSleep
               end
      | None => goto m AtSleep
      end
  end.

Definition OSError_return (m : Machine) : Machine := goto m (Returned 2).

(** One step of the main thread; [spawn_ok] is whether a [Popen] succeeds. *)
Definition main_step (s : Settings) (spawn_ok : bool) (m : Machine) : option Machine :=
  match pc m with
  | AtStart [] => Some (goto m AtHead)
  | AtStart (i :: todo) =>
      Some (if spawn_ok then goto (spawn s i m) (StartSpawned i (next_pid (world m)) todo)
            else OSError_return m)
  | StartSpawned i pid todo =>
      Some (goto (with_children m (slot_set (children m) i pid) (started_at m))
              (AtStart todo))
  | AtHead =>
      Some (goto m (match children m, pending_respawns m with
                    | [], [] => Returned (exit_code m)
                    | _, _ => AtPoll (clock (world m)) (children m)
                    end))
  | AtPoll now [] => Some (goto m AtStop)
  | AtPoll now ((i, pid) :: todo) => Some (poll_child s now i pid todo m)
  | AtRecord now i runtime todo => Some (record_exit s now i runtime todo m)
  | AtSchedule now i delay todo =>
      Some (goto (with_pending m (slot_set (pending_respawns m) i (now + delay)%Z))
              (AtPoll now todo))
  | AtStop =>
      Some (goto m (if stopping m then AtReap (children m)
                    else AtRespawn (clock (world m)) (pending_respawns m)))
  | AtReap [] => Some (goto m AtDeadline)
  | AtReap ((i, pid) :: todo) => Some (reap_child i pid todo m)
  | AtDeadline => Some (check_deadlines s m)
  | AtRespawn now [] => Some (goto m AtSleep)
  | AtRespawn now ((i, due_at) :: todo) =>
      Some (if (now <? due_at)%Z then goto m (AtRespawn now todo)
            else if spawn_ok
            then goto (spawn s i m) (RespawnSpawned now i (next_pid (world m)) todo)
            else OSError_return m)
  | RespawnSpawned now i pid todo =>
      Some (goto (with_children m (slot_set (children m) i pid) (started_at m))
              (RespawnStored now i todo))
  | RespawnStored now i todo =>
      Some (if slot_has (pending_respawns m) i
            then goto (with_pending m (slot_del (pending_respawns m) i)) (AtRespawn now todo)
            else goto m (Raised (Exn KeyError (str_nat i))))
  | AtSleep => Some (goto m AtHead)
  | Returned _ | Raised _ => None
  end.

(** [main] once the settings are read and the handlers are installed. *)
Definition boot (s : Settings) (now : Z) : Machine :=
  mkMachine (AtStart (seq 0 (Z.to_nat (count s)))) false 0 None None false [] ∅ [] ∅
    (mkWorld now ∅ 0).

Definition finished (m : Machine) : bool :=
  match pc m with Returned _ | Raised _ => true | _ => false end.

(** The main thread, the handler, time and the exits of processes. *)
Inductive step (s : Settings) (m : Machine) : Machine → Prop :=
  | step_main spawn_ok m' : main_step s spawn_ok m = Some m' → step s m m'
  | step_signal : finished m = false → step s m (request_stop s m)
  | step_time d : (0 < d)%Z →
      step s m (with_world m (mkWorld (clock (world m) + d) (procs (world m))
                                (next_pid (world m))))
  | step_exit pid code : is_alive (world m) pid = true →
      step s m (with_world m (mkWorld (clock (world m))
        (alter (λ p, mkProc (worker_id p) (Some code) (terminated p) (killed p)) pid
           (procs (world m))) (next_pid (world m)))).
End Pool.
