(* ===== verification/PoolSafety.v ===== *)
(** * What the pool guarantees

    Invariants of the machine of [Pool] under every interleaving of the main
    thread with signals, time and process exits, and the specifications of the
    settings parser and of the restart budget. *)
From S2P Require Import Prelude PyValue Json Pool.
Import Pool.

Module PoolSafety.

(** ** Dicts keyed by slot *)

Section slots.
Context {A : Type}.
Implicit Types (d : list (nat * A)).

Lemma slot_set_new d k v : k ∉ d.*1 → slot_set d k v = d ++ [(k, v)].
Proof.
  induction d as [|[k' v'] d IH]; [done|]. simpl. rewrite not_elem_of_cons.
  intros [Hne Hd]. rewrite (proj2 (Nat.eqb_neq _ _) Hne). by rewrite IH.
Qed.

Lemma elem_of_slot_set_keys d k v i : i ∈ (slot_set d k v).*1 ↔ i = k ∨ i ∈ d.*1.
Proof.
  induction d as [|[k' v'] d IH]; simpl; [set_solver|].
  destruct (Nat.eqb_spec k k') as [->|Hne]; simpl; rewrite !elem_of_cons; [tauto|].
  rewrite IH. tauto.
Qed.

Lemma NoDup_slot_set d k v : NoDup d.*1 → NoDup (slot_set d k v).*1.
Proof.
  induction d as [|[k' v'] d IH]; simpl; [intros _; apply NoDup_singleton|].
  rewrite NoDup_cons. intros [Hk' Hd]. destruct (Nat.eqb_spec k k') as [->|Hne]; simpl.
  - by apply NoDup_cons.
  - apply NoDup_cons. rewrite elem_of_slot_set_keys. split; [|auto]. intros [->|?]; done.
Qed.

Lemma elem_of_slot_del d k x : x ∈ slot_del d k ↔ x ∈ d ∧ x.1 ≠ k.
Proof. unfold slot_del. rewrite list_elem_of_filter. tauto. Qed.

Lemma elem_of_slot_del_keys d k i : i ∈ (slot_del d k).*1 ↔ i ∈ d.*1 ∧ i ≠ k.
Proof.
  rewrite !list_elem_of_fmap. setoid_rewrite elem_of_slot_del. naive_solver.
Qed.

Lemma NoDup_slot_del d k : NoDup d.*1 → NoDup (slot_del d k).*1.
Proof.
  induction d as [|[i x] d IH]; simpl; [done|]. rewrite NoDup_cons. intros [Hi Hd].
  unfold slot_del. rewrite filter_cons. simpl. case_decide; simpl; [|by apply IH].
  apply NoDup_cons. split; [|by apply IH].
  rewrite (elem_of_slot_del_keys d k i). naive_solver.
Qed.

Lemma NoDup_keys_fun d i x y : NoDup d.*1 → (i, x) ∈ d → (i, y) ∈ d → x = y.
Proof.
  intros Hnd [j Hj]%list_elem_of_lookup [k Hk]%list_elem_of_lookup.
  assert (j = k) as -> by (eapply (NoDup_lookup d.*1); rewrite ?list_lookup_fmap, ?Hj, ?Hk; done).
  congruence.
Qed.

Lemma slot_has_iff d k : slot_has d k = true ↔ k ∈ d.*1.
Proof. apply bool_decide_eq_true. Qed.
End slots.

(** ** Signals change no status *)

Definition same_process (p q : Proc) : Prop := worker_id p = worker_id q ∧ status p = status q.
Definition same_processes (w w' : World) : Prop :=
  clock w' = clock w ∧ next_pid w' = next_pid w ∧
  ∀ pid, option_Forall2 same_process (procs w !! pid) (procs w' !! pid).

#[export] Instance same_process_preorder : PreOrder same_process.
Proof. split; [by split|]. intros p q r [? ?] [? ?]. split; congruence. Qed.

#[export] Instance same_processes_preorder : PreOrder same_processes.
Proof.
  split.
  - intros w. split_and!; try done.
  - intros u v w (H1 & H2 & H3) (H4 & H5 & H6). split_and!; try congruence.
    intros pid. etransitivity; [apply H3|apply H6].
Qed.

Lemma send_same f pid w :
  (∀ p, same_process p (f p)) → same_processes w (send f pid w).
Proof.
  intros Hf. split_and!; try done. intros k. unfold send. simpl.
  rewrite lookup_alter. case_decide as Hk; [|done]. subst k.
  destruct (procs w !! pid) as [p|]; [|constructor]. simpl. constructor.
  by destruct (is_some (status p)).
Qed.

Lemma signal_all_same f children w :
  (∀ p, same_process p (f p)) → same_processes w (signal_all f children w).
Proof.
  intros Hf. unfold signal_all. induction children as [|[i pid] c IH]; simpl; [done|].
  etransitivity; [apply IH|by apply send_same].
Qed.

Lemma same_alive w w' pid : same_processes w w' → is_alive w' pid = is_alive w pid.
Proof.
  intros (_ & _ & H). unfold is_alive. specialize (H pid).
  destruct H as [p q [_ Hs]|]; [|done]. by rewrite Hs.
Qed.

(** ** The invariant of the machine *)

(** The process just started and not yet stored, the slots still to be started
    or scheduled, and the children the current loop has still to look at. *)
Definition hand_of (p : Pc) : list (nat * nat) :=
  match p with
  | StartSpawned i pid _ | RespawnSpawned _ i pid _ => [(i, pid)]
  | _ => []
  end.
Definition claimed_of (p : Pc) : list nat :=
  match p with
  | AtStart todo | StartSpawned _ _ todo => todo
  | AtRecord _ i _ _ | AtSchedule _ i _ _ => [i]
  | AtRespawn _ todo | RespawnSpawned _ _ _ todo | RespawnStored _ _ todo => todo.*1
  | _ => []
  end.
Definition snapshot_of (p : Pc) : list (nat * nat) :=
  match p with
  | AtPoll _ todo | AtRecord _ _ _ todo | AtSchedule _ _ _ todo | AtReap todo => todo
  | _ => []
  end.
Definition starting (p : Pc) : bool :=
  match p with AtStart _ | StartSpawned _ _ _ => true | _ => false end.
Definition stored (p : Pc) : option nat :=
  match p with RespawnStored _ i _ => Some i | _ => None end.

Definition tracked (m : Machine) : list (nat * nat) := hand_of (pc m) ++ children m.

(** Membership in concatenations of lists, propositionally. *)
Ltac mem_tauto Hj :=
  repeat first [rewrite elem_of_app in Hj | rewrite elem_of_cons in Hj];
  repeat first [rewrite elem_of_app | rewrite elem_of_cons]; rewrite ?elem_of_nil in Hj; tauto.

Section machine.
Context (s : Settings).

Definition slots_count : nat := Z.to_nat (count s).

Record Inv (m : Machine) : Prop := {
  i_nodup : NoDup (claimed_of (pc m) ++ (tracked m).*1);
  i_bound : ∀ i, i ∈ claimed_of (pc m) ++ (tracked m).*1 ++ (pending_respawns m).*1 →
              i < slots_count;
  i_snapshot : NoDup (snapshot_of (pc m)).*1 ∧ ∀ x, x ∈ snapshot_of (pc m) → x ∈ children m;
  i_pending : NoDup (pending_respawns m).*1;
  i_disjoint : ∀ i, i ∈ (pending_respawns m).*1 →
      i ∉ (children m).*1 ∨ stored (pc m) = Some i;
  i_start : starting (pc m) = true → pending_respawns m = [];
  i_stored : ∀ i, stored (pc m) = Some i → i ∈ (children m).*1;
  i_alive : ∀ pid, is_alive (world m) pid = true → ∃ i, (i, pid) ∈ tracked m;
  i_names : ∀ i pid, (i, pid) ∈ tracked m → ∃ p, procs (world m) !! pid = Some p ∧
      worker_id p = prefix s +:+ "-" +:+ str_nat (S i);
  i_pids : ∀ pid, is_Some (procs (world m) !! pid) → pid < next_pid (world m) }.

Lemma Inv_boot now : Inv (boot s now).
Proof.
  split; simpl.
  - rewrite app_nil_r. apply NoDup_seq.
  - intros i [Hi%elem_of_seq|Hi]%elem_of_app; [unfold slots_count; lia|].
    by apply elem_of_nil in Hi.
  - split; [constructor|]. intros x []%elem_of_nil.
  - constructor.
  - intros i []%elem_of_nil.
  - done.
  - done.
  - intros pid. unfold is_alive. simpl. by rewrite lookup_empty.
  - intros i pid []%elem_of_nil.
  - intros pid [? H]. simpl in H. by rewrite lookup_empty in H.
Qed.

(** The world may change as long as no process comes to life or is renamed. *)
Lemma Inv_world m w :
  Inv m → next_pid w = next_pid (world m) →
  (∀ pid, is_alive w pid = true → is_alive (world m) pid = true) →
  (∀ pid, option_Forall2 (λ p q, worker_id p = worker_id q)
            (procs (world m) !! pid) (procs w !! pid)) →
  Inv (with_world m w).
Proof.
  intros [H1 H2 H3 H4 H5 H0 H9 H6 H7 H8] Hn Ha Hp. split; try done.
  - intros pid Hal. by apply H6, Ha.
  - intros i pid Hin. destruct (H7 i pid Hin) as (p & Hpp & Hid). specialize (Hp pid).
    rewrite Hpp in Hp. inversion Hp as [p' q Heq Hq1 Hq2|]; subst.
    exists q. split; [done|]. by rewrite <- Heq.
  - intros pid Hs. simpl in *. rewrite Hn. apply H8. specialize (Hp pid).
    destruct Hs as [q Hq]. rewrite Hq in Hp. inversion Hp; eauto.
Qed.

Lemma Inv_same_world m w : Inv m → same_processes (world m) w → Inv (with_world m w).
Proof.
  intros HI Hs. apply Inv_world; [done|by destruct Hs as (_ & ? & _)| |].
  - intros pid. by rewrite (same_alive _ _ _ Hs).
  - intros pid. destruct Hs as (_ & _ & Hs). specialize (Hs pid).
    destruct Hs as [p q [? ?]|]; by constructor.
Qed.

Lemma Inv_goto m p :
  Inv m → hand_of p = hand_of (pc m) → (∃ l, claimed_of (pc m) = l ++ claimed_of p) →
  (NoDup (snapshot_of p).*1 ∧ ∀ x, x ∈ snapshot_of p → x ∈ children m) →
  (∀ i, stored (pc m) = Some i → i ∉ (pending_respawns m).*1) → stored p = None →
  starting p = false ∨ starting (pc m) = true →
  Inv (goto m p).
Proof.
  intros [H1 H2 H3 H4 H5 H0 H9 H6 H7 H8] Hh (l & Hl) Hs Hst Hsn Hsp.
  unfold tracked in *. split; simpl; unfold tracked; simpl; rewrite ?Hh; try done.
  - rewrite Hl, <- app_assoc in H1. by apply NoDup_app in H1 as (_ & _ & ?).
  - intros i Hi. apply H2. rewrite Hl. mem_tauto Hi.
  - intros i Hi. destruct (H5 i Hi) as [|Hs']; [by left|]. by destruct (Hst i Hs').
  - intros Hp. apply H0. destruct Hsp; congruence.
  - congruence.
Qed.

Lemma Inv_with_events m e : Inv m → Inv (with_events m e).
Proof. intros [H1 H2 H3 H4 H5 H0 H9 H6 H7 H8]. by split. Qed.

Lemma Inv_begin_stop m now c : Inv m → Inv (begin_stop s now c m).
Proof.
  intros HI. pose proof (signal_all_same sigterm (children m) (world m)) as Hsame.
  pose proof (Inv_same_world m _ HI (Hsame (λ p, conj eq_refl eq_refl))) as
    [H1 H2 H3 H4 H5 H0 H9 H6 H7 H8].
  split; simpl in *; try done.
  - intros i Hi. apply H2. simpl. mem_tauto Hi.
  - apply NoDup_nil_2.
  - intros i []%elem_of_nil.
Qed.

(** A process is started for a claimed slot. *)
Lemma Inv_spawn m i p :
  Inv m → hand_of (pc m) = [] → claimed_of (pc m) = i :: claimed_of p →
  hand_of p = [(i, next_pid (world m))] → snapshot_of p = [] → stored (pc m) = None →
  starting p = starting (pc m) →
  Inv (goto (spawn s i m) p).
Proof.
  intros [H1 H2 H3 H4 H5 H0 H9 H6 H7 H8] Hh Hc Hhp Hsp Hst Hstart. unfold tracked in *.
  rewrite Hh in *. rewrite Hc in *. simpl in *.
  assert (procs (world m) !! next_pid (world m) = None) as Hnew.
  { destruct (procs (world m) !! next_pid (world m)) eqn:E; [|done].
    assert (next_pid (world m) < next_pid (world m)) by (apply H8; eauto). lia. }
  split; simpl; unfold tracked; simpl; rewrite ?Hhp, ?Hsp; simpl; try done.
  - apply NoDup_cons in H1 as [Hi Hnd]. apply NoDup_app in Hnd as (Hn1 & Hn2 & Hn3).
    rewrite elem_of_app in Hi. apply NoDup_app. split; [done|].
    split; [|apply NoDup_cons; tauto].
    intros j Hj. rewrite elem_of_cons. intros [->|Hj']; [tauto|]. by apply (Hn2 j).
  - intros j Hj. apply H2. mem_tauto Hj.
  - split; [constructor|]. intros x []%elem_of_nil.
  - intros j Hj. destruct (H5 j Hj) as [?|?]; [by left|congruence].
  - by rewrite Hstart.
  - intros j Hj. by destruct p.
  - intros pid. unfold is_alive. simpl. destruct (decide (next_pid (world m) = pid)) as [<-|Hne].
    + exists i. apply elem_of_cons. by left.
    + rewrite lookup_insert_ne by done. intros Ha. destruct (H6 pid Ha) as [j Hj].
      exists j. apply elem_of_cons. by right.
  - intros j pid [[= -> ->]|Hin]%elem_of_cons.
    + eexists. by rewrite lookup_insert_eq.
    + destruct (H7 j pid Hin) as (q & Hq & Hid). exists q. split; [|done].
      rewrite lookup_insert_ne; [done|]. congruence.
  - intros pid. destruct (decide (next_pid (world m) = pid)) as [<-|Hne]; [lia|].
    rewrite lookup_insert_ne by done. intros Hp. specialize (H8 pid Hp). lia.
Qed.

(** The process in hand is stored under its slot. *)
Lemma Inv_store m i pid p :
  Inv m → hand_of (pc m) = [(i, pid)] → hand_of p = [] → claimed_of p = claimed_of (pc m) →
  snapshot_of p = [] → starting p = starting (pc m) →
  (stored p = Some i ∨ (stored p = None ∧ i ∉ (pending_respawns m).*1)) →
  stored (pc m) = None →
  Inv (goto (with_children m (slot_set (children m) i pid) (started_at m)) p).
Proof.
  intros [H1 H2 H3 H4 H5 H0 H9 H6 H7 H8] Hh Hhp Hc Hsp Hstart Hi Hst. unfold tracked in *.
  rewrite Hh in *. simpl in *.
  assert (i ∉ (children m).*1) as Hnew.
  { apply NoDup_app in H1 as (_ & _ & H1). by apply NoDup_cons in H1 as [? _]. }
  split; simpl; unfold tracked; simpl; rewrite ?Hhp, ?Hsp, ?Hc, ?slot_set_new by done;
    rewrite ?fmap_app; simpl; try done.
  - rewrite (Permutation_app_comm (children m).*1 [i]). exact H1.
  - intros j Hj. apply H2. mem_tauto Hj.
  - split; [constructor|]. intros x []%elem_of_nil.
  - intros j Hj. destruct (H5 j Hj) as [Hn|?]; [|congruence].
    destruct (decide (j = i)) as [->|Hne]; [destruct Hi as [?|[_ ?] ]; [by right|done]|left].
    rewrite elem_of_app, list_elem_of_singleton. tauto.
  - by rewrite Hstart.
  - intros j Hj. rewrite elem_of_app, list_elem_of_singleton.
    destruct Hi as [?|[? _] ]; [right|]; congruence.
  - intros q Ha. destruct (H6 q Ha) as [j Hj]. exists j.
    rewrite elem_of_app, list_elem_of_singleton. apply elem_of_cons in Hj. tauto.
  - intros j q Hin. apply H7. rewrite elem_of_app, list_elem_of_singleton in Hin.
    rewrite elem_of_cons. tauto.
Qed.

(** A child that has exited is dropped. *)
Lemma Inv_drop m i pid p todo :
  Inv m → hand_of (pc m) = [] → snapshot_of (pc m) = (i, pid) :: todo →
  is_alive (world m) pid = false → hand_of p = [] → snapshot_of p = todo →
  claimed_of (pc m) = [] → (claimed_of p = [] ∨ claimed_of p = [i]) →
  stored (pc m) = None → stored p = None → starting p = false →
  Inv (goto (with_children m (slot_del (children m) i) (delete i (started_at m))) p).
Proof.
  intros [H1 H2 H3 H4 H5 H0 H9 H6 H7 H8] Hh Hsn Hdead Hhp Hsp Hc Hcp Hst Hsp' Hstart.
  unfold tracked in *. rewrite Hh, Hsn, Hc in *. simpl in *. destruct H3 as [H3 H3'].
  apply NoDup_cons in H3 as [Hi3 H3].
  assert ((i, pid) ∈ children m) as Hin by (apply H3', elem_of_cons; by left).
  split; simpl; unfold tracked; simpl; rewrite ?Hhp, ?Hsp; simpl; try done.
  - apply NoDup_app. split_and!; [destruct Hcp as [-> | ->]; [constructor|apply NoDup_singleton]
      | |by apply NoDup_slot_del].
    intros j Hj. rewrite elem_of_slot_del_keys. intros [_ Hne]. apply Hne.
    destruct Hcp as [E|E]; rewrite E in Hj; [by apply elem_of_nil in Hj|].
    by apply list_elem_of_singleton.
  - intros j. rewrite !elem_of_app, elem_of_slot_del_keys.
    assert (i ∈ (children m).*1) as Hik by (apply list_elem_of_fmap; by exists (i, pid)).
    intros [Hj|[ [Hj _]|Hj] ]; apply H2; rewrite elem_of_app; [left|by left|by right].
    destruct Hcp as [E|E]; rewrite E in Hj; [by apply elem_of_nil in Hj|].
    by apply list_elem_of_singleton in Hj as ->.
  - split; [done|]. intros x Hx. apply elem_of_slot_del.
    split; [apply H3', elem_of_cons; by right|].
    intros <-. apply Hi3. apply list_elem_of_fmap. by exists x.
  - intros j Hj. left. rewrite elem_of_slot_del_keys. destruct (H5 j Hj); [tauto|congruence].
  - by rewrite Hstart.
  - intros j Hj. congruence.
  - intros q Ha. destruct (H6 q Ha) as [j Hj]. exists j. apply elem_of_slot_del.
    split; [done|]. simpl. intros ->.
    assert (q = pid) as -> by (eapply (NoDup_keys_fun (children m)); eauto). congruence.
  - intros j q [Hj _]%elem_of_slot_del. by apply H7.
Qed.

(** A respawn of a slot is scheduled. *)
Lemma Inv_schedule m i due todo now :
  Inv m → hand_of (pc m) = [] → snapshot_of (pc m) = todo → claimed_of (pc m) = [i] →
  stored (pc m) = None →
  Inv (goto (with_pending m (slot_set (pending_respawns m) i due)) (AtPoll now todo)).
Proof.
  intros [H1 H2 H3 H4 H5 H0 H9 H6 H7 H8] Hh Hsn Hc Hst. unfold tracked in *.
  rewrite Hh, Hc, ?Hsn in *. simpl in *. apply NoDup_cons in H1 as [Hi H1].
  split; simpl; unfold tracked; simpl; try done.
  - intros j [Hj|Hj%elem_of_slot_set_keys]%elem_of_app; apply H2.
    + mem_tauto Hj.
    + rewrite elem_of_cons, elem_of_app. tauto.
  - by apply NoDup_slot_set.
  - intros j [->|Hj]%elem_of_slot_set_keys; [by left|].
    destruct (H5 j Hj) as [?|?]; [by left|congruence].
Qed.

(** A respawn that is done is no longer pending. *)
Lemma Inv_unschedule m now i todo :
  Inv m → pc m = RespawnStored now i todo →
  Inv (goto (with_pending m (slot_del (pending_respawns m) i)) (AtRespawn now todo)).
Proof.
  intros [H1 H2 H3 H4 H5 H0 H9 H6 H7 H8] Hpc. unfold tracked in *. rewrite Hpc in *. simpl in *.
  split; simpl; unfold tracked; simpl; try done.
  - intros j Hj. apply H2. rewrite !elem_of_app, elem_of_slot_del_keys in Hj.
    rewrite !elem_of_app. tauto.
  - by apply NoDup_slot_del.
  - intros j [Hj Hne]%elem_of_slot_del_keys. left.
    destruct (H5 j Hj) as [?|?]; [done|congruence].
Qed.

(** The due respawns are collected. *)
Lemma Inv_collect m now :
  Inv m → pc m = AtStop → Inv (goto m (AtRespawn now (pending_respawns m))).
Proof.
  intros [H1 H2 H3 H4 H5 H0 H9 H6 H7 H8] Hpc. unfold tracked in *. rewrite Hpc in *. simpl in *.
  split; simpl; unfold tracked; simpl; try done.
  - apply NoDup_app. split_and!; try done. intros j Hj. by destruct (H5 j Hj).
  - intros j Hj. apply H2. mem_tauto Hj.
Qed.

Lemma poll_alive w pid : is_some (poll w pid) = true → is_alive w pid = false.
Proof.
  unfold poll, is_alive. destruct (procs w !! pid) as [p|]; simpl; [|done].
  by destruct (status p).
Qed.

(** Steps that only move the main thread on. *)
Ltac move_on Hpc :=
  apply Inv_goto; rewrite ?Hpc; simpl;
    [done|done|first [by exists [] | by eexists [_] | eexists; symmetry; apply app_nil_r]
    |first [by split; [constructor|intros ? []%elem_of_nil]|idtac]|done|done|by left].

Lemma record_exit_Inv m now i runtime todo :
  Inv m → pc m = AtRecord now i runtime todo → Inv (record_exit s now i runtime todo m).
Proof.
  intros HI Hpc. unfold record_exit. destruct (record s _ i now) as [r ev].
  pose proof (Inv_with_events m ev HI) as HI'.
  pose proof (i_snapshot _ HI') as Hsn. simpl in Hsn. rewrite Hpc in Hsn. simpl in Hsn.
  destruct (allowed r).
  - apply Inv_goto; simpl; rewrite ?Hpc; simpl; try done; [by exists []|by left].
  - pose proof (Inv_begin_stop _ now 2 HI') as HI2.
    apply Inv_goto; simpl; rewrite ?Hpc; simpl; try done;
      [by exists [i]|by split; [constructor|intros ? []%elem_of_nil]|by left].
Qed.

Lemma check_deadlines_Inv m : Inv m → pc m = AtDeadline → Inv (check_deadlines s m).
Proof.
  intros HI Hpc. unfold check_deadlines.
  assert (Inv (goto m AtSleep)) as Hsleep by (move_on Hpc).
  assert (∀ c, Inv (goto m (Returned c))) as Hret by (intros c; move_on Hpc).
  destruct (children m) as [|x c] eqn:Hch; [done|].
  destruct (shutdown_deadline m) as [d|]; [|done].
  destruct (negb _); [done|]. destruct (negb (kill_sent m)).
  - rewrite <- Hch. pose proof (signal_all_same sigkill (children m) (world m)) as Hsame.
    pose proof (Inv_same_world (goto m AtSleep) _ Hsleep (Hsame (λ p, conj eq_refl eq_refl)))
      as [H1 H2 H3 H4 H5 H0 H9 H6 H7 H8]. by split.
  - destruct (kill_deadline m) as [kd|]; [|done]. by case_match.
Qed.

Lemma main_step_Inv ok m m' : Inv m → main_step s ok m = Some m' → Inv m'.
Proof.
  intros HI Hstep. unfold main_step in Hstep.
  pose proof (i_snapshot _ HI) as Hsn. pose proof (i_start _ HI) as Hst0.
  destruct (pc m) as [[|i todo]|i pid todo| |now [|[i pid] todo]|now i runtime todo
    |now i delay todo| |[|[i pid] todo]| |now [|[i due] todo]|now i pid todo|now i todo
    | |code|e] eqn:Hpc; try discriminate Hstep; injection Hstep as <-; simpl in Hsn.
  - move_on Hpc.
  - destruct ok; [|move_on Hpc]. by apply Inv_spawn; rewrite ?Hpc.
  - apply Inv_store; rewrite ?Hpc; try done. right. split; [done|].
    rewrite Hst0 by done. apply not_elem_of_nil.
  - assert (Inv (goto m (AtPoll (clock (world m)) (children m)))) as Hpoll.
    { move_on Hpc. split; [|done]. pose proof (i_nodup _ HI) as Hnd. unfold tracked in Hnd.
      by rewrite Hpc in Hnd. }
    destruct (children m); [destruct (pending_respawns m); [move_on Hpc|done]|done].
  - move_on Hpc.
  - unfold poll_child. destruct (poll (world m) pid) eqn:Hp.
    + destruct Hsn as [Hnd Hsub].
      assert (is_alive (world m) pid = false) by (apply poll_alive; by rewrite Hp).
      by destruct (stopping _); eapply (Inv_drop m i pid); rewrite ?Hpc; try done; [left|right].
    + move_on Hpc. destruct Hsn as [Hnd Hsub]. simpl in Hnd. apply NoDup_cons in Hnd as [_ Hnd].
      split; [done|]. intros x Hx. apply Hsub, elem_of_cons. by right.
  - by apply record_exit_Inv.
  - by apply Inv_schedule; rewrite ?Hpc.
  - destruct (stopping m); [|by apply Inv_collect].
    move_on Hpc. split; [|done]. pose proof (i_nodup _ HI) as Hnd. unfold tracked in Hnd.
    by rewrite Hpc in Hnd.
  - move_on Hpc.
  - unfold reap_child. destruct (poll (world m) pid) eqn:Hp.
    + assert (is_alive (world m) pid = false) by (apply poll_alive; by rewrite Hp).
      by eapply (Inv_drop m i pid); rewrite ?Hpc; try done; left.
    + move_on Hpc. destruct Hsn as [Hnd Hsub]. simpl in Hnd. apply NoDup_cons in Hnd as [_ Hnd].
      split; [done|]. intros x Hx. apply Hsub, elem_of_cons. by right.
  - by apply check_deadlines_Inv.
  - move_on Hpc.
  - destruct (now <? due)%Z; [move_on Hpc|]. destruct ok; [|move_on Hpc].
    by apply Inv_spawn; rewrite ?Hpc.
  - apply Inv_store; rewrite ?Hpc; try done. by left.
  - destruct (slot_has _ _) eqn:Hhas; [by eapply Inv_unschedule|].
    apply Inv_goto; rewrite ?Hpc; simpl;
      [done|done|eexists; symmetry; apply app_nil_r
      |by split; [constructor|intros ? []%elem_of_nil]| |done|by left].
    intros j [= <-]. rewrite <- slot_has_iff. congruence.
  - move_on Hpc.
Qed.

Lemma step_Inv m m' : Inv m → step s m m' → Inv m'.
Proof.
  intros HI Hstep. destruct Hstep as [ok m' Hm|_|d Hd|pid code Hpid].
  - by eapply main_step_Inv.
  - unfold request_stop. destruct (stopping m); [done|by apply Inv_begin_stop].
  - apply Inv_world; try done. intros pid. simpl.
    by destruct (procs (world m) !! pid); constructor.
  - apply Inv_world; try done.
    + intros q. unfold is_alive. simpl. rewrite lookup_alter.
      case_decide; [|done]. by destruct (procs (world m) !! _).
    + intros q. simpl. rewrite lookup_alter. case_decide as Hq; [subst q|];
        by destruct (procs (world m) !! _); constructor.
Qed.

(** ** Stopping, exit codes and kills *)

(** The pending respawns the respawn loop still relies on. *)
Definition relied_of (p : Pc) : list nat :=
  match p with
  | AtRespawn _ todo => todo.*1
  | RespawnSpawned _ i _ todo | RespawnStored _ i todo => i :: todo.*1
  | _ => []
  end.

(** While the pool is not stopping no slot is forgotten. *)
Record Cover (m : Machine) : Prop := {
  f_relied : stopping m = false → ∀ i, i ∈ relied_of (pc m) → i ∈ (pending_respawns m).*1;
  f_cover : stopping m = false → finished m = false → ∀ i, i < slots_count →
    i ∈ claimed_of (pc m) ++ (tracked m).*1 ++ (pending_respawns m).*1 }.

(** The flags, the exit code and the deadlines. *)
Record Flags (m : Machine) : Prop := {
  f_raised : ∀ e, pc m = Raised e → stopping m = true ∧ exn_cls e = KeyError;
  f_code : exit_code m = 0%Z ∨ (exit_code m = 2%Z ∧ stopping m = true);
  f_done : ∀ c, pc m = Returned c →
    c = 2%Z ∨ (c = exit_code m ∧ children m = [] ∧ stopping m = true);
  f_branch : match pc m with
    | AtReap _ | AtDeadline => stopping m = true
    | AtRecord _ _ _ _ => kill_sent m = false
    | _ => True end;
  f_kill : kill_sent m = true → stopping m = true ∧ ∃ d kd,
    shutdown_deadline m = Some d ∧ kill_deadline m = Some kd ∧
    (d + kill_grace_seconds s * second ≤ kd ≤
     clock (world m) + kill_grace_seconds s * second)%Z;
  f_killed : ∀ pid p, procs (world m) !! pid = Some p → killed p = true →
    kill_sent m = true }.

Lemma Cover_boot now : Cover (boot s now).
Proof.
  split; simpl; [intros _ i Hi; by apply elem_of_nil in Hi|].
  intros _ _ i Hi. rewrite app_nil_r. apply elem_of_seq. unfold slots_count in Hi. lia.
Qed.

Lemma Flags_boot now : Flags (boot s now).
Proof. split; simpl; try done. by left. Qed.

(** Sending a signal other than SIGKILL kills nothing. *)
Lemma sigterm_killed children w pid p :
  procs (signal_all sigterm children w) !! pid = Some p →
  ∃ q, procs w !! pid = Some q ∧ killed q = killed p.
Proof.
  unfold signal_all. revert p. induction children as [|[i k] c IH]; simpl; intros p Hp; [by exists p|].
  rewrite lookup_alter in Hp. case_decide as Hk; [subst k|by apply IH].
  destruct (procs (foldr (send sigterm) w _) !! pid) as [q|] eqn:Hq; [|done].
  simpl in Hp. destruct (IH q eq_refl) as (q' & Hq' & Hkq). exists q'. split; [done|].
  injection Hp as <-. destruct (is_some (status q)); done.
Qed.

Lemma Flags_begin_stop m now c :
  Flags m → (c = 0%Z ∨ c = 2%Z) → finished m = false → kill_sent m = false →
  Flags (begin_stop s now c m).
Proof.
  intros [F1 F2 F3 F4 F5 F6] Hc Hf Hs. unfold finished in Hf. split; simpl; try done.
  - intros e He. by rewrite He in Hf.
  - tauto.
  - intros c' Hc'. by rewrite Hc' in Hf.
  - by case_match.
  - intros Hk. congruence.
  - intros pid p Hp Hk. destruct (sigterm_killed _ _ _ _ Hp) as (q & Hq & Heq).
    eapply F6; [exact Hq|]. congruence.
Qed.

(** Steps that leave the flags and the clock alone. *)
Lemma Flags_keep m m' :
  Flags m → stopping m' = stopping m → exit_code m' = exit_code m →
  shutdown_deadline m' = shutdown_deadline m → kill_deadline m' = kill_deadline m →
  kill_sent m' = kill_sent m → (clock (world m) ≤ clock (world m'))%Z →
  (∀ pid p, procs (world m') !! pid = Some p → killed p = true →
     ∃ q, procs (world m) !! pid = Some q ∧ killed q = true) →
  match pc m' with
  | Raised e => stopping m = true ∧ exn_cls e = KeyError
  | Returned c => c = 2%Z ∨ (c = exit_code m ∧ children m' = [] ∧ stopping m = true)
  | AtReap _ | AtDeadline => stopping m = true
  | AtRecord _ _ _ _ => kill_sent m = false
  | _ => True
  end → Flags m'.
Proof.
  intros [F1 F2 F3 F4 F5 F6] E1 E2 E3 E4 E5 Hc Hp Hpc.
  split; rewrite ?E1, ?E2, ?E3, ?E4, ?E5; try done.
  - intros e He. by rewrite He in Hpc.
  - intros c Hc'. by rewrite Hc' in Hpc.
  - by destruct (pc m').
  - intros Hk. destruct (F5 Hk) as (Hs & d & kd & H1 & H2 & H3 & H4). split; [done|].
    exists d, kd. split_and!; [done|done|done|lia].
  - intros pid p Hpp Hk. destruct (Hp pid p Hpp Hk) as (q & Hq & Hkq). by eapply F6.
Qed.

Lemma record_exit_Flags m now i runtime todo :
  Flags m → pc m = AtRecord now i runtime todo →
  Flags (record_exit s now i runtime todo m).
Proof.
  intros HF Hpc. pose proof (f_branch _ HF) as Hks. rewrite Hpc in Hks. unfold record_exit. destruct (record s _ i now) as [r ev].
  assert (Flags (with_events m ev)) as HF'.
  { apply (Flags_keep m); try done; simpl; [eauto|by rewrite Hpc]. }
  destruct (allowed r); [apply (Flags_keep m); try done; by eauto|].
  assert (Flags (begin_stop s now 2 (with_events m ev))) as HF2.
  { apply Flags_begin_stop; [done|by right| |done]. unfold finished. simpl. by rewrite Hpc. }
  apply (Flags_keep (begin_stop s now 2 (with_events m ev))); try done. by eauto.
Qed.

Ltac keep m := apply (Flags_keep m); try done; simpl; eauto.

Lemma Flags_spawn m i p :
  Flags m → match p with StartSpawned _ _ _ | RespawnSpawned _ _ _ _ => True | _ => False end →
  Flags (goto (spawn s i m) p).
Proof.
  intros HF Hp. keep m; [|by destruct p].
  intros pid q Hq Hk. apply lookup_insert_Some in Hq as [[_ <-]|[_ Hq] ]; [done|eauto].
Qed.

Lemma check_deadlines_Flags m :
  Flags m → pc m = AtDeadline → Flags (check_deadlines s m).
Proof.
  intros HF Hpc. pose proof (f_branch _ HF) as Hs. rewrite Hpc in Hs.
  unfold check_deadlines. assert (Flags (goto m AtSleep)) as Hsl by keep m.
  destruct (children m) as [|x c] eqn:Hch; [keep m|].
  destruct (shutdown_deadline m) as [d|] eqn:Hd; [|done].
  destruct (Z.leb_spec d (clock (world m))) as [Hle|]; [simpl|done].
  destruct (kill_sent m) eqn:Hk; simpl.
  - destruct (kill_deadline m) as [kd|] eqn:Hkd; [|done].
    case_match; [|done]. keep m.
  - destruct HF as [F1 F2 F3 F4 F5 F6].
    pose proof (signal_all_same sigkill (children m) (world m) (λ p, conj eq_refl eq_refl))
      as (Hclk & _ & _). rewrite Hch in Hclk.
    split; simpl; try done. intros _. split; [done|].
    exists d, (clock (world m) + kill_grace_seconds s * second)%Z.
    split_and!; [done|done|lia|].
    unfold signal_all in Hclk. simpl in Hclk. rewrite Hclk. lia.
Qed.

Lemma main_step_Flags ok m m' :
  (1 ≤ count s)%Z → Inv m → Cover m → Flags m → main_step s ok m = Some m' → Flags m'.
Proof.
  intros Hn HI HC HF Hstep. unfold main_step in Hstep. pose proof (f_branch _ HF) as Hbr.
  destruct (pc m) as [[|i todo]|i pid todo| |now [|[i pid] todo]|now i runtime todo
    |now i delay todo| |[|[i pid] todo]| |now [|[i due] todo]|now i pid todo|now i todo
    | |code|e] eqn:Hpc; try discriminate Hstep; injection Hstep as <-.
  - keep m.
  - destruct ok; [by apply Flags_spawn|keep m].
  - keep m.
  - assert (children m = [] → pending_respawns m = [] → stopping m = true) as Hst.
    { intros Hc Hp. apply not_false_iff_true. intros Hs.
      assert (finished m = false) as Hf by (unfold finished; by rewrite Hpc).
      pose proof (f_cover _ HC Hs Hf 0) as H0. unfold tracked in H0.
      rewrite Hpc, Hc, Hp in H0. unfold slots_count in H0.
      assert (0 < Z.to_nat (count s)) as Hpos by lia. by apply H0, elem_of_nil in Hpos. }
    destruct (children m) eqn:Hc; [destruct (pending_respawns m) eqn:Hp|]; keep m.
  - keep m.
  - unfold poll_child. destruct (poll (world m) pid); [|keep m].
    destruct (stopping m) eqn:Hs; simpl; rewrite Hs; keep m.
    apply not_true_iff_false. intros Hk. destruct (f_kill _ HF Hk). congruence.
  - by apply record_exit_Flags.
  - keep m.
  - destruct (stopping m) eqn:Hs; keep m.
  - keep m.
  - unfold reap_child. destruct (poll (world m) pid); keep m.
  - by apply check_deadlines_Flags.
  - keep m.
  - destruct (now <? due)%Z; [keep m|]. destruct ok; [by apply Flags_spawn|keep m].
  - keep m.
  - destruct (slot_has _ _) eqn:Hhas; [keep m|]. keep m. split; [|done].
    apply not_false_iff_true. intros Hs.
    pose proof (f_relied _ HC Hs i) as Hi. rewrite Hpc in Hi. simpl in Hi.
    assert (i ∈ (pending_respawns m).*1) as Hin by (apply Hi, elem_of_cons; by left).
    apply slot_has_iff in Hin. congruence.
  - keep m.
Qed.

(** *** Coverage *)

Lemma Cover_stopping m : stopping m = true → Cover m.
Proof. intros Hs. split; congruence. Qed.

Lemma Cover_finished m : finished m = true → Cover m.
Proof.
  intros Hf. split; [|congruence]. intros _ i Hi. unfold finished in Hf.
  by destruct (pc m); try done; apply elem_of_nil in Hi.
Qed.

Definition covered (m : Machine) : list nat :=
  claimed_of (pc m) ++ (tracked m).*1 ++ (pending_respawns m).*1.

(** A step keeps every slot, and the slots the respawn loop relies on. *)
Lemma Cover_change m m' :
  Cover m → finished m = false → (stopping m' = false → stopping m = false) →
  (∀ i, i ∈ relied_of (pc m') →
     (∀ j, j ∈ relied_of (pc m) → j ∈ (pending_respawns m).*1) →
     i ∈ (pending_respawns m').*1) →
  ((∀ j, j ∈ relied_of (pc m) → j ∈ (pending_respawns m).*1) →
   ∀ i, i ∈ covered m → i ∈ covered m') → Cover m'.
Proof.
  intros [F1 F2] Hf Hst Hrel Hcov. split; [eauto|]. intros Hs _ i Hi.
  apply Hcov; [auto|]. apply F2; auto.
Qed.

Ltac cover :=
  unfold covered, tracked; intros ?i; simpl;
  repeat first [rewrite elem_of_app | rewrite elem_of_cons | rewrite fmap_app
    | rewrite elem_of_slot_set_keys | rewrite elem_of_slot_del_keys];
  rewrite ?elem_of_nil; simpl; try tauto.

(** Steps that move no slot. *)
Ltac cov_step Hpc :=
  eapply Cover_change; [eassumption|by unfold finished; rewrite Hpc|done
    |simpl; rewrite Hpc; simpl; try by intros ? []%elem_of_nil
    |try (unfold covered, tracked; simpl; rewrite Hpc; intros _; cover; fail)].

Lemma main_step_Cover ok m m' :
  Inv m → Flags m → Cover m → main_step s ok m = Some m' → Cover m'.
Proof.
  intros HI HF HC Hstep. unfold main_step in Hstep. pose proof (f_branch _ HF) as Hbr.
  destruct (pc m) as [[|i todo]|i pid todo| |now [|[i pid] todo]|now i runtime todo
    |now i delay todo| |[|[i pid] todo]| |now [|[i due] todo]|now i pid todo|now i todo
    | |code|e] eqn:Hpc; try discriminate Hstep; injection Hstep as <-.
  - cov_step Hpc.
  - destruct ok; [cov_step Hpc|by apply Cover_finished].
  - cov_step Hpc.
  - destruct (children m) eqn:Hc; [destruct (pending_respawns m) eqn:Hp|]; [by apply Cover_finished|cov_step Hpc..].
  - cov_step Hpc.
  - unfold poll_child. destruct (poll (world m) pid); [|cov_step Hpc].
    destruct (stopping m) eqn:Hs; [by apply Cover_stopping; simpl; rewrite Hs|].
    simpl. rewrite Hs. cov_step Hpc. unfold covered, tracked. simpl. rewrite Hpc. intros _. cover.
    match goal with |- context [?j = i] => destruct (decide (j = i)) end; tauto.
  - unfold record_exit. destruct (record s _ i now) as [r ev].
    destruct (allowed r); [cov_step Hpc|by apply Cover_stopping].
  - cov_step Hpc.
  - destruct (stopping m) eqn:Hs; [by apply Cover_stopping|].
    eapply Cover_change; [eassumption|by unfold finished; rewrite Hpc|done|simpl; auto|].
    unfold covered, tracked. simpl. rewrite Hpc. intros _. cover.
  - cov_step Hpc.
  - apply Cover_stopping. unfold reap_child. by destruct (poll (world m) pid).
  - apply Cover_stopping. unfold check_deadlines. by repeat case_match.
  - cov_step Hpc.
  - destruct (now <? due)%Z.
    + cov_step Hpc; [intros j Hj Hall; apply Hall, elem_of_cons; by right|].
      unfold covered, tracked. simpl. rewrite Hpc. simpl. intros Hrel j.
      pose proof (Hrel j) as Hj. revert j Hj. cover.
    + destruct ok; [cov_step Hpc|by apply Cover_finished].
      intros j Hj Hall. by apply Hall.
  - cov_step Hpc. intros j Hj Hall. by apply Hall.
  - destruct (slot_has _ _) eqn:Hhas; [|by apply Cover_finished].
    pose proof (i_nodup _ HI) as Hnd. pose proof (i_stored _ HI i) as Hin.
    unfold tracked in Hnd. rewrite Hpc in Hnd, Hin. simpl in Hnd, Hin.
    apply NoDup_app in Hnd as (_ & Hnd & _). cov_step Hpc.
    + intros j Hj Hall. apply elem_of_slot_del_keys. split; [by apply Hall, elem_of_cons; right|].
      intros ->. by apply (Hnd i Hj), Hin.
    + unfold covered, tracked. simpl. rewrite Hpc. intros _. specialize (Hin eq_refl). cover.
      match goal with |- context [?j = i] => destruct (decide (j = i)) as [->|] end; tauto.
  - cov_step Hpc.
Qed.

Lemma step_Flags m m' :
  (1 ≤ count s)%Z → Inv m → Cover m → Flags m → step s m m' → Flags m'.
Proof.
  intros Hn HI HC HF Hstep. pose proof (f_done _ HF) as Hd. pose proof (f_raised _ HF) as Hr.
  pose proof (f_branch _ HF) as Hb. destruct Hstep as [ok m' Hm|Hf|d Hd'|pid code Hpid].
  - by eapply main_step_Flags.
  - unfold request_stop. destruct (stopping m) eqn:Hs; [done|].
    apply Flags_begin_stop; [done| |done|].
    + destruct (f_code _ HF) as [?|[_ ?] ]; [by left|congruence].
    + apply not_true_iff_false. intros Hk. destruct (f_kill _ HF Hk). congruence.
  - apply (Flags_keep m); try done; simpl; [lia|eauto|].
    destruct (pc m); try done; [by apply Hd|by apply Hr].
  - apply (Flags_keep m); try done; simpl; [| destruct (pc m); try done; [by apply Hd|by apply Hr] ].
    intros q p Hp Hk. rewrite lookup_alter in Hp. case_decide; [subst q|by eauto].
    destruct (procs (world m) !! pid) as [p0|]; [|done]. injection Hp as <-. by exists p0.
Qed.

Lemma step_Cover m m' : Inv m → Flags m → Cover m → step s m m' → Cover m'.
Proof.
  intros HI HF HC Hstep. destruct Hstep as [ok m' Hm|Hf|d Hd|pid code Hpid].
  - by eapply main_step_Cover.
  - unfold request_stop. destruct (stopping m); [done|by apply Cover_stopping].
  - destruct HC as [H1 H2]. by split.
  - destruct HC as [H1 H2]. by split.
Qed.

(** ** Runs *)

Record Good (m : Machine) : Prop := { g_inv : Inv m; g_cover : Cover m; g_flags : Flags m }.

Lemma run_Good now m :
  (1 ≤ count s)%Z → rtc (step s) (boot s now) m → Good m.
Proof.
  intros Hn Hrun. apply (rtc_inv (step s) Good (boot s now)); [|
    split; [apply Inv_boot|apply Cover_boot|apply Flags_boot]|done].
  intros a b [HI HC HF] Hab. split; eauto using step_Inv, step_Cover, step_Flags.
Qed.

(** Runs in which signals arrive only outside the loop that starts respawns. *)
Inductive calm_step (m m' : Machine) : Prop :=
  | calm_main ok : main_step s ok m = Some m' → calm_step m m'
  | calm_other : step s m m' → relied_of (pc m) = [] → calm_step m m'
  | calm_world w : m' = with_world m w → step s m m' → calm_step m m'.

Definition Calm (m : Machine) : Prop :=
  (stopping m = true → relied_of (pc m) = []) ∧ ∀ e, pc m ≠ Raised e.

Lemma main_step_calm ok m m' :
  Cover m → Calm m → main_step s ok m = Some m' → Calm m'.
Proof.
  intros HC [Hc Hr] Hstep. unfold main_step in Hstep.
  destruct (pc m) as [[|i todo]|i pid todo| |now [|[i pid] todo]|now i runtime todo
    |now i delay todo| |[|[i pid] todo]| |now [|[i due] todo]|now i pid todo|now i todo
    | |code|e] eqn:Hpc; try discriminate Hstep; injection Hstep as <-; try by split.
  - by destruct ok.
  - destruct (children m); [by destruct (pending_respawns m)|by split].
  - unfold poll_child. destruct (poll _ _); [|by split]. simpl. by destruct (stopping m).
  - unfold record_exit. destruct (record s _ i now) as [r ev]. by destruct (allowed r).
  - destruct (stopping m) eqn:Hs; split; simpl; try done. congruence.
  - unfold check_deadlines. by repeat case_match.
  - simpl in Hc. destruct (now <? due)%Z; [|destruct ok]; split; simpl; try done;
      intros Hs; by specialize (Hc Hs).
  - simpl in Hc. destruct (slot_has _ _) eqn:Hhas.
    + split; simpl; [|done]. intros Hs. by specialize (Hc Hs).
    + exfalso. destruct (stopping m) eqn:Hs; [by specialize (Hc eq_refl)|].
      pose proof (f_relied _ HC Hs i) as Hi. rewrite Hpc in Hi.
      assert (i ∈ (pending_respawns m).*1) as Hin by (apply Hi, elem_of_cons; by left).
      apply slot_has_iff in Hin. congruence.
Qed.

Lemma calm_run_Calm now m :
  (1 ≤ count s)%Z → rtc calm_step (boot s now) m → Calm m.
Proof.
  intros Hn Hrun.
  cut (Good m ∧ Calm m); [tauto|].
  apply (rtc_inv calm_step (λ m, Good m ∧ Calm m) (boot s now)); [|
    split; [split; [apply Inv_boot|apply Cover_boot|apply Flags_boot]|by split]|done].
  intros a b [ [HI HC HF] Hc] Hab.
  assert (step s a b) as Hst by (destruct Hab; [by eapply step_main|done|done]).
  split; [split; eauto using step_Inv, step_Cover, step_Flags|].
  destruct Hab as [ok Hm|Hs Hrel|w -> _]; [by eapply main_step_calm| |exact Hc].
  destruct Hs as [ok m' Hm|Hf|d Hd|pid code Hpid]; [by eapply main_step_calm| |exact Hc|exact Hc].
  unfold request_stop. destruct (stopping a); [done|]. by destruct Hc.
Qed.

(** *** No process is started once the loop has seen the stop *)

Definition may_start (p : Pc) : bool :=
  match p with
  | AtStart _ | StartSpawned _ _ _ | AtRespawn _ _ | RespawnSpawned _ _ _ _
  | RespawnStored _ _ _ => true
  | _ => false
  end.

Lemma signal_all_next f children w : next_pid (signal_all f children w) = next_pid w.
Proof. unfold signal_all. by induction children as [|x c IH]. Qed.

Lemma stopped_step m m' :
  stopping m = true → may_start (pc m) = false → step s m m' →
  stopping m' = true ∧ may_start (pc m') = false ∧ next_pid (world m') = next_pid (world m).
Proof.
  intros Hs Hms Hstep. destruct Hstep as [ok m' Hstep|Hf|d Hd|pid code Hpid];
    [|unfold request_stop; by rewrite Hs|done|done].
  unfold main_step in Hstep.
  destruct (pc m) as [[|i todo]|i pid todo| |now [|[i pid] todo]|now i runtime todo
    |now i delay todo| |[|[i pid] todo]| |now [|[i due] todo]|now i pid todo|now i todo
    | |code|e] eqn:Hpc; try discriminate Hstep; try discriminate Hms; injection Hstep as <-;
    try done.
  - destruct (children m); [by destruct (pending_respawns m)|done].
  - unfold poll_child. destruct (poll _ _); [|done]. simpl. by rewrite Hs.
  - unfold record_exit. destruct (record s _ i now) as [r ev]. destruct (allowed r); [done|].
    split_and!; [done|done|apply signal_all_next].
  - by rewrite Hs.
  - unfold reap_child. by destruct (poll _ _).
  - unfold check_deadlines. repeat case_match; try done.
    split_and!; [done|done|apply signal_all_next].
Qed.

(** *** Before a stop no process has been signalled *)

Definition unsignalled (p : Proc) : Prop := terminated p = false ∧ killed p = false.
Definition Quiet (m : Machine) : Prop :=
  stopping m = false → map_Forall (λ _, unsignalled) (procs (world m)).

Lemma step_Quiet m m' : Flags m → Quiet m → step s m m' → Quiet m'.
Proof.
  intros HF HQ Hstep. pose proof (f_branch _ HF) as Hbr.
  destruct Hstep as [ok m' Hm|Hf|d Hd|pid code Hpid].
  - unfold main_step in Hm.
    destruct (pc m) as [[|i todo]|i pid todo| |now [|[i pid] todo]|now i runtime todo
      |now i delay todo| |[|[i pid] todo]| |now [|[i due] todo]|now i pid todo|now i todo
      | |code|e] eqn:Hpc; try discriminate Hm; injection Hm as <-; try exact HQ.
    + destruct ok; [|exact HQ]. intros Hs. by apply map_Forall_insert_2; [|apply HQ].
    + unfold poll_child. destruct (poll _ _); exact HQ.
    + unfold record_exit. destruct (record s _ i now) as [r ev]. by destruct (allowed r).
    + unfold reap_child. destruct (poll _ _); exact HQ.
    + intros Hs. assert (stopping m = false) as Hs' by (revert Hs; unfold check_deadlines;
        repeat case_match; done). congruence.
    + destruct (now <? due)%Z; [exact HQ|]. destruct ok; [|exact HQ].
      intros Hs. by apply map_Forall_insert_2; [|apply HQ].
    + destruct (slot_has _ _); exact HQ.
  - unfold request_stop. destruct (stopping m) eqn:Hs; [exact HQ|done].
  - exact HQ.
  - intros Hs q p. simpl. rewrite lookup_alter. case_decide as Hq; [subst q|by apply HQ].
    destruct (procs (world m) !! pid) as [p0|] eqn:Hp; [|done]. intros [= <-].
    exact (HQ Hs pid p0 Hp).
Qed.

Lemma run_Quiet now m :
  (1 ≤ count s)%Z → rtc (step s) (boot s now) m → Quiet m.
Proof.
  intros Hn Hrun. cut (Good m ∧ Quiet m); [tauto|].
  apply (rtc_inv (step s) (λ m, Good m ∧ Quiet m) (boot s now)); [|
    split; [split; [apply Inv_boot|apply Cover_boot|apply Flags_boot]|
      intros _; apply map_Forall_empty]|done].
  intros a b [ [HI HC HF] HQ] Hab.
  split; [split; eauto using step_Inv, step_Cover, step_Flags|by apply (step_Quiet a)].
Qed.

(** A signal to the children leaves every other process as it was. *)
Lemma signal_all_other f (l : list (nat * nat)) w pid :
  pid ∉ l.*2 → procs (signal_all f l w) !! pid = procs w !! pid.
Proof.
  unfold signal_all. induction l as [|[i q] l IH]; [done|]. simpl.
  rewrite not_elem_of_cons. intros [Hne Hl]. rewrite lookup_alter_ne by congruence. auto.
Qed.

(** *** A stop inside the respawn loop

    The slot whose respawn is under way, the process started or about to be
    started for it, and whether the process is already stored. *)
Definition respawning (m : Machine) : option (nat * nat) :=
  match pc m with
  | RespawnSpawned _ i pid _ => Some (i, pid)
  | AtRespawn now todo =>
      match List.find (λ x, (x.2 <=? now)%Z) todo with
      | Some (i, _) => Some (i, next_pid (world m))
      | None => None
      end
  | _ => None
  end.

(** The main thread alone, every [Popen] succeeding. *)
Definition main_run (m m' : Machine) : Prop := main_step s true m = Some m'.

(** The loop goes over its snapshot although nothing is pending any more. *)
Lemma run_to_due m now todo i due :
  List.find (λ x, (x.2 <=? now)%Z) todo = Some (i, due) →
  (due <=? now)%Z = true ∧ ∃ rest,
    rtc main_run (goto m (AtRespawn now todo)) (goto m (AtRespawn now ((i, due) :: rest))).
Proof.
  induction todo as [|[j d] todo IH]; [done|]. simpl.
  destruct (d <=? now)%Z eqn:Hd; [intros [= -> ->]; split; [done|by exists todo]|].
  intros (Hdue & rest & Hrun)%IH. split; [done|]. exists rest.
  eapply rtc_l; [|exact Hrun]. unfold main_run, main_step. simpl.
  by assert ((now <? d)%Z = true) as -> by lia.
Qed.

(** A process in hand, and nothing pending: the dict raises. *)
Lemma hand_raises m now i pid todo :
  pc m = RespawnSpawned now i pid todo → pending_respawns m = [] →
  ∃ m', rtc main_run m m' ∧ pc m' = Raised (Exn KeyError (str_nat i)) ∧ world m' = world m.
Proof.
  intros Hpc Hp. eexists. split.
  - eapply rtc_l; [unfold main_run, main_step; by rewrite Hpc|].
    eapply rtc_once. unfold main_run, main_step. simpl. by rewrite Hp.
  - done.
Qed.

(** Nothing more happens to a process once the supervisor has raised, but its
    exit. *)
Lemma raised_forever m m' e pid p :
  pc m = Raised e → procs (world m) !! pid = Some p → rtc (step s) m m' →
  pc m' = Raised e ∧ ∃ p', procs (world m') !! pid = Some p' ∧ worker_id p' = worker_id p ∧
    terminated p' = terminated p ∧ killed p' = killed p.
Proof.
  intros Hpc Hp Hrun. revert p Hpc Hp. induction Hrun as [m|m m1 m2 Hst _ IH]; [intros p ? ?; split; [done|by exists p]|].
  intros p Hpc Hp. destruct Hst as [ok m' Hm|Hf|d Hd|q code Hq].
  - unfold main_step in Hm. by rewrite Hpc in Hm.
  - unfold finished in Hf. by rewrite Hpc in Hf.
  - by apply IH.
  - destruct (decide (q = pid)) as [->|Hne].
    + apply (IH (mkProc (worker_id p) (Some code) (terminated p) (killed p)) Hpc).
      simpl. by rewrite lookup_alter_eq, Hp.
    + apply IH; [done|]. simpl. by rewrite lookup_alter_ne.
Qed.

(** *** Live processes and their slots *)

Lemma NoDup_bounded (l : list nat) n : NoDup l → (∀ i, i ∈ l → i < n) → length l ≤ n.
Proof.
  intros Hnd Hlt. rewrite <- (length_seq n 0).
  apply submseteq_length, NoDup_submseteq; [done|]. intros i Hi. apply elem_of_seq.
  specialize (Hlt i Hi). lia.
Qed.

Lemma tracked_length m : Inv m → length (tracked m) ≤ slots_count.
Proof.
  intros HI. rewrite <- (length_fmap fst). apply NoDup_bounded.
  - pose proof (i_nodup _ HI) as Hnd. by apply NoDup_app in Hnd as (_ & _ & ?).
  - intros i Hi. apply (i_bound _ HI). rewrite !elem_of_app. tauto.
Qed.

Lemma alive_length m (l : list nat) :
  Inv m → NoDup l → (∀ pid, pid ∈ l → is_alive (world m) pid = true) →
  length l ≤ slots_count.
Proof.
  intros HI Hnd Hal. etransitivity; [|by apply tracked_length].
  rewrite <- (length_fmap snd). apply submseteq_length, NoDup_submseteq; [done|].
  intros pid Hpid. destruct (i_alive _ HI pid (Hal pid Hpid)) as [i Hi].
  apply list_elem_of_fmap. by exists (i, pid).
Qed.

Lemma app_str_inj (x t u : string) : x +:+ t = x +:+ u → t = u.
Proof.
  induction x as [|c x IH]; [done|]. rewrite !app_cons_str. intros [= H]. auto.
Qed.

Lemma worker_id_inj i j :
  prefix s +:+ "-" +:+ str_nat (S i) = prefix s +:+ "-" +:+ str_nat (S j) → i = j.
Proof.
  intros H%app_str_inj%app_str_inj. unfold str_nat in H. apply (inj pretty) in H. lia.
Qed.

(** The process in hand is not a child yet. *)
Lemma hand_not_child m i pid :
  Inv m → hand_of (pc m) = [(i, pid)] → pid ∉ (children m).*2.
Proof.
  intros HI Hh [[j q] [-> Hj]]%list_elem_of_fmap. simpl in Hh.
  assert ((i, q) ∈ tracked m) as Hi by (unfold tracked; rewrite Hh; by left).
  assert ((j, q) ∈ tracked m) as Hj' by (unfold tracked; rewrite Hh; by right).
  destruct (i_names _ HI i q Hi) as (p & Hp & Hid), (i_names _ HI j q Hj') as (p' & Hp' & Hid').
  assert (i = j) as <- by (apply worker_id_inj; congruence).
  pose proof (i_nodup _ HI) as Hnd. apply NoDup_app in Hnd as (_ & _ & Hnd).
  unfold tracked in Hnd. rewrite Hh in Hnd. apply NoDup_cons in Hnd as [Hnew _].
  apply Hnew, list_elem_of_fmap. by exists (i, q).
Qed.

Lemma alive_worker_id m p q pp qq :
  Inv m → is_alive (world m) p = true → is_alive (world m) q = true →
  procs (world m) !! p = Some pp → procs (world m) !! q = Some qq →
  worker_id pp = worker_id qq → p = q.
Proof.
  intros HI Hp Hq Hpp Hqq Heq.
  destruct (i_alive _ HI p Hp) as [i Hi], (i_alive _ HI q Hq) as [j Hj].
  destruct (i_names _ HI i p Hi) as (p' & Hp' & Hip).
  destruct (i_names _ HI j q Hj) as (q' & Hq' & Hjq).
  assert (i = j) as -> by (apply worker_id_inj; congruence).
  pose proof (i_nodup _ HI) as Hnd. apply NoDup_app in Hnd as (_ & _ & Hnd).
  by eapply NoDup_keys_fun.
Qed.
End machine.
End PoolSafety.
