(* ===== verification/PoolTheorems.v ===== *)
(** * The pool's theorems

    The settings parser and the restart budget against their specifications,
    and what every run of the pool guarantees. *)
From S2P Require Import Prelude PyValue Json Contract Decimal Pool PoolSafety.
Import Pool PoolSafety.

Module PoolTheorems.

(** ** Settings *)

Lemma nonzero_digit c : in_range "1" "9" c = true ↔ (49 ≤ code c ≤ 57)%N.
Proof. unfold in_range. rewrite andb_true_iff, !N.leb_le. done. Qed.

Lemma canonical_decimal raw :
  _CANONICAL_UNSIGNED_DECIMAL raw = true ↔ ∃ n : N, raw = pretty n.
Proof.
  unfold _CANONICAL_UNSIGNED_DECIMAL. split.
  - intros H. apply orb_true_iff in H as [->%String.eqb_eq|H]; [by exists 0%N|].
    destruct raw as [|c raw]; [done|]. apply andb_true_iff in H as [Hc%nonzero_digit Hs].
    exists (digits_value 0 (String c raw)). symmetry. apply pretty_of_digits; [| |done].
    + apply is_digit_range. lia.
    + intros ->. change (code "0") with 48%N in Hc. lia.
  - intros [n ->]. destruct (decide (n = 0%N)) as [->|Hn]; [done|].
    destruct (pretty_N_digits n) as [Hd _].
    destruct (pretty_head n) as (c & t & Hp & Hc); [lia|]. rewrite Hp in *.
    apply orb_true_iff. right. simpl in Hd. apply andb_true_iff in Hd as [_ Ht].
    rewrite Ht, andb_true_r. by apply nonzero_digit.
Qed.

Lemma bounded_int_iff raw name default minimum maximum z :
  (0 ≤ minimum)%Z → (maximum ≤ 86400)%Z →
  _bounded_int (Some raw) name default minimum maximum = Ok z ↔
  raw = str_int z ∧ (minimum ≤ z ≤ maximum)%Z.
Proof.
  intros Hmin Hmax. unfold _bounded_int. split.
  - intros H. inv_checks. bool_hyps. apply canonical_decimal in Hok as [n ->].
    unfold int_of_str in Hok0. inv_checks. rewrite int_of_pretty in *.
    split; [|lia]. by rewrite str_int_nonneg, N2Z.id by lia.
  - intros [-> Hz]. assert (_CANONICAL_UNSIGNED_DECIMAL (str_int z) = true) as ->.
    { apply canonical_decimal. exists (Z.to_N z). apply str_int_nonneg. lia. }
    simpl. rewrite int_of_str_int by lia. simpl.
    rewrite (proj2 (Z.leb_le minimum z)), (proj2 (Z.leb_le z maximum)) by lia. done.
Qed.

(** What the parsed settings guarantee. *)
Lemma settings_bounds getenv s :
  settings getenv = Ok s →
  (1 ≤ count s ≤ 3)%Z ∧ (0 ≤ max_restarts s ≤ 100)%Z ∧
  (10 ≤ restart_window_seconds s ≤ 86400)%Z ∧
  (1 ≤ restart_backoff_max_seconds s ≤ 3600)%Z ∧ (1 ≤ kill_grace_seconds s ≤ 60)%Z.
Proof.
  assert (∀ raw name default minimum maximum z,
    (minimum ≤ default ≤ maximum)%Z →
    _bounded_int raw name default minimum maximum = Ok z → (minimum ≤ z ≤ maximum)%Z) as Hb.
  { intros [raw|] name d mn mx z Hd H; unfold _bounded_int in H; inv_checks; bool_hyps; [|done].
    lia. }
  unfold settings, worker_count. intros H. repeat inv_step. simpl.
  repeat match goal with H : _bounded_int _ _ _ _ _ = Ok _ |- _ => apply Hb in H; [|done] end.
  unfold MAX_WORKERS in *. lia.
Qed.

(** ** The restart budget *)

Definition window (s : Settings) : Z := (restart_window_seconds s * second)%Z.

(** The events after the exits of a slot at the given times. *)
Definition record_all (s : Settings) (ev : Events) (index : nat) (times : list Z) : Events :=
  foldl (λ ev t, (record s ev index t).2) ev times.

Abbreviation sorted_times := (Sorted Z.le).

Lemma drop_before_filter cutoff l :
  sorted_times l → drop_before cutoff l = filter (λ u, (cutoff ≤ u)%Z) l.
Proof.
  intros Hs. apply (Sorted_StronglySorted) in Hs; [|intros ???; lia].
  induction Hs as [|t l Hs IH Hall]; simpl; [done|]. rewrite filter_cons.
  destruct (Z.ltb_spec t cutoff) as [Hlt|Hle].
  - rewrite decide_False by lia. apply IH.
  - rewrite decide_True by lia. f_equal.
    symmetry. clear IH Hs. induction Hall as [|u l Hu _ IHl]; [done|].
    rewrite filter_cons, decide_True by lia. by rewrite IHl.
Qed.

Lemma sorted_filter (P : Z → Prop) `{∀ x, Decision (P x)} l :
  sorted_times l → sorted_times (filter P l).
Proof.
  intros Hs. apply (Sorted_StronglySorted) in Hs; [|intros ???; lia].
  apply StronglySorted_Sorted. induction Hs as [|t l Hs IH Hall]; [constructor|].
  rewrite filter_cons. case_decide; [|done]. constructor; [done|].
  rewrite Forall_forall in *. intros u [_ Hu]%list_elem_of_filter. by apply Hall.
Qed.

Lemma sorted_app_inv l t :
  sorted_times (l ++ [t]) → sorted_times l ∧ Forall (λ u, (u ≤ t)%Z) l.
Proof.
  induction l as [|u l IH]; [by repeat constructor|]. simpl. intros Hs.
  apply (Sorted_StronglySorted) in Hs; [|intros ???; lia].
  apply StronglySorted_inv in Hs as [Hs Hall].
  destruct IH as [Hl Hlt]; [by apply StronglySorted_Sorted|].
  rewrite Forall_app, Forall_singleton in Hall. destruct Hall as [Hul Hut].
  split; [|by constructor]. constructor; [done|]. destruct l as [|v l]; constructor.
  by apply Forall_cons in Hul as [? _].
Qed.

Lemma filter_filter_le a b (l : list Z) :
  (a ≤ b)%Z →
  filter (λ u, (b ≤ u)%Z) (filter (λ u, (a ≤ u)%Z) l) = filter (λ u, (b ≤ u)%Z) l.
Proof.
  intros Hab. induction l as [|u l IH]; [done|].
  rewrite (filter_cons (λ v, (a ≤ v)%Z)). case_decide.
  - rewrite !(filter_cons (λ v, (b ≤ v)%Z)), IH. done.
  - rewrite (filter_cons (λ v, (b ≤ v)%Z)), decide_False by lia. done.
Qed.

(** What the budget remembers of a slot: the exits in the window of the last. *)
Lemma record_all_history s i times t :
  (0 ≤ window s)%Z → sorted_times (times ++ [t]) →
  record_all s ∅ i (times ++ [t]) !! i =
  Some (filter (λ u, (t - window s ≤ u)%Z) (times ++ [t])).
Proof.
  intros Hw. revert t. induction times as [|u times IH] using rev_ind; intros t Hs.
  - simpl. unfold record_all, record. simpl. rewrite lookup_empty. simpl.
    rewrite lookup_insert_eq, filter_cons, decide_True by lia. done.
  - unfold record_all in *. rewrite foldl_snoc. destruct (sorted_app_inv _ _ Hs) as [Hsu Hle].
    unfold record at 1. simpl. rewrite lookup_insert_eq, IH by done. simpl. f_equal.
    fold (window s). rewrite drop_before_filter by (by apply sorted_filter).
    rewrite (filter_app _ (times ++ [u]) [t]), (filter_cons _ t), decide_True by lia.
    f_equal.
    apply filter_filter_le. apply Forall_app in Hle as [_ Hle].
    apply Forall_cons in Hle as [Hle _]. lia.
Qed.

Lemma record_other s ev i j t : i ≠ j → (record s ev i t).2 !! j = ev !! j.
Proof. intros Hne. unfold record. simpl. by apply lookup_insert_ne. Qed.

(** ** The race between a stop and the respawn loop *)

Definition demo_settings : Settings := mkSettings 1 "w" 5 300 60 120 30 5.

(** A step of the main thread, the exit of a process, a signal, the clock. *)
Inductive Move : Set := Main | Exit (pid : nat) | Signal | Wait (d : Z).

Definition play_move (s : Settings) (m : Machine) (mv : Move) : Machine :=
  let w := world m in
  match mv with
  | Main => default m (main_step s true m)
  | Exit pid => with_world m (mkWorld (clock w)
      (alter (λ p, mkProc (worker_id p) (Some 1%Z) (terminated p) (killed p)) pid (procs w))
      (next_pid w))
  | Signal => request_stop s m
  | Wait d => with_world m (mkWorld (clock w + d) (procs w) (next_pid w))
  end.
Definition play (s : Settings) (m : Machine) (l : list Move) : Machine :=
  foldl (play_move s) m l.

Definition move_ok (s : Settings) (m : Machine) (mv : Move) : bool :=
  match mv with
  | Main => is_some (main_step s true m)
  | Exit pid => is_alive (world m) pid
  | Signal => negb (finished m)
  | Wait d => (0 <? d)%Z
  end.
Fixpoint moves_ok (s : Settings) (m : Machine) (l : list Move) : bool :=
  match l with
  | [] => true
  | mv :: l => move_ok s m mv && moves_ok s (play_move s m mv) l
  end.

Lemma play_run s m l : moves_ok s m l = true → rtc (step s) m (play s m l).
Proof.
  revert m. induction l as [|mv l IH]; intros m H; [done|]. simpl in H.
  apply andb_true_iff in H as [Hmv Hl]. apply (rtc_l _ _ (play_move s m mv)); [|by apply IH].
  destruct mv as [|pid| |d]; simpl in *.
  - destruct (main_step s true m) as [m'|] eqn:Hm; [|done]. by eapply step_main.
  - by apply step_exit.
  - apply step_signal. by apply negb_true_iff in Hmv.
  - apply step_time. by apply Z.ltb_lt.
Qed.

(** One worker exits, its respawn falls due, and the signal arrives while the
    new process is being started. *)
Definition race : list Move :=
  [Main; Main; Main; Main; Exit 0; Main; Main; Main; Main; Main; Main; Main; Main; Main;
   Wait (2 * second); Main; Main; Main].
Definition before_signal : Machine := play demo_settings (boot demo_settings 0) race.

Definition demo_env (name : string) : option string :=
  if name =? "ARTIFACT_RECOVERY_WORKER_COUNT" then Some "1"
  else if name =? "ARTIFACT_RECOVERY_WORKER_ID_PREFIX" then Some "w" else None.
Lemma demo_settings_ok : settings demo_env = Ok demo_settings.
Proof. vm_compute. reflexivity. Qed.
Lemma before_signal_run : rtc (step demo_settings) (boot demo_settings 0) before_signal.
Proof. apply play_run. vm_compute. reflexivity. Qed.

(** The signal, then the main thread alone. *)
Lemma stop_raises s now m i pid :
  (1 ≤ count s)%Z → rtc (step s) (boot s now) m → stopping m = false →
  respawning m = Some (i, pid) →
  ∃ m' p, rtc (main_run s) (request_stop s m) m' ∧ pc m' = Raised (Exn KeyError (str_nat i)) ∧
    procs (world m') !! pid = Some p ∧ worker_id p = prefix s +:+ "-" +:+ str_nat (S i) ∧
    unsignalled p ∧
    (is_alive (world m) pid = true ∨ procs (world m) !! pid = None →
     is_alive (world m') pid = true).
Proof.
  intros Hc Hrun Hs Hi. destruct (run_Good s now m Hc Hrun) as [HI _ _].
  pose proof (run_Quiet s now m Hc Hrun Hs) as HQ.
  unfold request_stop. rewrite Hs. set (m1 := begin_stop s (clock (world m)) (exit_code m) m).
  unfold respawning in Hi. destruct (pc m) eqn:Hpc; try done.
  - destruct (List.find _ todo) as [[j due]|] eqn:Hdue; [|done]. injection Hi as -> <-.
    destruct (run_to_due s m1 now0 todo i due Hdue) as (Hle & rest & Hr1).
    assert (goto m1 (AtRespawn now0 todo) = m1) as Hm1
      by (subst m1; unfold begin_stop, goto; simpl; by rewrite Hpc).
    rewrite Hm1 in Hr1. clear Hm1.
    set (m2 := goto m1 (AtRespawn now0 ((i, due) :: rest))) in *.
    set (m3 := goto (spawn s i m2) (RespawnSpawned now0 i (next_pid (world m2)) rest)).
    destruct (hand_raises s m3 now0 i _ rest eq_refl eq_refl) as (m' & Hr2 & Hpc' & Hw).
    assert (next_pid (world m1) = next_pid (world m)) as Hn by apply signal_all_next.
    exists m', (mkProc (prefix s +:+ "-" +:+ str_nat (S i)) None false false).
    assert (procs (world m') !! next_pid (world m) =
      Some (mkProc (prefix s +:+ "-" +:+ str_nat (S i)) None false false)) as Hp.
    { rewrite Hw. simpl. rewrite <- Hn. apply lookup_insert_eq. }
    split_and!; [|done|done|done|done|].
    + etransitivity; [exact Hr1|]. eapply rtc_l; [|exact Hr2].
      unfold main_run, main_step. simpl. by assert ((now0 <? due)%Z = false) as -> by lia.
    + intros _. unfold is_alive. by rewrite Hp.
  - injection Hi as -> ->. destruct (hand_raises s m1 now0 i pid todo Hpc eq_refl)
      as (m' & Hr & Hpc' & Hw).
    destruct (i_names s m HI i pid) as (p & Hp & Hid);
      [unfold tracked; rewrite Hpc; simpl; by left|].
    assert (pid ∉ (children m).*2) as Hfree by by (eapply hand_not_child; [exact HI|by rewrite Hpc]).
    assert (procs (world m') !! pid = Some p) as Hp'
      by (rewrite Hw; simpl; by rewrite signal_all_other).
    exists m', p. split_and!; [done..|by apply (HQ pid)|].
    unfold is_alive. rewrite Hp, Hp'. by intros [?|?].
Qed.

(** ** Properties *)

(** The settings are read exactly.  A text is accepted as the integer [z]
    exactly when it is the canonical decimal of [z] and [z] is in the bounds of
    the setting. *)
Theorem settings_are_canonical raw name default minimum maximum z :
  (0 ≤ minimum)%Z → (maximum ≤ 86400)%Z →
  _bounded_int (Some raw) name default minimum maximum = Ok z ↔
  raw = str_int z ∧ (minimum ≤ z ≤ maximum)%Z.
Proof. apply bounded_int_iff. Qed.

(** The restart budget counts the exits in the sliding window.  After exits
    of a slot at nondecreasing times, recording one more reports the number of
    exits, itself included, no older than the window; allows a restart exactly
    when that number is within the limit; and the backoff doubles with it up to
    the cap. *)
Theorem budget_counts_window s i times t :
  (0 ≤ restart_window_seconds s)%Z → Sorted Z.le (times ++ [t]) →
  let r := (record s (record_all s ∅ i times) i t).1 in
  let n := Z.of_nat (length (filter (λ u, (t - window s ≤ u)%Z) (times ++ [t]))) in
  attempts r = n ∧
  (allowed r = true ↔ (n ≤ max_restarts s)%Z) ∧
  backoff r = (Z.min (restart_backoff_max_seconds s) (2 ^ (n - 1)) * second)%Z.
Proof.
  intros Hw Hs r n.
  assert (attempts r = n) as Hn.
  { assert (0 ≤ window s)%Z as Hw' by (unfold window, second; lia).
    pose proof (record_all_history s i times t Hw' Hs) as Hh.
    unfold record_all in Hh. rewrite foldl_snoc in Hh. fold (record_all s ∅ i times) in Hh.
    subst r n. unfold record in *. simpl in *. rewrite lookup_insert_eq in Hh.
    injection Hh as Hh. by rewrite Hh. }
  split; [done|]. change (allowed r) with (attempts r <=? max_restarts s)%Z.
  rewrite Hn, Z.leb_le. split; [done|].
  change (backoff r) with
    (Z.min (restart_backoff_max_seconds s) (2 ^ Z.max 0 (attempts r - 1)) * second)%Z.
  rewrite Hn. do 3 f_equal. subst n. rewrite filter_app, length_app.
  rewrite filter_cons, decide_True by (unfold window, second; lia). simpl. lia.
Qed.

(** C24: bounded, exclusive workers.  Under every interleaving of the main
    thread with signals, time and process exits, at most [count] (so at most
    three) worker processes are alive, and no two of them share a worker ID. *)
Theorem live_workers_bounded getenv s now m :
  settings getenv = Ok s → rtc (step s) (boot s now) m →
  (∀ pids, NoDup pids → (∀ pid, pid ∈ pids → is_alive (world m) pid = true) →
     (Z.of_nat (length pids) ≤ count s ≤ 3)%Z) ∧
  (∀ p q pp qq, is_alive (world m) p = true → is_alive (world m) q = true →
     procs (world m) !! p = Some pp → procs (world m) !! q = Some qq →
     worker_id pp = worker_id qq → p = q).
Proof.
  intros Hset Hrun. destruct (settings_bounds _ _ Hset) as ([Hc Hc3] & _).
  destruct (run_Good s now m Hc Hrun) as [HI _ _]. split.
  - intros pids Hnd Hal. pose proof (alive_length s m pids HI Hnd Hal).
    unfold slots_count in *. lia.
  - intros p q pp qq. by apply (alive_worker_id s m p q pp qq HI).
Qed.


(** No respawn after the loop has seen the stop.  From a stopping machine
    that is not inside a start or a respawn, no run starts another process. *)
Theorem stop_starts_nothing s m m' :
  stopping m = true → may_start (pc m) = false → rtc (step s) m m' →
  next_pid (world m') = next_pid (world m).
Proof.
  intros Hs Hms Hrun. revert Hs Hms. induction Hrun as [m|m m1 m2 Hst _ IH]; [done|].
  intros Hs Hms. destruct (stopped_step s m m1 Hs Hms Hst) as (Hs1 & Hms1 & <-). auto.
Qed.

(** SIGKILL is the last resort.  A worker is killed only when the pool is
    stopping and its shutdown deadline has passed, and the supervisor then waits
    the kill grace: the kill deadline is at least that much later. *)
Theorem kill_after_grace getenv s now m pid p :
  settings getenv = Ok s → rtc (step s) (boot s now) m →
  procs (world m) !! pid = Some p → killed p = true →
  stopping m = true ∧ ∃ d kd, shutdown_deadline m = Some d ∧ kill_deadline m = Some kd ∧
    (d ≤ clock (world m))%Z ∧ (d + kill_grace_seconds s * second ≤ kd)%Z.
Proof.
  intros Hset Hrun Hp Hk. destruct (settings_bounds _ _ Hset) as ([Hc _] & _).
  destruct (run_Good s now m Hc Hrun) as [_ _ HF].
  destruct (f_kill s m HF (f_killed s m HF pid p Hp Hk)) as (Hs & d & kd & H1 & H2 & H3).
  split; [done|]. exists d, kd. split_and!; [done|done|lia|lia].
Qed.

(** No crash while signals stay out of the respawn loop.  In every run in
    which no signal arrives inside that loop the supervisor raises nothing. *)
Theorem calm_runs_never_raise getenv s now m e :
  settings getenv = Ok s → rtc (calm_step s) (boot s now) m → pc m ≠ Raised e.
Proof.
  intros Hset Hrun. destruct (settings_bounds _ _ Hset) as ([Hc _] & _).
  by apply (calm_run_Calm s now m Hc Hrun).
Qed.

(** C27: the race.  Whatever the settings and however the pool got there, a stop
    requested while the respawn loop still has a process to start, or has
    started one and not yet stored it, ends the supervisor with an uncaught
    [KeyError], once the [Popen]s succeed: the process it started for the slot
    exists, is alive unless it had already exited, was sent neither SIGTERM nor
    SIGKILL, and never will be. *)
Theorem stop_during_respawn_raises getenv s now m i pid :
  settings getenv = Ok s → rtc (step s) (boot s now) m → stopping m = false →
  respawning m = Some (i, pid) →
  ∃ m', rtc (main_run s) (request_stop s m) m' ∧ pc m' = Raised (Exn KeyError (str_nat i)) ∧
    (is_alive (world m) pid = true ∨ procs (world m) !! pid = None →
     is_alive (world m') pid = true) ∧
    ∀ m'', rtc (step s) m' m'' → pc m'' = pc m' ∧
      ∃ p, procs (world m'') !! pid = Some p ∧ worker_id p = prefix s +:+ "-" +:+ str_nat (S i) ∧
        terminated p = false ∧ killed p = false.
Proof.
  intros Hset Hrun Hs Hi. destruct (settings_bounds _ _ Hset) as ([Hc _] & _).
  destruct (stop_raises s now m i pid Hc Hrun Hs Hi)
    as (m' & p & Hm' & Hpc & Hp & Hid & [Ht Hk] & Hal).
  exists m'. split_and!; [done..|]. intros m'' Hm''.
  destruct (raised_forever s m' m'' _ pid p Hpc Hp Hm'') as (-> & q & Hq & Hqid & Hqt & Hqk).
  split; [done|]. exists q. split_and!; congruence.
Qed.

(** A text of more than 4300 digits escapes [main]'s handler as a [ValueError]. *)
Lemma long_decimal_escapes raw name default minimum maximum :
  _CANONICAL_UNSIGNED_DECIMAL raw = true → (4300 < slen raw)%Z →
  ∃ msg, _bounded_int (Some raw) name default minimum maximum = Raise (Exn ValueError msg).
Proof.
  intros Hc Hl. unfold _bounded_int, int_of_str. rewrite Hc. simpl.
  rewrite (proj2 (Z.ltb_lt _ _) Hl). by eexists.
Qed.

(** ** Witnesses: the properties at concrete runs *)

Definition no_env (name : string) : option string := None.
Definition default_settings : Settings := mkSettings 3 "continuous-recovery" 5 300 60 120 30 5.

Lemma demo_run (l : list Move) :
  moves_ok default_settings (boot default_settings 0) l = true →
  rtc (step default_settings) (boot default_settings 0)
    (play default_settings (boot default_settings 0) l).
Proof. apply play_run. Qed.

Definition started : list Move := replicate 8 Main.
Definition killed_run : list Move :=
  started ++ [Signal; Wait (31 * second)] ++ replicate 10 Main.

Definition killed_machine : Machine :=
  play default_settings (boot default_settings 0) killed_run.

Lemma default_settings_ok : settings no_env = Ok default_settings.
Proof. vm_compute. reflexivity. Qed.
Lemma killed_run_ok : rtc (step default_settings) (boot default_settings 0) killed_machine.
Proof. apply demo_run. vm_compute. reflexivity. Qed.
Lemma killed_first : procs (world killed_machine) !! 0 =
  Some (mkProc "continuous-recovery-1" None true true).
Proof. vm_compute. reflexivity. Qed.

Definition signalled_machine : Machine :=
  play default_settings (boot default_settings 0) (started ++ [Signal]).
Lemma signalled_stopping : stopping signalled_machine = true.
Proof. vm_compute. reflexivity. Qed.
Lemma signalled_past_start : may_start (pc signalled_machine) = false.
Proof. vm_compute. reflexivity. Qed.
Lemma signalled_run : rtc (step default_settings) signalled_machine
  (play default_settings signalled_machine [Main; Main]).
Proof. apply play_run. vm_compute. reflexivity. Qed.

Lemma settings_are_canonical_witness :
  _bounded_int (Some "86400") "W" 300 10 86400 = Ok 86400%Z.
Proof. apply settings_are_canonical; [lia|lia|split; [vm_compute; reflexivity|lia] ]. Defined.

Lemma budget_counts_window_witness :
  attempts (record default_settings (record_all default_settings ∅ 0 [0%Z; second]) 0
              (302 * second)).1 = 1%Z.
Proof.
  destruct (budget_counts_window default_settings 0 [0%Z; second] (302 * second)) as (H & _).
  - vm_compute. discriminate.
  - repeat constructor; vm_compute; discriminate.
  - rewrite H. vm_compute. reflexivity.
Defined.

Lemma live_workers_bounded_witness :
  let m := play default_settings (boot default_settings 0) started in
  is_alive (world m) 2 = true ∧ (Z.of_nat (length [0; 1; 2]) ≤ count default_settings ≤ 3)%Z.
Proof.
  split; [vm_compute; reflexivity|].
  destruct (live_workers_bounded no_env default_settings 0
    (play default_settings (boot default_settings 0) started)) as (H & _).
  - vm_compute. reflexivity.
  - apply demo_run. vm_compute. reflexivity.
  - apply (H [0; 1; 2]).
    + repeat constructor; rewrite ?elem_of_cons, ?elem_of_nil; lia.
    + intros pid Hpid. rewrite !elem_of_cons, elem_of_nil in Hpid.
      destruct Hpid as [->|[->|[->|[] ] ] ]; vm_compute; reflexivity.
Defined.


Lemma stop_starts_nothing_witness :
  next_pid (world (play default_settings signalled_machine [Main; Main])) =
  next_pid (world signalled_machine).
Proof.
  exact (stop_starts_nothing default_settings signalled_machine _ signalled_stopping
    signalled_past_start signalled_run).
Defined.

Lemma kill_after_grace_witness :
  stopping killed_machine = true ∧ ∃ d kd, shutdown_deadline killed_machine = Some d ∧
    kill_deadline killed_machine = Some kd ∧ (d ≤ clock (world killed_machine))%Z ∧
    (d + kill_grace_seconds default_settings * second ≤ kd)%Z.
Proof.
  exact (kill_after_grace no_env default_settings 0 killed_machine 0
    (mkProc "continuous-recovery-1" None true true) default_settings_ok killed_run_ok
    killed_first eq_refl).
Defined.

Lemma stop_during_respawn_raises_witness :
  respawning before_signal = Some (0, 1) ∧
  ∃ m', rtc (main_run demo_settings) (request_stop demo_settings before_signal) m' ∧
    pc m' = Raised (Exn KeyError "0") ∧
    (is_alive (world before_signal) 1 = true ∨ procs (world before_signal) !! 1 = None →
     is_alive (world m') 1 = true) ∧
    ∀ m'', rtc (step demo_settings) m' m'' → pc m'' = pc m' ∧
      ∃ p, procs (world m'') !! 1 = Some p ∧ worker_id p = "w-1" ∧
        terminated p = false ∧ killed p = false.
Proof.
  split; [vm_compute; reflexivity|].
  exact (stop_during_respawn_raises demo_env demo_settings 0 before_signal 0 1
    demo_settings_ok before_signal_run eq_refl eq_refl).
Defined.

Lemma calm_runs_never_raise_witness :
  pc (play_move default_settings (boot default_settings 0) Main)
  ≠ Raised (Exn KeyError "0").
Proof.
  apply (calm_runs_never_raise no_env default_settings 0).
  - vm_compute. reflexivity.
  - apply rtc_once, (calm_main _ _ _ true). vm_compute. reflexivity.
Defined.

End PoolTheorems.
