(* ===== verification/DateTime.v ===== *)
(** * ISO-8601 date-times

    The part of CPython's [datetime] module the tools use:
    [datetime.fromisoformat] (every layout the C implementation of 3.11
    accepts), [astimezone(timezone.utc)], [isoformat] of a UTC value,
    addition of a [timedelta] and the difference of two values.  An aware
    value, once moved to UTC, is the number of microseconds since
    0001-01-01T00:00:00.  The main results: the calendar functions invert each
    other, and [fromisoformat] reads back what [isoformat] prints. *)
From S2P Require Import Prelude PyValue Json.
From Stdlib Require Import Ascii.
Open Scope Z_scope.

(** ** The proleptic Gregorian calendar *)

Definition is_leap (y : Z) : bool :=
  (y mod 4 =? 0) && (negb (y mod 100 =? 0) || (y mod 400 =? 0)).

Definition days_in_month (y m : Z) : Z :=
  if (m =? 2) && is_leap y then 29
  else nth (Z.to_nat m) [0; 31; 28; 31; 30; 31; 30; 31; 31; 30; 31; 30; 31] 0.

Definition days_before_month (y m : Z) : Z :=
  nth (Z.to_nat m) [0; 0; 31; 59; 90; 120; 151; 181; 212; 243; 273; 304; 334] 0
  + (if (2 <? m) && is_leap y then 1 else 0).

Definition days_before_year (y : Z) : Z :=
  let y := y - 1 in y * 365 + y / 4 - y / 100 + y / 400.

(** Ordinal 1 is 0001-01-01. *)
Definition ymd_to_ord (y m d : Z) : Z := days_before_year y + days_before_month y m + d.

Definition max_ordinal : Z := 3652059.

(** The ordinal's year, month and day, from its 400, 100, 4 and 1 year cycles. *)
Definition ord_to_ymd (ordinal : Z) : Z * Z * Z :=
  let n := ordinal - 1 in
  let n400 := n / 146097 in let n := n mod 146097 in
  let n100 := n / 36524 in let n := n mod 36524 in
  let n4 := n / 1461 in let n := n mod 1461 in
  let n1 := n / 365 in let n := n mod 365 in
  let year := n400 * 400 + 1 + n100 * 100 + n4 * 4 + n1 in
  if (n1 =? 4) || (n100 =? 4) then (year - 1, 12, 31)
  else
    let month := (n + 50) / 32 in
    let preceding := days_before_month year month in
    if n <? preceding then
      (year, month - 1, n - (preceding - days_in_month year (month - 1)) + 1)
    else (year, month, n - preceding + 1).

(** Monday is 0. *)
Definition weekday (ordinal : Z) : Z := (ordinal + 6) mod 7.

Definition iso_week1_monday (year : Z) : Z :=
  let first_day := ymd_to_ord year 1 1 in
  let first_weekday := weekday first_day in
  first_day - first_weekday + (if 3 <? first_weekday then 7 else 0).

Definition check_ord (ordinal : Z) : option Z :=
  if (1 <=? ordinal) && (ordinal <=? max_ordinal) then Some ordinal else None.

(** The checks of the constructor on a date. *)
Definition date_ord (y m d : Z) : option Z :=
  if (1 <=? y) && (y <=? 9999) && (1 <=? m) && (m <=? 12)
     && (1 <=? d) && (d <=? days_in_month y m)
  then Some (ymd_to_ord y m d) else None.

Definition iso_to_ord (year week day : Z) : option Z :=
  let first := weekday (ymd_to_ord year 1 1) in
  let long := (first =? 3) || ((first =? 2) && is_leap year) in
  if (year <? 1) || (week <=? 0) || (54 <=? week) || ((week =? 53) && negb long)
     || (day <=? 0) || (8 <=? day)
  then None
  else check_ord (iso_week1_monday year + (week - 1) * 7 + day - 1).

(** ** Reading

    The text is a NUL-terminated UTF-8 buffer, read by position. *)

Definition utf8_char (c : ascii) : string :=
  if (code c <? 128)%N then String c EmptyString
  else String (ascii_of_N (192 + code c / 64))
         (String (ascii_of_N (128 + code c `mod` 64)) EmptyString).
Definition utf8 (s : string) : string := flat_map_str utf8_char s.

Definition nul : ascii := "000"%char.
Definition char_at (s : string) (i : nat) : ascii :=
  match String.get i s with Some c => c | None => nul end.
Definition char_is (c d : ascii) : bool := Ascii.eqb c d.
Definition digit_val (c : ascii) : Z := Z.of_N (code c - 48).

Fixpoint parse_digits (s : string) (p n : nat) (acc : Z) : option (Z * nat) :=
  match n with
  | O => Some (acc, p)
  | S n =>
      let c := char_at s p in
      if is_digit c then parse_digits s (S p) n (acc * 10 + digit_val c) else None
  end.

(** The first position from [p] on, before [p + fuel], that holds no digit. *)
Fixpoint skip_digits (fuel : nat) (s : string) (p : nat) : nat :=
  match fuel with
  | O => p
  | S fuel => if is_digit (char_at s p) then skip_digits fuel s (S p) else p
  end.

(** Where the character between date and time sits. *)
Definition separator_location (s : string) : option nat :=
  let len := String.length s in
  if (len =? 7)%nat then Some 7%nat
  else if char_is (char_at s 4) "-" then
    if char_is (char_at s 5) "W" then
      if (8 <? len)%nat && char_is (char_at s 8) "-" then
        if (len =? 9)%nat then None
        else if (10 <? len)%nat && is_digit (char_at s 10) then Some 8%nat
        else Some 10%nat
      else Some 8%nat
    else Some 10%nat
  else if char_is (char_at s 4) "W" then
    let pos := skip_digits (len - 7) s 7 in
    if (pos <? 9)%nat then Some pos
    else if Nat.even pos then Some 7%nat else Some 8%nat
  else Some 8%nat.

(** The ordinal of the date that ends at [len]. *)
Definition parse_date (s : string) (len : nat) : option Z :=
  '(year, p) ← parse_digits s 0 4 0;
  let uses_separator := char_is (char_at s p) "-" in
  let p := if uses_separator then S p else p in
  if char_is (char_at s p) "W" then
    '(week, p) ← parse_digits s (S p) 2 0;
    if (p <? len)%nat then
      if uses_separator && negb (char_is (char_at s p) "-") then None
      else
        '(day, _) ← parse_digits s (if uses_separator then S p else p) 1 0;
        iso_to_ord year week day
    else iso_to_ord year week 1
  else
    '(month, p) ← parse_digits s p 2 0;
    if uses_separator && negb (char_is (char_at s p) "-") then None
    else
      '(day, p) ← parse_digits s (if uses_separator then S p else p) 2 0;
      if (p =? len)%nat then date_ord year month day else None.

(** Up to three two-digit fields; then the fraction's position, or whether
    text remained at the end. *)
Fixpoint parse_fields (n : nat) (first sep : bool) (s : string) (p p_end : nat)
  : option (list Z * (nat + bool)) :=
  match n with
  | O => Some ([], inl p)
  | S n =>
      '(v, p) ← parse_digits s p 2 0;
      let c := char_at s p in
      let sep := if first then char_is c ":" else sep in
      if (p_end <=? S p)%nat then Some ([v], inr (negb (char_is c nul)))
      else if sep && char_is c ":" then
        '(vs, k) ← parse_fields n false sep s (S p) p_end; Some (v :: vs, k)
      else if char_is c "." || char_is c "," then Some ([v], inl (S p))
      else if negb sep then
        '(vs, k) ← parse_fields n false sep s p p_end; Some (v :: vs, k)
      else None
  end.

(** Seconds, microseconds and whether text remained; the fields themselves. *)
Definition parse_clock (s : string) (p p_end : nat) : option (list Z * Z * bool) :=
  '(vs, k) ← parse_fields 3 true true s p p_end;
  match k with
  | inr rest => Some (vs, 0, rest)
  | inl p =>
      let to_parse := Nat.min (p_end - p) 6 in
      '(us, p) ← parse_digits s p to_parse 0;
      let p := skip_digits (String.length s) s p in
      Some (vs, us * 10 ^ Z.of_nat (6 - to_parse), negb (char_is (char_at s p) nul))
  end.

Definition clock_field (vs : list Z) (i : nat) : Z := nth i vs 0.

Fixpoint find_zone (fuel : nat) (s : string) (p : nat) : nat :=
  match fuel with
  | O => p
  | S fuel =>
      let c := char_at s p in
      if char_is c "+" || char_is c "-" || char_is c "Z" then p
      else find_zone fuel s (S p)
  end.

(** The clock fields with the microseconds, and the zone's offset in
    microseconds when the text has one. *)
Definition parse_time (s : string) (p : nat) : option (list Z * Z * option Z) :=
  let len := String.length s in
  let zone := find_zone (Nat.max 1 (len - p)) s p in
  '(vs, us, rest) ← parse_clock s p zone;
  if (zone =? len)%nat then if (rest : bool) then None else Some (vs, us, None)
  else if char_is (char_at s zone) "Z" then
    if char_is (char_at s (S zone)) nul then Some (vs, us, Some 0) else None
  else
    let sign := if char_is (char_at s zone) "-" then -1 else 1 in
    '(zs, zus, zrest) ← parse_clock s (S zone) len;
    if (zrest : bool) then None
    else
      let offset := sign * (clock_field zs 0 * 3600 + clock_field zs 1 * 60 + clock_field zs 2) in
      Some (vs, us,
        Some (if offset =? 0 then 0 else offset * 1000000 + sign * zus)).

Definition day_us : Z := 86400 * 1000000.

(** The checks of the constructor on a time of day. *)
Definition time_us (vs : list Z) (us : Z) : option Z :=
  if (clock_field vs 0 <? 24) && (clock_field vs 1 <? 60) && (clock_field vs 2 <? 60)
  then Some ((clock_field vs 0 * 3600 + clock_field vs 1 * 60 + clock_field vs 2) * 1000000 + us)
  else None.

(** A zone's offset lies strictly between minus and plus a day. *)
Definition zone_ok (zone : option Z) : bool :=
  match zone with Some o => (- day_us <? o) && (o <? day_us) | None => true end.

(** [datetime.fromisoformat(text)]: the wall clock's microseconds and the
    offset of its zone; [None] for a [ValueError]. *)
Definition fromisoformat (text : string) : option (Z * option Z) :=
  if (String.length text <? 7)%nat then None
  else
    let s := utf8 text in
    let len := String.length s in
    sep ← separator_location s;
    ord ← parse_date s sep;
    '(vs, us, zone) ←
      (if (sep <? len)%nat then
         parse_time s (if (code (char_at s sep) <? 128)%N then S sep else S (S sep))
       else Some ([], 0, None));
    time ← time_us vs us;
    if zone_ok zone then Some ((ord - 1) * day_us + time, zone) else None.

(** [date.fromisoformat(s)], an ordinal. *)
Definition date_fromisoformat (s : string) : option Z :=
  let text := utf8 s in
  let len := String.length text in
  if bool_decide (len = 7 ∨ len = 8 ∨ len = 10)%nat then parse_date text len else None.

(** ** Arithmetic on UTC values *)

Definition max_instant : Z := max_ordinal * day_us.
Definition representable (t : Z) : bool := (0 <=? t) && (t <? max_instant).

Definition date_out_of_range : exn := Exn OverflowError "date value out of range".

(** [t + timedelta(microseconds=us)] *)
Definition instant_add (t us : Z) : result Z :=
  if representable (t + us) then Ok (t + us) else Raise date_out_of_range.

(** [timedelta(seconds=n)] *)
Definition seconds (n : Z) : Z := n * 1000000.

(** [int((a - b).total_seconds())]: the microseconds divided by [10^6] in
    double precision (rounded to even at 53 bits), then truncated. *)
Definition whole_seconds (us : Z) : Z :=
  if us <? 1000000 then 0
  else
    let k := 52 - Z.log2 (us / 1000000) in
    FloatRepr.round_div (us * 2 ^ k) 1000000 / 2 ^ k.
Definition elapsed_seconds (a b : Z) : Z :=
  Z.sgn (a - b) * whole_seconds (Z.abs (a - b)).

(** [wall.astimezone(timezone.utc)] *)
Definition to_utc (wall offset : Z) : result Z := instant_add wall (- offset).

(** ** Printing *)

Definition digit_char (n : Z) : ascii := ascii_of_N (48 + Z.to_N (n mod 10)).
Fixpoint zero_padded (width : nat) (n : Z) (tail : string) : string :=
  match width with
  | O => tail
  | S width => zero_padded width (n / 10) (String (digit_char n) tail)
  end.

(** [t.isoformat()] with the suffix of its zone. *)
Definition isoformat (t : Z) (suffix : string) : string :=
  let '(y, m, d) := ord_to_ymd (t / day_us + 1) in
  let us := t mod 1000000 in
  let secs := (t / 1000000) mod 86400 in
  zero_padded 4 y (String "-" (zero_padded 2 m (String "-" (zero_padded 2 d (String "T"
    (zero_padded 2 (secs / 3600) (String ":"
    (zero_padded 2 (secs / 60 mod 60) (String ":"
    (zero_padded 2 (secs mod 60)
      (if us =? 0 then suffix else String "." (zero_padded 6 us suffix)))))))))))).

(** ** The calendar functions invert each other *)

(** Case analysis on a month between 1 and 12. *)
Ltac destruct_month m :=
  let H := fresh in
  assert (m = 1 ∨ m = 2 ∨ m = 3 ∨ m = 4 ∨ m = 5 ∨ m = 6 ∨ m = 7 ∨ m = 8 ∨ m = 9 ∨ m = 10
    ∨ m = 11 ∨ m = 12) as H by lia;
  repeat destruct H as [H|H]; subst m.
Ltac euclid := Z.to_euclidean_division_equations; lia.

Definition month_split (y n : Z) : Z * Z :=
  let month := (n + 50) / 32 in
  let preceding := days_before_month y month in
  if n <? preceding then (month - 1, n - (preceding - days_in_month y (month - 1)) + 1)
  else (month, n - preceding + 1).

Definition month_split_ok (y n : Z) : bool :=
  let '(m, d) := month_split y n in
  (1 <=? m) && (m <=? 12) && (1 <=? d) && (d <=? days_in_month y m)
  && (days_before_month y m + d =? n + 1).

Lemma days_in_month_leap y y' m : is_leap y = is_leap y' → days_in_month y m = days_in_month y' m.
Proof. unfold days_in_month. by intros ->. Qed.
Lemma days_before_month_leap y y' m :
  is_leap y = is_leap y' → days_before_month y m = days_before_month y' m.
Proof. unfold days_before_month. by intros ->. Qed.

Lemma month_split_correct y n : 0 <= n < 365 → month_split_ok y n = true.
Proof.
  intros Hn.
  assert (∀ y', is_leap y = is_leap y' → month_split_ok y n = month_split_ok y' n) as Heq.
  { intros y' Hy. unfold month_split_ok, month_split.
    rewrite !(days_before_month_leap _ _ _ Hy).
    repeat case_match; simplify_eq;
      by rewrite ?(days_before_month_leap _ _ _ Hy), ?(days_in_month_leap _ _ _ Hy) in *. }
  assert (forallb (λ k, month_split_ok 4 (Z.of_nat k) && month_split_ok 1 (Z.of_nat k))
    (seq 0 365) = true) as Hall by by vm_compute.
  rewrite forallb_forall in Hall.
  specialize (Hall (Z.to_nat n)). rewrite Z2Nat.id in Hall by lia.
  rewrite in_seq in Hall. specialize (Hall ltac:(lia)).
  apply andb_true_iff in Hall as [H4 H1].
  destruct (is_leap y) eqn:Hy; [rewrite (Heq 4)|rewrite (Heq 1)]; done.
Qed.

Definition cycle_year (a b c d : Z) : Z := a * 400 + 1 + b * 100 + c * 4 + d.

Lemma days_before_cycle_year a b c d :
  0 <= a → 0 <= b < 4 → 0 <= c < 25 → 0 <= d < 4 →
  days_before_year (cycle_year a b c d) = 146097 * a + 36524 * b + 1461 * c + 365 * d.
Proof.
  intros. unfold days_before_year, cycle_year.
  replace (a * 400 + 1 + b * 100 + c * 4 + d - 1) with (400 * a + 100 * b + 4 * c + d) by lia.
  replace ((400 * a + 100 * b + 4 * c + d) / 4) with (100 * a + 25 * b + c) by euclid.
  replace ((400 * a + 100 * b + 4 * c + d) / 100) with (4 * a + b) by euclid.
  replace ((400 * a + 100 * b + 4 * c + d) / 400) with a by euclid. lia.
Qed.

Lemma is_leap_true y : is_leap y = true ↔ y mod 4 = 0 ∧ (y mod 100 ≠ 0 ∨ y mod 400 = 0).
Proof.
  unfold is_leap. rewrite andb_true_iff, orb_true_iff, negb_true_iff, !Z.eqb_eq, Z.eqb_neq.
  done.
Qed.

Definition valid_ymd (y m d : Z) : Prop :=
  1 <= m <= 12 ∧ 1 <= d <= days_in_month y m.

Lemma div_mod_bounds n k : 0 < k → n = k * (n / k) + n mod k ∧ 0 <= n mod k < k.
Proof. intros Hk. split; [by apply Z.div_mod; lia|by apply Z.mod_pos_bound]. Qed.

(** December 31 of a leap year. *)
Lemma leap_year_end y :
  is_leap y = true → valid_ymd y 12 31 ∧ ymd_to_ord y 12 31 = days_before_year y + 366.
Proof.
  intros Hy. unfold valid_ymd, ymd_to_ord, days_in_month, days_before_month. rewrite Hy.
  simpl. lia.
Qed.

Lemma ord_to_ymd_correct ordinal :
  1 <= ordinal →
  let '(y, m, d) := ord_to_ymd ordinal in
  1 <= y ∧ valid_ymd y m d ∧ ymd_to_ord y m d = ordinal.
Proof.
  intros Hord. unfold ord_to_ymd. cbv zeta.
  set (n := ordinal - 1). set (a := n / 146097). set (r1 := n mod 146097).
  set (b := r1 / 36524). set (r2 := r1 mod 36524).
  set (c := r2 / 1461). set (r3 := r2 mod 1461).
  set (d := r3 / 365). set (r := r3 mod 365).
  destruct (div_mod_bounds n 146097) as [Hn Hr1]; [lia|].
  destruct (div_mod_bounds r1 36524) as [Hb Hr2]; [lia|].
  destruct (div_mod_bounds r2 1461) as [Hc Hr3]; [lia|].
  destruct (div_mod_bounds r3 365) as [Hd Hr]; [lia|].
  fold a r1 in Hn, Hr1. fold b r2 in Hb, Hr2. fold c r3 in Hc, Hr3. fold d r in Hd, Hr.
  assert (ordinal = n + 1 ∧ 0 <= n) as [Hordn Hn0] by (subst n; lia).
  clearbody a b c d r r1 r2 r3 n.
  assert (0 <= a ∧ 0 <= b <= 4 ∧ 0 <= c < 25 ∧ 0 <= d <= 4) as (Ha & Hb4 & Hc25 & Hd4) by lia. fold (cycle_year a b c d).
  destruct ((d =? 4) || (b =? 4)) eqn:Hspecial.
  - assert (∃ b' c', cycle_year a b c d - 1 = cycle_year a b' c' 3 ∧ 0 <= b' < 4 ∧
      0 <= c' < 25 ∧ 36524 * b' + 1461 * c' + 1460 = r1 ∧ (c' = 24 → b' = 3))
      as (b' & c' & Hy & Hb' & Hc' & Hr' & Hlast).
    { apply orb_true_iff in Hspecial as [Hs%Z.eqb_eq|Hs%Z.eqb_eq]; unfold cycle_year.
      - exists b, c. lia.
      - exists 3, 24. lia. }
    rewrite Hy. destruct (leap_year_end (cycle_year a b' c' 3)) as [Hv Ho].
    { apply is_leap_true. unfold cycle_year. euclid. }
    split; [unfold cycle_year; lia|]. split; [done|].
    rewrite Ho, days_before_cycle_year by lia. lia.
  - bool_hyps. pose proof (month_split_correct (cycle_year a b c d) r Hr) as Hm.
    unfold month_split_ok, month_split in Hm.
    assert (days_before_year (cycle_year a b c d) = ordinal - 1 - r) as Hdays.
    { rewrite days_before_cycle_year; lia. }
    destruct (r <? _); bool_hyps; unfold valid_ymd, ymd_to_ord;
      (split; [unfold cycle_year; lia|split; [split; lia|lia]]).
Qed.

Lemma ord_to_ymd_year ordinal y m d :
  1 <= ordinal <= max_ordinal → ord_to_ymd ordinal = (y, m, d) →
  date_ord y m d = Some ordinal ∧ 1 <= y <= 9999 ∧ 1 <= m <= 12 ∧ 1 <= d <= 31.
Proof.
  intros Hord Heq. pose proof (ord_to_ymd_correct ordinal ltac:(lia)) as H.
  rewrite Heq in H. destruct H as (Hy & [Hm Hd] & Hback).
  assert (y <= 9999).
  { unfold max_ordinal, ymd_to_ord, days_before_year, days_before_month in *.
    assert (0 <= nth (Z.to_nat m) [0; 0; 31; 59; 90; 120; 151; 181; 212; 243; 273; 304; 334] 0)
      by (destruct_month m; simpl; lia).
    destruct ((2 <? m) && is_leap y); euclid. }
  assert (days_in_month y m <= 31).
  { unfold days_in_month. destruct (_ && _); [lia|].
    destruct_month m; simpl; lia. }
  split; [|lia]. unfold date_ord.
  repeat (rewrite (proj2 (Z.leb_le _ _)) by lia). simpl. by rewrite Hback.
Qed.

(** ** Reading what was printed *)

Lemma utf8_ascii s : all_chars (λ c, (code c <? 128)%N) s = true → utf8 s = s.
Proof.
  unfold utf8. induction s as [|c s IH]; [done|].
  simpl. intros [Hc Hs]%andb_true_iff. unfold utf8_char at 1. rewrite Hc, (IH Hs). done.
Qed.

Lemma is_digit_code c : is_digit c = true ↔ (48 <= code c <= 57)%N.
Proof.
  unfold is_digit, in_range. change (code "0") with 48%N. change (code "9") with 57%N.
  rewrite andb_true_iff, !N.leb_le. done.
Qed.

Lemma digit_char_code n : code (digit_char n) = (48 + Z.to_N (n mod 10))%N.
Proof.
  unfold code, digit_char. apply N_ascii_embedding.
  pose proof (Z.mod_pos_bound n 10). lia.
Qed.

Lemma digit_char_is_digit n : is_digit (digit_char n) = true.
Proof.
  rewrite is_digit_code, digit_char_code. pose proof (Z.mod_pos_bound n 10). lia.
Qed.

Lemma digit_char_val n : digit_val (digit_char n) = n mod 10.
Proof.
  unfold digit_val. rewrite digit_char_code. pose proof (Z.mod_pos_bound n 10). lia.
Qed.

Lemma digit_is_not c d : is_digit c = true → is_digit d = false → char_is c d = false.
Proof. intros Hc Hd. unfold char_is. apply Ascii.eqb_neq. intros ->. congruence. Qed.

Lemma digit_is_ascii c : is_digit c = true → (code c <? 128)%N = true.
Proof. rewrite is_digit_code, N.ltb_lt. lia. Qed.

#[local] Arguments parse_digits : simpl never.
#[local] Arguments char_is : simpl never.
#[local] Arguments is_digit : simpl never.
#[local] Arguments digit_val : simpl never.
#[local] Arguments Z.mul : simpl never.
#[local] Arguments Z.add : simpl never.
#[local] Arguments code : simpl never.

Lemma parse_digits_step s p n acc :
  parse_digits s p (S n) acc =
    if is_digit (char_at s p)
    then parse_digits s (S p) n (acc * 10 + digit_val (char_at s p)) else None.
Proof. done. Qed.

Lemma parse_digits_end s p acc : parse_digits s p 0 acc = Some (acc, p).
Proof. done. Qed.

Ltac is_bool_const b := match b with true => idtac | false => idtac end.
Ltac read_char :=
  match goal with
  | H : char_at ?s ?p = _ |- context [char_at ?s ?p] => rewrite H
  | H : is_digit ?c = true |- context [is_digit ?c] => rewrite H
  | H : is_digit ?c = true |- context [char_is ?c ?d] =>
      rewrite (digit_is_not c d H eq_refl)
  | |- context [char_is ?c ?d] =>
      let b := eval vm_compute in (char_is c d) in
      is_bool_const b;
      change (char_is c d) with b
  | |- context [is_digit ?c] =>
      let b := eval vm_compute in (is_digit c) in
      is_bool_const b;
      change (is_digit c) with b
  end.

Ltac read_all :=
  repeat (simpl; first [rewrite parse_digits_end | read_char | rewrite parse_digits_step]); simpl.

(** A text given by its characters, NUL after the last one. *)
Lemma char_at_list l n :
  (n <= length l)%nat →
  char_at (String.string_of_list_ascii l) n = nth n l nul.
Proof.
  revert n; induction l as [|c l IH]; intros n Hn; [by destruct n; inversion Hn|].
  destruct n as [|n]; [done|]. simpl in *. rewrite <- IH by lia. done.
Qed.

Lemma char_at_end s : char_at s (String.length s) = nul.
Proof. unfold char_at. induction s; simpl in *; auto. Qed.

Lemma string_of_list_length l : String.length (String.string_of_list_ascii l) = length l.
Proof. induction l; simpl; congruence. Qed.

Ltac learn_chars Hs n :=
  lazymatch n with
  | O => clear Hs
  | S ?k => let H := fresh "Hc" in pose proof (Hs k ltac:(lia)) as H; simpl in H; learn_chars Hs k
  end.

(** The layout [isoformat] produces, digit by digit. *)
Section layout.
Context (y1 y2 y3 y4 m1 m2 d1 d2 h1 h2 i1 i2 s1 s2 : ascii) (s : string).
Context (Hdigits : Forall (λ c, is_digit c = true)
  [y1; y2; y3; y4; m1; m2; d1; d2; h1; h2; i1; i2; s1; s2]).

Definition layout_prefix : list ascii :=
  [y1; y2; y3; y4; "-"; m1; m2; "-"; d1; d2; "T"; h1; h2; ":"; i1; i2; ":"; s1; s2]%char.

Lemma read_date_layout :
  (∀ n, (n < 19)%nat → char_at s n = nth n layout_prefix nul) →
  (19 < String.length s)%nat →
  separator_location s = Some 10%nat ∧
  parse_date s 10 = date_ord
      ((((0 * 10 + digit_val y1) * 10 + digit_val y2) * 10 + digit_val y3) * 10 + digit_val y4)
      ((0 * 10 + digit_val m1) * 10 + digit_val m2)
      ((0 * 10 + digit_val d1) * 10 + digit_val d2).
Proof.
  intros Hs Hlen.
  repeat (apply Forall_cons in Hdigits as [? Hdigits]).
  learn_chars Hs 10%nat. split.
  - unfold separator_location. replace (String.length s =? 7)%nat with false.
    2: { symmetry. apply Nat.eqb_neq. lia. }
    read_all. done.
  - unfold parse_date. read_all. done.
Qed.

Lemma read_time_layout u1 u2 u3 u4 u5 u6 :
  (∀ n, (n < 32)%nat → char_at s n =
     nth n (layout_prefix ++ ["."; u1; u2; u3; u4; u5; u6; "+"; "0"; "0"; ":"; "0"; "0"]%char) nul) →
  String.length s = 32%nat →
  Forall (λ c, is_digit c = true) [u1; u2; u3; u4; u5; u6] →
  parse_time s 11 = Some
    ([(0 * 10 + digit_val h1) * 10 + digit_val h2;
      (0 * 10 + digit_val i1) * 10 + digit_val i2;
      (0 * 10 + digit_val s1) * 10 + digit_val s2],
     (((((0 * 10 + digit_val u1) * 10 + digit_val u2) * 10 + digit_val u3) * 10
       + digit_val u4) * 10 + digit_val u5) * 10 + digit_val u6, Some 0).
Proof.
  intros Hs Hlen Hus.
  repeat (apply Forall_cons in Hdigits as [? Hdigits]).
  repeat (apply Forall_cons in Hus as [? Hus]).
  pose proof (char_at_end s) as Hend. rewrite Hlen in Hend.
  learn_chars Hs 32%nat.
  unfold parse_time. rewrite Hlen. change (Nat.max 1 (32 - 11)) with 21%nat. cbv zeta.
  assert (find_zone 21 s 11 = 26%nat) as ->.
  { read_all. done. }
  unfold parse_clock. rewrite Hlen. read_all. by rewrite Z.mul_1_r.
Qed.

Lemma read_whole_layout :
  (∀ n, (n < 25)%nat → char_at s n =
     nth n (layout_prefix ++ ["+"; "0"; "0"; ":"; "0"; "0"]%char) nul) →
  String.length s = 25%nat →
  parse_time s 11 = Some
    ([(0 * 10 + digit_val h1) * 10 + digit_val h2;
      (0 * 10 + digit_val i1) * 10 + digit_val i2;
      (0 * 10 + digit_val s1) * 10 + digit_val s2], 0, Some 0).
Proof.
  intros Hs Hlen.
  repeat (apply Forall_cons in Hdigits as [? Hdigits]).
  pose proof (char_at_end s) as Hend. rewrite Hlen in Hend.
  learn_chars Hs 25%nat.
  unfold parse_time. rewrite Hlen. change (Nat.max 1 (25 - 11)) with 14%nat. cbv zeta.
  assert (find_zone 14 s 11 = 19%nat) as ->.
  { read_all. done. }
  unfold parse_clock. rewrite Hlen. read_all. done.
Qed.
End layout.

Definition digits2 (n : Z) : list ascii := [digit_char (n / 10); digit_char n].
Definition digits4 (n : Z) : list ascii :=
  [digit_char (n / 10 / 10 / 10); digit_char (n / 10 / 10); digit_char (n / 10); digit_char n].
Definition digits6 (n : Z) : list ascii :=
  [digit_char (n / 10 / 10 / 10 / 10 / 10); digit_char (n / 10 / 10 / 10 / 10);
   digit_char (n / 10 / 10 / 10); digit_char (n / 10 / 10); digit_char (n / 10); digit_char n].

Lemma digits2_value n : 0 <= n < 100 →
  (0 * 10 + digit_val (digit_char (n / 10))) * 10 + digit_val (digit_char n) = n.
Proof. intros. rewrite !digit_char_val. euclid. Qed.

Lemma digits4_value n : 0 <= n < 10000 →
  (((0 * 10 + digit_val (digit_char (n / 10 / 10 / 10))) * 10
    + digit_val (digit_char (n / 10 / 10))) * 10
    + digit_val (digit_char (n / 10))) * 10 + digit_val (digit_char n) = n.
Proof. intros. rewrite !digit_char_val. euclid. Qed.

Lemma digits6_value n : 0 <= n < 1000000 →
  (((((0 * 10 + digit_val (digit_char (n / 10 / 10 / 10 / 10 / 10))) * 10
    + digit_val (digit_char (n / 10 / 10 / 10 / 10))) * 10
    + digit_val (digit_char (n / 10 / 10 / 10))) * 10
    + digit_val (digit_char (n / 10 / 10))) * 10
    + digit_val (digit_char (n / 10))) * 10 + digit_val (digit_char n) = n.
Proof. intros. rewrite !digit_char_val. euclid. Qed.

(** The characters of [isoformat]'s text. *)
Definition iso_chars (y m d secs us : Z) (suffix : list ascii) : list ascii :=
  digits4 y ++ ["-"%char] ++ digits2 m ++ ["-"%char] ++ digits2 d ++ ["T"%char]
  ++ digits2 (secs / 3600) ++ [":"%char] ++ digits2 (secs / 60 mod 60) ++ [":"%char]
  ++ digits2 (secs mod 60)
  ++ (if us =? 0 then suffix else ["."%char] ++ digits6 us ++ suffix).

Lemma isoformat_chars t suffix y m d :
  ord_to_ymd (t / day_us + 1) = (y, m, d) →
  isoformat t (String.string_of_list_ascii suffix) =
    String.string_of_list_ascii
      (iso_chars y m d ((t / 1000000) mod 86400) (t mod 1000000) suffix).
Proof.
  intros Hymd. unfold isoformat, iso_chars. rewrite Hymd. cbv zeta.
  by destruct (t mod 1000000 =? 0).
Qed.

Lemma all_ascii_digits l :
  Forall (λ c, (code c <? 128)%N = true) l →
  all_chars (λ c, (code c <? 128)%N) (String.string_of_list_ascii l) = true.
Proof. induction 1 as [|c l Hc _ IH]; [done|]. simpl. by rewrite Hc, IH. Qed.

Lemma digits_are_digits n :
  Forall (λ c, is_digit c = true) (digits2 n) ∧ Forall (λ c, is_digit c = true) (digits4 n)
  ∧ Forall (λ c, is_digit c = true) (digits6 n).
Proof. repeat split; repeat constructor; apply digit_char_is_digit. Qed.

Lemma iso_chars_ascii y m d secs us :
  utf8 (String.string_of_list_ascii
    (iso_chars y m d secs us ["+"; "0"; "0"; ":"; "0"; "0"]%char)) =
  String.string_of_list_ascii
    (iso_chars y m d secs us ["+"; "0"; "0"; ":"; "0"; "0"]%char).
Proof.
  apply utf8_ascii, all_ascii_digits. unfold iso_chars, digits2, digits4, digits6.
  destruct (us =? 0); simpl;
    repeat (apply Forall_cons; split;
      [by (apply digit_is_ascii, digit_char_is_digit) || reflexivity|]); apply Forall_nil_2.
Qed.

Lemma time_us_fields secs us :
  0 <= secs < 86400 →
  time_us [secs / 3600; secs / 60 mod 60; secs mod 60] us = Some (secs * 1000000 + us).
Proof.
  intros Hs. unfold time_us, clock_field. simpl.
  rewrite !(proj2 (Z.ltb_lt _ _)) by euclid. simpl. do 2 f_equal. euclid.
Qed.

Lemma digit_list_14 y m d h i s :
  Forall (λ c, is_digit c = true)
    (digits4 y ++ digits2 m ++ digits2 d ++ digits2 h ++ digits2 i ++ digits2 s).
Proof. rewrite !Forall_app. pose proof digits_are_digits. naive_solver. Qed.

(** [fromisoformat] reads back what [isoformat] prints. *)
Lemma fromisoformat_isoformat t :
  representable t = true → fromisoformat (isoformat t "+00:00") = Some (t, Some 0).
Proof.
  intros Ht. unfold representable in Ht. bool_hyps.
  assert (1 <= t / day_us + 1 <= max_ordinal) as Hord.
  { unfold max_instant, max_ordinal, day_us in *. euclid. }
  destruct (ord_to_ymd (t / day_us + 1)) as [[y m] d] eqn:Hymd.
  destruct (ord_to_ymd_year _ _ _ _ Hord Hymd) as (Hdate & Hy & Hm & Hd).
  change "+00:00" with (String.string_of_list_ascii ["+"; "0"; "0"; ":"; "0"; "0"]%char).
  rewrite (isoformat_chars _ _ _ _ _ Hymd).
  set (secs := (t / 1000000) mod 86400). set (us := t mod 1000000).
  assert (0 <= secs < 86400) as Hsecs by (apply Z.mod_pos_bound; lia).
  assert (0 <= us < 1000000) as Hus by (apply Z.mod_pos_bound; lia).
  assert ((t / day_us) * day_us + (secs * 1000000 + us) = t) as Ht'.
  { subst secs us. unfold day_us. euclid. }
  unfold fromisoformat. rewrite iso_chars_ascii, string_of_list_length.
  set (l := iso_chars y m d secs us ["+"; "0"; "0"; ":"; "0"; "0"]%char).
  assert (length l = if us =? 0 then 25%nat else 32%nat) as Hlen.
  { subst l. unfold iso_chars. by destruct (us =? 0). }
  assert (25 <= length l)%nat as Hlen' by (rewrite Hlen; case_match; lia).
  pose proof (digit_list_14 y m d (secs / 3600) (secs / 60 mod 60) (secs mod 60)) as Hdig.
  pose proof (proj2 (proj2 (digits_are_digits us))) as Hdig6.
  simpl in Hdig, Hdig6.
  assert (∀ n, (n < length l)%nat → char_at (String.string_of_list_ascii l) n = nth n l nul)
    as Hchars by (intros n Hn; apply char_at_list; lia).
  pose proof (string_of_list_length l) as Hslen.
  destruct (read_date_layout _ _ _ _ _ _ _ _ _ _ _ _ _ _
    (String.string_of_list_ascii l) Hdig) as [Hsep Hd'].
  { intros n Hn. rewrite Hchars by lia. subst l. unfold iso_chars.
    do 19 (destruct n as [|n]; [done|]). lia. }
  { lia. }
  replace (length l <? 7)%nat with false by (symmetry; apply Nat.ltb_ge; lia).
  rewrite Hsep. cbn [mbind option_bind].
  rewrite Hd', digits4_value, !digits2_value, Hdate by lia. cbn [mbind option_bind].
  replace (10 <? length l)%nat with true by (symmetry; apply Nat.ltb_lt; lia).
  rewrite Hchars by lia. change (nth 10 l nul) with "T"%char.
  change (code "T" <? 128)%N with true. cbv iota.
  assert (parse_time (String.string_of_list_ascii l) 11 =
    Some ([secs / 3600; secs / 60 mod 60; secs mod 60], us, Some 0)) as ->.
  { subst l. unfold iso_chars in *. destruct (us =? 0) eqn:Hz.
    - apply Z.eqb_eq in Hz. rewrite Hz.
      rewrite (read_whole_layout _ _ _ _ _ _ _ _ _ _ _ _ _ _ _ Hdig).
      + rewrite !digits2_value by euclid. done.
      + intros n Hn. rewrite Hchars by (rewrite Hlen; lia). done.
      + by rewrite Hslen, Hlen.
    - rewrite (read_time_layout _ _ _ _ _ _ _ _ _ _ _ _ _ _ _ Hdig
        (digit_char (us / 10 / 10 / 10 / 10 / 10)) (digit_char (us / 10 / 10 / 10 / 10))
        (digit_char (us / 10 / 10 / 10)) (digit_char (us / 10 / 10)) (digit_char (us / 10))
        (digit_char us)).
      + rewrite digits6_value, !digits2_value by euclid. done.
      + intros n Hn. rewrite Hchars by (rewrite Hlen; lia). done.
      + by rewrite Hslen, Hlen.
      + exact Hdig6. }
  cbn [mbind option_bind]. rewrite time_us_fields by done. simpl. do 2 f_equal. lia.
Qed.

(** ** Whole seconds *)

Lemma round_div_floor n d : 0 < d → 2 * (n mod d) < d → FloatRepr.round_div n d = n / d.
Proof. intros Hd H. unfold FloatRepr.round_div. by rewrite (proj2 (Z.compare_lt_iff _ _)) by done. Qed.

Lemma round_div_bounds n d : n / d <= FloatRepr.round_div n d <= n / d + 1.
Proof. unfold FloatRepr.round_div. repeat case_match; lia. Qed.

(** Below [2^34] seconds (544 years) the double-precision quotient loses
    nothing. *)
Lemma whole_seconds_exact us :
  0 <= us < 2 ^ 34 * 1000000 → whole_seconds us = us / 1000000.
Proof.
  intros Hus. unfold whole_seconds. destruct (us <? 1000000) eqn:Hsmall; bool_hyps; [euclid|].
  set (q := us / 1000000). cbv zeta.
  assert (1 <= q < 2 ^ 34) as Hq by (subst q; euclid).
  assert (0 <= Z.log2 q < 34) as Hlog by (split; [apply Z.log2_nonneg|apply Z.log2_lt_pow2; lia]).
  set (k := 52 - Z.log2 q).
  assert (2 ^ 19 <= 2 ^ k) as Hk by (apply Z.pow_le_mono_r; lia).
  assert (2 ^ k = 2 * 2 ^ (k - 1)) as Hk2.
  { rewrite <- Z.pow_succ_r by lia. f_equal. lia. }
  set (p := 2 ^ k) in *. clearbody p.
  destruct (div_mod_bounds us 1000000) as [Heq Hr]; [lia|]. fold q in Heq.
  set (r := us mod 1000000) in *. clearbody r q.
  assert (us * p = 1000000 * (q * p) + r * p) as -> by nia.
  assert (∀ x, (1000000 * (q * p) + x) / 1000000 = q * p + x / 1000000) as Hdiv by (intros; euclid).
  assert (∀ x, (1000000 * (q * p) + x) mod 1000000 = x mod 1000000) as Hmod by (intros; euclid).
  change (2 ^ 19) with 524288 in Hk. assert (r * p <= 999999 * p) as Hrp by nia.
  assert (0 <= r * p) by nia.
  assert (∀ x, 0 <= x < p → (q * p + x) / p = q) as Hdone.
  { intros x Hx. symmetry. apply (Z.div_unique _ _ _ x); lia. }
  pose proof (round_div_bounds (1000000 * (q * p) + r * p) 1000000) as Hb.
  rewrite Hdiv in Hb.
  destruct (decide (r * p / 1000000 + 1 < p)).
  - set (m := FloatRepr.round_div _ _) in *.
    replace m with (q * p + (m - q * p)) by lia. apply Hdone.
    assert (0 <= r * p / 1000000) by (apply Z.div_pos; lia). lia.
  - rewrite round_div_floor; [|lia|].
    + rewrite Hdiv. apply Hdone. split; [apply Z.div_pos; lia|]. euclid.
    + rewrite Hmod. euclid.
Qed.

Lemma elapsed_seconds_exact a b :
  Z.abs (a - b) < 2 ^ 34 * 1000000 → elapsed_seconds a b = Z.quot (a - b) 1000000.
Proof.
  intros H. unfold elapsed_seconds. rewrite whole_seconds_exact by lia.
  rewrite <- Z.quot_div_nonneg by lia.
  destruct (Z.abs_spec (a - b)) as [[? ->]|[? ->]].
  - destruct (decide (a - b = 0)) as [->|]; [done|]. rewrite Z.sgn_pos by lia. lia.
  - rewrite Z.sgn_neg by lia. rewrite Z.quot_opp_l by lia. lia.
Qed.
