(* ===== verification/Regex.v ===== *)
(** * Regular expressions

    The part of [re] the sources search texts with: character classes,
    sequences, alternatives, repetitions and word boundaries.  [ends] computes
    every position a match can end at, in the reach of the backtracking
    matcher; [matches] is the meaning of a pattern; [search_spec] relates the
    two.  Only the existence of a match matters to the sources that search. *)
From S2P Require Import Prelude PyValue.
From Stdlib Require Import Ascii.

(** ** Patterns *)

Inductive regex : Type :=
  | Empty
  | Class (p : ascii → bool)
  | Seq (a b : regex)
  | Alt (a b : regex)
  | Star (a : regex)
  | WordBoundary.

Definition Plus (a : regex) : regex := Seq a (Star a).
Definition Opt (a : regex) : regex := Alt Empty a.
Fixpoint Times (n : nat) (a : regex) : regex :=
  match n with O => Empty | S n => Seq a (Times n a) end.
(** [a{n,}] *)
Definition AtLeast (n : nat) (a : regex) : regex := Seq (Times n a) (Star a).

(** A literal text, and one whose letters match in either case. *)
Fixpoint Lit (s : string) : regex :=
  match s with
  | EmptyString => Empty
  | String c s => Seq (Class (Ascii.eqb c)) (Lit s)
  end.

Definition lower_char (c : ascii) : ascii :=
  if is_upper c then ascii_of_N (code c + 32) else c.
(** The class under [re.IGNORECASE], for classes of ASCII characters: no
    letter between 128 and 255 folds to an ASCII letter. *)
Definition either_case (p : ascii → bool) (c : ascii) : bool :=
  p c || (is_upper c && p (lower_char c))
  || (is_lower c && p (ascii_of_N (code c - 32))).
Fixpoint ILit (s : string) : regex :=
  match s with
  | EmptyString => Empty
  | String c s => Seq (Class (either_case (Ascii.eqb c))) (ILit s)
  end.
Fixpoint alternatives (l : list regex) : regex :=
  match l with
  | [] => Class (λ _, false)
  | [r] => r
  | r :: l => Alt r (alternatives l)
  end.

(** [\w] below 256: ASCII letters, digits and the underscore, the Latin-1
    letters, the feminine and masculine ordinals, the micro sign, and the
    superscript digits and fractions, which are numeric. *)
Definition is_word (c : ascii) : bool :=
  let n := code c in
  is_alnum c || (n =? 95)%N
  || existsb (N.eqb n) [170; 178; 179; 181; 185; 186; 188; 189; 190]%N
  || ((192 <=? n) && negb (n =? 215) && negb (n =? 247))%N.

(** [\s] below 256. *)
Definition is_space (c : ascii) : bool :=
  let n := code c in
  ((9 <=? n) && (n <=? 13) || (28 <=? n) && (n <=? 32) || (n =? 133) || (n =? 160))%N.

(** ** Positions: the character before, and the text from there on *)

Definition pos : Type := option ascii * list ascii.

Definition word_before (p : pos) : bool :=
  match p.1 with Some c => is_word c | None => false end.
Definition word_after (p : pos) : bool :=
  match p.2 with c :: _ => is_word c | [] => false end.

(** The positions reached from [p] by iterating [step], each time further. *)
Fixpoint iterate (step : pos → list pos) (fuel : nat) (p : pos) : list pos :=
  p :: match fuel with
       | O => []
       | S fuel =>
           flat_map (iterate step fuel)
             (List.filter (λ q, length q.2 <? length p.2)%nat (step p))
       end.

Fixpoint ends (r : regex) (p : pos) : list pos :=
  match r with
  | Empty => [p]
  | Class f =>
      match p.2 with
      | c :: rest => if f c then [(Some c, rest)] else []
      | [] => []
      end
  | Seq a b => flat_map (ends b) (ends a p)
  | Alt a b => ends a p ++ ends b p
  | Star a => iterate (ends a) (length p.2) p
  | WordBoundary => if xorb (word_before p) (word_after p) then [p] else []
  end.

Fixpoint positions (before : option ascii) (l : list ascii) : list pos :=
  (before, l) :: match l with [] => [] | c :: l => positions (Some c) l end.

Definition matches_at (r : regex) (p : pos) : bool :=
  match ends r p with [] => false | _ => true end.

(** [re.search(pattern, s) is not None] *)
Definition search (r : regex) (s : string) : bool :=
  existsb (matches_at r) (positions None (String.list_ascii_of_string s)).

(** ** Meaning *)

Inductive matches : regex → pos → pos → Prop :=
  | match_empty p : matches Empty p p
  | match_class f b c rest : f c = true → matches (Class f) (b, c :: rest) (Some c, rest)
  | match_seq a b p q r : matches a p q → matches b q r → matches (Seq a b) p r
  | match_left a b p q : matches a p q → matches (Alt a b) p q
  | match_right a b p q : matches b p q → matches (Alt a b) p q
  | match_none a p : matches (Star a) p p
  | match_more a p q r : matches a p q → matches (Star a) q r → matches (Star a) p r
  | match_boundary p :
      word_before p ≠ word_after p → matches WordBoundary p p.

(** [q] is [p] or lies behind it. *)
Definition advances (p q : pos) : Prop := p = q ∨ (length q.2 < length p.2)%nat.

Lemma advances_trans p q r : advances p q → advances q r → advances p r.
Proof. intros [->|H] [->|H']; unfold advances; auto. right. lia. Qed.

Lemma matches_advances r p q : matches r p q → advances p q.
Proof.
  induction 1; try (by left); try done; [|by eapply advances_trans..].
  right. simpl. lia.
Qed.

Section star.
Context (step : pos → list pos) (a : regex).
Context (Hstep : ∀ p q, q ∈ step p ↔ matches a p q).

Lemma iterate_sound fuel p q : q ∈ iterate step fuel p → matches (Star a) p q.
Proof.
  revert p; induction fuel as [|fuel IH]; intros p; simpl; rewrite elem_of_cons.
  { intros [->|H]; [constructor|by apply not_elem_of_nil in H]. }
  intros [->|H]; [constructor|].
  apply list_elem_of_In, in_flat_map in H as (m & Hm & Hq).
  apply filter_In in Hm as [Hm _].
  eapply match_more; [apply Hstep, list_elem_of_In, Hm|apply IH, list_elem_of_In, Hq].
Qed.

Lemma iterate_complete fuel p q :
  (length p.2 <= fuel)%nat → matches (Star a) p q → q ∈ iterate step fuel p.
Proof.
  intros Hfuel H. remember (Star a) as r eqn:Hr. revert fuel Hfuel.
  induction H as [| | | | |a' p|a' p m q Hpm _ Hmq IH|]; simplify_eq; intros fuel Hfuel.
  - destruct fuel; simpl; by left.
  - destruct (matches_advances _ _ _ Hpm) as [->|Hlt]; [by apply IH; [|lia]|].
    destruct fuel as [|fuel]; [lia|]. simpl. right.
    apply list_elem_of_In, in_flat_map. exists m. split.
    + apply filter_In. split; [by apply list_elem_of_In, Hstep|]. by apply Nat.ltb_lt.
    + apply list_elem_of_In, IH; [done|lia].
Qed.
End star.

(** The computed ends are the ends of the matches. *)
Lemma ends_spec r p q : q ∈ ends r p ↔ matches r p q.
Proof.
  revert p q; induction r as [|f|a IHa b IHb|a IHa b IHb|a IHa|]; intros p q; simpl.
  - rewrite list_elem_of_singleton. split; [intros ->; constructor|by inversion 1].
  - destruct p as [before [|c rest]]; simpl.
    { split; [by intros H%not_elem_of_nil|inversion 1]. }
    destruct (f c) eqn:Hf.
    + rewrite list_elem_of_singleton. split; [intros ->; by constructor|by inversion 1].
    + split; [by intros H%not_elem_of_nil|inversion 1; congruence].
  - rewrite list_elem_of_In, in_flat_map. split.
    + intros (m & Hm & Hq). econstructor; [apply IHa|apply IHb]; by apply list_elem_of_In.
    + inversion 1; subst. eexists. rewrite <- !list_elem_of_In, IHa, IHb. eauto.
  - rewrite elem_of_app, IHa, IHb. split.
    + intros [|]; [by apply match_left|by apply match_right].
    + inversion 1; auto.
  - split; [by apply iterate_sound|by apply iterate_complete].
  - destruct (word_before p) eqn:Hb, (word_after p) eqn:Ha; simpl;
      rewrite ?list_elem_of_singleton;
      (split; [try (by intros H%not_elem_of_nil); intros ->; constructor; congruence
              |inversion 1; congruence || done]).
Qed.

(** [search] finds a match exactly when there is one. *)
Lemma search_spec r s :
  search r s = true ↔
  ∃ p q, p ∈ positions None (String.list_ascii_of_string s) ∧ matches r p q.
Proof.
  unfold search. rewrite existsb_elem_of. split.
  - intros (p & Hp & Hm). unfold matches_at in Hm.
    destruct (ends r p) as [|q l] eqn:He; [done|]. exists p, q. split; [done|].
    apply ends_spec. rewrite He. by left.
  - intros (p & q & Hp & Hm%ends_spec). exists p. split; [done|].
    unfold matches_at. destruct (ends r p); [by apply not_elem_of_nil in Hm|done].
Qed.
