(* ===== verification/RecoveryCommon.v ===== *)
(** * Validation primitives of artifact recovery

    [src/tools/artifact_recovery/common.py]: timestamps, typed field access,
    the walk over a document and the public-safety scan; and the strict-object
    helpers that [source_coverage.py] and [mutation_receipts_contract.py] both
    define.  The main results: a normalised timestamp denotes the instant it
    was read as and normalises to itself, and the scan accepts a document
    exactly when none of its strings matches a forbidden pattern. *)
From S2P Require Import Prelude PyValue Sha256 Json DateTime Regex.
From Stdlib Require Import Ascii SpecFloat.
Open Scope Z_scope.

(** ** Python's [==] on documents *)

Definition float_is (f : spec_float) (z : Z) : bool :=
  match f with
  | S754_zero _ => z =? 0
  | S754_finite s m e =>
      let m := if s then Zneg m else Zpos m in
      if 0 <=? e then m * 2 ^ e =? z else m =? z * 2 ^ (- e)
  | _ => false
  end.

(** A [bool] equals the [int] it is; an [int] and a [float] compare exactly;
    dicts compare without regard to order. *)
Fixpoint py_eq (v w : value) : bool :=
  match v, w with
  | VNone, VNone => true
  | VStr s, VStr t => String.eqb s t
  | VBool a, VBool b => Bool.eqb a b
  | VBool a, VInt z | VInt z, VBool a => z =? Z.b2z a
  | VInt x, VInt y => x =? y
  | VFloat f, VInt z | VInt z, VFloat f => float_is f z
  | VFloat f, VBool a | VBool a, VFloat f => float_is f (Z.b2z a)
  | VFloat f, VFloat g => SFeqb f g
  | VList l, VList m =>
      (fix go (l m : list value) : bool :=
         match l, m with
         | [], [] => true
         | x :: l, y :: m => py_eq x y && go l m
         | _, _ => false
         end) l m
  | VDict d, VDict e =>
      (length d =? length e)%nat &&
      (fix go (d : items) : bool :=
         match d with
         | [] => true
         | (k, x) :: d => dict_has e k && py_eq x (dict_get e k) && go d
         end) d
  | _, _ => false
  end.

(** ** Errors *)

Definition recovery_error (msg : string) : exn := Exn RecoveryError msg.

(** ** Canonical JSON *)

Definition canonical_json (v : value) : string := canonical v.
Definition digest_of (v : value) : string := sha256_hex (canonical_json v).

(** ** Timestamps *)

(** [s.replace(old, new)] for a non-empty [old]. *)
Fixpoint str_replace_go (fuel : nat) (old new s : string) : string :=
  match fuel, s with
  | S fuel, String c rest =>
      if starts_with s old then
        new +:+ str_replace_go fuel old new
          (String.substring (String.length old) (String.length s - String.length old) s)
      else String c (str_replace_go fuel old new rest)
  | _, _ => s
  end.
Definition str_replace (s old new : string) : string :=
  str_replace_go (String.length s) old new s.

(** [s[:-1]] *)
Definition drop_last (s : string) : string :=
  String.substring 0 (String.length s - 1) s.

Definition utc_suffix : string := "+00:00".

Definition parse_timestamp (v : value) (field : string) : result string :=
  match v with
  | VStr (String _ _ as s) =>
      let normalized := if ends_with s "Z" then drop_last s +:+ utc_suffix else s in
      match fromisoformat normalized with
      | None => Raise (recovery_error (field +:+ " must be ISO-8601"))
      | Some (_, None) => Raise (recovery_error (field +:+ " must include a timezone"))
      | Some (wall, Some offset) =>
          t ← to_utc wall offset;
          Ok (str_replace (isoformat t utc_suffix) utc_suffix "Z")
      end
  | _ => Raise (recovery_error (field +:+ " must be a non-empty ISO-8601 timestamp"))
  end.

(** The normalised text and the instant.  The text has a zone, so reading it
    back neither fails nor gives a naive value ([parse_datetime_instant]). *)
Definition parse_datetime (v : value) (field : string) : result (string * Z) :=
  normalized ← parse_timestamp v field;
  match fromisoformat (str_replace normalized "Z" utc_suffix) with
  | Some (wall, Some offset) => t ← to_utc wall offset; Ok (normalized, t)
  | _ => Raise (Exn ValueError ("Invalid isoformat string: " +:+ repr_str normalized))
  end.

(** ** Typed access *)

Definition MAX_ITEMS : Z := 10000.
Definition MAX_STRING : Z := 512.

Definition expect_object (v : value) (field : string) : result items :=
  match v with
  | VDict d => Ok d
  | _ => Raise (recovery_error (field +:+ " must be an object"))
  end.

Definition expect_list (v : value) (field : string) (maximum : Z) : result (list value) :=
  match v with
  | VList l =>
      raise_if (maximum <? Z.of_nat (length l))
        (recovery_error (field +:+ " exceeds " +:+ str_int maximum +:+ " items")) ;;
      Ok l
  | _ => Raise (recovery_error (field +:+ " must be an array"))
  end.

Definition expect_bool (v : value) (field : string) : result bool :=
  match v with
  | VBool b => Ok b
  | _ => Raise (recovery_error (field +:+ " must be a boolean"))
  end.

Definition is_control (c : ascii) : bool := (code c <? 32)%N.

Definition expect_string (v : value) (field : string) (maximum : Z) : result string :=
  match v with
  | VStr (String _ _ as s) =>
      raise_if (maximum <? slen s)
        (recovery_error (field +:+ " exceeds " +:+ str_int maximum +:+ " characters")) ;;
      raise_if (negb (all_chars (λ c, negb (is_control c)) s))
        (recovery_error (field +:+ " contains a control character")) ;;
      Ok s
  | _ => Raise (recovery_error (field +:+ " must be a non-empty string"))
  end.

Definition strict_object (v : value) (field : string) (allowed : list string) : result items :=
  obj ← expect_object v field;
  let extra := sorted_diff (dict_keys obj) allowed in
  raise_if (negb (bool_decide (extra = [])))
    (recovery_error (field +:+ " has unsupported keys: " +:+ repr_strs extra)) ;;
  Ok obj.

Definition strict_int (v : value) (field : string) (minimum : Z) (maximum : option Z)
  : result Z :=
  match v with
  | VInt z =>
      raise_if (z <? minimum)
        (recovery_error (field +:+ " must be at least " +:+ str_int minimum)) ;;
      match maximum with
      | Some m =>
          raise_if (m <? z) (recovery_error (field +:+ " must be at most " +:+ str_int m)) ;;
          Ok z
      | None => Ok z
      end
  | _ => Raise (recovery_error (field +:+ " must be an integer"))
  end.

Definition SHA256_LENGTH : Z := 64.

Definition strict_sha256 (v : value) (field : string) : result string :=
  digest ← expect_string v field SHA256_LENGTH;
  raise_if (negb (slen digest =? SHA256_LENGTH) || negb (all_chars is_hex digest))
    (recovery_error (field +:+ " must be a lowercase SHA-256 digest")) ;;
  Ok digest.

Definition optional_sha256 (v : value) (field : string) : result (option string) :=
  if is_none v then Ok None else Some <$> strict_sha256 v field.

(** A text that must be one of a constant tuple. *)
Definition member_of (v : value) (field : string) (maximum : Z) (allowed : list string)
  : result string :=
  s ← expect_string v field maximum;
  raise_if (negb (mem_str s allowed)) (recovery_error (field +:+ " is unsupported")) ;;
  Ok s.

(** ** The public-safety scan *)

Definition token_char (c : ascii) : bool := is_alnum c || one_of "_" c.
Definition TOKEN_RE : regex :=
  Seq WordBoundary (Seq
    (Alt
      (Seq (Lit "gh") (Seq (Class (one_of "pousr")) (Seq (Lit "_")
        (AtLeast 20 (Class token_char)))))
      (Seq (Lit "sk-") (AtLeast 20 (Class (λ c, token_char c || one_of "-" c)))))
    WordBoundary).

Definition BEARER_RE : regex :=
  Seq WordBoundary (Seq (ILit "bearer") (Seq (Plus (Class is_space))
    (AtLeast 8 (Class (either_case (λ c, is_alnum c || one_of "._~+/=-" c)))))).

Definition PRIVATE_KEY_RE : regex :=
  Seq (Lit "-----BEGIN ")
    (Seq (Star (Class (λ c, is_upper c || is_digit c || one_of " " c)))
      (Lit "PRIVATE KEY-----")).

Definition SECRET_ASSIGNMENT_RE : regex :=
  let gap := Opt (Class (one_of "_ -")) in
  Seq WordBoundary (Seq
    (alternatives
      [Seq (ILit "api") (Seq gap (ILit "key")); ILit "password";
       Seq (ILit "private") (Seq gap (ILit "key")); ILit "secret"; ILit "token"])
    (Seq WordBoundary
      (Seq (Star (Class is_space)) (Seq (Class (one_of ":="))
        (Seq (Star (Class is_space)) (Plus (Class (λ c, negb (is_space c)))))))) ).

Definition EMAIL_RE : regex :=
  Seq WordBoundary (Seq
    (Plus (Class (either_case (λ c, is_upper c || is_digit c || one_of "._%+-" c))))
    (Seq (Lit "@") (Seq
      (Plus (Class (either_case (λ c, is_upper c || is_digit c || one_of ".-" c))))
      (Seq (Lit ".") (Seq (AtLeast 2 (Class (either_case is_upper))) WordBoundary))))).

(** Every node of the document with its path, parents first. *)
Fixpoint walk (v : value) (path : string) : list (string * value) :=
  (path, v) ::
  match v with
  | VDict d => flat_map (λ kv, walk kv.2 (path +:+ "." +:+ kv.1)) d
  | VList l =>
      (fix go (index : nat) (l : list value) : list (string * value) :=
         match l with
         | [] => []
         | x :: l => walk x (path +:+ "[" +:+ str_nat index +:+ "]") ++ go (S index) l
         end) O l
  | _ => []
  end.

Definition scan_node (node : string * value) : result unit :=
  let '(path, nested) := node in
  match nested with
  | VStr s =>
      raise_if (search TOKEN_RE s) (recovery_error ("credential-shaped token at " +:+ path)) ;;
      raise_if (search BEARER_RE s) (recovery_error ("bearer credential at " +:+ path)) ;;
      raise_if (search PRIVATE_KEY_RE s)
        (recovery_error ("private key material at " +:+ path)) ;;
      raise_if (search SECRET_ASSIGNMENT_RE s)
        (recovery_error ("secret assignment at " +:+ path)) ;;
      raise_if (search EMAIL_RE s)
        (recovery_error ("email-shaped personal data at " +:+ path)) ;;
      raise_if (8192 <? slen s) (recovery_error ("unbounded string at " +:+ path))
  | _ => Ok tt
  end.

Definition validate_public_safety (v : value) : result unit :=
  for_each (walk v "$") (λ node _, scan_node node) tt.

(** ** Replacement and suffixes *)

Section replace.
Context (old new : string).

Lemma str_replace_go_skip fuel l t :
  Forall (λ c, ∀ d s, old = String d s → c ≠ d) l → old ≠ EmptyString →
  (length l <= fuel)%nat →
  str_replace_go fuel old new (String.string_of_list_ascii l +:+ t) =
    String.string_of_list_ascii l +:+ str_replace_go (fuel - length l) old new t.
Proof.
  intros Hl Hold. revert fuel; induction Hl as [|c l Hc _ IH]; intros fuel Hfuel.
  - by rewrite Nat.sub_0_r.
  - destruct fuel as [|fuel]; simpl in Hfuel; [lia|].
    change (String.string_of_list_ascii (c :: l)) with (String c (String.string_of_list_ascii l)).
    rewrite !app_cons_str. cbn [str_replace_go].
    assert (starts_with (String c (String.string_of_list_ascii l +:+ t)) old = false) as ->.
    { destruct old as [|d o]; [done|]. simpl. rewrite bool_decide_eq_false_2; [done|].
      intros ->. by eapply Hc. }
    rewrite IH by lia. done.
Qed.

(** Text free of the first character of [old], followed by [old] itself. *)
Lemma str_replace_suffix l d o :
  old = String d o → starts_with old old = true →
  String.substring (String.length old) 0 old = EmptyString →
  Forall (λ c, c ≠ d) l →
  str_replace (String.string_of_list_ascii l +:+ old) old new =
    String.string_of_list_ascii l +:+ new.
Proof.
  intros Hold Hself Hempty Hl. unfold str_replace.
  rewrite length_app_str, string_of_list_length.
  rewrite str_replace_go_skip; [| |congruence|lia].
  - replace (length l + String.length old - length l)%nat with (String.length old) by lia.
    f_equal. rewrite Hold in *. cbn [String.length str_replace_go]. rewrite Hself.
    change (S (String.length o)) with (String.length (String d o)).
    rewrite Nat.sub_diag, Hempty.
    destruct (String.length o); simpl; apply app_nil_r_str.
  - eapply Forall_impl; [done|]. intros c Hc d' s' Heq. congruence.
Qed.
End replace.

Lemma substring_prefix l t :
  String.substring 0 (length l) (String.string_of_list_ascii l +:+ t) =
    String.string_of_list_ascii l.
Proof.
  induction l as [|c l IH]; [by destruct t|].
  simpl length. change (String.string_of_list_ascii (c :: l) +:+ t)
    with (String c (String.string_of_list_ascii l +:+ t)). simpl. by rewrite IH.
Qed.

Lemma substring_all t : String.substring 0 (String.length t) t = t.
Proof. induction t as [|c t IH]; simpl; congruence. Qed.

Lemma substring_suffix l t :
  String.substring (length l) (String.length t) (String.string_of_list_ascii l +:+ t) = t.
Proof.
  induction l as [|c l IH]; [|exact IH]. apply substring_all.
Qed.

Lemma ends_with_app l t : ends_with (String.string_of_list_ascii l +:+ t) t = true.
Proof.
  unfold ends_with. rewrite length_app_str, string_of_list_length.
  replace (length l + String.length t - String.length t)%nat with (length l) by lia.
  rewrite substring_suffix, bool_decide_eq_true_2 by done.
  rewrite (proj2 (Nat.leb_le _ _)) by lia. done.
Qed.

(** ** Timestamps *)

(** The characters of a printed instant before its zone. *)
Definition iso_body (t : Z) : list ascii :=
  let '(y, m, d) := ord_to_ymd (t / day_us + 1) in
  iso_chars y m d ((t / 1000000) mod 86400) (t mod 1000000) [].

Lemma isoformat_body t suffix :
  isoformat t (String.string_of_list_ascii suffix) =
    String.string_of_list_ascii (iso_body t) +:+ String.string_of_list_ascii suffix.
Proof.
  unfold iso_body. destruct (ord_to_ymd (t / day_us + 1)) as [[y m] d] eqn:Hymd.
  rewrite (isoformat_chars _ _ _ _ _ Hymd). unfold iso_chars.
  by destruct (t mod 1000000 =? 0).
Qed.

Lemma iso_body_chars t :
  Forall (λ c, is_digit c = true ∨ c = "-"%char ∨ c = "T"%char ∨ c = ":"%char ∨ c = "."%char)
    (iso_body t).
Proof.
  unfold iso_body. destruct (ord_to_ymd _) as [[y m] d].
  unfold iso_chars, digits2, digits4, digits6. destruct (_ =? 0); simpl;
    repeat (apply Forall_cons; split; [pose proof digit_char_is_digit; naive_solver|]);
    apply Forall_nil_2.
Qed.

Lemma iso_body_free t d :
  is_digit d = false → d ∉ ["-"; "T"; ":"; "."]%char → Forall (λ c, c ≠ d) (iso_body t).
Proof.
  intros Hd Hin. eapply Forall_impl; [apply iso_body_chars|].
  intros c [Hc|Hc] ->; [congruence|]. apply Hin. rewrite !elem_of_cons. tauto.
Qed.

Lemma isoformat_to_z t :
  str_replace (isoformat t utc_suffix) utc_suffix "Z" = isoformat t "Z".
Proof.
  change utc_suffix with (String.string_of_list_ascii ["+"; "0"; "0"; ":"; "0"; "0"]%char) at 1.
  change "Z" with (String.string_of_list_ascii ["Z"%char]) at 2.
  rewrite !isoformat_body. eapply str_replace_suffix; try done.
  apply iso_body_free; [done|]. by apply (bool_decide_eq_true_1 _).
Qed.

Lemma isoformat_from_z t :
  str_replace (isoformat t "Z") "Z" utc_suffix = isoformat t utc_suffix.
Proof.
  change utc_suffix with (String.string_of_list_ascii ["+"; "0"; "0"; ":"; "0"; "0"]%char) at 2.
  change (isoformat t "Z") with (isoformat t (String.string_of_list_ascii ["Z"%char])).
  rewrite !isoformat_body. eapply str_replace_suffix; try done.
  apply iso_body_free; [done|]. by apply (bool_decide_eq_true_1 _).
Qed.

Lemma to_utc_zero t : representable t = true → to_utc t 0 = Ok t.
Proof. intros Ht. unfold to_utc, instant_add. by rewrite Z.add_0_r, Ht. Qed.

Lemma to_utc_Ok w o t : to_utc w o = Ok t → representable t = true.
Proof. unfold to_utc, instant_add. case_match; [by intros [= <-]|done]. Qed.

(** A printed instant is not empty and ends with [Z]; read as a date-time, it
    is the instant in UTC. *)
Lemma isoformat_zulu t : ∃ c s, isoformat t "Z" = String c s ∧
  (if ends_with (String c s) "Z" then drop_last (String c s) +:+ utc_suffix else String c s) =
    isoformat t utc_suffix.
Proof.
  assert (isoformat t "Z" = String.string_of_list_ascii (iso_body t) +:+ "Z") as Hz
    by apply (isoformat_body t ["Z"%char]).
  assert (ends_with (isoformat t "Z") "Z" = true) as Hend
    by (rewrite Hz; apply ends_with_app).
  assert (drop_last (isoformat t "Z") +:+ utc_suffix = isoformat t utc_suffix) as Hdrop.
  { unfold drop_last. rewrite Hz, length_app_str, string_of_list_length. simpl String.length.
    replace (length (iso_body t) + 1 - 1)%nat with (length (iso_body t)) by lia.
    rewrite substring_prefix.
    symmetry. apply (isoformat_body t ["+"; "0"; "0"; ":"; "0"; "0"]%char). }
  destruct (isoformat t "Z") as [|c s] eqn:Hs.
  { by destruct (iso_body t); simpl in Hz. }
  exists c, s. by rewrite Hend.
Qed.

(** A printed instant is already normalised. *)
Lemma parse_timestamp_printed t field :
  representable t = true →
  parse_timestamp (VStr (isoformat t "Z")) field = Ok (isoformat t "Z").
Proof.
  intros Ht. unfold parse_timestamp. destruct (isoformat_zulu t) as (c & s & Hs & Hz).
  rewrite Hs, Hz. unfold utc_suffix at 1. rewrite fromisoformat_isoformat by done.
  rewrite to_utc_zero by done. simpl. by rewrite isoformat_to_z, Hs.
Qed.

(** Whatever was read, the normalised text is a printed instant. *)
Lemma parse_timestamp_Ok v field s :
  parse_timestamp v field = Ok s → ∃ t, representable t = true ∧ s = isoformat t "Z".
Proof.
  unfold parse_timestamp. intros H. repeat case_match; try discriminate H.
  all: apply bind_Ok in H as (t & Ht & [= <-]); exists t; split;
    [by eapply to_utc_Ok|apply isoformat_to_z].
Qed.

Lemma parse_datetime_Ok v field s t :
  parse_datetime v field = Ok (s, t) →
  parse_timestamp v field = Ok s ∧ s = isoformat t "Z" ∧ representable t = true.
Proof.
  unfold parse_datetime. intros (n & Hn & H)%bind_Ok.
  destruct (parse_timestamp_Ok _ _ _ Hn) as (t' & Ht' & ->).
  rewrite isoformat_from_z in H. unfold utc_suffix in H.
  rewrite fromisoformat_isoformat, to_utc_zero in H by done.
  injection H as <- <-. done.
Qed.

Lemma parse_datetime_printed t field :
  representable t = true →
  parse_datetime (VStr (isoformat t "Z")) field = Ok (isoformat t "Z", t).
Proof.
  intros Ht. unfold parse_datetime. rewrite parse_timestamp_printed by done. simpl.
  rewrite isoformat_from_z. unfold utc_suffix.
  by rewrite fromisoformat_isoformat, to_utc_zero.
Qed.

(** The field's name only shows in error texts. *)
Lemma parse_datetime_of v f f' t :
  parse_timestamp v f = Ok (isoformat t "Z") → representable t = true →
  parse_datetime v f' = Ok (isoformat t "Z", t).
Proof.
  intros Hp Ht.
  assert (parse_timestamp v f' = Ok (isoformat t "Z")) as Hp'.
  { revert Hp. unfold parse_timestamp. repeat case_match; done. }
  unfold parse_datetime. rewrite Hp'. simpl. rewrite isoformat_from_z.
  unfold utc_suffix. by rewrite fromisoformat_isoformat, to_utc_zero.
Qed.

Lemma isoformat_inj t1 t2 :
  representable t1 = true → representable t2 = true →
  isoformat t1 "Z" = isoformat t2 "Z" → t1 = t2.
Proof.
  intros H1 H2 Heq. pose proof (parse_datetime_printed t1 EmptyString H1) as E1.
  rewrite Heq, parse_datetime_printed in E1 by done. congruence.
Qed.

(** ** Typed access: what success means *)

Lemma expect_object_Ok v f d : expect_object v f = Ok d ↔ v = VDict d.
Proof. destruct v; simpl; split; congruence. Qed.

Lemma expect_list_Ok v f n l :
  expect_list v f n = Ok l ↔ v = VList l ∧ Z.of_nat (length l) <= n.
Proof.
  destruct v; simpl; try (split; [done|by intros [? _]]).
  rewrite bind_Ok. split.
  - intros (u & Hu%raise_if_Ok & [= <-]). bool_hyps. done.
  - intros [[= <-] Hn]. exists tt. split; [|done]. apply raise_if_Ok, Z.ltb_ge. lia.
Qed.

Lemma expect_list_again {A} (to_value : A → value) l f n :
  Z.of_nat (length l) <= n → expect_list (VList (map to_value l)) f n = Ok (map to_value l).
Proof. intros Hn. apply expect_list_Ok. by rewrite length_map. Qed.

Lemma expect_bool_Ok v f b : expect_bool v f = Ok b ↔ v = VBool b.
Proof. destruct v; simpl; split; congruence. Qed.

(** A text the bounded reader accepts. *)
Definition plain (maximum : Z) (s : string) : Prop :=
  s ≠ EmptyString ∧ slen s <= maximum ∧ all_chars (λ c, negb (is_control c)) s = true.

Lemma expect_string_Ok v f n s : expect_string v f n = Ok s ↔ v = VStr s ∧ plain n s.
Proof.
  unfold plain. destruct v as [| | | |t| |]; simpl; try (split; [done|by intros [? _]]).
  destruct t as [|c t]; [split; [done|by intros [[= <-] [? _]]]|]. split.
  - intros H. repeat inv_step.
    repeat match goal with
    | H : (_ <? _) = false |- _ => apply Z.ltb_ge in H
    | H : negb _ = false |- _ => apply negb_false_iff in H
    end. done.
  - intros [[= <-] (_ & Hn & Hc)]. apply bind_Ok. exists tt.
    split; [by apply raise_if_Ok, Z.ltb_ge|]. apply bind_Ok. exists tt.
    split; [|done]. apply raise_if_Ok, negb_false_iff, Hc.
Qed.

Lemma strict_object_Ok v f allowed d :
  strict_object v f allowed = Ok d ↔ v = VDict d ∧ dict_keys d ⊆ allowed.
Proof.
  unfold strict_object. rewrite bind_Ok. setoid_rewrite expect_object_Ok.
  setoid_rewrite bind_Ok. setoid_rewrite raise_if_Ok.
  setoid_rewrite negb_false_iff. setoid_rewrite bool_decide_eq_true.
  setoid_rewrite sorted_diff_nil. split.
  - intros (? & -> & [] & ? & [= <-]). done.
  - intros [-> ?]. exists d. split; [done|]. by exists tt.
Qed.

Lemma strict_int_Ok v f lo hi z :
  strict_int v f lo hi = Ok z ↔
  v = VInt z ∧ lo <= z ∧ match hi with Some m => z <= m | None => True end.
Proof.
  destruct v; simpl; try (split; [done|by intros [? _]]).
  rewrite bind_Ok. setoid_rewrite raise_if_Ok. setoid_rewrite Z.ltb_ge.
  destruct hi as [m|]; simpl.
  - setoid_rewrite bind_Ok. setoid_rewrite raise_if_Ok. setoid_rewrite Z.ltb_ge. split.
    + by intros (_ & ? & _ & ? & [= <-]).
    + intros ([= <-] & ? & ?). exists tt. split; [done|]. by exists tt.
  - split; [by intros (_ & ? & [= <-])|]. intros ([= <-] & ? & _). by exists tt.
Qed.

(** A lowercase SHA-256 digest. *)
Definition digest_ok (s : string) : Prop := slen s = 64 ∧ all_chars is_hex s = true.

Lemma hex_not_control s : all_chars is_hex s = true → all_chars (λ c, negb (is_control c)) s = true.
Proof.
  induction s as [|c s IH]; [done|]. simpl. intros [Hc Hs]%andb_true_iff.
  rewrite IH, andb_true_r by done. unfold is_control.
  apply negb_true_iff, N.ltb_ge.
  unfold is_hex, is_digit, in_range in Hc. apply orb_true_iff in Hc as [Hc|Hc]; bool_hyps;
    rewrite N.leb_le in *; change (code "0") with 48%N in *; change (code "a") with 97%N in *; lia.
Qed.

Lemma strict_sha256_Ok v f s : strict_sha256 v f = Ok s ↔ v = VStr s ∧ digest_ok s.
Proof.
  unfold strict_sha256, digest_ok, SHA256_LENGTH. rewrite bind_Ok.
  setoid_rewrite expect_string_Ok. setoid_rewrite bind_Ok. setoid_rewrite raise_if_Ok.
  split.
  - intros (t & [-> _] & _ & H & [= <-]). bool_hyps. done.
  - intros (-> & Hlen & Hhex). exists s. split; [split; [done|]|].
    + split; [by intros ->|]. split; [lia|by apply hex_not_control].
    + exists tt. split; [|done]. rewrite Hhex. by apply orb_false_iff; rewrite Hlen.
Qed.

Lemma optional_sha256_Ok v f o :
  optional_sha256 v f = Ok o ↔ v = opt_str o ∧ match o with Some s => digest_ok s | None => True end.
Proof.
  unfold optional_sha256. destruct (is_none v) eqn:Hv.
  - destruct v; try discriminate Hv. split; [intros H; injection H as H; by subst o|].
    intros [H _]. by destruct o.
  - split.
    + destruct (strict_sha256 v f) as [s|] eqn:H; [|done].
      apply strict_sha256_Ok in H as [-> H]. intros Ho. injection Ho as Ho. by subst o.
    + destruct o as [s|]; intros [-> H]; [|done].
      assert (strict_sha256 (VStr s) f = Ok s) as Hs by by apply strict_sha256_Ok.
      simpl. by rewrite Hs.
Qed.

Lemma member_of_Ok v f n allowed s :
  member_of v f n allowed = Ok s ↔ v = VStr s ∧ plain n s ∧ s ∈ allowed.
Proof.
  unfold member_of. rewrite bind_Ok. setoid_rewrite expect_string_Ok.
  setoid_rewrite bind_Ok. setoid_rewrite raise_if_Ok. setoid_rewrite negb_false_iff.
  setoid_rewrite mem_str_In. split.
  - by intros (t & [-> ?] & _ & ? & [= <-]).
  - intros (-> & ? & ?). exists s. split; [done|]. by exists tt.
Qed.

(** ** Typed access: how it fails *)

Definition recovery_errors : list exn_class := [RecoveryError; OverflowError].

Lemma raises_expect_object v f : raises_in recovery_errors (expect_object v f).
Proof. unfold expect_object. solve_raises_in. Qed.
Lemma raises_expect_list v f n : raises_in recovery_errors (expect_list v f n).
Proof. unfold expect_list. solve_raises_in. Qed.
Lemma raises_expect_bool v f : raises_in recovery_errors (expect_bool v f).
Proof. unfold expect_bool. solve_raises_in. Qed.
Lemma raises_expect_string v f n : raises_in recovery_errors (expect_string v f n).
Proof. unfold expect_string. solve_raises_in. Qed.
#[export] Hint Resolve raises_expect_object raises_expect_list raises_expect_bool
  raises_expect_string : raises.
Lemma raises_strict_object v f allowed : raises_in recovery_errors (strict_object v f allowed).
Proof. unfold strict_object. solve_raises_in. Qed.
Lemma raises_strict_int v f lo hi : raises_in recovery_errors (strict_int v f lo hi).
Proof. unfold strict_int. solve_raises_in. Qed.
Lemma raises_strict_sha256 v f : raises_in recovery_errors (strict_sha256 v f).
Proof. unfold strict_sha256. solve_raises_in. Qed.
#[export] Hint Resolve raises_strict_object raises_strict_int raises_strict_sha256 : raises.
Lemma raises_optional_sha256 v f : raises_in recovery_errors (optional_sha256 v f).
Proof. unfold optional_sha256. solve_raises_in. Qed.
Lemma raises_member_of v f n allowed : raises_in recovery_errors (member_of v f n allowed).
Proof. unfold member_of. solve_raises_in. Qed.
Lemma raises_instant_add t us : raises_in recovery_errors (instant_add t us).
Proof. unfold instant_add. solve_raises_in. Qed.
#[export] Hint Resolve raises_optional_sha256 raises_member_of raises_instant_add : raises.
Lemma raises_parse_timestamp v f : raises_in recovery_errors (parse_timestamp v f).
Proof. unfold parse_timestamp, to_utc. solve_raises_in. Qed.
#[export] Hint Resolve raises_parse_timestamp : raises.

(** The second reading of a timestamp cannot be the one that fails. *)
Lemma raises_parse_datetime v f : raises_in recovery_errors (parse_datetime v f).
Proof.
  unfold parse_datetime. apply raises_in_bind; [apply raises_parse_timestamp|].
  intros n (t & Ht & ->)%parse_timestamp_Ok. rewrite isoformat_from_z. unfold utc_suffix.
  by rewrite fromisoformat_isoformat, to_utc_zero.
Qed.
#[export] Hint Resolve raises_parse_datetime : raises.

(** ** The scan *)

(** [w] is a node of the document [v]. *)
Inductive occurs : value → value → Prop :=
  | occurs_here v : occurs v v
  | occurs_list l x w : x ∈ l → occurs x w → occurs (VList l) w
  | occurs_dict d k x w : (k, x) ∈ d → occurs x w → occurs (VDict d) w.

Definition walk_list (path : string) : nat → list value → list (string * value) :=
  fix go (index : nat) (l : list value) : list (string * value) :=
    match l with
    | [] => []
    | x :: l => walk x (path +:+ "[" +:+ str_nat index +:+ "]") ++ go (S index) l
    end.

Lemma walk_list_elem path i l node :
  node ∈ walk_list path i l ↔ ∃ j x, x ∈ l ∧
    node ∈ walk x (path +:+ "[" +:+ str_nat j +:+ "]") ∧ l !! (j - i)%nat = Some x ∧ (i <= j)%nat.
Proof.
  revert i; induction l as [|x l IH]; intros i; simpl.
  { split; [by intros ?%not_elem_of_nil|by intros (? & ? & ?%not_elem_of_nil & _)]. }
  rewrite elem_of_app, IH. split.
  - intros [H|(j & y & Hy & H & Hj & Hij)].
    + exists i, x. rewrite Nat.sub_diag. repeat split; [by left|done|lia].
    + exists j, y. repeat split; [by right|done| |lia].
      by replace (j - i)%nat with (S (j - S i)) by lia.
  - intros (j & y & Hy & H & Hj & Hij). destruct (decide (i = j)) as [->|Hne].
    + rewrite Nat.sub_diag in Hj. injection Hj as ->. by left.
    + right. exists j, y. replace (j - i)%nat with (S (j - S i)) in Hj by lia. simpl in Hj.
      repeat split; [by eapply list_elem_of_lookup_2|done|done|lia].
Qed.

Lemma walk_occurs v path p w : (p, w) ∈ walk v path → occurs v w.
Proof.
  revert path p; induction v as [|b|z|f|s|l IH|d IH] using value_nested_ind; intros path p;
    simpl; rewrite elem_of_cons; intros [[= -> ->]|H]; try constructor;
    try by apply not_elem_of_nil in H.
  - apply (walk_list_elem path 0 l (p, w)) in H as (j & x & Hx & H & _).
    rewrite Forall_forall in IH. econstructor; [done|by eapply IH].
  - apply list_elem_of_In, in_flat_map in H as ([k x] & Hx & H).
    apply list_elem_of_In in Hx, H. rewrite Forall_forall in IH.
    eapply occurs_dict; [done|by eapply (IH (k, x))].
Qed.

Lemma occurs_walk v path w : occurs v w → ∃ p, (p, w) ∈ walk v path.
Proof.
  intros H; revert path; induction H as [v|l x w Hx _ IH|d k x w Hx _ IH]; intros path.
  - exists path. destruct v; simpl; by left.
  - apply list_elem_of_lookup in Hx as [j Hj].
    destruct (IH (path +:+ "[" +:+ str_nat j +:+ "]")) as [p Hp].
    exists p. simpl. right. apply (walk_list_elem path 0 l (p, w)).
    exists j, x. rewrite Nat.sub_0_r. repeat split; [by eapply list_elem_of_lookup_2|done|done|lia].
  - destruct (IH (path +:+ "." +:+ k)) as [p Hp]. exists p. simpl. right.
    apply list_elem_of_In, in_flat_map. exists (k, x). by rewrite <- !list_elem_of_In.
Qed.

(** A text no forbidden pattern matches anywhere. *)
Definition forbidden : list regex :=
  [TOKEN_RE; BEARER_RE; PRIVATE_KEY_RE; SECRET_ASSIGNMENT_RE; EMAIL_RE].
Definition safe_text (s : string) : Prop :=
  slen s <= 8192 ∧
  ∀ r p q, r ∈ forbidden → p ∈ positions None (String.list_ascii_of_string s) →
    ¬ matches r p q.

Lemma search_false r s :
  search r s = false ↔
  ∀ p q, p ∈ positions None (String.list_ascii_of_string s) → ¬ matches r p q.
Proof.
  rewrite <- not_true_iff_false, search_spec. split; [|naive_solver].
  intros H p q Hp Hm. apply H. by exists p, q.
Qed.

Lemma scan_text path s u : scan_node (path, VStr s) = Ok u ↔ safe_text s.
Proof.
  unfold scan_node, safe_text, forbidden. split.
  - intros H. repeat inv_step. rewrite search_false in *. apply Z.ltb_ge in H.
    split; [done|]. intros r p q Hr. rewrite !elem_of_cons, elem_of_nil in Hr. naive_solver.
  - intros [Hlen H]. destruct u.
    assert (∀ r, r ∈ forbidden → search r s = false) as Hs.
    { intros r Hr. apply search_false. intros p q. by apply H. }
    rewrite !raise_if_false; try done; try (by apply Z.ltb_ge); apply Hs; unfold forbidden;
      rewrite !elem_of_cons; tauto.
Qed.

Lemma for_each_unit_Ok {A} (l : list A) (body : A → unit → result unit) u :
  for_each l body tt = Ok u ↔ ∀ x, x ∈ l → body x tt = Ok tt.
Proof.
  induction l as [|x l IH]; simpl.
  - destruct u. split; [by intros _ y ?%not_elem_of_nil|done].
  - rewrite bind_Ok. split.
    + intros ([] & Hx & Hl). rewrite IH in Hl. intros y [->|Hy]%elem_of_cons; auto.
    + intros H. exists tt. split; [apply H; by left|]. apply IH. intros y Hy. apply H. by right.
Qed.

(** The scan accepts a document exactly when every text in it is safe. *)
Lemma public_safety_Ok v u :
  validate_public_safety v = Ok u ↔ ∀ s, occurs v (VStr s) → safe_text s.
Proof.
  unfold validate_public_safety. rewrite for_each_unit_Ok. split.
  - intros H s (p & Hp)%(occurs_walk _ "$"). eapply scan_text, (H _ Hp).
  - intros H [p w] Hp. apply walk_occurs in Hp.
    destruct w; try done. by apply scan_text, H.
Qed.

Lemma raises_public_safety v : raises_in recovery_errors (validate_public_safety v).
Proof.
  apply raises_in_for_each. intros [p w] b _. unfold scan_node. solve_raises_in.
Qed.
#[export] Hint Resolve raises_public_safety : raises.

(** ** Equality of documents *)

Fixpoint uniq_keys (v : value) : bool :=
  match v with
  | VList l => forallb uniq_keys l
  | VDict d => bool_decide (NoDup d.*1) && forallb (λ kv, uniq_keys kv.2) d
  | _ => true
  end.

Lemma dict_get_elem d k x : NoDup d.*1 → (k, x) ∈ d → dict_get d k = x.
Proof.
  unfold dict_get. induction d as [|[k' x'] d IH]; [by intros _ ?%not_elem_of_nil|].
  simpl. intros [Hk Hd]%NoDup_cons [[= <- <-]|Hin]%elem_of_cons.
  - by rewrite String.eqb_refl.
  - destruct (String.eqb_spec k k') as [->|_]; [|by apply IH].
    exfalso. apply Hk. apply list_elem_of_fmap. by exists (k', x).
Qed.

Definition py_eq_items (e : items) : items → bool :=
  fix go (d : items) : bool :=
    match d with
    | [] => true
    | (k, x) :: d => dict_has e k && py_eq x (dict_get e k) && go d
    end.

Lemma py_eq_items_true e d :
  py_eq_items e d = true ↔
  ∀ k x, (k, x) ∈ d → k ∈ dict_keys e ∧ py_eq x (dict_get e k) = true.
Proof.
  induction d as [|[k x] d IH]; simpl.
  - split; [by intros _ ? ? ?%not_elem_of_nil|done].
  - rewrite !andb_true_iff, IH. unfold dict_has. rewrite mem_str_In. split.
    + intros [[Hk Hx] H] k' x' [[= -> ->]|Hin]%elem_of_cons; auto.
    + intros H. split; [apply H; by left|]. intros k' x' Hin. apply H. by right.
Qed.

Lemma py_eq_refl v : uniq_keys v = true → no_float v = true → py_eq v v = true.
Proof.
  induction v as [|b|z|f|s|l IH|d IH] using value_nested_ind; simpl; intros Hu Hf; try done.
  - by destruct b.
  - by apply Z.eqb_refl.
  - by apply String.eqb_refl.
  - induction IH as [|x l Hx _ IHl]; [done|]. simpl in Hu, Hf. bool_hyps.
    rewrite Hx by done. simpl. by apply IHl.
  - bool_hyps. rewrite Nat.eqb_refl. simpl. apply (py_eq_items_true d d).
    intros k x Hin. rewrite Forall_forall in IH. split.
    + apply list_elem_of_fmap. by exists (k, x).
    + rewrite (dict_get_elem _ _ x) by done.
      rewrite forallb_forall in *.
      apply (IH _ Hin); [apply (H0 (k, x))|apply (Hf (k, x))]; by apply list_elem_of_In.
Qed.

#[global] Arguments expect_object : simpl never.
#[global] Arguments expect_list : simpl never.
#[global] Arguments expect_bool : simpl never.
#[global] Arguments expect_string : simpl never.
#[global] Arguments strict_object : simpl never.
#[global] Arguments strict_int : simpl never.
#[global] Arguments strict_sha256 : simpl never.
#[global] Arguments optional_sha256 : simpl never.
#[global] Arguments member_of : simpl never.
#[global] Arguments parse_timestamp : simpl never.
#[global] Arguments parse_datetime : simpl never.
#[global] Arguments validate_public_safety : simpl never.

(** ** Automation: normalising, and what normalisation tells *)

Ltac read_key :=
  match goal with
  | |- context [dict_get ?d ?k] =>
      let v := eval cbv [dict_get dict_get_or String.eqb Ascii.eqb Bool.eqb] in (dict_get d k) in
      change (dict_get d k) with v
  | |- context [dict_get_or ?d ?k ?x] =>
      let v := eval cbv [dict_get_or String.eqb Ascii.eqb Bool.eqb] in (dict_get_or d k x) in
      change (dict_get_or d k x) with v
  end.
Ltac normalize_step :=
  first
    [ read_key
    | rewrite parse_datetime_printed by assumption
    | rewrite (proj2 (strict_sha256_Ok _ _ _)) by (split; [reflexivity|assumption])
    | rewrite (proj2 (optional_sha256_Ok _ _ _)) by (split; [reflexivity|assumption])
    | rewrite (proj2 (strict_int_Ok _ _ _ _ _)) by (split; [reflexivity|split; first [done|lia]])
    | rewrite (proj2 (member_of_Ok _ _ _ _ _)) by (split; [reflexivity|split; assumption])
    | rewrite (proj2 (expect_bool_Ok _ _ _)) by reflexivity
    | rewrite raise_if_false by (reflexivity || assumption) ].
Ltac normalize := repeat (simpl; normalize_step); simpl.

(** Facts from a successful normalisation. *)
Ltac normalized :=
  repeat (inv_step ||
    match goal with
    | H : (let '(_, _) := ?p in _) = Ok _ |- _ => destruct p
    | H : strict_object _ _ _ = Ok _ |- _ => apply strict_object_Ok in H as [H ?]; subst
    | H : parse_datetime _ _ = Ok (?s, ?t) |- _ =>
        let E := fresh "Hprinted" in
        apply parse_datetime_Ok in H as (H & E & ?); subst s
    | H : strict_sha256 _ _ = Ok _ |- _ => apply strict_sha256_Ok in H as [H ?]
    | H : optional_sha256 _ _ = Ok _ |- _ => apply optional_sha256_Ok in H as [H ?]
    | H : strict_int _ _ _ _ = Ok _ |- _ => apply strict_int_Ok in H as (H & ? & ?)
    | H : member_of _ _ _ _ = Ok _ |- _ => apply member_of_Ok in H as (H & ? & ?)
    | H : expect_bool _ _ = Ok _ |- _ => apply expect_bool_Ok in H
    end).

Lemma strict_object_dict d f allowed :
  forallb (λ k, mem_str k allowed) (dict_keys d) = true →
  strict_object (VDict d) f allowed = Ok d.
Proof.
  intros H. apply strict_object_Ok. split; [done|]. intros k Hk.
  rewrite forallb_forall in H. by apply mem_str_In, H, list_elem_of_In.
Qed.

(** ** Readers and printers

    A reader of the elements of a list, given their positions, and the printer
    of what it returns: what was read once is printed to a document that reads
    as the same again, at any position and with another reader of the kind.
    Each component gives an instance per part, and the lemma on lists lifts
    the law to the sorted lists of parts. *)
Class Rereads {A V : Type} (read read' : nat → V → result A) (doc : A → V) : Prop :=
  reread i j v a : read i v = Ok a → read' j (doc a) = Ok a.

Lemma reread_list {A V} (read read' : nat → V → result A) doc `{!Rereads read read' doc}
    i j raws l l' :
  map_enum i raws read = Ok l → l' ⊆ l → map_enum j (map doc l') read' = Ok l'.
Proof.
  intros Hl Hsub. apply map_enum_again. intros k x Hx%Hsub.
  destruct (map_enum_elem _ _ _ _ _ Hl Hx) as (m & v & _ & Hv). by eapply reread.
Qed.

Lemma expect_list_perm {A} (val : A → value) l l' field n :
  l' ≡ₚ l → Z.of_nat (length l) <= n → expect_list (VList (map val l')) field n = Ok (map val l').
Proof. intros Hp Hn. apply expect_list_Ok. split; [done|]. by rewrite length_map, Hp. Qed.

(** Derived documents have distinct keys and no floats. *)
Definition plain_value (v : value) : Prop := uniq_keys v = true ∧ no_float v = true.

Lemma plain_refl v : plain_value v → py_eq v v = true.
Proof. intros [? ?]. by apply py_eq_refl. Qed.

Lemma plain_list {A} (f : A → value) l : (∀ x, plain_value (f x)) → plain_value (VList (map f l)).
Proof.
  intros H. split; simpl; induction l as [|x l IH]; simpl; try done;
    rewrite IH, andb_true_r; apply H.
Qed.

Lemma plain_opt_str o : plain_value (opt_str o).
Proof. by destruct o. Qed.
Lemma plain_strs l : plain_value (strs l).
Proof. by apply plain_list. Qed.

Create HintDb plain.
#[export] Hint Resolve plain_opt_str plain_strs : plain.

Lemma plain_dict d :
  bool_decide (NoDup d.*1) = true → Forall (λ kv, plain_value kv.2) d → plain_value (VDict d).
Proof.
  intros Hd H. split; simpl; rewrite ?Hd; simpl; clear Hd;
    induction H as [|kv d [H1 H2] _ IH]; simpl; rewrite ?H1, ?H2; done.
Qed.

Ltac plain_fields :=
  repeat (apply Forall_cons; split;
    [cbn [snd]; first [assumption | solve [auto with plain] | split; reflexivity]|]);
  apply Forall_nil_2.

(** ** Results *)

(** The text a date-time is read from: a final [Z] stands for [+00:00]. *)
Definition zulu (text : string) : string :=
  if ends_with text "Z" then drop_last text +:+ utc_suffix else text.

(** A timestamp that is accepted names one instant, and its normalised
    text is that instant's canonical UTC form: the instant is the wall clock
    the text shows less the offset of its zone, the normalised text parses to
    the same instant again and normalises to itself, and two accepted
    timestamps have the same normalised text exactly when they name the same
    instant. *)
Theorem timestamp_normal_form v field s :
  parse_timestamp v field = Ok s →
  ∃ text wall offset, v = VStr text ∧ fromisoformat (zulu text) = Some (wall, Some offset) ∧
    s = isoformat (wall - offset) "Z" ∧
    parse_timestamp (VStr s) field = Ok s ∧
    parse_datetime (VStr s) field = Ok (s, wall - offset) ∧
    ∀ v' s' t', parse_datetime v' field = Ok (s', t') → s' = s ↔ t' = wall - offset.
Proof.
  unfold parse_timestamp at 1. intros H.
  destruct v as [| | | |[|c text]| |]; try discriminate H.
  fold (zulu (String c text)) in H.
  destruct (fromisoformat (zulu (String c text))) as [[wall [offset|]]|] eqn:Hread;
    try discriminate H.
  apply bind_Ok in H as (t & Ht & [= <-]). rewrite isoformat_to_z.
  assert (representable (wall - offset) = true ∧ t = wall - offset) as [Hrep ->].
  { unfold to_utc, instant_add in Ht. rewrite Z.add_opp_r in Ht.
    destruct (representable (wall - offset)); [|done]. by injection Ht as <-. }
  exists (String c text), wall, offset. repeat (split; [done|]).
  split; [by apply parse_timestamp_printed|]. split; [by apply parse_datetime_printed|].
  intros v' s' t' (_ & -> & Ht')%parse_datetime_Ok. split; [by apply isoformat_inj|by intros ->].
Qed.

Lemma timestamp_normal_form_witness :
  ∃ text wall offset, VStr "2026-08-10T12:30:00.5+02:00" = VStr text ∧
    fromisoformat (zulu text) = Some (wall, Some offset) ∧
    "2026-08-10T10:30:00.500000Z" = isoformat (wall - offset) "Z" ∧
    parse_timestamp (VStr "2026-08-10T10:30:00.500000Z") "at" =
      Ok "2026-08-10T10:30:00.500000Z" ∧
    parse_datetime (VStr "2026-08-10T10:30:00.500000Z") "at" =
      Ok ("2026-08-10T10:30:00.500000Z", wall - offset) ∧
    ∀ v' s' t', parse_datetime v' "at" = Ok (s', t') →
      s' = "2026-08-10T10:30:00.500000Z" ↔ t' = wall - offset.
Proof. apply (timestamp_normal_form _ "at"). vm_compute. reflexivity. Defined.

(** The public-safety scan is exact: it accepts a document if and only if
    no text occurring anywhere in it, at any depth, is matched at any position
    by the token, bearer, private-key, secret-assignment or e-mail pattern (in
    the sense of the patterns' meaning, not of the matcher), and none exceeds
    8192 characters; otherwise it raises [RecoveryError]. *)
Theorem public_safety_scan v :
  (validate_public_safety v = Ok tt ↔ ∀ s, occurs v (VStr s) → safe_text s) ∧
  raises_only RecoveryError (validate_public_safety v).
Proof.
  split; [apply public_safety_Ok|].
  unfold validate_public_safety. generalize (walk v "$"). intros nodes.
  induction nodes as [|[p w] nodes IH]; simpl; [done|].
  apply raises_only_bind; [|by intros []].
  unfold scan_node. solve_raises.
Qed.
