(* ===== verification/Coverage.v ===== *)
(** * Source-coverage receipts

    [src/tools/artifact_recovery/source_coverage.py]: raw receipts, one per
    evidence source, are validated, each gets an effective state, and the
    report says whether every required source was covered.  The documents the
    code builds as dicts are records here; [receipt_value], [policy_value],
    [summary_value] and [report_value] are the dicts, keys in the code's
    order.  An instant is in microseconds ([DateTime]). *)
From S2P Require Import Prelude PyValue Sha256 Json DateTime RecoveryCommon.
From Stdlib Require Import Ascii.

Module Coverage.
Open Scope Z_scope.

Definition COVERAGE_SCHEMA : string := "artifact_recovery_source_coverage.v1".
Definition SUPPORTED_SOURCES : list string :=
  ["chatgpt"; "claude"; "linear"; "github"; "local_repo"; "file_library"; "conversation"].
Definition SUPPORTED_STATES : list string :=
  ["complete"; "partial"; "unavailable"; "unauthorized"; "stale"; "not_configured"; "excluded"].
Definition ERROR_CLASSES : list string :=
  ["authorization"; "availability"; "clock_skew"; "pagination"; "rate_limited";
   "stale_watermark"; "validation"].
Definition MAX_SOURCES : Z := 32.
Definition MAX_AGE_SECONDS : Z := 31 * 24 * 60 * 60.
Definition MAX_CLOCK_SKEW_SECONDS : Z := 60 * 60.

(** [f"{field}[{index}]"] *)
Definition at_index (field : string) (index : nat) : string :=
  field +:+ "[" +:+ str_nat index +:+ "]".

(** ** Policy *)

Definition normalize_sources (v : value) (field : string) : result (list string) :=
  raw_sources ← expect_list v field MAX_SOURCES;
  sources ← map_enum 0 raw_sources
    (λ index source_value, member_of source_value (at_index field index) 32 SUPPORTED_SOURCES);
  raise_if (negb (bool_decide (NoDup sources)))
    (recovery_error (field +:+ " contains duplicate sources")) ;;
  Ok (sorted_strs sources).

Record policy : Type := Policy {
  required_sources : list string;
  optional_sources : list string;
  max_clock_skew_seconds : Z;
}.

Definition normalize_policy (v : value) : result policy :=
  policy ← strict_object v "policy"
    ["required_sources"; "optional_sources"; "max_clock_skew_seconds"];
  required_sources ← normalize_sources (dict_get policy "required_sources")
    "policy.required_sources";
  optional_sources ← normalize_sources (dict_get_or policy "optional_sources" (VList []))
    "policy.optional_sources";
  let overlap := sorted_strs (filter (λ s, s ∈ optional_sources) required_sources) in
  raise_if (negb (bool_decide (overlap = [])))
    (recovery_error ("policy source sets overlap: " +:+ repr_strs overlap)) ;;
  raise_if (bool_decide (required_sources = []))
    (recovery_error "policy.required_sources must not be empty") ;;
  max_clock_skew_seconds ←
    strict_int (dict_get_or policy "max_clock_skew_seconds" (VInt 300))
      "policy.max_clock_skew_seconds" 0 (Some MAX_CLOCK_SKEW_SECONDS);
  Ok (Policy required_sources optional_sources max_clock_skew_seconds).

Definition policy_value (p : policy) : value :=
  VDict [("required_sources", strs (required_sources p));
         ("optional_sources", strs (optional_sources p));
         ("max_clock_skew_seconds", VInt (max_clock_skew_seconds p))].

(** ** Receipts *)

Record pagination : Type := Pagination {
  started : bool;
  complete : bool;
  last_page_complete : bool;
  pages_read : Z;
  items_read : Z;
  terminal_cursor_sha256 : option string;
}.

Record receipt : Type := Receipt {
  source : string;
  source_identity_sha256 : string;
  capability_sha256 : string;
  window_start : string;
  window_end : string;
  captured_at : string;
  watermark_at : string;
  max_age_seconds : Z;
  age_seconds : Z;
  pages : pagination;
  reported_state : string;
  state : string;
  error_class : option string;
  retryable : bool;
}.

Definition pagination_value (p : pagination) : value :=
  VDict [("started", VBool (started p)); ("complete", VBool (complete p));
         ("last_page_complete", VBool (last_page_complete p));
         ("pages_read", VInt (pages_read p)); ("items_read", VInt (items_read p));
         ("terminal_cursor_sha256", opt_str (terminal_cursor_sha256 p))].

Definition receipt_value (r : receipt) : value :=
  VDict [("source", VStr (source r));
         ("source_identity_sha256", VStr (source_identity_sha256 r));
         ("capability_sha256", VStr (capability_sha256 r));
         ("window", VDict [("start", VStr (window_start r)); ("end", VStr (window_end r))]);
         ("captured_at", VStr (captured_at r));
         ("freshness", VDict [("watermark_at", VStr (watermark_at r));
            ("max_age_seconds", VInt (max_age_seconds r));
            ("age_seconds", VInt (age_seconds r))]);
         ("pagination", pagination_value (pages r));
         ("reported_state", VStr (reported_state r));
         ("state", VStr (state r));
         ("error_class", opt_str (error_class r));
         ("retryable", VBool (retryable r))].

Definition RECEIPT_KEYS : list string :=
  ["source"; "source_identity_sha256"; "capability_sha256"; "window"; "captured_at";
   "freshness"; "pagination"; "reported_state"; "state"; "error_class"; "retryable"].

(** The window's bounds, in order, and the end's instant. *)
Definition normalize_window (v : value) (field : string) : result (string * string * Z) :=
  window ← strict_object v (field +:+ ".window") ["start"; "end"];
  '(window_start, window_start_dt) ←
    parse_datetime (dict_get window "start") (field +:+ ".window.start");
  '(window_end, window_end_dt) ←
    parse_datetime (dict_get window "end") (field +:+ ".window.end");
  raise_if (window_end_dt <? window_start_dt)
    (recovery_error (field +:+ ".window.start must not be after window.end")) ;;
  Ok (window_start, window_end, window_end_dt).

(** The capture's text and instant, not after the report or before the
    window's end, up to the skew. *)
Definition normalize_capture (v : value) (field : string)
    (generated_at window_end_dt skew : Z) : result (string * Z) :=
  '(captured_at, captured_at_dt) ← parse_datetime v (field +:+ ".captured_at");
  latest ← instant_add generated_at skew;
  raise_if (latest <? captured_at_dt)
    (recovery_error (field +:+ ".captured_at is beyond the allowed clock skew")) ;;
  latest ← instant_add captured_at_dt skew;
  raise_if (latest <? window_end_dt)
    (recovery_error (field +:+ ".window.end is after captured_at")) ;;
  Ok (captured_at, captured_at_dt).

(** The watermark's text, the age allowed and the age it has. *)
Definition normalize_freshness (v : value) (field : string)
    (generated_at captured_at_dt max_clock_skew_seconds : Z) : result (string * Z * Z) :=
  freshness ← strict_object v (field +:+ ".freshness")
    ["watermark_at"; "max_age_seconds"; "age_seconds"];
  '(watermark_at, watermark_at_dt) ←
    parse_datetime (dict_get freshness "watermark_at") (field +:+ ".freshness.watermark_at");
  latest ← instant_add captured_at_dt (seconds max_clock_skew_seconds);
  raise_if (latest <? watermark_at_dt)
    (recovery_error (field +:+ ".freshness.watermark_at is after captured_at")) ;;
  max_age_seconds ← strict_int (dict_get freshness "max_age_seconds")
    (field +:+ ".freshness.max_age_seconds") 1 (Some MAX_AGE_SECONDS);
  let age_seconds := elapsed_seconds generated_at watermark_at_dt in
  raise_if (age_seconds <? - max_clock_skew_seconds)
    (recovery_error
       (field +:+ ".freshness.watermark_at is beyond the allowed clock skew")) ;;
  let age_seconds := Z.max 0 age_seconds in
  let provided_age_seconds := dict_get freshness "age_seconds" in
  mismatch ←
    (if is_none provided_age_seconds then Ok false
     else
       provided ← strict_int provided_age_seconds (field +:+ ".freshness.age_seconds") 0 None;
       Ok (negb (provided =? age_seconds)));
  raise_if mismatch
    (recovery_error (field +:+ ".freshness.age_seconds does not match the watermark")) ;;
  Ok (watermark_at, max_age_seconds, age_seconds).

Definition normalize_pagination (v : value) (field : string) : result pagination :=
  pagination ← strict_object v (field +:+ ".pagination")
    ["started"; "complete"; "last_page_complete"; "pages_read"; "items_read";
     "terminal_cursor_sha256"];
  started ← expect_bool (dict_get pagination "started") (field +:+ ".pagination.started");
  complete ← expect_bool (dict_get pagination "complete") (field +:+ ".pagination.complete");
  last_page_complete ← expect_bool (dict_get pagination "last_page_complete")
    (field +:+ ".pagination.last_page_complete");
  pages_read ← strict_int (dict_get pagination "pages_read")
    (field +:+ ".pagination.pages_read") 0 None;
  items_read ← strict_int (dict_get pagination "items_read")
    (field +:+ ".pagination.items_read") 0 None;
  terminal_cursor_sha256 ← optional_sha256 (dict_get pagination "terminal_cursor_sha256")
    (field +:+ ".pagination.terminal_cursor_sha256");
  raise_if (negb started && (negb (pages_read =? 0) || negb (items_read =? 0)))
    (recovery_error (field +:+ ".pagination cannot report reads before it starts")) ;;
  raise_if (complete && negb started)
    (recovery_error (field +:+ ".pagination cannot complete before it starts")) ;;
  raise_if (complete && (pages_read <? 1))
    (recovery_error (field +:+ ".pagination.complete requires at least one page")) ;;
  raise_if ((0 <? items_read) && (pages_read <? 1))
    (recovery_error (field +:+ ".pagination.items_read requires at least one page")) ;;
  Ok (Pagination started complete last_page_complete pages_read items_read
        terminal_cursor_sha256).

(** The effective state and error class of a receipt. *)
Definition derive_state (field reported_state : string) (error_class : option string)
    (p : pagination) (age_seconds max_age_seconds : Z) : result (string * option string) :=
  let '(state, derived) :=
    if String.eqb reported_state "complete" then
      if negb (started p) || negb (complete p) || negb (last_page_complete p)
      then ("partial", Some "pagination")
      else if max_age_seconds <? age_seconds then ("stale", Some "stale_watermark")
      else (reported_state, error_class)
    else (reported_state, error_class) in
  raise_if (String.eqb state "unauthorized"
            && is_some derived && negb (eq_opt "authorization" derived))
    (recovery_error (field +:+ ".error_class conflicts with unauthorized state")) ;;
  let derived := if String.eqb state "unauthorized" then Some "authorization" else derived in
  let derived :=
    if String.eqb state "unavailable" && negb (is_some derived)
    then Some "availability" else derived in
  let derived :=
    if String.eqb state "partial" && negb (is_some derived)
    then Some "pagination" else derived in
  let derived := if String.eqb state "stale" then Some "stale_watermark" else derived in
  raise_if (String.eqb state "complete" && is_some derived)
    (recovery_error (field +:+ ".error_class must be null for complete state")) ;;
  raise_if (mem_str state ["not_configured"; "excluded"]
            && (started p || negb (pages_read p =? 0) || negb (items_read p =? 0)
                || is_some derived))
    (recovery_error (field +:+ " cannot collect or fail when state is " +:+ state)) ;;
  Ok (state, derived).

Definition normalize_error_class (v : value) (field : string) : result (option string) :=
  if is_none v then Ok None
  else Some <$> member_of v (field +:+ ".error_class") 32 ERROR_CLASSES.

Definition normalize_receipt (generated_at max_clock_skew_seconds : Z)
    (index : nat) (v : value) : result receipt :=
  let field := at_index "receipts" index in
  receipt ← strict_object v field RECEIPT_KEYS;
  source ← member_of (dict_get receipt "source") (field +:+ ".source") 32 SUPPORTED_SOURCES;
  source_identity_sha256 ← strict_sha256 (dict_get receipt "source_identity_sha256")
    (field +:+ ".source_identity_sha256");
  capability_sha256 ← strict_sha256 (dict_get receipt "capability_sha256")
    (field +:+ ".capability_sha256");
  '(window_start, window_end, window_end_dt) ←
    normalize_window (dict_get receipt "window") field;
  '(captured_at, captured_at_dt) ←
    normalize_capture (dict_get receipt "captured_at") field
      generated_at window_end_dt (seconds max_clock_skew_seconds);
  '(watermark_at, max_age_seconds, age_seconds) ←
    normalize_freshness (dict_get receipt "freshness") field
      generated_at captured_at_dt max_clock_skew_seconds;
  pages ← normalize_pagination (dict_get receipt "pagination") field;
  reported_state ← member_of (dict_get receipt "reported_state")
    (field +:+ ".reported_state") 32 SUPPORTED_STATES;
  error_class ← normalize_error_class (dict_get receipt "error_class") field;
  retryable ← expect_bool (dict_get_or receipt "retryable" (VBool false))
    (field +:+ ".retryable");
  '(state, derived_error_class) ←
    derive_state field reported_state error_class pages age_seconds max_age_seconds;
  let provided_state := dict_get receipt "state" in
  raise_if (negb (is_none provided_state) && negb (py_eq provided_state (VStr state)))
    (recovery_error (field +:+ ".state does not match the derived state " +:+ state)) ;;
  let normalized := Receipt source source_identity_sha256 capability_sha256 window_start
    window_end captured_at watermark_at max_age_seconds age_seconds pages reported_state
    state derived_error_class retryable in
  validate_public_safety (receipt_value normalized) ;;
  Ok normalized.

(** ** The report *)

(** [receipts_by_source[source]] *)
Fixpoint receipt_of (receipts : list receipt) (s : string) : result receipt :=
  match receipts with
  | [] => Raise (Exn KeyError (repr_str s))
  | r :: receipts => if String.eqb (source r) s then Ok r else receipt_of receipts s
  end.

(** The sources whose receipt is in one of the states. *)
Fixpoint sources_in (states : list string) (receipts : list receipt) (sources : list string)
  : result (list string) :=
  match sources with
  | [] => Ok []
  | s :: sources =>
      r ← receipt_of receipts s;
      rest ← sources_in states receipts sources;
      Ok (if mem_str (state r) states then s :: rest else rest)
  end.

Record summary : Type := Summary {
  status : string;
  required_count : Z;
  optional_count : Z;
  complete_sources : list string;
  partial_sources : list string;
  blocked_sources : list string;
  source_states : list (string * string);
}.

Definition summary_value (s : summary) : value :=
  VDict [("status", VStr (status s));
         ("complete", VBool (String.eqb (status s) "complete"));
         ("required_sources", VInt (required_count s));
         ("optional_sources", VInt (optional_count s));
         ("complete_sources", strs (complete_sources s));
         ("partial_sources", strs (partial_sources s));
         ("blocked_sources", strs (blocked_sources s));
         ("source_states", VDict (map (λ '(k, v), (k, VStr v)) (source_states s)))].

Definition blocked_states : list string := ["unauthorized"; "not_configured"; "excluded"].
Definition partial_states : list string := ["partial"; "unavailable"; "stale"].

(** [sorted(receipts, key=lambda receipt: receipt["source"])] *)
Definition sort_receipts (receipts : list receipt) : list receipt :=
  sort_by source receipts.

Definition summarize (policy : policy) (receipts : list receipt) : result summary :=
  blocked ← sources_in blocked_states receipts (required_sources policy);
  partial ← sources_in partial_states receipts (required_sources policy);
  let blocked_sources := sorted_strs blocked in
  let partial_sources := sorted_strs partial in
  let complete_sources :=
    sorted_strs (map source (List.filter (λ r, String.eqb (state r) "complete") receipts)) in
  let status :=
    if negb (bool_decide (blocked_sources = [])) then "blocked"
    else if negb (bool_decide (partial_sources = [])) then "partial" else "complete" in
  Ok (Summary status (Z.of_nat (length (required_sources policy)))
        (Z.of_nat (length (optional_sources policy)))
        complete_sources partial_sources blocked_sources
        (map (λ r, (source r, state r)) (sort_receipts receipts))).

Record report : Type := Report {
  generated_at : string;
  report_policy : policy;
  receipts : list receipt;
  report_summary : summary;
}.

Definition report_items (r : report) : items :=
  [("schema_version", VStr COVERAGE_SCHEMA);
   ("generated_at", VStr (generated_at r));
   ("policy", policy_value (report_policy r));
   ("receipts", VList (map receipt_value (receipts r)));
   ("summary", summary_value (report_summary r))].
Definition report_sha256 (r : report) : string := digest_of (VDict (report_items r)).
Definition report_value (r : report) : value :=
  VDict (report_items r ++ [("report_sha256", VStr (report_sha256 r))]).

(** [name in root and root[name] != expected] *)
Definition disagrees (root : items) (name : string) (expected : value) : bool :=
  dict_has root name && negb (py_eq (dict_get root name) expected).

(** The receipts answer for the policy's sources, each once. *)
Definition check_sources (policy : policy) (receipts : list receipt) : result unit :=
  let source_names := map source receipts in
  raise_if (negb (bool_decide (NoDup source_names)))
    (recovery_error "receipts contain duplicate sources") ;;
  let expected_sources := required_sources policy ++ optional_sources policy in
  let missing := sorted_diff expected_sources source_names in
  let unexpected := sorted_diff source_names expected_sources in
  raise_if (negb (bool_decide (missing = [])))
    (recovery_error ("receipts are missing policy sources: " +:+ repr_strs missing)) ;;
  raise_if (negb (bool_decide (unexpected = [])))
    (recovery_error
       ("receipts contain sources outside policy: " +:+ repr_strs unexpected)).

(** [generated_at] may not lie an hour past [now]. *)
Definition check_now (now : option string) (generated_at_dt : Z) : result unit :=
  match now with
  | None => Ok tt
  | Some now =>
      '(_, now_dt) ← parse_datetime (VStr now) "--now";
      latest ← instant_add now_dt (seconds MAX_CLOCK_SKEW_SECONDS);
      raise_if (latest <? generated_at_dt)
        (recovery_error "generated_at is beyond the allowed clock skew")
  end.

Definition build_source_coverage_report (v : value) (now : option string) : result report :=
  root ← strict_object v "$"
    ["schema_version"; "generated_at"; "policy"; "receipts"; "summary"; "report_sha256"];
  raise_if (negb (py_eq (dict_get root "schema_version") (VStr COVERAGE_SCHEMA)))
    (recovery_error ("schema_version must be " +:+ COVERAGE_SCHEMA)) ;;
  '(generated_at, generated_at_dt) ←
    parse_datetime (dict_get root "generated_at") "generated_at";
  check_now now generated_at_dt ;;
  policy ← normalize_policy (dict_get root "policy");
  raw_receipts ← expect_list (dict_get root "receipts") "receipts" MAX_SOURCES;
  receipts ← map_enum 0 raw_receipts
    (normalize_receipt generated_at_dt (max_clock_skew_seconds policy));
  check_sources policy receipts ;;
  summary ← summarize policy receipts;
  let report := Report generated_at policy (sort_receipts receipts) summary in
  raise_if (disagrees root "summary" (summary_value summary))
    (recovery_error "summary does not match normalized receipts") ;;
  raise_if (disagrees root "report_sha256" (VStr (report_sha256 report)))
    (recovery_error "report_sha256 does not match canonical report") ;;
  validate_public_safety (report_value report) ;;
  Ok report.

(** ** The synthetic fixture *)

Definition example_receipt (window_start generated_at : string) (s : string) : value :=
  VDict [("source", VStr s);
    ("source_identity_sha256",
      VStr (digest_of (VDict [("fixture", VStr "source-identity"); ("source", VStr s)])));
    ("capability_sha256",
      VStr (digest_of (VDict [("fixture", VStr "capability"); ("source", VStr s);
                              ("access", VStr "read-only")])));
    ("window", VDict [("start", VStr window_start); ("end", VStr generated_at)]);
    ("captured_at", VStr generated_at);
    ("freshness", VDict [("watermark_at", VStr generated_at);
                         ("max_age_seconds", VInt 7200)]);
    ("pagination", VDict [("started", VBool true); ("complete", VBool true);
      ("last_page_complete", VBool true); ("pages_read", VInt 1); ("items_read", VInt 0);
      ("terminal_cursor_sha256", VNone)]);
    ("reported_state", VStr "complete");
    ("error_class", VNone);
    ("retryable", VBool false)].

Definition build_example_source_coverage (now : string) : result report :=
  '(generated_at, generated_at_dt) ← parse_datetime (VStr now) "--now";
  window_start ← instant_add generated_at_dt (seconds (- 3600));
  let required_sources := ["chatgpt"; "claude"; "linear"; "github"; "local_repo"] in
  build_source_coverage_report
    (VDict [("schema_version", VStr COVERAGE_SCHEMA);
       ("generated_at", VStr generated_at);
       ("policy", VDict [("required_sources", strs required_sources);
          ("optional_sources", VList []); ("max_clock_skew_seconds", VInt 300)]);
       ("receipts", VList (map
          (example_receipt (str_replace (isoformat window_start utc_suffix) utc_suffix "Z")
             generated_at) required_sources))])
    (Some generated_at).

End Coverage.
