(* ===== verification/CoverageTheorems.v ===== *)
(** * Source-coverage receipts: results

    What a report built by [Coverage.build_source_coverage_report] guarantees:
    it says complete exactly when the raw receipts cover every required source,
    its summary names the gaps, its document is rebuilt to the same report, and
    the exceptions the builder can raise. *)
From S2P Require Import Prelude PyValue Sha256 Json DateTime Regex RecoveryCommon Coverage.
From Stdlib Require Import Ascii.

Module CoverageTheorems.
Import Coverage.
Open Scope Z_scope.

(** ** Renormalising what was normalised *)

Lemma window_again v f f' ws we t :
  normalize_window v f = Ok (ws, we, t) →
  normalize_window (VDict [("start", VStr ws); ("end", VStr we)]) f' = Ok (ws, we, t).
Proof.
  unfold normalize_window. intros H. normalized. rewrite strict_object_dict by done.
  normalize. done.
Qed.

Lemma capture_again v f f' gen wend skew s t :
  normalize_capture v f gen wend skew = Ok (s, t) →
  normalize_capture (VStr s) f' gen wend skew = Ok (s, t).
Proof.
  unfold normalize_capture. intros H. normalized. normalize.
  repeat match goal with H : instant_add _ _ = Ok _ |- _ => rewrite H; clear H end.
  normalize. done.
Qed.

Lemma freshness_again v f f' gen cap skew s m a :
  normalize_freshness v f gen cap skew = Ok (s, m, a) →
  normalize_freshness (VDict [("watermark_at", VStr s); ("max_age_seconds", VInt m);
    ("age_seconds", VInt a)]) f' gen cap skew = Ok (s, m, a).
Proof.
  unfold normalize_freshness. intros H. normalized. rewrite strict_object_dict by done.
  normalize.
  repeat match goal with H : instant_add _ _ = Ok _ |- _ => rewrite H; clear H end.
  normalize. rewrite Z.eqb_refl. normalize. done.
Qed.

Lemma pagination_again v f f' p :
  normalize_pagination v f = Ok p → normalize_pagination (pagination_value p) f' = Ok p.
Proof.
  unfold normalize_pagination. intros H. normalized.
  unfold pagination_value. rewrite strict_object_dict by done. normalize. done.
Qed.

Lemma error_class_again v f f' o :
  normalize_error_class v f = Ok o → normalize_error_class (opt_str o) f' = Ok o.
Proof.
  unfold normalize_error_class. destruct (is_none v); [by intros [= <-]|].
  destruct (member_of _ _ _ _) as [s|] eqn:H; [|done]. simpl. intros Ho.
  injection Ho as <-. normalized. normalize. done.
Qed.

Lemma derive_state_again f f' rep ec p age max_age st d :
  derive_state f rep ec p age max_age = Ok (st, d) →
  derive_state f' rep d p age max_age = Ok (st, d).
Proof.
  unfold derive_state. destruct (String.eqb_spec rep "complete") as [->|Hrep].
  - destruct (negb (started p) || negb (complete p) || negb (last_page_complete p)) eqn:Hp;
      [by intros [= <- <-]|].
    destruct (max_age <? age) eqn:Hage; [by intros [= <- <-]|].
    simpl. destruct ec; [done|]. by intros [= <- <-].
  - intros H. repeat inv_step. simplify_eq.
    destruct (String.eqb_spec st "unauthorized") as [->|]; [done|].
    destruct (String.eqb_spec st "unavailable") as [->|]; [by destruct ec|].
    destruct (String.eqb_spec st "partial") as [->|]; [by destruct ec|].
    destruct (String.eqb_spec st "stale") as [->|]; [done|].
    simpl in *. rewrite !raise_if_false by done. done.
Qed.

Lemma derive_state_supported f rep ec p age max_age st d :
  rep ∈ SUPPORTED_STATES → match ec with Some c => c ∈ ERROR_CLASSES | None => True end →
  derive_state f rep ec p age max_age = Ok (st, d) →
  st ∈ SUPPORTED_STATES ∧ match d with Some c => c ∈ ERROR_CLASSES | None => True end.
Proof.
  intros Hrep Hec. unfold derive_state. intros H.
  assert (∀ c, mem_str c ERROR_CLASSES = true → c ∈ ERROR_CLASSES) as Hin
    by (intros c; apply mem_str_In).
  assert (∀ c, mem_str c SUPPORTED_STATES = true → c ∈ SUPPORTED_STATES) as Hin'
    by (intros c; apply mem_str_In).
  repeat case_match; repeat inv_step; simplify_eq; auto.
Qed.

Lemma error_class_plain c : c ∈ ERROR_CLASSES → plain 32 c.
Proof.
  revert c. apply Forall_forall.
  repeat (apply Forall_cons; split; [by repeat split|]). apply Forall_nil_2.
Qed.

Lemma error_class_Ok v f o :
  normalize_error_class v f = Ok o →
  match o with Some c => c ∈ ERROR_CLASSES | None => True end.
Proof.
  unfold normalize_error_class. destruct (is_none v); [by intros [= <-]|].
  destruct (member_of _ _ _ _) as [s|] eqn:H; [|done]. intros Ho.
  injection Ho as <-. by normalized.
Qed.

Lemma error_class_given f o :
  match o with Some c => c ∈ ERROR_CLASSES | None => True end →
  normalize_error_class (opt_str o) f = Ok o.
Proof.
  intros Ho. destruct o as [c|]; [|done]. unfold normalize_error_class. simpl.
  pose proof (error_class_plain _ Ho). by normalize.
Qed.

#[local] Opaque normalize_window normalize_capture normalize_freshness normalize_pagination
  normalize_error_class derive_state.

Ltac next_bind := cbn [mbind result_bind negb raise_if].

(** A normalised receipt, read again at any position of a report of the same
    instant, normalises to itself. *)
Lemma receipt_again gen skew i j v r :
  normalize_receipt gen skew i v = Ok r → normalize_receipt gen skew j (receipt_value r) = Ok r.
Proof.
  unfold normalize_receipt. intros H. normalized.
  match goal with
  | Hw : normalize_window _ _ = _, Hc : normalize_capture _ _ _ _ _ = _,
    Hf : normalize_freshness _ _ _ _ _ = _, Hp : normalize_pagination _ _ = _,
    He : normalize_error_class _ _ = _, Hd : derive_state _ _ _ _ _ _ = _,
    Hv : validate_public_safety _ = _ |- _ =>
      rename Hv into Hsafe, Hw into Hwin, Hc into Hcap, Hf into Hfresh, Hp into Hpag,
        Hd into Hder;
      apply (window_again _ _ (at_index "receipts" j)) in Hwin;
      apply (capture_again _ _ (at_index "receipts" j)) in Hcap;
      apply (freshness_again _ _ (at_index "receipts" j)) in Hfresh;
      apply (pagination_again _ _ (at_index "receipts" j)) in Hpag;
      apply error_class_Ok in He;
      pose proof Hder as Hs;
      apply derive_state_supported in Hs as [? Hs]; [|done..];
      apply (error_class_given (at_index "receipts" j)) in Hs;
      apply (derive_state_again _ (at_index "receipts" j)) in Hder
  end.
  unfold receipt_value. rewrite strict_object_dict by done.
  normalize. unfold receipt_value in Hsafe. simpl in Hsafe.
  rewrite Hwin. next_bind. rewrite Hcap. next_bind. rewrite Hfresh. next_bind.
  rewrite Hpag. next_bind. rewrite Hs. next_bind. rewrite Hder. next_bind.
  rewrite String.eqb_refl. next_bind. rewrite Hsafe. done.
Qed.

(** A normalised list of sources. *)
Record sources_ok (l : list string) : Prop := {
  sources_sorted : sorted_strs l = l;
  sources_unique : NoDup l;
  sources_supported : Forall (λ s, plain 32 s ∧ s ∈ SUPPORTED_SOURCES) l;
  sources_bounded : Z.of_nat (length l) <= MAX_SOURCES;
}.

Lemma normalize_sources_Ok v f l : normalize_sources v f = Ok l → sources_ok l.
Proof.
  unfold normalize_sources. intros H. repeat inv_step.
  match goal with H : expect_list _ _ _ = _ |- _ => apply expect_list_Ok in H as [-> Hlen] end.
  match goal with H : map_enum _ _ _ = Ok ?l |- _ =>
    rename l into sources; pose proof (map_enum_length _ _ _ _ H) as Hl;
    apply map_enum_Forall2 in H; rename H into Hf end.
  match goal with H : negb _ = false |- _ =>
    apply negb_false_iff, bool_decide_eq_true in H; rename H into Hnd end.
  split.
  - apply sorted_strs_idem.
  - by rewrite sorted_strs_Permutation.
  - rewrite sorted_strs_Permutation. clear -Hf.
    induction Hf as [|x y l l' [j Hj] _ IH]; constructor; [|done]. by normalized.
  - rewrite sorted_strs_Permutation, Hl. done.
Qed.

Lemma normalize_sources_again l f : sources_ok l → normalize_sources (strs l) f = Ok l.
Proof.
  intros [Hs Hu Hp Hb]. unfold normalize_sources, strs.
  rewrite (proj2 (expect_list_Ok _ _ _ _)) by (split; [done|by rewrite length_map]). simpl.
  rewrite (map_enum_Ok _ _ _ l).
  - simpl. rewrite raise_if_false by (apply negb_false_iff; by apply bool_decide_eq_true).
    simpl. by rewrite Hs.
  - intros j. clear -Hp. induction Hp as [|s l [H1 H2] _ IH]; constructor; [|done].
    by normalize.
Qed.

Record policy_ok (p : policy) : Prop := {
  policy_required : sources_ok (required_sources p);
  policy_optional : sources_ok (optional_sources p);
  policy_disjoint : ∀ s, s ∈ required_sources p → s ∉ optional_sources p;
  policy_nonempty : required_sources p ≠ [];
  policy_skew : 0 <= max_clock_skew_seconds p <= MAX_CLOCK_SKEW_SECONDS;
}.

Lemma overlap_nil (a b : list string) :
  sorted_strs (filter (λ s, s ∈ b) a) = [] ↔ ∀ s, s ∈ a → s ∉ b.
Proof.
  rewrite sorted_strs_nil. split.
  - intros Hnil s Ha Hb. assert (s ∈ filter (λ s, s ∈ b) a) as Hin
      by by apply list_elem_of_filter.
    rewrite Hnil in Hin. by apply not_elem_of_nil in Hin.
  - intros H. destruct (filter (λ s, s ∈ b) a) as [|s l] eqn:Hf; [done|].
    assert (s ∈ filter (λ s, s ∈ b) a) as [Hb Ha]%list_elem_of_filter by (rewrite Hf; by left).
    by destruct (H s).
Qed.

Lemma normalize_policy_Ok v p : normalize_policy v = Ok p → policy_ok p.
Proof.
  unfold normalize_policy. intros H. normalized.
  repeat match goal with
  | H : normalize_sources _ _ = Ok _ |- _ => apply normalize_sources_Ok in H
  | H : negb _ = false |- _ => apply negb_false_iff, bool_decide_eq_true in H
  | H : bool_decide _ = false |- _ => apply bool_decide_eq_false in H
  end.
  split; simpl; [done|done|by apply (proj1 (overlap_nil _ _))|done|done].
Qed.

Lemma normalize_policy_again p : policy_ok p → normalize_policy (policy_value p) = Ok p.
Proof.
  destruct p as [required optional skew]. intros [Hr Ho Hd Hn Hk]. simpl in *.
  unfold normalize_policy, policy_value. rewrite strict_object_dict by done.
  simpl. repeat (read_key; simpl). rewrite !normalize_sources_again by done. simpl.
  rewrite (proj2 (overlap_nil _ _)) by done. rewrite bool_decide_eq_false_2 by done.
  simpl. rewrite (proj2 (strict_int_Ok _ _ _ _ _)) by (split; [done|lia]). done.
Qed.

(** ** Looking receipts up *)

Lemma receipt_of_elem l r : NoDup (map source l) → r ∈ l → receipt_of l (source r) = Ok r.
Proof.
  induction l as [|x l IH]; [by intros _ ?%not_elem_of_nil|]. simpl.
  intros [Hx Hl]%NoDup_cons [->|Hr]%elem_of_cons; [by rewrite String.eqb_refl|].
  destruct (String.eqb_spec (source x) (source r)) as [Heq|]; [|by apply IH].
  destruct Hx. rewrite Heq. by apply list_elem_of_fmap_2.
Qed.

Lemma receipt_of_Ok l s r : receipt_of l s = Ok r → r ∈ l ∧ source r = s.
Proof.
  induction l as [|x l IH]; [done|]. simpl. destruct (String.eqb_spec (source x) s).
  - intros [= <-]. split; [by left|done].
  - intros H. split; [right|]; by apply IH.
Qed.

Lemma receipt_of_perm l l' s r :
  NoDup (map source l) → l ≡ₚ l' → receipt_of l s = Ok r → receipt_of l' s = Ok r.
Proof.
  intros Hnd Hp [Hr <-]%receipt_of_Ok. apply receipt_of_elem; [by rewrite <- Hp|by rewrite <- Hp].
Qed.

Lemma sources_in_perm states l l' sources res :
  NoDup (map source l) → l ≡ₚ l' →
  sources_in states l sources = Ok res → sources_in states l' sources = Ok res.
Proof.
  intros Hnd Hp. revert res; induction sources as [|s sources IH]; intros res; [done|].
  simpl. intros H. repeat inv_step. erewrite receipt_of_perm by done. simpl.
  by erewrite IH by done.
Qed.

(** The listed sources are those whose receipt is in one of the states. *)
Lemma sources_in_Ok states l sources res :
  sources_in states l sources = Ok res →
  ∀ s, s ∈ res ↔ s ∈ sources ∧ ∃ r, receipt_of l s = Ok r ∧ state r ∈ states.
Proof.
  revert res; induction sources as [|s sources IH]; intros res; simpl.
  - intros [= <-] s'. rewrite elem_of_nil. tauto.
  - intros H s'. repeat inv_step. specialize (IH _ Hok0 s').
    destruct (mem_str (state a) states) eqn:Hm; rewrite ?elem_of_cons, IH.
    + apply mem_str_In in Hm. split.
      * intros [->|[? ?]]; [split; [by left|eauto]|split; [by right|done]].
      * intros [[->|?] ?]; [by left|by right].
    + assert (state a ∉ states) by (rewrite <- mem_str_In; congruence). split.
      * intros [? ?]. split; [by right|done].
      * intros [[->|?] (r & Hr & ?)]; [congruence|eauto].
Qed.

Lemma sources_in_total states l sources :
  NoDup (map source l) → sources ⊆ map source l → ∃ res, sources_in states l sources = Ok res.
Proof.
  intros Hnd. induction sources as [|s sources IH]; intros Hsub; simpl; [eauto|].
  destruct IH as [res Hres]; [set_solver|].
  assert (s ∈ map source l) as (r & -> & Hr)%list_elem_of_fmap by set_solver.
  rewrite receipt_of_elem by done. simpl. rewrite Hres. simpl. eauto.
Qed.

Lemma check_sources_Ok p l u :
  check_sources p l = Ok u ↔
  NoDup (map source l) ∧ ∀ s, s ∈ map source l ↔ s ∈ required_sources p ++ optional_sources p.
Proof.
  unfold check_sources. destruct u. split.
  - intros H. repeat inv_step.
    repeat match goal with
    | H : negb _ = false |- _ => apply negb_false_iff, bool_decide_eq_true in H
    end.
    rewrite sorted_diff_nil in *. set_solver.
  - intros [Hnd Hs].
    rewrite (proj2 (sorted_diff_nil (required_sources p ++ optional_sources p) _))
      by (intros s; by rewrite Hs).
    rewrite (proj2 (sorted_diff_nil (map source l) _)) by (intros s; by rewrite Hs).
    rewrite (bool_decide_eq_true_2 _ Hnd). done.
Qed.

Lemma perm_filter {A} (f : A → bool) l l' :
  l ≡ₚ l' → List.filter f l ≡ₚ List.filter f l'.
Proof.
  induction 1 as [|x l l' _ IH|x y l|]; simpl; [done| | |by etrans].
  - by destruct (f x); rewrite ?IH.
  - destruct (f x), (f y); try done. apply Permutation_swap.
Qed.

Lemma summarize_perm p l l' s :
  NoDup (map source l) → l ≡ₚ l' → summarize p l = Ok s → summarize p l' = Ok s.
Proof.
  intros Hnd Hp. unfold summarize. intros H. repeat inv_step.
  erewrite !sources_in_perm by done. simpl. do 2 f_equal.
  - apply sorted_strs_perm. symmetry. apply Permutation_map, perm_filter. done.
  - f_equal. unfold sort_receipts. symmetry. by apply sort_by_perm.
Qed.

(** ** Reports *)

Lemma summarize_states p l s :
  summarize p l = Ok s → map fst (source_states s) = map source (sort_receipts l).
Proof.
  unfold summarize. intros H. repeat inv_step. simpl. by rewrite map_map.
Qed.

Lemma summary_uniq s : NoDup (map fst (source_states s)) → uniq_keys (summary_value s) = true.
Proof.
  intros Hnd. unfold summary_value, strs. simpl.
  assert (∀ l, forallb uniq_keys (map VStr l) = true) as Hl.
  { intros l. by induction l. }
  rewrite !Hl. simpl. rewrite !andb_true_r.
  assert ((map (λ '(k, v), (k, VStr v)) (source_states s)).*1 = map fst (source_states s)) as ->.
  { clear. induction (source_states s) as [|[k v] l IH]; simpl; [done|]. by f_equal. }
  rewrite (bool_decide_eq_true_2 _ Hnd). simpl.
  clear. induction (source_states s) as [|[k v] l IH]; done.
Qed.

Lemma summary_no_float s : no_float (summary_value s) = true.
Proof.
  unfold summary_value, strs. simpl.
  assert (∀ l, forallb no_float (map VStr l) = true) as Hl.
  { intros l. by induction l. }
  rewrite !Hl. simpl. rewrite andb_true_r.
  induction (source_states s) as [|[k v] l IH]; done.
Qed.

Lemma summary_agrees s :
  NoDup (map fst (source_states s)) → py_eq (summary_value s) (summary_value s) = true.
Proof. intros Hnd. apply py_eq_refl; [by apply summary_uniq|apply summary_no_float]. Qed.

#[local] Opaque normalize_policy normalize_receipt check_sources summarize check_now
  report_sha256.

(** What a built report is made of. *)
Record built (root : items) (now : option string) (t : Z) (raws : list value)
    (l : list receipt) (r : report) : Prop := Built {
  built_instant : representable t = true ∧ generated_at r = isoformat t "Z";
  built_parsed : parse_datetime (dict_get root "generated_at") "generated_at" =
    Ok (generated_at r, t);
  built_now : check_now now t = Ok tt;
  built_policy : normalize_policy (dict_get root "policy") = Ok (report_policy r);
  built_raws : dict_get root "receipts" = VList raws ∧ Z.of_nat (length raws) <= MAX_SOURCES;
  built_each : map_enum 0 raws
    (normalize_receipt t (max_clock_skew_seconds (report_policy r))) = Ok l;
  built_sources : check_sources (report_policy r) l = Ok tt;
  built_summary : summarize (report_policy r) l = Ok (report_summary r);
  built_sorted : receipts r = sort_receipts l;
  built_agrees : disagrees root "summary" (summary_value (report_summary r)) = false ∧
    disagrees root "report_sha256" (VStr (report_sha256 r)) = false;
  built_safe : validate_public_safety (report_value r) = Ok tt;
}.

Lemma build_Ok v now r :
  build_source_coverage_report v now = Ok r → ∃ root t raws l, v = VDict root ∧
    built root now t raws l r.
Proof.
  unfold build_source_coverage_report. intros H.
  repeat (inv_step ||
    match goal with
    | H : (let '(_, _) := ?p in _) = Ok _ |- _ => destruct p
    | H : strict_object _ _ _ = Ok _ |- _ => apply strict_object_Ok in H as [H ?]; subst
    | H : expect_list _ _ _ = Ok _ |- _ => apply expect_list_Ok in H
    end).
  match goal with H : parse_datetime _ _ = Ok (_, ?t) |- _ =>
    pose proof (parse_datetime_Ok _ _ _ _ H) as (_ & ? & ?); exists a, t end.
  eexists _, _. split; [done|]. by split.
Qed.

Lemma receipts_again t skew raws l :
  map_enum 0 raws (normalize_receipt t skew) = Ok l →
  map_enum 0 (map receipt_value (sort_receipts l)) (normalize_receipt t skew) =
    Ok (sort_receipts l).
Proof.
  intros Hl. apply map_enum_again. intros j r Hr%sort_by_elem.
  destruct (map_enum_elem _ _ _ _ _ Hl Hr) as (i & x & _ & Hx). by eapply receipt_again.
Qed.

Lemma agrees_key root name x :
  dict_get root name = x → py_eq x x = true → disagrees root name x = false.
Proof. intros <- Hx. unfold disagrees. by rewrite Hx, andb_false_r. Qed.

(** A coverage report is its own normal form: feeding the document of a
    report the builder produced back to the builder, with the same clock,
    yields the same report.  Receipts come back in their sorted order with the
    derived states, ages and error classes now given explicitly, and the
    summary and the digest carried by the document agree with those derived
    again. *)
Theorem report_replays v now r :
  build_source_coverage_report v now = Ok r →
  build_source_coverage_report (report_value r) now = Ok r.
Proof.
  intros (root & t & raws & l & -> & B)%build_Ok.
  destruct B as [[Ht Hg] Hparse Hnow Hpol [Hraws Hlen] Heach Hsrc Hsum Hsort _ Hsafe].
  destruct r as [g p rs s]. simpl in *. subst g rs.
  pose proof (normalize_policy_Ok _ _ Hpol) as Hpok.
  apply check_sources_Ok in Hsrc as Hsrc'. destruct Hsrc' as [Hnd Hnames].
  pose proof (sort_by_Permutation source l) as Hperm. fold (sort_receipts l) in Hperm.
  unfold build_source_coverage_report, report_value, report_items.
  rewrite strict_object_dict by done. simpl. repeat (read_key; simpl).
  rewrite parse_datetime_printed by done. simpl. rewrite Hnow. simpl.
  rewrite normalize_policy_again by done. simpl.
  rewrite (proj2 (expect_list_Ok _ _ _ (map receipt_value (sort_receipts l)))).
  2: { split; [done|]. rewrite length_map, Hperm. by rewrite (map_enum_length _ _ _ _ Heach). }
  simpl. erewrite receipts_again by done. simpl.
  assert (check_sources p (sort_receipts l) = Ok ()) as ->.
  { apply check_sources_Ok. split; [by rewrite Hperm|]. intros x. by rewrite Hperm. }
  simpl. rewrite (summarize_perm p l _ s) by (done || by symmetry). simpl.
  assert (sort_receipts (sort_receipts l) = sort_receipts l) as -> by by apply sort_by_idem.
  rewrite (raise_if_false (disagrees _ "summary" _)).
  2: { apply agrees_key; [done|]. apply summary_agrees.
       rewrite (summarize_states p l s) by done. by apply map_sort_by_NoDup. }
  rewrite (raise_if_false (disagrees _ "report_sha256" _)).
  2: { apply agrees_key; [done|]. apply String.eqb_refl. }
  unfold report_value, report_items in Hsafe. simpl in Hsafe. simpl. by rewrite Hsafe.
Qed.

(** ** What a complete report rests on *)

#[local] Transparent normalize_freshness normalize_pagination derive_state normalize_receipt
  normalize_error_class summarize check_sources check_now normalize_policy.

(** The raw receipt reports full collection of [s]: it claims completeness,
    its pagination ran to the end of the last page, and the watermark is no
    older than the receipt's own bound at instant [t]. *)
Definition covered (t : Z) (s : string) (raw : value) : Prop :=
  ∃ d pg fr pages_read watermark w max_age,
    raw = VDict d ∧ dict_get d "source" = VStr s ∧
    dict_get d "reported_state" = VStr "complete" ∧
    dict_get d "pagination" = VDict pg ∧
    dict_get pg "started" = VBool true ∧ dict_get pg "complete" = VBool true ∧
    dict_get pg "last_page_complete" = VBool true ∧
    dict_get pg "pages_read" = VInt pages_read ∧ 1 <= pages_read ∧
    dict_get d "freshness" = VDict fr ∧
    parse_datetime (dict_get fr "watermark_at") "watermark_at" = Ok (watermark, w) ∧
    dict_get fr "max_age_seconds" = VInt max_age ∧ elapsed_seconds t w <= max_age.

Lemma derive_complete f rep ec p age max_age d :
  derive_state f rep ec p age max_age = Ok ("complete", d) →
  rep = "complete" ∧ started p = true ∧ complete p = true ∧ last_page_complete p = true ∧
  age <= max_age.
Proof.
  unfold derive_state. destruct (String.eqb_spec rep "complete") as [->|Hrep].
  - destruct (started p), (complete p), (last_page_complete p); try done; simpl.
    destruct (max_age <? age) eqn:Hage; [done|]. bool_hyps. done.
  - intros H. repeat inv_step. congruence.
Qed.

Lemma derive_covered f ec p age max_age st d :
  started p = true → complete p = true → last_page_complete p = true → age <= max_age →
  derive_state f "complete" ec p age max_age = Ok (st, d) → st = "complete".
Proof.
  intros Hs Hc Hl Ha. unfold derive_state. rewrite Hs, Hc, Hl. simpl.
  rewrite (proj2 (Z.ltb_ge _ _)) by done. simpl. intros H. repeat inv_step. congruence.
Qed.

Lemma complete_covered t skew i raw r :
  normalize_receipt t skew i raw = Ok r → state r = "complete" → covered t (source r) raw.
Proof.
  unfold normalize_receipt, normalize_freshness, normalize_pagination.
  intros H Hst. normalized. simpl in *. subst.
  match goal with H : derive_state _ _ _ _ _ _ = _ |- _ =>
    apply derive_complete in H as (-> & Hs & Hc & Hl & Ha) end.
  simpl in *. subst. bool_hyps.
  do 7 eexists. split; [done|]. split; [done|]. split; [done|].
  split; [done|]. do 3 (split; [eassumption|]). split; [eassumption|].
  split; [lia|]. split; [done|]. split; [by eapply parse_datetime_of|].
  split; [eassumption|lia].
Qed.

Lemma covered_complete t skew i s raw r :
  normalize_receipt t skew i raw = Ok r → covered t s raw → state r = "complete" ∧ source r = s.
Proof.
  intros H (d & pg & fr & n & w & wt & m & -> & Hsrc & Hrep & Hpg & Hst & Hco & Hla & Hn & Hn1
    & Hfr & Hw & Hm & Hage).
  unfold normalize_receipt, normalize_freshness, normalize_pagination in H.
  normalized. simpl in *. simplify_eq.
  repeat match goal with
  | H1 : ?x = ?y, H2 : ?x = ?z |- _ =>
      lazymatch type of y with value => rewrite H1 in H2; simplify_eq end
  end.
  split; [|done].
  match goal with
  | H1 : parse_timestamp ?v _ = Ok (isoformat ?z "Z"), H2 : parse_timestamp ?v _ = Ok (isoformat ?w "Z") |- _ =>
    tryif unify z w then fail else
    (apply (parse_datetime_of _ _ "watermark_at") in H1, H2; [|done..]; rewrite H1 in H2; simplify_eq)
  end.
  match goal with H : derive_state _ _ _ _ _ _ = _ |- _ =>
    eapply derive_covered; [..|exact H]; [done|done|done|]; simpl; lia end.
Qed.

Lemma normalized_state t skew i raw r :
  normalize_receipt t skew i raw = Ok r → state r ∈ SUPPORTED_STATES.
Proof.
  unfold normalize_receipt. intros H. normalized. simpl.
  match goal with H : normalize_error_class _ _ = _ |- _ => apply error_class_Ok in H end.
  by eapply derive_state_supported.
Qed.

(** The three lists of a summary, and which of them decides the status. *)
Record summary_spec (p : policy) (l : list receipt) (s : summary) : Prop := {
  spec_blocked x : x ∈ blocked_sources s ↔
    x ∈ required_sources p ∧ ∃ r, receipt_of l x = Ok r ∧ state r ∈ blocked_states;
  spec_partial x : x ∈ partial_sources s ↔
    x ∈ required_sources p ∧ ∃ r, receipt_of l x = Ok r ∧ state r ∈ partial_states;
  spec_complete x : x ∈ complete_sources s ↔
    ∃ r, r ∈ l ∧ source r = x ∧ state r = "complete";
  spec_status : status s =
    if bool_decide (blocked_sources s = [])
    then if bool_decide (partial_sources s = []) then "complete" else "partial"
    else "blocked";
}.

Lemma summarize_spec p l s : summarize p l = Ok s → summary_spec p l s.
Proof.
  unfold summarize. intros H. repeat inv_step. split; simpl.
  - intros x. rewrite sorted_strs_Permutation. by apply sources_in_Ok.
  - intros x. rewrite sorted_strs_Permutation. by apply sources_in_Ok.
  - intros x. rewrite sorted_strs_Permutation, list_elem_of_In, in_map_iff.
    setoid_rewrite filter_In. setoid_rewrite <- list_elem_of_In.
    setoid_rewrite String.eqb_eq. naive_solver.
  - by repeat case_bool_decide.
Qed.

Lemma status_complete p l s :
  summary_spec p l s → (∀ r, r ∈ l → state r ∈ SUPPORTED_STATES) →
  (∀ x, x ∈ required_sources p → ∃ r, receipt_of l x = Ok r) →
  status s = "complete" ↔
  ∀ x, x ∈ required_sources p → ∃ r, receipt_of l x = Ok r ∧ state r = "complete".
Proof.
  intros [Hb Hp _ Hs] Hsup Hhas. rewrite Hs.
  assert (blocked_sources s = [] ∧ partial_sources s = [] ↔
    ∀ x, x ∈ required_sources p → ∃ r, receipt_of l x = Ok r ∧ state r = "complete") as <-.
  { rewrite !empty_iff. split.
    - intros [Hnb Hnp] x Hx. destruct (Hhas x Hx) as [r Hr]. exists r. split; [done|].
      pose proof (Hsup r (proj1 (receipt_of_Ok _ _ _ Hr))) as Hst.
      specialize (Hnb x). specialize (Hnp x). rewrite Hb in Hnb. rewrite Hp in Hnp.
      destruct (decide (state r ∈ blocked_states)); [destruct Hnb; eauto|].
      destruct (decide (state r ∈ partial_states)); [destruct Hnp; eauto|].
      unfold SUPPORTED_STATES, blocked_states, partial_states in *.
      rewrite !elem_of_cons, elem_of_nil in *. tauto.
    - intros H. split; intros x; rewrite ?Hb, ?Hp; intros (Hx & r & Hr & Hin);
        destruct (H x Hx) as (r' & Hr' & Hc); simplify_eq; rewrite Hr in Hr';
        injection Hr' as <-; rewrite Hc in Hin; unfold blocked_states, partial_states in Hin;
        rewrite !elem_of_cons, elem_of_nil in Hin; naive_solver. }
  repeat case_bool_decide; naive_solver.
Qed.

Lemma each_raw t skew raws l :
  map_enum 0 raws (normalize_receipt t skew) = Ok l →
  (∀ r, r ∈ l → ∃ i raw, raw ∈ raws ∧ normalize_receipt t skew i raw = Ok r) ∧
  (∀ raw, raw ∈ raws → ∃ i r, r ∈ l ∧ normalize_receipt t skew i raw = Ok r).
Proof.
  intros H%map_enum_Forall2.
  induction H as [|raw r raws l [i Hi] _ [IH1 IH2]].
  - split; by intros ? ?%not_elem_of_nil.
  - split.
    + intros r' [->|Hr]%elem_of_cons; [exists i, raw; split; [by left|done]|].
      destruct (IH1 r' Hr) as (i' & raw' & ? & ?). exists i', raw'. split; [by right|done].
    + intros raw' [->|Hr]%elem_of_cons; [exists i, r; split; [by left|done]|].
      destruct (IH2 raw' Hr) as (i' & r' & ? & ?). exists i', r'. split; [by right|done].
Qed.

(** The status of a built report, in terms of the raw receipts. *)
Lemma built_covered root now t raws l r :
  built root now t raws l r →
  status (report_summary r) = "complete" ↔
  ∀ s, s ∈ required_sources (report_policy r) → ∃ raw, raw ∈ raws ∧ covered t s raw.
Proof.
  intros [_ _ _ _ _ Heach Hsrc Hsum _ _ _].
  apply check_sources_Ok in Hsrc as [Hnd Hnames].
  apply each_raw in Heach as [Hl Hr].
  rewrite (status_complete _ l _ (summarize_spec _ _ _ Hsum)).
  - split; intros H s Hs.
    + destruct (H s Hs) as (x & [Hx <-]%receipt_of_Ok & Hc).
      destruct (Hl x Hx) as (i & raw & Hraw & Hn). exists raw. split; [done|].
      by eapply complete_covered.
    + destruct (H s Hs) as (raw & Hraw & Hcov).
      destruct (Hr raw Hraw) as (i & x & Hx & Hn).
      destruct (covered_complete _ _ _ _ _ _ Hn Hcov) as [Hc <-].
      exists x. split; [by apply receipt_of_elem|done].
  - intros x Hx. destruct (Hl x Hx) as (i & raw & _ & Hn). by eapply normalized_state.
  - intros s Hs. assert (s ∈ map source l) as (x & -> & Hx)%list_elem_of_fmap.
    { apply Hnames, elem_of_app. by left. }
    exists x. by apply receipt_of_elem.
Qed.

(** C19: A report says [complete] exactly when the raw document covers every
    required source: for each there is a receipt that claims completeness,
    whose pagination started, completed and read its last page, and whose
    watermark is no older than its bound at the report's instant.  A source
    that is blocked, partial, stale or unreachable, and a receipt whose own
    claim is contradicted by its pagination or its age, keep the report from
    saying so. *)
Theorem complete_report_is_covered v now r :
  build_source_coverage_report v now = Ok r →
  ∃ root raws t, v = VDict root ∧ dict_get root "receipts" = VList raws ∧
    parse_datetime (dict_get root "generated_at") "generated_at" = Ok (generated_at r, t) ∧
    (status (report_summary r) = "complete" ↔
     ∀ s, s ∈ required_sources (report_policy r) → ∃ raw, raw ∈ raws ∧ covered t s raw).
Proof.
  intros (root & t & raws & l & -> & B)%build_Ok. exists root, raws, t.
  split; [done|]. split; [apply B|]. split; [apply B|]. by eapply built_covered.
Qed.

(** The summary of a report names exactly the sources it should: a
    required source is listed as blocked when its receipt is unauthorized, not
    configured or excluded, as partial when it is partial, unavailable or
    stale; any source is listed as complete when its receipt is; and one
    blocked source makes the whole report blocked, otherwise one partial
    source makes it partial, whatever the optional sources report. *)
Theorem summary_names_the_gaps v now r :
  build_source_coverage_report v now = Ok r →
  summary_spec (report_policy r) (receipts r) (report_summary r) ∧
  (∀ s, s ∈ map source (receipts r) ↔
    s ∈ required_sources (report_policy r) ++ optional_sources (report_policy r)) ∧
  NoDup (map source (receipts r)).
Proof.
  intros (root & t & raws & l & -> & B)%build_Ok.
  destruct B as [_ _ _ _ _ _ Hsrc Hsum -> _ _].
  apply check_sources_Ok in Hsrc as [Hnd Hnames].
  pose proof (sort_by_Permutation source l) as Hperm. fold (sort_receipts l) in Hperm.
  split.
  - apply summarize_spec. eapply summarize_perm; [done|by symmetry|done].
  - split; [intros s; by rewrite Hperm|by rewrite Hperm].
Qed.

(** ** Failures *)

#[local] Transparent normalize_window normalize_capture.

Lemma raises_normalize_receipt t skew i v :
  raises_in recovery_errors (normalize_receipt t skew i v).
Proof.
  unfold normalize_receipt, normalize_window, normalize_capture, normalize_freshness,
    normalize_pagination, normalize_error_class, derive_state. solve_raises_in.
Qed.

Lemma raises_normalize_sources v f : raises_in recovery_errors (normalize_sources v f).
Proof.
  unfold normalize_sources. solve_raises_in.
  apply raises_in_map_enum. auto with raises.
Qed.
#[local] Hint Resolve raises_normalize_receipt raises_normalize_sources : raises.

Lemma raises_normalize_policy v : raises_in recovery_errors (normalize_policy v).
Proof. unfold normalize_policy. solve_raises_in. Qed.
Lemma raises_check_now now t : raises_in recovery_errors (check_now now t).
Proof. unfold check_now. solve_raises_in. Qed.
#[local] Hint Resolve raises_normalize_policy raises_check_now : raises.

(** Whatever document and clock text it is given, the report builder
    returns a report or raises [RecoveryError], or [OverflowError] when a
    timestamp leaves the representable years: no missing key, wrong type or
    failed lookup surfaces as another exception.  The lookups of receipts by
    source cannot fail once the sources were checked. *)
Theorem coverage_failures_are_typed v now :
  raises_in recovery_errors (build_source_coverage_report v now).
Proof.
  unfold build_source_coverage_report. solve_raises_in.
  - apply raises_in_map_enum. auto with raises.
  - unfold check_sources. solve_raises_in.
  - match goal with H : check_sources ?p ?l = Ok _ |- raises_in _ (summarize ?p ?l) =>
      apply check_sources_Ok in H as [Hnd Hnames];
      assert (required_sources p ⊆ map source l) as Hreq
        by (intros x Hx; apply Hnames, elem_of_app; by left) end.
    unfold summarize.
    destruct (sources_in_total blocked_states _ _ Hnd Hreq) as [? ->].
    destruct (sources_in_total partial_states _ _ Hnd Hreq) as [? ->]. done.
Qed.

(** ** The fixture *)

Definition example_clock : string := "2026-08-10T12:00:00+02:00".
Definition no_report : report :=
  Report EmptyString (Policy [] [] 0) [] (Summary EmptyString 0 0 [] [] [] []).
Definition built_or_empty (res : result report) : report :=
  match res with Ok r => r | Raise _ => no_report end.
Definition example_source : report :=
  built_or_empty (build_example_source_coverage example_clock).
Definition example_outcome : result report :=
  build_source_coverage_report (report_value example_source) (Some example_clock).
Definition example_report : report := built_or_empty example_outcome.

(** The fixture is complete. *)
Lemma example_complete :
  match example_outcome with
  | Ok r => String.eqb (status (report_summary r)) "complete"
  | Raise _ => false
  end = true.
Proof. vm_compute. reflexivity. Qed.

Lemma example_built :
  build_source_coverage_report (report_value example_source) (Some example_clock) =
    Ok example_report.
Proof.
  pose proof example_complete as H. unfold example_report. fold example_outcome.
  by destruct example_outcome.
Qed.

Lemma report_replays_witness :
  build_source_coverage_report (report_value example_report) (Some example_clock) =
    Ok example_report.
Proof. exact (report_replays _ _ _ example_built). Defined.

Lemma complete_report_is_covered_witness :
  ∃ root raws t, report_value example_source = VDict root ∧
    dict_get root "receipts" = VList raws ∧
    parse_datetime (dict_get root "generated_at") "generated_at" =
      Ok (generated_at example_report, t) ∧
    (status (report_summary example_report) = "complete" ↔
     ∀ s, s ∈ required_sources (report_policy example_report) →
       ∃ raw, raw ∈ raws ∧ covered t s raw).
Proof. exact (complete_report_is_covered _ _ _ example_built). Defined.

Lemma summary_names_the_gaps_witness :
  summary_spec (report_policy example_report) (receipts example_report)
    (report_summary example_report) ∧
  (∀ s, s ∈ map source (receipts example_report) ↔
    s ∈ required_sources (report_policy example_report)
        ++ optional_sources (report_policy example_report)) ∧
  NoDup (map source (receipts example_report)).
Proof. exact (summary_names_the_gaps _ _ _ example_built). Defined.

(** A timestamp before year 1 in UTC is refused with an [OverflowError], which
    the command line does not catch, instead of a [RecoveryError]. *)
Example early_timestamp_overflows :
  parse_timestamp (VStr "0001-01-01T00:00:00+01:00") "generated_at" =
    Raise date_out_of_range.
Proof. vm_compute. reflexivity. Qed.

End CoverageTheorems.
