(* ===== verification/MutationContract.v ===== *)
(** * Mutation receipts: normalisation

    [src/tools/artifact_recovery/mutation_receipts_contract.py]: the policy,
    the target snapshots, the mutation intents and the result receipts of the
    optimistic-concurrency contract, each content-addressed by the digest of
    its canonical material.  The dicts the code builds are records here, and
    [..._value] functions give the dicts, keys in the code's order. *)
From S2P Require Import Prelude PyValue Sha256 Json DateTime RecoveryCommon.
From Stdlib Require Import Ascii.

Module MutationContract.
Open Scope Z_scope.

Definition SCHEMA_VERSION : string := "coordinator_mutation_receipts.v1".
Definition FAILURE_LEDGER_SCHEMA : string := "coordinator_mutation_failure_ledger.v1".
Definition SYSTEMS : list string := ["linear"; "github"].
Definition RESOURCE_KINDS : list string :=
  ["linear_issue"; "linear_comment_thread"; "github_branch"; "github_pull_request";
   "github_issue"; "github_comment_thread"].
Definition OPERATION_SYSTEM : list (string * string) :=
  [("linear_update_issue", "linear"); ("linear_create_comment", "linear");
   ("linear_set_relation", "linear"); ("linear_update_status", "linear");
   ("github_create_branch", "github"); ("github_update_branch", "github");
   ("github_create_pull_request", "github"); ("github_update_pull_request", "github");
   ("github_create_comment", "github")].
Definition OPERATIONS : list string :=
  ["linear_update_issue"; "linear_create_comment"; "linear_set_relation";
   "linear_update_status"; "github_create_branch"; "github_update_branch";
   "github_create_pull_request"; "github_update_pull_request"; "github_create_comment"].
Definition RELATION_OPERATIONS : list string := ["linear_set_relation"].
Definition CHAIN_STEPS : list string :=
  ["linear_issue"; "routing"; "branch"; "commit"; "pull_request"; "evidence"; "linear_status"].
Definition COMPENSATIONS : list string :=
  ["none"; "restore_previous_state"; "remove_created_relation";
   "close_created_pull_request"; "delete_created_branch"; "revert_comment"; "manual_review"].
Definition RESULT_OUTCOMES : list string :=
  ["accepted"; "rejected"; "provider_error"; "compensated"].
Definition MAX_RECORDS : Z := 10000.
Definition MAX_CLOCK_SKEW_SECONDS : Z := 3600.
Definition MAX_SNAPSHOT_AGE_SECONDS : Z := 86400.
Definition MAX_LEASE_SECONDS : Z := 86400.
Definition MAX_ATTEMPTS : Z := 20.

Definition at_index (field : string) (index : nat) : string :=
  field +:+ "[" +:+ str_nat index +:+ "]".

(** The helpers this module defines for itself; they are those of
    [source_coverage.py]. *)
Definition _strict_object := strict_object.
Definition _expect_int := strict_int.
Definition _expect_sha256 := strict_sha256.
Definition _optional_sha256 := optional_sha256.
Definition _parse_datetime := parse_datetime.

(** [d[k]] on a constant table. *)
Fixpoint table_get (d : list (string * string)) (k : string) : result string :=
  match d with
  | [] => Raise (Exn KeyError (repr_str k))
  | (k', v) :: d => if String.eqb k k' then Ok v else table_get d k
  end.

(** ** Leases *)

Record lease : Type := Lease {
  token_sha256 : string;
  owner_sha256 : string;
  acquired_at : string;
  expires_at : string;
}.

Definition lease_value (l : lease) : value :=
  VDict [("token_sha256", VStr (token_sha256 l)); ("owner_sha256", VStr (owner_sha256 l));
         ("acquired_at", VStr (acquired_at l)); ("expires_at", VStr (expires_at l))].
Definition opt_lease_value (o : option lease) : value :=
  match o with Some l => lease_value l | None => VNone end.

Definition _normalize_lease (v : value) (field : string) (max_lease_seconds : Z)
  : result (option lease) :=
  if is_none v then Ok None
  else
    lease ← _strict_object v field ["token_sha256"; "owner_sha256"; "acquired_at"; "expires_at"];
    '(acquired_at, acquired_dt) ←
      _parse_datetime (dict_get lease "acquired_at") (field +:+ ".acquired_at");
    '(expires_at, expires_dt) ←
      _parse_datetime (dict_get lease "expires_at") (field +:+ ".expires_at");
    let duration := elapsed_seconds expires_dt acquired_dt in
    raise_if (duration <=? 0) (recovery_error (field +:+ " must expire after acquisition")) ;;
    raise_if (max_lease_seconds <? duration)
      (recovery_error (field +:+ " exceeds the policy maximum lease duration")) ;;
    token ← _expect_sha256 (dict_get lease "token_sha256") (field +:+ ".token_sha256");
    owner ← _expect_sha256 (dict_get lease "owner_sha256") (field +:+ ".owner_sha256");
    Ok (Some (Lease token owner acquired_at expires_at)).

(** ** The policy *)

Record policy : Type := Policy {
  version_sha256 : string;
  max_clock_skew_seconds : Z;
  max_snapshot_age_seconds : Z;
  max_lease_seconds : Z;
  max_attempts : Z;
}.

Definition policy_material (skew age lease attempts : Z) : items :=
  [("max_clock_skew_seconds", VInt skew); ("max_snapshot_age_seconds", VInt age);
   ("max_lease_seconds", VInt lease); ("max_attempts", VInt attempts)].
Definition policy_value (p : policy) : value :=
  VDict (("version_sha256", VStr (version_sha256 p))
    :: policy_material (max_clock_skew_seconds p) (max_snapshot_age_seconds p)
         (max_lease_seconds p) (max_attempts p)).

Definition _normalize_policy (v : value) : result policy :=
  policy ← _strict_object v "policy"
    ["version_sha256"; "max_clock_skew_seconds"; "max_snapshot_age_seconds";
     "max_lease_seconds"; "max_attempts"];
  skew ← _expect_int (dict_get policy "max_clock_skew_seconds")
    "policy.max_clock_skew_seconds" 0 (Some MAX_CLOCK_SKEW_SECONDS);
  age ← _expect_int (dict_get policy "max_snapshot_age_seconds")
    "policy.max_snapshot_age_seconds" 1 (Some MAX_SNAPSHOT_AGE_SECONDS);
  lease ← _expect_int (dict_get policy "max_lease_seconds")
    "policy.max_lease_seconds" 1 (Some MAX_LEASE_SECONDS);
  attempts ← _expect_int (dict_get policy "max_attempts")
    "policy.max_attempts" 1 (Some MAX_ATTEMPTS);
  version ← _expect_sha256 (dict_get policy "version_sha256") "policy.version_sha256";
  raise_if (negb (String.eqb version (digest_of (VDict (policy_material skew age lease attempts)))))
    (recovery_error "policy.version_sha256 must bind the canonical policy") ;;
  Ok (Policy version skew age lease attempts).

(** ** Target snapshots *)

Record target : Type := Target {
  t_system : string;
  t_resource_kind : string;
  identity_sha256 : string;
  t_version_sha256 : string;
  t_routing_sha256 : string;
  t_authorization_sha256 : string;
  t_observed_at : string;
  resolvable : bool;
  t_lease : option lease;
}.

Definition target_value (t : target) : value :=
  VDict [("system", VStr (t_system t)); ("resource_kind", VStr (t_resource_kind t));
         ("identity_sha256", VStr (identity_sha256 t));
         ("version_sha256", VStr (t_version_sha256 t));
         ("routing_sha256", VStr (t_routing_sha256 t));
         ("authorization_sha256", VStr (t_authorization_sha256 t));
         ("observed_at", VStr (t_observed_at t)); ("resolvable", VBool (resolvable t));
         ("lease", opt_lease_value (t_lease t))].

Definition _normalize_target (policy : policy) (index : nat) (v : value) : result target :=
  let field := at_index "targets" index in
  target ← _strict_object v field
    ["system"; "resource_kind"; "identity_sha256"; "version_sha256"; "routing_sha256";
     "authorization_sha256"; "observed_at"; "resolvable"; "lease"];
  system ← member_of (dict_get target "system") (field +:+ ".system") 16 SYSTEMS;
  resource_kind ← member_of (dict_get target "resource_kind") (field +:+ ".resource_kind") 64
    RESOURCE_KINDS;
  '(observed_at, _) ← _parse_datetime (dict_get target "observed_at") (field +:+ ".observed_at");
  identity ← _expect_sha256 (dict_get target "identity_sha256") (field +:+ ".identity_sha256");
  version ← _expect_sha256 (dict_get target "version_sha256") (field +:+ ".version_sha256");
  routing ← _expect_sha256 (dict_get target "routing_sha256") (field +:+ ".routing_sha256");
  authorization ← _expect_sha256 (dict_get target "authorization_sha256")
    (field +:+ ".authorization_sha256");
  resolvable ← expect_bool (dict_get target "resolvable") (field +:+ ".resolvable");
  lease ← _normalize_lease (dict_get target "lease") (field +:+ ".lease")
    (max_lease_seconds policy);
  Ok (Target system resource_kind identity version routing authorization observed_at
        resolvable lease).

(** ** Chains *)

Record chain : Type := Chain {
  workflow_sha256 : string;
  step : string;
  sequence : Z;
  previous_result_sha256 : option string;
  trace_sha256 : string;
}.

Definition chain_material (workflow step : string) (sequence : Z) (previous : option string)
  : items :=
  [("workflow_sha256", VStr workflow); ("step", VStr step); ("sequence", VInt sequence);
   ("previous_result_sha256", opt_str previous)].
Definition chain_value (c : chain) : value :=
  VDict (chain_material (workflow_sha256 c) (step c) (sequence c) (previous_result_sha256 c)
    ++ [("trace_sha256", VStr (trace_sha256 c))]).

Definition _normalize_chain (v : value) (field : string) : result chain :=
  chain ← _strict_object v field
    ["workflow_sha256"; "step"; "sequence"; "previous_result_sha256"; "trace_sha256"];
  step ← member_of (dict_get chain "step") (field +:+ ".step") 32 CHAIN_STEPS;
  sequence ← _expect_int (dict_get chain "sequence") (field +:+ ".sequence") 0 (Some 64);
  previous_result ← _optional_sha256 (dict_get chain "previous_result_sha256")
    (field +:+ ".previous_result_sha256");
  raise_if ((sequence =? 0) && is_some previous_result)
    (recovery_error (field +:+ ".previous_result_sha256 must be null for sequence 0")) ;;
  raise_if ((0 <? sequence) && negb (is_some previous_result))
    (recovery_error (field +:+ ".previous_result_sha256 is required after sequence 0")) ;;
  workflow ← _expect_sha256 (dict_get chain "workflow_sha256") (field +:+ ".workflow_sha256");
  trace ← _expect_sha256 (dict_get chain "trace_sha256") (field +:+ ".trace_sha256");
  raise_if (negb (String.eqb trace
      (digest_of (VDict (chain_material workflow step sequence previous_result)))))
    (recovery_error (field +:+ ".trace_sha256 does not bind the chain")) ;;
  Ok (Chain workflow step sequence previous_result trace).

(** ** Intents *)

Record intent : Type := Intent {
  intent_sha256 : string;
  system : string;
  operation : string;
  resource_kind : string;
  target_identity_sha256 : string;
  observed_version_sha256 : string;
  observed_at : string;
  desired_patch_sha256 : string;
  relation_analysis_sha256 : option string;
  actor_sha256 : string;
  run_sha256 : string;
  idempotency_key_sha256 : string;
  policy_sha256 : string;
  routing_sha256 : string;
  authorization_sha256 : string;
  intent_lease : option lease;
  compensation : string;
  intent_chain : chain;
}.

Definition intent_material (i : intent) : items :=
  [("system", VStr (system i)); ("operation", VStr (operation i));
   ("resource_kind", VStr (resource_kind i));
   ("target_identity_sha256", VStr (target_identity_sha256 i));
   ("observed_version_sha256", VStr (observed_version_sha256 i));
   ("observed_at", VStr (observed_at i));
   ("desired_patch_sha256", VStr (desired_patch_sha256 i));
   ("relation_analysis_sha256", opt_str (relation_analysis_sha256 i));
   ("actor_sha256", VStr (actor_sha256 i)); ("run_sha256", VStr (run_sha256 i));
   ("idempotency_key_sha256", VStr (idempotency_key_sha256 i));
   ("policy_sha256", VStr (policy_sha256 i)); ("routing_sha256", VStr (routing_sha256 i));
   ("authorization_sha256", VStr (authorization_sha256 i));
   ("lease", opt_lease_value (intent_lease i)); ("compensation", VStr (compensation i));
   ("chain", chain_value (intent_chain i))].
Definition intent_value (i : intent) : value :=
  VDict (("intent_sha256", VStr (intent_sha256 i)) :: intent_material i).

Definition INTENT_KEYS : list string :=
  ["intent_sha256"; "system"; "operation"; "resource_kind"; "target_identity_sha256";
   "observed_version_sha256"; "observed_at"; "desired_patch_sha256";
   "relation_analysis_sha256"; "actor_sha256"; "run_sha256"; "idempotency_key_sha256";
   "policy_sha256"; "routing_sha256"; "authorization_sha256"; "lease"; "compensation";
   "chain"].

Definition _normalize_intent (policy : policy) (index : nat) (v : value) : result intent :=
  let field := at_index "intents" index in
  intent ← _strict_object v field INTENT_KEYS;
  let digest name := _expect_sha256 (dict_get intent name) (field +:+ "." +:+ name) in
  system ← member_of (dict_get intent "system") (field +:+ ".system") 16 SYSTEMS;
  operation ← member_of (dict_get intent "operation") (field +:+ ".operation") 64 OPERATIONS;
  operation_system ← table_get OPERATION_SYSTEM operation;
  raise_if (negb (String.eqb operation_system system))
    (recovery_error (field +:+ ".operation does not match system")) ;;
  resource_kind ← member_of (dict_get intent "resource_kind") (field +:+ ".resource_kind") 64
    RESOURCE_KINDS;
  '(observed_at, _) ← _parse_datetime (dict_get intent "observed_at") (field +:+ ".observed_at");
  relation_analysis ← _optional_sha256 (dict_get intent "relation_analysis_sha256")
    (field +:+ ".relation_analysis_sha256");
  raise_if (mem_str operation RELATION_OPERATIONS && negb (is_some relation_analysis))
    (recovery_error
       (field +:+ ".relation_analysis_sha256 is required for relation mutations")) ;;
  compensation ← member_of (dict_get intent "compensation") (field +:+ ".compensation") 64
    COMPENSATIONS;
  target_identity ← digest "target_identity_sha256";
  observed_version ← digest "observed_version_sha256";
  desired_patch ← digest "desired_patch_sha256";
  actor ← digest "actor_sha256";
  run ← digest "run_sha256";
  idempotency_key ← digest "idempotency_key_sha256";
  policy_sha ← digest "policy_sha256";
  routing ← digest "routing_sha256";
  authorization ← digest "authorization_sha256";
  lease ← _normalize_lease (dict_get intent "lease") (field +:+ ".lease")
    (max_lease_seconds policy);
  chain ← _normalize_chain (dict_get intent "chain") (field +:+ ".chain");
  intent_sha ← digest "intent_sha256";
  let normalized := Intent intent_sha system operation resource_kind target_identity
    observed_version observed_at desired_patch relation_analysis actor run idempotency_key
    policy_sha routing authorization lease compensation chain in
  raise_if (negb (String.eqb intent_sha (digest_of (VDict (intent_material normalized)))))
    (recovery_error (field +:+ ".intent_sha256 does not bind the canonical intent")) ;;
  Ok normalized.

(** ** Results *)

Record mutation_result : Type := Result {
  result_sha256 : string;
  r_intent_sha256 : string;
  r_idempotency_key_sha256 : string;
  r_system : string;
  r_target_identity_sha256 : string;
  outcome : string;
  provider_receipt_sha256 : option string;
  before_version_sha256 : string;
  after_version_sha256 : option string;
  occurred_at : string;
  r_actor_sha256 : string;
  detail_sha256 : string;
  compensation_of_result_sha256 : option string;
}.

Definition result_material (r : mutation_result) : items :=
  [("intent_sha256", VStr (r_intent_sha256 r));
   ("idempotency_key_sha256", VStr (r_idempotency_key_sha256 r));
   ("system", VStr (r_system r));
   ("target_identity_sha256", VStr (r_target_identity_sha256 r));
   ("outcome", VStr (outcome r));
   ("provider_receipt_sha256", opt_str (provider_receipt_sha256 r));
   ("before_version_sha256", VStr (before_version_sha256 r));
   ("after_version_sha256", opt_str (after_version_sha256 r));
   ("occurred_at", VStr (occurred_at r)); ("actor_sha256", VStr (r_actor_sha256 r));
   ("detail_sha256", VStr (detail_sha256 r));
   ("compensation_of_result_sha256", opt_str (compensation_of_result_sha256 r))].
Definition result_value (r : mutation_result) : value :=
  VDict (("result_sha256", VStr (result_sha256 r)) :: result_material r).

Definition RESULT_KEYS : list string :=
  ["result_sha256"; "intent_sha256"; "idempotency_key_sha256"; "system";
   "target_identity_sha256"; "outcome"; "provider_receipt_sha256"; "before_version_sha256";
   "after_version_sha256"; "occurred_at"; "actor_sha256"; "detail_sha256";
   "compensation_of_result_sha256"].

(** [intents_by_sha.get(sha)] *)
Definition find_intent (intents : list intent) (sha : string) : option intent :=
  List.find (λ i, String.eqb (intent_sha256 i) sha) intents.

(** [result["outcome"] in {"accepted", "compensated"}] *)
Definition _result_is_accepted (r : mutation_result) : bool :=
  mem_str (outcome r) ["accepted"; "compensated"].

(** What a result must agree with its intent on, and what its outcome needs. *)
Definition check_result (field : string) (intent : intent) (r : mutation_result)
  : result unit :=
  raise_if (negb (String.eqb (r_idempotency_key_sha256 r) (idempotency_key_sha256 intent)))
    (recovery_error (field +:+ " does not match the intent idempotency key")) ;;
  raise_if (negb (String.eqb (r_system r) (system intent)))
    (recovery_error (field +:+ " does not match the intent system")) ;;
  raise_if (negb (String.eqb (r_target_identity_sha256 r) (target_identity_sha256 intent)))
    (recovery_error (field +:+ " does not match the intent target")) ;;
  raise_if (negb (String.eqb (before_version_sha256 r) (observed_version_sha256 intent)))
    (recovery_error (field +:+ " does not match the intent precondition")) ;;
  (if _result_is_accepted r then
     raise_if (negb (is_some (provider_receipt_sha256 r)))
       (recovery_error (field +:+ " requires a provider receipt")) ;;
     raise_if (negb (is_some (after_version_sha256 r)))
       (recovery_error (field +:+ " requires an after-version digest"))
   else
     raise_if (is_some (after_version_sha256 r))
       (recovery_error (field
          +:+ ".after_version_sha256 must be null when no mutation was accepted"))) ;;
  if String.eqb (outcome r) "compensated" then
    raise_if (negb (is_some (compensation_of_result_sha256 r)))
      (recovery_error (field +:+ " must reference the compensated result"))
  else
    raise_if (is_some (compensation_of_result_sha256 r))
      (recovery_error (field
         +:+ ".compensation_of_result_sha256 is only valid for compensation")).

Definition _normalize_result (intents_by_sha : list intent) (index : nat) (v : value)
  : result mutation_result :=
  let field := at_index "results" index in
  raw ← _strict_object v field RESULT_KEYS;
  let digest name := _expect_sha256 (dict_get raw name) (field +:+ "." +:+ name) in
  let optional_digest name := _optional_sha256 (dict_get raw name) (field +:+ "." +:+ name) in
  intent_sha ← digest "intent_sha256";
  match find_intent intents_by_sha intent_sha with
  | None => Raise (recovery_error (field +:+ ".intent_sha256 is not in this report"))
  | Some intent =>
      system ← member_of (dict_get raw "system") (field +:+ ".system") 16 SYSTEMS;
      outcome ← member_of (dict_get raw "outcome") (field +:+ ".outcome") 32 RESULT_OUTCOMES;
      '(occurred_at, _) ← _parse_datetime (dict_get raw "occurred_at")
        (field +:+ ".occurred_at");
      idempotency_key ← digest "idempotency_key_sha256";
      target_identity ← digest "target_identity_sha256";
      provider_receipt ← optional_digest "provider_receipt_sha256";
      before_version ← digest "before_version_sha256";
      after_version ← optional_digest "after_version_sha256";
      actor ← digest "actor_sha256";
      detail ← digest "detail_sha256";
      compensation_of ← optional_digest "compensation_of_result_sha256";
      let material result_sha := Result result_sha intent_sha idempotency_key system
        target_identity outcome provider_receipt before_version after_version occurred_at
        actor detail compensation_of in
      check_result field intent (material EmptyString) ;;
      result_sha ← digest "result_sha256";
      raise_if (negb (String.eqb result_sha
          (digest_of (VDict (result_material (material result_sha))))))
        (recovery_error (field +:+ ".result_sha256 does not bind the canonical result")) ;;
      Ok (material result_sha)
  end.
End MutationContract.
