(* ===== verification/MutationReceipts.v ===== *)
(** * Mutation receipts: assessment

    [src/tools/artifact_recovery/mutation_receipts.py]: every intent is
    assessed against the current target snapshots and the results recorded so
    far, intents that race for one target version are blocked together, and the
    report carries the assessments, their summary and the failure ledger. *)
From S2P Require Import Prelude PyValue Sha256 Json DateTime RecoveryCommon MutationContract.
From Stdlib Require Import Ascii.
Import MutationContract.

Module MutationReceipts.
Open Scope Z_scope.

(** ** Decisions *)

Inductive decision : Type :=
  | ready | replay | conflict | expired | denied | unverifiable | blocked_by_chain.
#[export] Instance decision_eq_dec : EqDecision decision.
Proof. solve_decision. Defined.

Definition decision_name (d : decision) : string :=
  match d with
  | ready => "ready" | replay => "replay" | conflict => "conflict" | expired => "expired"
  | denied => "denied" | unverifiable => "unverifiable"
  | blocked_by_chain => "blocked_by_chain"
  end.

Record assessment : Type := Assessment {
  a_intent_sha256 : string;
  a_target_identity_sha256 : string;
  a_idempotency_key_sha256 : string;
  current_version_sha256 : option string;
  a_decision : decision;
  reason_codes : list string;
  attempt_count : Z;
  accepted_result_sha256 : option string;
  chain_previous_current : option bool;
  compensation_required : bool;
}.

Definition assessment_value (a : assessment) : value :=
  VDict [("intent_sha256", VStr (a_intent_sha256 a));
         ("target_identity_sha256", VStr (a_target_identity_sha256 a));
         ("idempotency_key_sha256", VStr (a_idempotency_key_sha256 a));
         ("current_version_sha256", opt_str (current_version_sha256 a));
         ("decision", VStr (decision_name (a_decision a)));
         ("reason_codes", strs (reason_codes a));
         ("attempt_count", VInt (attempt_count a));
         ("accepted_result_sha256", opt_str (accepted_result_sha256 a));
         ("chain_previous_current", opt_bool (chain_previous_current a));
         ("compensation_required", VBool (compensation_required a))].

(** ** The tables of a report *)

Record tables : Type := Tables {
  targets : list target;
  intents : list intent;
  results : list mutation_result;
}.

(** [targets_by_identity.get(...)], [results_by_sha.get(...)] and
    [results_by_intent.get(..., [])]. *)
Definition find_target (T : tables) (identity : string) : option target :=
  List.find (λ t, String.eqb (identity_sha256 t) identity) (targets T).
Definition find_result (T : tables) (sha : string) : option mutation_result :=
  List.find (λ r, String.eqb (result_sha256 r) sha) (results T).
Definition results_of (T : tables) (intent_sha : string) : list mutation_result :=
  List.filter (λ r, String.eqb (r_intent_sha256 r) intent_sha) (results T).
(** [intents_by_sha[...]] *)
Definition intent_of (T : tables) (sha : string) : result intent :=
  match find_intent (intents T) sha with
  | Some i => Ok i
  | None => Raise (Exn KeyError (repr_str sha))
  end.

(** The keys more than one intent uses. *)
Definition idempotency_collision (T : tables) (key : string) : bool :=
  (1 <? length (remove_dups (map intent_sha256
     (List.filter (λ i, String.eqb (idempotency_key_sha256 i) key) (intents T)))))%nat.

(** ** One intent *)

Definition _age_seconds (when : string) (reference skew : Z) (field : string) : result Z :=
  '(_, parsed) ← _parse_datetime (VStr when) field;
  latest ← instant_add reference (seconds skew);
  raise_if (latest <? parsed)
    (recovery_error (field +:+ " is beyond the allowed clock skew")) ;;
  Ok (Z.max 0 (elapsed_seconds reference parsed)).

(** The decision so far and the reasons given; a later finding overrides the
    decision, the reasons accumulate. *)
Definition verdict : Type := decision * list string.
Definition note (reason : string) (v : verdict) : verdict := (v.1, reason :: v.2).
Definition finding (b : bool) (reason : string) (d : decision) (v : verdict) : verdict :=
  if b then (d, reason :: v.2) else v.

Definition same_lease (a b : lease) : bool :=
  String.eqb (token_sha256 a) (token_sha256 b) && String.eqb (owner_sha256 a) (owner_sha256 b)
  && String.eqb (expires_at a) (expires_at b).

Definition assess_lease (intent : intent) (target : target) (generated_at : Z)
    (policy : policy) (v : verdict) : result verdict :=
  match intent_lease intent, t_lease target with
  | Some intent_lease, Some target_lease =>
      let v := finding (negb (same_lease intent_lease target_lease))
        "lease_changed" conflict v in
      '(_, acquired_dt) ← _parse_datetime (VStr (acquired_at intent_lease))
        "intent.lease.acquired_at";
      latest ← instant_add generated_at (seconds (max_clock_skew_seconds policy));
      raise_if (latest <? acquired_dt)
        (recovery_error "intent.lease.acquired_at is beyond the allowed clock skew") ;;
      '(_, expires_dt) ← _parse_datetime (VStr (expires_at intent_lease))
        "intent.lease.expires_at";
      Ok (finding (expires_dt <? generated_at) "lease_expired" expired v)
  | _, _ => Ok (finding true "lease_changed" conflict v)
  end.

Definition assess_target (intent : intent) (target : target) (generated_at : Z)
    (policy : policy) (v : verdict) : result verdict :=
  let v := finding (negb (String.eqb (t_system target) (system intent)))
    "target_system_mismatch" conflict v in
  let v := finding (negb (String.eqb (t_resource_kind target) (resource_kind intent)))
    "target_resource_mismatch" conflict v in
  let v := finding (negb (String.eqb (t_version_sha256 target)
    (observed_version_sha256 intent))) "target_version_changed" conflict v in
  let v := finding (negb (String.eqb (t_routing_sha256 target) (routing_sha256 intent)))
    "routing_changed" conflict v in
  let v := finding (negb (String.eqb (t_authorization_sha256 target)
    (authorization_sha256 intent))) "authorization_changed" denied v in
  let v := finding (negb (String.eqb (policy_sha256 intent) (version_sha256 policy)))
    "policy_changed" denied v in
  snapshot_age ← _age_seconds (t_observed_at target) generated_at
    (max_clock_skew_seconds policy) "target.observed_at";
  intent_age ← _age_seconds (observed_at intent) generated_at
    (max_clock_skew_seconds policy) "intent.observed_at";
  let v := finding ((max_snapshot_age_seconds policy <? snapshot_age)
      || (max_snapshot_age_seconds policy <? intent_age)) "snapshot_stale" conflict v in
  assess_lease intent target generated_at policy v.

(** The target's snapshot, when there is one to judge, and its version. *)
Definition assess_subject (target : option target) (intent : intent) (generated_at : Z)
    (policy : policy) (v : verdict) : result (verdict * option string) :=
  match target with
  | Some t =>
      if resolvable t then
        v ← assess_target intent t generated_at policy v;
        Ok (v, Some (t_version_sha256 t))
      else Ok (finding true "target_unresolved" unverifiable v, None)
  | None => Ok (finding true "target_unresolved" unverifiable v, None)
  end.

(** Whether the previous result's subject is still what the result left. *)
Definition previous_subject_current (T : tables) (previous : mutation_result) : bool :=
  match find_target T (r_target_identity_sha256 previous) with
  | Some t => resolvable t && eq_opt (t_version_sha256 t) (after_version_sha256 previous)
  | None => false
  end.

Definition assess_chain (T : tables) (intent : intent) (v : verdict)
  : result (verdict * option bool) :=
  let chain := intent_chain intent in
  match previous_result_sha256 chain with
  | None => Ok (v, None)
  | Some previous_sha =>
      match find_result T previous_sha with
      | None => Ok (finding true "previous_result_missing" blocked_by_chain v, Some false)
      | Some previous =>
          if negb (_result_is_accepted previous) then
            Ok (finding true "previous_result_not_accepted" blocked_by_chain v, Some false)
          else
            previous_intent ← intent_of T (r_intent_sha256 previous);
            let before := intent_chain previous_intent in
            if negb (String.eqb (workflow_sha256 before) (workflow_sha256 chain))
               || negb (sequence before + 1 =? sequence chain)
            then Ok (finding true "previous_chain_mismatch" blocked_by_chain v, Some false)
            else
              let current := previous_subject_current T previous in
              Ok (finding (negb current) "previous_subject_changed" blocked_by_chain v,
                  Some current)
      end
  end.

Definition assess_failures (intent : intent) (intent_results : list mutation_result)
    (v : verdict) : verdict * bool :=
  if existsb (λ r, String.eqb (outcome r) "provider_error") intent_results then
    let v := note "provider_failure" v in
    if is_some (previous_result_sha256 (intent_chain intent)) then
      let v := note "compensation_required" v in
      (finding (String.eqb (compensation intent) "none")
         "compensation_unavailable" blocked_by_chain v, true)
    else (v, false)
  else (v, false).

(** [sorted(reasons)] of a set *)
Definition sorted_set (l : list string) : list string := sorted_strs (remove_dups l).

Definition _assess_intent (T : tables) (policy : policy) (generated_at : Z)
    (intent : intent) : result assessment :=
  let intent_results := results_of T (intent_sha256 intent) in
  let attempts := Z.of_nat (length intent_results) in
  let accepted := List.filter _result_is_accepted intent_results in
  let target := find_target T (target_identity_sha256 intent) in
  raise_if (1 <? length accepted)%nat
    (recovery_error
       "an intent has more than one accepted result; idempotency was violated") ;;
  match accepted with
  | first :: _ =>
      Ok (Assessment (intent_sha256 intent) (target_identity_sha256 intent)
            (idempotency_key_sha256 intent) (t_version_sha256 <$> target)
            replay ["idempotent_replay"] attempts (Some (result_sha256 first)) None false)
  | [] =>
      let v := (ready, []) in
      let v := finding (idempotency_collision T (idempotency_key_sha256 intent))
        "idempotency_key_reused" conflict v in
      let v := finding (max_attempts policy <=? attempts)
        "attempt_budget_exhausted" conflict v in
      '(v, current_version) ← assess_subject target intent generated_at policy v;
      '(v, previous_current) ← assess_chain T intent v;
      let '(v, compensation_required) := assess_failures intent intent_results v in
      Ok (Assessment (intent_sha256 intent) (target_identity_sha256 intent)
            (idempotency_key_sha256 intent) current_version
            v.1 (sorted_set v.2) attempts None previous_current compensation_required)
  end.

(** ** Races *)

(** The key under which ready assessments are grouped. *)
Definition race_key (T : tables) (a : assessment) : result (string * string * string) :=
  intent ← intent_of T (a_intent_sha256 a);
  Ok (system intent, target_identity_sha256 intent, observed_version_sha256 intent).

Definition is_ready (a : assessment) : bool := bool_decide (a_decision a = ready).

(** The keys of the ready assessments, one each, before any is changed. *)
Fixpoint ready_keys (T : tables) (l : list assessment)
  : result (list (string * string * string)) :=
  match l with
  | [] => Ok []
  | a :: l =>
      if is_ready a then
        key ← race_key T a; keys ← ready_keys T l; Ok (key :: keys)
      else ready_keys T l
  end.

Definition block (a : assessment) : assessment :=
  Assessment (a_intent_sha256 a) (a_target_identity_sha256 a) (a_idempotency_key_sha256 a)
    (current_version_sha256 a) conflict
    (sorted_set ("concurrent_intent_collision" :: reason_codes a)) (attempt_count a)
    (accepted_result_sha256 a) (chain_previous_current a) (compensation_required a).

Definition members (key : string * string * string) (keys : list (string * string * string))
  : nat := length (filter (λ k, k = key) keys).

(** Every assessment of a group of two or more is blocked. *)
Fixpoint block_races (T : tables) (keys : list (string * string * string))
    (l : list assessment) : result (list assessment) :=
  match l with
  | [] => Ok []
  | a :: l =>
      a' ← (if is_ready a then
              key ← race_key T a;
              Ok (if (members key keys <? 2)%nat then a else block a)
            else Ok a);
      rest ← block_races T keys l;
      Ok (a' :: rest)
  end.

Definition _apply_collision_control (T : tables) (l : list assessment)
  : result (list assessment) :=
  keys ← ready_keys T l;
  block_races T keys l.

(** ** The failure ledger *)

Definition is_settled (a : assessment) : bool :=
  match a_decision a with ready | replay => true | _ => false end
  && bool_decide (reason_codes a = []) && negb (compensation_required a).

Definition ledger_item (a : assessment) : value :=
  VDict [("intent_sha256", VStr (a_intent_sha256 a));
         ("target_identity_sha256", VStr (a_target_identity_sha256 a));
         ("decision", VStr (decision_name (a_decision a)));
         ("reason_codes", strs (reason_codes a));
         ("compensation_required", VBool (compensation_required a))].

Definition ledgered (l : list assessment) : list assessment :=
  sort_by a_intent_sha256 (List.filter (λ a, negb (is_settled a)) l).

Definition _build_failure_ledger (l : list assessment) : value :=
  let items := map ledger_item (ledgered l) in
  let without_digest :=
    [("schema_version", VStr FAILURE_LEDGER_SCHEMA);
     ("summary", VDict [("items", VInt (Z.of_nat (length items)))]);
     ("items", VList items)] in
  VDict (without_digest ++ [("ledger_sha256", VStr (digest_of (VDict without_digest)))]).

(** ** The summary *)

Record summary : Type := Summary {
  status : string;
  count_targets : Z; count_intents : Z; count_results : Z;
  decisions : decision → Z;
  count_compensation : Z;
  retryable_failures : Z;
}.

Definition count {A} (p : A → bool) (l : list A) : Z := Z.of_nat (length (List.filter p l)).

Definition summarize (T : tables) (l : list assessment) : summary :=
  let decisions d := count (λ a, bool_decide (a_decision a = d)) l in
  let compensation := count compensation_required l in
  let retryable := count (λ a, mem_str "provider_failure" (reason_codes a)) l in
  let blocked := decisions conflict + decisions expired + decisions denied
    + decisions unverifiable + decisions blocked_by_chain in
  let status :=
    if negb (blocked =? 0) then "blocked"
    else if negb (compensation =? 0) || negb (retryable =? 0) then "partial"
    else "complete" in
  Summary status (Z.of_nat (length (targets T))) (Z.of_nat (length (intents T)))
    (Z.of_nat (length (results T))) decisions compensation retryable.

Definition summary_value (s : summary) : value :=
  VDict [("status", VStr (status s));
         ("complete", VBool (String.eqb (status s) "complete"));
         ("targets", VInt (count_targets s)); ("intents", VInt (count_intents s));
         ("results", VInt (count_results s));
         ("ready", VInt (decisions s ready)); ("replay", VInt (decisions s replay));
         ("conflict", VInt (decisions s conflict)); ("expired", VInt (decisions s expired));
         ("denied", VInt (decisions s denied));
         ("unverifiable", VInt (decisions s unverifiable));
         ("blocked_by_chain", VInt (decisions s blocked_by_chain));
         ("compensation_required", VInt (count_compensation s));
         ("retryable_failures", VInt (retryable_failures s))].

(** ** The report *)

Record report : Type := Report {
  generated_at : string;
  report_policy : policy;
  report_tables : tables;
  assessments : list assessment;
}.

Definition report_items (r : report) : items :=
  [("schema_version", VStr SCHEMA_VERSION);
   ("generated_at", VStr (generated_at r));
   ("policy", policy_value (report_policy r));
   ("targets", VList (map target_value (targets (report_tables r))));
   ("intents", VList (map intent_value (intents (report_tables r))));
   ("results", VList (map result_value (results (report_tables r))));
   ("assessments", VList (map assessment_value (assessments r)));
   ("summary", summary_value (summarize (report_tables r) (assessments r)));
   ("failure_ledger", _build_failure_ledger (assessments r))].
Definition report_sha256 (r : report) : string := digest_of (VDict (report_items r)).
Definition report_value (r : report) : value :=
  VDict (report_items r ++ [("report_sha256", VStr (report_sha256 r))]).

Definition unique_by {A} (key : A → string) (l : list A) (msg : string) : result unit :=
  raise_if (negb (bool_decide (NoDup (map key l)))) (recovery_error msg).

(** A result may not be newer than the report, precede the observation of its
    intent, or lie outside the intent's lease, up to the skew. *)
Definition check_occurrence (intents_by_sha : list intent) (generated_at skew : Z)
    (r : mutation_result) : result unit :=
  _age_seconds (occurred_at r) generated_at skew "results[].occurred_at" ;;
  '(_, occurred_dt) ← _parse_datetime (VStr (occurred_at r)) "results[].occurred_at";
  intent ← intent_of (Tables [] intents_by_sha []) (r_intent_sha256 r);
  '(_, observed_dt) ← _parse_datetime (VStr (observed_at intent)) "intents[].observed_at";
  earliest ← instant_add observed_dt (- seconds skew);
  raise_if (occurred_dt <? earliest)
    (recovery_error "result occurred before the intent observation") ;;
  match intent_lease intent with
  | None => Ok tt
  | Some lease =>
      '(_, acquired_dt) ← _parse_datetime (VStr (acquired_at lease))
        "intents[].lease.acquired_at";
      '(_, expires_dt) ← _parse_datetime (VStr (expires_at lease))
        "intents[].lease.expires_at";
      earliest ← instant_add acquired_dt (- seconds skew);
      raise_if (occurred_dt <? earliest)
        (recovery_error "result occurred before the intent lease was acquired") ;;
      latest ← instant_add expires_dt (seconds skew);
      raise_if (latest <? occurred_dt)
        (recovery_error "result occurred after the intent lease expired")
  end.

(** A compensation names an accepted result of this report. *)
Definition check_compensation (T : tables) (r : mutation_result) : result unit :=
  match compensation_of_result_sha256 r with
  | None => Ok tt
  | Some original_sha =>
      let accepted :=
        match find_result T original_sha with
        | Some original => String.eqb (outcome original) "accepted"
        | None => false
        end in
      raise_if (negb accepted)
        (recovery_error "compensation must reference an accepted result in this report")
  end.

Definition check_now (now : option string) (generated_dt skew : Z) : result unit :=
  match now with
  | None => Ok tt
  | Some now =>
      '(_, now_dt) ← _parse_datetime (VStr now) "--now";
      latest ← instant_add now_dt (seconds skew);
      raise_if (latest <? generated_dt)
        (recovery_error "generated_at is beyond the allowed clock skew")
  end.

(** The tables of the document, each sorted by its key. *)
Definition read_tables (root : items) (policy : policy) (generated_dt : Z) : result tables :=
  raw_targets ← expect_list (dict_get root "targets") "targets" MAX_RECORDS;
  targets ← map_enum 0 raw_targets (_normalize_target policy);
  unique_by identity_sha256 targets "targets contain duplicate identities" ;;
  let targets := sort_by identity_sha256 targets in
  raw_intents ← expect_list (dict_get root "intents") "intents" MAX_RECORDS;
  intents ← map_enum 0 raw_intents (_normalize_intent policy);
  unique_by intent_sha256 intents "intents contain duplicate identities" ;;
  let intents := sort_by intent_sha256 intents in
  raw_results ← expect_list (dict_get root "results") "results" MAX_RECORDS;
  results ← map_enum 0 raw_results (_normalize_result intents);
  for_each results (λ r _,
    check_occurrence intents generated_dt (max_clock_skew_seconds policy) r) tt ;;
  unique_by result_sha256 results "results contain duplicate identities" ;;
  let results := sort_by result_sha256 results in
  let T := Tables targets intents results in
  for_each results (λ r _, check_compensation T r) tt ;;
  Ok T.

Definition assess (T : tables) (policy : policy) (generated_dt : Z)
  : result (list assessment) :=
  assessments ← map_enum 0 (intents T) (λ _, _assess_intent T policy generated_dt);
  assessments ← _apply_collision_control T assessments;
  Ok (sort_by a_intent_sha256 assessments).

(** [field in root and root[field] != expected] *)
Definition disagrees (root : items) (name : string) (expected : value) : bool :=
  dict_has root name && negb (py_eq (dict_get root name) expected).

(** The derived fields a document may already carry. *)
Definition derived (r : report) : list (string * value) :=
  [("assessments", VList (map assessment_value (assessments r)));
   ("summary", summary_value (summarize (report_tables r) (assessments r)));
   ("failure_ledger", _build_failure_ledger (assessments r));
   ("report_sha256", VStr (report_sha256 r))].

Definition ROOT_KEYS : list string :=
  ["schema_version"; "generated_at"; "policy"; "targets"; "intents"; "results";
   "assessments"; "summary"; "failure_ledger"; "report_sha256"].

Definition build_mutation_receipts_report (v : value) (now : option string) : result report :=
  root ← _strict_object v "$" ROOT_KEYS;
  raise_if (negb (py_eq (dict_get root "schema_version") (VStr SCHEMA_VERSION)))
    (recovery_error ("schema_version must be " +:+ SCHEMA_VERSION)) ;;
  policy ← _normalize_policy (dict_get root "policy");
  '(generated_at, generated_dt) ←
    _parse_datetime (dict_get root "generated_at") "generated_at";
  check_now now generated_dt (max_clock_skew_seconds policy) ;;
  T ← read_tables root policy generated_dt;
  assessments ← assess T policy generated_dt;
  let report := Report generated_at policy T assessments in
  for_each (derived report) (λ '(field, expected) _,
    raise_if (disagrees root field expected)
      (recovery_error (field +:+ " does not match the derived report"))) tt ;;
  validate_public_safety (report_value report) ;;
  Ok report.

(** ** The synthetic fixture *)

Definition fixture (name : string) (more : items) : string :=
  digest_of (VDict (("fixture", VStr name) :: more)).

Definition utc_text (t : Z) : string := str_replace (isoformat t utc_suffix) utc_suffix "Z".

Definition example_lease (acquired expires : string) : lease :=
  Lease (fixture "lease-token" []) (fixture "actor" []) acquired expires.

Definition example_intent (policy_sha observed : string) (lease : lease) (sha : string) : intent :=
  let workflow := fixture "workflow" [] in
  Intent sha "linear" "linear_update_issue" "linear_issue" (fixture "linear-issue" [])
    (fixture "version" [("v", VInt 1)]) observed (fixture "patch" []) None
    (fixture "actor" []) (fixture "run" []) (fixture "idempotency" []) policy_sha
    (fixture "routing" [("v", VInt 1)]) (fixture "authorization" [("v", VInt 1)])
    (Some lease) "restore_previous_state"
    (Chain workflow "linear_issue" 0 None
       (digest_of (VDict (chain_material workflow "linear_issue" 0 None)))).

Definition example_target (observed : string) (lease : lease) : target :=
  Target "linear" "linear_issue" (fixture "linear-issue" [])
    (fixture "version" [("v", VInt 1)]) (fixture "routing" [("v", VInt 1)])
    (fixture "authorization" [("v", VInt 1)]) observed true (Some lease).

Definition example_document (generated_at : string) (targets : list target)
    (intents : list intent) (results : list mutation_result) : value :=
  let policy_material := policy_material 300 300 1800 3 in
  VDict [("schema_version", VStr SCHEMA_VERSION); ("generated_at", VStr generated_at);
    ("policy", VDict (("version_sha256", VStr (digest_of (VDict policy_material)))
       :: policy_material));
    ("targets", VList (map target_value targets));
    ("intents", VList (map intent_value intents));
    ("results", VList (map result_value results))].

Definition build_example_mutation_receipts (now : string) : result report :=
  '(generated_at, generated_dt) ← _parse_datetime (VStr now) "--now";
  let policy_sha := digest_of (VDict (policy_material 300 300 1800 3)) in
  acquired ← instant_add generated_dt (- seconds 30);
  expires ← instant_add generated_dt (seconds 600);
  let lease := example_lease (utc_text acquired) (utc_text expires) in
  observed ← instant_add generated_dt (- seconds 10);
  let intent := example_intent policy_sha (utc_text observed) lease in
  let intent_sha := digest_of (VDict (intent_material (intent EmptyString))) in
  build_mutation_receipts_report
    (example_document generated_at [example_target (utc_text observed) lease]
       [intent intent_sha] [])
    (Some generated_at).

End MutationReceipts.
