(* ===== verification/MutationTheorems.v ===== *)
(** * Mutation receipts: results

    What a report built by [MutationReceipts.build_mutation_receipts_report]
    guarantees: an intent is ready exactly when its preconditions hold and it
    has no rival, one writer per version, replay of accepted intents, the
    contents of the failure ledger, rebuilding of a report from its own
    document, and the exceptions the builder can raise. *)
From S2P Require Import Prelude PyValue Sha256 Json DateTime RecoveryCommon.
From S2P Require Import MutationContract MutationReceipts.
From Stdlib Require Import Ascii.
Import MutationContract.

Module MutationTheorems.
Import MutationReceipts.
Open Scope Z_scope.

(** ** What an assessment rests on *)

Lemma finding_ready b reason d v :
  d ≠ ready → (finding b reason d v).1 = ready ↔ b = false ∧ v.1 = ready.
Proof. unfold finding. destruct b; simpl; intuition congruence. Qed.

Lemma finding_named b reason d v :
  (finding b reason d v).1 = replay ↔ (b = true ∧ d = replay) ∨ (b = false ∧ v.1 = replay).
Proof. unfold finding. destruct b; simpl; intuition congruence. Qed.

(** Both leases exist, agree, and have not expired at instant [g]. *)
Definition lease_current (g : Z) (i : intent) (t : target) : Prop :=
  ∃ li lt expires, intent_lease i = Some li ∧ t_lease t = Some lt ∧
    token_sha256 li = token_sha256 lt ∧ owner_sha256 li = owner_sha256 lt ∧
    expires_at li = expires_at lt ∧
    _parse_datetime (VStr (expires_at li)) "intent.lease.expires_at"
      = Ok (expires_at li, expires) ∧ g <= expires.

(** An observation made at the instant the text names is fresh at [g]. *)
Definition fresh (g max_age : Z) (text : string) : Prop :=
  ∃ t, _parse_datetime (VStr text) "observed_at" = Ok (text, t) ∧
    Z.max 0 (elapsed_seconds g t) <= max_age.

(** The current snapshot is the one the intent was sealed against. *)
Record snapshot_matches (p : policy) (g : Z) (i : intent) (t : target) : Prop := {
  match_resolvable : resolvable t = true;
  match_system : t_system t = system i;
  match_kind : t_resource_kind t = resource_kind i;
  match_version : t_version_sha256 t = observed_version_sha256 i;
  match_routing : t_routing_sha256 t = routing_sha256 i;
  match_authorization : t_authorization_sha256 t = authorization_sha256 i;
  match_policy : policy_sha256 i = version_sha256 p;
  match_snapshot : fresh g (max_snapshot_age_seconds p) (t_observed_at t);
  match_intent : fresh g (max_snapshot_age_seconds p) (observed_at i);
  match_lease : lease_current g i t;
}.

(** The previous step of the workflow was accepted, is the one right before,
    and left its subject as it still is. *)
Definition chain_holds (T : tables) (c : chain) : Prop :=
  ∀ sha, previous_result_sha256 c = Some sha →
    ∃ r before, find_result T sha = Some r ∧ _result_is_accepted r = true ∧
      intent_of T (r_intent_sha256 r) = Ok before ∧
      workflow_sha256 (intent_chain before) = workflow_sha256 c ∧
      sequence (intent_chain before) + 1 = sequence c ∧
      ∃ t, find_target T (r_target_identity_sha256 r) = Some t ∧ resolvable t = true ∧
        after_version_sha256 r = Some (t_version_sha256 t).

Record preconditions (T : tables) (p : policy) (g : Z) (i : intent) : Prop := {
  pre_unaccepted : ∀ r, r ∈ results_of T (intent_sha256 i) → _result_is_accepted r = false;
  pre_key : idempotency_collision T (idempotency_key_sha256 i) = false;
  pre_budget : Z.of_nat (length (results_of T (intent_sha256 i))) < max_attempts p;
  pre_snapshot : ∃ t, find_target T (target_identity_sha256 i) = Some t ∧
    snapshot_matches p g i t;
  pre_chain : chain_holds T (intent_chain i);
  pre_compensation : previous_result_sha256 (intent_chain i) ≠ None →
    (∃ r, r ∈ results_of T (intent_sha256 i) ∧ outcome r = "provider_error") →
    compensation i ≠ "none";
}.

(** Peels binds whose results are pairs. *)
Ltac inv_pairs :=
  repeat (inv_step ||
    match goal with H : (let '(_, _) := ?p in _) = Ok _ |- _ =>
      first [is_var p; destruct p | destruct p eqn:?] end).

Lemma parse_datetime_rename v f f' s t :
  _parse_datetime v f = Ok (s, t) → _parse_datetime v f' = Ok (s, t).
Proof.
  unfold _parse_datetime. intros H.
  pose proof (parse_datetime_Ok _ _ _ _ H) as (Hp & -> & Ht).
  by eapply parse_datetime_of.
Qed.

(** The texts a report keeps are canonical. *)
Definition canonical_instant (s : string) : Prop :=
  ∃ t, representable t = true ∧ s = isoformat t "Z".

Lemma canonical_parse s f :
  canonical_instant s → ∃ t, representable t = true ∧ s = isoformat t "Z" ∧
    _parse_datetime (VStr s) f = Ok (s, t).
Proof. intros (t & Ht & ->). exists t. by rewrite parse_datetime_printed. Qed.

Lemma age_fresh s g skew f n m :
  canonical_instant s → _age_seconds s g skew f = Ok n → fresh g m s ↔ n <= m.
Proof.
  intros Hs H. destruct (canonical_parse s f Hs) as (t & Ht & -> & Hp).
  unfold _age_seconds in H. rewrite Hp in H. repeat inv_step. unfold fresh. split.
  - intros (t' & Ht' & Hm). rewrite (parse_datetime_rename _ _ "observed_at" _ _ Hp) in Ht'.
    congruence.
  - intros Hm. exists t. split; [by eapply parse_datetime_rename|done].
Qed.

Lemma same_lease_true a b :
  same_lease a b = true ↔ token_sha256 a = token_sha256 b ∧ owner_sha256 a = owner_sha256 b
    ∧ expires_at a = expires_at b.
Proof. unfold same_lease. rewrite !andb_true_iff, !String.eqb_eq. tauto. Qed.

Definition canonical_lease (o : option lease) : Prop :=
  match o with
  | Some l => canonical_instant (acquired_at l) ∧ canonical_instant (expires_at l)
  | None => True
  end.

Lemma assess_lease_ready i t g p v v' :
  canonical_lease (intent_lease i) →
  assess_lease i t g p v = Ok v' → v'.1 = ready ↔ v.1 = ready ∧ lease_current g i t.
Proof.
  intros Hc. unfold assess_lease, lease_current.
  destruct (intent_lease i) as [li|] eqn:Hi.
  2: { intros [= <-]. simpl. split; [done|]. by intros [_ (? & ? & ? & ? & _)]. }
  destruct (t_lease t) as [lt|] eqn:Ht.
  2: { intros [= <-]. simpl. split; [done|]. by intros [_ (? & ? & ? & _ & ? & _)]. }
  destruct Hc as [_ He]. destruct (canonical_parse _ "intent.lease.expires_at" He)
    as (x & Hx & Hxs & Hparse).
  intros H. inv_pairs.
  match goal with H : _parse_datetime _ "intent.lease.expires_at" = Ok _ |- _ =>
    rewrite Hparse in H; injection H as <- <- end.
  rewrite !finding_ready by done. rewrite Z.ltb_ge, negb_false_iff, same_lease_true.
  split.
  - intros (Hg & (H1 & H2 & H3) & Hv). split; [done|]. by exists li, lt, x.
  - intros [Hv (li' & lt' & x' & [= <-] & [= <-] & H1 & H2 & H3 & Hp & Hg)].
    rewrite Hparse in Hp. injection Hp as <-. done.
Qed.

Lemma assess_target_ready i t g p v v' :
  canonical_instant (t_observed_at t) → canonical_instant (observed_at i) →
  canonical_lease (intent_lease i) → resolvable t = true →
  assess_target i t g p v = Ok v' →
  v'.1 = ready ↔ v.1 = ready ∧ snapshot_matches p g i t.
Proof.
  intros Hto Hio Hl Hres. unfold assess_target. intros H. repeat inv_step.
  match goal with
  | H1 : _age_seconds (t_observed_at t) _ _ _ = Ok ?n, H2 : _age_seconds (observed_at i) _ _ _ = Ok ?m |- _ =>
      rename n into age_t, m into age_i;
      pose proof (age_fresh _ _ _ _ _ (max_snapshot_age_seconds p) Hto H1) as Ft;
      pose proof (age_fresh _ _ _ _ _ (max_snapshot_age_seconds p) Hio H2) as Fi
  end.
  rewrite (assess_lease_ready _ _ _ _ _ _ Hl H), !finding_ready by done.
  rewrite orb_false_iff, !Z.ltb_ge, !negb_false_iff, !String.eqb_eq, <- Ft, <- Fi.
  split; [intros; split; [tauto|split; tauto]|intros [? []]; tauto].
Qed.

Lemma previous_current_true T r :
  previous_subject_current T r = true ↔
  ∃ t, find_target T (r_target_identity_sha256 r) = Some t ∧ resolvable t = true ∧
    after_version_sha256 r = Some (t_version_sha256 t).
Proof.
  unfold previous_subject_current. destruct (find_target T _) as [t|].
  - rewrite andb_true_iff, eq_opt_true. split; [eauto|]. intros (t' & [= <-] & ?). done.
  - split; [done|]. by intros (? & ? & _).
Qed.

Lemma assess_chain_ready T i v v' o :
  assess_chain T i v = Ok (v', o) →
  v'.1 = ready ↔ v.1 = ready ∧ chain_holds T (intent_chain i).
Proof.
  unfold assess_chain, chain_holds. destruct (previous_result_sha256 (intent_chain i)) as [sha|].
  2: { intros [= <- <-]. split; [by intros ->|tauto]. }
  destruct (find_result T sha) as [r|] eqn:Hr.
  2: { intros [= <- <-]. simpl. split; [done|]. intros [_ H].
       destruct (H sha eq_refl) as (? & ? & ? & _). congruence. }
  destruct (_result_is_accepted r) eqn:Hacc; simpl.
  2: { intros [= <- <-]. simpl. split; [done|]. intros [_ H].
       destruct (H sha eq_refl) as (? & ? & ? & ? & _). congruence. }
  intros H. apply bind_Ok in H as (before & Hb & H).
  destruct (negb (String.eqb _ _) || negb (_ =? _)) eqn:Hmis.
  - injection H as <- <-. simpl. split; [done|]. intros [_ H].
    destruct (H sha eq_refl) as (r' & b' & ? & ? & ? & Hw & Hs & _). simplify_eq.
    rewrite Hb in *. simplify_eq. rewrite Hw, Hs, String.eqb_refl, Z.eqb_refl in Hmis. done.
  - apply orb_false_iff in Hmis as [Hw%negb_false_iff%String.eqb_eq Hs%negb_false_iff%Z.eqb_eq].
    injection H as <- <-. rewrite finding_ready, negb_false_iff, previous_current_true by done.
    split.
    + intros [Ht Hv]. split; [done|]. intros sha' [= <-]. by exists r, before.
    + intros [Hv H]. split; [|done]. destruct (H sha eq_refl) as (r' & b' & ? & _ & _ & _ & _ & Ht).
      by simplify_eq.
Qed.

Lemma assess_failures_ready i l v v' c :
  assess_failures i l v = (v', c) →
  v'.1 = ready ↔ v.1 = ready ∧
    (previous_result_sha256 (intent_chain i) ≠ None →
     (∃ r, r ∈ l ∧ outcome r = "provider_error") → compensation i ≠ "none").
Proof.
  unfold assess_failures. destruct (existsb _ l) eqn:He.
  - apply existsb_elem_of in He. setoid_rewrite String.eqb_eq in He.
    destruct (previous_result_sha256 (intent_chain i)); simpl; intros [= <- <-].
    + rewrite finding_ready, String.eqb_neq by done. simpl. naive_solver.
    + simpl. naive_solver.
  - intros [= <- <-]. split; [|tauto]. intros Hv. split; [done|].
    intros _ (r & Hr & Ho). exfalso. rewrite <- not_true_iff_false in He. apply He.
    apply existsb_elem_of. exists r. by rewrite Ho.
Qed.

(** The texts of a report's tables are canonical. *)
Record canonical_tables (T : tables) : Prop := {
  canonical_targets t : t ∈ targets T → canonical_instant (t_observed_at t);
  canonical_intents i : i ∈ intents T →
    canonical_instant (observed_at i) ∧ canonical_lease (intent_lease i);
}.

Lemma find_target_elem T sha t :
  find_target T sha = Some t → t ∈ targets T ∧ identity_sha256 t = sha.
Proof.
  unfold find_target. intros [Hin Heq]%find_some.
  by rewrite list_elem_of_In, <- String.eqb_eq.
Qed.

Lemma assess_subject_ready T p g i v v' o :
  canonical_tables T → i ∈ intents T →
  assess_subject (find_target T (target_identity_sha256 i)) i g p v = Ok (v', o) →
  v'.1 = ready ↔ v.1 = ready ∧
    ∃ t, find_target T (target_identity_sha256 i) = Some t ∧ snapshot_matches p g i t.
Proof.
  intros [Ht Hi] Hin. destruct (Hi i Hin) as [Hobs Hlease]. unfold assess_subject.
  destruct (find_target T _) as [t|] eqn:Hfind.
  2: { intros [= <- <-]. simpl. split; [done|]. by intros [_ (? & ? & _)]. }
  pose proof (Ht t (proj1 (find_target_elem _ _ _ Hfind))) as Hto.
  destruct (resolvable t) eqn:Hres.
  - intros H. inv_pairs. rewrite (assess_target_ready i t g p v v') by done.
    split; [intros [? ?]; eauto|]. intros (? & t' & [= <-] & ?). done.
  - intros [= <- <-]. simpl. split; [done|]. intros (_ & t' & [= <-] & []). congruence.
Qed.

Lemma accepted_elem T sha r :
  r ∈ List.filter _result_is_accepted (results_of T sha) ↔
  r ∈ results_of T sha ∧ _result_is_accepted r = true.
Proof. by rewrite list_elem_of_In, filter_In, <- list_elem_of_In. Qed.

Lemma assess_ready T p g i a :
  canonical_tables T → i ∈ intents T → _assess_intent T p g i = Ok a →
  a_decision a = ready ↔ preconditions T p g i.
Proof.
  intros [Ht Hi] Hin. destruct (Hi i Hin) as [Hobs Hlease].
  unfold _assess_intent. intros H. inv_pairs.
  pose proof (accepted_elem T (intent_sha256 i)) as Hacc.
  destruct (List.filter _ _) as [|x l].
  2: { injection H as <-. simpl. split; [done|]. intros [Hno _ _ _ _ _].
       assert (x ∈ results_of T (intent_sha256 i) ∧ _result_is_accepted x = true) as [Hx Hxa]
         by (apply Hacc; by left).
       rewrite Hno in Hxa by done. done. }
  inv_pairs. simpl.
  match goal with H : assess_failures _ _ _ = _ |- _ => rename H into Hfail end.
  match goal with H1 : assess_subject _ _ _ _ _ = _, H2 : assess_chain _ _ _ = _ |- _ =>
    rewrite (assess_failures_ready _ _ _ _ _ Hfail), (assess_chain_ready _ _ _ _ _ H2),
      (assess_subject_ready T p g i _ _ _ (Build_canonical_tables _ Ht Hi) Hin H1) end.
  rewrite !finding_ready, Z.leb_gt by done. simpl.
  assert (∀ r, r ∈ results_of T (intent_sha256 i) → _result_is_accepted r = false).
  { intros r Hr. destruct (_result_is_accepted r) eqn:Hra; [|done].
    assert (r ∈ []) as Hnil by (by apply Hacc). by apply not_elem_of_nil in Hnil. }
  split; [intros; split; tauto|intros []; tauto].
Qed.

Lemma decision_not_replay b reason d v :
  d ≠ replay → v.1 ≠ replay → (finding b reason d v).1 ≠ replay.
Proof. unfold finding. by destruct b. Qed.

Lemma assess_target_not_replay i t g p v v' :
  v.1 ≠ replay → assess_target i t g p v = Ok v' → v'.1 ≠ replay.
Proof.
  intros Hv. unfold assess_target, assess_lease. intros H.
  repeat (inv_pairs; case_match); inv_pairs; repeat apply decision_not_replay; done.
Qed.

Lemma assess_chain_not_replay T i v v' o :
  v.1 ≠ replay → assess_chain T i v = Ok (v', o) → v'.1 ≠ replay.
Proof.
  intros Hv. unfold assess_chain. intros H.
  repeat (inv_pairs; case_match); inv_pairs; simplify_eq; try apply decision_not_replay; done.
Qed.

Lemma assess_facts T p g i a :
  _assess_intent T p g i = Ok a →
  a_intent_sha256 a = intent_sha256 i ∧
  (length (List.filter _result_is_accepted (results_of T (intent_sha256 i))) <= 1)%nat ∧
  (a_decision a = replay ↔ ∃ r, r ∈ results_of T (intent_sha256 i) ∧
     _result_is_accepted r = true ∧ accepted_result_sha256 a = Some (result_sha256 r)) ∧
  (a_decision a ≠ replay → accepted_result_sha256 a = None ∧
     ∀ r, r ∈ results_of T (intent_sha256 i) → _result_is_accepted r = false).
Proof.
  unfold _assess_intent. intros H. inv_pairs.
  pose proof (accepted_elem T (intent_sha256 i)) as Hacc.
  destruct (List.filter _ _) as [|x l]; simpl in *.
  - inv_pairs. simpl.
    match goal with H : assess_failures _ _ _ = _ |- _ => rename H into Hfail end.
    assert (∀ r, r ∈ results_of T (intent_sha256 i) → _result_is_accepted r = false) as Hno.
    { intros r Hr. destruct (_result_is_accepted r) eqn:Hra; [|done].
      assert (r ∈ []) as Hnil by (by apply Hacc). by apply not_elem_of_nil in Hnil. }
    split; [done|]. split; [lia|]. split; [|done].
    split; [|intros (r & Hr & Hra & _); by rewrite Hno in Hra].
    intros Hreplay. exfalso. revert Hreplay.
    assert (∀ v, v.1 ≠ replay → (assess_failures i (results_of T (intent_sha256 i)) v).1.1 ≠ replay)
      as Hf.
    { intros w Hw. unfold assess_failures. repeat case_match; simpl; try done.
      by apply decision_not_replay. }
    match goal with H2 : assess_chain _ _ ?w = Ok (?w', _) |- _ =>
      specialize (Hf w'); rewrite Hfail in Hf; apply Hf;
      eapply assess_chain_not_replay; [|exact H2] end.
    match goal with H1 : assess_subject _ _ _ _ ?w = Ok (?w', _) |- _ =>
      revert H1; unfold assess_subject;
      assert (w.1 ≠ replay) by (repeat apply decision_not_replay; done) end.
    intros H1. repeat case_match; inv_pairs; simplify_eq; try apply decision_not_replay; try done.
    by eapply assess_target_not_replay.
  - injection H as <-. simpl. split; [done|].
    assert (x ∈ results_of T (intent_sha256 i) ∧ _result_is_accepted x = true) as [Hx Hxa]
      by (apply Hacc; by left).
    apply Nat.ltb_ge in Hok. split; [done|]. split; [|done]. split; [|done].
    intros _. by exists x.
Qed.

(** No check but race control speaks of a collision. *)
Definition collision : string := "concurrent_intent_collision".
Definition silent (v : verdict) : Prop := collision ∉ v.2.

Lemma finding_silent b reason d v : reason ≠ collision → silent v → silent (finding b reason d v).
Proof. unfold silent, finding. destruct b; [|done]. simpl. rewrite not_elem_of_cons. auto. Qed.

Lemma found_silent d reason v : reason ≠ collision → silent v → silent (d, reason :: v.2).
Proof. apply (finding_silent true). Qed.

Lemma note_silent reason v : reason ≠ collision → silent v → silent (note reason v).
Proof. unfold silent. simpl. rewrite not_elem_of_cons. auto. Qed.

Lemma assess_target_silent i t g p v v' :
  silent v → assess_target i t g p v = Ok v' → silent v'.
Proof.
  intros Hv. unfold assess_target, assess_lease. intros H.
  repeat (inv_pairs; case_match); inv_pairs; repeat first [apply finding_silent; [done|]|apply found_silent; [done|]]; done.
Qed.

Lemma assess_subject_silent t i g p v v' o :
  silent v → assess_subject t i g p v = Ok (v', o) → silent v'.
Proof.
  intros Hv. unfold assess_subject. intros H.
  repeat case_match; inv_pairs; simplify_eq; try by apply found_silent.
  by eapply assess_target_silent.
Qed.

Lemma assess_chain_silent T i v v' o : silent v → assess_chain T i v = Ok (v', o) → silent v'.
Proof.
  intros Hv. unfold assess_chain. intros H.
  repeat (inv_pairs; case_match); inv_pairs; simplify_eq; try first [apply finding_silent|apply found_silent]; done.
Qed.

Lemma assess_failures_silent i l v : silent v → silent (assess_failures i l v).1.
Proof.
  intros Hv. unfold assess_failures. repeat case_match; simpl; try done.
  - by repeat first [apply finding_silent; [done|]|apply note_silent; [done|]].
  - by apply note_silent.
Qed.

Lemma reasons_elem x l : x ∈ sorted_set l ↔ x ∈ l.
Proof. unfold sorted_set. by rewrite sorted_strs_Permutation, elem_of_remove_dups. Qed.

Lemma assess_silent T p g i a : _assess_intent T p g i = Ok a → collision ∉ reason_codes a.
Proof.
  unfold _assess_intent. intros H. inv_pairs. destruct (List.filter _ _) as [|x l].
  2: { injection H as <-. simpl. by rewrite list_elem_of_singleton. }
  inv_pairs. simpl. rewrite reasons_elem.
  match goal with H : assess_failures _ _ ?w = (?w', _) |- _ =>
    change (silent w'); replace w' with (assess_failures i (results_of T (intent_sha256 i)) w).1
      by (by rewrite H) end.
  apply assess_failures_silent. eapply assess_chain_silent; [|eassumption].
  eapply assess_subject_silent; [|eassumption].
  repeat (apply finding_silent; [done|]). by intros ?%not_elem_of_nil.
Qed.

(** ** Races *)

Lemma filter_alone {A} (q : A → bool) (l : list A) x :
  NoDup l → x ∈ l → q x = true →
  (length (List.filter q l) < 2)%nat ↔ ∀ y, y ∈ l → q y = true → y = x.
Proof.
  intros Hnd Hx Hq.
  assert (NoDup (List.filter q l)) as Hnd'.
  { apply NoDup_ListNoDup, List.NoDup_filter, NoDup_ListNoDup. done. }
  assert (∀ y, y ∈ List.filter q l ↔ y ∈ l ∧ q y = true) as Hin.
  { intros y. by rewrite list_elem_of_In, filter_In, <- list_elem_of_In. }
  split.
  - intros Hlen y Hy Hqy.
    assert (x ∈ List.filter q l ∧ y ∈ List.filter q l) as [H1 H2] by by rewrite !Hin.
    destruct (List.filter q l) as [|z [|z' l']]; simpl in Hlen; [|set_solver|lia].
    by apply not_elem_of_nil in H1.
  - intros H. destruct (List.filter q l) as [|y [|z l']]; simpl; [lia|lia|].
    assert (y = x ∧ z = x) as [-> ->].
    { split; (apply H; [|]); apply Hin; set_solver. }
    apply NoDup_cons in Hnd' as [Hn _]. destruct Hn. by left.
Qed.

Lemma intent_of_Ok T sha i :
  intent_of T sha = Ok i → i ∈ intents T ∧ intent_sha256 i = sha.
Proof.
  unfold intent_of, find_intent. destruct (List.find _ _) as [j|] eqn:H; [|done].
  intros [= ->]. apply find_some in H as [Hin Heq%String.eqb_eq].
  by rewrite list_elem_of_In.
Qed.

Lemma find_unique {A} (key : A → string) (l : list A) x :
  NoDup (map key l) → x ∈ l → List.find (λ y, String.eqb (key y) (key x)) l = Some x.
Proof.
  induction l as [|y l IH]; [by intros _ ?%not_elem_of_nil|]. simpl.
  intros [Hy Hl]%NoDup_cons [->|Hx]%elem_of_cons; [by rewrite String.eqb_refl|].
  destruct (String.eqb_spec (key y) (key x)) as [Heq|]; [|by apply IH].
  destruct Hy. rewrite Heq. by apply list_elem_of_fmap_2.
Qed.

Lemma intent_of_elem T i :
  NoDup (map intent_sha256 (intents T)) → i ∈ intents T →
  intent_of T (intent_sha256 i) = Ok i.
Proof. intros Hnd Hi. unfold intent_of, find_intent. by rewrite find_unique. Qed.

(** The version of an object an intent wants to change. *)
Definition key_of (i : intent) : string * string * string :=
  (system i, target_identity_sha256 i, observed_version_sha256 i).

(** [a] is ready and wants to change the version [key]. *)
Definition contends (T : tables) (key : string * string * string) (a : assessment) : bool :=
  is_ready a && match race_key T a with Ok k => bool_decide (k = key) | Raise _ => false end.

Lemma ready_keys_members T l keys key :
  ready_keys T l = Ok keys → members key keys = length (List.filter (contends T key) l).
Proof.
  unfold members. revert keys; induction l as [|a l IH]; intros keys; simpl.
  - by intros [= <-].
  - unfold contends at 1. destruct (is_ready a); simpl; [|by apply IH].
    intros H. inv_pairs.
    match goal with H : race_key T a = Ok _ |- _ => rewrite H end.
    rewrite filter_cons. case_decide; subst.
    + rewrite bool_decide_eq_true_2 by done. simpl. f_equal. by apply IH.
    + rewrite bool_decide_eq_false_2 by done. by apply IH.
Qed.

Lemma block_races_Forall2 T keys l l' :
  block_races T keys l = Ok l' →
  Forall2 (λ a a', if is_ready a
    then ∃ key, race_key T a = Ok key ∧
      a' = if (members key keys <? 2)%nat then a else block a
    else a' = a) l l'.
Proof.
  revert l'; induction l as [|a l IH]; intros l'; simpl; [intros [= <-]; constructor|].
  intros H. inv_pairs. constructor; [|by apply IH].
  destruct (is_ready a); inv_pairs; eauto.
Qed.

(** The rule of the planner: an intent is ready when its preconditions hold
    and no other intent whose preconditions hold wants the same version. *)
Definition may_proceed (T : tables) (p : policy) (g : Z) (i : intent) : Prop :=
  preconditions T p g i ∧
  ∀ j, j ∈ intents T → key_of j = key_of i → preconditions T p g j → j = i.

Section collision.
Context (T : tables) (p : policy) (g : Z) (l : list assessment).
Context (HT : canonical_tables T) (Hnd : NoDup (map intent_sha256 (intents T))).
Context (Hl : Forall2 (λ i a, _assess_intent T p g i = Ok a) (intents T) l).

Lemma assessed_shas : map a_intent_sha256 l = map intent_sha256 (intents T).
Proof.
  clear Hnd HT. revert Hl. generalize (intents T). induction 1 as [|i a ints l' Ha _ IH]; [done|]. simpl.
  by rewrite IH, (proj1 (assess_facts _ _ _ _ _ Ha)).
Qed.

Lemma assessed_NoDup : NoDup l.
Proof.
  apply (NoDup_fmap_1 a_intent_sha256). change (NoDup (map a_intent_sha256 l)).
  by rewrite assessed_shas.
Qed.

Lemma assessed_intent a : a ∈ l → ∃ i, i ∈ intents T ∧ _assess_intent T p g i = Ok a.
Proof.
  clear Hnd HT. revert Hl. generalize (intents T). induction 1 as [|i b ints l' Ha _ IH]; [by intros ?%not_elem_of_nil|].
  intros [->|Hin]%elem_of_cons; [exists i; split; [by left|done]|].
  destruct (IH Hin) as (j & ? & ?). exists j. split; [by right|done].
Qed.

Lemma intent_assessed i : i ∈ intents T → ∃ a, a ∈ l ∧ _assess_intent T p g i = Ok a.
Proof.
  clear Hnd HT. revert Hl. generalize (intents T). induction 1 as [|j b ints l' Ha _ IH]; [by intros ?%not_elem_of_nil|].
  intros [->|Hin]%elem_of_cons; [exists b; split; [by left|done]|].
  destruct (IH Hin) as (a & ? & ?). exists a. split; [by right|done].
Qed.

Lemma assessed_key i a :
  i ∈ intents T → _assess_intent T p g i = Ok a → race_key T a = Ok (key_of i).
Proof.
  intros Hi Ha. unfold race_key. rewrite (proj1 (assess_facts _ _ _ _ _ Ha)).
  by rewrite intent_of_elem.
Qed.

Lemma contends_spec i a key :
  i ∈ intents T → _assess_intent T p g i = Ok a →
  contends T key a = true ↔ preconditions T p g i ∧ key_of i = key.
Proof.
  intros Hi Ha. unfold contends, is_ready.
  rewrite (assessed_key i a) by done. rewrite andb_true_iff, !bool_decide_eq_true.
  by rewrite (assess_ready T p g i a).
Qed.

Lemma proceeds keys i a :
  ready_keys T l = Ok keys → i ∈ intents T → a ∈ l → _assess_intent T p g i = Ok a →
  preconditions T p g i →
  (members (key_of i) keys < 2)%nat ↔
    ∀ j, j ∈ intents T → key_of j = key_of i → preconditions T p g j → j = i.
Proof.
  intros Hkeys Hi Ha Hia Hpre. rewrite (ready_keys_members _ _ _ _ Hkeys).
  rewrite (filter_alone _ _ a assessed_NoDup Ha) by (by apply (contends_spec i)).
  split.
  - intros H j Hj Hkey Hprej. destruct (intent_assessed j Hj) as (b & Hb & Hjb).
    assert (b = a) as -> by (apply H; [done|]; by apply (contends_spec j)).
    eapply (key_inj intent_sha256); [done..|].
    by rewrite <- (proj1 (assess_facts _ _ _ _ _ Hia)), <- (proj1 (assess_facts _ _ _ _ _ Hjb)).
  - intros H b Hb Hcon. destruct (assessed_intent b Hb) as (j & Hj & Hjb).
    destruct (proj1 (contends_spec j b _ Hj Hjb) Hcon) as [Hprej Hkey].
    assert (j = i) as -> by by apply H. congruence.
Qed.

(** What race control leaves of each assessment. *)
Lemma collision_outcome l' :
  _apply_collision_control T l = Ok l' →
  Forall2 (λ i a', ∃ a, _assess_intent T p g i = Ok a ∧
    (a' = a ∨ (a_decision a = ready ∧ a' = block a)) ∧
    (a_decision a' = ready ↔ may_proceed T p g i)) (intents T) l'.
Proof.
  unfold _apply_collision_control. intros H. inv_pairs.
  match goal with H : ready_keys T l = Ok _ |- _ => rename H into Hkeys end.
  apply block_races_Forall2 in H.
  assert (∀ ints l1 l2, (∀ i, i ∈ ints → i ∈ intents T) → (∀ x, x ∈ l1 → x ∈ l) →
    Forall2 (λ i a, _assess_intent T p g i = Ok a) ints l1 →
    Forall2 (λ x x', if is_ready x
      then ∃ key, race_key T x = Ok key ∧
        x' = if (members key a <? 2)%nat then x else block x
      else x' = x) l1 l2 →
    Forall2 (λ i a', ∃ a, _assess_intent T p g i = Ok a ∧
      (a' = a ∨ (a_decision a = ready ∧ a' = block a)) ∧
      (a_decision a' = ready ↔ may_proceed T p g i)) ints l2) as Hall.
  { intros ints l1 l2 Hi Hx H1. revert l2.
    induction H1 as [|i x ints l1 Hix _ IH]; intros l2 H2; inversion H2; subst; constructor.
    - exists x. split; [done|]. unfold may_proceed.
      assert (i ∈ intents T) as Hin by (apply Hi; by left).
      assert (x ∈ l) as Hxl by (apply Hx; by left).
      pose proof (assess_ready T p g i x HT Hin Hix) as Hready.
      destruct (is_ready x) eqn:Hr.
      + apply bool_decide_eq_true in Hr as Hdec.
        match goal with H : ∃ _, _ |- _ => destruct H as (key & Hkey & ->) end.
        rewrite (assessed_key i x) in Hkey by done. injection Hkey as <-.
        pose proof (proceeds a i x Hkeys Hin Hxl Hix (proj1 Hready Hdec)) as Hp.
        rewrite <- Hready.
        destruct (members (key_of i) a <? 2)%nat eqn:Hm.
        * apply Nat.ltb_lt in Hm. split; [by left|]. tauto.
        * apply Nat.ltb_ge in Hm. split; [by right|]. simpl. split; [done|].
          intros [_ Hj]. apply Hp in Hj. lia.
      + apply bool_decide_eq_false in Hr. subst. split; [by left|]. tauto.
    - apply IH; [|intros; apply Hx; by right|done]. intros j Hj. apply Hi. by right. }
  by eapply Hall; [..|done|done].
Qed.
End collision.

(** ** The tables a report is built from *)

Lemma normalize_lease_canonical v f m o : _normalize_lease v f m = Ok o → canonical_lease o.
Proof.
  unfold _normalize_lease. destruct (is_none v); [by intros [= <-]|]. intros H. inv_pairs.
  unfold _parse_datetime in *.
  repeat match goal with H : parse_datetime _ _ = Ok _ |- _ =>
    apply parse_datetime_Ok in H as (_ & -> & ?) end.
  split; eexists; eauto.
Qed.

Lemma normalize_target_canonical p j v t :
  _normalize_target p j v = Ok t → canonical_instant (t_observed_at t).
Proof.
  unfold _normalize_target. intros H. inv_pairs. unfold _parse_datetime in *.
  match goal with H : parse_datetime _ _ = Ok _ |- _ =>
    apply parse_datetime_Ok in H as (_ & -> & ?) end.
  simpl. eexists. eauto.
Qed.

Lemma normalize_intent_canonical p j v i :
  _normalize_intent p j v = Ok i →
  canonical_instant (observed_at i) ∧ canonical_lease (intent_lease i).
Proof.
  unfold _normalize_intent. intros H. inv_pairs. simpl. split.
  - unfold _parse_datetime in *.
    match goal with H : parse_datetime _ _ = Ok _ |- _ =>
      apply parse_datetime_Ok in H as (_ & -> & ?) end.
    eexists. eauto.
  - by eapply normalize_lease_canonical.
Qed.

Lemma unique_by_Ok {A} (key : A → string) l msg u : unique_by key l msg = Ok u ↔ NoDup (map key l).
Proof.
  unfold unique_by. rewrite raise_if_Ok, negb_false_iff, bool_decide_eq_true. done.
Qed.

(** What the tables of a report satisfy. *)
Record tables_read (root : items) (p : policy) (g : Z) (T : tables) : Prop := {
  read_targets : ∃ raws ts, dict_get root "targets" = VList raws ∧
    Z.of_nat (length raws) <= MAX_RECORDS ∧
    map_enum 0 raws (_normalize_target p) = Ok ts ∧ NoDup (map identity_sha256 ts) ∧
    targets T = sort_by identity_sha256 ts;
  read_intents : ∃ raws ints, dict_get root "intents" = VList raws ∧
    Z.of_nat (length raws) <= MAX_RECORDS ∧
    map_enum 0 raws (_normalize_intent p) = Ok ints ∧ NoDup (map intent_sha256 ints) ∧
    intents T = sort_by intent_sha256 ints;
  read_results : ∃ raws rs, dict_get root "results" = VList raws ∧
    Z.of_nat (length raws) <= MAX_RECORDS ∧
    map_enum 0 raws (_normalize_result (intents T)) = Ok rs ∧
    (∀ r, r ∈ rs → check_occurrence (intents T) g (max_clock_skew_seconds p) r = Ok tt) ∧
    NoDup (map result_sha256 rs) ∧ results T = sort_by result_sha256 rs;
  read_compensations : ∀ r, r ∈ results T → check_compensation T r = Ok tt;
}.

Lemma read_tables_Ok root p g T : read_tables root p g = Ok T → tables_read root p g T.
Proof.
  unfold read_tables. intros H. inv_pairs.
  repeat match goal with
  | H : expect_list _ _ _ = Ok _ |- _ => apply expect_list_Ok in H as [? ?]
  | H : unique_by _ _ _ = Ok _ |- _ => apply unique_by_Ok in H
  | H : for_each _ _ _ = Ok _ |- _ => rewrite for_each_unit_Ok in H
  end.
  split; simpl; [by eexists _, _|by eexists _, _|by eexists _, _|done].
Qed.

Lemma tables_intents_NoDup root p g T :
  tables_read root p g T → NoDup (map intent_sha256 (intents T)).
Proof.
  intros [_ (raws & ints & _ & _ & _ & Hnd & ->) _ _]. by apply map_sort_by_NoDup.
Qed.

Lemma tables_canonical root p g T : tables_read root p g T → canonical_tables T.
Proof.
  intros [(raws & ts & _ & _ & Hts & _ & HT) (raws' & ints & _ & _ & Hi & _ & HI) _ _]. split.
  - intros t Ht. rewrite HT in Ht. apply sort_by_elem in Ht.
    destruct (map_enum_elem _ _ _ _ _ Hts Ht) as (j & x & _ & Hx).
    by eapply normalize_target_canonical.
  - intros i Hin. rewrite HI in Hin. apply sort_by_elem in Hin.
    destruct (map_enum_elem _ _ _ _ _ Hi Hin) as (j & x & _ & Hx).
    by eapply normalize_intent_canonical.
Qed.

(** What a built report is made of. *)
Record built (root : items) (now : option string) (g : Z) (r : report) : Prop := {
  built_instant : representable g = true ∧ generated_at r = isoformat g "Z" ∧
    _parse_datetime (dict_get root "generated_at") "generated_at" = Ok (generated_at r, g);
  built_policy : _normalize_policy (dict_get root "policy") = Ok (report_policy r);
  built_now : check_now now g (max_clock_skew_seconds (report_policy r)) = Ok tt;
  built_tables : tables_read root (report_policy r) g (report_tables r);
  built_assessed : assess (report_tables r) (report_policy r) g = Ok (assessments r);
  built_derived : ∀ field expected, (field, expected) ∈ derived r →
    disagrees root field expected = false;
  built_safe : validate_public_safety (report_value r) = Ok tt;
}.

Lemma receipts_built v now r :
  build_mutation_receipts_report v now = Ok r → ∃ root g, v = VDict root ∧ built root now g r.
Proof.
  unfold build_mutation_receipts_report. intros H. inv_pairs.
  unfold _strict_object in *.
  match goal with H : strict_object _ _ _ = Ok _ |- _ => apply strict_object_Ok in H as [-> _] end.
  match goal with H : _parse_datetime _ _ = Ok (?s, ?g) |- _ =>
    pose proof (parse_datetime_Ok _ _ _ _ H) as (_ & ? & ?); exists a, g end.
  match goal with H : for_each _ _ _ = Ok _ |- _ => rewrite for_each_unit_Ok in H end.
  split; [done|]. split; simpl; try done.
  - by apply read_tables_Ok.
  - intros f e Hfe.
    match goal with H : ∀ x, _ ∈ _ → _ |- _ => specialize (H _ Hfe); simpl in H;
      by apply raise_if_Ok in H end.
Qed.

Lemma assess_outcome T p g l :
  canonical_tables T → NoDup (map intent_sha256 (intents T)) → assess T p g = Ok l →
  (∀ a', a' ∈ l → ∃ i a, i ∈ intents T ∧ _assess_intent T p g i = Ok a ∧
    (a' = a ∨ (a_decision a = ready ∧ a' = block a)) ∧
    (a_decision a' = ready ↔ may_proceed T p g i)) ∧
  (∀ i, i ∈ intents T → ∃ a a', a' ∈ l ∧ _assess_intent T p g i = Ok a ∧
    (a' = a ∨ (a_decision a = ready ∧ a' = block a)) ∧
    (a_decision a' = ready ↔ may_proceed T p g i)) ∧
  Permutation (map a_intent_sha256 l) (map intent_sha256 (intents T)).
Proof.
  intros HT Hnd. unfold assess. intros H. inv_pairs.
  match goal with H : map_enum _ _ _ = Ok ?l0 |- _ => rename H into Hmap, l0 into first end.
  match goal with H : _apply_collision_control _ _ = Ok ?l1 |- _ =>
    rename H into Hcol, l1 into last end.
  assert (Forall2 (λ i a, _assess_intent T p g i = Ok a) (intents T) first) as Hl.
  { eapply Forall2_impl; [by eapply map_enum_Forall2|]. by intros i a [_ ?]. }
  pose proof (collision_outcome T p g first HT Hnd Hl last Hcol) as Hout.
  setoid_rewrite sort_by_elem. split; [|split].
  - clear -Hout. induction Hout as [|i a' ints l (a & Ha & Hc) _ IH].
    { by intros ? ?%not_elem_of_nil. }
    intros b [->|Hb]%elem_of_cons.
    + exists i, a. split; [by left|done].
    + destruct (IH b Hb) as (j & c & ? & ?). exists j, c. split; [by right|done].
  - clear -Hout. induction Hout as [|i a' ints l (a & Ha & Hc) _ IH].
    { by intros ? ?%not_elem_of_nil. }
    intros j [->|Hj]%elem_of_cons.
    + exists a, a'. split; [by left|done].
    + destruct (IH j Hj) as (b & b' & ? & ?). exists b, b'. split; [by right|done].
  - rewrite (sort_by_Permutation a_intent_sha256). apply eq_subrelation; [apply _|]. clear -Hout.
    induction Hout as [|i a' ints l (a & Ha & Hc & _) _ IH]; [done|]. simpl. f_equal; [|done].
    destruct (assess_facts _ _ _ _ _ Ha) as [<- _]. by destruct Hc as [->|[_ ->]].
Qed.

(** ** Renormalising what was normalised *)

Ltac open_contract :=
  unfold _strict_object, _expect_int, _expect_sha256, _optional_sha256, _parse_datetime in *.

Ltac digest_bound :=
  match goal with H : negb (String.eqb _ _) = false |- _ => rewrite H end.

Lemma lease_again v f f' m o :
  _normalize_lease v f m = Ok o → _normalize_lease (opt_lease_value o) f' m = Ok o.
Proof.
  unfold _normalize_lease at 1. destruct (is_none v); [by intros [= <-]|].
  open_contract. intros H. normalized.
  unfold _normalize_lease, opt_lease_value, lease_value. open_contract.
  cbn [is_none].
  rewrite strict_object_dict by done. normalize. done.
Qed.

Lemma policy_again v p : _normalize_policy v = Ok p → _normalize_policy (policy_value p) = Ok p.
Proof.
  unfold _normalize_policy. open_contract. intros H. normalized.
  unfold policy_value, policy_material. rewrite strict_object_dict by done. normalize. done.
Qed.

Instance target_rereads p : Rereads (_normalize_target p) (_normalize_target p) target_value.
Proof.
  intros i j v t. unfold _normalize_target. open_contract. intros H. normalized.
  match goal with H : _normalize_lease _ _ _ = Ok _ |- _ =>
    apply (lease_again _ _ (at_index "targets" j +:+ ".lease")) in H; rename H into Hlease end.
  unfold target_value. rewrite strict_object_dict by done. normalize. rewrite Hlease. done.
Qed.

Lemma chain_again v f f' c :
  _normalize_chain v f = Ok c → _normalize_chain (chain_value c) f' = Ok c.
Proof.
  unfold _normalize_chain. open_contract. intros H. normalized.
  unfold chain_value, chain_material. simpl app.
  rewrite strict_object_dict by done. normalize. done.
Qed.

#[local] Opaque _normalize_lease _normalize_chain check_result.

Tactic Notation "intent_fields" :=
  cbn [intent_sha256 system operation resource_kind target_identity_sha256
    observed_version_sha256 observed_at desired_patch_sha256 relation_analysis_sha256
    actor_sha256 run_sha256 idempotency_key_sha256 policy_sha256 routing_sha256
    authorization_sha256 intent_lease compensation intent_chain].
Tactic Notation "intent_fields" "in" hyp(H) :=
  cbn [intent_sha256 system operation resource_kind target_identity_sha256
    observed_version_sha256 observed_at desired_patch_sha256 relation_analysis_sha256
    actor_sha256 run_sha256 idempotency_key_sha256 policy_sha256 routing_sha256
    authorization_sha256 intent_lease compensation intent_chain] in H.

Instance intent_rereads p : Rereads (_normalize_intent p) (_normalize_intent p) intent_value.
Proof.
  intros i j v x. unfold _normalize_intent. open_contract. intros H. normalized.
  match goal with H1 : _normalize_lease _ _ _ = Ok _, H2 : _normalize_chain _ _ = Ok _ |- _ =>
    apply (lease_again _ _ (at_index "intents" j +:+ ".lease")) in H1;
    apply (chain_again _ _ (at_index "intents" j +:+ ".chain")) in H2;
    rename H1 into Hlease, H2 into Hchain end.
  match goal with H : table_get _ _ = Ok _ |- _ => rename H into Htable end.
  match goal with H : negb (String.eqb _ (digest_of _)) = false |- _ => rename H into Hbound end.
  unfold intent_value. rewrite strict_object_dict by done.
  unfold intent_material in *. intent_fields. intent_fields in Hbound.
  repeat (cbn [mbind result_bind]; cbv zeta;
    first [rewrite Htable | rewrite Hlease | rewrite Hchain | normalize_step]).
  done.
Qed.

Tactic Notation "result_fields" :=
  cbn [result_sha256 r_intent_sha256 r_idempotency_key_sha256 r_system
    r_target_identity_sha256 outcome provider_receipt_sha256 before_version_sha256
    after_version_sha256 occurred_at r_actor_sha256 detail_sha256
    compensation_of_result_sha256].
Tactic Notation "result_fields" "in" hyp(H) :=
  cbn [result_sha256 r_intent_sha256 r_idempotency_key_sha256 r_system
    r_target_identity_sha256 outcome provider_receipt_sha256 before_version_sha256
    after_version_sha256 occurred_at r_actor_sha256 detail_sha256
    compensation_of_result_sha256] in H.

#[local] Transparent check_result.
(** The position of a result only shows in error texts. *)
Lemma check_result_field f f' i r u : check_result f i r = Ok u → check_result f' i r = Ok u.
Proof.
  unfold check_result. intros H. inv_pairs.
  repeat match goal with H : negb _ = false |- _ => rewrite H; clear H end. simpl.
  destruct (_result_is_accepted r); inv_pairs;
    repeat match goal with H : _ = false |- _ => rewrite H; clear H end; simpl;
    destruct (String.eqb (outcome r) "compensated"); inv_pairs; by rewrite H.
Qed.
#[local] Opaque check_result.

Instance result_rereads ints :
  Rereads (_normalize_result ints) (_normalize_result ints) result_value.
Proof.
  intros i j v x. unfold _normalize_result. open_contract. intros H. normalized.
  destruct (find_intent ints _) as [it|] eqn:Hfind; [|done]. normalized.
  match goal with H : negb (String.eqb _ (digest_of _)) = false |- _ => rename H into Hbound end.
  match goal with H : check_result _ _ _ = Ok _ |- _ =>
    apply (check_result_field _ (at_index "results" j)) in H; rename H into Hcheck end.
  unfold result_value. rewrite strict_object_dict by done.
  unfold result_material in *. result_fields. result_fields in Hbound.
  repeat (cbn [mbind result_bind]; cbv zeta;
    first [rewrite Hfind | rewrite Hcheck | normalize_step]).
  done.
Qed.

(** The tables of a report, written out and read back. *)
Lemma tables_again root root' p g T :
  tables_read root p g T →
  dict_get root' "targets" = VList (map target_value (targets T)) →
  dict_get root' "intents" = VList (map intent_value (intents T)) →
  dict_get root' "results" = VList (map result_value (results T)) →
  read_tables root' p g = Ok T.
Proof.
  intros [(rt & ts & _ & Ht & Hts & Hnt & HT) (ri & ints & _ & Hi & His & Hni & HI)
    (rr & rs & _ & Hr & Hrs & Hocc & Hnr & HR) Hcomp] E1 E2 E3.
  destruct T as [ts' ints' rs']. simpl in *. subst ts' ints' rs'.
  unfold read_tables. rewrite E1, E2, E3.
  rewrite (expect_list_perm target_value ts) by
    (apply sort_by_Permutation || by rewrite (map_enum_length _ _ _ _ Hts)). simpl.
  rewrite (reread_list _ _ target_value 0 0 rt ts _ Hts)
    by (intros x; by rewrite sort_by_elem). simpl.
  rewrite (proj2 (unique_by_Ok _ _ _ tt)) by (by apply map_sort_by_NoDup). simpl.
  rewrite (expect_list_perm intent_value ints) by
    (apply sort_by_Permutation || by rewrite (map_enum_length _ _ _ _ His)). simpl.
  rewrite (reread_list _ _ intent_value 0 0 ri ints _ His)
    by (intros x; by rewrite sort_by_elem). simpl.
  rewrite (proj2 (unique_by_Ok _ _ _ tt)) by (by apply map_sort_by_NoDup). simpl.
  rewrite !sort_by_idem by done.
  rewrite (expect_list_perm result_value rs) by
    (apply sort_by_Permutation || by rewrite (map_enum_length _ _ _ _ Hrs)). simpl.
  rewrite (reread_list _ _ result_value 0 0 rr rs _ Hrs)
    by (intros x; by rewrite sort_by_elem). simpl.
  assert (for_each (sort_by result_sha256 rs) (λ r _, check_occurrence (sort_by intent_sha256 ints)
    g (max_clock_skew_seconds p) r) tt = Ok tt) as ->.
  { apply for_each_unit_Ok. intros r Hr'. rewrite sort_by_elem in Hr'. by apply Hocc. }
  simpl. rewrite (proj2 (unique_by_Ok _ _ _ tt)) by (by apply map_sort_by_NoDup). simpl.
  rewrite sort_by_idem by done.
  assert (for_each (sort_by result_sha256 rs) (λ r _, check_compensation (Tables
    (sort_by identity_sha256 ts) (sort_by intent_sha256 ints) (sort_by result_sha256 rs)) r) tt
    = Ok tt) as ->; [|done].
  by apply for_each_unit_Ok.
Qed.

Lemma plain_assessment a : plain_value (assessment_value a).
Proof.
  destruct (plain_list VStr (reason_codes a)) as [Hu Hf]; [done|]. simpl in Hu, Hf.
  split; simpl; rewrite ?Hu, ?Hf; by destruct (current_version_sha256 a),
    (accepted_result_sha256 a), (chain_previous_current a).
Qed.

Lemma plain_ledger_item a : plain_value (ledger_item a).
Proof.
  destruct (plain_list VStr (reason_codes a)) as [Hu Hf]; [done|]. simpl in Hu, Hf.
  split; simpl; by rewrite ?Hu, ?Hf.
Qed.

Lemma plain_ledger l : plain_value (_build_failure_ledger l).
Proof.
  unfold _build_failure_ledger.
  destruct (plain_list ledger_item (ledgered l) plain_ledger_item) as [Hu Hf].
  simpl in Hu, Hf. split; simpl; by rewrite ?Hu, ?Hf.
Qed.

Lemma derived_plain r field expected :
  (field, expected) ∈ derived r → plain_value expected.
Proof.
  unfold derived. rewrite !elem_of_cons, elem_of_nil.
  intros [[= _ ->]|[[= _ ->]|[[= _ ->]|[[= _ ->]|[]]]]].
  - apply plain_list, plain_assessment.
  - done.
  - apply plain_ledger.
  - done.
Qed.

#[local] Opaque read_tables assess _normalize_policy check_now report_sha256
  _build_failure_ledger.

(** A mutation-receipt report is its own normal form: the document of a
    built report, given back with the same clock, is rebuilt to the same
    report.  Targets, intents and results come back in their sorted order,
    every digest the document carries (of the policy, of each chain, intent
    and result) still binds its content, every assessment is derived again as
    it was recorded, and the recorded summary, failure ledger and report
    digest agree with the derived ones. *)
Theorem receipts_rebuild v now r :
  build_mutation_receipts_report v now = Ok r →
  build_mutation_receipts_report (report_value r) now = Ok r.
Proof.
  intros (root & g & -> & B)%receipts_built.
  destruct B as [(Hg & Hgen & _) Hpol Hnow HT Hass _ Hsafe].
  enough (∀ d, d = report_items r ++ [("report_sha256", VStr (report_sha256 r))] →
    build_mutation_receipts_report (VDict d) now = Ok r) as Hd by by apply Hd.
  intros d Hd.
  assert (∀ k x, (k, x) ∈ d → dict_get d k = x) as Hget.
  { intros k x. apply dict_get_elem. subst d. apply (bool_decide_eq_true_1 _). reflexivity. }
  assert (∀ k x, (k, x) ∈ report_items r → dict_get d k = x) as Hitem.
  { intros k x Hk. apply Hget. subst d. rewrite elem_of_app. by left. }
  unfold report_items in Hitem.
  unfold build_mutation_receipts_report, _strict_object, _parse_datetime.
  rewrite strict_object_dict by (by subst d). cbn [mbind result_bind].
  rewrite (Hitem "schema_version" (VStr SCHEMA_VERSION)) by (rewrite !elem_of_cons; tauto).
  cbn [mbind result_bind].
  rewrite (Hitem "policy" (policy_value (report_policy r))) by (rewrite !elem_of_cons; tauto).
  rewrite (policy_again _ _ Hpol).
  rewrite (Hitem "generated_at" (VStr (generated_at r))) by (rewrite !elem_of_cons; tauto).
  simpl. rewrite Hgen at 1. rewrite parse_datetime_printed by done. simpl. rewrite Hnow. simpl.
  rewrite (tables_again root d _ _ _ HT) by (apply Hitem; rewrite !elem_of_cons; tauto).
  simpl. rewrite Hass. cbn [mbind result_bind]. cbv zeta. rewrite <- Hgen.
  assert (Report (generated_at r) (report_policy r) (report_tables r) (assessments r) = r) as ->
    by by destruct r.
  assert (∀ field expected, (field, expected) ∈ derived r → disagrees d field expected = false)
    as Hagree.
  { intros field expected Hin. unfold disagrees. rewrite (Hget field expected).
    - destruct (derived_plain _ _ _ Hin) as [Hu Hf].
      by rewrite py_eq_refl, andb_false_r.
    - subst d. unfold derived in Hin. unfold report_items.
      rewrite elem_of_app, !elem_of_cons, !elem_of_nil in *. tauto. }
  unfold derived in Hagree.
  rewrite !raise_if_false by (apply Hagree; rewrite !elem_of_cons; tauto).
  cbn [mbind result_bind]. by rewrite Hsafe.
Qed.

(** ** What the planner promises *)

Lemma built_outcome root now g r :
  built root now g r →
  (∀ a', a' ∈ assessments r → ∃ i a, i ∈ intents (report_tables r) ∧
    _assess_intent (report_tables r) (report_policy r) g i = Ok a ∧
    (a' = a ∨ (a_decision a = ready ∧ a' = block a)) ∧
    (a_decision a' = ready ↔ may_proceed (report_tables r) (report_policy r) g i)) ∧
  map a_intent_sha256 (assessments r) ≡ₚ map intent_sha256 (intents (report_tables r)) ∧
  NoDup (map intent_sha256 (intents (report_tables r))).
Proof.
  intros [_ _ _ HT Hass _ _].
  pose proof (tables_intents_NoDup _ _ _ _ HT) as Hnd.
  destruct (assess_outcome _ _ _ _ (tables_canonical _ _ _ _ HT) Hnd Hass) as (H1 & _ & H3).
  done.
Qed.

Lemma built_all_assessed root now g r :
  built root now g r → ∀ j, j ∈ intents (report_tables r) →
  ∃ a, _assess_intent (report_tables r) (report_policy r) g j = Ok a.
Proof.
  intros [_ _ _ HT Hass _ _] j Hj.
  destruct (assess_outcome _ _ _ _ (tables_canonical _ _ _ _ HT)
    (tables_intents_NoDup _ _ _ _ HT) Hass) as (_ & H & _).
  destruct (H j Hj) as (a & _ & _ & Ha & _). by exists a.
Qed.

Lemma outcome_intent T p g i a a' :
  _assess_intent T p g i = Ok a → (a' = a ∨ (a_decision a = ready ∧ a' = block a)) →
  a_intent_sha256 a' = intent_sha256 i.
Proof. intros [<- _]%assess_facts [->|[_ ->]]; done. Qed.

(** C3: The planner says [ready] for an intent exactly when every precondition
    of the contract holds for it and for no rival: no accepted result is
    recorded, its idempotency key is not shared, the attempt budget is not
    spent, the target resolves and its system, kind, version, route and
    authorization are those observed, the governing policy is unchanged, both
    observations are fresh, both leases exist, agree and have not expired, the
    previous step of its chain was accepted, directly precedes it and left its
    subject as it is, an unavailable compensation is not called for, and no
    other intent meeting all of this wants to change the same version of the
    same target. *)
Theorem ready_exactly_when_safe v now r :
  build_mutation_receipts_report v now = Ok r →
  ∃ g, generated_at r = isoformat g "Z" ∧
  ∀ a, a ∈ assessments r →
    ∃ i, i ∈ intents (report_tables r) ∧ intent_sha256 i = a_intent_sha256 a ∧
      (a_decision a = ready ↔ may_proceed (report_tables r) (report_policy r) g i).
Proof.
  intros (root & g & _ & B)%receipts_built. exists g.
  split; [by destruct (built_instant _ _ _ _ B) as (_ & ? & _)|].
  destruct (built_outcome _ _ _ _ B) as (Hout & _ & _).
  intros a' Ha'. destruct (Hout a' Ha') as (i & a & Hi & Hia & Hb & Hready).
  exists i. by rewrite (outcome_intent _ _ _ _ _ _ Hia Hb).
Qed.

(** At most one intent of a report is ready for a given system, target and
    observed version: two ready assessments whose intents want to change the
    same version are the same assessment, so executing every ready intent
    never applies two changes to one observed state. *)
Theorem one_writer_per_version v now r a b i j :
  build_mutation_receipts_report v now = Ok r →
  a ∈ assessments r → b ∈ assessments r → a_decision a = ready → a_decision b = ready →
  i ∈ intents (report_tables r) → intent_sha256 i = a_intent_sha256 a →
  j ∈ intents (report_tables r) → intent_sha256 j = a_intent_sha256 b →
  key_of i = key_of j → a = b.
Proof.
  intros (root & g & _ & B)%receipts_built Ha Hb Hra Hrb Hi Hia Hj Hjb Hkey.
  destruct (built_outcome _ _ _ _ B) as (Hout & Hperm & Hnd).
  destruct (Hout a Ha) as (i' & a0 & Hi' & Hia' & Ha0 & Hready_a).
  destruct (Hout b Hb) as (j' & b0 & Hj' & Hjb' & Hb0 & Hready_b).
  assert (i' = i) as ->.
  { eapply (key_inj intent_sha256); [done..|].
    by rewrite Hia, (outcome_intent _ _ _ _ _ _ Hia' Ha0). }
  assert (j' = j) as ->.
  { eapply (key_inj intent_sha256); [done..|].
    by rewrite Hjb, (outcome_intent _ _ _ _ _ _ Hjb' Hb0). }
  apply Hready_a in Hra as [Hpa Hua]. apply Hready_b in Hrb as [Hpb _].
  assert (j = i) as -> by (apply Hua; [done|by symmetry|done]).
  apply (key_inj a_intent_sha256 (assessments r)); [by rewrite Hperm|done..|congruence].
Qed.

#[local] Instance lease_eq_dec : EqDecision lease.
Proof. solve_decision. Defined.
#[local] Instance chain_eq_dec : EqDecision chain.
Proof. solve_decision. Defined.
#[local] Instance intent_eq_dec : EqDecision intent.
Proof. solve_decision. Defined.

(** Another intent of the tables that would proceed, for the same version. *)
Definition rival (T : tables) (p : policy) (g : Z) (i j : intent) : Prop :=
  j ∈ intents T ∧ j ≠ i ∧ key_of j = key_of i ∧ preconditions T p g j.

Lemma contested T p g i :
  canonical_tables T → (∀ j, j ∈ intents T → ∃ a, _assess_intent T p g j = Ok a) →
  i ∈ intents T → preconditions T p g i →
  ¬ may_proceed T p g i ↔ ∃ j, rival T p g i j.
Proof.
  intros HT Hall Hi Hpre. split.
  2: { intros (j & Hj & Hne & Hkey & Hprej) [_ H]. by apply Hne, H. }
  intros Hno. set (test j := bool_decide (j ≠ i) && bool_decide (key_of j = key_of i) &&
    match _assess_intent T p g j with Ok a => is_ready a | Raise _ => false end).
  assert (∀ j, j ∈ intents T → test j = true ↔ rival T p g i j) as Htest.
  { intros j Hj. destruct (Hall j Hj) as [a Ha]. unfold test, rival, is_ready. rewrite Ha.
    rewrite !andb_true_iff, !bool_decide_eq_true, (assess_ready T p g j a HT Hj Ha). tauto. }
  destruct (existsb test (intents T)) eqn:He.
  - apply existsb_elem_of in He as (j & Hj & Ht). exists j. by apply Htest.
  - destruct Hno. split; [done|]. intros j Hj Hkey Hprej. destruct (decide (j = i)); [done|].
    assert (existsb test (intents T) = true) as Hyes; [|congruence].
    apply existsb_elem_of. exists j. split; [done|]. by apply Htest.
Qed.

(** C20: Intents that compete are all held back, and only they.  In every report,
    an assessment names a concurrent collision exactly when its intent meets
    every precondition and so does another intent of the report that wants to
    change the same version of the same target; it is then decided [conflict].
    So a version two sound intents want is changed by neither, and no intent is
    blamed for a collision with one that could not have proceeded. *)
Theorem contested_changes_are_held v now r :
  build_mutation_receipts_report v now = Ok r →
  ∃ g, generated_at r = isoformat g "Z" ∧
  ∀ a, a ∈ assessments r →
    ∃ i, i ∈ intents (report_tables r) ∧ intent_sha256 i = a_intent_sha256 a ∧
      (collision ∈ reason_codes a ↔
        preconditions (report_tables r) (report_policy r) g i ∧
        ∃ j, rival (report_tables r) (report_policy r) g i j) ∧
      (collision ∈ reason_codes a → a_decision a = conflict).
Proof.
  intros (root & g & _ & B)%receipts_built. exists g.
  split; [by destruct (built_instant _ _ _ _ B) as (_ & ? & _)|].
  pose proof (tables_canonical _ _ _ _ (built_tables _ _ _ _ B)) as HT.
  pose proof (built_all_assessed _ _ _ _ B) as Hall.
  destruct (built_outcome _ _ _ _ B) as (Hout & _ & _).
  intros a' Ha'. destruct (Hout a' Ha') as (i & a & Hi & Hia & Hb & Hready).
  exists i. split; [done|]. split; [by rewrite (outcome_intent _ _ _ _ _ _ Hia Hb)|].
  pose proof (assess_silent _ _ _ _ _ Hia) as Hno.
  pose proof (assess_ready _ _ _ _ _ HT Hi Hia) as Hpre.
  destruct Hb as [->|[Hra ->]].
  - split; [|done]. split; [done|]. intros [Hp Hj]. exfalso.
    apply (contested _ _ _ _ HT Hall Hi Hp) in Hj. tauto.
  - split; [|done]. apply Hpre in Hra as Hp. split.
    + intros _. split; [done|]. apply contested; try done. by rewrite <- Hready.
    + intros _. simpl. apply reasons_elem. by left.
Qed.

Lemma at_most_one {A} (l : list A) x y : (length l <= 1)%nat → x ∈ l → y ∈ l → x = y.
Proof.
  destruct l as [|z [|]]; simpl; intros Hl Hx Hy; [by apply not_elem_of_nil in Hx|set_solver|lia].
Qed.

Lemma results_of_elem T sha x :
  x ∈ results_of T sha ↔ x ∈ results T ∧ r_intent_sha256 x = sha.
Proof.
  unfold results_of. by rewrite list_elem_of_In, filter_In, <- list_elem_of_In, String.eqb_eq.
Qed.

(** A mutation is applied at most once: in every report an intent has at
    most one accepted result, an intent that has one is always decided
    [replay] (and never anything else, whatever happened to its target since)
    carrying that result's digest, and an intent without one never is. *)
Theorem accepted_intents_replay v now r a :
  build_mutation_receipts_report v now = Ok r → a ∈ assessments r →
  (∀ x y, x ∈ results (report_tables r) → y ∈ results (report_tables r) →
     r_intent_sha256 x = a_intent_sha256 a → r_intent_sha256 y = a_intent_sha256 a →
     _result_is_accepted x = true → _result_is_accepted y = true → x = y) ∧
  (a_decision a = replay ↔
     ∃ x, x ∈ results (report_tables r) ∧ r_intent_sha256 x = a_intent_sha256 a ∧
       _result_is_accepted x = true) ∧
  (∀ x, x ∈ results (report_tables r) → r_intent_sha256 x = a_intent_sha256 a →
     _result_is_accepted x = true → accepted_result_sha256 a = Some (result_sha256 x)).
Proof.
  intros (root & g & _ & B)%receipts_built Ha.
  destruct (built_outcome _ _ _ _ B) as (Hout & _ & _).
  destruct (Hout a Ha) as (i & a0 & Hi & Hia & Hb & _).
  pose proof (outcome_intent _ _ _ _ _ _ Hia Hb) as Hsha. rewrite Hsha.
  destruct (assess_facts _ _ _ _ _ Hia) as (_ & Hone & Hrep & Hnot).
  setoid_rewrite results_of_elem in Hrep. setoid_rewrite results_of_elem in Hnot.
  assert (∀ x y, x ∈ results (report_tables r) → y ∈ results (report_tables r) →
     r_intent_sha256 x = intent_sha256 i → r_intent_sha256 y = intent_sha256 i →
     _result_is_accepted x = true → _result_is_accepted y = true → x = y) as Huniq.
  { intros x y Hx Hy Hxi Hyi Hxa Hya.
    apply (at_most_one _ x y Hone); apply accepted_elem; by rewrite results_of_elem. }
  split; [done|].
  destruct Hb as [->|[Hready ->]].
  - split.
    + rewrite Hrep. split; [intros (x & [? ?] & ? & ?); eauto|].
      intros (x & Hx & Hxi & Hxa). destruct (decide (a_decision a0 = replay)) as [Hd|Hd].
      * by apply Hrep in Hd.
      * destruct (Hnot Hd) as [_ Hno]. by rewrite Hno in Hxa.
    + intros x Hx Hxi Hxa. destruct (decide (a_decision a0 = replay)) as [Hd|Hd].
      * apply Hrep in Hd as (y & [Hy Hyi] & Hya & ->). by rewrite (Huniq x y).
      * destruct (Hnot Hd) as [_ Hno]. by rewrite Hno in Hxa.
  - destruct (Hnot ltac:(congruence)) as [_ Hno]. simpl. split; [|intros x Hx Hxi Hxa].
    + split; [done|]. intros (x & Hx & Hxi & Hxa). by rewrite Hno in Hxa.
    + by rewrite Hno in Hxa.
Qed.

Lemma replay_reasons T p g i a :
  _assess_intent T p g i = Ok a → a_decision a = replay → reason_codes a = ["idempotent_replay"].
Proof.
  intros H Hd. pose proof (assess_facts _ _ _ _ _ H) as (_ & _ & Hrep & _).
  apply Hrep in Hd as (x & Hx & Hxa & _).
  assert (x ∈ List.filter _result_is_accepted (results_of T (intent_sha256 i))) as Hin
    by by apply accepted_elem.
  unfold _assess_intent in H. destruct (List.filter _ _) as [|y l].
  - by apply not_elem_of_nil in Hin.
  - inv_pairs. done.
Qed.

#[local] Transparent _build_failure_ledger.

(** The failure ledger omits exactly the assessments that are ready without
    a recorded failure.  In particular every replay is listed in it: the test
    that would leave settled replays out also asks for an empty list of
    reasons, and a replay always carries the reason [idempotent_replay]. *)
Theorem ledger_lists_replays v now r a :
  build_mutation_receipts_report v now = Ok r → a ∈ assessments r →
  (a ∉ ledgered (assessments r) ↔
     a_decision a = ready ∧ reason_codes a = [] ∧ compensation_required a = false).
Proof.
  intros (root & g & _ & B)%receipts_built Ha.
  destruct (built_outcome _ _ _ _ B) as (Hout & _ & _).
  destruct (Hout a Ha) as (i & a0 & Hi & Hia & Hb & _).
  assert (a_decision a = replay → reason_codes a ≠ []) as Hreplay.
  { intros Hd. destruct Hb as [->|[_ ->]]; [|done]. by rewrite (replay_reasons _ _ _ _ _ Hia Hd). }
  transitivity (is_settled a = true).
  - unfold ledgered.
    rewrite sort_by_elem, list_elem_of_In, filter_In, <- list_elem_of_In, negb_true_iff.
    destruct (is_settled a); split; try done; [intros _ [_ ?]; done|]. intros H. by destruct H.
  - unfold is_settled. rewrite !andb_true_iff, bool_decide_eq_true, negb_true_iff.
    destruct (a_decision a).
    2: { split; [|by intros [? _]]. intros [[_ Hnil] _]. by destruct (Hreplay eq_refl). }
    1: tauto.
    all: split; [by intros [[? _] _]|by intros [? _]].
Qed.

(** ** Failures *)

#[local] Transparent _normalize_lease _normalize_chain check_result read_tables assess
  _normalize_policy check_now.

Lemma raises_normalize_lease v f m : raises_in recovery_errors (_normalize_lease v f m).
Proof. unfold _normalize_lease. open_contract. solve_raises_in. Qed.
Lemma raises_mutation_policy v : raises_in recovery_errors (_normalize_policy v).
Proof. unfold _normalize_policy. open_contract. solve_raises_in. Qed.
Lemma raises_normalize_chain v f : raises_in recovery_errors (_normalize_chain v f).
Proof. unfold _normalize_chain. open_contract. solve_raises_in. Qed.
Lemma raises_check_result f i r : raises_in recovery_errors (check_result f i r).
Proof. unfold check_result. solve_raises_in. Qed.
#[local] Hint Resolve raises_normalize_lease raises_mutation_policy raises_normalize_chain
  raises_check_result : raises.

Lemma raises_normalize_target p j v : raises_in recovery_errors (_normalize_target p j v).
Proof. unfold _normalize_target. open_contract. solve_raises_in. Qed.

Lemma table_get_total op : op ∈ OPERATIONS → ∃ s, table_get OPERATION_SYSTEM op = Ok s.
Proof.
  revert op. apply Forall_forall.
  repeat (apply Forall_cons; split; [by eexists|]). apply Forall_nil_2.
Qed.

(** Every operation has a system. *)
Lemma raises_normalize_intent p j v : raises_in recovery_errors (_normalize_intent p j v).
Proof.
  unfold _normalize_intent. open_contract.
  apply raises_in_bind; [auto with raises|]. intros d _. cbv zeta.
  apply raises_in_bind; [auto with raises|]. intros s _.
  apply raises_in_bind; [auto with raises|]. intros op Hop%member_of_Ok.
  destruct (table_get_total op) as [os Hos]; [tauto|]. rewrite Hos. cbn [mbind result_bind].
  solve_raises_in.
Qed.

Lemma raises_normalize_result ints j v : raises_in recovery_errors (_normalize_result ints j v).
Proof. unfold _normalize_result. open_contract. solve_raises_in. Qed.
#[local] Hint Resolve raises_normalize_target raises_normalize_intent raises_normalize_result
  : raises.

Lemma raises_age w g s f : raises_in recovery_errors (_age_seconds w g s f).
Proof. unfold _age_seconds. open_contract. solve_raises_in. Qed.
#[local] Hint Resolve raises_age : raises.

(** A result of the report belongs to an intent of the report. *)
Lemma result_intent ints j v x :
  _normalize_result ints j v = Ok x → ∃ i, find_intent ints (r_intent_sha256 x) = Some i.
Proof.
  unfold _normalize_result. intros H. inv_pairs. destruct (find_intent ints _) eqn:Hf; [|done].
  inv_pairs. simpl. eauto.
Qed.

Lemma raises_check_occurrence ints g skew r i :
  find_intent ints (r_intent_sha256 r) = Some i →
  raises_in recovery_errors (check_occurrence ints g skew r).
Proof.
  intros Hi. unfold check_occurrence, intent_of. simpl. rewrite Hi. open_contract.
  solve_raises_in.
Qed.

Lemma raises_read_tables root p g : raises_in recovery_errors (read_tables root p g).
Proof.
  unfold read_tables, unique_by, check_compensation. solve_raises_in;
    try (apply raises_in_map_enum; auto with raises).
  - apply raises_in_for_each. intros r [] Hr.
    match goal with H : map_enum _ _ (_normalize_result _) = Ok _ |- _ =>
      destruct (map_enum_elem _ _ _ _ _ H Hr) as (j & v & _ & Hv) end.
    destruct (result_intent _ _ _ _ Hv) as [i Hi]. by eapply raises_check_occurrence.
  - apply raises_in_for_each. intros r [] _. solve_raises_in.
Qed.

(** Results refer to intents of the tables. *)
Definition closed_tables (T : tables) : Prop :=
  ∀ r, r ∈ results T → ∃ i, intent_of T (r_intent_sha256 r) = Ok i.

Lemma tables_closed root p g T : tables_read root p g T → closed_tables T.
Proof.
  intros [_ _ (raws & rs & _ & _ & Hrs & _ & _ & HR) _] r Hr.
  rewrite HR in Hr. apply sort_by_elem in Hr.
  destruct (map_enum_elem _ _ _ _ _ Hrs Hr) as (j & v & _ & Hv).
  destruct (result_intent _ _ _ _ Hv) as [i Hi]. exists i. unfold intent_of. by rewrite Hi.
Qed.

Lemma raises_assess_subject t i g p v : raises_in recovery_errors (assess_subject t i g p v).
Proof.
  unfold assess_subject, assess_target, assess_lease. open_contract. solve_raises_in.
Qed.

Lemma raises_assess_chain T i v :
  closed_tables T → raises_in recovery_errors (assess_chain T i v).
Proof.
  intros HT. unfold assess_chain.
  destruct (previous_result_sha256 _) as [sha|]; [|done].
  destruct (find_result T sha) as [x|] eqn:Hx; [|done].
  destruct (_result_is_accepted x); [|done].
  assert (x ∈ results T) as Hin.
  { unfold find_result in Hx. apply find_some in Hx as [Hx _]. by apply list_elem_of_In. }
  destruct (HT x Hin) as [b ->]. simpl. by destruct (_ || _).
Qed.

Lemma raises_assess_intent T p g i :
  closed_tables T → raises_in recovery_errors (_assess_intent T p g i).
Proof.
  intros HT. unfold _assess_intent.
  apply raises_in_bind.
  { apply raises_in_raise_if. by apply (bool_decide_eq_true_1 _). }
  intros _ _.
  destruct (List.filter _ _); [|done].
  apply raises_in_bind; [apply raises_assess_subject|]. intros [v o] _.
  apply raises_in_bind; [by apply raises_assess_chain|]. intros [v' o'] _.
  by destruct (assess_failures _ _ _).
Qed.

Lemma raises_collision T p g l :
  NoDup (map intent_sha256 (intents T)) →
  Forall2 (λ i a, _assess_intent T p g i = Ok a) (intents T) l →
  raises_in recovery_errors (_apply_collision_control T l).
Proof.
  intros Hnd Hl.
  assert (∀ a, a ∈ l → ∃ k, race_key T a = Ok k) as Hkey.
  { intros a Ha. destruct (assessed_intent T p g l Hl a Ha) as (i & Hi & Hia).
    exists (key_of i). by eapply assessed_key. }
  assert (∃ keys, ready_keys T l = Ok keys) as [keys Hkeys].
  { clear Hl. induction l as [|a l IH]; simpl; [eauto|].
    destruct IH as [keys Hk]; [intros; apply Hkey; by right|].
    destruct (Hkey a) as [k Ha]; [by left|]. rewrite Ha, Hk. simpl.
    destruct (is_ready a); eauto. }
  unfold _apply_collision_control. rewrite Hkeys. simpl. clear Hl Hkeys.
  induction l as [|a l IH]; simpl; [done|].
  destruct (Hkey a) as [k Ha]; [by left|]. rewrite Ha.
  apply raises_in_bind; [by destruct (is_ready a)|]. intros x _.
  apply raises_in_bind; [|done]. apply IH. intros; apply Hkey; by right.
Qed.

(** Whatever document and clock text it is given, the report builder
    returns a report or raises [RecoveryError], or [OverflowError] when a
    timestamp plus the skew leaves the representable years.  No [KeyError]
    escapes: every operation has a system, every result belongs to an intent
    of the report, and every assessment's intent is found again when races
    are resolved. *)
Theorem mutation_failures_are_typed v now :
  raises_in recovery_errors (build_mutation_receipts_report v now).
Proof.
  unfold build_mutation_receipts_report, check_now. open_contract. solve_raises_in.
  all: try apply raises_read_tables.
  - match goal with H : read_tables _ _ _ = Ok ?T |- raises_in _ (assess ?T ?p ?g) =>
      apply read_tables_Ok in H; pose proof (tables_closed _ _ _ _ H) as Hclosed;
      pose proof (tables_intents_NoDup _ _ _ _ H) as Hnd end.
    unfold assess. apply raises_in_bind.
    + apply raises_in_map_enum. intros. by apply raises_assess_intent.
    + intros l Hl. apply raises_in_bind; [|done]. eapply raises_collision; [done|].
      eapply Forall2_impl; [by eapply map_enum_Forall2|]. by intros ? ? [_ ?].
  - apply raises_in_for_each. intros [f e] [] _. solve_raises_in.
Qed.

(** ** Witnesses *)

Definition example_clock : string := "2026-08-10T12:00:00+02:00".
Definition no_report : report :=
  Report EmptyString (Policy EmptyString 0 0 0 0) (Tables [] [] []) [].
Definition built_or_empty (res : result report) : report :=
  match res with Ok r => r | Raise _ => no_report end.
Definition example_source : report :=
  built_or_empty (build_example_mutation_receipts example_clock).
Definition example_outcome : result report :=
  build_mutation_receipts_report (report_value example_source) (Some example_clock).
Definition example_report : report := built_or_empty example_outcome.

(** The fixture's report holds one intent, which is ready. *)
Definition says (d : decision) (r : report) : Prop :=
  match assessments r, intents (report_tables r) with
  | [a], [i] => a_decision a = d ∧ intent_sha256 i = a_intent_sha256 a
  | _, _ => False
  end.
Lemma example_says : match example_outcome with Ok r => says ready r | Raise _ => False end.
Proof. vm_compute. done. Qed.

Lemma example_receipts_built :
  build_mutation_receipts_report (report_value example_source) (Some example_clock) =
    Ok example_report.
Proof.
  pose proof example_says as H. unfold example_report. fold example_outcome.
  by destruct example_outcome.
Qed.

Lemma receipts_rebuild_witness :
  build_mutation_receipts_report (report_value example_report) (Some example_clock) =
    Ok example_report.
Proof. exact (receipts_rebuild _ _ _ example_receipts_built). Defined.

Lemma ready_exactly_when_safe_witness :
  ∃ g, generated_at example_report = isoformat g "Z" ∧
  ∀ a, a ∈ assessments example_report →
    ∃ i, i ∈ intents (report_tables example_report) ∧ intent_sha256 i = a_intent_sha256 a ∧
      (a_decision a = ready ↔
       may_proceed (report_tables example_report) (report_policy example_report) g i).
Proof. exact (ready_exactly_when_safe _ _ _ example_receipts_built). Defined.

Definition example_assessment : assessment :=
  nth 0 (assessments example_report)
    (Assessment EmptyString EmptyString EmptyString None conflict [] 0 None None false).

(** Two intents that want to change the same version: the fixture's, and one
    with another patch and another idempotency key. *)
Definition rival_intent (i : intent) : intent :=
  let rival sha := Intent sha (system i) (operation i) (resource_kind i)
    (target_identity_sha256 i) (observed_version_sha256 i) (observed_at i)
    (fixture "patch" [("v", VInt 2)]) (relation_analysis_sha256 i) (actor_sha256 i)
    (run_sha256 i) (fixture "idempotency" [("v", VInt 2)]) (policy_sha256 i)
    (routing_sha256 i) (authorization_sha256 i) (intent_lease i) (compensation i)
    (intent_chain i) in
  rival (digest_of (VDict (intent_material (rival EmptyString)))).
Definition contested_document : value :=
  example_document (generated_at example_source) (targets (report_tables example_source))
    (intents (report_tables example_source)
       ++ map rival_intent (intents (report_tables example_source))) [].
Definition contested_outcome : result report :=
  build_mutation_receipts_report contested_document (Some example_clock).
Definition contested_report : report := built_or_empty contested_outcome.

Lemma contested_says :
  match contested_outcome with
  | Ok r => Ok (map (λ a, (a_decision a, reason_codes a)) (assessments r))
  | Raise e => Raise e
  end = Ok [(conflict, [collision]); (conflict, [collision])].
Proof. vm_compute. reflexivity. Qed.

Lemma contested_built :
  build_mutation_receipts_report contested_document (Some example_clock) = Ok contested_report ∧
  map reason_codes (assessments contested_report) = [[collision]; [collision]].
Proof.
  pose proof contested_says as H. unfold contested_report. fold contested_outcome.
  destruct contested_outcome as [r|e]; [|done]. injection H as H. split; [done|]. simpl.
  destruct (assessments r) as [|a [|b [|]]]; try discriminate H. simpl in *.
  by injection H as _ -> _ ->.
Qed.

Lemma contested_changes_are_held_witness :
  ∃ g a b, assessments contested_report = [a; b] ∧
  (∃ i, i ∈ intents (report_tables contested_report) ∧ intent_sha256 i = a_intent_sha256 a ∧
    a_decision a = conflict ∧
    preconditions (report_tables contested_report) (report_policy contested_report) g i ∧
    ∃ j, rival (report_tables contested_report) (report_policy contested_report) g i j) ∧
  ∃ i, i ∈ intents (report_tables contested_report) ∧ intent_sha256 i = a_intent_sha256 b ∧
    a_decision b = conflict ∧
    preconditions (report_tables contested_report) (report_policy contested_report) g i ∧
    ∃ j, rival (report_tables contested_report) (report_policy contested_report) g i j.
Proof.
  destruct contested_built as [Hb Hr].
  destruct (contested_changes_are_held _ _ _ Hb) as (g & _ & H). exists g.
  destruct (assessments contested_report) as [|a [|b []]]; try discriminate Hr.
  injection Hr as Ha Hb'. exists a, b. split; [reflexivity|].
  assert (collision ∈ reason_codes a) as Hca by (rewrite Ha; by left).
  assert (collision ∈ reason_codes b) as Hcb by (rewrite Hb'; by left).
  split.
  - destruct (H a) as (i & Hi & Hsha & Hiff & Hdec); [by left|]. exists i. tauto.
  - destruct (H b) as (i & Hi & Hsha & Hiff & Hdec); [by right; left|]. exists i. tauto.
Defined.

(** The same intent once the provider has accepted it. *)
Definition accepted_result (i : intent) (occurred : string) : mutation_result :=
  let result sha := Result sha (intent_sha256 i) (idempotency_key_sha256 i) (system i)
    (target_identity_sha256 i) "accepted" (Some (fixture "receipt" []))
    (observed_version_sha256 i) (Some (fixture "version" [("v", VInt 2)])) occurred
    (actor_sha256 i) (fixture "detail" []) None in
  result (digest_of (VDict (result_material (result EmptyString)))).

Definition replay_document : value :=
  example_document (generated_at example_source) (targets (report_tables example_source))
    (intents (report_tables example_source))
    (map (λ i, accepted_result i (generated_at example_source))
       (intents (report_tables example_source))).
Definition replay_outcome : result report :=
  build_mutation_receipts_report replay_document (Some example_clock).
Definition replay_report : report := built_or_empty replay_outcome.
Definition replay_assessment : assessment :=
  nth 0 (assessments replay_report) example_assessment.

Lemma replay_says : match replay_outcome with Ok r => says replay r | Raise _ => False end.
Proof. vm_compute. done. Qed.

Lemma replay_built :
  build_mutation_receipts_report replay_document (Some example_clock) = Ok replay_report ∧
  assessments replay_report = [replay_assessment] ∧ a_decision replay_assessment = replay.
Proof.
  pose proof replay_says as H. unfold replay_assessment, replay_report. fold replay_outcome.
  destruct replay_outcome as [r|e]; [|done]. unfold says in H. simpl.
  destruct (assessments r) as [|a [|]]; try done.
  destruct (intents (report_tables r)) as [|i [|]]; try done. by destruct H.
Qed.

Lemma replay_elem : replay_assessment ∈ assessments replay_report.
Proof. rewrite (proj1 (proj2 replay_built)). by left. Qed.

Lemma accepted_intents_replay_witness :
  (∀ x y, x ∈ results (report_tables replay_report) → y ∈ results (report_tables replay_report) →
     r_intent_sha256 x = a_intent_sha256 replay_assessment →
     r_intent_sha256 y = a_intent_sha256 replay_assessment →
     _result_is_accepted x = true → _result_is_accepted y = true → x = y) ∧
  (a_decision replay_assessment = replay ↔
     ∃ x, x ∈ results (report_tables replay_report) ∧
       r_intent_sha256 x = a_intent_sha256 replay_assessment ∧
       _result_is_accepted x = true) ∧
  (∀ x, x ∈ results (report_tables replay_report) →
     r_intent_sha256 x = a_intent_sha256 replay_assessment →
     _result_is_accepted x = true →
     accepted_result_sha256 replay_assessment = Some (result_sha256 x)).
Proof. exact (accepted_intents_replay _ _ _ _ (proj1 replay_built) replay_elem). Defined.

Lemma ledger_lists_replays_witness :
  replay_assessment ∉ ledgered (assessments replay_report) ↔
  a_decision replay_assessment = ready ∧ reason_codes replay_assessment = [] ∧
    compensation_required replay_assessment = false.
Proof. exact (ledger_lists_replays _ _ _ _ (proj1 replay_built) replay_elem). Defined.

End MutationTheorems.
