(* ===== verification/GitObjects.v ===== *)
(** * References to GitHub objects and artifacts

    The rest of [src/tools/artifact_recovery/common.py]: owners, repositories,
    branches, commits, visibilities, GitHub URLs and artifact descriptions,
    normalised from untyped documents, with Python's stable [sorted] and the
    [int] of a text, which the ledger needs too.  Each [*_Ok] lemma says
    exactly what its reader accepts. *)
From S2P Require Import Prelude PyValue Sha256 Json DateTime Regex RecoveryCommon.
From Stdlib Require Import Ascii SpecFloat.
From Stdlib Require Sorted.
Open Scope Z_scope.

(** ** [sorted(l, key=...)]: stable insertion by a total comparison of keys *)

Section stable_sort.
Context {A : Type} (leb : A → A → bool).

Fixpoint insert_sorted (x : A) (l : list A) : list A :=
  match l with
  | [] => [x]
  | y :: l => if leb x y then x :: y :: l else y :: insert_sorted x l
  end.

(** An element goes before the equal ones that followed it. *)
Definition stable_sort (l : list A) : list A := foldr insert_sorted [] l.

Definition in_order (x y : A) : Prop := leb x y = true.

Lemma insert_sorted_Permutation x l : insert_sorted x l ≡ₚ x :: l.
Proof.
  induction l as [|y l IH]; simpl; [done|]. destruct (leb x y); [done|].
  rewrite IH. apply Permutation_swap.
Qed.

Lemma stable_sort_Permutation l : stable_sort l ≡ₚ l.
Proof. induction l as [|x l IH]; simpl; [done|]. by rewrite insert_sorted_Permutation, IH. Qed.

Lemma stable_sort_elem l x : x ∈ stable_sort l ↔ x ∈ l.
Proof. by rewrite stable_sort_Permutation. Qed.

(** A list that is already in order stays as it is. *)
Lemma stable_sort_sorted l : Sorted.Sorted in_order l → stable_sort l = l.
Proof.
  induction 1 as [|x l _ IH Hhd]; simpl; [done|]. rewrite IH.
  destruct Hhd as [|y l Hxy]; simpl; [done|]. by rewrite Hxy.
Qed.

Context (Htotal : ∀ x y, leb x y = true ∨ leb y x = true).

Lemma insert_sorted_Sorted x l :
  Sorted.Sorted in_order l → Sorted.Sorted in_order (insert_sorted x l).
Proof using Htotal.
  induction 1 as [|y l Hl IH Hhd]; simpl; [by repeat constructor|].
  destruct (leb x y) eqn:Hxy; [by repeat constructor|].
  constructor; [done|]. destruct (Htotal x y) as [|Hyx]; [congruence|].
  destruct Hhd as [|z l Hyz]; simpl; [by constructor|].
  destruct (leb x z); by constructor.
Qed.

Lemma stable_sort_Sorted l : Sorted.Sorted in_order (stable_sort l).
Proof using Htotal. induction l; simpl; [constructor|by apply insert_sorted_Sorted]. Qed.

Lemma stable_sort_idem l : stable_sort (stable_sort l) = stable_sort l.
Proof using Htotal. apply stable_sort_sorted, stable_sort_Sorted. Qed.
End stable_sort.

(** The comparisons of the keys: texts, pairs of texts, integers. *)
Definition str_leb (s t : string) : bool := String.leb s t.
Definition str_pair_leb (p q : string * string) : bool :=
  if String.eqb p.1 q.1 then String.leb p.2 q.2 else String.leb p.1 q.1.

Lemma str_leb_total s t : str_leb s t = true ∨ str_leb t s = true.
Proof. apply String.leb_total. Qed.

Lemma str_pair_leb_total p q : str_pair_leb p q = true ∨ str_pair_leb q p = true.
Proof.
  unfold str_pair_leb. destruct (String.eqb_spec p.1 q.1) as [->|Hne].
  - rewrite String.eqb_refl. apply String.leb_total.
  - destruct (String.eqb_spec q.1 p.1) as [Heq|]; [by destruct Hne|apply String.leb_total].
Qed.

Lemma Z_leb_total x y : (x <=? y) = true ∨ (y <=? x) = true.
Proof. rewrite !Z.leb_le. lia. Qed.

(** With distinct keys the order of the input does not show. *)
Lemma stable_sort_key_perm {A} (key : A → string) (l l' : list A) :
  l ≡ₚ l' → NoDup (map key l) →
  stable_sort (λ a b, str_leb (key a) (key b)) l = stable_sort (λ a b, str_leb (key a) (key b)) l'.
Proof.
  intros Hp Hnd. set (leb a b := str_leb (key a) (key b)).
  assert (∀ a b, in_order leb a b ↔ String.le (key a) (key b)) as Hle.
  { intros a b. unfold in_order, leb, str_leb, String.le. by destruct (String.leb _ _). }
  assert (Transitive (in_order leb)).
  { intros a b c. rewrite !Hle. apply transitivity. }
  assert (∀ l, Sorted.StronglySorted (in_order leb) (stable_sort leb l)) as Hs.
  { intros m. apply Sorted.Sorted_StronglySorted; [done|]. apply stable_sort_Sorted.
    intros a b. apply str_leb_total. }
  apply (StronglySorted_unique_strong (in_order leb)); [|apply Hs..|].
  - intros a b Ha%stable_sort_elem Hb%stable_sort_elem H1 H2. rewrite <- Hp in Hb.
    rewrite Hle in H1, H2. eapply key_inj; [exact Hnd|done..|].
    by apply (anti_symm String.le).
  - by rewrite !stable_sort_Permutation.
Qed.

(** [sorted(set(l))] *)
Definition sorted_set (l : list string) : list string := sorted_strs (remove_dups l).

Lemma remove_dups_NoDup (l : list string) : NoDup l → remove_dups l = l.
Proof.
  induction 1 as [|x l Hx _ IH]; simpl; [done|].
  destruct (decide_rel _ x l); [done|]. by rewrite IH.
Qed.

Lemma sorted_set_elem l s : s ∈ sorted_set l ↔ s ∈ l.
Proof. unfold sorted_set. by rewrite sorted_strs_Permutation, elem_of_remove_dups. Qed.

Lemma sorted_set_NoDup l : NoDup (sorted_set l).
Proof. unfold sorted_set. rewrite sorted_strs_Permutation. apply NoDup_remove_dups. Qed.

Lemma sorted_set_idem l : sorted_set (sorted_set l) = sorted_set l.
Proof.
  unfold sorted_set at 1. rewrite remove_dups_NoDup by apply sorted_set_NoDup.
  apply sorted_strs_idem.
Qed.

Lemma remove_dups_length (l : list string) : (length (remove_dups l) <= length l)%nat.
Proof. induction l as [|x l IH]; simpl; [lia|]. destruct (decide_rel _ x l); simpl; lia. Qed.

Lemma sorted_set_length l : (length (sorted_set l) <= length l)%nat.
Proof. unfold sorted_set. rewrite sorted_strs_Permutation. apply remove_dups_length. Qed.

Lemma sorted_set_Forall (P : string → Prop) l : Forall P l → Forall P (sorted_set l).
Proof. rewrite !Forall_forall. intros H s Hs. apply H. by rewrite <- sorted_set_elem. Qed.

(** ** [int(s)] of a text *)

Fixpoint strip_left (s : string) : string :=
  match s with
  | String c rest => if is_space c then strip_left rest else s
  | EmptyString => EmptyString
  end.
Fixpoint strip_right (s : string) : string :=
  match s with
  | EmptyString => EmptyString
  | String c rest =>
      match strip_right rest with
      | EmptyString => if is_space c then EmptyString else String c EmptyString
      | rest => String c rest
      end
  end.

(** [s.strip()] *)
Definition strip (s : string) : string := strip_right (strip_left s).

(** Digits with single underscores between them: the digits alone. *)
Fixpoint plain_digits (after_digit : bool) (s : string) : option string :=
  match s with
  | EmptyString => if after_digit then Some EmptyString else None
  | String c rest =>
      if is_digit c then String c <$> plain_digits true rest
      else if after_digit && one_of "_" c then plain_digits false rest
      else None
  end.

Definition invalid_int (s : string) : exn :=
  Exn ValueError ("invalid literal for int() with base 10: " +:+ repr_str s).

Definition int_of_text (s : string) : result Z :=
  let text := strip_right (strip_left s) in
  let '(negative, body) :=
    match text with
    | String c rest =>
        if one_of "-" c then (true, rest) else if one_of "+" c then (false, rest)
        else (false, text)
    | EmptyString => (false, text)
    end in
  match plain_digits false body with
  | None => Raise (invalid_int s)
  | Some digits =>
      n ← int_of_str digits;
      Ok (if negative then - n else n)
  end.

(** [bool(v)] *)
Definition truthy (v : value) : bool :=
  match v with
  | VNone => false
  | VBool b => b
  | VInt z => negb (z =? 0)
  | VFloat f => match f with S754_zero _ => false | _ => true end
  | VStr s => negb (String.eqb s EmptyString)
  | VList l => match l with [] => false | _ => true end
  | VDict d => match d with [] => false | _ => true end
  end.

(** ** Shapes *)

Definition DEFAULT_CLI_TASK_ID : string := "019fd526-f34d-7f72-94fa-2da6185f2d74".
Definition MAX_BATCH_SIZE : Z := 250.
Definition MAX_PATHS : Z := 100.

Definition last_char (s : string) : option ascii := last (String.list_ascii_of_string s).
Definition ends_in (p : ascii → bool) (s : string) : bool :=
  match last_char s with Some c => p c | None => false end.

Definition owner_char (c : ascii) : bool := is_alnum c || one_of "-" c.
Definition repo_char (c : ascii) : bool := is_alnum c || one_of "_.-" c.
Definition ref_char (c : ascii) : bool := is_alnum c || one_of "._/-" c.

(** A letter or digit, alone or with up to 37 inner characters and another. *)
Definition OWNER_RE (s : string) : bool :=
  match s with
  | EmptyString => false
  | String c rest =>
      is_alnum c &&
      (String.eqb rest EmptyString
       || (slen rest <=? 38) && all_chars owner_char rest && ends_in is_alnum rest)
  end.
Definition REPO_RE : string → bool := rx_rep repo_char 1 100.
Definition BRANCH_RE (s : string) : bool :=
  negb (starts_with s "/")
  && negb (contains ".." s || contains "//" s || contains "@{" s || contains "\" s)
  && rx_rep ref_char 1 200 s
  && negb (ends_in (one_of "./") s).
Definition SHA40_RE : string → bool := rx_rep is_hex 40 40.
Definition SHA256_RE : string → bool := rx_rep is_hex 64 64.
Definition ORIGIN_ID_RE : string → bool :=
  rx_head_rep is_alnum (λ c, is_alnum c || one_of "._:/+-" c) 0 199.

(** The groups of the URL pattern: owner, repository, and kind with value. *)
Record github_url : Type := GithubUrl {
  url_owner : string;
  url_repo : string;
  url_object : option (string * string);
}.

Fixpoint split_slash (s : string) : string * option string :=
  match s with
  | EmptyString => (EmptyString, None)
  | String c rest =>
      if one_of "/" c then (EmptyString, Some rest)
      else let '(part, tail) := split_slash rest in (String c part, tail)
  end.

Definition github_prefix : string := "https://github.com/".
Definition nonempty_of (p : ascii → bool) (s : string) : bool :=
  negb (String.eqb s EmptyString) && all_chars p s.

(** The owner and the repository cannot hold a slash, so each ends at the next
    one; the value may, so it takes the rest of the text. *)
Definition HTTPS_GITHUB_RE (s : string) : option github_url :=
  if negb (starts_with s github_prefix) then None else
  let '(owner, rest) := split_slash
    (String.substring (String.length github_prefix)
       (String.length s - String.length github_prefix) s) in
  match rest with
  | None => None
  | Some rest =>
      let '(repo, rest) := split_slash rest in
      if negb (nonempty_of owner_char owner && nonempty_of repo_char repo) then None else
      match rest with
      | None | Some EmptyString => Some (GithubUrl owner repo None)
      | Some rest =>
          match split_slash rest with
          | (kind, Some object) =>
              if mem_str kind ["commit"; "tree"; "pull"] && nonempty_of ref_char object
              then Some (GithubUrl owner repo (Some (kind, object))) else None
          | (_, None) => None
          end
      end
  end.

(** ** Readers *)

Definition optional_string (v : value) (field : string) (maximum : Z) : result (option string) :=
  if is_none v then Ok None else Some <$> expect_string v field maximum.

(** [now_utc]: the machine's clock, or the time the caller gives. *)
Definition now_utc (clock : Z) (arg : option string) : result string :=
  match arg with
  | None => Ok (str_replace (isoformat clock utc_suffix) utc_suffix "Z")
  | Some text => parse_timestamp (VStr text) "--now"
  end.

Fixpoint lower (s : string) : string :=
  match s with
  | EmptyString => EmptyString
  | String c s => String (lower_char c) (lower s)
  end.

Definition normalize_repo (owner repository : string) : result string :=
  raise_if (negb (OWNER_RE owner)) (recovery_error ("invalid GitHub owner: " +:+ owner)) ;;
  raise_if (negb (REPO_RE repository))
    (recovery_error ("invalid GitHub repository: " +:+ repository)) ;;
  Ok (lower owner +:+ "/" +:+ lower repository).

(** An optional text of one shape. *)
Definition optional_shape (shape : string → bool) (complaint : string)
    (v : value) (field : string) (maximum : Z) : result (option string) :=
  o ← optional_string v field maximum;
  raise_if (match o with Some s => negb (shape s) | None => false end)
    (recovery_error (field +:+ complaint)) ;;
  Ok o.

Definition normalize_branch (v : value) (field : string) : result (option string) :=
  optional_shape BRANCH_RE " has an invalid Git ref shape" v field 200.

Definition normalize_sha (v : value) (field : string) : result (option string) :=
  optional_shape SHA40_RE " must be a lowercase full Git SHA" v field 40.

Definition VISIBILITIES : list string := ["public"; "private"; "internal"].
Definition normalize_visibility (v : value) (field : string) : result (option string) :=
  optional_shape (λ s, mem_str s VISIBILITIES)
    " must be public, private, internal, or null" v field 16.

Definition validate_github_url (url field repo_identity : string)
  : result (string * option (string * string)) :=
  match HTTPS_GITHUB_RE url with
  | None => Raise (recovery_error (field +:+ " is not a canonical GitHub URL"))
  | Some m =>
      identity ← normalize_repo (url_owner m) (url_repo m);
      raise_if (negb (String.eqb identity repo_identity))
        (recovery_error (field +:+ " points outside " +:+ repo_identity)) ;;
      Ok (identity, url_object m)
  end.

(** ** Artifacts *)

Record artifact : Type := Artifact {
  kind : string;
  name : string;
  sha256 : option string;
  locator : option string;
  commit_sha : option string;
  paths : list string;
}.

Definition artifact_value (a : artifact) : value :=
  VDict [("kind", VStr (kind a)); ("name", VStr (name a)); ("sha256", opt_str (sha256 a));
         ("locator", opt_str (locator a)); ("commit_sha", opt_str (commit_sha a));
         ("paths", strs (paths a))].

Definition ARTIFACT_KEYS : list string :=
  ["kind"; "name"; "sha256"; "locator"; "commit_sha"; "paths"].
Definition ARTIFACT_KINDS : list string :=
  ["archive"; "file"; "git_bundle"; "draft"; "directory"].

(** [".." in Path(s).parts]: a component between slashes is two dots. *)
Fixpoint has_parent_part (component s : string) : bool :=
  match s with
  | EmptyString => String.eqb component ".."
  | String c s =>
      if one_of "/" c then String.eqb component ".." || has_parent_part EmptyString s
      else has_parent_part (component +:+ String c EmptyString) s
  end.
Definition unsafe_path (s : string) : bool :=
  starts_with s "/" || has_parent_part EmptyString s.

Definition normalize_path (field : string) (index : nat) (v : value) : result string :=
  let field := field +:+ ".paths[" +:+ str_nat index +:+ "]" in
  item ← expect_string v field 300;
  raise_if (unsafe_path item) (recovery_error (field +:+ " must be a safe relative path")) ;;
  Ok item.

Definition normalize_artifact (v : value) (field : string) : result (option artifact) :=
  if is_none v then Ok None else
  artifact ← strict_object v field ARTIFACT_KEYS;
  kind ← member_of (dict_get artifact "kind") (field +:+ ".kind") 32 ARTIFACT_KINDS;
  name ← expect_string (dict_get artifact "name") (field +:+ ".name") 200;
  sha256 ← optional_shape SHA256_RE " must be lowercase SHA-256"
    (dict_get artifact "sha256") (field +:+ ".sha256") 64;
  locator ← optional_string (dict_get artifact "locator") (field +:+ ".locator") 300;
  commit_sha ← normalize_sha (dict_get artifact "commit_sha") (field +:+ ".commit_sha");
  paths_raw ← expect_list (dict_get_or artifact "paths" (VList [])) (field +:+ ".paths") MAX_PATHS;
  paths ← map_enum 0 paths_raw (normalize_path field);
  Ok (Some (Artifact kind name sha256 locator commit_sha paths)).

(** ** What the readers accept *)

Lemma optional_string_Ok v f n o :
  optional_string v f n = Ok o ↔
  v = opt_str o ∧ match o with Some s => plain n s | None => True end.
Proof.
  unfold optional_string. destruct (is_none v) eqn:Hv.
  - destruct v; try discriminate Hv. split; [intros H; injection H as H; by subst o|].
    intros [H _]. by destruct o.
  - split.
    + destruct (expect_string v f n) as [s|] eqn:H; [|done].
      apply expect_string_Ok in H as [-> H]. intros Ho. injection Ho as Ho. by subst o.
    + destruct o as [s|]; intros [-> H]; [|done].
      assert (expect_string (VStr s) f n = Ok s) as Hs by by apply expect_string_Ok.
      simpl. by rewrite Hs.
Qed.

(** A bounded text of the shape. *)
Definition shaped (shape : string → bool) (n : Z) (o : option string) : Prop :=
  match o with Some s => plain n s ∧ shape s = true | None => True end.

Lemma optional_shape_Ok shape complaint v f n o :
  optional_shape shape complaint v f n = Ok o ↔ v = opt_str o ∧ shaped shape n o.
Proof.
  unfold optional_shape, shaped. rewrite bind_Ok. setoid_rewrite optional_string_Ok.
  setoid_rewrite bind_Ok. setoid_rewrite raise_if_Ok. split.
  - intros (o' & [-> Ho] & _ & Hs & [= <-]). split; [done|].
    destruct o'; [|done]. by apply negb_false_iff in Hs.
  - intros [-> Ho]. exists o. destruct o as [s|]; [destruct Ho as [? Hs]|];
      (split; [done|]); exists tt; [by rewrite Hs|done].
Qed.

Lemma normalize_branch_Ok v f o :
  normalize_branch v f = Ok o ↔ v = opt_str o ∧ shaped BRANCH_RE 200 o.
Proof. apply optional_shape_Ok. Qed.

Lemma normalize_sha_Ok v f o :
  normalize_sha v f = Ok o ↔ v = opt_str o ∧ shaped SHA40_RE 40 o.
Proof. apply optional_shape_Ok. Qed.

Lemma normalize_visibility_Ok v f o :
  normalize_visibility v f = Ok o ↔
  v = opt_str o ∧ shaped (λ s, mem_str s VISIBILITIES) 16 o.
Proof. apply optional_shape_Ok. Qed.

Lemma normalize_path_Ok f i v s :
  normalize_path f i v = Ok s ↔ v = VStr s ∧ plain 300 s ∧ unsafe_path s = false.
Proof.
  unfold normalize_path. rewrite bind_Ok. setoid_rewrite expect_string_Ok.
  setoid_rewrite bind_Ok. setoid_rewrite raise_if_Ok. split.
  - by intros (t & [-> ?] & _ & ? & [= <-]).
  - intros (-> & ? & ?). exists s. split; [done|]. by exists tt.
Qed.

#[global] Arguments optional_string : simpl never.
#[global] Arguments optional_shape : simpl never.
#[global] Arguments normalize_branch : simpl never.
#[global] Arguments normalize_sha : simpl never.
#[global] Arguments normalize_visibility : simpl never.
#[global] Arguments normalize_repo : simpl never.

(** [normalized] and [normalize] with the readers of this file. *)
Ltac git_normalized :=
  repeat (normalized;
    match goal with
    | H : expect_object _ _ = Ok _ |- _ => apply expect_object_Ok in H; try subst
    | H : expect_string _ _ _ = Ok _ |- _ => apply expect_string_Ok in H as [H ?]
    | H : optional_string _ _ _ = Ok _ |- _ => apply optional_string_Ok in H as [H ?]
    | H : optional_shape _ _ _ _ _ = Ok _ |- _ => apply optional_shape_Ok in H as [H ?]
    | H : normalize_branch _ _ = Ok _ |- _ => apply normalize_branch_Ok in H as [H ?]
    | H : normalize_sha _ _ = Ok _ |- _ => apply normalize_sha_Ok in H as [H ?]
    | H : normalize_visibility _ _ = Ok _ |- _ => apply normalize_visibility_Ok in H as [H ?]
    end); normalized.

Ltac git_step :=
  first
    [ read_key
    | rewrite (proj2 (expect_object_Ok _ _ _)) by reflexivity
    | rewrite (proj2 (expect_string_Ok _ _ _ _)) by (split; [reflexivity|assumption])
    | rewrite (proj2 (optional_string_Ok _ _ _ _)) by (split; [reflexivity|assumption])
    | rewrite (proj2 (optional_shape_Ok _ _ _ _ _ _)) by (split; [reflexivity|assumption])
    | rewrite (proj2 (normalize_branch_Ok _ _ _)) by (split; [reflexivity|assumption])
    | rewrite (proj2 (normalize_sha_Ok _ _ _)) by (split; [reflexivity|assumption])
    | rewrite (proj2 (normalize_visibility_Ok _ _ _)) by (split; [reflexivity|assumption])
    | normalize_step ].
Ltac git_normalize := repeat (cbn [mbind result_bind]; git_step); cbn [mbind result_bind].

Lemma artifact_again v f f' o :
  normalize_artifact v f = Ok o →
  normalize_artifact (match o with Some a => artifact_value a | None => VNone end) f' = Ok o.
Proof.
  unfold normalize_artifact. destruct (is_none v); [by intros [= <-]|]. intros H.
  git_normalized.
  match goal with H : expect_list _ _ _ = Ok _ |- _ => apply expect_list_Ok in H as [H ?] end.
  match goal with H : map_enum _ _ _ = Ok ?l |- _ =>
    rename l into ps; pose proof (map_enum_length _ _ _ _ H) as Hlen;
    assert (∀ j p, p ∈ ps → normalize_path f' j (VStr p) = Ok p) as Hp
      by (intros j p (? & ? & _ & [_ ?]%normalize_path_Ok)%(map_enum_elem _ _ _ _ _ H);
          by apply normalize_path_Ok) end.
  unfold artifact_value, strs. simpl paths. cbn [is_none kind name sha256 locator commit_sha]. rewrite strict_object_dict by done.
  git_normalize. rewrite expect_list_again by by rewrite Hlen. git_normalize.
  by rewrite map_enum_again.
Qed.

(** Either way the time is a printed instant. *)
Lemma now_utc_Ok clock arg now :
  representable clock = true → now_utc clock arg = Ok now →
  ∃ t, representable t = true ∧ now = isoformat t "Z".
Proof.
  intros Hc. destruct arg as [text|]; simpl; [apply parse_timestamp_Ok|].
  intros [= <-]. exists clock. split; [done|apply isoformat_to_z].
Qed.

(** ** How they fail *)

Lemma raises_optional_string v f n : raises_in recovery_errors (optional_string v f n).
Proof. unfold optional_string. solve_raises_in. Qed.
#[export] Hint Resolve raises_optional_string : raises.
Lemma raises_optional_shape shape c v f n :
  raises_in recovery_errors (optional_shape shape c v f n).
Proof. unfold optional_shape. solve_raises_in. Qed.
Lemma raises_normalize_repo o r : raises_in recovery_errors (normalize_repo o r).
Proof. unfold normalize_repo. solve_raises_in. Qed.
#[export] Hint Resolve raises_optional_shape raises_normalize_repo : raises.
Lemma raises_normalize_branch v f : raises_in recovery_errors (normalize_branch v f).
Proof. apply raises_optional_shape. Qed.
Lemma raises_normalize_sha v f : raises_in recovery_errors (normalize_sha v f).
Proof. apply raises_optional_shape. Qed.
Lemma raises_normalize_visibility v f : raises_in recovery_errors (normalize_visibility v f).
Proof. apply raises_optional_shape. Qed.
Lemma raises_validate_github_url u f i : raises_in recovery_errors (validate_github_url u f i).
Proof. unfold validate_github_url. solve_raises_in. Qed.
#[export] Hint Resolve raises_normalize_branch raises_normalize_sha raises_normalize_visibility
  raises_validate_github_url : raises.
Lemma raises_normalize_artifact v f : raises_in recovery_errors (normalize_artifact v f).
Proof.
  unfold normalize_artifact. solve_raises_in. apply raises_in_map_enum.
  intros. unfold normalize_path. solve_raises_in.
Qed.
#[export] Hint Resolve raises_normalize_artifact : raises.
