(* ===== verification/Observation.v ===== *)
(** * Source observations

    [src/tools/artifact_recovery/observation.py]: an untyped batch of
    observations is normalised into records, one per observed piece of work:
    where it was seen ([origin]), where it belongs ([target]), what was meant
    ([intent]), the local Git state, the collected GitHub evidence and the
    claims made about it.  The [*_value] functions are the dicts the code
    builds, keys in the code's order. *)
From S2P Require Import Prelude PyValue Sha256 Json DateTime Regex RecoveryCommon GitObjects.
From Stdlib Require Import Ascii.

Module Observation.
Open Scope Z_scope.

Definition OBSERVATION_SCHEMA : string := "artifact_recovery_observation.v1".

(** [f"{field}.{name}"] and [f"{field}[{index}]"] *)
Definition sub (field name : string) : string := field +:+ "." +:+ name.
Definition nth_of (field : string) (index : nat) : string :=
  field +:+ "[" +:+ str_nat index +:+ "]".

(** [obj.get(key, default)] read as a boolean. *)
Definition flag (obj : items) (key : string) (default : bool) (field : string) : result bool :=
  expect_bool (dict_get_or obj key (VBool default)) (sub field key).

(** ** Records *)

Record origin : Type := Origin {
  origin_source : string;
  origin_id : string;
  origin_id_kind : string;
  observed_at : string;
}.

Record target : Type := Target {
  target_owner : string;
  target_repository : string;
  target_identity : string;
  target_visibility : option string;
  artifact_kind : string;
  ownership_resolved : bool;
}.

Record intent : Type := Intent {
  artifact_expected : bool;
  base_branch : option string;
  intent_branch : option string;
  pull_request_required : bool;
  allow_repository_creation : bool;
}.

Record local_state : Type := LocalState {
  local_artifact : option artifact;
  git_repository : bool;
  remote_present : bool;
  local_branch : option string;
  local_branches : list string;
  head_sha : option string;
  dirty_paths : list string;
}.

Record branch_ref : Type := BranchRef { branch_name : string; branch_sha : string }.
Record commit_ref : Type := CommitRef { commit_ref_sha : string; commit_url : string }.
Record pull_request : Type := PullRequest {
  pr_number : Z;
  pr_url : string;
  pr_head : option string;
  pr_base : option string;
  pr_state : string;
  pr_draft : bool;
}.

Record remote_repository : Type := RemoteRepository {
  repo_exists : bool;
  repo_visibility : option string;
  default_branch : option string;
  repo_url : option string;
}.

Record remote_state : Type := RemoteState {
  collected : bool;
  remote_repo : remote_repository;
  remote_branches : list branch_ref;
  remote_commits : list commit_ref;
  pull_requests : list pull_request;
}.

Record claims : Type := Claims {
  claimed_repository_url : option string;
  claimed_commit : option string;
  claimed_branch : option string;
  claimed_pull_request_url : option string;
}.

Record item : Type := Item {
  item_origin : origin;
  item_target : target;
  item_intent : intent;
  item_local : local_state;
  item_remote : remote_state;
  item_claims : claims;
  note : option string;
}.

(** ** Their documents *)

Definition origin_value (o : origin) : value :=
  VDict [("source", VStr (origin_source o)); ("id", VStr (origin_id o));
         ("id_kind", VStr (origin_id_kind o)); ("observed_at", VStr (observed_at o))].

Definition target_value (t : target) : value :=
  VDict [("owner", VStr (target_owner t)); ("repository", VStr (target_repository t));
         ("identity", VStr (target_identity t));
         ("visibility", opt_str (target_visibility t));
         ("artifact_kind", VStr (artifact_kind t));
         ("ownership_resolved", VBool (ownership_resolved t))].

Definition intent_value (i : intent) : value :=
  VDict [("artifact_expected", VBool (artifact_expected i));
         ("base_branch", opt_str (base_branch i)); ("branch", opt_str (intent_branch i));
         ("pull_request_required", VBool (pull_request_required i));
         ("allow_repository_creation", VBool (allow_repository_creation i))].

Definition opt_artifact (o : option artifact) : value :=
  match o with Some a => artifact_value a | None => VNone end.

Definition local_value (l : local_state) : value :=
  VDict [("artifact", opt_artifact (local_artifact l));
         ("git_repository", VBool (git_repository l));
         ("remote_present", VBool (remote_present l));
         ("branch", opt_str (local_branch l)); ("branches", strs (local_branches l));
         ("head_sha", opt_str (head_sha l)); ("dirty_paths", strs (dirty_paths l))].

Definition branch_value (b : branch_ref) : value :=
  VDict [("name", VStr (branch_name b)); ("sha", VStr (branch_sha b))].
Definition commit_value (c : commit_ref) : value :=
  VDict [("sha", VStr (commit_ref_sha c)); ("url", VStr (commit_url c))].
Definition pull_request_value (p : pull_request) : value :=
  VDict [("number", VInt (pr_number p)); ("url", VStr (pr_url p));
         ("head", opt_str (pr_head p)); ("base", opt_str (pr_base p));
         ("state", VStr (pr_state p)); ("draft", VBool (pr_draft p))].
Definition repository_value (r : remote_repository) : value :=
  VDict [("exists", VBool (repo_exists r)); ("visibility", opt_str (repo_visibility r));
         ("default_branch", opt_str (default_branch r)); ("url", opt_str (repo_url r))].

Definition remote_value (r : remote_state) : value :=
  VDict [("collected", VBool (collected r)); ("repository", repository_value (remote_repo r));
         ("branches", VList (map branch_value (remote_branches r)));
         ("commits", VList (map commit_value (remote_commits r)));
         ("pull_requests", VList (map pull_request_value (pull_requests r)))].

Definition claims_value (c : claims) : value :=
  VDict [("repository_url", opt_str (claimed_repository_url c));
         ("commit_sha", opt_str (claimed_commit c)); ("branch", opt_str (claimed_branch c));
         ("pull_request_url", opt_str (claimed_pull_request_url c))].

Definition item_value (i : item) : value :=
  VDict [("origin", origin_value (item_origin i)); ("target", target_value (item_target i));
         ("intent", intent_value (item_intent i)); ("local", local_value (item_local i));
         ("remote", remote_value (item_remote i)); ("claims", claims_value (item_claims i));
         ("note", opt_str (note i))].

(** ** Normalisation *)

Definition SOURCES : list string :=
  ["chatgpt"; "claude"; "file_library"; "conversation"; "task"].
Definition ID_KINDS : list string :=
  ["chat_id"; "task_id"; "file_id"; "conversation_id"; "derived_fingerprint"].
Definition ARTIFACT_TARGETS : list string := ["code"; "documentation"; "none"].
Definition PR_STATES : list string := ["open"; "closed"; "merged"].

Definition normalize_origin (v : value) (field : string) : result origin :=
  origin ← expect_object v field;
  source ← member_of (dict_get origin "source") (sub field "source") 32 SOURCES;
  origin_id ← expect_string (dict_get origin "id") (sub field "id") 200;
  raise_if (negb (ORIGIN_ID_RE origin_id))
    (recovery_error (sub field "id" +:+ " has an invalid shape")) ;;
  origin_kind ← member_of (dict_get origin "id_kind") (sub field "id_kind") 32 ID_KINDS;
  observed_at ← parse_timestamp (dict_get origin "observed_at") (sub field "observed_at");
  Ok (Origin source origin_id origin_kind observed_at).

Definition normalize_target (v : value) (field : string) : result target :=
  target ← expect_object v field;
  owner ← expect_string (dict_get target "owner") (sub field "owner") 39;
  repository ← expect_string (dict_get target "repository") (sub field "repository") 100;
  identity ← normalize_repo owner repository;
  visibility ← normalize_visibility (dict_get target "visibility") (sub field "visibility");
  artifact_kind ← member_of (dict_get target "artifact_kind") (sub field "artifact_kind") 32
    ARTIFACT_TARGETS;
  ownership_resolved ← flag target "ownership_resolved" true field;
  Ok (Target owner repository identity visibility artifact_kind ownership_resolved).

Definition normalize_intent (v : value) (field artifact_kind : string) : result intent :=
  intent ← expect_object v field;
  artifact_expected ← flag intent "artifact_expected"
    (negb (String.eqb artifact_kind "none")) field;
  base_branch ← normalize_branch (dict_get_or intent "base_branch" (VStr "main"))
    (sub field "base_branch");
  branch ← normalize_branch (dict_get intent "branch") (sub field "branch");
  pull_request_required ← flag intent "pull_request_required" true field;
  allow_repository_creation ← flag intent "allow_repository_creation" true field;
  Ok (Intent artifact_expected base_branch branch pull_request_required
        allow_repository_creation).

(** The names in a list of optional ones; [normalize_branch] lets no empty
    text through, so [if value] only drops [None]. *)
Definition present (l : list (option string)) : list string := omap id l.

(** [local.get("head_sha") or (artifact or {}).get("commit_sha")] *)
Definition head_candidate (local : items) (artifact : option artifact) : value :=
  let head := dict_get local "head_sha" in
  if truthy head then head
  else match artifact with Some a => opt_str (commit_sha a) | None => VNone end.

Definition normalize_local (v : value) (field : string) : result local_state :=
  local ← expect_object v field;
  artifact ← normalize_artifact (dict_get local "artifact") (sub field "artifact");
  git_repository ← flag local "git_repository" false field;
  remote_present ← flag local "remote_present" false field;
  local_branch ← normalize_branch (dict_get local "branch") (sub field "branch");
  local_head ← normalize_sha (head_candidate local artifact) (sub field "head_sha");
  local_branches_raw ← expect_list (dict_get_or local "branches" (VList []))
    (sub field "branches") MAX_PATHS;
  local_branches ← map_enum 0 local_branches_raw
    (λ _ v, normalize_branch v (sub field "branches"));
  dirty_paths_raw ← expect_list (dict_get_or local "dirty_paths" (VList []))
    (sub field "dirty_paths") MAX_PATHS;
  dirty_paths ← map_enum 0 dirty_paths_raw
    (λ _ path, expect_string path (sub field "dirty_paths") 300);
  Ok (LocalState artifact git_repository remote_present local_branch
        (sorted_set (present local_branches)) local_head (sorted_set dirty_paths)).

(** An optional URL inside the repository. *)
Definition optional_url (v : value) (field identity : string) : result (option string) :=
  url ← optional_string v field 300;
  match url with
  | Some u => validate_github_url u field identity ;; Ok url
  | None => Ok url
  end.

Definition normalize_remote_repository (v : value) (field identity : string)
  : result remote_repository :=
  repo_remote ← expect_object v field;
  exists_ ← flag repo_remote "exists" false field;
  visibility ← normalize_visibility (dict_get repo_remote "visibility") (sub field "visibility");
  default_branch ← normalize_branch (dict_get repo_remote "default_branch")
    (sub field "default_branch");
  url ← optional_url (dict_get repo_remote "url") (sub field "url") identity;
  Ok (RemoteRepository exists_ visibility default_branch url).

Definition normalize_remote_branch (field : string) (index : nat) (v : value)
  : result branch_ref :=
  let field := nth_of field index in
  branch_obj ← expect_object v field;
  name ← normalize_branch (dict_get branch_obj "name") (sub field "name");
  sha ← normalize_sha (dict_get branch_obj "sha") (sub field "sha");
  match name, sha with
  | Some name, Some sha => Ok (BranchRef name sha)
  | _, _ => Raise (recovery_error (field +:+ " requires name and sha"))
  end.

(** Whether a URL's object is the [kind] named [value]. *)
Definition points_to (object : option (string * string)) (kind value : string) : bool :=
  match object with
  | Some (k, v) => String.eqb k kind && String.eqb v value
  | None => false
  end.

Definition normalize_remote_commit (identity field : string) (index : nat) (v : value)
  : result commit_ref :=
  let field := nth_of field index in
  commit_obj ← expect_object v field;
  sha ← normalize_sha (dict_get commit_obj "sha") (sub field "sha");
  url ← expect_string (dict_get commit_obj "url") (sub field "url") 300;
  match sha with
  | None => Raise (recovery_error (field +:+ " requires sha"))
  | Some sha =>
      '(_, object) ← validate_github_url url (sub field "url") identity;
      raise_if (negb (points_to object "commit" sha))
        (recovery_error (field +:+ " URL/SHA mismatch")) ;;
      Ok (CommitRef sha url)
  end.

Definition positive_int (v : value) (field : string) : result Z :=
  match v with
  | VInt z => raise_if (z <? 1) (recovery_error (field +:+ " must be positive")) ;; Ok z
  | _ => Raise (recovery_error (field +:+ " must be positive"))
  end.

Definition normalize_pull_request (identity field : string) (index : nat) (v : value)
  : result pull_request :=
  let field := nth_of field index in
  pr ← expect_object v field;
  number ← positive_int (dict_get pr "number") (sub field "number");
  url ← expect_string (dict_get pr "url") (sub field "url") 300;
  '(_, object) ← validate_github_url url (sub field "url") identity;
  raise_if (negb (points_to object "pull" (str_int number)))
    (recovery_error (field +:+ " URL/number mismatch")) ;;
  head ← normalize_branch (dict_get pr "head") (sub field "head");
  base ← normalize_branch (dict_get pr "base") (sub field "base");
  state ← member_of (dict_get pr "state") (sub field "state") 16 PR_STATES;
  draft ← flag pr "draft" false field;
  Ok (PullRequest number url head base state draft).

(** The orders of the three lists of evidence. *)
Definition branch_leb (a b : branch_ref) : bool :=
  str_pair_leb (branch_name a, branch_sha a) (branch_name b, branch_sha b).
Definition commit_leb (a b : commit_ref) : bool :=
  str_leb (commit_ref_sha a) (commit_ref_sha b).
Definition pull_request_leb (a b : pull_request) : bool := pr_number a <=? pr_number b.

(** A bounded list under [key], each element normalised. *)
Definition read_list {A} (obj : items) (key field : string)
    (read : string → nat → value → result A) : result (list A) :=
  raw ← expect_list (dict_get_or obj key (VList [])) (sub field key) MAX_PATHS;
  map_enum 0 raw (read (sub field key)).

Definition normalize_remote (v : value) (field identity : string) : result remote_state :=
  remote ← expect_object v field;
  collected ← flag remote "collected" false field;
  repository ← normalize_remote_repository (dict_get_or remote "repository" (VDict []))
    (sub field "repository") identity;
  branches ← read_list remote "branches" field normalize_remote_branch;
  commits ← read_list remote "commits" field (normalize_remote_commit identity);
  pull_requests ← read_list remote "pull_requests" field (normalize_pull_request identity);
  Ok (RemoteState collected repository (stable_sort branch_leb branches)
        (stable_sort commit_leb commits) (stable_sort pull_request_leb pull_requests)).

(** The claimed pull request has a number from 1.  The value is of ASCII
    characters, so [isdigit] means decimal digits. *)
Definition check_claimed_pr (object : option (string * string)) (field : string)
  : result unit :=
  let e := recovery_error (field +:+ " must point to a positive PR") in
  match object with
  | Some (kind, value) =>
      raise_if (negb (String.eqb kind "pull") || negb (nonempty_of is_digit value)) e ;;
      number ← int_of_text value;
      raise_if (number <? 1) e
  | None => Raise e
  end.

Definition normalize_claims (v : value) (field identity : string) : result claims :=
  claims ← expect_object v field;
  repository_url ← optional_url (dict_get claims "repository_url")
    (sub field "repository_url") identity;
  commit ← normalize_sha (dict_get claims "commit_sha") (sub field "commit_sha");
  branch ← normalize_branch (dict_get claims "branch") (sub field "branch");
  claimed_pr ← optional_string (dict_get claims "pull_request_url")
    (sub field "pull_request_url") 300;
  match claimed_pr with
  | Some url =>
      '(_, object) ← validate_github_url url (sub field "pull_request_url") identity;
      check_claimed_pr object (sub field "pull_request_url")
  | None => Ok tt
  end ;;
  Ok (Claims repository_url commit branch claimed_pr).

Definition ITEM_KEYS : list string :=
  ["origin"; "target"; "intent"; "local"; "remote"; "claims"; "note"].

Definition normalize_observation_item (index : nat) (raw : value) : result item :=
  let field := nth_of "items" index in
  item ← strict_object raw field ITEM_KEYS;
  origin ← normalize_origin (dict_get item "origin") (sub field "origin");
  target ← normalize_target (dict_get item "target") (sub field "target");
  let identity := target_identity target in
  intent ← normalize_intent (dict_get_or item "intent" (VDict [])) (sub field "intent")
    (artifact_kind target);
  local ← normalize_local (dict_get_or item "local" (VDict [])) (sub field "local");
  remote ← normalize_remote (dict_get_or item "remote" (VDict [])) (sub field "remote") identity;
  claims ← normalize_claims (dict_get_or item "claims" (VDict [])) (sub field "claims") identity;
  note ← optional_string (dict_get item "note") (sub field "note") 500;
  let normalized := Item origin target intent local remote claims note in
  validate_public_safety (item_value normalized) ;;
  Ok normalized.

(** ** Batches *)

Definition ledger_key (i : item) : string :=
  origin_source (item_origin i) +:+ ":" +:+ origin_id (item_origin i) +:+ "::"
  +:+ target_identity (item_target i).

Definition item_leb (a b : item) : bool := str_leb (ledger_key a) (ledger_key b).

Record batch : Type := Batch {
  batch_id : string;
  batch_complete : bool;
  next_cursor : option string;
  source_window : option string;
}.

Record observation : Type := MkObservation {
  generated_at : string;
  observed_batch : batch;
  observed_items : list item;
}.

Definition batch_value (b : batch) : value :=
  VDict [("id", VStr (batch_id b)); ("complete", VBool (batch_complete b));
         ("next_cursor", opt_str (next_cursor b));
         ("source_window", opt_str (source_window b))].

Definition observation_items (o : observation) : items :=
  [("schema_version", VStr OBSERVATION_SCHEMA); ("generated_at", VStr (generated_at o));
   ("batch", batch_value (observed_batch o));
   ("items", VList (map item_value (observed_items o)))].

Definition normalize_batch (v : value) : result batch :=
  batch ← expect_object v "batch";
  batch_id ← expect_string (dict_get batch "id") "batch.id" 100;
  complete ← flag batch "complete" false "batch";
  next_cursor ← optional_string (dict_get batch "next_cursor") "batch.next_cursor" 200;
  source_window ← optional_string (dict_get batch "source_window") "batch.source_window" 200;
  Ok (Batch batch_id complete next_cursor source_window).

Definition validate_observation (v : items) : result observation :=
  raise_if (negb (py_eq (dict_get v "schema_version") (VStr OBSERVATION_SCHEMA)))
    (recovery_error ("schema_version must be " +:+ OBSERVATION_SCHEMA)) ;;
  generated_at ← parse_timestamp (dict_get v "generated_at") "generated_at";
  batch ← normalize_batch (dict_get v "batch");
  raw_items ← expect_list (dict_get v "items") "items" MAX_ITEMS;
  normalized_items ← map_enum 0 raw_items normalize_observation_item;
  raise_if (negb (bool_decide (NoDup (map ledger_key normalized_items))))
    (recovery_error "items contain duplicate origin/owner/repository ledger keys") ;;
  let result := MkObservation generated_at batch (stable_sort item_leb normalized_items) in
  validate_public_safety (VDict (observation_items result)) ;;
  Ok result.

End Observation.
