(* ===== verification/ObservationTheorems.v ===== *)
(** * Source observations: results

    A normalised batch is a fixed point of the normaliser, so an observation
    can be stored, read back and merged without change; its items are ordered
    by distinct ledger keys and their evidence points into their own
    repository; and the exceptions the normaliser can raise. *)
From S2P Require Import Prelude PyValue Sha256 Json DateTime Regex RecoveryCommon GitObjects.
From S2P Require Import Observation.
From Stdlib Require Import Ascii.
From Stdlib Require Sorted.

Module ObservationTheorems.
Import Observation.
Open Scope Z_scope.

(** ** Renormalising what was normalised *)

Lemma flag_Ok obj key d f b : flag obj key d f = Ok b ↔ dict_get_or obj key (VBool d) = VBool b.
Proof. apply expect_bool_Ok. Qed.

Lemma url_again u f f' i r : validate_github_url u f i = Ok r → validate_github_url u f' i = Ok r.
Proof.
  unfold validate_github_url. destruct (HTTPS_GITHUB_RE u); [|done].
  intros (identity & -> & H)%bind_Ok. simpl. by destruct (String.eqb identity i).
Qed.

Lemma optional_url_Ok v f i o :
  optional_url v f i = Ok o → v = opt_str o ∧
  match o with
  | Some u => plain 300 u ∧ ∃ r, ∀ f', validate_github_url u f' i = Ok r
  | None => True
  end.
Proof.
  unfold optional_url. intros (o' & [-> Ho]%optional_string_Ok & H)%bind_Ok.
  destruct o' as [u|]; [|by injection H as <-].
  apply bind_Ok in H as (r & Hr & [= <-]). split; [done|]. split; [done|].
  exists r. intros f'. by eapply url_again.
Qed.

Lemma optional_url_again v f f' i o :
  optional_url v f i = Ok o → optional_url (opt_str o) f' i = Ok o.
Proof.
  intros [-> Ho]%optional_url_Ok. unfold optional_url.
  destruct o as [u|]; [destruct Ho as [Hu (r & Hr)]|]; git_normalize; [by rewrite Hr|done].
Qed.

#[local] Arguments flag : simpl never.
#[local] Opaque normalize_artifact validate_github_url optional_url.

(** [git_normalized] and [git_normalize] with this component's readers. *)
Ltac obs_normalized :=
  repeat (git_normalized;
    match goal with
    | H : flag _ _ _ _ = Ok _ |- _ => apply flag_Ok in H
    | H : parse_timestamp _ _ = Ok ?s |- _ =>
        let t := fresh "t" in let E := fresh "Hprinted" in
        apply parse_timestamp_Ok in H as (t & ? & E); subst s
    | H : expect_list _ _ _ = Ok _ |- _ => apply expect_list_Ok in H as [H ?]
    end); git_normalized.

Ltac obs_step :=
  first
    [ rewrite parse_timestamp_printed by assumption
    | rewrite (proj2 (flag_Ok _ _ _ _ _)) by reflexivity
    | git_step ].
Ltac obs_normalize := repeat (simpl; obs_step); simpl.

Lemma origin_again v f f' o : normalize_origin v f = Ok o → normalize_origin (origin_value o) f' = Ok o.
Proof. unfold normalize_origin. intros H. obs_normalized. unfold origin_value. by obs_normalize. Qed.

Lemma normalize_repo_Ok o r i :
  normalize_repo o r = Ok i ↔ OWNER_RE o = true ∧ REPO_RE r = true ∧ i = lower o +:+ "/" +:+ lower r.
Proof.
  unfold normalize_repo. destruct (OWNER_RE o), (REPO_RE r); simpl; split; try done.
  - by intros [= <-].
  - by intros (_ & _ & ->).
  - by intros (_ & ? & _).
  - by intros (? & _ & _).
  - by intros (? & _ & _).
Qed.

Lemma target_again v f f' t : normalize_target v f = Ok t → normalize_target (target_value t) f' = Ok t.
Proof.
  unfold normalize_target. intros H. obs_normalized.
  match goal with H : normalize_repo _ _ = Ok _ |- _ => rename H into Hrepo end.
  unfold target_value. obs_normalize. simpl. rewrite Hrepo. by obs_normalize.
Qed.

Lemma intent_again v f f' k k' i :
  normalize_intent v f k = Ok i → normalize_intent (intent_value i) f' k' = Ok i.
Proof. unfold normalize_intent. intros H. obs_normalized. unfold intent_value. by obs_normalize. Qed.

(** *** The local state *)

Lemma present_Some l : present (map Some l) = l.
Proof. induction l as [|x l IH]; [done|]. change (x :: present (map Some l) = x :: l). by rewrite IH. Qed.

Lemma present_elem l s : s ∈ present l ↔ Some s ∈ l.
Proof.
  unfold present. rewrite list_elem_of_omap. split; [|eauto].
  intros (o & Ho & Heq). unfold id in Heq. by subst.
Qed.

Lemma present_length l : (length (present l) <= length l)%nat.
Proof.
  induction l as [|[x|] l IH]; [done| |].
  - change (S (length (present l)) <= S (length l))%nat. lia.
  - change (length (present l) <= S (length l))%nat. lia.
Qed.

(** Bounded texts of a shape, read by a reader that accepts exactly those. *)
Lemma strs_again {A} (P : string → Prop) (to : string → A) (read : nat → value → result A) l :
  (∀ j s, P s → read j (VStr s) = Ok (to s)) → Forall P l →
  map_enum 0 (map VStr l) read = Ok (map to l).
Proof.
  intros Hread Hl. apply map_enum_Ok. intros j.
  induction Hl as [|s l Hs _ IH]; simpl; constructor; [by apply Hread|done].
Qed.

Lemma head_candidate_again d a h d' :
  head_candidate d a = opt_str h → shaped SHA40_RE 40 h →
  dict_get d' "head_sha" = opt_str h → head_candidate d' a = opt_str h.
Proof.
  intros Hd Hh Hd'. unfold head_candidate in *. rewrite Hd'.
  destruct h as [s|]; simpl.
  - destruct Hh as [[Hne _] _]. by destruct (String.eqb_spec s EmptyString).
  - destruct (truthy (dict_get d "head_sha")) eqn:Ht; [|done]. by rewrite Hd in Ht.
Qed.

Lemma map_enum_each {A B} (P : B → Prop) (f : nat → A → result B) i l ys :
  (∀ j x y, f j x = Ok y → P y) → map_enum i l f = Ok ys → Forall P ys.
Proof.
  intros HP H. apply Forall_forall. intros y Hy.
  destruct (map_enum_elem _ _ _ _ _ H Hy) as (j & x & _ & Hx). by eapply HP.
Qed.

Lemma branches_again bs f f' raw :
  map_enum 0 raw (λ _ v, normalize_branch v f) = Ok bs →
  let names := sorted_set (present bs) in
  map_enum 0 (map VStr names) (λ _ v, normalize_branch v f') = Ok (map Some names).
Proof.
  intros H names. apply (strs_again (λ s, shaped BRANCH_RE 200 (Some s))).
  - intros _ s Hs. by apply normalize_branch_Ok.
  - apply sorted_set_Forall, Forall_forall. intros s Hs%present_elem.
    eapply map_enum_elem in H as (j & x & _ & [_ Hx]%normalize_branch_Ok); done.
Qed.

Lemma dirty_paths_again ps f f' raw :
  map_enum 0 raw (λ _ v, expect_string v f 300) = Ok ps →
  map_enum 0 (map VStr (sorted_set ps)) (λ _ v, expect_string v f' 300) = Ok (sorted_set ps).
Proof.
  intros H. rewrite <- (map_id (sorted_set ps)) at 2. apply (strs_again (plain 300)).
  - intros _ s Hs. by apply expect_string_Ok.
  - apply sorted_set_Forall. eapply map_enum_each; [|exact H].
    by intros _ x s [_ Hs]%expect_string_Ok.
Qed.

Lemma opt_artifact_again v f f' o :
  normalize_artifact v f = Ok o → normalize_artifact (opt_artifact o) f' = Ok o.
Proof. apply artifact_again. Qed.

Lemma expect_strs l f n : Z.of_nat (length l) <= n → expect_list (strs l) f n = Ok (map VStr l).
Proof. apply expect_list_again. Qed.

Ltac sorted_set_bound :=
  match goal with |- Z.of_nat (length (sorted_set ?l)) <= _ =>
    pose proof (sorted_set_length l); lia end.

Lemma local_again v f f' l : normalize_local v f = Ok l → normalize_local (local_value l) f' = Ok l.
Proof.
  unfold normalize_local. intros H. obs_normalized.
  repeat match goal with
  | H : map_enum _ ?raw _ = Ok ?l |- _ =>
      lazymatch goal with _ : length l = length raw |- _ => fail | _ => idtac end;
      pose proof (map_enum_length _ _ _ _ H)
  end.
  match goal with
  | Ha : normalize_artifact _ _ = Ok _, Hh : head_candidate _ _ = _,
    Hb : map_enum _ _ _ = Ok ?bs, Hd : map_enum _ _ _ = Ok ?ps |- context [present ?bs] =>
      apply (opt_artifact_again _ _ (sub f' "artifact")) in Ha;
      apply (branches_again _ _ (sub f' "branches")) in Hb;
      apply (dirty_paths_again _ _ (sub f' "dirty_paths")) in Hd;
      pose proof (present_length bs)
  end.
  unfold local_value. obs_normalize.
  match goal with Ha : normalize_artifact _ _ = _ |- _ => rewrite Ha end. obs_normalize.
  rewrite (proj2 (normalize_sha_Ok _ _ _))
    by (split; [eapply head_candidate_again; [eassumption..|reflexivity]|assumption]).
  obs_normalize. rewrite !expect_strs by sorted_set_bound.
  obs_normalize.
  match goal with Hb : map_enum _ _ _ = Ok (map Some _) |- _ => rewrite Hb end. obs_normalize.
  match goal with Hd : map_enum _ _ _ = Ok (sorted_set _) |- _ => rewrite Hd end.
  simpl. by rewrite present_Some, !sorted_set_idem.
Qed.

(** *** The evidence *)

Lemma remote_repository_again v f f' i r :
  normalize_remote_repository v f i = Ok r →
  normalize_remote_repository (repository_value r) f' i = Ok r.
Proof.
  unfold normalize_remote_repository. intros H. obs_normalized.
  match goal with H : optional_url _ _ _ = _ |- _ =>
    apply (optional_url_again _ _ (sub f' "url")) in H; rename H into Hurl end.
  unfold repository_value. obs_normalize. simpl. rewrite Hurl. done.
Qed.

Lemma remote_branch_again v f f' j k b :
  normalize_remote_branch f j v = Ok b → normalize_remote_branch f' k (branch_value b) = Ok b.
Proof.
  unfold normalize_remote_branch. intros H. obs_normalized.
  repeat case_match; simplify_eq. unfold branch_value. simpl.
  rewrite (proj2 (normalize_branch_Ok _ _ (Some _))) by (split; [reflexivity|assumption]).
  simpl. rewrite (proj2 (normalize_sha_Ok _ _ (Some _))) by (split; [reflexivity|assumption]).
  done.
Qed.

Lemma remote_commit_again v i f f' j k c :
  normalize_remote_commit i f j v = Ok c →
  normalize_remote_commit i f' k (commit_value c) = Ok c.
Proof.
  unfold normalize_remote_commit. intros H. obs_normalized.
  case_match; [|discriminate]. obs_normalized.
  match goal with H : validate_github_url _ _ _ = _ |- _ =>
    eapply (url_again _ _ (sub (nth_of f' k) "url")) in H; rename H into Hurl end.
  unfold commit_value. simpl.
  rewrite (proj2 (normalize_sha_Ok _ _ (Some _))) by (split; [reflexivity|assumption]).
  obs_normalize. rewrite Hurl. by obs_normalize.
Qed.

#[local] Arguments positive_int : simpl never.
Lemma positive_int_Ok v f z : positive_int v f = Ok z ↔ v = VInt z ∧ 1 <= z.
Proof.
  unfold positive_int. destruct v; try (split; [done|by intros [? _]]).
  rewrite bind_Ok. setoid_rewrite raise_if_Ok. setoid_rewrite Z.ltb_ge. split.
  - by intros (_ & ? & [= <-]).
  - intros ([= <-] & ?). by exists tt.
Qed.

Lemma pull_request_again v i f f' j k p :
  normalize_pull_request i f j v = Ok p →
  normalize_pull_request i f' k (pull_request_value p) = Ok p.
Proof.
  unfold normalize_pull_request. intros H. obs_normalized.
  match goal with H : positive_int _ _ = _ |- _ =>
    apply positive_int_Ok in H as [? ?] end.
  match goal with H : validate_github_url _ _ _ = _ |- _ =>
    eapply (url_again _ _ (sub (nth_of f' k) "url")) in H; rename H into Hurl end.
  unfold pull_request_value. obs_normalize. simpl.
  rewrite (proj2 (positive_int_Ok _ _ _)) by (split; [reflexivity|assumption]).
  obs_normalize. rewrite Hurl. by obs_normalize.
Qed.

Lemma read_list_again {A} obj obj' key f f' (read read' : string → nat → value → result A)
    (to : A → value) leb l :
  read_list obj key f read = Ok l →
  (∀ j x k v, read (sub f key) k v = Ok x → read' (sub f' key) j (to x) = Ok x) →
  dict_get_or obj' key (VList []) = VList (map to (stable_sort leb l)) →
  read_list obj' key f' read' = Ok (stable_sort leb l).
Proof.
  unfold read_list. intros (raw & [_ Hn]%expect_list_Ok & Hl)%bind_Ok Hread Hobj. rewrite Hobj.
  rewrite expect_list_again.
  - simpl. apply map_enum_again. intros j x Hx%stable_sort_elem.
    destruct (map_enum_elem _ _ _ _ _ Hl Hx) as (k & v & _ & Hv). by eapply Hread.
  - by rewrite stable_sort_Permutation, (map_enum_length _ _ _ _ Hl).
Qed.

Lemma branch_leb_total a b : branch_leb a b = true ∨ branch_leb b a = true.
Proof. apply str_pair_leb_total. Qed.
Lemma commit_leb_total a b : commit_leb a b = true ∨ commit_leb b a = true.
Proof. apply str_leb_total. Qed.
Lemma pull_request_leb_total a b : pull_request_leb a b = true ∨ pull_request_leb b a = true.
Proof. apply Z_leb_total. Qed.
Lemma item_leb_total a b : item_leb a b = true ∨ item_leb b a = true.
Proof. apply str_leb_total. Qed.

#[local] Opaque normalize_remote_repository.

Lemma remote_again v f f' i r :
  normalize_remote v f i = Ok r → normalize_remote (remote_value r) f' i = Ok r.
Proof.
  unfold normalize_remote. intros H. obs_normalized.
  match goal with
  | Hr : normalize_remote_repository _ _ _ = _, Hb : read_list _ "branches" _ _ = _,
    Hc : read_list _ "commits" _ _ = _, Hp : read_list _ "pull_requests" _ _ = _ |- _ =>
      apply (remote_repository_again _ _ (sub f' "repository")) in Hr; rename Hr into Hrepo;
      rename Hb into Hbranches, Hc into Hcommits, Hp into Hprs
  end.
  unfold remote_value. obs_normalize. simpl. rewrite Hrepo. cbn [mbind result_bind].
  erewrite (read_list_again _ _ _ _ f' _ _ branch_value branch_leb _ Hbranches);
    [|by intros; eapply remote_branch_again|reflexivity].
  cbn [mbind result_bind].
  erewrite (read_list_again _ _ _ _ f' _ _ commit_value commit_leb _ Hcommits);
    [|by intros; eapply remote_commit_again|reflexivity].
  cbn [mbind result_bind].
  erewrite (read_list_again _ _ _ _ f' _ _ pull_request_value pull_request_leb _ Hprs);
    [|by intros; eapply pull_request_again|reflexivity].
  cbn [mbind result_bind].
  by rewrite (stable_sort_idem _ branch_leb_total), (stable_sort_idem _ commit_leb_total),
    (stable_sort_idem _ pull_request_leb_total).
Qed.

Lemma check_claimed_pr_again o f f' u : check_claimed_pr o f = Ok u → check_claimed_pr o f' = Ok u.
Proof.
  unfold check_claimed_pr. destruct o as [[k s]|]; [|done].
  destruct (_ || _); simpl; [done|]. destruct (int_of_text s) as [z|]; simpl; [|done].
  by destruct (z <? 1).
Qed.

Lemma claims_again v f f' i c :
  normalize_claims v f i = Ok c → normalize_claims (claims_value c) f' i = Ok c.
Proof.
  unfold normalize_claims. intros H. obs_normalized.
  match goal with H : optional_url _ _ _ = _ |- _ =>
    apply (optional_url_again _ _ (sub f' "repository_url")) in H; rename H into Hurl end.
  unfold claims_value. obs_normalize. simpl. rewrite Hurl. obs_normalize.
  match goal with H : match ?o with Some _ => _ | None => _ end = Ok _ |- _ =>
    destruct o as [u|]; [|done] end.
  obs_normalized.
  match goal with H : validate_github_url _ _ _ = _, H' : check_claimed_pr _ _ = _ |- _ =>
    eapply (url_again _ _ (sub f' "pull_request_url")) in H; rewrite H; simpl;
    eapply (check_claimed_pr_again _ _ (sub f' "pull_request_url")) in H'; by rewrite H' end.
Qed.

#[local] Opaque normalize_origin normalize_target normalize_intent normalize_local
  normalize_remote normalize_claims.
#[local] Arguments nth_of : simpl never.

Lemma item_again j k v x :
  normalize_observation_item j v = Ok x → normalize_observation_item k (item_value x) = Ok x.
Proof.
  unfold normalize_observation_item. intros H. obs_normalized.
  set (f' := nth_of "items" k).
  match goal with
  | Ho : normalize_origin _ _ = _, Ht : normalize_target _ _ = _,
    Hi : normalize_intent _ _ _ = _, Hl : normalize_local _ _ = _,
    Hr : normalize_remote _ _ _ = _, Hc : normalize_claims _ _ _ = _,
    Hs : validate_public_safety _ = _ |- _ =>
      apply (origin_again _ _ (sub f' "origin")) in Ho; rename Ho into Horigin;
      apply (target_again _ _ (sub f' "target")) in Ht; rename Ht into Htarget;
      eapply (intent_again _ _ (sub f' "intent")) in Hi; rename Hi into Hintent;
      apply (local_again _ _ (sub f' "local")) in Hl; rename Hl into Hlocal;
      apply (remote_again _ _ (sub f' "remote")) in Hr; rename Hr into Hremote;
      apply (claims_again _ _ (sub f' "claims")) in Hc; rename Hc into Hclaims;
      rename Hs into Hsafe
  end.
  unfold item_value. rewrite strict_object_dict by done.
  cbn [mbind result_bind item_origin item_target item_intent item_local item_remote
       item_claims note].
  repeat read_key. rewrite Horigin. cbn [mbind result_bind].
  rewrite Htarget. cbn [mbind result_bind]. rewrite Hintent. cbn [mbind result_bind].
  rewrite Hlocal. cbn [mbind result_bind]. rewrite Hremote. cbn [mbind result_bind].
  rewrite Hclaims. obs_normalize. unfold item_value in Hsafe. simpl in Hsafe.
  by rewrite Hsafe.
Qed.

Lemma batch_again v b : normalize_batch v = Ok b → normalize_batch (batch_value b) = Ok b.
Proof. unfold normalize_batch. intros H. obs_normalized. unfold batch_value. by obs_normalize. Qed.

(** ** Batches *)

(** What an accepted batch document is. *)
Record accepted (d : items) (o : observation) (raws : list value) (l : list item) : Prop := {
  accepted_schema : py_eq (dict_get d "schema_version") (VStr OBSERVATION_SCHEMA) = true;
  accepted_time : parse_timestamp (dict_get d "generated_at") "generated_at" = Ok (generated_at o);
  accepted_batch : normalize_batch (dict_get d "batch") = Ok (observed_batch o);
  accepted_raw : dict_get d "items" = VList raws ∧ Z.of_nat (length raws) <= MAX_ITEMS;
  accepted_each : map_enum 0 raws normalize_observation_item = Ok l;
  accepted_keys : NoDup (map ledger_key l);
  accepted_order : observed_items o = stable_sort item_leb l;
  accepted_safe : validate_public_safety (VDict (observation_items o)) = Ok tt;
}.

#[local] Opaque normalize_batch normalize_observation_item.

Lemma validate_Ok d o :
  validate_observation d = Ok o ↔ ∃ raws l, accepted d o raws l.
Proof.
  unfold validate_observation. split.
  - intros H. repeat inv_step. subst.
    repeat match goal with
    | H : negb _ = false |- _ => apply negb_false_iff in H
    | H : bool_decide _ = true |- _ => apply bool_decide_eq_true in H
    | H : expect_list _ _ _ = Ok _ |- _ => apply expect_list_Ok in H as [H ?]
    end.
    eexists _, _. split; simpl; eauto.
  - intros (raws & l & [Hs Ht Hb [Hr Hn] He Hk Ho Hsafe]). destruct o as [gen b its].
    simpl in *. rewrite Hs. simpl.
    rewrite Ht. simpl. rewrite Hb. simpl. rewrite Hr.
    rewrite (proj2 (expect_list_Ok _ _ _ raws)) by done. simpl. rewrite He. simpl.
    rewrite bool_decide_eq_true_2 by done. simpl.
    rewrite <- Ho, Hsafe. done.
Qed.

(** A normalised batch is a fixed point: read back from its own document,
    [validate_observation] accepts it and returns the same batch.  The texts
    stay canonical, the sets of branches and paths sorted and free of
    repetitions, the lists of evidence in their order (also among entries with
    equal keys), and the default of every omitted field is the value the
    document states for it. *)
Theorem observation_replays d o :
  validate_observation d = Ok o → validate_observation (observation_items o) = Ok o.
Proof.
  intros (raws & l & [_ Ht Hb [_ Hn] He Hk Ho Hsafe])%validate_Ok.
  apply validate_Ok. exists (map item_value (observed_items o)), (observed_items o).
  apply parse_timestamp_Ok in Ht as (t & Htr & Hgen).
  split; simpl; try done.
  - change (dict_get (observation_items o) "generated_at") with (VStr (generated_at o)).
    rewrite Hgen. by apply parse_timestamp_printed.
  - by eapply batch_again.
  - split; [done|]. by rewrite length_map, Ho, stable_sort_Permutation, (map_enum_length _ _ _ _ He).
  - apply map_enum_again. intros j x Hx. rewrite Ho in Hx. apply stable_sort_elem in Hx.
    destruct (map_enum_elem _ _ _ _ _ He Hx) as (k & v & _ & Hv). by eapply item_again.
  - rewrite Ho. by rewrite (Permutation_map _ (stable_sort_Permutation _ _)).
  - rewrite Ho. by rewrite (stable_sort_idem _ item_leb_total).
Qed.

(** ** Evidence stays in its repository *)

(** The URL names an object (or the root) of the repository [identity]. *)
Definition url_names (url identity : string) (object : option (string * string)) : Prop :=
  ∃ m, HTTPS_GITHUB_RE url = Some m ∧
    lower (url_owner m) +:+ "/" +:+ lower (url_repo m) = identity ∧ url_object m = object.

#[local] Transparent validate_github_url optional_url normalize_observation_item normalize_target
  normalize_remote normalize_claims normalize_remote_repository normalize_local normalize_origin
  normalize_intent.

Lemma validate_url_Ok u f i identity object :
  validate_github_url u f i = Ok (identity, object) → url_names u i object.
Proof.
  unfold validate_github_url. destruct (HTTPS_GITHUB_RE u) as [m|] eqn:Hm; [|done].
  intros (i' & (_ & _ & ->)%normalize_repo_Ok & H)%bind_Ok.
  apply bind_Ok in H as ([] & Hi%raise_if_Ok%negb_false_iff%String.eqb_eq & [= <- <-]).
  by exists m.
Qed.

Lemma optional_url_names v f i o u :
  optional_url v f i = Ok o → o = Some u → ∃ object, url_names u i object.
Proof.
  intros [_ Ho]%optional_url_Ok ->. destruct Ho as (_ & [identity object] & Hr).
  exists object. by apply (validate_url_Ok _ f _ identity).
Qed.

Lemma points_to_true o k s : points_to o k s = true ↔ o = Some (k, s).
Proof.
  destruct o as [[k' s']|]; simpl; [|done]. rewrite andb_true_iff, !String.eqb_eq. naive_solver.
Qed.

(** What is known of an accepted item's evidence and claims. *)
Record bound_evidence (i : item) : Prop := {
  bound_identity : target_identity (item_target i) =
    lower (target_owner (item_target i)) +:+ "/" +:+ lower (target_repository (item_target i));
  bound_repository u : repo_url (remote_repo (item_remote i)) = Some u →
    ∃ object, url_names u (target_identity (item_target i)) object;
  bound_commits c : c ∈ remote_commits (item_remote i) →
    url_names (commit_url c) (target_identity (item_target i))
      (Some ("commit", commit_ref_sha c)) ∧ SHA40_RE (commit_ref_sha c) = true;
  bound_pull_requests p : p ∈ pull_requests (item_remote i) →
    url_names (pr_url p) (target_identity (item_target i))
      (Some ("pull", str_int (pr_number p))) ∧ 1 <= pr_number p;
  bound_claimed_repository u : claimed_repository_url (item_claims i) = Some u →
    ∃ object, url_names u (target_identity (item_target i)) object;
  bound_claimed_pull_request u : claimed_pull_request_url (item_claims i) = Some u →
    ∃ text n, url_names u (target_identity (item_target i)) (Some ("pull", text)) ∧
      int_of_text text = Ok n ∧ 1 <= n;
}.

Lemma read_list_elem {A} obj key f (read : string → nat → value → result A) leb l x :
  read_list obj key f read = Ok l → x ∈ stable_sort leb l →
  ∃ j v, read (sub f key) j v = Ok x.
Proof.
  unfold read_list. intros (raw & _ & Hl)%bind_Ok Hx%stable_sort_elem.
  destruct (map_enum_elem _ _ _ _ _ Hl Hx) as (j & v & _ & Hv). eauto.
Qed.

Lemma normalize_remote_commit_Ok i f j v c :
  normalize_remote_commit i f j v = Ok c →
  url_names (commit_url c) i (Some ("commit", commit_ref_sha c)) ∧
  SHA40_RE (commit_ref_sha c) = true.
Proof.
  unfold normalize_remote_commit. intros H. do 3 inv_step. case_match; [|done].
  apply bind_Ok in H as ([identity object] & Hurl & H).
  apply bind_Ok in H as ([] & Hp%raise_if_Ok%negb_false_iff%points_to_true & [= <-]).
  subst object. simpl. split; [by eapply validate_url_Ok|].
  match goal with H : normalize_sha _ _ = _ |- _ => by apply normalize_sha_Ok in H as [_ [_ ?]] end.
Qed.

Lemma normalize_pull_request_Ok i f j v p :
  normalize_pull_request i f j v = Ok p →
  url_names (pr_url p) i (Some ("pull", str_int (pr_number p))) ∧ 1 <= pr_number p.
Proof.
  unfold normalize_pull_request. intros H. do 3 inv_step.
  apply bind_Ok in H as ([identity object] & Hurl & H).
  apply bind_Ok in H as ([] & Hp%raise_if_Ok%negb_false_iff%points_to_true & H).
  repeat inv_step. subst. simpl. split; [by eapply validate_url_Ok|].
  match goal with H : positive_int _ _ = _ |- _ => by apply positive_int_Ok in H as [_ ?] end.
Qed.

Lemma normalize_remote_bound v f i r :
  normalize_remote v f i = Ok r →
  (∀ u, repo_url (remote_repo r) = Some u → ∃ object, url_names u i object) ∧
  (∀ c, c ∈ remote_commits r →
    url_names (commit_url c) i (Some ("commit", commit_ref_sha c)) ∧
    SHA40_RE (commit_ref_sha c) = true) ∧
  (∀ p, p ∈ pull_requests r →
    url_names (pr_url p) i (Some ("pull", str_int (pr_number p))) ∧ 1 <= pr_number p).
Proof.
  unfold normalize_remote. intros H. repeat inv_step. subst. simpl. split; [|split].
  - unfold normalize_remote_repository in *. repeat inv_step. subst. simpl.
    intros u. by eapply optional_url_names.
  - intros c Hc. eapply read_list_elem in Hc as (j & w & Hw); [|eassumption].
    by eapply normalize_remote_commit_Ok.
  - intros p Hp. eapply read_list_elem in Hp as (j & w & Hw); [|eassumption].
    by eapply normalize_pull_request_Ok.
Qed.

Lemma check_claimed_pr_Ok o f u :
  check_claimed_pr o f = Ok u → ∃ text n, o = Some ("pull", text) ∧ int_of_text text = Ok n ∧ 1 <= n.
Proof.
  unfold check_claimed_pr. destruct o as [[k s]|]; [|done].
  intros ([] & Hk%raise_if_Ok & (n & Hn & H%raise_if_Ok%Z.ltb_ge)%bind_Ok)%bind_Ok.
  apply orb_false_iff in Hk as [Hk%negb_false_iff%String.eqb_eq _]. subst k.
  exists s, n. split; [done|]. split; [done|lia].
Qed.

Lemma normalize_claims_bound v f i c :
  normalize_claims v f i = Ok c →
  (∀ u, claimed_repository_url c = Some u → ∃ object, url_names u i object) ∧
  (∀ u, claimed_pull_request_url c = Some u →
    ∃ text n, url_names u i (Some ("pull", text)) ∧ int_of_text text = Ok n ∧ 1 <= n).
Proof.
  unfold normalize_claims. intros H. repeat inv_step. subst. simpl. split.
  - intros u. by eapply optional_url_names.
  - intros u ->.
    match goal with H : (let '(_, _) := _ in _) ≫= _ = Ok _ |- _ => idtac | H : _ ≫= _ = Ok _ |- _ =>
      apply bind_Ok in H as ([identity object] & Hurl & H) end.
    match goal with H : check_claimed_pr _ _ = _ |- _ =>
      apply check_claimed_pr_Ok in H as (text & n & -> & ? & ?) end.
    exists text, n. split; [by eapply validate_url_Ok|done].
Qed.

Lemma item_bound j v i : normalize_observation_item j v = Ok i → bound_evidence i.
Proof.
  unfold normalize_observation_item. intros H. repeat inv_step. subst.
  match goal with H : normalize_remote _ _ _ = _ |- _ =>
    apply normalize_remote_bound in H as (? & ? & ?) end.
  match goal with H : normalize_claims _ _ _ = _ |- _ =>
    apply normalize_claims_bound in H as (? & ?) end.
  split; simpl; try done.
  match goal with H : normalize_target _ _ = _ |- _ => unfold normalize_target in H end.
  repeat inv_step. subst. simpl.
  match goal with H : normalize_repo _ _ = _ |- _ => by apply normalize_repo_Ok in H as (_ & _ & ->) end.
Qed.

(** Evidence and claims of an accepted batch stay inside the repository of
    their item: the repository, commit, pull-request and claimed URLs are all
    canonical GitHub URLs whose owner and name, in lower case, are the item's
    identity; a commit's URL names exactly its full SHA and a pull request's
    its number, from 1; a claimed pull request has a number from 1.  The items
    have distinct ledger keys and are ordered by them. *)
Theorem evidence_stays_in_repository d o :
  validate_observation d = Ok o →
  (∀ i, i ∈ observed_items o → bound_evidence i) ∧
  NoDup (map ledger_key (observed_items o)) ∧
  Sorted.Sorted (in_order item_leb) (observed_items o).
Proof.
  intros (raws & l & [_ _ _ _ He Hk Ho _])%validate_Ok. rewrite Ho. split; [|split].
  - intros i Hi%stable_sort_elem.
    destruct (map_enum_elem _ _ _ _ _ He Hi) as (j & v & _ & Hv). by eapply item_bound.
  - by rewrite (Permutation_map _ (stable_sort_Permutation _ _)).
  - apply (stable_sort_Sorted _ item_leb_total).
Qed.

(** ** A batch of two items *)

Definition example_sha : string := "3eb8efba49bd4f932b7cc673c66b3788e3f458c1".
Definition example_origin (id : string) : value :=
  VDict [("source", VStr "chatgpt"); ("id", VStr id); ("id_kind", VStr "chat_id");
         ("observed_at", VStr "2026-08-07T14:15:00-05:00")].
Definition example_target (repository : string) : value :=
  VDict [("owner", VStr "HypeSiege"); ("repository", VStr repository);
         ("visibility", VStr "public"); ("artifact_kind", VStr "code")].

(** A delivered branch with its pull request; a repository that is missing. *)
Definition delivered_item : value :=
  VDict [("origin", example_origin "chat-2"); ("target", example_target "Scheduler.rs");
    ("intent", VDict [("branch", VStr "feature/recover")]);
    ("local", VDict [("artifact", VDict [("kind", VStr "archive"); ("name", VStr "scheduler.zip");
         ("commit_sha", VStr example_sha); ("paths", VList [VStr "src/main.rs"])]);
       ("git_repository", VBool true); ("remote_present", VBool true);
       ("branches", VList [VStr "main"; VStr "feature/recover"; VStr "main"])]);
    ("remote", VDict [("collected", VBool true);
       ("repository", VDict [("exists", VBool true); ("default_branch", VStr "main");
          ("url", VStr "https://github.com/HypeSiege/Scheduler.rs")]);
       ("branches", VList [VDict [("name", VStr "feature/recover"); ("sha", VStr example_sha)]]);
       ("commits", VList [VDict [("sha", VStr example_sha);
          ("url", VStr ("https://github.com/hypesiege/scheduler.rs/commit/" +:+ example_sha))]]);
       ("pull_requests", VList [VDict [("number", VInt 33);
          ("url", VStr "https://github.com/hypesiege/scheduler.rs/pull/33");
          ("head", VStr "feature/recover"); ("base", VStr "main"); ("state", VStr "open")]])]);
    ("claims", VDict [("pull_request_url",
       VStr "https://github.com/hypesiege/scheduler.rs/pull/33")])].
Definition missing_item : value :=
  VDict [("origin", example_origin "chat-1"); ("target", example_target "worker.rs");
    ("remote", VDict [("collected", VBool true)]);
    ("note", VStr "repository was never created")].

Definition example_observation : items :=
  [("schema_version", VStr OBSERVATION_SCHEMA);
   ("generated_at", VStr "2026-08-07T20:15:00Z");
   ("batch", VDict [("id", VStr "wave-1"); ("complete", VBool true)]);
   ("items", VList [delivered_item; missing_item])].

Definition no_observation : observation :=
  MkObservation EmptyString (Batch EmptyString false None None) [].
Definition observed_or_empty (r : result observation) : observation :=
  match r with Ok o => o | Raise _ => no_observation end.
Definition example_normalized : observation :=
  observed_or_empty (validate_observation example_observation).

Lemma example_observed : validate_observation example_observation = Ok example_normalized.
Proof. vm_compute. reflexivity. Qed.

Lemma observation_replays_witness :
  validate_observation (observation_items example_normalized) = Ok example_normalized.
Proof. exact (observation_replays _ _ example_observed). Defined.

Lemma evidence_stays_in_repository_witness :
  (∀ i, i ∈ observed_items example_normalized → bound_evidence i) ∧
  NoDup (map ledger_key (observed_items example_normalized)) ∧
  Sorted.Sorted (in_order item_leb) (observed_items example_normalized).
Proof. exact (evidence_stays_in_repository _ _ example_observed). Defined.

Example example_keys : map ledger_key (observed_items example_normalized) =
  ["chatgpt:chat-1::hypesiege/worker.rs"; "chatgpt:chat-2::hypesiege/scheduler.rs"].
Proof. vm_compute. reflexivity. Qed.

(** A URL of another repository is refused, whatever its spelling. *)
Example foreign_url :
  validate_github_url "https://github.com/HypeSiege/other/commit/abc" "u" "hypesiege/worker.rs" =
    Raise (recovery_error "u points outside hypesiege/worker.rs").
Proof. vm_compute. reflexivity. Qed.

End ObservationTheorems.
