(* ===== verification/Ledger.v ===== *)
(** * The recovery ledger

    [src/tools/artifact_recovery/ledger.py]: each observed item is classified
    from its evidence, the entry of its ledger key is created or updated, and
    the entries whose next action is the command line's become its queue.

    A ledger is a typed record here and [ledger_items] is its document: the
    model covers the ledgers this module writes, not a damaged one whose
    entries lack a field (those make the code raise [KeyError] or
    [TypeError]).  [validate_ledger] itself is modelled on any document.
    Writing the files ([atomic_write_json]) is left out. *)
From S2P Require Import Prelude PyValue Sha256 Json DateTime Regex RecoveryCommon GitObjects.
From S2P Require Import Observation.
From Stdlib Require Import Ascii.

Module Ledger.
Import Observation.
Open Scope Z_scope.

Definition LEDGER_SCHEMA : string := "artifact_recovery_ledger.v1".
Definition CLI_QUEUE_SCHEMA : string := "artifact_recovery_cli_queue.v1".
Definition SUMMARY_SCHEMA : string := "artifact_recovery_summary.v1".

(** ** Classification *)

Definition FINDING_ORDER : list string :=
  ["ownership_ambiguous"; "remote_evidence_incomplete"; "repository_missing";
   "artifact_only"; "repository_has_no_remote"; "changes_uncommitted"; "commits_unpushed";
   "branch_not_created"; "branch_not_published"; "branch_without_pull_request";
   "claimed_repository_unverified"; "claimed_commit_unverified";
   "claimed_branch_unverified"; "claimed_pull_request_unverified"].

(** The position in [FINDING_ORDER]; only findings of the table are ranked. *)
Fixpoint index_of (s : string) (l : list string) : nat :=
  match l with
  | [] => O
  | t :: l => if String.eqb s t then O else S (index_of s l)
  end.
Definition FINDING_RANK (s : string) : nat := index_of s FINDING_ORDER.
Definition rank_leb (a b : string) : bool := (FINDING_RANK a <=? FINDING_RANK b)%nat.

Definition claimed_pr_number (url : option string) : result (option Z) :=
  match url with
  | None => Ok None
  | Some url =>
      match HTTPS_GITHUB_RE url with
      | Some (GithubUrl _ _ (Some (kind, value))) =>
          if negb (String.eqb kind "pull") || String.eqb value EmptyString then Ok None
          else Some <$> int_of_text value
      | _ => Ok None
      end
  end.

(** An optional text that is not empty: neither [None] nor the empty text is true. *)
Definition given (o : option string) : option string :=
  match o with Some EmptyString => None | _ => o end.

(** [{branch["name"]: branch["sha"] for branch in ...}] *)
Definition branch_map (branches : list branch_ref) : gmap string string :=
  foldl (λ m b, <[branch_name b := branch_sha b]> m) ∅ branches.

(** The commits in evidence: those listed and the heads of the branches. *)
Definition evidence_shas (r : remote_state) : list string :=
  map commit_ref_sha (remote_commits r) ++ (map_to_list (branch_map (remote_branches r))).*2.

Definition add_if (b : bool) (finding : string) : list string :=
  if b then [finding] else [].

Definition local_findings (i : item) : list string :=
  let intent := item_intent i in
  let local := item_local i in
  let remote := item_remote i in
  let repo := remote_repo remote in
  add_if (negb (ownership_resolved (item_target i))) "ownership_ambiguous"
  ++ add_if (negb (collected remote)) "remote_evidence_incomplete"
  ++ add_if (collected remote && negb (repo_exists repo)) "repository_missing"
  ++ add_if (is_some (local_artifact local) && negb (git_repository local)) "artifact_only"
  ++ add_if (git_repository local && negb (remote_present local)) "repository_has_no_remote"
  ++ add_if (negb (bool_decide (dirty_paths local = []))) "changes_uncommitted"
  ++ add_if
       (match given (head_sha local) with
        | Some head => repo_exists repo && negb (mem_str head (evidence_shas remote))
        | None => false
        end) "commits_unpushed".

Definition known_branches (l : local_state) : list string :=
  local_branches l ++ match given (local_branch l) with Some b => [b] | None => [] end.

Definition branch_findings (i : item) : list string :=
  let remote := item_remote i in
  match given (intent_branch (item_intent i)) with
  | None => []
  | Some intended =>
      let published := is_some (branch_map (remote_branches remote) !! intended) in
      if negb (mem_str intended (known_branches (item_local i))) && negb published
      then ["branch_not_created"]
      else if negb published then ["branch_not_published"]
      else if pull_request_required (item_intent i) then
        add_if (bool_decide (List.filter (λ pr, eq_opt intended (pr_head pr))
                               (pull_requests remote) = [])) "branch_without_pull_request"
      else []
  end.

Definition claim_findings (i : item) : result (list string) :=
  let remote := item_remote i in
  let repo := remote_repo remote in
  let claims := item_claims i in
  claimed_pr ← claimed_pr_number (claimed_pull_request_url claims);
  Ok (add_if
        (match given (claimed_repository_url claims) with
         | Some url => negb (repo_exists repo) || negb (eq_opt url (repo_url repo))
         | None => false
         end) "claimed_repository_unverified"
      ++ add_if
        (match given (claimed_commit claims) with
         | Some sha => negb (mem_str sha (evidence_shas remote))
         | None => false
         end) "claimed_commit_unverified"
      ++ add_if
        (match given (claimed_branch claims) with
         | Some branch => negb (is_some (branch_map (remote_branches remote) !! branch))
         | None => false
         end) "claimed_branch_unverified"
      ++ add_if
        (match claimed_pr with
         | Some number => negb (existsb (Z.eqb number) (map pr_number (pull_requests remote)))
         | None => false
         end) "claimed_pull_request_unverified").

Record classification : Type := Classification {
  status : string;
  findings : list string;
  next_action : string;
  reason : string;
}.

Definition fail_closed_findings : list string :=
  ["ownership_ambiguous"; "remote_evidence_incomplete"; "claimed_repository_unverified";
   "claimed_commit_unverified"; "claimed_branch_unverified";
   "claimed_pull_request_unverified"].
Definition recovery_findings : list string :=
  ["artifact_only"; "repository_has_no_remote"; "changes_uncommitted"; "commits_unpushed";
   "branch_not_created"; "branch_not_published"].

(** [a & b] for sets *)
Definition meets (a b : list string) : bool := existsb (λ s, mem_str s b) a.

(** What the findings lead to. *)
Definition decide_action (found ordered : list string) (allow_creation : bool) : classification :=
  if bool_decide (ordered = []) then
    Classification "complete" [] "none"
      "repository, branch, commit, and pull-request evidence is complete"
  else if meets found fail_closed_findings then
    Classification "blocked" ordered "manual_review"
      "ownership, remote evidence, or a claimed GitHub object is incomplete; fail closed"
  else if mem_str "repository_missing" found then
    let action := if allow_creation then "cli_create_repository" else "manual_review" in
    Classification (if negb (String.eqb action "manual_review") then "actionable" else "blocked")
      ordered action "the intended repository is absent"
  else if meets found recovery_findings then
    Classification "actionable" ordered "cli_recover_local_artifact"
      "local Git state or artifact publication is incomplete"
  else if mem_str "branch_without_pull_request" found then
    Classification "actionable" ordered "open_draft_pull_request"
      "the reviewed branch is published but has no pull request"
  else
    Classification "blocked" ordered "manual_review"
      "a claimed GitHub object lacks current evidence".

Definition not_expected (i : item) : bool :=
  String.eqb (artifact_kind (item_target i)) "none" || negb (artifact_expected (item_intent i)).

Definition classify (i : item) : result classification :=
  if not_expected i then
    Ok (Classification "excluded" [] "none"
          "ordinary conversation or no tangible artifact was intended")
  else
    claimed ← claim_findings i;
    let found := local_findings i ++ branch_findings i ++ claimed in
    let ordered := stable_sort rank_leb found in
    Ok (decide_action found ordered (allow_repository_creation (item_intent i))).

Definition classification_value (c : classification) : value :=
  VDict [("status", VStr (status c)); ("findings", strs (findings c));
         ("next_action", VStr (next_action c)); ("reason", VStr (reason c))].

(** ** Entries *)

Definition opt_list (o : option string) : list string :=
  match given o with Some s => [s] | None => [] end.

Definition evidence_links (i : item) : list string :=
  let remote := item_remote i in
  sorted_set (opt_list (repo_url (remote_repo remote))
    ++ map commit_url (remote_commits remote) ++ map pr_url (pull_requests remote)).

Definition desired_visibility (i : item) : string :=
  match given (target_visibility (item_target i)) with Some v => v | None => "private" end.

Record entry : Type := Entry {
  entry_key : string;
  first_seen : string;
  last_seen : string;
  attempts : Z;
  observation_digest : string;
  evidence_digest : string;
  entry_observation : item;
  entry_classification : classification;
  entry_links : list string;
}.

Definition entry_value (e : entry) : value :=
  VDict [("ledger_key", VStr (entry_key e)); ("first_seen", VStr (first_seen e));
         ("last_seen", VStr (last_seen e)); ("attempts", VInt (attempts e));
         ("observation_digest", VStr (observation_digest e));
         ("evidence_digest", VStr (evidence_digest e));
         ("observation", item_value (entry_observation e));
         ("classification", classification_value (entry_classification e));
         ("evidence_links", strs (entry_links e))].

(** ** The queue of the command line *)

Record cli_item : Type := CliItem {
  cli_ledger_key : string;
  cli_target_task_id : string;
  cli_owner : string;
  cli_repository : string;
  cli_visibility : string;
  cli_base_branch : option string;
  cli_branch : option string;
  cli_artifact : option artifact;
  cli_head_sha : option string;
  cli_findings : list string;
}.

Definition required_sequence : list string :=
  ["verify current repository, branches, commits, and pull requests";
   "scan intended paths for credentials and private material";
   "reuse existing repository and branch when present";
   "create the repository only when absent and explicitly authorized";
   "stage only the intended paths";
   "commit without rewriting shared history";
   "push without force";
   "open or reuse one draft pull request";
   "record the verified repository URL, branch, commit SHA, and PR URL"].
Definition forbidden : list string :=
  ["reuse chat-pasted credentials"; "force push"; "broadly stage a mixed worktree";
   "directly write the default branch"; "merge or bypass protections"].

Definition cli_item_value (c : cli_item) : value :=
  VDict [("ledger_key", VStr (cli_ledger_key c));
         ("target_task_id", VStr (cli_target_task_id c));
         ("owner", VStr (cli_owner c)); ("repository", VStr (cli_repository c));
         ("visibility", VStr (cli_visibility c));
         ("base_branch", opt_str (cli_base_branch c));
         ("intended_branch", opt_str (cli_branch c));
         ("artifact", opt_artifact (cli_artifact c));
         ("local_head_sha", opt_str (cli_head_sha c));
         ("findings", strs (cli_findings c));
         ("required_sequence", strs required_sequence); ("forbidden", strs forbidden)].

Definition CLI_ACTIONS : list string := ["cli_create_repository"; "cli_recover_local_artifact"].

Definition build_cli_item (target_task_id : string) (e : entry) : option cli_item :=
  if negb (mem_str (next_action (entry_classification e)) CLI_ACTIONS) then None else
  let i := entry_observation e in
  Some (CliItem (entry_key e) target_task_id (target_owner (item_target i))
    (target_repository (item_target i)) (desired_visibility i) (base_branch (item_intent i))
    (intent_branch (item_intent i)) (local_artifact (item_local i)) (head_sha (item_local i))
    (findings (entry_classification e))).

(** ** Summaries *)

Definition count (s : string) (l : list string) : Z :=
  Z.of_nat (length (List.filter (String.eqb s) l)).
(** [dict(sorted(Counter(l).items()))] *)
Definition counter (l : list string) : list (string * Z) :=
  map (λ s, (s, count s l)) (sorted_set l).

Record summary : Type := Summary {
  entry_count : Z;
  status_counts : list (string * Z);
  finding_counts : list (string * Z);
  next_action_counts : list (string * Z);
  complete_count : Z;
  actionable_count : Z;
  blocked_count : Z;
  excluded_count : Z;
}.

Definition summarize_entries (entries : list (string * entry)) : summary :=
  let classifications := map (λ kv, entry_classification kv.2) entries in
  let statuses := map status classifications in
  Summary (Z.of_nat (length entries)) (counter statuses)
    (counter (concat (map findings classifications)))
    (counter (map next_action classifications))
    (count "complete" statuses) (count "actionable" statuses) (count "blocked" statuses)
    (count "excluded" statuses).

Definition counts_value (l : list (string * Z)) : value :=
  VDict (map (λ '(k, n), (k, VInt n)) l).
Definition summary_value (s : summary) : value :=
  VDict [("entries", VInt (entry_count s)); ("status_counts", counts_value (status_counts s));
         ("finding_counts", counts_value (finding_counts s));
         ("next_action_counts", counts_value (next_action_counts s));
         ("complete", VInt (complete_count s)); ("actionable", VInt (actionable_count s));
         ("blocked", VInt (blocked_count s)); ("excluded", VInt (excluded_count s))].

(** ** Ledgers *)

Record last_batch : Type := LastBatch {
  last_id : string;
  processed_at : string;
  processed : Z;
  available : Z;
  source_complete : bool;
  last_cursor : option string;
  processed_keys : list string;
}.

Record ledger : Type := MkLedger {
  created_at : string;
  updated_at : string;
  ledger_batch : option last_batch;
  entries : list (string * entry);
  ledger_summary : option summary;
}.

Definition last_batch_value (b : last_batch) : value :=
  VDict [("id", VStr (last_id b)); ("processed_at", VStr (processed_at b));
         ("processed", VInt (processed b)); ("available", VInt (available b));
         ("source_complete", VBool (source_complete b));
         ("next_cursor", opt_str (last_cursor b));
         ("processed_keys", strs (processed_keys b))].

Definition ledger_items (l : ledger) : items :=
  [("schema_version", VStr LEDGER_SCHEMA); ("created_at", VStr (created_at l));
   ("updated_at", VStr (updated_at l));
   ("last_batch", match ledger_batch l with Some b => last_batch_value b | None => VNone end);
   ("entries", VDict (map (λ '(k, e), (k, entry_value e)) (entries l)));
   ("summary", match ledger_summary l with Some s => summary_value s | None => VDict [] end)].

Definition empty_ledger (now : string) : ledger := MkLedger now now None [] None.

Definition check_entry (kv : string * value) : result unit :=
  let '(key, entry) := kv in
  raise_if (String.eqb key EmptyString)
    (recovery_error "ledger entry keys must be non-empty strings") ;;
  expect_object entry ("ledger.entries[" +:+ repr_str key +:+ "]") ;; Ok tt.

Definition validate_ledger (v : items) : result items :=
  raise_if (negb (py_eq (dict_get v "schema_version") (VStr LEDGER_SCHEMA)))
    (recovery_error ("ledger schema_version must be " +:+ LEDGER_SCHEMA)) ;;
  created_at ← parse_timestamp (dict_get v "created_at") "ledger.created_at";
  updated_at ← parse_timestamp (dict_get v "updated_at") "ledger.updated_at";
  entries ← expect_object (dict_get_or v "entries" (VDict [])) "ledger.entries";
  raise_if (MAX_ITEMS <? Z.of_nat (length entries))
    (recovery_error "ledger.entries exceeds the item limit") ;;
  for_each entries (λ kv _, check_entry kv) tt ;;
  let normalized := dict_set (dict_set v "created_at" (VStr created_at))
    "updated_at" (VStr updated_at) in
  validate_public_safety (VDict normalized) ;;
  Ok normalized.

Definition text_at (d : items) (key : string) : string :=
  match dict_get d key with VStr s => s | _ => EmptyString end.

(** The validated form of a ledger: its two times in canonical text. *)
Definition validated (l : ledger) : result ledger :=
  d ← validate_ledger (ledger_items l);
  Ok (MkLedger (text_at d "created_at") (text_at d "updated_at") (ledger_batch l) (entries l)
        (ledger_summary l)).

(** The first time the key was seen and the attempts, the present one
    included when the observation changed. *)
Definition entry_history (now digest : string) (prior : option entry) : string * Z :=
  match prior with
  | None => (now, 1)
  | Some prior =>
      let attempts := attempts prior + Z.b2z (negb (String.eqb (observation_digest prior) digest)) in
      (first_seen prior, if attempts <? 1 then 1 else attempts)
  end.

Definition build_entry (now : string) (prior : option entry) (i : item)
    (c : classification) : entry :=
  let digest := digest_of (item_value i) in
  let '(first_seen, attempts) := entry_history now digest prior in
  Entry (ledger_key i) first_seen now attempts digest
    (digest_of (VDict [("remote", remote_value (item_remote i));
                       ("claims", claims_value (item_claims i));
                       ("classification", classification_value c)]))
    i c (evidence_links i).

Definition process_item (now : string) (i : item) (l : list (string * entry))
  : result (list (string * entry)) :=
  c ← classify i;
  Ok (assoc_set l (ledger_key i) (build_entry now (assoc_get l (ledger_key i)) i c)).

Definition entry_leb (a b : string * entry) : bool := str_leb a.1 b.1.
Definition cli_leb (a b : cli_item) : bool := str_leb (cli_ledger_key a) (cli_ledger_key b).

Record queue : Type := MkQueue {
  queue_generated_at : string;
  queue_target_task_id : string;
  source_ledger_digest : string;
  queue_items : list cli_item;
}.

Definition creates_repository (c : cli_item) : bool :=
  mem_str "repository_missing" (cli_findings c).

Definition queue_value (q : queue) : value :=
  let created := List.filter creates_repository (queue_items q) in
  let recovered := List.filter (λ c, negb (creates_repository c)) (queue_items q) in
  VDict [("schema_version", VStr CLI_QUEUE_SCHEMA);
         ("generated_at", VStr (queue_generated_at q));
         ("target_task_id", VStr (queue_target_task_id q));
         ("source_ledger_digest", VStr (source_ledger_digest q));
         ("items", VList (map cli_item_value (queue_items q)));
         ("summary", VDict [("items", VInt (Z.of_nat (length (queue_items q))));
            ("create_repository", VInt (Z.of_nat (length created)));
            ("recover_local", VInt (Z.of_nat (length recovered)))])].

Definition build_queue (now target_task_id : string) (l : ledger) : queue :=
  MkQueue now target_task_id (digest_of (VDict (ledger_items l)))
    (stable_sort cli_leb (omap (λ kv, build_cli_item target_task_id kv.2) (entries l))).

Definition reconcile (observation : items) (previous : option ledger) (now : string)
    (batch_size : Z) (target_task_id : string) : result (ledger * queue) :=
  raise_if (negb ((1 <=? batch_size) && (batch_size <=? MAX_BATCH_SIZE)))
    (recovery_error ("batch_size must be between 1 and " +:+ str_int MAX_BATCH_SIZE)) ;;
  raise_if (negb (ORIGIN_ID_RE target_task_id))
    (recovery_error "target CLI task ID has an invalid shape") ;;
  normalized ← validate_observation observation;
  start ← match previous with None => Ok (empty_ledger now) | Some l => validated l end;
  let batch := take (Z.to_nat batch_size) (observed_items normalized) in
  merged ← for_each batch (process_item now) (entries start);
  let sorted_entries := stable_sort entry_leb merged in
  let ledger := MkLedger (created_at start) now
    (Some (LastBatch (batch_id (observed_batch normalized)) now (Z.of_nat (length batch))
       (Z.of_nat (length (observed_items normalized)))
       (batch_complete (observed_batch normalized)) (next_cursor (observed_batch normalized))
       (map ledger_key batch)))
    sorted_entries (Some (summarize_entries sorted_entries)) in
  let queue := build_queue now target_task_id ledger in
  validate_public_safety (VDict (ledger_items ledger)) ;;
  validate_public_safety (queue_value queue) ;;
  Ok (ledger, queue).

Definition summary_document (l : ledger) : result value :=
  v ← validated l;
  Ok (VDict [("schema_version", VStr SUMMARY_SCHEMA); ("updated_at", VStr (updated_at v));
             ("last_batch", match ledger_batch v with
                            | Some b => last_batch_value b | None => VNone end);
             ("summary", summary_value (summarize_entries (entries v)));
             ("ledger_digest", VStr (digest_of (VDict (ledger_items v))))]).

End Ledger.
