(* ===== verification/LedgerTheorems.v ===== *)
(** * The recovery ledger: results

    Which findings an item has and what they lead to; that only complete
    evidence is called complete; that merging a batch changes exactly the
    entries of its keys and that merging it again changes nothing; and what
    the command line's queue and the summary contain. *)
From S2P Require Import Prelude PyValue Sha256 Json DateTime Regex RecoveryCommon GitObjects.
From S2P Require Import Observation ObservationTheorems Ledger.
From Stdlib Require Import Ascii.
From Stdlib Require Sorted.

Module LedgerTheorems.
Import Observation ObservationTheorems Ledger.
Open Scope Z_scope.

(** ** Findings *)

(** A branch is published, a commit is in evidence. *)
Definition published (r : remote_state) (name : string) : Prop :=
  ∃ b, b ∈ remote_branches r ∧ branch_name b = name.
Definition in_evidence (r : remote_state) (sha : string) : Prop :=
  (∃ c, c ∈ remote_commits r ∧ commit_ref_sha c = sha) ∨
  (∃ name, branch_map (remote_branches r) !! name = Some sha).
(** A text is given when it is there and not empty. *)
Definition is_given (o : option string) (s : string) : Prop := o = Some s ∧ s ≠ EmptyString.
Definition known_locally (l : local_state) (name : string) : Prop :=
  name ∈ local_branches l ∨ is_given (local_branch l) name.

(** The meaning of the fourteen findings. *)
Inductive finding_holds (i : item) : string → Prop :=
  | ownership_ambiguous :
      ownership_resolved (item_target i) = false → finding_holds i "ownership_ambiguous"
  | remote_evidence_incomplete :
      collected (item_remote i) = false → finding_holds i "remote_evidence_incomplete"
  | repository_missing :
      collected (item_remote i) = true → repo_exists (remote_repo (item_remote i)) = false →
      finding_holds i "repository_missing"
  | artifact_only a :
      local_artifact (item_local i) = Some a → git_repository (item_local i) = false →
      finding_holds i "artifact_only"
  | repository_has_no_remote :
      git_repository (item_local i) = true → remote_present (item_local i) = false →
      finding_holds i "repository_has_no_remote"
  | changes_uncommitted :
      dirty_paths (item_local i) ≠ [] → finding_holds i "changes_uncommitted"
  | commits_unpushed head :
      is_given (head_sha (item_local i)) head →
      repo_exists (remote_repo (item_remote i)) = true → ¬ in_evidence (item_remote i) head →
      finding_holds i "commits_unpushed"
  | branch_not_created b :
      is_given (intent_branch (item_intent i)) b → ¬ published (item_remote i) b →
      ¬ known_locally (item_local i) b → finding_holds i "branch_not_created"
  | branch_not_published b :
      is_given (intent_branch (item_intent i)) b → ¬ published (item_remote i) b →
      known_locally (item_local i) b → finding_holds i "branch_not_published"
  | branch_without_pull_request b :
      is_given (intent_branch (item_intent i)) b → published (item_remote i) b →
      pull_request_required (item_intent i) = true →
      (∀ p, p ∈ pull_requests (item_remote i) → pr_head p ≠ Some b) →
      finding_holds i "branch_without_pull_request"
  | claimed_repository_unverified url :
      is_given (claimed_repository_url (item_claims i)) url →
      (repo_exists (remote_repo (item_remote i)) = true →
       repo_url (remote_repo (item_remote i)) ≠ Some url) →
      finding_holds i "claimed_repository_unverified"
  | claimed_commit_unverified sha :
      is_given (claimed_commit (item_claims i)) sha → ¬ in_evidence (item_remote i) sha →
      finding_holds i "claimed_commit_unverified"
  | claimed_branch_unverified b :
      is_given (claimed_branch (item_claims i)) b → ¬ published (item_remote i) b →
      finding_holds i "claimed_branch_unverified"
  | claimed_pull_request_unverified n :
      claimed_pr_number (claimed_pull_request_url (item_claims i)) = Ok (Some n) →
      (∀ p, p ∈ pull_requests (item_remote i) → pr_number p ≠ n) →
      finding_holds i "claimed_pull_request_unverified".

Lemma branch_map_published r name :
  is_some (branch_map (remote_branches r) !! name) = true ↔ published r name.
Proof.
  unfold published, branch_map. generalize (remote_branches r). intros bs.
  assert (∀ m : gmap string string,
    is_some (foldl (λ m b, <[branch_name b := branch_sha b]> m) m bs !! name) = true ↔
    (∃ b, b ∈ bs ∧ branch_name b = name) ∨ is_some (m !! name) = true) as ->.
  { induction bs as [|b bs IH]; intros m; simpl.
    - split; [by right|]. by intros [(b & ?%not_elem_of_nil & _)|].
    - rewrite IH. setoid_rewrite elem_of_cons. destruct (decide (branch_name b = name)) as [<-|Hne].
      + rewrite lookup_insert_eq. simpl. split; [intros _; left; eauto|eauto].
      + rewrite lookup_insert_ne by done. naive_solver. }
  rewrite lookup_empty. naive_solver.
Qed.

Lemma evidence_shas_elem r sha : mem_str sha (evidence_shas r) = true ↔ in_evidence r sha.
Proof.
  rewrite mem_str_In. unfold evidence_shas, in_evidence.
  rewrite elem_of_app, !list_elem_of_fmap. split.
  - intros [(c & -> & Hc)|([name s] & -> & Hm%elem_of_map_to_list)]; eauto.
  - intros [(c & Hc & <-)|(name & Hm%elem_of_map_to_list)]; [left; eauto|right].
    by exists (name, sha).
Qed.

Lemma given_Some o s : given o = Some s ↔ is_given o s.
Proof.
  unfold given, is_given. destruct o as [[|c t]|]; split; try done.
  - by intros [[= <-] ?].
  - intros [= <-]. done.
  - by intros [[= <-] _].
  - by intros [? _].
Qed.

Lemma known_branches_elem l name : mem_str name (known_branches l) = true ↔ known_locally l name.
Proof.
  rewrite mem_str_In. unfold known_branches, known_locally.
  rewrite elem_of_app, <- given_Some. destruct (given (local_branch l)) as [b|].
  - rewrite list_elem_of_singleton. naive_solver.
  - rewrite elem_of_nil. naive_solver.
Qed.

Lemma add_if_elem b f x : x ∈ add_if b f ↔ b = true ∧ x = f.
Proof.
  unfold add_if. destruct b; [rewrite list_elem_of_singleton|rewrite elem_of_nil]; naive_solver.
Qed.

Lemma not_true_iff b P : (b = true ↔ P) → negb b = true ↔ ¬ P.
Proof. intros <-. by destruct b. Qed.

(** The cases of a finding among the listed ones. *)
Ltac finding_cases H Hin :=
  destruct H; try (exfalso; revert Hin; by apply (bool_decide_eq_false_1 _)).
Ltac listed := by apply (bool_decide_eq_true_1 _).

Lemma local_findings_elem i f :
  f ∈ local_findings i ↔ finding_holds i f ∧
    f ∈ ["ownership_ambiguous"; "remote_evidence_incomplete"; "repository_missing";
         "artifact_only"; "repository_has_no_remote"; "changes_uncommitted"; "commits_unpushed"].
Proof.
  unfold local_findings. rewrite !elem_of_app, !add_if_elem. split.
  - intros [H|[H|[H|[H|[H|[H|H]]]]]]; destruct H as [H ->];
      (split; [|listed]); bool_hyps.
    + by constructor.
    + by constructor.
    + by constructor.
    + destruct (local_artifact (item_local i)) eqn:?; [by econstructor|done].
    + by constructor.
    + by constructor.
    + destruct (given _) as [head|] eqn:Hg; [|done]. bool_hyps. apply given_Some in Hg.
      econstructor; [done..|]. rewrite <- evidence_shas_elem. congruence.
  - intros [H Hin]. finding_cases H Hin.
    + left. by rewrite H.
    + right; left. by rewrite H.
    + do 2 right; left. by rewrite H, H0.
    + do 3 right; left. by rewrite H, H0.
    + do 4 right; left. by rewrite H, H0.
    + do 5 right; left. by rewrite bool_decide_eq_false_2.
    + do 6 right. apply given_Some in H. rewrite H, H0. split; [|done]. simpl.
      apply not_true_iff with (P := in_evidence (item_remote i) head); [|done].
      apply evidence_shas_elem.
Qed.

Lemma branch_findings_elem i f :
  f ∈ branch_findings i ↔ finding_holds i f ∧
    f ∈ ["branch_not_created"; "branch_not_published"; "branch_without_pull_request"].
Proof.
  unfold branch_findings. destruct (given (intent_branch (item_intent i))) as [b|] eqn:Hg.
  2: { split; [by intros ?%not_elem_of_nil|]. intros [H Hin].
       finding_cases H Hin;
         apply given_Some in H; congruence. }
  assert (∀ b', is_given (intent_branch (item_intent i)) b' → b' = b) as Huniq
    by (intros b' H%given_Some; congruence).
  pose proof (branch_map_published (item_remote i) b) as Hpub.
  pose proof (known_branches_elem (item_local i) b) as Hknown.
  pose proof (proj1 (given_Some _ _) Hg) as Hgiven.
  set (pub := is_some _) in *. set (known := mem_str _ _) in *.
  destruct pub; simpl; rewrite ?andb_false_r, ?andb_true_r.
  - assert (published (item_remote i) b) as Hp by by apply Hpub.
    destruct (pull_request_required (item_intent i)) eqn:Hreq.
    + rewrite add_if_elem, bool_decide_eq_true. split.
      * intros [Hnil ->]. split; [|listed].
        econstructor; [done..|]. intros p Hin Heq.
        assert (p ∈ List.filter (λ pr, eq_opt b (pr_head pr)) (pull_requests (item_remote i))) as Hf.
        { rewrite list_elem_of_In, filter_In, <- list_elem_of_In. by rewrite Heq, eq_opt_refl. }
        rewrite Hnil in Hf. by apply not_elem_of_nil in Hf.
      * intros [H Hin].
        finding_cases H Hin;
          apply Huniq in H; subst; try done.
        split; [|done]. destruct (List.filter _ _) as [|p l] eqn:Hf; [done|].
        assert (p ∈ List.filter (λ pr, eq_opt b (pr_head pr)) (pull_requests (item_remote i))) as Hin'
          by (rewrite Hf; by left).
        rewrite list_elem_of_In, filter_In, <- list_elem_of_In, eq_opt_true in Hin'.
        destruct Hin' as [Hp1 Hp2]. by destruct (H2 p).
    + split; [by intros ?%not_elem_of_nil|]. intros [H Hin].
      finding_cases H Hin;
        apply Huniq in H; subst; try done; congruence.
  - assert (¬ published (item_remote i) b) as Hp by (rewrite <- Hpub; done).
    destruct known; simpl; rewrite list_elem_of_singleton.
    + assert (known_locally (item_local i) b) by by apply Hknown. split.
      * intros ->. split; [by econstructor|listed].
      * intros [H' Hin].
        finding_cases H' Hin;
          match goal with H : is_given _ _ |- _ => apply Huniq in H; subst end; done.
    + assert (¬ known_locally (item_local i) b) by (rewrite <- Hknown; done). split.
      * intros ->. split; [by econstructor|listed].
      * intros [H' Hin].
        finding_cases H' Hin;
          match goal with H : is_given _ _ |- _ => apply Huniq in H; subst end; done.
Qed.

Lemma claim_findings_elem i l f :
  claim_findings i = Ok l →
  f ∈ l ↔ finding_holds i f ∧
    f ∈ ["claimed_repository_unverified"; "claimed_commit_unverified";
         "claimed_branch_unverified"; "claimed_pull_request_unverified"].
Proof.
  unfold claim_findings. intros (claimed & Hpr & [= <-])%bind_Ok.
  rewrite !elem_of_app, !add_if_elem. split.
  - intros [H|[H|[H|H]]]; destruct H as [H ->]; (split; [|listed]).
    + destruct (given _) as [url|] eqn:Hg; [|done]. apply given_Some in Hg.
      econstructor; [done|]. intros Hex Heq. rewrite Hex, Heq, eq_opt_refl in H. done.
    + destruct (given _) as [sha|] eqn:Hg; [|done]. apply given_Some in Hg.
      econstructor; [done|]. by eapply not_true_iff; [apply evidence_shas_elem|].
    + destruct (given _) as [b|] eqn:Hg; [|done]. apply given_Some in Hg.
      econstructor; [done|]. by eapply not_true_iff; [apply branch_map_published|].
    + destruct claimed as [n|]; [|done]. econstructor; [done|]. intros p Hp <-.
      apply negb_true_iff in H. apply not_true_iff_false in H. apply H.
      apply existsb_elem_of. exists (pr_number p). split; [|apply Z.eqb_refl].
      by apply list_elem_of_fmap_2.
  - intros [H Hin]. finding_cases H Hin.
    + apply given_Some in H. rewrite H. left. split; [|done].
      destruct (repo_exists _); [|done]. apply orb_true_iff. right.
      apply negb_true_iff, eq_opt_false. auto.
    + apply given_Some in H. rewrite H. right; left. split; [|done].
      by eapply not_true_iff; [apply evidence_shas_elem|].
    + apply given_Some in H. rewrite H. do 2 right; left. split; [|done].
      by eapply not_true_iff; [apply branch_map_published|].
    + simplify_eq. do 3 right. rewrite Hpr in H. injection H as ->. split; [|done].
      apply negb_true_iff, not_true_iff_false. intros (m & Hm & ->%Z.eqb_eq)%existsb_elem_of.
      apply list_elem_of_fmap in Hm as (p & -> & Hp). by eapply H0.
Qed.

(** *** Order *)

Lemma finding_listed i f : finding_holds i f → f ∈ FINDING_ORDER.
Proof. intros H. destruct H; listed. Qed.

Lemma FINDING_ORDER_sorted : Sorted.StronglySorted (in_order rank_leb) FINDING_ORDER.
Proof.
  unfold FINDING_ORDER. repeat (constructor; [|repeat (constructor; [reflexivity|]); constructor]).
  constructor.
Qed.

Lemma rank_inj a b : a ∈ FINDING_ORDER → FINDING_RANK a = FINDING_RANK b → a = b.
Proof.
  unfold FINDING_RANK. induction FINDING_ORDER as [|x l IH]; [by intros ?%not_elem_of_nil|].
  simpl. destruct (String.eqb_spec a x) as [->|Ha], (String.eqb_spec b x) as [->|Hb]; try done.
  intros [?|Hin]%elem_of_cons [= Heq]; [done|]. by apply IH.
Qed.

Lemma rank_leb_total a b : rank_leb a b = true ∨ rank_leb b a = true.
Proof. unfold rank_leb. rewrite !Nat.leb_le. lia. Qed.

Lemma add_if_sublist b f : add_if b f `sublist_of` [f].
Proof. destruct b; [done|apply sublist_nil_l]. Qed.

Lemma branch_findings_sublist i :
  branch_findings i `sublist_of`
    ["branch_not_created"; "branch_not_published"; "branch_without_pull_request"].
Proof.
  unfold branch_findings. repeat case_match; try apply sublist_nil_l.
  - by apply sublist_skip, sublist_nil_l.
  - by apply sublist_cons, sublist_skip, sublist_nil_l.
  - do 2 apply sublist_cons. apply add_if_sublist.
Qed.

(** The code collects the findings in the order of the table. *)
Lemma findings_sublist i l :
  claim_findings i = Ok l → local_findings i ++ branch_findings i ++ l `sublist_of` FINDING_ORDER.
Proof.
  unfold claim_findings. intros (pr & _ & [= <-])%bind_Ok.
  change FINDING_ORDER with (take 7 FINDING_ORDER ++ take 3 (drop 7 FINDING_ORDER)
    ++ drop 10 FINDING_ORDER).
  apply sublist_app; [|apply sublist_app; [apply branch_findings_sublist|]];
    repeat (apply (sublist_app _ [_]); [apply add_if_sublist|]); apply add_if_sublist.
Qed.

Lemma forall_sublist {A} (P : A → Prop) l k : l `sublist_of` k → Forall P k → Forall P l.
Proof. induction 1; inversion 1; subst; auto. Qed.

Lemma strongly_sorted_sublist {A} (R : A → A → Prop) l k :
  l `sublist_of` k → Sorted.StronglySorted R k → Sorted.StronglySorted R l.
Proof.
  induction 1 as [|x l k Hlk IH|x l k _ IH]; inversion 1; subst; [constructor| |by apply IH].
  constructor; [by apply IH|]. by eapply forall_sublist.
Qed.

Lemma findings_ordered i l :
  claim_findings i = Ok l →
  let found := local_findings i ++ branch_findings i ++ l in stable_sort rank_leb found = found.
Proof.
  intros H found. apply stable_sort_sorted, Sorted.StronglySorted_Sorted.
  eapply strongly_sorted_sublist; [by apply findings_sublist|apply FINDING_ORDER_sorted].
Qed.

Lemma found_holds i l f :
  claim_findings i = Ok l →
  f ∈ local_findings i ++ branch_findings i ++ l ↔ finding_holds i f.
Proof.
  intros H. rewrite !elem_of_app, local_findings_elem, branch_findings_elem,
    (claim_findings_elem _ _ _ H).
  split; [tauto|]. intros Hf. pose proof (finding_listed _ _ Hf) as Hin.
  unfold FINDING_ORDER in Hin. rewrite !elem_of_cons in *. tauto.
Qed.

(** ** Classification *)

(** What the findings of an item lead to: status and next action. *)
Inductive verdict (i : item) : string → string → Prop :=
  | nothing_found : (∀ f, ¬ finding_holds i f) → verdict i "complete" "none"
  | fails_closed f :
      finding_holds i f → f ∈ fail_closed_findings → verdict i "blocked" "manual_review"
  | may_create :
      (∀ f, finding_holds i f → f ∉ fail_closed_findings) → finding_holds i "repository_missing" →
      allow_repository_creation (item_intent i) = true →
      verdict i "actionable" "cli_create_repository"
  | may_not_create :
      (∀ f, finding_holds i f → f ∉ fail_closed_findings) → finding_holds i "repository_missing" →
      allow_repository_creation (item_intent i) = false → verdict i "blocked" "manual_review"
  | recoverable f :
      (∀ f, finding_holds i f → f ∉ fail_closed_findings) → ¬ finding_holds i "repository_missing" →
      finding_holds i f → f ∈ recovery_findings →
      verdict i "actionable" "cli_recover_local_artifact"
  | lacks_pull_request :
      (∀ f, finding_holds i f ↔ f = "branch_without_pull_request") →
      verdict i "actionable" "open_draft_pull_request".

Lemma meets_true a b : meets a b = true ↔ ∃ f, f ∈ a ∧ f ∈ b.
Proof. unfold meets. rewrite existsb_elem_of. by setoid_rewrite mem_str_In. Qed.

Lemma decide_action_verdict i found :
  (∀ f, f ∈ found ↔ finding_holds i f) →
  let c := decide_action found found (allow_repository_creation (item_intent i)) in
  verdict i (status c) (next_action c) ∧ findings c = found ∧
  reason c ≠ "a claimed GitHub object lacks current evidence".
Proof.
  intros Hf. unfold decide_action. case_bool_decide as Hnil.
  { subst found. split; [|done]. constructor. intros f ?%Hf. by eapply not_elem_of_nil. }
  destruct (meets found fail_closed_findings) eqn:Hclosed.
  { apply meets_true in Hclosed as (f & Hin & ?). split; [|done].
    by apply (fails_closed i f); [apply Hf|]. }
  assert (∀ f, finding_holds i f → f ∉ fail_closed_findings) as Hopen.
  { intros f ?%Hf ?. apply not_true_iff_false in Hclosed. apply Hclosed, meets_true. eauto. }
  destruct (mem_str "repository_missing" found) eqn:Hmissing.
  { apply mem_str_In, Hf in Hmissing.
    destruct (allow_repository_creation (item_intent i)) eqn:Hallow; (split; [|done]);
      by constructor. }
  assert (¬ finding_holds i "repository_missing") as Hthere.
  { intros ?%Hf%mem_str_In. congruence. }
  destruct (meets found recovery_findings) eqn:Hrec.
  { apply meets_true in Hrec as (f & ?%Hf & ?). split; [|done]. by econstructor. }
  assert (∀ f, finding_holds i f → f = "branch_without_pull_request") as Honly.
  { intros f H. pose proof (Hopen _ H) as Hnot. pose proof (finding_listed _ _ H) as Hin.
    assert (f ∉ recovery_findings) as Hnot'.
    { intros ?. apply not_true_iff_false in Hrec. apply Hrec, meets_true.
      exists f. by rewrite Hf. }
    assert (f ≠ "repository_missing") by by intros ->.
    unfold FINDING_ORDER, fail_closed_findings, recovery_findings in *.
    rewrite !elem_of_cons in *. tauto. }
  destruct found as [|f found]; [done|].
  assert (f = "branch_without_pull_request") as -> by (apply Honly, Hf; by left).
  simpl. split; [|done]. constructor. intros f. split; [apply Honly|].
  intros ->. apply Hf. by left.
Qed.

(** Either the item is excluded or its verdict stands. *)
Lemma classification_cases i c :
  classify i = Ok c →
  (status c = "excluded" ∧ next_action c = "none" ∧ not_expected i = true) ∨
  (not_expected i = false ∧ verdict i (status c) (next_action c)).
Proof.
  unfold classify. destruct (not_expected i); [by intros [= <-]; left|].
  intros (l & Hl & [= <-])%bind_Ok. right. split; [done|]. rewrite (findings_ordered _ _ Hl).
  by destruct (decide_action_verdict _ _ (λ f, found_holds i l f Hl)).
Qed.

(** The classification is what the evidence says.  An item that expects no
    artifact is excluded.  Otherwise the findings are exactly those that hold,
    in the order of the table and each once; a finding that fails closed
    blocks the item before anything else is considered; a missing repository
    is created only when the intent allows it and is left to a human
    otherwise; then comes local recovery, and a draft pull request is opened
    only when nothing else is missing.  The last branch of the code, which
    blocks for a claim without evidence, is never reached. *)
Theorem classification_decides i c :
  classify i = Ok c →
  (not_expected i = true → status c = "excluded" ∧ next_action c = "none" ∧ findings c = []) ∧
  (not_expected i = false →
   (∀ f, f ∈ findings c ↔ finding_holds i f) ∧ findings c `sublist_of` FINDING_ORDER ∧
   verdict i (status c) (next_action c) ∧
   reason c ≠ "a claimed GitHub object lacks current evidence").
Proof.
  unfold classify. destruct (not_expected i); [by intros [= <-]|].
  intros (l & Hl & [= <-])%bind_Ok. split; [done|]. intros _.
  rewrite (findings_ordered _ _ Hl).
  pose proof (λ f, found_holds i l f Hl) as Hfound.
  destruct (decide_action_verdict _ _ Hfound) as (Hv & Hfs & Hr).
  rewrite Hfs. split; [done|]. split; [by apply findings_sublist|done].
Qed.

(** Everything the workflow was meant to leave behind is in evidence. *)
Record evidence_complete (i : item) : Prop := {
  ownership_is_resolved : ownership_resolved (item_target i) = true;
  evidence_collected : collected (item_remote i) = true;
  repository_exists : repo_exists (remote_repo (item_remote i)) = true;
  artifact_in_git : ∀ a, local_artifact (item_local i) = Some a → git_repository (item_local i) = true;
  remote_configured : git_repository (item_local i) = true → remote_present (item_local i) = true;
  nothing_dirty : dirty_paths (item_local i) = [];
  head_pushed head : is_given (head_sha (item_local i)) head → in_evidence (item_remote i) head;
  branch_delivered b : is_given (intent_branch (item_intent i)) b →
    published (item_remote i) b ∧
    (pull_request_required (item_intent i) = true →
     ∃ p, p ∈ pull_requests (item_remote i) ∧ pr_head p = Some b);
  claimed_repository_verified url : is_given (claimed_repository_url (item_claims i)) url →
    repo_url (remote_repo (item_remote i)) = Some url;
  claimed_commit_verified sha : is_given (claimed_commit (item_claims i)) sha →
    in_evidence (item_remote i) sha;
  claimed_branch_verified b : is_given (claimed_branch (item_claims i)) b →
    published (item_remote i) b;
  claimed_pull_request_verified n :
    claimed_pr_number (claimed_pull_request_url (item_claims i)) = Ok (Some n) →
    ∃ p, p ∈ pull_requests (item_remote i) ∧ pr_number p = n;
}.

#[local] Instance published_dec r b : Decision (published r b).
Proof.
  refine (cast_if (decide (is_some (branch_map (remote_branches r) !! b) = true)));
    by rewrite <- branch_map_published.
Defined.
#[local] Instance in_evidence_dec r sha : Decision (in_evidence r sha).
Proof.
  refine (cast_if (decide (mem_str sha (evidence_shas r) = true)));
    by rewrite <- evidence_shas_elem.
Defined.
#[local] Instance known_locally_dec l b : Decision (known_locally l b).
Proof.
  refine (cast_if (decide (mem_str b (known_branches l) = true)));
    by rewrite <- known_branches_elem.
Defined.

(** A decidable condition of a list's elements fails everywhere or holds somewhere. *)
Lemma none_or_some {A} (P : A → Prop) `{!∀ x, Decision (P x)} (l : list A) :
  ¬ (∀ x, x ∈ l → ¬ P x) → ∃ x, x ∈ l ∧ P x.
Proof.
  intros Hn. destruct (decide (Exists P l)) as [He|He]; [by apply Exists_exists in He|].
  destruct Hn. intros x Hx HP. apply He, Exists_exists. eauto.
Qed.

Lemma nothing_found_complete i : (∀ f, ¬ finding_holds i f) ↔ evidence_complete i.
Proof.
  split.
  - intros Hnot. assert (∀ f, finding_holds i f → False) as Hno by (intros f Hf; by apply (Hnot f)).
    assert (collected (item_remote i) = true) as Hc
      by (apply not_false_is_true; intros ?; by eapply Hno, remote_evidence_incomplete).
    assert (repo_exists (remote_repo (item_remote i)) = true) as He
      by (apply not_false_is_true; intros ?; by eapply Hno, repository_missing).
    assert (∀ b, is_given (intent_branch (item_intent i)) b → published (item_remote i) b) as Hp.
    { intros b Hb. apply dec_stable. intros Hn. destruct (decide (known_locally (item_local i) b)).
      - by eapply Hno, branch_not_published.
      - by eapply Hno, branch_not_created. }
    split; [|done|done|..].
    + apply not_false_is_true. intros ?. by eapply Hno, ownership_ambiguous.
    + intros a Ha. apply not_false_is_true. intros ?. by eapply Hno, artifact_only.
    + intros Hg. apply not_false_is_true. intros ?. by eapply Hno, repository_has_no_remote.
    + apply dec_stable. intros ?. by eapply Hno, changes_uncommitted.
    + intros head Hh. apply dec_stable. intros ?. by eapply Hno, commits_unpushed.
    + intros b Hb. split; [by apply Hp|]. intros Hreq. apply none_or_some; [apply _|].
      intros ?. by eapply Hno, branch_without_pull_request; [|apply Hp| |].
    + intros url Hu. apply dec_stable. intros ?. by eapply Hno, claimed_repository_unverified.
    + intros sha Hs. apply dec_stable. intros ?. by eapply Hno, claimed_commit_unverified.
    + intros b Hb. apply dec_stable. intros ?. by eapply Hno, claimed_branch_unverified.
    + intros n Hn. apply none_or_some; [apply _|].
      intros ?. by eapply Hno, claimed_pull_request_unverified.
  - intros E f H. destruct H; try (destruct E; congruence).
    + destruct E as [? ? ? Hg]. specialize (Hg _ H). congruence.
    + destruct E as [? ? ? ? Hr]. specialize (Hr H). congruence.
    + by destruct H1; eapply head_pushed.
    + by destruct H0; eapply branch_delivered.
    + by destruct H0; eapply branch_delivered.
    + destruct (branch_delivered _ E _ H) as [_ Hpr]. destruct (Hpr H1) as (p & Hp & Heq).
      by eapply H2.
    + destruct H0; [by apply repository_exists|by apply claimed_repository_verified].
    + by destruct H0; eapply claimed_commit_verified.
    + by destruct H0; eapply claimed_branch_verified.
    + destruct (claimed_pull_request_verified _ E _ H) as (p & Hp & Heq). by eapply H0.
Qed.

(** C13: An item is called complete exactly when it expects an artifact and all
    of its evidence is there: ownership resolved, evidence collected, the
    repository present, the artifact in Git with a remote and nothing dirty,
    the head commit in evidence, the intended branch published with a pull
    request when one is required, and every claimed repository, commit, branch
    and pull request confirmed by the collected evidence.  No missing or
    doubtful piece is ever reported as delivered. *)
Theorem complete_only_with_evidence i c :
  classify i = Ok c →
  status c = "complete" ↔ not_expected i = false ∧ evidence_complete i.
Proof.
  unfold classify. rewrite <- nothing_found_complete.
  destruct (not_expected i); [intros [= <-]; split; [done|by intros [? _]]|].
  intros (l & Hl & [= <-])%bind_Ok. rewrite (findings_ordered _ _ Hl).
  destruct (decide_action_verdict _ _ (λ f, found_holds i l f Hl)) as (Hv & _ & _).
  destruct Hv; split; try done.
  - intros [_ Hn]. by destruct (Hn f).
  - intros [_ Hn]. by destruct (Hn "repository_missing").
  - intros [_ Hn]. by destruct (Hn "repository_missing").
  - intros [_ Hn]. by destruct (Hn f).
  - intros [_ Hn]. by destruct (Hn "branch_without_pull_request"); apply H.
Qed.

(** ** The two items of the example *)

Definition example_item (n : nat) : item :=
  match observed_items example_normalized !! n with
  | Some i => i
  | None => Item (Origin EmptyString EmptyString EmptyString EmptyString)
      (Target EmptyString EmptyString EmptyString None EmptyString false)
      (Intent false None None false false) (LocalState None false false None [] None [])
      (RemoteState false (RemoteRepository false None None None) [] [] [])
      (Claims None None None None) None
  end.

Definition missing_class : classification :=
  Classification "actionable" ["repository_missing"] "cli_create_repository"
    "the intended repository is absent".
Definition delivered_class : classification :=
  Classification "complete" [] "none"
    "repository, branch, commit, and pull-request evidence is complete".

Lemma missing_classified : classify (example_item 0) = Ok missing_class.
Proof. vm_compute. reflexivity. Qed.
Lemma delivered_classified : classify (example_item 1) = Ok delivered_class.
Proof. vm_compute. reflexivity. Qed.

Lemma classification_decides_witness :
  (not_expected (example_item 0) = true →
   status missing_class = "excluded" ∧ next_action missing_class = "none" ∧
   findings missing_class = []) ∧
  (not_expected (example_item 0) = false →
   (∀ f, f ∈ findings missing_class ↔ finding_holds (example_item 0) f) ∧
   findings missing_class `sublist_of` FINDING_ORDER ∧
   verdict (example_item 0) (status missing_class) (next_action missing_class) ∧
   reason missing_class ≠ "a claimed GitHub object lacks current evidence").
Proof. exact (classification_decides _ _ missing_classified). Defined.

Lemma complete_only_with_evidence_witness :
  status delivered_class = "complete" ↔
    not_expected (example_item 1) = false ∧ evidence_complete (example_item 1).
Proof. exact (complete_only_with_evidence _ _ delivered_classified). Defined.

End LedgerTheorems.
