(* ===== verification/ReconcileTheorems.v ===== *)
(** * The recovery ledger: merging batches

    What [Ledger.reconcile] does to a ledger: it updates exactly the entries
    of the batch, keeps the ledger's invariant, is idempotent, and queues for
    the command line exactly what may be recovered automatically. *)
From S2P Require Import Prelude PyValue Sha256 Json DateTime Regex RecoveryCommon GitObjects.
From S2P Require Import Observation ObservationTheorems Ledger LedgerTheorems.
From Stdlib Require Import Ascii.
From Stdlib Require Sorted.

Module ReconcileTheorems.
Import Observation ObservationTheorems Ledger LedgerTheorems.
Open Scope Z_scope.

Lemma entry_leb_total a b : entry_leb a b = true ∨ entry_leb b a = true.
Proof. apply str_leb_total. Qed.
Lemma cli_leb_total a b : cli_leb a b = true ∨ cli_leb b a = true.
Proof. apply str_leb_total. Qed.

(** ** The loop over a batch *)

Lemma entry_history_attempts now digest prior : 1 <= (entry_history now digest prior).2.
Proof. unfold entry_history. destruct prior as [p|]; simpl; [|lia]. case_match; lia. Qed.

Lemma merge_NoDup now batch l l' :
  for_each batch (process_item now) l = Ok l' → NoDup l.*1 → NoDup l'.*1.
Proof.
  intros H Hl. eapply (for_each_inv (λ l, NoDup l.*1)); [|exact Hl|exact H].
  intros i l1 l2 _ Hl1. unfold process_item. intros (c & _ & [= <-])%bind_Ok.
  by apply assoc_set_NoDup.
Qed.

(** Each key of the batch is updated once, from what it held before. *)
Lemma merge_spec now batch l l' :
  NoDup (map ledger_key batch) → for_each batch (process_item now) l = Ok l' →
  (∀ i, i ∈ batch → ∃ c, classify i = Ok c ∧
    assoc_get l' (ledger_key i) = Some (build_entry now (assoc_get l (ledger_key i)) i c)) ∧
  (∀ k, k ∉ map ledger_key batch → assoc_get l' k = assoc_get l k).
Proof.
  revert l; induction batch as [|i batch IH]; intros l; simpl.
  { intros _ [= <-]. split; [by intros ? ?%not_elem_of_nil|done]. }
  intros [Hi Hnd]%NoDup_cons (l1 & (c & Hc & [= <-])%bind_Ok & H)%bind_Ok.
  destruct (IH _ Hnd H) as [IH1 IH2]. split.
  - intros j [->|Hj]%elem_of_cons.
    + exists c. split; [done|]. by rewrite IH2, assoc_get_set, String.eqb_refl.
    + destruct (IH1 j Hj) as (c' & Hc' & Heq). exists c'. split; [done|].
      rewrite Heq, assoc_get_set. destruct (String.eqb_spec (ledger_key j) (ledger_key i)); [|done].
      destruct Hi. rewrite <- e. by apply list_elem_of_fmap_2.
  - intros k [Hk Hb]%not_elem_of_cons. rewrite IH2, assoc_get_set by done.
    by destruct (String.eqb_spec k (ledger_key i)).
Qed.

(** An entry built from an item is built again from it. *)
Lemma build_entry_again now prior i c :
  build_entry now (Some (build_entry now prior i c)) i c = build_entry now prior i c.
Proof.
  unfold build_entry. pose proof (entry_history_attempts now (digest_of (item_value i)) prior) as Ha.
  destruct (entry_history now (digest_of (item_value i)) prior) as [first att]. simpl in *.
  rewrite String.eqb_refl. simpl. rewrite Z.add_0_r.
  by rewrite (proj2 (Z.ltb_ge att 1)) by lia.
Qed.

Lemma merge_again now batch l :
  (∀ i, i ∈ batch → ∃ c prior, classify i = Ok c ∧
    assoc_get l (ledger_key i) = Some (build_entry now prior i c)) →
  for_each batch (process_item now) l = Ok l.
Proof.
  induction batch as [|i batch IH]; intros H; simpl; [done|].
  destruct (H i) as (c & prior & Hc & Hi); [by left|].
  assert (process_item now i l = Ok l) as ->.
  { unfold process_item. rewrite Hc. simpl. by rewrite Hi, build_entry_again, assoc_set_same. }
  simpl. apply IH. intros j Hj. apply H. by right.
Qed.

(** ** A reconciliation *)

Definition prior_entries (previous : option ledger) : list (string * entry) :=
  match previous with Some p => entries p | None => [] end.

(** What a successful reconciliation is made of. *)
Record reconciled (obs : items) (previous : option ledger) (now : string) (size : Z)
    (task : string) (l : ledger) (q : queue) (o : observation) (start : ledger)
    (merged : list (string * entry)) : Prop := {
  rec_size : 1 <= size <= MAX_BATCH_SIZE;
  rec_task : ORIGIN_ID_RE task = true;
  rec_observation : validate_observation obs = Ok o;
  rec_start : match previous with None => Ok (empty_ledger now) | Some p => validated p end = Ok start;
  rec_merged : for_each (take (Z.to_nat size) (observed_items o)) (process_item now)
    (entries start) = Ok merged;
  rec_ledger : l = MkLedger (created_at start) now
    (Some (LastBatch (batch_id (observed_batch o)) now
       (Z.of_nat (length (take (Z.to_nat size) (observed_items o))))
       (Z.of_nat (length (observed_items o)))
       (batch_complete (observed_batch o)) (next_cursor (observed_batch o))
       (map ledger_key (take (Z.to_nat size) (observed_items o)))))
    (stable_sort entry_leb merged) (Some (summarize_entries (stable_sort entry_leb merged)));
  rec_queue : q = build_queue now task l;
  rec_safe : validate_public_safety (VDict (ledger_items l)) = Ok tt;
  rec_queue_safe : validate_public_safety (queue_value q) = Ok tt;
}.

#[local] Opaque validate_observation validated build_queue summarize_entries.

Lemma reconcile_Ok obs previous now size task l q :
  reconcile obs previous now size task = Ok (l, q) ↔
  ∃ o start merged, reconciled obs previous now size task l q o start merged.
Proof.
  unfold reconcile. split.
  - intros H. repeat inv_step. subst.
    repeat match goal with
    | H : negb _ = false |- _ => apply negb_false_iff in H
    | H : _ && _ = true |- _ => apply andb_true_iff in H as [? ?]
    | H : (_ <=? _) = true |- _ => apply Z.leb_le in H
    end.
    eexists _, _, _. by split.
  - intros (o & start & merged & [[H1 H2] Ht Ho Hs Hm -> -> Hl Hq]).
    rewrite (proj2 (Z.leb_le _ _) H1), (proj2 (Z.leb_le _ _) H2), Ht. simpl.
    rewrite Ho. simpl. rewrite Hs. simpl. rewrite Hm. simpl.
    simpl in Hl, Hq. rewrite Hl. simpl. rewrite Hq. done.
Qed.

(** ** The start of a reconciliation *)

#[local] Transparent validated.

(** The document of a ledger passes validation. *)
Lemma validated_Ok p start :
  validated p = Ok start →
  (∃ t u, representable t = true ∧ representable u = true ∧
    start = MkLedger (isoformat t "Z") (isoformat u "Z") (ledger_batch p) (entries p)
              (ledger_summary p)) ∧
  Z.of_nat (length (entries p)) <= MAX_ITEMS ∧
  for_each (map (λ '(k, e), (k, entry_value e)) (entries p)) (λ kv _, check_entry kv) tt = Ok tt.
Proof.
  unfold validated. intros (d & Hd & [= <-])%bind_Ok. unfold validate_ledger in Hd.
  repeat inv_step. subst.
  repeat match goal with H : parse_timestamp _ _ = Ok _ |- _ =>
    apply parse_timestamp_Ok in H as (? & ? & ->) end.
  match goal with H : expect_object _ _ = Ok ?d |- _ =>
    assert (map (λ '(k, e), (k, entry_value e)) (entries p) = d) as <-
      by (apply expect_object_Ok in H; by injection H) end.
  match goal with H : (_ <? _) = false |- _ => apply Z.ltb_ge in H; rewrite length_map in H end.
  split; [|split; done]. do 2 eexists. split; [|split; [|reflexivity]]; assumption.
Qed.

(** A ledger in canonical form whose document is safe validates to itself. *)
Lemma validated_same l t u :
  created_at l = isoformat t "Z" → updated_at l = isoformat u "Z" →
  representable t = true → representable u = true →
  Z.of_nat (length (entries l)) <= MAX_ITEMS →
  for_each (map (λ '(k, e), (k, entry_value e)) (entries l)) (λ kv _, check_entry kv) tt = Ok tt →
  validate_public_safety (VDict (ledger_items l)) = Ok tt →
  validated l = Ok l.
Proof.
  destruct l as [c w b es s]. simpl. intros -> -> Ht Hu Hn Hes Hsafe.
  unfold validated, validate_ledger, ledger_items in *. cbn [created_at updated_at entries
    ledger_batch ledger_summary] in *.
  rewrite raise_if_false by reflexivity. cbn [mbind result_bind]. repeat read_key.
  rewrite !parse_timestamp_printed by done. cbn [mbind result_bind].
  rewrite (proj2 (expect_object_Ok _ _ _)) by reflexivity. cbn [mbind result_bind].
  rewrite length_map, raise_if_false by by apply Z.ltb_ge. cbn [mbind result_bind].
  rewrite Hes. cbn [mbind result_bind dict_set String.eqb Ascii.eqb Bool.eqb].
  rewrite Hsafe. reflexivity.
Qed.

Lemma check_entries_Ok (l : list (string * entry)) :
  for_each (map (λ '(k, e), (k, entry_value e)) l) (λ kv _, check_entry kv) tt = Ok tt ↔
  Forall (λ ke, ke.1 ≠ EmptyString) l.
Proof.
  induction l as [|[k e] l IH]; simpl; [done|]. rewrite Forall_cons, <- IH. simpl.
  destruct (String.eqb_spec k EmptyString); simpl; split; try done.
  - by intros [? _].
  - by intros [_ ?].
Qed.

(** ** The invariant of a ledger *)

(** An entry records its observation: its key, digest, links and
    classification are the observation's, and it counts at least one attempt. *)
Record entry_ok (k : string) (e : entry) : Prop := {
  entry_ok_key : entry_key e = k ∧ ledger_key (entry_observation e) = k;
  entry_ok_digest : observation_digest e = digest_of (item_value (entry_observation e));
  entry_ok_class : classify (entry_observation e) = Ok (entry_classification e);
  entry_ok_links : entry_links e = evidence_links (entry_observation e);
  entry_ok_attempts : 1 <= attempts e;
}.

Record ledger_ok (l : ledger) : Prop := {
  ledger_ok_keys : NoDup (entries l).*1;
  ledger_ok_sorted : Sorted.Sorted (in_order entry_leb) (entries l);
  ledger_ok_entries k e : (k, e) ∈ entries l → entry_ok k e;
}.

Definition previous_ok (previous : option ledger) : Prop :=
  match previous with Some p => ledger_ok p | None => True end.

Lemma previous_entries previous :
  previous_ok previous →
  NoDup (prior_entries previous).*1 ∧ ∀ k e, (k, e) ∈ prior_entries previous → entry_ok k e.
Proof.
  destruct previous as [p|]; [by intros []|]. split; [constructor|].
  by intros ?? ?%not_elem_of_nil.
Qed.

Lemma build_entry_ok now prior i c :
  classify i = Ok c → entry_ok (ledger_key i) (build_entry now prior i c).
Proof.
  intros Hc. unfold build_entry.
  pose proof (entry_history_attempts now (digest_of (item_value i)) prior) as Ha.
  destruct (entry_history _ _ _) as [first att]. simpl in *. by split.
Qed.

Lemma rec_prior obs previous now size task l q o start merged :
  reconciled obs previous now size task l q o start merged →
  entries start = prior_entries previous.
Proof.
  intros [_ _ _ Hs _ _ _ _ _]. destruct previous as [p|]; [|by injection Hs as <-].
  by apply validated_Ok in Hs as ((t & u & _ & _ & ->) & _).
Qed.

Lemma batch_NoDup obs o (n : nat) :
  validate_observation obs = Ok o → NoDup (map ledger_key (take n (observed_items o))).
Proof.
  intros (raws & l & [_ _ _ _ _ Hk Ho _])%validate_Ok.
  assert (NoDup (map ledger_key (observed_items o))) as Hnd
    by (rewrite Ho; by rewrite (Permutation_map _ (stable_sort_Permutation _ _))).
  rewrite <- (take_drop n (observed_items o)), map_app in Hnd. by apply NoDup_app in Hnd as (? & _).
Qed.

Definition batch_of (o : observation) (size : Z) : list item :=
  take (Z.to_nat size) (observed_items o).

(** The entries after a reconciliation, key by key. *)
Lemma reconciled_entries obs previous now size task l q o start merged :
  reconciled obs previous now size task l q o start merged →
  NoDup (prior_entries previous).*1 →
  NoDup (entries l).*1 ∧
  (∀ i, i ∈ batch_of o size → ∃ c, classify i = Ok c ∧ assoc_get (entries l) (ledger_key i) =
    Some (build_entry now (assoc_get (prior_entries previous) (ledger_key i)) i c)) ∧
  (∀ k, k ∉ map ledger_key (batch_of o size) →
    assoc_get (entries l) k = assoc_get (prior_entries previous) k).
Proof.
  intros R Hnd. pose proof (rec_prior _ _ _ _ _ _ _ _ _ _ R) as Hp.
  destruct R as [_ _ Ho _ Hm -> _ _ _]. rewrite Hp in Hm. simpl.
  pose proof (merge_NoDup _ _ _ _ Hm Hnd) as Hnd'.
  pose proof (stable_sort_Permutation entry_leb merged) as Hperm.
  assert (NoDup (stable_sort entry_leb merged).*1) as Hsorted by by rewrite Hperm.
  assert (∀ k, assoc_get (stable_sort entry_leb merged) k = assoc_get merged k) as Hat
    by (intros k; by apply assoc_get_perm).
  apply merge_spec in Hm as [H1 H2]; [|by eapply batch_NoDup].
  split; [done|]. split.
  - intros i Hi. destruct (H1 i Hi) as (c & Hc & He). exists c. by rewrite Hat.
  - intros k Hk. rewrite Hat. by apply H2.
Qed.

(** Merging a batch updates exactly its entries.  For every item of the
    batch the ledger holds an entry that records it as seen now: a new key
    starts with one attempt; a known key keeps the time it was first seen and
    counts one attempt more exactly when the observation's digest changed.
    Every other key keeps the entry it had, and no key occurs twice. *)
Theorem reconcile_updates_exactly obs previous now size task l q :
  reconcile obs previous now size task = Ok (l, q) → previous_ok previous →
  ∃ o, validate_observation obs = Ok o ∧ NoDup (entries l).*1 ∧
    (∀ i, i ∈ batch_of o size → ∃ e, assoc_get (entries l) (ledger_key i) = Some e ∧
      entry_observation e = i ∧ last_seen e = now ∧
      match assoc_get (prior_entries previous) (ledger_key i) with
      | None => first_seen e = now ∧ attempts e = 1
      | Some p => first_seen e = first_seen p ∧
          attempts e = attempts p +
            (if String.eqb (observation_digest p) (observation_digest e) then 0 else 1)
      end) ∧
    (∀ k, k ∉ map ledger_key (batch_of o size) →
      assoc_get (entries l) k = assoc_get (prior_entries previous) k).
Proof.
  intros (o & start & merged & R)%reconcile_Ok Hprev. exists o.
  split; [by destruct R|]. destruct (previous_entries _ Hprev) as [Hnd Hok].
  destruct (reconciled_entries _ _ _ _ _ _ _ _ _ _ R Hnd) as (Hnd' & Hin & Hout).
  split; [done|]. split; [|done]. intros i Hi. destruct (Hin i Hi) as (c & _ & He).
  eexists. split; [exact He|].
  destruct (assoc_get (prior_entries previous) (ledger_key i)) as [p|] eqn:Hp; [|done].
  apply assoc_get_elem in Hp; [|done]. destruct (Hok _ _ Hp) as [_ _ _ _ Ha].
  unfold build_entry, entry_history. simpl.
  destruct (String.eqb _ _); simpl; rewrite (proj2 (Z.ltb_ge _ _)) by lia; repeat split; lia.
Qed.

Lemma reconciled_ok obs previous now size task l q o start merged :
  reconciled obs previous now size task l q o start merged → previous_ok previous → ledger_ok l.
Proof.
  intros R Hprev.
  destruct (previous_entries _ Hprev) as [Hnd Hok].
  destruct (reconciled_entries _ _ _ _ _ _ _ _ _ _ R Hnd) as (Hnd' & Hin & Hout).
  split; [done| |].
  - destruct R as [_ _ _ _ _ -> _ _ _]. apply stable_sort_Sorted, entry_leb_total.
  - intros k e He. apply assoc_get_elem in He; [|done].
    destruct (decide (k ∈ map ledger_key (batch_of o size))) as [Hk|Hk].
    + apply list_elem_of_fmap in Hk as (i & -> & Hi). destruct (Hin i Hi) as (c & Hc & Heq).
      rewrite Heq in He. injection He as <-. by apply build_entry_ok.
    + rewrite Hout in He by done. apply Hok. by apply assoc_get_elem.
Qed.

(** ** Summaries *)

#[local] Transparent summarize_entries build_queue.

Definition STATUSES : list string := ["complete"; "actionable"; "blocked"; "excluded"].

Lemma classify_status i c : classify i = Ok c → status c ∈ STATUSES.
Proof.
  intros H. apply classification_cases in H as [(-> & _)|[_ Hv]]; [listed|].
  destruct Hv; listed.
Qed.

Lemma count_cons s t l : count s (t :: l) = (if String.eqb s t then 1 else 0) + count s l.
Proof. unfold count. simpl. destruct (String.eqb s t); simpl length; lia. Qed.

Lemma statuses_counted l :
  Forall (λ s, s ∈ STATUSES) l →
  count "complete" l + count "actionable" l + count "blocked" l + count "excluded" l =
    Z.of_nat (length l).
Proof.
  induction 1 as [|s l Hs _ IH]; [done|]. rewrite !count_cons.
  unfold STATUSES in Hs. rewrite !elem_of_cons, elem_of_nil in Hs.
  destruct Hs as [->|[->|[->|[->|[]]]]]; simpl; lia.
Qed.

(** The ledger's invariant.  Starting from no ledger or from one that
    satisfies it, a reconciliation yields a ledger whose keys are distinct and
    sorted, whose entries each record their own observation (key, digest,
    links and classification are the observation's, at least one attempt), and
    whose summary counts every entry under exactly one of the four states. *)
Theorem reconcile_keeps_invariant obs previous now size task l q :
  reconcile obs previous now size task = Ok (l, q) → previous_ok previous →
  ledger_ok l ∧ ∃ s, ledger_summary l = Some s ∧
    entry_count s = Z.of_nat (length (entries l)) ∧
    complete_count s + actionable_count s + blocked_count s + excluded_count s = entry_count s.
Proof.
  intros (o & start & merged & R)%reconcile_Ok Hprev.
  pose proof (reconciled_ok _ _ _ _ _ _ _ _ _ _ R Hprev) as Hok. split; [done|].
  destruct R as [_ _ _ _ _ -> _ _ _]. eexists. split; [done|]. split; [done|]. simpl.
  rewrite statuses_counted; [by rewrite !length_map|].
  rewrite map_map. apply Forall_forall. intros s ([k e] & -> & He)%list_elem_of_fmap.
  destruct Hok as [_ _ Hes]. destruct (Hes k e He) as [_ _ Hc _ _]. by eapply classify_status.
Qed.

(** ** The queue *)

(** What the command line may recover without a human. *)
Definition recoverable_by_cli (i : item) : Prop :=
  not_expected i = false ∧ (∀ f, finding_holds i f → f ∉ fail_closed_findings) ∧
  ((finding_holds i "repository_missing" ∧ allow_repository_creation (item_intent i) = true) ∨
   (¬ finding_holds i "repository_missing" ∧ ∃ f, finding_holds i f ∧ f ∈ recovery_findings)).

Lemma cli_action_iff i c :
  classify i = Ok c → mem_str (next_action c) CLI_ACTIONS = true ↔ recoverable_by_cli i.
Proof.
  intros H. unfold recoverable_by_cli.
  apply classification_cases in H as [(_ & -> & ->)|[-> Hv]].
  { split; [done|by intros [? _]]. }
  destruct Hv as [Hno|f Hf Hin|Hopen Hm Ha|Hopen Hm Ha|f Hopen Hm Hf Hin|Honly]; split; try done.
  - intros (_ & _ & [[? _]|(_ & f & ? & _)]); by edestruct Hno.
  - intros (_ & Hopen & _). by destruct (Hopen f).
  - intros _. eauto.
  - intros (_ & _ & [[_ ?]|[? _]]); [congruence|done].
  - intros _. eauto 10.
  - intros (_ & _ & [[Hf _]|(_ & f & Hf & Hin)]); apply Honly in Hf; [done|subst].
    exfalso. revert Hin. by apply (bool_decide_eq_false_1 _).
Qed.

(** C21: The command line's queue fails closed.  A key is queued exactly when
    its entry's observation expects an artifact, has no finding that fails
    closed (ownership, incomplete evidence or an unconfirmed claim), and
    either misses a repository that may be created, or has its repository and
    local work to publish.  Every row is the row of its entry, the rows are
    sorted by key, and the queue names the digest of the ledger it was built
    from. *)
Theorem queue_fails_closed obs previous now size task l q :
  reconcile obs previous now size task = Ok (l, q) → previous_ok previous →
  (∀ k, k ∈ map cli_ledger_key (queue_items q) ↔
    ∃ e, (k, e) ∈ entries l ∧ recoverable_by_cli (entry_observation e)) ∧
  (∀ x, x ∈ queue_items q → ∃ e, (cli_ledger_key x, e) ∈ entries l ∧
    build_cli_item task e = Some x) ∧
  Sorted.Sorted (in_order cli_leb) (queue_items q) ∧
  source_ledger_digest q = digest_of (VDict (ledger_items l)).
Proof.
  intros (o & start & merged & R)%reconcile_Ok Hprev.
  pose proof (reconciled_ok _ _ _ _ _ _ _ _ _ _ R Hprev) as [_ _ Hes].
  destruct R as [_ _ _ _ _ _ -> _ _].
  assert (∀ x, x ∈ queue_items (build_queue now task l) ↔
    ∃ k e, (k, e) ∈ entries l ∧ build_cli_item task e = Some x) as Hrows.
  { intros x. simpl. rewrite stable_sort_elem, list_elem_of_omap. split.
    - intros ([k e] & ? & ?). eauto.
    - intros (k & e & ? & ?). by exists (k, e). }
  assert (∀ k e x, (k, e) ∈ entries l → build_cli_item task e = Some x →
    cli_ledger_key x = k ∧ mem_str (next_action (entry_classification e)) CLI_ACTIONS = true) as Hrow.
  { intros k e x He. unfold build_cli_item. destruct (mem_str _ _); [|done]. simpl.
    intros [= <-]. simpl. split; [by apply (Hes k e He)|done]. }
  split; [|split; [|split; [apply stable_sort_Sorted, cli_leb_total|done]]].
  - intros k. rewrite list_elem_of_fmap. split.
    + intros (x & -> & (j & e & He & Hx)%Hrows). destruct (Hrow _ _ _ He Hx) as [-> Hact].
      exists e. split; [done|]. eapply cli_action_iff; [by apply (Hes j e He)|done].
    + intros (e & He & Hr). eapply cli_action_iff in Hr; [|by apply (Hes k e He)].
      destruct (build_cli_item task e) as [x|] eqn:Hx.
      * exists x. destruct (Hrow _ _ _ He Hx) as [<- _]. split; [done|]. apply Hrows. eauto.
      * unfold build_cli_item in Hx. by rewrite Hr in Hx.
  - intros x (k & e & He & Hx)%Hrows. destruct (Hrow _ _ _ He Hx) as [-> _]. eauto.
Qed.

(** ** Idempotence *)

Lemma ledger_key_nonempty i : ledger_key i ≠ EmptyString.
Proof. unfold ledger_key. by destruct (origin_source (item_origin i)). Qed.

Lemma reconciled_keys obs previous now size task l q o start merged :
  reconciled obs previous now size task l q o start merged →
  NoDup (prior_entries previous).*1 → Forall (λ ke, ke.1 ≠ EmptyString) (entries l).
Proof.
  intros R Hnd. destruct (reconciled_entries _ _ _ _ _ _ _ _ _ _ R Hnd) as (Hnd' & _ & Hout).
  apply Forall_forall. intros [k e] He%assoc_get_elem; [|done]. simpl.
  destruct (decide (k ∈ map ledger_key (batch_of o size))) as [Hk|Hk].
  - apply list_elem_of_fmap in Hk as (i & -> & _). apply ledger_key_nonempty.
  - rewrite Hout in He by done. apply assoc_get_elem in He; [|done].
    destruct R as [_ _ _ Hs _ _ _ _ _]. destruct previous as [p|]; [|by apply not_elem_of_nil in He].
    apply validated_Ok in Hs as (_ & _ & Hc%check_entries_Ok).
    rewrite Forall_forall in Hc. by apply (Hc (k, e)).
Qed.

Lemma rec_created obs previous now size task l q o start merged :
  reconciled obs previous now size task l q o start merged →
  (∃ t, representable t = true ∧ now = isoformat t "Z") →
  ∃ t, representable t = true ∧ created_at l = isoformat t "Z".
Proof.
  intros [_ _ _ Hs _ -> _ _ _] Hnow. simpl. destruct previous as [p|]; [|by injection Hs as <-].
  apply validated_Ok in Hs as ((t & u & Ht & _ & ->) & _). eauto.
Qed.

(** C4: Reconciliation is idempotent.  Merging the same batch into the ledger
    it produced, at the same time, returns the same ledger and the same queue:
    no attempt is counted, no time moves, no entry is added.  The time is the
    one [now_utc] gives; the ledger must still be within the size the code
    accepts when it reads one back (the code does not check this when it
    writes one). *)
Theorem reconcile_idempotent obs previous clock arg now size task l q :
  reconcile obs previous now size task = Ok (l, q) → NoDup (prior_entries previous).*1 →
  representable clock = true → now_utc clock arg = Ok now →
  Z.of_nat (length (entries l)) <= MAX_ITEMS →
  reconcile obs (Some l) now size task = Ok (l, q).
Proof.
  intros (o & start & merged & R)%reconcile_Ok Hnd Hclock Hnow%now_utc_Ok Hsize; [|done].
  pose proof (reconciled_keys _ _ _ _ _ _ _ _ _ _ R Hnd) as Hkeys.
  destruct (rec_created _ _ _ _ _ _ _ _ _ _ R Hnow) as (t & Ht & Hcreated).
  destruct (reconciled_entries _ _ _ _ _ _ _ _ _ _ R Hnd) as (_ & Hin & _).
  destruct Hnow as (u & Hu & Hnow).
  destruct R as [Hs Ht' Ho Hst Hm Hl Hq Hsafe Hqsafe].
  apply reconcile_Ok. exists o, l, (entries l). split; try done.
  - apply (validated_same l t u); try done; [by rewrite Hl|by apply check_entries_Ok].
  - apply merge_again. intros i Hi. destruct (Hin i Hi) as (c & Hc & He). eauto.
  - rewrite Hl at 1. rewrite Hl. simpl.
    by rewrite (stable_sort_idem _ entry_leb_total).
Qed.

(** ** The example, merged twice *)

Definition example_now : string := "2026-08-07T20:15:00Z".
Definition no_ledger : ledger * queue :=
  (empty_ledger EmptyString, MkQueue EmptyString EmptyString EmptyString []).
Definition reconciled_or_empty (r : result (ledger * queue)) : ledger * queue :=
  match r with Ok p => p | Raise _ => no_ledger end.
Definition example_outcome : result (ledger * queue) :=
  reconcile example_observation None example_now 50 DEFAULT_CLI_TASK_ID.
Definition example_result : ledger * queue := reconciled_or_empty example_outcome.
Definition example_ledger : ledger := example_result.1.
Definition example_queue : queue := example_result.2.

(** One attempt each, and one row to create the missing repository. *)
Lemma reconciled_says :
  match example_outcome with
  | Ok (l, q) => Ok (map (λ kv, (kv.1, attempts kv.2)) (entries l), map cli_ledger_key (queue_items q))
  | Raise e => Raise e
  end =
  Ok ([("chatgpt:chat-1::hypesiege/worker.rs", 1); ("chatgpt:chat-2::hypesiege/scheduler.rs", 1)],
      ["chatgpt:chat-1::hypesiege/worker.rs"]).
Proof. vm_compute. reflexivity. Qed.

Lemma example_reconciled :
  reconcile example_observation None example_now 50 DEFAULT_CLI_TASK_ID =
    Ok (example_ledger, example_queue).
Proof.
  pose proof reconciled_says as H. unfold example_ledger, example_queue, example_result.
  fold example_outcome. by destruct example_outcome as [[l q]|e].
Qed.

Lemma example_clock : representable 0 = true.
Proof. reflexivity. Qed.
Lemma example_time : now_utc 0 (Some example_now) = Ok example_now.
Proof. vm_compute. reflexivity. Qed.
Lemma example_size : Z.of_nat (length (entries example_ledger)) <= MAX_ITEMS.
Proof.
  pose proof reconciled_says as H. unfold example_ledger, example_result.
  destruct example_outcome as [[l q]|e]; [|done]. injection H as H _. cbn [reconciled_or_empty fst].
  rewrite <- (length_map (λ kv, (kv.1, attempts kv.2)) (entries l)), H. done.
Qed.

Lemma reconcile_updates_exactly_witness :
  ∃ o, validate_observation example_observation = Ok o ∧ NoDup (entries example_ledger).*1 ∧
    (∀ i, i ∈ batch_of o 50 → ∃ e, assoc_get (entries example_ledger) (ledger_key i) = Some e ∧
      entry_observation e = i ∧ last_seen e = example_now ∧
      match assoc_get (prior_entries None) (ledger_key i) with
      | None => first_seen e = example_now ∧ attempts e = 1
      | Some p => first_seen e = first_seen p ∧
          attempts e = attempts p +
            (if String.eqb (observation_digest p) (observation_digest e) then 0 else 1)
      end) ∧
    (∀ k, k ∉ map ledger_key (batch_of o 50) →
      assoc_get (entries example_ledger) k = assoc_get (prior_entries None) k).
Proof. exact (reconcile_updates_exactly _ _ _ _ _ _ _ example_reconciled I). Defined.

Lemma reconcile_keeps_invariant_witness :
  ledger_ok example_ledger ∧ ∃ s, ledger_summary example_ledger = Some s ∧
    entry_count s = Z.of_nat (length (entries example_ledger)) ∧
    complete_count s + actionable_count s + blocked_count s + excluded_count s = entry_count s.
Proof. exact (reconcile_keeps_invariant _ _ _ _ _ _ _ example_reconciled I). Defined.

Lemma queue_fails_closed_witness :
  (∀ k, k ∈ map cli_ledger_key (queue_items example_queue) ↔
    ∃ e, (k, e) ∈ entries example_ledger ∧ recoverable_by_cli (entry_observation e)) ∧
  (∀ x, x ∈ queue_items example_queue → ∃ e, (cli_ledger_key x, e) ∈ entries example_ledger ∧
    build_cli_item DEFAULT_CLI_TASK_ID e = Some x) ∧
  Sorted.Sorted (in_order cli_leb) (queue_items example_queue) ∧
  source_ledger_digest example_queue = digest_of (VDict (ledger_items example_ledger)).
Proof. exact (queue_fails_closed _ _ _ _ _ _ _ example_reconciled I). Defined.

Lemma reconcile_idempotent_witness :
  reconcile example_observation (Some example_ledger) example_now 50 DEFAULT_CLI_TASK_ID =
    Ok (example_ledger, example_queue).
Proof.
  exact (reconcile_idempotent _ None _ (Some example_now) _ _ _ _ _ example_reconciled
    (NoDup_nil_2) example_clock example_time example_size).
Defined.

End ReconcileTheorems.
