(* ===== verification/Admissibility.v ===== *)
(** * Evidence admissibility

    [src/tools/artifact_recovery/evidence_admissibility.py]: evidence records
    are judged against the current subjects, the policy and the clock; each
    gets a state, and those that are not current become recertification work,
    grouped by fingerprint.  The documents the code builds as dicts are
    records here and the [*_value] functions are the dicts. *)
From S2P Require Import Prelude PyValue Sha256 Json DateTime RecoveryCommon GitObjects.
From Stdlib Require Import Ascii.

Module Admissibility.
Open Scope Z_scope.

Definition ADMISSIBILITY_SCHEMA : string := "artifact_recovery_evidence_admissibility.v1".
Definition QUEUE_SCHEMA : string := "artifact_recovery_recertification_queue.v1".
Definition RISK_CLASSES : list string := ["security"; "deployment"; "code"; "documentation"].
Definition EVIDENCE_KINDS : list string :=
  ["exact_head_test"; "mergeability_review"; "deployment_health";
   "dependency_certification"; "policy_conformance"; "documentation"].
Definition DEPENDENCY_KINDS : list string :=
  ["pr_head"; "pr_base"; "dependency_graph"; "deployed_image"; "environment_config";
   "source_coverage"; "required_check_set"; "workflow_policy"].
Definition MAX_RECORDS : Z := 10000.
Definition MAX_CLOCK_SKEW_SECONDS : Z := 60 * 60.
Definition MAX_TTL_SECONDS : Z := 31 * 24 * 60 * 60.
(** The states by severity; an unknown one never occurs. *)
Definition STATE_SEVERITY (state : string) : Z :=
  if String.eqb state "current" then 0 else if String.eqb state "stale" then 1
  else if String.eqb state "expired" then 2 else if String.eqb state "unverifiable" then 3
  else if String.eqb state "superseded" then 4 else 5.

(** [f"{field}[{index}]"], and [f"{field}.{name}"]. *)
Definition at_index (field : string) (index : nat) : string :=
  field +:+ "[" +:+ str_nat index +:+ "]".
Definition sub (field name : string) : string := field +:+ "." +:+ name.

(** ** Dependencies: kind and digest *)

Abbreviation dependency := (string * string)%type.

Definition dependency_value (d : dependency) : value :=
  VDict [("kind", VStr d.1); ("digest", VStr d.2)].
Definition dependency_leb (a b : dependency) : bool := str_leb a.1 b.1.

Definition normalize_dependency (field : string) (index : nat) (v : value) : result dependency :=
  let item_field := at_index field index in
  dependency ← strict_object v item_field ["kind"; "digest"];
  kind ← member_of (dict_get dependency "kind") (sub item_field "kind") 64 DEPENDENCY_KINDS;
  digest ← strict_sha256 (dict_get dependency "digest") (sub item_field "digest");
  Ok (kind, digest).

Definition normalize_dependencies (v : value) (field : string) : result (list dependency) :=
  raw ← expect_list v field (Z.of_nat (length DEPENDENCY_KINDS));
  dependencies ← map_enum 0 raw (normalize_dependency field);
  raise_if (negb (bool_decide (NoDup dependencies.*1)))
    (recovery_error (field +:+ " contains duplicate dependency kinds")) ;;
  Ok (stable_sort dependency_leb dependencies).

(** ** Policy *)

Record ttl : Type := Ttl { stale_after_seconds : Z; expires_after_seconds : Z }.

Record policy : Type := Policy {
  version_sha256 : string;
  max_clock_skew_seconds : Z;
  risk_ttls : list (string * ttl);
}.

Definition ttl_value (t : ttl) : value :=
  VDict [("stale_after_seconds", VInt (stale_after_seconds t));
         ("expires_after_seconds", VInt (expires_after_seconds t))].
Definition policy_material (skew : Z) (ttls : list (string * ttl)) : items :=
  [("max_clock_skew_seconds", VInt skew);
   ("risk_ttls", VDict (map (λ '(k, t), (k, ttl_value t)) ttls))].
Definition policy_value (p : policy) : value :=
  VDict (("version_sha256", VStr (version_sha256 p))
         :: policy_material (max_clock_skew_seconds p) (risk_ttls p)).

Definition normalize_ttl (risk_ttls_raw : items) (risk_class : string) : result (string * ttl) :=
  let field := sub "policy.risk_ttls" risk_class in
  ttl ← strict_object (dict_get risk_ttls_raw risk_class) field
    ["stale_after_seconds"; "expires_after_seconds"];
  stale_after_seconds ← strict_int (dict_get ttl "stale_after_seconds")
    (sub field "stale_after_seconds") 1 (Some MAX_TTL_SECONDS);
  expires_after_seconds ← strict_int (dict_get ttl "expires_after_seconds")
    (sub field "expires_after_seconds") 1 (Some MAX_TTL_SECONDS);
  raise_if (expires_after_seconds <=? stale_after_seconds)
    (recovery_error
       (field +:+ ".stale_after_seconds must be less than expires_after_seconds")) ;;
  Ok (risk_class, Ttl stale_after_seconds expires_after_seconds).

Definition normalize_policy (v : value) : result policy :=
  policy ← strict_object v "policy" ["version_sha256"; "max_clock_skew_seconds"; "risk_ttls"];
  version_sha256 ← strict_sha256 (dict_get policy "version_sha256") "policy.version_sha256";
  max_clock_skew_seconds ←
    strict_int (dict_get_or policy "max_clock_skew_seconds" (VInt 300))
      "policy.max_clock_skew_seconds" 0 (Some MAX_CLOCK_SKEW_SECONDS);
  risk_ttls_raw ← strict_object (dict_get policy "risk_ttls") "policy.risk_ttls" RISK_CLASSES;
  let missing := sorted_diff RISK_CLASSES (dict_keys risk_ttls_raw) in
  raise_if (negb (bool_decide (missing = [])))
    (recovery_error ("policy.risk_ttls is missing risk classes: " +:+ repr_strs missing)) ;;
  risk_ttls ← map_enum 0 RISK_CLASSES (λ _ risk_class, normalize_ttl risk_ttls_raw risk_class);
  raise_if (negb (String.eqb version_sha256
                    (digest_of (VDict (policy_material max_clock_skew_seconds risk_ttls)))))
    (recovery_error
       "policy.version_sha256 must bind the canonical clock-skew and risk-TTL policy") ;;
  Ok (Policy version_sha256 max_clock_skew_seconds risk_ttls).

(** ** Subjects *)

Record subject : Type := Subject {
  subject_identity : string;
  revision_sha256 : string;
  dependencies : list dependency;
}.

Definition subject_value (s : subject) : value :=
  VDict [("identity_sha256", VStr (subject_identity s));
         ("revision_sha256", VStr (revision_sha256 s));
         ("dependencies", VList (map dependency_value (dependencies s)))].
Definition subject_leb (a b : subject) : bool :=
  str_leb (subject_identity a) (subject_identity b).

Definition normalize_subject (index : nat) (v : value) : result subject :=
  let field := at_index "subjects" index in
  subject ← strict_object v field ["identity_sha256"; "revision_sha256"; "dependencies"];
  identity ← strict_sha256 (dict_get subject "identity_sha256") (sub field "identity_sha256");
  revision ← strict_sha256 (dict_get subject "revision_sha256") (sub field "revision_sha256");
  dependencies ← normalize_dependencies (dict_get_or subject "dependencies" (VList []))
    (sub field "dependencies");
  Ok (Subject identity revision dependencies).

(** ** Evidence records *)

Record evidence : Type := Evidence {
  identity_sha256 : string;
  kind : string;
  subject_identity_sha256 : string;
  subject_revision_sha256 : string;
  producer_sha256 : string;
  captured_at : string;
  policy_version_sha256 : string;
  payload_sha256 : string;
  risk_class : string;
  owner_sha256 : string;
  dependency_digests : list dependency;
}.

Definition evidence_items (e : evidence) : items :=
  [("identity_sha256", VStr (identity_sha256 e)); ("kind", VStr (kind e));
   ("subject_identity_sha256", VStr (subject_identity_sha256 e));
   ("subject_revision_sha256", VStr (subject_revision_sha256 e));
   ("producer_sha256", VStr (producer_sha256 e)); ("captured_at", VStr (captured_at e));
   ("policy_version_sha256", VStr (policy_version_sha256 e));
   ("payload_sha256", VStr (payload_sha256 e)); ("risk_class", VStr (risk_class e));
   ("owner_sha256", VStr (owner_sha256 e));
   ("dependency_digests", VList (map dependency_value (dependency_digests e)))].

Definition PROVIDED_KEYS : list string :=
  ["record_sha256"; "current_subject_revision_sha256"; "age_seconds"; "state";
   "reason_codes"; "changed_dependencies"; "unresolved_dependencies"].
Definition EVIDENCE_KEYS : list string :=
  ["identity_sha256"; "kind"; "subject_identity_sha256"; "subject_revision_sha256";
   "producer_sha256"; "captured_at"; "policy_version_sha256"; "payload_sha256";
   "risk_class"; "owner_sha256"; "dependency_digests"] ++ PROVIDED_KEYS.

(** The keys of the derived assessment that the document provides. *)
Definition provided_of (evidence : items) : items :=
  map (λ key, (key, dict_get evidence key))
    (List.filter (dict_has evidence) PROVIDED_KEYS).

Definition normalize_evidence_record (index : nat) (v : value) : result (evidence * items) :=
  let field := at_index "evidence" index in
  evidence ← strict_object v field EVIDENCE_KEYS;
  kind ← member_of (dict_get evidence "kind") (sub field "kind") 64 EVIDENCE_KINDS;
  risk_class ← member_of (dict_get evidence "risk_class") (sub field "risk_class") 32 RISK_CLASSES;
  '(captured_at, _) ← parse_datetime (dict_get evidence "captured_at") (sub field "captured_at");
  identity ← strict_sha256 (dict_get evidence "identity_sha256") (sub field "identity_sha256");
  subject_identity ← strict_sha256 (dict_get evidence "subject_identity_sha256")
    (sub field "subject_identity_sha256");
  subject_revision ← strict_sha256 (dict_get evidence "subject_revision_sha256")
    (sub field "subject_revision_sha256");
  producer ← strict_sha256 (dict_get evidence "producer_sha256") (sub field "producer_sha256");
  policy_version ← strict_sha256 (dict_get evidence "policy_version_sha256")
    (sub field "policy_version_sha256");
  payload ← strict_sha256 (dict_get evidence "payload_sha256") (sub field "payload_sha256");
  owner ← strict_sha256 (dict_get evidence "owner_sha256") (sub field "owner_sha256");
  dependency_digests ← normalize_dependencies
    (dict_get_or evidence "dependency_digests" (VList [])) (sub field "dependency_digests");
  Ok (Evidence identity kind subject_identity subject_revision producer captured_at
        policy_version payload risk_class owner dependency_digests, provided_of evidence).

(** ** Assessments *)

Record assessment : Type := Assessment {
  record : evidence;
  record_sha256 : string;
  current_revision : option string;
  age_seconds : Z;
  state : string;
  reason_codes : list string;
  changed_dependencies : list string;
  unresolved_dependencies : list string;
}.

Definition derived_items (a : assessment) : items :=
  [("record_sha256", VStr (record_sha256 a));
   ("current_subject_revision_sha256", opt_str (current_revision a));
   ("age_seconds", VInt (age_seconds a)); ("state", VStr (state a));
   ("reason_codes", strs (reason_codes a));
   ("changed_dependencies", strs (changed_dependencies a));
   ("unresolved_dependencies", strs (unresolved_dependencies a))].
Definition assessment_items (a : assessment) : items :=
  evidence_items (record a) ++ derived_items a.
Definition assessment_value (a : assessment) : value := VDict (assessment_items a).

Definition is_list (v : value) : bool := match v with VList _ => true | _ => false end.

Definition validate_provided_assessment (provided derived : items) (field : string)
  : result unit :=
  for_each provided (λ '(key, v) _,
    let expected := dict_get derived key in
    let complaint := recovery_error (sub field key +:+ " does not match the derived assessment") in
    if mem_str key ["reason_codes"; "changed_dependencies"; "unresolved_dependencies"]
    then raise_if (negb (is_list v) || negb (py_eq v expected)) complaint
    else raise_if (negb (py_eq v expected)) complaint) tt.

(** The kinds whose current digest is missing, and those where it differs. *)
Definition unresolved_in (current required : list dependency) : list string :=
  (List.filter (λ d : dependency, negb (is_some (assoc_get current d.1))) required).*1.
Definition changed_in (current required : list dependency) : list string :=
  (List.filter (λ d : dependency,
     match assoc_get current d.1 with Some digest => negb (String.eqb digest d.2) | None => false end)
     required).*1.

Definition ttl_of (p : policy) (risk_class : string) : result ttl :=
  match assoc_get (risk_ttls p) risk_class with
  | Some t => Ok t
  | None => Raise (Exn KeyError (repr_str risk_class))
  end.

(** The state of evidence on a subject that is known, with its reasons. *)
Definition judge (e : evidence) (p : policy) (age : Z) (s : subject)
  : result (string * list string) :=
  let moved := negb (String.eqb (subject_revision_sha256 e) (revision_sha256 s)) in
  let repoliced := negb (String.eqb (policy_version_sha256 e) (version_sha256 p)) in
  let unresolved := unresolved_in (dependencies s) (dependency_digests e) in
  let changed := changed_in (dependencies s) (dependency_digests e) in
  let codes :=
    (if moved then ["subject_revision_changed"] else [])
    ++ (if repoliced then ["policy_version_changed"] else [])
    ++ (if bool_decide (unresolved = []) then [] else ["dependency_unresolved"])
    ++ (if bool_decide (changed = []) then [] else ["dependency_changed"]) in
  if mem_str "subject_revision_changed" codes then Ok ("superseded", codes)
  else if mem_str "policy_version_changed" codes || mem_str "dependency_changed" codes
  then Ok ("invalidated", codes)
  else if mem_str "dependency_unresolved" codes then Ok ("unverifiable", codes)
  else
    ttl ← ttl_of p (risk_class e);
    Ok (if expires_after_seconds ttl <? age
        then ("expired", codes ++ ["admissibility_ttl_elapsed"])
        else if stale_after_seconds ttl <? age
        then ("stale", codes ++ ["freshness_warning_elapsed"])
        else ("current", codes)).

Definition skew_error : exn :=
  recovery_error "evidence.captured_at is beyond the allowed clock skew".

(** The age of a record at the report's time. *)
Definition derive_age (e : evidence) (generated_at : Z) (p : policy) : result Z :=
  '(_, captured_at) ← parse_datetime (VStr (captured_at e)) "evidence.captured_at";
  latest ← instant_add generated_at (seconds (max_clock_skew_seconds p));
  raise_if (latest <? captured_at) skew_error ;;
  let age := elapsed_seconds generated_at captured_at in
  raise_if (age <? - max_clock_skew_seconds p) skew_error ;;
  Ok (Z.max 0 age).

Fixpoint subject_of (subjects : list subject) (identity : string) : option subject :=
  match subjects with
  | [] => None
  | s :: subjects =>
      if String.eqb (subject_identity s) identity then Some s else subject_of subjects identity
  end.

Definition record_digest (e : evidence) : string := digest_of (VDict (evidence_items e)).

Definition derive_assessment (generated_at : Z) (p : policy) (subjects : list subject)
    (e : evidence) : result assessment :=
  age ← derive_age e generated_at p;
  assessed ←
    match subject_of subjects (subject_identity_sha256 e) with
    | None =>
        Ok (Assessment e (record_digest e) None age "unverifiable" ["subject_unresolved"] [] [])
    | Some s =>
        '(state, codes) ← judge e p age s;
        Ok (Assessment e (record_digest e) (Some (revision_sha256 s)) age state
              (sorted_set codes)
              (sorted_strs (changed_in (dependencies s) (dependency_digests e)))
              (sorted_strs (unresolved_in (dependencies s) (dependency_digests e))))
    end;
  validate_public_safety (assessment_value assessed) ;;
  Ok assessed.

(** ** Recertification work *)

Record work : Type := Work {
  fingerprint_sha256 : string;
  work_subject : string;
  evidence_kind : string;
  work_revision : option string;
  work_owner : string;
  highest_state : string;
  observed_states : list string;
  evidence_identities : list string;
  work_reasons : list string;
  work_changed : list string;
  work_unresolved : list string;
}.

Definition fingerprint_material (a : assessment) : items :=
  [("subject_identity_sha256", VStr (subject_identity_sha256 (record a)));
   ("evidence_kind", VStr (kind (record a)));
   ("current_revision_sha256", opt_str (current_revision a))].
Definition fingerprint (a : assessment) : string := digest_of (VDict (fingerprint_material a)).

Definition new_work (a : assessment) : work :=
  Work (fingerprint a) (subject_identity_sha256 (record a)) (kind (record a))
    (current_revision a) (owner_sha256 (record a)) (state a) [] [] [] [] [].

(** One more assessment of the same fingerprint. *)
Definition extend_work (a : assessment) (w : work) : work :=
  Work (fingerprint_sha256 w) (work_subject w) (evidence_kind w) (work_revision w) (work_owner w)
    (if STATE_SEVERITY (highest_state w) <? STATE_SEVERITY (state a)
     then state a else highest_state w)
    (observed_states w ++ [state a])
    (evidence_identities w ++ [identity_sha256 (record a)])
    (work_reasons w ++ reason_codes a)
    (work_changed w ++ changed_dependencies a)
    (work_unresolved w ++ unresolved_dependencies a).

Definition group_assessment (a : assessment) (grouped : list (string * work))
  : result (list (string * work)) :=
  if String.eqb (state a) "current" then Ok grouped else
  match assoc_get grouped (fingerprint a) with
  | None => Ok (assoc_set grouped (fingerprint a) (extend_work a (new_work a)))
  | Some w =>
      raise_if (negb (String.eqb (work_owner w) (owner_sha256 (record a))))
        (recovery_error
           "recertification fingerprint has conflicting owners; ownership must be resolved") ;;
      Ok (assoc_set grouped (fingerprint a) (extend_work a w))
  end.

Definition settle_work (w : work) : work :=
  Work (fingerprint_sha256 w) (work_subject w) (evidence_kind w) (work_revision w) (work_owner w)
    (highest_state w) (sorted_set (observed_states w)) (sorted_set (evidence_identities w))
    (sorted_set (work_reasons w)) (sorted_set (work_changed w)) (sorted_set (work_unresolved w)).

Definition work_value (w : work) : value :=
  VDict [("fingerprint_sha256", VStr (fingerprint_sha256 w));
         ("subject_identity_sha256", VStr (work_subject w));
         ("evidence_kind", VStr (evidence_kind w));
         ("current_revision_sha256", opt_str (work_revision w));
         ("owner_sha256", VStr (work_owner w)); ("action", VStr "recertify");
         ("highest_state", VStr (highest_state w));
         ("observed_states", strs (observed_states w));
         ("evidence_identity_sha256s", strs (evidence_identities w));
         ("reason_codes", strs (work_reasons w));
         ("changed_dependencies", strs (work_changed w));
         ("unresolved_dependencies", strs (work_unresolved w))].

Definition queue_items (l : list work) : items :=
  [("schema_version", VStr QUEUE_SCHEMA);
   ("summary", VDict [("items", VInt (Z.of_nat (length l)))]);
   ("items", VList (map work_value l))].
Definition queue_value (l : list work) : value :=
  VDict (queue_items l ++ [("queue_sha256", VStr (digest_of (VDict (queue_items l))))]).

Definition group_leb (a b : string * work) : bool := str_leb a.1 b.1.

Definition build_recertification_queue (evidence : list assessment) : result (list work) :=
  grouped ← for_each evidence group_assessment [];
  let queue := map (λ kw, settle_work kw.2) (stable_sort group_leb grouped) in
  validate_public_safety (queue_value queue) ;;
  Ok queue.

(** ** The report *)

Definition state_count (state_name : string) (l : list assessment) : Z :=
  Z.of_nat (length (List.filter (λ a, String.eqb (state a) state_name) l)).

Record summary : Type := Summary {
  status : string;
  subject_count : Z;
  evidence_count : Z;
  current_count : Z;
  stale_count : Z;
  superseded_count : Z;
  invalidated_count : Z;
  unverifiable_count : Z;
  expired_count : Z;
  recertification_items : Z;
}.

Definition summary_value (s : summary) : value :=
  VDict [("status", VStr (status s)); ("complete", VBool (String.eqb (status s) "complete"));
         ("subjects", VInt (subject_count s)); ("evidence", VInt (evidence_count s));
         ("current", VInt (current_count s)); ("stale", VInt (stale_count s));
         ("superseded", VInt (superseded_count s)); ("invalidated", VInt (invalidated_count s));
         ("unverifiable", VInt (unverifiable_count s)); ("expired", VInt (expired_count s));
         ("recertification_items", VInt (recertification_items s))].

Definition blocking_states : list string :=
  ["superseded"; "invalidated"; "unverifiable"; "expired"].

Definition summarize (subjects : list subject) (evidence : list assessment) (queue : list work)
  : summary :=
  let counts := λ s, state_count s evidence in
  let status :=
    if existsb (λ s, negb (counts s =? 0)) blocking_states then "blocked"
    else if negb (counts "stale" =? 0) then "partial" else "complete" in
  Summary status (Z.of_nat (length subjects)) (Z.of_nat (length evidence)) (counts "current")
    (counts "stale") (counts "superseded") (counts "invalidated") (counts "unverifiable")
    (counts "expired") (Z.of_nat (length queue)).

Record report : Type := Report {
  generated_at : string;
  report_policy : policy;
  subjects : list subject;
  report_evidence : list assessment;
  report_summary : summary;
  recertification_queue : list work;
}.

Definition report_items (r : report) : items :=
  [("schema_version", VStr ADMISSIBILITY_SCHEMA);
   ("generated_at", VStr (generated_at r));
   ("policy", policy_value (report_policy r));
   ("subjects", VList (map subject_value (subjects r)));
   ("evidence", VList (map assessment_value (report_evidence r)));
   ("summary", summary_value (report_summary r));
   ("recertification_queue", queue_value (recertification_queue r))].
Definition report_sha256 (r : report) : string := digest_of (VDict (report_items r)).
Definition report_value (r : report) : value :=
  VDict (report_items r ++ [("report_sha256", VStr (report_sha256 r))]).

Definition assessment_leb (a b : assessment) : bool :=
  str_leb (identity_sha256 (record a)) (identity_sha256 (record b)).

(** One raw record: normalised, assessed, and compared with what it claims. *)
Definition assess_raw (generated_at : Z) (p : policy) (subjects : list subject)
    (index : nat) (v : value) : result assessment :=
  '(record, provided) ← normalize_evidence_record index v;
  assessment ← derive_assessment generated_at p subjects record;
  validate_provided_assessment provided (assessment_items assessment)
    (at_index "evidence" index) ;;
  Ok assessment.

(** [name in root and root[name] != expected] *)
Definition disagrees (root : items) (name : string) (expected : value) : bool :=
  dict_has root name && negb (py_eq (dict_get root name) expected).

Definition check_now (now : option string) (generated_at_dt : Z) : result unit :=
  match now with
  | None => Ok tt
  | Some now =>
      '(_, now_dt) ← parse_datetime (VStr now) "--now";
      latest ← instant_add now_dt (seconds MAX_CLOCK_SKEW_SECONDS);
      raise_if (latest <? generated_at_dt)
        (recovery_error "generated_at is beyond the allowed clock skew")
  end.

Definition normalize_subjects (v : value) : result (list subject) :=
  raw_subjects ← expect_list v "subjects" MAX_RECORDS;
  subjects ← map_enum 0 raw_subjects normalize_subject;
  raise_if (negb (bool_decide (NoDup (map subject_identity subjects))))
    (recovery_error "subjects contain duplicate identities") ;;
  Ok (stable_sort subject_leb subjects).

Definition assess_evidence (v : value) (generated_at : Z) (p : policy) (subjects : list subject)
  : result (list assessment) :=
  raw_evidence ← expect_list v "evidence" MAX_RECORDS;
  evidence ← map_enum 0 raw_evidence (assess_raw generated_at p subjects);
  raise_if (negb (bool_decide (NoDup (map (λ a, identity_sha256 (record a)) evidence))))
    (recovery_error "evidence contains duplicate identities") ;;
  Ok (stable_sort assessment_leb evidence).

Definition ROOT_KEYS : list string :=
  ["schema_version"; "generated_at"; "policy"; "subjects"; "evidence"; "summary";
   "recertification_queue"; "report_sha256"].

Definition build_evidence_admissibility_report (v : value) (now : option string)
  : result report :=
  root ← strict_object v "$" ROOT_KEYS;
  raise_if (negb (py_eq (dict_get root "schema_version") (VStr ADMISSIBILITY_SCHEMA)))
    (recovery_error ("schema_version must be " +:+ ADMISSIBILITY_SCHEMA)) ;;
  '(generated_at, generated_at_dt) ←
    parse_datetime (dict_get root "generated_at") "generated_at";
  check_now now generated_at_dt ;;
  policy ← normalize_policy (dict_get root "policy");
  subjects ← normalize_subjects (dict_get root "subjects");
  evidence ← assess_evidence (dict_get root "evidence") generated_at_dt policy subjects;
  queue ← build_recertification_queue evidence;
  let summary := summarize subjects evidence queue in
  let report := Report generated_at policy subjects evidence summary queue in
  raise_if (disagrees root "summary" (summary_value summary))
    (recovery_error "summary does not match the derived report") ;;
  raise_if (disagrees root "recertification_queue" (queue_value queue))
    (recovery_error "recertification_queue does not match the derived report") ;;
  raise_if (disagrees root "report_sha256" (VStr (report_sha256 report)))
    (recovery_error "report_sha256 does not match the canonical report") ;;
  validate_public_safety (report_value report) ;;
  Ok report.

(** ** The synthetic fixture *)

Definition fixture (l : list (string * string)) : string :=
  digest_of (VDict (map (λ '(k, v), (k, VStr v)) l)).

Definition example_ttls : list (string * ttl) :=
  [("security", Ttl 3600 21600); ("deployment", Ttl 7200 43200); ("code", Ttl 21600 86400);
   ("documentation", Ttl 604800 2592000)].

Definition build_example_evidence_admissibility (now : string) : result report :=
  '(generated_at, generated_at_dt) ← parse_datetime (VStr now) "--now";
  captured ← instant_add generated_at_dt (seconds (- (5 * 60)));
  let policy := Policy (digest_of (VDict (policy_material 300 example_ttls))) 300 example_ttls in
  let subject_identity := fixture [("fixture", "subject"); ("id", "example")] in
  let subject_revision := digest_of
    (VDict [("fixture", VStr "subject-revision"); ("id", VStr "example"); ("v", VInt 1)]) in
  let workflow_digest := digest_of
    (VDict [("fixture", VStr "workflow-policy"); ("v", VInt 1)]) in
  let dependencies := VList [dependency_value ("workflow_policy", workflow_digest)] in
  build_evidence_admissibility_report
    (VDict [("schema_version", VStr ADMISSIBILITY_SCHEMA);
       ("generated_at", VStr generated_at);
       ("policy", policy_value policy);
       ("subjects", VList [VDict [("identity_sha256", VStr subject_identity);
          ("revision_sha256", VStr subject_revision); ("dependencies", dependencies)]]);
       ("evidence", VList [VDict [
          ("identity_sha256", VStr (fixture [("fixture", "evidence"); ("id", "example")]));
          ("kind", VStr "policy_conformance");
          ("subject_identity_sha256", VStr subject_identity);
          ("subject_revision_sha256", VStr subject_revision);
          ("producer_sha256", VStr (fixture [("fixture", "producer")]));
          ("captured_at", VStr (str_replace (isoformat captured utc_suffix) utc_suffix "Z"));
          ("policy_version_sha256", VStr (version_sha256 policy));
          ("payload_sha256", VStr (fixture [("fixture", "payload")]));
          ("risk_class", VStr "security");
          ("owner_sha256", VStr (fixture [("fixture", "owner")]));
          ("dependency_digests", dependencies)]])])
    (Some generated_at).

End Admissibility.
