(* ===== verification/AdmissibilityTheorems.v ===== *)
(** * Evidence admissibility: results

    When evidence is current and what else it can be, what the report's status
    says, that the recertification queue covers exactly the evidence that is
    not current, and that a report is rebuilt from its own document. *)
From S2P Require Import Prelude PyValue Sha256 Json DateTime Regex RecoveryCommon GitObjects.
From S2P Require Import Admissibility.
From Stdlib Require Import Ascii.
From Stdlib Require Sorted.

Module AdmissibilityTheorems.
Import Admissibility.
Open Scope Z_scope.

(** ** Judging a record *)

Definition subject_known (subjects : list subject) (e : evidence) (s : subject) : Prop :=
  s ∈ subjects ∧ subject_identity s = subject_identity_sha256 e.
Definition moved (e : evidence) (s : subject) : Prop :=
  subject_revision_sha256 e ≠ revision_sha256 s.
Definition repoliced (e : evidence) (p : policy) : Prop :=
  policy_version_sha256 e ≠ version_sha256 p.
(** A dependency the subject has with another digest, or does not have. *)
Definition has_changed (e : evidence) (s : subject) (k : string) : Prop :=
  ∃ d d', (k, d) ∈ dependency_digests e ∧ assoc_get (dependencies s) k = Some d' ∧ d' ≠ d.
Definition is_unresolved (e : evidence) (s : subject) (k : string) : Prop :=
  ∃ d, (k, d) ∈ dependency_digests e ∧ assoc_get (dependencies s) k = None.

(** The subject, the revision, the policy and every dependency are the ones
    the record was made for. *)
Record bound_to (p : policy) (e : evidence) (s : subject) : Prop := {
  bound_revision : subject_revision_sha256 e = revision_sha256 s;
  bound_policy : policy_version_sha256 e = version_sha256 p;
  bound_dependencies k d : (k, d) ∈ dependency_digests e → assoc_get (dependencies s) k = Some d;
}.

(** The state a record deserves at an age. *)
Inductive verdict (p : policy) (subjects : list subject) (e : evidence) (age : Z) : string → Prop :=
  | no_subject : (∀ s, ¬ subject_known subjects e s) → verdict p subjects e age "unverifiable"
  | superseded s : subject_known subjects e s → moved e s → verdict p subjects e age "superseded"
  | invalidated s : subject_known subjects e s → ¬ moved e s →
      repoliced e p ∨ (∃ k, has_changed e s k) → verdict p subjects e age "invalidated"
  | dependency_missing s k : subject_known subjects e s → ¬ moved e s → ¬ repoliced e p →
      (∀ k, ¬ has_changed e s k) → is_unresolved e s k → verdict p subjects e age "unverifiable"
  | expired s t : subject_known subjects e s → bound_to p e s →
      assoc_get (risk_ttls p) (risk_class e) = Some t → expires_after_seconds t < age →
      verdict p subjects e age "expired"
  | stale s t : subject_known subjects e s → bound_to p e s →
      assoc_get (risk_ttls p) (risk_class e) = Some t →
      stale_after_seconds t < age <= expires_after_seconds t → verdict p subjects e age "stale"
  | current s t : subject_known subjects e s → bound_to p e s →
      assoc_get (risk_ttls p) (risk_class e) = Some t →
      age <= stale_after_seconds t → age <= expires_after_seconds t →
      verdict p subjects e age "current".

Lemma unresolved_in_elem s e k :
  k ∈ unresolved_in (dependencies s) (dependency_digests e) ↔ is_unresolved e s k.
Proof.
  unfold unresolved_in, is_unresolved. rewrite list_elem_of_fmap.
  setoid_rewrite list_elem_of_In. setoid_rewrite filter_In. setoid_rewrite <- list_elem_of_In.
  split.
  - intros ([k' d] & -> & Hin & Hn). exists d. split; [done|]. simpl in *.
    by destruct (assoc_get (dependencies s) k').
  - intros (d & Hin & Hn). exists (k, d). simpl. by rewrite Hn.
Qed.

Lemma changed_in_elem s e k :
  k ∈ changed_in (dependencies s) (dependency_digests e) ↔ has_changed e s k.
Proof.
  unfold changed_in, has_changed. rewrite list_elem_of_fmap.
  setoid_rewrite list_elem_of_In. setoid_rewrite filter_In. setoid_rewrite <- list_elem_of_In.
  split.
  - intros ([k' d] & -> & Hin & Hn). simpl in *.
    destruct (assoc_get (dependencies s) k') as [d'|] eqn:Hd; [|done].
    apply negb_true_iff, String.eqb_neq in Hn. by exists d, d'.
  - intros (d & d' & Hin & Hd & Hne). exists (k, d). simpl. rewrite Hd.
    split; [done|]. split; [done|]. by apply negb_true_iff, String.eqb_neq.
Qed.

Lemma bound_to_iff p e s :
  ¬ moved e s → ¬ repoliced e p → (∀ k, ¬ has_changed e s k) → (∀ k, ¬ is_unresolved e s k) →
  bound_to p e s.
Proof.
  intros Hm Hp Hc Hu. split.
  - by apply dec_stable.
  - by apply dec_stable.
  - intros k d Hin. destruct (assoc_get (dependencies s) k) as [d'|] eqn:Hd.
    + f_equal. apply dec_stable. intros Hne. apply (Hc k). by exists d, d'.
    + destruct (Hu k). by exists d.
Qed.

Lemma subject_of_Some subjects i s :
  subject_of subjects i = Some s → s ∈ subjects ∧ subject_identity s = i.
Proof.
  induction subjects as [|s' l IH]; simpl; [done|].
  destruct (String.eqb_spec (subject_identity s') i).
  - intros [= <-]. split; [by left|done].
  - intros H. split; [right|]; by apply IH.
Qed.

Lemma subject_of_None subjects i s :
  subject_of subjects i = None → s ∈ subjects → subject_identity s ≠ i.
Proof.
  induction subjects as [|s' l IH]; simpl; [by intros _ ?%not_elem_of_nil|].
  destruct (String.eqb_spec (subject_identity s') i); [done|].
  intros H [->|Hs]%elem_of_cons; [done|by apply IH].
Qed.

(** The reasons found before the clock is looked at. *)
Lemma judge_verdict p subjects e age s st codes :
  subject_known subjects e s → judge e p age s = Ok (st, codes) → verdict p subjects e age st.
Proof.
  intros Hs. unfold judge.
  pose proof (unresolved_in_elem s e) as Hu. pose proof (changed_in_elem s e) as Hc.
  destruct (String.eqb_spec (subject_revision_sha256 e) (revision_sha256 s)) as [Hrev|Hrev]; simpl.
  2: { intros [= <- <-]. by econstructor. }
  assert (¬ moved e s) as Hm by (unfold moved; tauto).
  destruct (String.eqb_spec (policy_version_sha256 e) (version_sha256 p)) as [Hpol|Hpol]; simpl.
  2: { assert (¬ moved e s) by (unfold moved; tauto).
       do 2 case_bool_decide; simpl; intros [= <- <-]; (eapply invalidated; [done..|by left]). }
  assert (¬ repoliced e p) as Hp by (unfold repoliced; tauto).
  case_bool_decide as Hun; case_bool_decide as Hch; simpl.
  - intros (t & Ht & [= Hst])%bind_Ok. unfold ttl_of in Ht.
    destruct (assoc_get _ _) as [t'|] eqn:Httl; [|done]. injection Ht as ->.
    rewrite empty_iff in Hun, Hch. setoid_rewrite Hu in Hun. setoid_rewrite Hc in Hch.
    pose proof (bound_to_iff p e s Hm Hp Hch Hun) as Hb. revert Hst.
    destruct (Z.ltb_spec (expires_after_seconds t) age); [intros [= <- <-]; by econstructor|].
    destruct (Z.ltb_spec (stale_after_seconds t) age); intros [= <- <-]; by econstructor.
  - intros [= <- <-]. eapply invalidated; [done..|right].
    destruct (changed_in _ _) as [|k l]; [done|]. exists k. apply Hc. by left.
  - intros [= <- <-]. rewrite empty_iff in Hch. setoid_rewrite Hc in Hch.
    destruct (unresolved_in _ _) as [|k l] eqn:Heq; [done|].
    eapply (dependency_missing _ _ _ _ s k); [done..|]. apply Hu. by left.
  - intros [= <- <-]. eapply invalidated; [done..|right].
    destruct (changed_in _ _) as [|k l]; [done|]. exists k. apply Hc. by left.
Qed.

(** A verdict is unique when subjects have distinct identities. *)
Lemma known_unique subjects e s s' :
  NoDup (map subject_identity subjects) →
  subject_known subjects e s → subject_known subjects e s' → s = s'.
Proof. intros Hnd [H1 H2] [H3 H4]. eapply key_inj; [done..|congruence]. Qed.

Lemma bound_not p e s :
  bound_to p e s → ¬ moved e s ∧ ¬ repoliced e p ∧ (∀ k, ¬ has_changed e s k) ∧
    (∀ k, ¬ is_unresolved e s k).
Proof.
  intros [Hr Hp Hd]. unfold moved, repoliced. split; [tauto|]. split; [tauto|]. split.
  - intros k (d & d' & Hin & Hg & Hne). rewrite (Hd _ _ Hin) in Hg. by injection Hg.
  - intros k (d & Hin & Hg). rewrite (Hd _ _ Hin) in Hg. done.
Qed.

Lemma verdict_unique p subjects e age st st' :
  NoDup (map subject_identity subjects) →
  verdict p subjects e age st → verdict p subjects e age st' → st = st'.
Proof.
  intros Hnd H H'. destruct H, H'; try done;
    repeat match goal with
    | H1 : subject_known _ _ ?s, H2 : subject_known _ _ ?s' |- _ =>
        tryif unify s s' then fail else
        (pose proof (known_unique _ _ _ _ Hnd H1 H2); subst; clear H2)
    | H : bound_to _ _ _ |- _ => apply bound_not in H as (? & ? & ? & ?)
    | H1 : ?x = Some _, H2 : ?x = Some _ |- _ => rewrite H1 in H2; injection H2 as H2; subst
    end; try lia; try (exfalso; naive_solver).
Qed.

(** ** What an assessment is *)

(** The age of a record: from its capture to the report, never negative. *)
Definition aged (t : Z) (a : assessment) : Prop :=
  ∃ w, parse_datetime (VStr (captured_at (record a))) "captured_at" =
      Ok (captured_at (record a), w) ∧
    age_seconds a = Z.max 0 (elapsed_seconds t w).

Lemma derive_assessment_Ok t p subjects e a :
  derive_assessment t p subjects e = Ok a →
  record a = e ∧ verdict p subjects e (age_seconds a) (state a) ∧
  record_sha256 a = record_digest e ∧
  (representable t = true → (∃ w, representable w = true ∧ captured_at e = isoformat w "Z") →
   aged t a).
Proof.
  unfold derive_assessment, derive_age. intros (age & Hage & H)%bind_Ok.
  apply bind_Ok in H as (a' & Ha & (u & _ & [= ->])%bind_Ok).
  assert (record a = e ∧ age_seconds a = age ∧ record_sha256 a = record_digest e ∧
    verdict p subjects e age (state a)) as (<- & <- & Hd & Hv).
  { destruct (subject_of subjects (subject_identity_sha256 e)) as [s|] eqn:Hs.
    - apply bind_Ok in Ha as ([st codes] & Hj & [= <-]). simpl. repeat (split; [done|]).
      eapply judge_verdict; [by apply subject_of_Some|exact Hj].
    - injection Ha as <-. simpl. repeat (split; [done|]). apply no_subject.
      intros s [Hin Heq]. by eapply subject_of_None. }
  repeat (split; [done|]). intros Ht (w & Hw & Hc).
  apply bind_Ok in Hage as ([text w'] & Hp & Hage). rewrite Hc, parse_datetime_printed in Hp by done.
  injection Hp as <- <-. apply bind_Ok in Hage as (latest & _ & Hage). repeat inv_step.
  exists w. rewrite Hc, parse_datetime_printed by done. split; [done|congruence].
Qed.

Lemma normalize_evidence_captured i v e provided :
  normalize_evidence_record i v = Ok (e, provided) →
  ∃ w, representable w = true ∧ captured_at e = isoformat w "Z".
Proof.
  unfold normalize_evidence_record. intros H. normalized.
  match goal with H : (_, _) = (_, _) |- _ => injection H as <- <- | _ => idtac end.
  simpl. eauto.
Qed.

Lemma assess_raw_Ok t p subjects i v a :
  assess_raw t p subjects i v = Ok a →
  ∃ e provided, normalize_evidence_record i v = Ok (e, provided) ∧
    derive_assessment t p subjects e = Ok a ∧
    validate_provided_assessment provided (assessment_items a) (at_index "evidence" i) = Ok tt.
Proof.
  unfold assess_raw. intros ([e provided] & Hn & H)%bind_Ok.
  apply bind_Ok in H as (a' & Ha & ([] & Hv & [= ->])%bind_Ok). eauto.
Qed.

(** ** What a built report is made of *)

Record built (root : items) (now : option string) (t : Z) (r : report) : Prop := {
  built_instant : representable t = true ∧ generated_at r = isoformat t "Z";
  built_now : check_now now t = Ok tt;
  built_policy : normalize_policy (dict_get root "policy") = Ok (report_policy r);
  built_subjects : normalize_subjects (dict_get root "subjects") = Ok (subjects r);
  built_evidence : assess_evidence (dict_get root "evidence") t (report_policy r) (subjects r)
    = Ok (report_evidence r);
  built_queue : build_recertification_queue (report_evidence r) = Ok (recertification_queue r);
  built_summary : report_summary r =
    summarize (subjects r) (report_evidence r) (recertification_queue r);
  built_safe : validate_public_safety (report_value r) = Ok tt;
}.

#[local] Opaque normalize_policy normalize_subjects assess_evidence build_recertification_queue
  check_now summarize report_sha256.

Lemma report_built v now r :
  build_evidence_admissibility_report v now = Ok r → ∃ root t, built root now t r.
Proof.
  unfold build_evidence_admissibility_report. intros H.
  repeat (inv_step ||
    match goal with
    | H : (let '(_, _) := ?p in _) = Ok _ |- _ => destruct p
    | H : strict_object _ _ _ = Ok _ |- _ => apply strict_object_Ok in H as [H ?]; subst
    end).
  match goal with H : parse_datetime _ _ = Ok (_, ?t) |- _ =>
    pose proof (parse_datetime_Ok _ _ _ _ H) as (_ & ? & ?); exists a, t end.
  by split.
Qed.

#[local] Transparent normalize_subjects assess_evidence.

Lemma subject_leb_total a b : subject_leb a b = true ∨ subject_leb b a = true.
Proof. apply str_leb_total. Qed.
Lemma assessment_leb_total a b : assessment_leb a b = true ∨ assessment_leb b a = true.
Proof. apply str_leb_total. Qed.
Lemma dependency_leb_total a b : dependency_leb a b = true ∨ dependency_leb b a = true.
Proof. apply str_leb_total. Qed.
Lemma group_leb_total a b : group_leb a b = true ∨ group_leb b a = true.
Proof. apply str_leb_total. Qed.

Lemma normalize_subjects_Ok v l :
  normalize_subjects v = Ok l → ∃ raws l', Z.of_nat (length raws) <= MAX_RECORDS ∧
    map_enum 0 raws normalize_subject = Ok l' ∧ NoDup (map subject_identity l) ∧
    l = stable_sort subject_leb l'.
Proof.
  unfold normalize_subjects. intros (raws & [_ Hn]%expect_list_Ok & H)%bind_Ok.
  apply bind_Ok in H as (l' & Hl & ([] & Hd%raise_if_Ok & [= <-])%bind_Ok).
  apply negb_false_iff, bool_decide_eq_true in Hd.
  exists raws, l'. repeat (split; [done|]). split; [|done].
  by rewrite (Permutation_map _ (stable_sort_Permutation _ _)).
Qed.

Lemma assess_evidence_Ok v t p subjects l :
  assess_evidence v t p subjects = Ok l → ∃ raws l', Z.of_nat (length raws) <= MAX_RECORDS ∧
    map_enum 0 raws (assess_raw t p subjects) = Ok l' ∧
    NoDup (map (λ a, identity_sha256 (record a)) l) ∧ l = stable_sort assessment_leb l'.
Proof.
  unfold assess_evidence. intros (raws & [_ Hn]%expect_list_Ok & H)%bind_Ok.
  apply bind_Ok in H as (l' & Hl & ([] & Hd%raise_if_Ok & [= <-])%bind_Ok).
  apply negb_false_iff, bool_decide_eq_true in Hd.
  exists raws, l'. repeat (split; [done|]). split; [|done].
  by rewrite (Permutation_map _ (stable_sort_Permutation _ _)).
Qed.

(** Every assessment of a report comes from a raw record. *)
Lemma report_assessment root now t r a :
  built root now t r → a ∈ report_evidence r →
  ∃ i v, assess_raw t (report_policy r) (subjects r) i v = Ok a.
Proof.
  intros B Ha. destruct (assess_evidence_Ok _ _ _ _ _ (built_evidence _ _ _ _ B))
    as (raws & l' & _ & Hl & _ & Hsort).
  rewrite Hsort in Ha. apply stable_sort_elem in Ha.
  destruct (map_enum_elem _ _ _ _ _ Hl Ha) as (i & v & _ & Hv). eauto.
Qed.

(** C7: Every piece of evidence in a report has exactly the state it deserves.
    Its age runs from its capture to the report's time.  Without a subject it
    is unverifiable; on another revision superseded; under another policy or
    with a changed dependency invalidated; with a dependency that cannot be
    resolved unverifiable; and only when subject, revision, policy and every
    dependency are the ones it was made for does its age decide between
    current, stale and expired.  No other state satisfies the description, so
    evidence is current only while everything it was bound to still holds. *)
Theorem evidence_state_is_deserved v now r :
  build_evidence_admissibility_report v now = Ok r →
  ∃ t, representable t = true ∧ generated_at r = isoformat t "Z" ∧
  ∀ a, a ∈ report_evidence r → aged t a ∧
    ∀ st, verdict (report_policy r) (subjects r) (record a) (age_seconds a) st ↔ st = state a.
Proof.
  intros (root & t & B)%report_built. destruct (built_instant _ _ _ _ B) as [Ht Hg].
  exists t. split; [done|]. split; [done|]. intros a Ha.
  destruct (report_assessment _ _ _ _ _ B Ha) as (i & raw & Hraw).
  apply assess_raw_Ok in Hraw as (e & provided & Hn & Hd & _).
  apply derive_assessment_Ok in Hd as (<- & Hv & _ & Haged).
  split; [apply Haged; [done|by eapply normalize_evidence_captured]|].
  destruct (normalize_subjects_Ok _ _ (built_subjects _ _ _ _ B)) as (_ & _ & _ & _ & Hnd & _).
  intros st. split; [|by intros ->]. intros Hst. by eapply verdict_unique.
Qed.

(** ** Status *)

Definition STATES : list string :=
  ["current"; "stale"; "superseded"; "invalidated"; "unverifiable"; "expired"].

Lemma verdict_state p subjects e age st : verdict p subjects e age st → st ∈ STATES.
Proof. intros H. destruct H; by apply (bool_decide_eq_true_1 _). Qed.

Lemma report_states root now t r a :
  built root now t r → a ∈ report_evidence r → state a ∈ STATES.
Proof.
  intros B Ha. destruct (report_assessment _ _ _ _ _ B Ha) as (i & raw & Hraw).
  apply assess_raw_Ok in Hraw as (e & provided & _ & (_ & Hv & _)%derive_assessment_Ok & _).
  by eapply verdict_state.
Qed.

Lemma state_count_zero s l : state_count s l = 0 ↔ ∀ a, a ∈ l → state a ≠ s.
Proof.
  unfold state_count. induction l as [|x l IH]; simpl.
  - split; [by intros _ ? ?%not_elem_of_nil|done].
  - setoid_rewrite elem_of_cons. destruct (String.eqb_spec (state x) s) as [Hx|Hx]; simpl.
    + split; [lia|]. intros H. by destruct (H x); [left|].
    + rewrite IH. naive_solver.
Qed.

Lemma state_count_some s l : negb (state_count s l =? 0) = true ↔ ∃ a, a ∈ l ∧ state a = s.
Proof.
  rewrite negb_true_iff, Z.eqb_neq, state_count_zero. split.
  - intros H. destruct (decide (Exists (λ a, state a = s) l)) as [He|He];
      [by apply Exists_exists in He|].
    destruct H. intros a Ha Hs. apply He, Exists_exists. eauto.
  - intros (a & Ha & Hs) H. by eapply H.
Qed.

Lemma states_counted l :
  Forall (λ a, state a ∈ STATES) l →
  state_count "current" l + state_count "stale" l + state_count "superseded" l
    + state_count "invalidated" l + state_count "unverifiable" l + state_count "expired" l =
    Z.of_nat (length l).
Proof.
  unfold state_count. induction 1 as [|a l Ha _ IH]; [done|].
  unfold STATES in Ha. rewrite !elem_of_cons, elem_of_nil in Ha. simpl.
  destruct Ha as [->|[->|[->|[->|[->|[->|[]]]]]]]; simpl length; lia.
Qed.

#[local] Transparent summarize.

(** A choice of the first condition that holds. *)
Lemma status_choice (blocking some_stale : bool) (B S : Prop) :
  (blocking = true ↔ B) → (some_stale = true ↔ S) →
  let st := if blocking then "blocked" else if some_stale then "partial" else "complete" in
  (st = "complete" ↔ ¬ B ∧ ¬ S) ∧ (st = "partial" ↔ ¬ B ∧ S) ∧ (st = "blocked" ↔ B).
Proof.
  intros HB HS. destruct blocking, some_stale; simpl;
    (split; [|split]); split; try done; rewrite <- ?HB, <- ?HS; intuition done.
Qed.

(** The status of a report is that of its worst evidence.  It is complete
    exactly when all evidence is current, partial exactly when some is stale
    and none worse, and blocked exactly when some is superseded, invalidated,
    unverifiable or expired; and the six counts of the summary add up to the
    number of records. *)
Theorem status_is_the_worst v now r :
  build_evidence_admissibility_report v now = Ok r →
  let s := report_summary r in
  let blocking := ∃ a, a ∈ report_evidence r ∧ state a ∈ blocking_states in
  let some_stale := ∃ a, a ∈ report_evidence r ∧ state a = "stale" in
  (status s = "complete" ↔ ∀ a, a ∈ report_evidence r → state a = "current") ∧
  (status s = "partial" ↔ ¬ blocking ∧ some_stale) ∧
  (status s = "blocked" ↔ blocking) ∧
  current_count s + stale_count s + superseded_count s + invalidated_count s
    + unverifiable_count s + expired_count s = evidence_count s.
Proof.
  intros (root & t & B)%report_built s blocking some_stale. subst s.
  rewrite (built_summary _ _ _ _ B).
  pose proof (λ a, report_states _ _ _ _ a B) as Hst.
  assert (existsb (λ s, negb (state_count s (report_evidence r) =? 0)) blocking_states = true ↔
    blocking) as Hb.
  { rewrite existsb_elem_of. setoid_rewrite state_count_some. unfold blocking. split.
    - intros (st & Hin & a & Ha & <-). eauto.
    - intros (a & Ha & Hin). eauto. }
  pose proof (state_count_some "stale" (report_evidence r)) as Hs.
  destruct (status_choice _ _ _ _ Hb Hs) as (Hc & Hp & Hk).
  split; [|split; [exact Hp|split; [exact Hk|]]].
  - etrans; [exact Hc|]. split.
    + intros [Hnb Hns] a Ha. pose proof (Hst a Ha) as Hin. unfold STATES in Hin.
      assert (state a ∉ blocking_states) as Hna by (intros ?; apply Hnb; unfold blocking; eauto).
      assert (state a ≠ "stale") as Hnt by (intros ?; apply Hns; eauto).
      unfold blocking_states in Hna. rewrite !elem_of_cons in *. tauto.
    + intros H. split; intros (a & Ha & Hin); rewrite (H a Ha) in Hin; [|done].
      revert Hin. by apply (bool_decide_eq_false_1 _).
  - simpl. apply states_counted, Forall_forall. exact Hst.
Qed.

(** ** Recertification work *)

(** The assessments of one fingerprint that are not current. *)
Definition group_of (l : list assessment) (f : string) : list assessment :=
  List.filter (λ a, negb (String.eqb (state a) "current") && String.eqb (fingerprint a) f) l.

Lemma group_of_elem l f a :
  a ∈ group_of l f ↔ a ∈ l ∧ state a ≠ "current" ∧ fingerprint a = f.
Proof.
  unfold group_of. rewrite list_elem_of_In, filter_In, <- list_elem_of_In, andb_true_iff,
    negb_true_iff, String.eqb_neq, String.eqb_eq. done.
Qed.

Lemma group_of_app l l' f : group_of (l ++ l') f = group_of l f ++ group_of l' f.
Proof. apply List.filter_app. Qed.

(** The work gathers a group: what it lists is what the group lists. *)
Record gathers (f : string) (g : list assessment) (w : work) : Prop := {
  gathers_fingerprint : fingerprint_sha256 w = f;
  gathers_states : observed_states w = map state g;
  gathers_evidence : evidence_identities w = map (λ a, identity_sha256 (record a)) g;
  gathers_reasons : work_reasons w = concat (map reason_codes g);
  gathers_changed : work_changed w = concat (map changed_dependencies g);
  gathers_unresolved : work_unresolved w = concat (map unresolved_dependencies g);
  gathers_owner a : a ∈ g → owner_sha256 (record a) = work_owner w;
  gathers_highest : ∃ a, a ∈ g ∧ state a = highest_state w;
  gathers_severity a : a ∈ g → STATE_SEVERITY (state a) <= STATE_SEVERITY (highest_state w);
}.

Lemma gathers_one a : gathers (fingerprint a) [a] (extend_work a (new_work a)).
Proof.
  split; simpl; rewrite ?app_nil_r, ?Z.ltb_irrefl; try done.
  - by intros b ->%list_elem_of_singleton.
  - exists a. split; [by left|done].
  - by intros b ->%list_elem_of_singleton.
Qed.

Lemma gathers_more f g w a :
  gathers f g w → owner_sha256 (record a) = work_owner w → gathers f (g ++ [a]) (extend_work a w).
Proof.
  intros [? ? ? ? ? ? Ho Hh Hs] Ha. split; simpl;
    rewrite ?map_app, ?concat_app; simpl; rewrite ?app_nil_r; try congruence.
  - intros b [Hb| ->%list_elem_of_singleton]%elem_of_app; [by apply Ho|done].
  - destruct (Z.ltb_spec (STATE_SEVERITY (highest_state w)) (STATE_SEVERITY (state a))).
    + exists a. split; [apply elem_of_app; right; by left|done].
    + destruct Hh as (b & Hb & Heq). exists b. split; [apply elem_of_app; by left|done].
  - intros b [Hb| ->%list_elem_of_singleton]%elem_of_app;
      destruct (Z.ltb_spec (STATE_SEVERITY (highest_state w)) (STATE_SEVERITY (state a)));
      try apply Hs in Hb; lia.
Qed.

(** After a prefix of the evidence every group has its work, and only groups. *)
Definition grouped_ok (done : list assessment) (grouped : list (string * work)) : Prop :=
  NoDup grouped.*1 ∧ ∀ f,
    match assoc_get grouped f with
    | None => group_of done f = []
    | Some w => gathers f (group_of done f) w
    end.

Lemma group_assessment_ok done a grouped grouped' :
  grouped_ok done grouped → group_assessment a grouped = Ok grouped' →
  grouped_ok (done ++ [a]) grouped'.
Proof.
  intros [Hnd Hok]. unfold group_assessment.
  assert (∀ f, group_of (done ++ [a]) f = group_of done f ++
    (if negb (String.eqb (state a) "current") && String.eqb (fingerprint a) f then [a] else [])) as Hg.
  { intros f. rewrite group_of_app. unfold group_of at 2. simpl. by destruct (_ && _). }
  destruct (String.eqb_spec (state a) "current") as [Hc|Hc]; simpl in Hg.
  { intros [= <-]. split; [done|]. intros f. rewrite Hg, app_nil_r. apply Hok. }
  assert (∀ w, gathers (fingerprint a) (group_of done (fingerprint a) ++ [a]) w →
    grouped_ok (done ++ [a]) (assoc_set grouped (fingerprint a) w)) as Hset.
  { intros w Hw. split; [by apply assoc_set_NoDup|]. intros f. rewrite assoc_get_set, Hg.
    destruct (String.eqb_spec f (fingerprint a)) as [->|Hne].
    - by rewrite String.eqb_refl.
    - destruct (String.eqb_spec (fingerprint a) f); [congruence|].
      rewrite app_nil_r. apply Hok. }
  specialize (Hok (fingerprint a)).
  destruct (assoc_get grouped (fingerprint a)) as [w|].
  - intros ([] & Ho%raise_if_Ok%negb_false_iff%String.eqb_eq & [= <-])%bind_Ok.
    apply Hset. by apply gathers_more.
  - intros [= <-]. apply Hset. rewrite Hok. apply gathers_one.
Qed.

#[local] Transparent build_recertification_queue.

Lemma queue_groups l queue :
  build_recertification_queue l = Ok queue →
  ∃ grouped, grouped_ok l grouped ∧
    queue = map (λ kw, settle_work kw.2) (stable_sort group_leb grouped).
Proof.
  unfold build_recertification_queue. intros (grouped & Hg & ([] & _ & [= <-])%bind_Ok)%bind_Ok.
  exists grouped. split; [|done]. change l with ([] ++ l).
  eapply for_each_prefix; [apply group_assessment_ok| |exact Hg]. split; [constructor|done].
Qed.

(** C22: The recertification queue covers exactly the evidence that is not
    current.  There is one piece of work per fingerprint (subject, kind and
    current revision), in the order of the fingerprints; it lists exactly the
    non-current evidence of its fingerprint, all of one owner, with every
    state, reason and dependency observed, and its highest state is the most
    severe of them. *)
Theorem queue_covers_inadmissible v now r :
  build_evidence_admissibility_report v now = Ok r →
  let group f := group_of (report_evidence r) f in
  NoDup (map fingerprint_sha256 (recertification_queue r)) ∧
  (∀ f, f ∈ map fingerprint_sha256 (recertification_queue r) ↔ group f ≠ []) ∧
  ∀ w, w ∈ recertification_queue r →
    (∀ i, i ∈ evidence_identities w ↔
      ∃ a, a ∈ group (fingerprint_sha256 w) ∧ identity_sha256 (record a) = i) ∧
    (∀ st, st ∈ observed_states w ↔ ∃ a, a ∈ group (fingerprint_sha256 w) ∧ state a = st) ∧
    (∀ code, code ∈ work_reasons w ↔
      ∃ a, a ∈ group (fingerprint_sha256 w) ∧ code ∈ reason_codes a) ∧
    (∀ a, a ∈ group (fingerprint_sha256 w) → owner_sha256 (record a) = work_owner w ∧
      STATE_SEVERITY (state a) <= STATE_SEVERITY (highest_state w)) ∧
    highest_state w ∈ observed_states w.
Proof.
  intros (root & t & B)%report_built group.
  destruct (queue_groups _ _ (built_queue _ _ _ _ B)) as (grouped & [Hnd Hok] & ->).
  set (sorted := stable_sort group_leb grouped).
  assert (sorted ≡ₚ grouped) as Hperm by apply stable_sort_Permutation.
  assert (∀ k w, (k, w) ∈ sorted → gathers k (group k) w) as Hw.
  { intros k w Hin. rewrite Hperm in Hin. apply assoc_get_elem in Hin; [|done].
    specialize (Hok k). by rewrite Hin in Hok. }
  assert (map fingerprint_sha256 (map (λ kw, settle_work kw.2) sorted) = sorted.*1) as Hkeys.
  { rewrite map_map. apply map_ext_in. intros [k w] Hin%list_elem_of_In. simpl.
    by apply (gathers_fingerprint _ _ _ (Hw k w Hin)). }
  rewrite Hkeys. split; [by rewrite Hperm|]. split.
  - intros f. rewrite Hperm. specialize (Hok f). split.
    + intros ([k w] & -> & Hin)%list_elem_of_fmap. apply assoc_get_elem in Hin; [|done].
      simpl in *. rewrite Hin in Hok. destruct Hok as [_ _ _ _ _ _ _ (a & Ha & _) _].
      intros Hnil. unfold group in Hnil. rewrite Hnil in Ha. by apply not_elem_of_nil in Ha.
    + intros Hne. destruct (assoc_get grouped f) as [w|] eqn:Hf; [|done].
      apply assoc_get_elem in Hf; [|done]. by apply (list_elem_of_fmap_2 fst) in Hf.
  - intros w' ([k w] & -> & Hin)%list_elem_of_fmap. simpl.
    destruct (Hw k w Hin) as [-> Hst Hev Hre _ _ Ho (b & Hb & Hbs) Hs].
    setoid_rewrite sorted_set_elem. rewrite Hst, Hev, Hre.
    split; [|split; [|split; [|split]]].
    + intros i. rewrite list_elem_of_fmap. split; intros (a & ? & ?); eauto.
    + intros st. rewrite list_elem_of_fmap. split; intros (a & ? & ?); eauto.
    + intros code. rewrite list_elem_of_In, in_concat. setoid_rewrite in_map_iff.
      setoid_rewrite <- list_elem_of_In. split.
      * intros (x & (a & <- & Ha) & Hx). eauto.
      * intros (a & Ha & Hx). eauto.
    + intros a Ha. split; [by apply Ho|by apply Hs].
    + rewrite <- Hbs. by apply list_elem_of_fmap_2.
Qed.

(** ** A report, read back *)

Instance dependency_rereads f f' :
  Rereads (normalize_dependency f) (normalize_dependency f') dependency_value.
Proof.
  intros i j v d. unfold normalize_dependency. intros H. normalized. unfold dependency_value.
  rewrite strict_object_dict by done. by normalize.
Qed.

Lemma dependencies_again v f f' l :
  normalize_dependencies v f = Ok l →
  normalize_dependencies (VList (map dependency_value l)) f' = Ok l.
Proof.
  unfold normalize_dependencies.
  intros (raw & [_ Hn]%expect_list_Ok & (l' & Hl & H)%bind_Ok)%bind_Ok.
  apply bind_Ok in H as ([] & Hd%raise_if_Ok%negb_false_iff%bool_decide_eq_true & [= <-]).
  pose proof (stable_sort_Permutation dependency_leb l') as Hp.
  rewrite (expect_list_perm dependency_value l') by
    (done || by rewrite (map_enum_length _ _ _ _ Hl)). simpl.
  rewrite (reread_list _ _ dependency_value 0 0 raw l' _ Hl) by (intros x; by rewrite Hp). simpl.
  rewrite bool_decide_eq_true_2 by by rewrite Hp. simpl.
  by rewrite (stable_sort_idem _ dependency_leb_total).
Qed.

Lemma normalize_ttl_Ok raw c kt :
  normalize_ttl raw c = Ok kt → kt.1 = c ∧ 1 <= stale_after_seconds kt.2 ∧
  stale_after_seconds kt.2 < expires_after_seconds kt.2 <= MAX_TTL_SECONDS.
Proof. unfold normalize_ttl. intros H. normalized. bool_hyps. split; [done|simpl; lia]. Qed.

Lemma ttls_Ok raw ttls :
  map_enum 0 RISK_CLASSES (λ _ c, normalize_ttl raw c) = Ok ttls →
  ttls.*1 = RISK_CLASSES ∧ ∀ c t, (c, t) ∈ ttls →
    1 <= stale_after_seconds t ∧
    stale_after_seconds t < expires_after_seconds t <= MAX_TTL_SECONDS.
Proof.
  intros H%map_enum_Forall2. induction H as [|c [k t] cs ttls [j Hj] _ [IH1 IH2]].
  - split; [done|]. by intros ?? ?%not_elem_of_nil.
  - apply normalize_ttl_Ok in Hj as (Hk & H1 & H2). simpl in *. subst k. split.
    + csimpl. by f_equal.
    + intros c' t' [[= -> ->]|Hin]%elem_of_cons; [done|by eapply IH2].
Qed.

Lemma dict_get_map {B} (doc : B → value) (l : list (string * B)) k :
  dict_get (map (λ '(k, x), (k, doc x)) l) k =
    match assoc_get l k with Some x => doc x | None => VNone end.
Proof.
  unfold dict_get. induction l as [|[k' x] l IH]; simpl; [done|].
  by destruct (String.eqb k k').
Qed.

Lemma ttls_again raw ttls :
  map_enum 0 RISK_CLASSES (λ _ c, normalize_ttl raw c) = Ok ttls →
  map_enum 0 RISK_CLASSES
    (λ _ c, normalize_ttl (map (λ '(k, t), (k, ttl_value t)) ttls) c) = Ok ttls.
Proof.
  intros [Hk Ht]%ttls_Ok. rewrite <- Hk at 1.
  assert (∀ c t, (c, t) ∈ ttls →
    normalize_ttl (map (λ '(k, t), (k, ttl_value t)) ttls) c = Ok (c, t)) as Hr.
  { intros c t Hin. pose proof (Ht c t Hin) as (? & ? & ?). unfold normalize_ttl.
    rewrite dict_get_map. apply assoc_get_elem in Hin as ->.
    - unfold ttl_value. rewrite strict_object_dict by done. normalize.
      rewrite raise_if_false by (apply Z.leb_gt; lia). by destruct t.
    - rewrite Hk. by apply (bool_decide_eq_true_1 _). }
  apply map_enum_Ok. intros _. clear -Hr. revert Hr.
  generalize (map (λ '(k, t), (k, ttl_value t)) ttls) as d. intros d Hr.
  induction ttls as [|[c t] ttls IH]; csimpl; constructor.
  - apply Hr. by left.
  - apply IH. intros c' t' Hin. apply Hr. by right.
Qed.

#[local] Transparent normalize_policy.
#[local] Opaque RISK_CLASSES.

Lemma adm_policy_again v p : normalize_policy v = Ok p → normalize_policy (policy_value p) = Ok p.
Proof.
  unfold normalize_policy. intros H. normalized.
  match goal with H : map_enum _ _ _ = Ok ?l |- _ =>
    rename l into ttls; rename H into Hraw;
    pose proof (ttls_again _ _ Hraw) as Hagain; apply ttls_Ok in Hraw as [Hk _] end.
  unfold policy_value, policy_material. cbn [version_sha256 max_clock_skew_seconds risk_ttls].
  rewrite strict_object_dict by done. normalize.
  assert (dict_keys (map (λ '(k, t), (k, ttl_value t)) ttls) = RISK_CLASSES) as Hkeys.
  { rewrite <- Hk. unfold dict_keys. clear. induction ttls as [|[k t] l IH]; csimpl; by f_equal. }
  rewrite strict_object_dict by by rewrite Hkeys. simpl. rewrite Hkeys.
  rewrite raise_if_false by done. simpl. rewrite Hagain. simpl. by rewrite raise_if_false by assumption.
Qed.

Instance subject_rereads : Rereads normalize_subject normalize_subject subject_value.
Proof.
  intros i j v s. unfold normalize_subject. intros H. normalized.
  match goal with H : normalize_dependencies _ _ = _ |- _ =>
    apply (dependencies_again _ _ (sub (at_index "subjects" j) "dependencies")) in H;
    rename H into Hdeps end.
  unfold subject_value. rewrite strict_object_dict by done. normalize.
  simpl in Hdeps. rewrite Hdeps. done.
Qed.

Lemma evidence_again i j v e provided a :
  normalize_evidence_record i v = Ok (e, provided) → record a = e →
  normalize_evidence_record j (assessment_value a) = Ok (e, derived_items a).
Proof.
  intros H Ha. unfold normalize_evidence_record in H. normalized.
  match goal with H : (_, _) = (_, _) |- _ => injection H as He _ | _ => idtac end.
  match goal with H : normalize_dependencies _ _ = _ |- _ =>
    apply (dependencies_again _ _ (sub (at_index "evidence" j) "dependency_digests")) in H;
    rename H into Hdeps end.
  assert (provided_of (assessment_items a) = derived_items a) as Hp by done.
  unfold normalize_evidence_record, assessment_value. rewrite strict_object_dict by done.
  cbn [mbind result_bind]. rewrite Hp. unfold assessment_items. rewrite Ha.
  generalize (derived_items a) as derived. intros derived. unfold evidence_items. cbn [app].
  cbn [identity_sha256 kind subject_identity_sha256 subject_revision_sha256 producer_sha256
    captured_at policy_version_sha256 payload_sha256 risk_class owner_sha256 dependency_digests].
  repeat (cbn [mbind result_bind]; normalize_step). rewrite Hdeps. done.
Qed.

Lemma provided_again a field :
  validate_provided_assessment (derived_items a) (assessment_items a) field = Ok tt.
Proof.
  unfold validate_provided_assessment. apply for_each_unit_Ok.
  intros [key v] Hin. cbv zeta.
  assert (dict_get (assessment_items a) key = v ∧ plain_value v ∧
    (mem_str key ["reason_codes"; "changed_dependencies"; "unresolved_dependencies"] = true →
     is_list v = true)) as (-> & Hv%plain_refl & Hl).
  { unfold derived_items in Hin.
    repeat (apply elem_of_cons in Hin as [[= -> ->]|Hin];
      [split; [reflexivity|split; [by auto with plain || split|done]]|]).
    by apply not_elem_of_nil in Hin. }
  destruct (mem_str _ _); rewrite Hv; [|done]. by rewrite Hl.
Qed.

Instance assessment_rereads t p subjects :
  Rereads (assess_raw t p subjects) (assess_raw t p subjects) assessment_value.
Proof.
  intros i j v a (e & provided & Hn & Hd & _)%assess_raw_Ok. unfold assess_raw.
  pose proof (derive_assessment_Ok _ _ _ _ _ Hd) as [He _].
  rewrite (evidence_again _ j _ _ _ _ Hn He). cbn [mbind result_bind]. rewrite Hd.
  cbn [mbind result_bind]. by rewrite provided_again.
Qed.

(** ** A report is rebuilt from its own document *)

Lemma subjects_again v l :
  normalize_subjects v = Ok l → normalize_subjects (VList (map subject_value l)) = Ok l.
Proof.
  intros (raws & l' & Hn & Hl & Hnd & ->)%normalize_subjects_Ok. unfold normalize_subjects.
  pose proof (stable_sort_Permutation subject_leb l') as Hp.
  rewrite (expect_list_perm subject_value l') by
    (done || by rewrite (map_enum_length _ _ _ _ Hl)). simpl.
  rewrite (reread_list _ _ subject_value 0 0 raws l' _ Hl) by (intros x; by rewrite Hp). simpl.
  rewrite bool_decide_eq_true_2 by done. simpl.
  by rewrite (stable_sort_idem _ subject_leb_total).
Qed.

Lemma assessments_again v t p subjects l :
  assess_evidence v t p subjects = Ok l →
  assess_evidence (VList (map assessment_value l)) t p subjects = Ok l.
Proof.
  intros (raws & l' & Hn & Hl & Hnd & ->)%assess_evidence_Ok. unfold assess_evidence.
  pose proof (stable_sort_Permutation assessment_leb l') as Hp.
  rewrite (expect_list_perm assessment_value l') by
    (done || by rewrite (map_enum_length _ _ _ _ Hl)). simpl.
  rewrite (reread_list _ _ assessment_value 0 0 raws l' _ Hl) by (intros x; by rewrite Hp). simpl.
  rewrite bool_decide_eq_true_2 by done. simpl.
  by rewrite (stable_sort_idem _ assessment_leb_total).
Qed.

Lemma plain_work w : plain_value (work_value w).
Proof.
  apply plain_dict; [done|]. plain_fields.
Qed.

Lemma plain_queue l : plain_value (queue_value l).
Proof.
  apply plain_dict; [done|]. pose proof (plain_list work_value l plain_work).
  plain_fields.
Qed.

(** The converse of [report_built]: a root whose parts are those of a report. *)
Lemma built_report root now t r :
  built root now t r → forallb (λ k, mem_str k ROOT_KEYS) (dict_keys root) = true →
  dict_get root "schema_version" = VStr ADMISSIBILITY_SCHEMA →
  parse_datetime (dict_get root "generated_at") "generated_at" = Ok (generated_at r, t) →
  disagrees root "summary" (summary_value (report_summary r)) = false →
  disagrees root "recertification_queue" (queue_value (recertification_queue r)) = false →
  disagrees root "report_sha256" (VStr (report_sha256 r)) = false →
  build_evidence_admissibility_report (VDict root) now = Ok r.
Proof.
  intros [_ Hnow Hp Hs He Hq Hsum Hsafe] Hkeys Hschema Hg D1 D2 D3.
  unfold build_evidence_admissibility_report. rewrite strict_object_dict by done.
  cbn [mbind result_bind]. rewrite Hschema.
  rewrite raise_if_false by done. cbn [mbind result_bind].
  rewrite Hg. cbn [mbind result_bind]. rewrite Hnow. cbn [mbind result_bind].
  rewrite Hp. cbn [mbind result_bind]. rewrite Hs. cbn [mbind result_bind].
  rewrite He. cbn [mbind result_bind]. rewrite Hq. cbn [mbind result_bind]. cbv zeta.
  rewrite <- Hsum.
  replace (Report (generated_at r) (report_policy r) (subjects r) (report_evidence r)
    (report_summary r) (recertification_queue r)) with r by by destruct r.
  rewrite D1, D2, D3. cbn [raise_if mbind result_bind]. by rewrite Hsafe.
Qed.

Lemma disagrees_not d key v : dict_get d key = v → plain_value v → disagrees d key v = false.
Proof.
  intros Hk Hv%plain_refl. unfold disagrees. rewrite Hk, Hv. apply andb_false_r.
Qed.

(** C38: A report can be rebuilt from its own document: reading what was
    written, under the same clock or any other that accepts the report's time,
    normalises every part to what it was, accepts every derived field the
    document states about itself (the assessments, the summary, the queue and
    the report's digest), and returns the same report. *)
Theorem admissibility_replays v now r :
  build_evidence_admissibility_report v now = Ok r →
  ∃ t, representable t = true ∧ generated_at r = isoformat t "Z" ∧ check_now now t = Ok tt ∧
    ∀ now', check_now now' t = Ok tt →
      build_evidence_admissibility_report (report_value r) now' = Ok r.
Proof.
  intros (root & t & B)%report_built. pose proof B as [[Ht Hg] Hnow Hp Hs He _ _ _].
  exists t. repeat (split; [done|]). intros now' Hnow'.
  apply adm_policy_again in Hp. apply subjects_again in Hs. apply assessments_again in He.
  apply (built_report _ _ t); try reflexivity.
  - destruct B. by split.
  - change (parse_datetime (VStr (generated_at r)) "generated_at" = Ok (generated_at r, t)).
    rewrite Hg. by apply parse_datetime_printed.
  - apply disagrees_not; [done|]. apply plain_dict; [done|]. plain_fields.
  - apply disagrees_not; [done|]. apply plain_queue.
  - by apply disagrees_not.
Qed.

(** ** A report on three records *)

Definition example_policy : policy :=
  Policy (digest_of (VDict (policy_material 300 example_ttls))) 300 example_ttls.
Definition example_dependencies (v : Z) : value :=
  VList [dependency_value ("workflow_policy",
    digest_of (VDict [("fixture", VStr "workflow-policy"); ("v", VInt v)]))].
Definition example_revision (v : Z) : string :=
  digest_of (VDict [("fixture", VStr "subject-revision"); ("v", VInt v)]).
Definition example_evidence (id captured : string) (revision dependency : Z) : value :=
  VDict [("identity_sha256", VStr (fixture [("fixture", "evidence"); ("id", id)]));
    ("kind", VStr "policy_conformance");
    ("subject_identity_sha256", VStr (fixture [("fixture", "subject")]));
    ("subject_revision_sha256", VStr (example_revision revision));
    ("producer_sha256", VStr (fixture [("fixture", "producer")]));
    ("captured_at", VStr captured);
    ("policy_version_sha256", VStr (version_sha256 example_policy));
    ("payload_sha256", VStr (fixture [("fixture", "payload")]));
    ("risk_class", VStr "security");
    ("owner_sha256", VStr (fixture [("fixture", "owner")]));
    ("dependency_digests", example_dependencies dependency)].

(** Current; warned about after an hour; for another revision. *)
Definition example_root : value :=
  VDict [("schema_version", VStr ADMISSIBILITY_SCHEMA);
    ("generated_at", VStr "2026-08-10T12:00:00+02:00");
    ("policy", policy_value example_policy);
    ("subjects", VList [VDict [("identity_sha256", VStr (fixture [("fixture", "subject")]));
       ("revision_sha256", VStr (example_revision 1));
       ("dependencies", example_dependencies 1)]]);
    ("evidence", VList [example_evidence "a" "2026-08-10T09:55:00Z" 1 1;
       example_evidence "b" "2026-08-10T08:55:00Z" 1 1;
       example_evidence "c" "2026-08-10T09:55:00Z" 2 2])].
Definition example_clock : option string := Some "2026-08-10T10:00:00Z".

Definition no_report : report :=
  Report EmptyString example_policy [] [] (summarize [] [] []) [].
Definition report_or_none (r : result report) : report :=
  match r with Ok r => r | Raise _ => no_report end.
Definition example_outcome : result report :=
  build_evidence_admissibility_report example_root example_clock.
Definition example_report : report := report_or_none example_outcome.

(** What the builder says of the three records, as one computation. *)
Lemma example_states :
  match example_outcome with
  | Ok r => Ok (map (λ a, (state a, reason_codes a)) (report_evidence r),
      status (report_summary r),
      map (λ w, (highest_state w, observed_states w)) (recertification_queue r))
  | Raise e => Raise e
  end =
  Ok ([("stale", ["freshness_warning_elapsed"]); ("current", []);
       ("superseded", ["dependency_changed"; "subject_revision_changed"])],
      "blocked", [("superseded", ["stale"; "superseded"])]).
Proof. vm_compute. reflexivity. Qed.

Lemma adm_example_built :
  build_evidence_admissibility_report example_root example_clock = Ok example_report.
Proof.
  pose proof example_states as H. unfold example_report. fold example_outcome.
  by destruct example_outcome.
Qed.

(** The code's own fixture is current. *)
Example fixture_current :
  map state (report_evidence
    (report_or_none (build_example_evidence_admissibility "2026-08-10T12:00:00+02:00"))) =
  ["current"].
Proof. vm_compute. reflexivity. Qed.

Lemma evidence_state_is_deserved_witness :
  ∃ t, representable t = true ∧ generated_at example_report = isoformat t "Z" ∧
  ∀ a, a ∈ report_evidence example_report → aged t a ∧
    ∀ st, verdict (report_policy example_report) (subjects example_report) (record a)
      (age_seconds a) st ↔ st = state a.
Proof. exact (evidence_state_is_deserved _ _ _ adm_example_built). Defined.

Lemma status_is_the_worst_witness :
  let s := report_summary example_report in
  let blocking := ∃ a, a ∈ report_evidence example_report ∧ state a ∈ blocking_states in
  let some_stale := ∃ a, a ∈ report_evidence example_report ∧ state a = "stale" in
  (status s = "complete" ↔ ∀ a, a ∈ report_evidence example_report → state a = "current") ∧
  (status s = "partial" ↔ ¬ blocking ∧ some_stale) ∧
  (status s = "blocked" ↔ blocking) ∧
  current_count s + stale_count s + superseded_count s + invalidated_count s
    + unverifiable_count s + expired_count s = evidence_count s.
Proof. exact (status_is_the_worst _ _ _ adm_example_built). Defined.

Lemma queue_covers_inadmissible_witness :
  let group f := group_of (report_evidence example_report) f in
  NoDup (map fingerprint_sha256 (recertification_queue example_report)) ∧
  (∀ f, f ∈ map fingerprint_sha256 (recertification_queue example_report) ↔ group f ≠ []) ∧
  ∀ w, w ∈ recertification_queue example_report →
    (∀ i, i ∈ evidence_identities w ↔
      ∃ a, a ∈ group (fingerprint_sha256 w) ∧ identity_sha256 (record a) = i) ∧
    (∀ st, st ∈ observed_states w ↔ ∃ a, a ∈ group (fingerprint_sha256 w) ∧ state a = st) ∧
    (∀ code, code ∈ work_reasons w ↔
      ∃ a, a ∈ group (fingerprint_sha256 w) ∧ code ∈ reason_codes a) ∧
    (∀ a, a ∈ group (fingerprint_sha256 w) → owner_sha256 (record a) = work_owner w ∧
      STATE_SEVERITY (state a) <= STATE_SEVERITY (highest_state w)) ∧
    highest_state w ∈ observed_states w.
Proof. exact (queue_covers_inadmissible _ _ _ adm_example_built). Defined.

Lemma admissibility_replays_witness :
  ∃ t, representable t = true ∧ generated_at example_report = isoformat t "Z" ∧
    check_now example_clock t = Ok tt ∧
    ∀ now', check_now now' t = Ok tt →
      build_evidence_admissibility_report (report_value example_report) now' = Ok example_report.
Proof. exact (admissibility_replays _ _ _ adm_example_built). Defined.

End AdmissibilityTheorems.
