(* ===== verification/Url.v ===== *)
(** * [urllib.parse.urlparse]

    What the sources use of CPython 3.11's [urllib.parse]: [urlparse] of a [str]
    with its default arguments, the components of the result, the two ways it can
    raise [ValueError], and the quoting of paths and queries.  For code points below 256 the NFKC check of the network
    location never complains: no such character normalises to one of [/?#@:]. *)
From S2P Require Import Prelude PyValue Json DateTime Regex.
From Stdlib Require Import Ascii.

Module Url.

(** ** Texts *)

(** [s.partition(c)]: the part before the first [c], and the part after it. *)
Fixpoint str_partition (c : ascii) (s : string) : string * option string :=
  match s with
  | EmptyString => (EmptyString, None)
  | String d s =>
      if Ascii.eqb c d then (EmptyString, Some s)
      else let '(head, tail) := str_partition c s in (String d head, tail)
  end.

(** [s.rpartition(c)], when [c] occurs in [s]. *)
Fixpoint str_rpartition (c : ascii) (s : string) : option (string * string) :=
  match s with
  | EmptyString => None
  | String d s =>
      match str_rpartition c s with
      | Some (head, tail) => Some (String d head, tail)
      | None => if Ascii.eqb c d then Some (EmptyString, s) else None
      end
  end.

(** [s.split(c)] *)
Fixpoint str_split (c : ascii) (s : string) : list string :=
  match s with
  | EmptyString => [EmptyString]
  | String d s =>
      if Ascii.eqb c d then EmptyString :: str_split c s
      else match str_split c s with
           | part :: parts => String d part :: parts
           | [] => [String d EmptyString]
           end
  end.

Definition has_char (c : ascii) (s : string) : bool := negb (all_chars (λ d, negb (Ascii.eqb c d)) s).

(** The longest prefix of characters in a class, and the rest. *)
Fixpoint str_span (p : ascii → bool) (s : string) : string * string :=
  match s with
  | EmptyString => (EmptyString, EmptyString)
  | String c s' =>
      if p c then let '(head, rest) := str_span p s' in (String c head, rest)
      else (EmptyString, s)
  end.
(** [s.lstrip(chars)] *)
Definition str_lstrip (p : ascii → bool) (s : string) : string := (str_span p s).2.

Definition is_empty (s : string) : bool := String.eqb s EmptyString.
Definition is_letter (c : ascii) : bool := is_lower c || is_upper c.
Definition str_lower (s : string) : string :=
  flat_map_str (λ c, String (lower_char c) EmptyString) s.
Definition hex_digit (c : ascii) : bool := is_hex c || in_range "A" "F" c.

(** ** Bracketed hosts: [_check_bracketed_netloc], [ipaddress.ip_address] *)

Definition octet (s : string) : bool :=
  negb (is_empty s) && all_chars is_digit s && (slen s <=? 3)%Z
  && (String.eqb s "0" || negb (starts_with s "0"))
  && (int_of_digits 0 s <=? 255)%Z.
Definition ipv4 (s : string) : bool :=
  match str_split "." s with
  | [a; b; c; d] => octet a && octet b && octet c && octet d
  | _ => false
  end.

Definition hextet (s : string) : bool :=
  negb (is_empty s) && all_chars hex_digit s && (slen s <=? 4)%Z.

(** The parts of an address; a valid IPv4 suffix stands for two hextets, whose
    values do not matter to validity. *)
Definition expand_suffix (parts : list string) : option (list string) :=
  match last parts with
  | Some part =>
      if has_char "." part then
        if ipv4 part then Some (take (length parts - 1) parts ++ ["0"; "0"]) else None
      else Some parts
  | None => None
  end.

(** The positions of [::], endpoints aside. *)
Definition skips (parts : list string) : list nat :=
  filter (λ i, (0 < i < length parts - 1)%nat ∧ parts !! i = Some EmptyString)
    (seq 0 (length parts)).

Definition groups (parts : list string) : bool :=
  let starts_empty := from_option is_empty false (head parts) in
  let ends_empty := from_option is_empty false (last parts) in
  (length parts <=? 9)%nat &&
  match skips parts with
  | [] =>
      (length parts =? 8)%nat && negb starts_empty && negb ends_empty && forallb hextet parts
  | [skip] =>
      let hi := (skip - Nat.b2n starts_empty)%nat in
      let lo := (length parts - skip - 1 - Nat.b2n ends_empty)%nat in
      negb (starts_empty && (0 <? hi)%nat) && negb (ends_empty && (0 <? lo)%nat)
      && (hi + lo <? 8)%nat
      && forallb hextet (take hi parts) && forallb hextet (drop (length parts - lo) parts)
  | _ => false
  end.

Definition ipv6 (s : string) : bool :=
  let '(address, scope) := str_partition "%" s in
  let scope_ok := match scope with
                  | None => true
                  | Some scope => negb (is_empty scope) && negb (has_char "%" scope)
                  end in
  let parts := str_split ":" address in
  negb (has_char "/" s) && scope_ok && negb (is_empty address) && (3 <=? length parts)%nat
  && from_option groups false (expand_suffix parts).

Definition value_error (msg : string) : exn := Exn ValueError msg.

(** [\Av[a-fA-F0-9]+\..+\Z] *)
Definition ip_future (s : string) : bool :=
  match s with
  | String "v" s =>
      let '(version, rest) := str_span hex_digit s in
      negb (is_empty version) &&
      match rest with
      | String "." rest => negb (is_empty rest) && negb (has_char "010" rest)
      | _ => false
      end
  | _ => false
  end.

Definition check_bracketed_host (hostname : string) : result unit :=
  if starts_with hostname "v"
  then raise_if (negb (ip_future hostname)) (value_error "IPvFuture address is invalid")
  else if ipv4 hostname
  then Raise (value_error "An IPv4 address cannot be in brackets")
  else raise_if (negb (ipv6 hostname))
         (value_error (repr_str hostname +:+ " does not appear to be an IPv4 or IPv6 address")).

Definition invalid_ipv6 : exn := value_error "Invalid IPv6 URL".

Definition check_bracketed_netloc (netloc : string) : result unit :=
  let hostinfo := match str_rpartition "@" netloc with
                  | Some (_, hostinfo) => hostinfo
                  | None => netloc
                  end in
  match str_partition "[" hostinfo with
  | (before, Some bracketed) =>
      raise_if (negb (is_empty before)) invalid_ipv6 ;;
      let '(hostname, port) := str_partition "]" bracketed in
      let port := default EmptyString port in
      raise_if (negb (is_empty port) && negb (starts_with port ":")) invalid_ipv6 ;;
      check_bracketed_host hostname
  | (_, None) => check_bracketed_host (str_partition ":" hostinfo).1
  end.

(** ** [urlsplit] and [urlparse] *)

Record url : Type := Parsed {
  scheme : string;
  netloc : string;
  path : string;
  params : string;
  query : string;
  fragment : string;
}.

Definition c0_or_space (c : ascii) : bool := (code c <=? 32)%N.
(** Tabs and line ends are removed wherever they stand. *)
Definition unsafe (c : ascii) : bool := existsb (N.eqb (code c)) [9; 10; 13]%N.
Definition scheme_char (c : ascii) : bool := is_alnum c || one_of "+-." c.
Definition in_netloc (c : ascii) : bool := negb (one_of "/?#" c).

Definition cleaned_url (s : string) : string :=
  flat_map_str (λ c, if unsafe c then EmptyString else String c EmptyString)
    (str_lstrip c0_or_space s).

Definition split_scheme (s : string) : string * string :=
  match str_partition ":" s with
  | (String c _ as head, Some rest) =>
      if is_letter c && all_chars scheme_char head then (str_lower head, rest)
      else (EmptyString, s)
  | _ => (EmptyString, s)
  end.

Definition split_netloc (s : string) : result (string * string) :=
  if starts_with s "//" then
    let '(netloc, rest) := str_span in_netloc (String.substring 2 (String.length s - 2) s) in
    raise_if (xorb (has_char "[" netloc) (has_char "]" netloc)) invalid_ipv6 ;;
    (if has_char "[" netloc then check_bracketed_netloc netloc else Ok tt) ;;
    Ok (netloc, rest)
  else Ok (EmptyString, s).

Definition uses_params : list string :=
  [EmptyString; "ftp"; "hdl"; "prospero"; "http"; "imap"; "https"; "shttp"; "rtsp"; "rtspu"; "sip";
   "sips"; "mms"; "sftp"; "tel"].

(** The parameters of the last path segment. *)
Definition split_params (s : string) : string * string :=
  match str_rpartition "/" s with
  | Some (before, segment) =>
      let '(name, params) := str_partition ";" segment in
      (before +:+ "/" +:+ name, default EmptyString params)
  | None => let '(name, params) := str_partition ";" s in (name, default EmptyString params)
  end.

Definition urlparse (s : string) : result url :=
  let '(scheme, rest) := split_scheme (cleaned_url s) in
  '(netloc, rest) ← split_netloc rest;
  let '(rest, fragment) := str_partition "#" rest in
  let '(path, query) := str_partition "?" rest in
  let '(path, params) :=
    if mem_str scheme uses_params then split_params path else (path, EmptyString) in
  Ok (Parsed scheme netloc path params (default EmptyString query) (default EmptyString fragment)).

(** [parsed.username], [parsed.password] *)
Definition userinfo (u : url) : option (string * option string) :=
  '(info, _) ← str_rpartition "@" (netloc u); Some (str_partition ":" info).
Definition username (u : url) : option string := fst <$> userinfo u.
Definition password (u : url) : option string := userinfo u ≫= snd.

(** [parsed.hostname] *)
Definition hostname (u : url) : option string :=
  let hostinfo := match str_rpartition "@" (netloc u) with
                  | Some (_, hostinfo) => hostinfo
                  | None => netloc u
                  end in
  let host := match str_partition "[" hostinfo with
              | (_, Some bracketed) => (str_partition "]" bracketed).1
              | (_, None) => (str_partition ":" hostinfo).1
              end in
  if is_empty host then None
  else match str_partition "%" host with
       | (name, Some zone) => Some (str_lower name +:+ "%" +:+ zone)
       | (name, None) => Some (str_lower name)
       end.

(** ** Quoting *)

Definition hex_upper (n : N) : ascii := ascii_of_N (if (n <? 10)%N then 48 + n else 55 + n)%N.
Definition quote_byte (c : ascii) : string :=
  if is_alnum c || one_of "_.-~" c then String c EmptyString
  else String "%" (String (hex_upper (code c / 16)) (String (hex_upper (code c `mod` 16)) EmptyString)).
(** [quote(s, safe='')], and [quote_plus(s)]. *)
Definition quote (s : string) : string := flat_map_str quote_byte (utf8 s).
Definition quote_plus (s : string) : string :=
  flat_map_str (λ c, if Ascii.eqb c " " then "+" else quote_byte c) (utf8 s).
(** [urlencode(query)] of texts. *)
Definition urlencode (query : list (string * string)) : string :=
  str_join "&" (map (λ kv, quote_plus kv.1 +:+ "=" +:+ quote_plus kv.2) query).

(** [s.rstrip("/")] *)
Fixpoint rstrip_slash (s : string) : string :=
  match s with
  | EmptyString => EmptyString
  | String c rest =>
      match rstrip_slash rest with
      | EmptyString => if Ascii.eqb c "/" then EmptyString else String c EmptyString
      | rest => String c rest
      end
  end.

(** ** Lemmas *)

Lemma urlparse_raises s : raises_only ValueError (urlparse s).
Proof.
  unfold urlparse, split_netloc, check_bracketed_netloc, check_bracketed_host, invalid_ipv6,
    value_error. solve_raises.
Qed.

(** A text without the separator is its own single part. *)
Lemma partition_absent c s : has_char c s = false → str_partition c s = (s, None).
Proof.
  unfold has_char. rewrite negb_false_iff. induction s as [|d s IH]; simpl; [done|].
  intros [Hd Hs]%andb_true_iff. rewrite IH by done. by destruct (Ascii.eqb c d).
Qed.

Lemma partition_app c s t : has_char c s = false →
  str_partition c (s +:+ String c t) = (s, Some t).
Proof.
  unfold has_char. rewrite negb_false_iff. induction s as [|d s IH].
  - intros _. change (str_partition c (String c t) = (EmptyString, Some t)). simpl.
    by rewrite Ascii.eqb_refl.
  - simpl. intros [Hd Hs]%andb_true_iff. specialize (IH Hs). simpl in IH.
    change (String d s +:+ String c t) with (String d (s +:+ String c t)). simpl.
    rewrite IH. by destruct (Ascii.eqb c d).
Qed.
End Url.
