(* ===== verification/Collect.v ===== *)
(** * Validators that collect their complaints

    [daily_briefing_receipts.py], [portfolio_remediation_queue.py] and
    [portfolio_release_manifest.py] do not stop at the first complaint: every
    check appends to a list of errors and a document is valid when the list
    stays empty.  The helpers below are those the scripts carry copies of.  A check is a computation that returns a
    value and the complaints it adds, or fails with an exception; complaints of
    a sequence are appended in order, so a sequence is clean exactly when its
    parts are ([bind_clean]). *)
From S2P Require Import Prelude PyValue Sha256 Json DateTime RecoveryCommon GitObjects.
From Stdlib Require Import Ascii SpecFloat.
Open Scope Z_scope.

Inductive checked (A : Type) : Type :=
  | Done (a : A) (errors : list string)
  | Failed (e : exn).
Arguments Done {A} a errors.
Arguments Failed {A} e.

#[export] Instance checked_ret : MRet checked := λ A a, Done a [].
#[export] Instance checked_bind : MBind checked := λ A B f m,
  match m with
  | Failed e => Failed e
  | Done a errors =>
      match f a with
      | Failed e => Failed e
      | Done b more => Done b (errors ++ more)
      end
  end.

Definition pass {A} (a : A) : checked A := Done a [].
(** [errors.append(msg)], unconditionally and under a condition. *)
Definition complain (msg : string) : checked unit := Done tt [msg].
Definition complain_if (b : bool) (msg : string) : checked unit :=
  if b then complain msg else pass tt.
(** A step that may raise. *)
Definition lift {A} (r : result A) : checked A :=
  match r with Ok a => Done a [] | Raise e => Failed e end.

(** A [for] loop over [enumerate(l, start=i)] that collects complaints. *)
Fixpoint check_each {A B : Type} (i : nat) (l : list A) (body : nat → A → B → checked B) (acc : B)
  : checked B :=
  match l with
  | [] => pass acc
  | x :: l => acc ← body i x acc; check_each (S i) l body acc
  end.

(** A document accepted without a complaint. *)
Definition clean {A} (m : checked A) (a : A) : Prop := m = Done a [].

(** ** [str] of a value *)

Fixpoint py_repr (v : value) : string :=
  match v with
  | VStr s => repr_str s
  | VList l => "[" +:+ str_join ", " (map py_repr l) +:+ "]"
  | VDict d =>
      "{" +:+ str_join ", " (map (λ kv, repr_str kv.1 +:+ ": " +:+ py_repr kv.2) d) +:+ "}"
  | _ => str_scalar v
  end.
Definition py_str (v : value) : string :=
  match v with VStr s => s | _ => py_repr v end.

(** ** Field checks *)

Definition MAX_TEXT : Z := 2000.
Definition SHA256 : string → bool := rx_rep is_hex 64 64.
Definition COMMIT : string → bool := rx_rep is_hex 40 40.
Definition SLUG : string → bool :=
  rx_head_rep is_lower (λ c, is_lower c || is_digit c || one_of "-" c) 2 95.

(** [_object(value, expected, path, errors) or {}] *)
Definition _exact_object (v : value) (expected : list string) (path : string) : checked items :=
  match v with
  | VDict d =>
      complain_if (negb (same_keys d expected)) (keys_mismatch d expected path) ;;
      pass d
  | _ => complain (path +:+ " must be an object") ;; pass []
  end.

Definition _text (v : value) (path : string) (minimum maximum : Z) : checked (option string) :=
  let complaint :=
    complain (path +:+ " must be a string of length " +:+ str_int minimum +:+ ".."
      +:+ str_int maximum) ;; pass None in
  match v with
  | VStr s => if (minimum <=? slen s) && (slen s <=? maximum) then pass (Some s) else complaint
  | _ => complaint
  end.

(** A text of a shape: [None] when either check fails. *)
Definition shaped_text (shape : string → bool) (complaint : string) (v : value) (path : string)
    (minimum maximum : Z) : checked (option string) :=
  text ← _text v path minimum maximum;
  match text with
  | Some s => if shape s then pass (Some s) else complain (path +:+ complaint) ;; pass None
  | None => pass None
  end.

Definition _sha (v : value) (path : string) : checked (option string) :=
  shaped_text SHA256 " must be lowercase SHA-256" v path 64 64.
Definition _commit (v : value) (path : string) : checked (option string) :=
  shaped_text COMMIT " must be a lowercase 40-character commit SHA" v path 40 40.

(** The instant an aware date-time denotes; comparisons and differences of
    aware date-times are those of their instants. *)
Definition _timestamp (v : value) (path : string) : checked (option Z) :=
  text ← _text v path 20 64;
  match text with
  | None => pass None
  | Some s =>
      match fromisoformat (str_replace s "Z" utc_suffix) with
      | None => complain (path +:+ " must be ISO-8601") ;; pass None
      | Some (_, None) => complain (path +:+ " must include a UTC offset") ;; pass None
      | Some (wall, Some offset) => pass (Some (wall - offset))
      end
  end.

(** [if v not in SET: errors.append(...)]; an unhashable [v] raises. *)
Definition supported (v : value) (choices : list string) (path : string) : checked unit :=
  known ← lift (in_strings v choices);
  complain_if (negb known) (path +:+ " is unsupported").

(** A value as a key of a dict whose keys are texts. *)
Definition text_key (v : value) : result (option string) :=
  match v with
  | VStr s => Ok (Some s)
  | VList _ => Raise (Exn TypeError "unhashable type: 'list'")
  | VDict _ => Raise (Exn TypeError "unhashable type: 'dict'")
  | _ => Ok None
  end.

(** ** The walk over the whole document *)

(** [str.casefold] on code points below 256, except for the micro sign, whose
    image is outside the range and in no forbidden word. *)
Definition casefold_char (c : ascii) : string :=
  let n := code c in
  if is_upper c || ((192 <=? n)%N && (n <=? 222)%N && negb (n =? 215)%N)
  then String (ascii_of_N (n + 32)) EmptyString
  else if (n =? 223)%N then "ss" else String c EmptyString.
Definition casefold (s : string) : string := flat_map_str casefold_char s.

Section walk_safe.
Context (forbidden : list string).

Fixpoint walk_safe (v : value) (path : string) : list string :=
  match v with
  | VDict d =>
      flat_map (λ kv,
        (if mem_str (casefold kv.1) forbidden
         then [path +:+ "." +:+ kv.1 +:+ " is prohibited"] else [])
        ++ walk_safe kv.2 (path +:+ "." +:+ kv.1)) d
  | VList l =>
      (fix go (index : nat) (l : list value) : list string :=
         match l with
         | [] => []
         | x :: l => walk_safe x (path +:+ "[" +:+ str_nat index +:+ "]") ++ go (S index) l
         end) O l
  | VStr s => if MAX_TEXT <? slen s then [path +:+ " exceeds the text bound"] else []
  | _ => []
  end.
End walk_safe.

(** ** The canonical digest, [allow_nan=False] *)

Definition finite_float (f : spec_float) : bool :=
  match f with S754_infinity _ | S754_nan => false | _ => true end.
Fixpoint finite_floats (v : value) : bool :=
  match v with
  | VFloat f => finite_float f
  | VList l => forallb finite_floats l
  | VDict d => forallb (λ kv, finite_floats kv.2) d
  | _ => true
  end.

Definition canonical_sha256 (v : value) : result string :=
  raise_if (negb (finite_floats v))
    (Exn ValueError "Out of range float values are not JSON compliant") ;;
  Ok (sha256_value v).

(** ** Lemmas *)

Lemma bind_clean {A B} (m : checked A) (f : A → checked B) b :
  m ≫= f = Done b [] ↔ ∃ a, m = Done a [] ∧ f a = Done b [].
Proof.
  destruct m as [a es|e]; simpl.
  - destruct (f a) as [b' more|e] eqn:Hf.
    + split.
      * intros [= -> [-> ->]%app_nil]. eauto.
      * intros (a' & [= -> ->] & Hb). rewrite Hf in Hb. by injection Hb as -> ->.
    + split; [done|]. intros (a' & [= -> ->] & Hb). congruence.
  - split; [done|]. by intros (? & ? & _).
Qed.

Lemma complain_if_clean b msg u : complain_if b msg = Done u [] ↔ b = false.
Proof. destruct b, u; cbv; split; congruence. Qed.

Lemma complain_not_clean msg u : complain msg = Done u [] ↔ False.
Proof. split; [discriminate|done]. Qed.

Lemma pass_clean {A} (a b : A) : pass a = Done b [] ↔ a = b.
Proof. split; [by intros [= ->]|by intros ->]. Qed.

Lemma ok_bind {A B} (a : A) (f : A → result B) : Ok a ≫= f = f a.
Proof. done. Qed.

Lemma lift_bind {A B} (a : A) (f : A → checked B) : lift (Ok a) ≫= f = f a.
Proof. unfold lift, mbind, checked_bind. by destruct (f a). Qed.

Lemma lift_clean {A} (r : result A) a : lift r = Done a [] ↔ r = Ok a.
Proof. destruct r; simpl; split; congruence. Qed.

#[global] Arguments complain_if : simpl never.
#[global] Arguments pass : simpl never.
#[global] Arguments lift : simpl never.
#[global] Arguments mbind : simpl never.
#[global] Arguments _text : simpl never.
#[global] Arguments _sha : simpl never.
#[global] Arguments _commit : simpl never.
#[global] Arguments shaped_text : simpl never.
#[global] Arguments _timestamp : simpl never.
#[global] Arguments _exact_object : simpl never.

Section clean_checks.
Lemma exact_object_clean v expected path d :
  _exact_object v expected path = Done d [] ↔ v = VDict d ∧ same_keys d expected = true.
Proof.
  unfold _exact_object. destruct v; rewrite bind_clean;
    try (split; [by intros ([] & ?%complain_not_clean & _)|by intros [? _]]).
  setoid_rewrite complain_if_clean. setoid_rewrite pass_clean. setoid_rewrite negb_false_iff. split.
  - intros (_ & ? & ->). done.
  - intros [[= ->] ?]. by exists tt.
Qed.

Lemma text_clean v path lo hi o :
  _text v path lo hi = Done o [] ↔ ∃ s, v = VStr s ∧ o = Some s ∧ lo <= slen s <= hi.
Proof.
  unfold _text. assert (∀ msg, (complain msg ;; pass (@None string)) = Done o [] ↔ False) as Hc.
  { intros msg. rewrite bind_clean. split; [|done]. by intros (u & ?%complain_not_clean & _). }
  destruct v; rewrite ?Hc; try (split; [done|by intros (? & ? & _)]).
  destruct (_ && _) eqn:Hb; rewrite ?Hc.
  - rewrite pass_clean. bool_hyps. split; [intros <-; eauto|]. by intros (? & [= ->] & -> & _).
  - split; [done|]. intros (? & [= ->] & _ & H). apply andb_false_iff in Hb.
    rewrite !Z.leb_gt in Hb. lia.
Qed.

Lemma shaped_text_clean shape complaint v path lo hi o :
  shaped_text shape complaint v path lo hi = Done o [] ↔
  ∃ s, v = VStr s ∧ o = Some s ∧ lo <= slen s <= hi ∧ shape s = true.
Proof.
  unfold shaped_text. rewrite bind_clean. setoid_rewrite text_clean. split.
  - intros (? & (s & -> & -> & Hn) & H). exists s. destruct (shape s).
    + apply pass_clean in H as <-. eauto.
    + by apply bind_clean in H as (u & ?%complain_not_clean & _).
  - intros (s & -> & -> & Hn & Hs). exists (Some s). rewrite Hs. eauto.
Qed.

Lemma sha_clean v path o :
  _sha v path = Done o [] ↔ ∃ s, v = VStr s ∧ o = Some s ∧ SHA256 s = true.
Proof.
  unfold _sha. rewrite shaped_text_clean. unfold SHA256, rx_rep. split.
  - intros (s & ? & ? & _ & ?). eauto.
  - intros (s & ? & ? & H). exists s. bool_hyps. repeat (split; [done|]).
    rewrite !andb_true_iff, !Z.leb_le. auto.
Qed.

Lemma commit_clean v path o :
  _commit v path = Done o [] ↔ ∃ s, v = VStr s ∧ o = Some s ∧ COMMIT s = true.
Proof.
  unfold _commit. rewrite shaped_text_clean. unfold COMMIT, rx_rep. split.
  - intros (s & ? & ? & _ & ?). eauto.
  - intros (s & ? & ? & H). exists s. bool_hyps. repeat (split; [done|]).
    rewrite !andb_true_iff, !Z.leb_le. auto.
Qed.

(** The instant an accepted text denotes. *)
Definition denotes (s : string) (t : Z) : Prop :=
  ∃ wall offset, fromisoformat (str_replace s "Z" utc_suffix) = Some (wall, Some offset) ∧
    t = wall - offset.

Lemma timestamp_clean v path o :
  _timestamp v path = Done o [] ↔
  ∃ s t, v = VStr s ∧ o = Some t ∧ 20 <= slen s <= 64 ∧ denotes s t.
Proof.
  unfold _timestamp. rewrite bind_clean. setoid_rewrite text_clean. unfold denotes. split.
  - intros (? & (s & -> & -> & Hn) & H).
    destruct (fromisoformat _) as [[wall [offset|]]|] eqn:Hf;
      [|apply bind_clean in H as (? & ?%complain_not_clean & _); done..].
    apply pass_clean in H as <-. exists s, (wall - offset). eauto 10.
  - intros (s & t & -> & -> & Hn & wall & offset & Hf & ->). exists (Some s). rewrite Hf. eauto 10.
Qed.

Lemma check_each_clean {A} (l : list A) (body : nat → A → unit → checked unit) i u :
  check_each i l body tt = Done u [] ↔
  ∀ j x, l !! j = Some x → body (i + j)%nat x tt = Done tt [].
Proof.
  destruct u. revert i. induction l as [|x l IH]; intros i; simpl.
  - split; [done|]. done.
  - rewrite bind_clean. split.
    + intros ([] & Hx & Hl). rewrite IH in Hl. intros [|j] y; simpl.
      * intros [= <-]. by rewrite Nat.add_0_r.
      * rewrite Nat.add_succ_r. apply Hl.
    + intros H. exists tt. split; [rewrite <- (Nat.add_0_r i); by apply (H 0%nat)|].
      apply IH. intros j y Hy. replace (S i + j)%nat with (i + S j)%nat by lia.
      by apply (H (S j)).
Qed.
End clean_checks.

(** Peels a clean computation into the clean steps it is made of. *)
Ltac clean_step :=
  match goal with
  | H : _ ≫= _ = Done _ [] |- _ =>
      let a := fresh "a" in let Ha := fresh "Hc" in apply bind_clean in H as (a & Ha & H)
  | H : complain_if _ _ = Done _ [] |- _ => apply complain_if_clean in H
  | H : complain _ = Done _ [] |- _ => by apply complain_not_clean in H
  | H : pass _ = Done _ [] |- _ => apply (proj1 (pass_clean _ _)) in H; try subst
  | H : lift _ = Done _ [] |- _ => apply lift_clean in H
  | H : _exact_object _ _ _ = Done _ [] |- _ =>
      let E := fresh "Hdoc" in let K := fresh "Hkeys" in apply exact_object_clean in H as [E K]
  | H : _sha _ _ = Done _ [] |- _ =>
      let E := fresh "Hdoc" in apply sha_clean in H as (? & E & ? & ?); try subst
  | H : _commit _ _ = Done _ [] |- _ =>
      let E := fresh "Hdoc" in apply commit_clean in H as (? & E & ? & ?); try subst
  | H : shaped_text _ _ _ _ _ _ = Done _ [] |- _ =>
      let E := fresh "Hdoc" in apply shaped_text_clean in H as (? & E & ? & ? & ?); try subst
  | H : _text _ _ _ _ = Done _ [] |- _ =>
      let E := fresh "Hdoc" in apply text_clean in H as (? & E & ? & ?); try subst
  | H : _timestamp _ _ = Done _ [] |- _ =>
      let E := fresh "Hdoc" in apply timestamp_clean in H as (? & ? & E & ? & ? & ?); try subst
  | u : unit |- _ => destruct u
  end.
Ltac cleaned := repeat clean_step.

Lemma supported_clean v choices path u :
  supported v choices path = Done u [] → ∃ s, v = VStr s ∧ s ∈ choices.
Proof.
  unfold supported. intros H. cleaned. destruct v; simpl in Hc; try done;
    injection Hc as <-; try done. apply negb_false_iff, mem_str_In in H. eauto.
Qed.
#[global] Arguments supported : simpl never.

(** The other way around: proving a computation clean step by step. *)
Lemma bind_value_clean {A B} (m : checked A) (f : A → checked B) a b :
  m = Done a [] → f a = Done b [] → m ≫= f = Done b [].
Proof. rewrite bind_clean. eauto. Qed.

Ltac clean_goal :=
  match goal with
  | |- complain_if _ _ ≫= _ = _ =>
      apply (bind_value_clean _ _ tt); [apply complain_if_clean|]
  | |- complain_if _ _ = Done _ [] => apply complain_if_clean
  | |- pass _ = _ => reflexivity
  | |- lift _ ≫= _ = _ => eapply bind_value_clean; [apply lift_clean; try reflexivity|]
  | |- _exact_object _ _ _ ≫= _ = _ =>
      eapply bind_value_clean; [apply exact_object_clean; split; [first [eassumption|reflexivity]|assumption]|]
  | |- _sha _ _ ≫= _ = _ =>
      eapply bind_value_clean;
        [apply sha_clean; eexists; split; [first [eassumption|reflexivity]|split; [reflexivity|assumption]]|]
  | |- _commit _ _ ≫= _ = _ =>
      eapply bind_value_clean;
        [apply commit_clean; eexists; split; [first [eassumption|reflexivity]|split; [reflexivity|assumption]]|]
  | |- _text _ _ _ _ ≫= _ = _ =>
      eapply bind_value_clean;
        [apply text_clean; eexists; split; [first [eassumption|reflexivity]|split; [reflexivity|assumption]]|]
  end.

(** ** The walk *)

Definition no_forbidden (forbidden : list string) (v : value) : Prop :=
  (∀ d k x, occurs v (VDict d) → (k, x) ∈ d → casefold k ∉ forbidden) ∧
  ∀ s, occurs v (VStr s) → slen s <= MAX_TEXT.

Section walk_lemmas.
Context (forbidden : list string).

Definition walk_safe_list (path : string) : nat → list value → list string :=
  fix go (index : nat) (l : list value) : list string :=
    match l with
    | [] => []
    | x :: l => walk_safe forbidden x (path +:+ "[" +:+ str_nat index +:+ "]") ++ go (S index) l
    end.

Lemma occurs_list_iff l w : occurs (VList l) w ↔ w = VList l ∨ ∃ x, x ∈ l ∧ occurs x w.
Proof. split; [inversion 1; subst; eauto|]. intros [->|(x & ? & ?)]; [constructor|by econstructor]. Qed.
Lemma occurs_dict_iff d w : occurs (VDict d) w ↔ w = VDict d ∨ ∃ k x, (k, x) ∈ d ∧ occurs x w.
Proof.
  split; [inversion 1; subst; eauto|]. intros [->|(k & x & ? & ?)]; [constructor|].
  by eapply occurs_dict.
Qed.
Lemma occurs_leaf v w :
  match v with VList _ | VDict _ => False | _ => True end → occurs v w ↔ w = v.
Proof. intros Hv. split; [by inversion 1; subst|intros ->; constructor]. Qed.

Lemma no_forbidden_list l :
  no_forbidden forbidden (VList l) ↔ ∀ x, x ∈ l → no_forbidden forbidden x.
Proof.
  unfold no_forbidden. setoid_rewrite occurs_list_iff. split.
  - intros [H1 H2] x Hx. split; [intros d k y Ho; apply H1|intros s Ho; apply H2]; eauto.
  - intros H. split.
    + intros d k y [|(x & Hx & Ho)]; [done|]. by apply (H x).
    + intros s [|(x & Hx & Ho)]; [done|]. by apply (H x).
Qed.

Lemma no_forbidden_dict d :
  no_forbidden forbidden (VDict d) ↔
  ∀ k x, (k, x) ∈ d → casefold k ∉ forbidden ∧ no_forbidden forbidden x.
Proof.
  unfold no_forbidden. setoid_rewrite occurs_dict_iff. split.
  - intros [H1 H2] k x Hx. split; [by eapply H1; [left|]|].
    split; [intros d' k' y Ho; apply H1|intros s Ho; apply H2]; right; eauto.
  - intros H. split.
    + intros d' k' y [[= ->]|(k & x & Hx & Ho)] Hy; [by destruct (H k' y Hy)|].
      destruct (H k x Hx) as [_ [H1 _]]. by eapply H1.
    + intros s [|(k & x & Hx & Ho)]; [done|]. destruct (H k x Hx) as [_ [_ H2]]. by apply H2.
Qed.

Lemma no_forbidden_leaf v :
  match v with VList _ | VDict _ => False | _ => True end →
  no_forbidden forbidden v ↔ match v with VStr s => slen s <= MAX_TEXT | _ => True end.
Proof.
  intros Hv. unfold no_forbidden. setoid_rewrite (occurs_leaf v _ Hv).
  destruct v; try done; try (split; [done|by intros _; split]).
  split; [intros [_ H]; by apply H|]. intros H. split; [done|by intros ? [= ->]].
Qed.

(** The walk complains about nothing exactly when nothing is forbidden. *)
Lemma walk_safe_nil v path : walk_safe forbidden v path = [] ↔ no_forbidden forbidden v.
Proof.
  revert path; induction v as [|b|z|f|s|l IH|d IH] using value_nested_ind; intros path;
    try (rewrite no_forbidden_leaf by done; done).
  - rewrite no_forbidden_leaf by done. simpl. destruct (Z.ltb_spec MAX_TEXT (slen s)); split;
      try done; lia.
  - rewrite no_forbidden_list. change (walk_safe_list path 0 l = [] ↔ ∀ x, x ∈ l →
      no_forbidden forbidden x). generalize 0%nat as i.
    induction IH as [|x l Hx _ IHl]; intros i; simpl.
    + split; [by intros _ ? ?%not_elem_of_nil|done].
    + rewrite app_nil, Hx, IHl. setoid_rewrite elem_of_cons. naive_solver.
  - rewrite no_forbidden_dict. simpl. induction IH as [|[k x] d Hx _ IHd]; simpl.
    + split; [by intros _ ? ? ?%not_elem_of_nil|done].
    + simpl in Hx. rewrite !app_nil, Hx, IHd. setoid_rewrite elem_of_cons.
      assert ((if mem_str (casefold k) forbidden then [path +:+ "." +:+ k +:+ " is prohibited"]
        else []) = [] ↔ casefold k ∉ forbidden) as ->.
      { rewrite <- mem_str_In. by destruct (mem_str _ _). }
      split; [intros [[? ?] ?] k' x' [[= -> ->]|?]; auto|].
      intros H. destruct (H k x) as [? ?]; [by left|]. split; [done|]. intros ???. apply H. by right.
Qed.
End walk_lemmas.

Lemma is_bool_true v b : is_bool v b = true → v = VBool b.
Proof. destruct v as [|[]| | | | |], b; done. Qed.

Lemma is_none_true v : is_none v = true ↔ v = VNone.
Proof. by destruct v. Qed.

Lemma not_none_false v : negb (is_none v) = false ↔ v = VNone.
Proof. by rewrite negb_false_iff, is_none_true. Qed.

Lemma py_eq_str v s : py_eq v (VStr s) = true ↔ v = VStr s.
Proof.
  destruct v; simpl; try (split; [done|by intros [=]]).
  rewrite String.eqb_eq. split; [by intros ->|by intros [=]].
Qed.

(** ** Computations that do not raise *)

Definition returns {A} (m : checked A) : Prop :=
  match m with Done _ _ => True | Failed _ => False end.

Lemma returns_bind {A B} (m : checked A) (f : A → checked B) :
  returns m → (∀ a, returns (f a)) → returns (m ≫= f).
Proof.
  destruct m as [a es|e]; simpl; [|done]. intros _ H. unfold mbind, checked_bind.
  specialize (H a). by destruct (f a).
Qed.
Lemma returns_complain_if b msg : returns (complain_if b msg).
Proof. by destruct b. Qed.
Lemma returns_pass {A} (a : A) : returns (pass a).
Proof. done. Qed.
Lemma returns_complain msg : returns (complain msg).
Proof. done. Qed.
Lemma returns_check_each {A B} i (l : list A) (body : nat → A → B → checked B) acc :
  (∀ i x acc, returns (body i x acc)) → returns (check_each i l body acc).
Proof.
  intros H. revert i acc; induction l as [|x l IH]; intros i acc; simpl; [done|].
  apply returns_bind; auto.
Qed.

Create HintDb returns.
#[export] Hint Resolve returns_complain_if returns_pass returns_complain : returns.

Ltac solve_returns :=
  repeat match goal with
  | |- returns (_ ≫= _) => apply returns_bind; [|intros ?]
  | |- returns (check_each _ _ _ _) => apply returns_check_each; intros ???
  | |- returns (let _ := _ in _) => cbv zeta
  | |- returns (if ?b then _ else _) => destruct b
  | |- returns (match ?x with _ => _ end) => destruct x
  end; auto with returns.

Lemma returns_exact_object v expected path : returns (_exact_object v expected path).
Proof. unfold _exact_object. solve_returns. Qed.
Lemma returns_text v path lo hi : returns (_text v path lo hi).
Proof. unfold _text. solve_returns. Qed.
#[export] Hint Resolve returns_exact_object returns_text : returns.
Lemma returns_shaped_text shape complaint v path lo hi :
  returns (shaped_text shape complaint v path lo hi).
Proof. unfold shaped_text. solve_returns. Qed.
#[export] Hint Resolve returns_shaped_text : returns.
Lemma returns_sha v path : returns (_sha v path).
Proof. unfold _sha. solve_returns. Qed.
Lemma returns_commit v path : returns (_commit v path).
Proof. unfold _commit. solve_returns. Qed.
Lemma returns_timestamp v path : returns (_timestamp v path).
Proof. unfold _timestamp. solve_returns. Qed.
#[export] Hint Resolve returns_sha returns_commit returns_timestamp : returns.

(** ** Floats inside documents *)

Lemma finite_dict_get d k : finite_floats (VDict d) = true → finite_floats (dict_get d k) = true.
Proof.
  unfold dict_get. simpl. induction d as [|[k' x] d IH]; simpl; [done|].
  intros [Hx Hd]%andb_true_iff. destruct (String.eqb k k'); [done|auto].
Qed.

Lemma finite_list l : finite_floats (VList l) = true ↔ ∀ x, x ∈ l → finite_floats x = true.
Proof.
  simpl. rewrite forallb_forall. setoid_rewrite list_elem_of_In. done.
Qed.

Lemma canonical_sha256_Ok v : finite_floats v = true → canonical_sha256 v = Ok (sha256_value v).
Proof. intros H. unfold canonical_sha256. by rewrite H. Qed.
Lemma canonical_sha256_finite v s : canonical_sha256 v = Ok s → finite_floats v = true.
Proof. unfold canonical_sha256. by destruct (finite_floats v). Qed.

(** ** Replacing a field *)

Lemma dict_set_split d k v x :
  dict_get d k = x → x ≠ VNone →
  ∃ d1 d2, d = d1 ++ (k, x) :: d2 ∧ dict_set d k v = d1 ++ (k, v) :: d2.
Proof.
  unfold dict_get. induction d as [|[k' y] d IH]; simpl; [by intros <-|].
  destruct (String.eqb_spec k k') as [->|Hne].
  - intros -> _. by exists [], d.
  - intros Hx Hn. destruct (IH Hx Hn) as (d1 & d2 & -> & ->). by exists ((k', y) :: d1), d2.
Qed.

Lemma dict_get_set d k v k' :
  dict_get (dict_set d k v) k' = if String.eqb k' k then v else dict_get d k'.
Proof.
  unfold dict_get. induction d as [|[k0 x] d IH]; simpl; [done|].
  destruct (String.eqb_spec k k0) as [->|Hne]; simpl.
  - by destruct (String.eqb k' k0).
  - rewrite IH. destruct (String.eqb_spec k' k0) as [->|]; [|done].
    destruct (String.eqb_spec k0 k); [congruence|done].
Qed.

Lemma dict_keys_set d k v x : x ∈ dict_keys (dict_set d k v) ↔ x = k ∨ x ∈ dict_keys d.
Proof.
  unfold dict_keys. induction d as [|[k0 y] d IH]; csimpl.
  - by rewrite elem_of_cons.
  - destruct (String.eqb_spec k k0) as [->|]; csimpl; rewrite !elem_of_cons; [tauto|].
    rewrite IH. tauto.
Qed.

Lemma same_keys_iff d expected :
  same_keys d expected = true ↔ ∀ k, k ∈ dict_keys d ↔ k ∈ expected.
Proof.
  unfold same_keys. rewrite andb_true_iff, !forallb_forall. setoid_rewrite <- list_elem_of_In.
  setoid_rewrite mem_str_In. naive_solver.
Qed.

(** Setting fields an object already has keeps its keys. *)
Lemma same_keys_set d k v expected :
  same_keys d expected = true → mem_str k expected = true →
  same_keys (dict_set d k v) expected = true.
Proof.
  rewrite !same_keys_iff, mem_str_In. intros H Hk x. rewrite dict_keys_set, H. naive_solver.
Qed.

(** A field that is present reads the same under every default. *)
Lemma dict_get_default d k default s :
  dict_get_or d k VNone = VStr s → dict_get_or d k default = VStr s.
Proof. induction d as [|[k' x] d IH]; simpl; [done|]. by destruct (String.eqb k k'). Qed.

Lemma sorted_set_ext l l' : (∀ x, x ∈ l ↔ x ∈ l') → sorted_set l = sorted_set l'.
Proof.
  intros H. apply sorted_strs_perm, NoDup_Permutation; [apply NoDup_remove_dups..|].
  intros x. by rewrite !elem_of_remove_dups.
Qed.

(** ** What a field says, when it has the type it should have *)

Definition text_at (d : items) (key : string) : string :=
  match dict_get d key with VStr s => s | _ => EmptyString end.
Definition int_at (d : items) (key : string) : Z :=
  match dict_get d key with VInt z => z | _ => 0 end.
Definition object_at (d : items) (key : string) : items :=
  match dict_get d key with VDict d => d | _ => [] end.
Definition texts_at (d : items) (key : string) : list string :=
  match dict_get d key with
  | VList l => omap (λ v, match v with VStr s => Some s | _ => None end) l
  | _ => []
  end.

Lemma text_at_str d key s : dict_get d key = VStr s → text_at d key = s.
Proof. unfold text_at. by intros ->. Qed.
Lemma int_at_int d key z : dict_get d key = VInt z → int_at d key = z.
Proof. unfold int_at. by intros ->. Qed.
Lemma texts_at_strs d key l : dict_get d key = strs l → texts_at d key = l.
Proof.
  unfold texts_at, strs. intros ->. induction l as [|s l IH]; csimpl; [done|]. by f_equal.
Qed.
Lemma object_at_dict d key o : dict_get d key = VDict o → object_at d key = o.
Proof. unfold object_at. by intros ->. Qed.

(** Replaces what a field says by the value it was read from. *)
Ltac read_at :=
  repeat match goal with
  | H : dict_get ?d ?k = VStr ?s |- context [text_at ?d ?k] => rewrite (text_at_str d k s H)
  | H : dict_get ?d ?k = VInt ?z |- context [int_at ?d ?k] => rewrite (int_at_int d k z H)
  | H : dict_get ?d ?k = strs ?l |- context [texts_at ?d ?k] => rewrite (texts_at_strs d k l H)
  | H : dict_get ?d ?k = VDict ?o |- context [object_at ?d ?k] => rewrite (object_at_dict d k o H)
  end.
