(* ===== verification/Briefing.v ===== *)
(** * Daily briefing: lane receipts and delivery states

    [src/scripts/daily_briefing_receipts.py]: the validation of a manifest of
    lane receipts with the envelope the briefing is composed from
    ([validate_lane_manifest]), and the fenced state machine of a delivery on
    its documents ([validate_delivery_state], [transition_delivery]). *)
From S2P Require Import Prelude PyValue Sha256 Json Contract DateTime RecoveryCommon GitObjects.
From S2P Require Import Collect.
From Stdlib Require Import Ascii.

Module Briefing.
Open Scope Z_scope.

Definition LANE_SCHEMA : string := "portfolio-briefing-lane-manifest/v1".
Definition DELIVERY_SCHEMA : string := "portfolio-briefing-delivery-state/v1".
Definition READY_STATUSES : list string := ["success"; "no_results"].
Definition TERMINAL_LANE_STATUSES : list string :=
  READY_STATUSES ++ ["failed"; "blocked"; "unavailable"; "skipped"].
Definition DELIVERY_STATES : list string :=
  ["prepared"; "claimed"; "delivering"; "delivered"; "retryable"; "terminal_failed"; "reconciling"].
Definition ROOT_KEYS : list string :=
  ["schema_version"; "briefing_id"; "scheduled_window"; "policy_sha256"; "expected_lanes";
   "receipts"; "safety"].
Definition WINDOW_KEYS : list string := ["start"; "end"; "timezone"].
Definition RECEIPT_KEYS : list string :=
  ["lane_id"; "status"; "observed_at"; "producer_commit"; "schema_version";
   "source_cursor_sha256"; "result_sha256"; "result_bytes"; "item_count"; "operation_id";
   "path_identity"; "retained_until"; "reason_code"].
Definition SAFETY_KEYS : list string :=
  ["contains_source_payloads"; "contains_credentials"; "delivery_authorized"; "notes"].
Definition STATE_KEYS : list string :=
  ["schema_version"; "briefing_id"; "state"; "content_sha256"; "destination_id"; "operation_id";
   "fencing_token"; "attempt"; "receipt_id"; "remote_identity_sha256"; "failure_class"].
Definition COMMAND_KEYS : list string :=
  ["kind"; "operation_id"; "fencing_token"; "receipt_id"; "remote_identity_sha256";
   "failure_class"].
Definition forbidden_keys : list string :=
  ["raw_payload"; "message_body"; "email_body"; "prompt_text"; "access_token"; "api_key";
   "authorization"; "credential"; "secret"].

Definition _pairs (pairs : list (string * value)) : result items := pairs_of ContractError pairs.

Definition _walk_public_safe (v : value) (path : string) : checked unit :=
  Done tt (walk_safe forbidden_keys v path).

Definition _non_negative (v : value) (path : string) : checked (option Z) :=
  let complaint := complain (path +:+ " must be a non-negative integer") ;; pass None in
  match v with
  | VInt z => if z <? 0 then complaint else pass (Some z)
  | _ => complaint
  end.

(** [text is not None and not SLUG.fullmatch(text)]: the text is kept. *)
Definition slug_complaint (text : option string) (msg : string) : checked unit :=
  complain_if (match text with Some s => negb (SLUG s) | None => false end) msg.

(** [a is not None and b is not None and a OP b] *)
Definition both (op : Z → Z → bool) (a b : option Z) : bool :=
  match a, b with Some x, Some y => op x y | _, _ => false end.

(** ** Lane manifests *)

Definition check_window (root : items) : checked (option Z * option Z) :=
  window ← _exact_object (dict_get root "scheduled_window") WINDOW_KEYS "scheduled_window";
  start ← _timestamp (dict_get window "start") "scheduled_window.start";
  end_ ← _timestamp (dict_get window "end") "scheduled_window.end";
  _text (dict_get window "timezone") "scheduled_window.timezone" 3 64 ;;
  complain_if (both Z.geb start end_) "scheduled_window.start must be before end" ;;
  pass (start, end_).

Definition list_of_at_most (v : value) (minimum maximum : Z) (msg : string)
  : checked (list value) :=
  match v with
  | VList l =>
      if (minimum <=? Z.of_nat (length l)) && (Z.of_nat (length l) <=? maximum) then pass l
      else complain msg ;; pass []
  | _ => complain msg ;; pass []
  end.

Definition check_expected (index : nat) (raw : value) (expected_ids : list string)
  : checked (list string) :=
  let path := "expected_lanes[" +:+ str_nat index +:+ "]" in
  lane_id ← _text raw path 3 64;
  match lane_id with
  | Some lane_id =>
      slug_complaint (Some lane_id) (path +:+ " has an invalid format") ;;
      pass (expected_ids ++ [lane_id])
  | None => pass expected_ids
  end.

Definition check_expected_lanes (root : items) : checked (list string) :=
  expected ← list_of_at_most (dict_get root "expected_lanes") 1 64
    "expected_lanes must contain 1..64 lane IDs";
  expected_ids ← check_each 0 expected check_expected [];
  complain_if (negb (bool_decide (NoDup expected_ids)))
    "expected_lanes must not contain duplicates" ;;
  pass expected_ids.

(** What the loop over the receipts has gathered. *)
Record gathered : Type := Gathered {
  observed_ids : list string;
  normalized : list value;
  blocking : list string;
  operations : list string;
  path_identities : list string;
}.

Definition lane_of (receipt : items) (path : string) : checked (option string) :=
  lane_id ← _text (dict_get receipt "lane_id") (path +:+ ".lane_id") 3 64;
  slug_complaint lane_id (path +:+ ".lane_id has an invalid format") ;;
  pass lane_id.

Definition status_of (receipt : items) (path : string) : checked (option string) :=
  status ← _text (dict_get receipt "status") (path +:+ ".status") 3 32;
  complain_if
    (match status with Some s => negb (mem_str s TERMINAL_LANE_STATUSES) | None => false end)
    (path +:+ ".status is unsupported") ;;
  pass status.

Definition check_times (start end_ : option Z) (receipt : items) (path : string)
  : checked unit :=
  observed ← _timestamp (dict_get receipt "observed_at") (path +:+ ".observed_at");
  retained ← _timestamp (dict_get receipt "retained_until") (path +:+ ".retained_until");
  complain_if (both Z.leb retained observed)
    (path +:+ ".retained_until must be after observed_at") ;;
  complain_if (both Z.ltb observed start)
    (path +:+ ".observed_at precedes the scheduled window") ;;
  complain_if (both Z.geb observed end_)
    (path +:+ ".observed_at must fall inside the scheduled window").

(** A digest that no earlier receipt has used. *)
Definition fresh_digest (receipt : items) (key path : string) (seen : list string)
  : checked (list string) :=
  digest ← _sha (dict_get receipt key) (path +:+ "." +:+ key);
  match digest with
  | Some digest =>
      complain_if (mem_str digest seen) ("duplicate " +:+ key +:+ " at " +:+ path) ;;
      pass (seen ++ [digest])
  | None => pass seen
  end.

Definition is_zero (o : option Z) : bool := match o with Some z => z =? 0 | None => false end.
Definition not_zero (o : option Z) : bool :=
  match o with Some z => negb (z =? 0) | None => false end.
Definition eq_status (status : option string) (s : string) : bool := eq_opt s status.
Definition is_ready (status : option string) : bool :=
  match status with Some s => mem_str s READY_STATUSES | None => false end.

(** The result fields; whether the lane is a blocking one. *)
Definition check_result (receipt : items) (path : string) (status : option string)
  : checked bool :=
  let result_sha := dict_get receipt "result_sha256" in
  let result_bytes := dict_get receipt "result_bytes" in
  let item_count := dict_get receipt "item_count" in
  let reason_code := dict_get receipt "reason_code" in
  if is_ready status then
    _sha result_sha (path +:+ ".result_sha256") ;;
    byte_count ← _non_negative result_bytes (path +:+ ".result_bytes");
    count ← _non_negative item_count (path +:+ ".item_count");
    complain_if (eq_status status "no_results" && not_zero count)
      (path +:+ ".item_count must be zero for no_results") ;;
    complain_if (eq_status status "success" && is_zero count)
      (path +:+ ".item_count must be positive for success") ;;
    complain_if (is_zero byte_count && eq_status status "success")
      (path +:+ ".result_bytes must be positive for success") ;;
    complain_if (negb (is_none reason_code))
      (path +:+ ".reason_code must be null for ready statuses") ;;
    pass false
  else
    complain_if (negb (is_none result_sha) || negb (is_none result_bytes)
                 || negb (is_none item_count))
      (path +:+ " non-ready status must not claim result bytes, digest, or items") ;;
    _text reason_code (path +:+ ".reason_code") 3 96 ;;
    pass true.

Definition check_receipt (start end_ : option Z) (index : nat) (raw : value) (g : gathered)
  : checked gathered :=
  let path := "receipts[" +:+ str_nat index +:+ "]" in
  receipt ← _exact_object raw RECEIPT_KEYS path;
  lane_id ← lane_of receipt path;
  status ← status_of receipt path;
  check_times start end_ receipt path ;;
  _commit (dict_get receipt "producer_commit") (path +:+ ".producer_commit") ;;
  _text (dict_get receipt "schema_version") (path +:+ ".schema_version") 3 96 ;;
  _sha (dict_get receipt "source_cursor_sha256") (path +:+ ".source_cursor_sha256") ;;
  operations ← fresh_digest receipt "operation_id" path (operations g);
  path_identities ← fresh_digest receipt "path_identity" path (path_identities g);
  blocked ← check_result receipt path status;
  let ids := match lane_id with Some lane_id => [lane_id] | None => [] end in
  pass (Gathered (observed_ids g ++ ids)
          (normalized g ++ match raw with VDict _ => [raw] | _ => [] end)
          (blocking g ++ (if blocked : bool then ids else []))
          operations path_identities).

Definition check_receipts (root : items) (start end_ : option Z)
  : checked (list value * gathered) :=
  receipts ← list_of_at_most (dict_get root "receipts") 0 64
    "receipts must be an array of at most 64 items";
  g ← check_each 0 receipts (check_receipt start end_) (Gathered [] [] [] [] []);
  complain_if (negb (bool_decide (NoDup (observed_ids g))))
    "receipts must not contain duplicate lane IDs" ;;
  pass (receipts, g).

(** Missing and unexpected lanes; the missing ones block too. *)
Definition check_coverage (expected_ids observed_ids : list string) (receipts : list value)
  : checked (list string) :=
  let missing := sorted_diff expected_ids observed_ids in
  let unexpected := sorted_diff observed_ids expected_ids in
  complain_if (negb (bool_decide (missing = [])))
    ("missing lane receipts: " +:+ repr_strs missing) ;;
  complain_if (negb (bool_decide (unexpected = [])))
    ("unexpected lane receipts: " +:+ repr_strs unexpected) ;;
  complain_if (negb (length receipts =? length expected_ids)%nat)
    "receipt count must equal expected lane count" ;;
  pass missing.

Definition check_note (index : nat) (note : value) (u : unit) : checked unit :=
  _text note ("safety.notes[" +:+ str_nat index +:+ "]") 8 500 ;; pass u.

Definition check_safety (root : items) : checked unit :=
  safety ← _exact_object (dict_get root "safety") SAFETY_KEYS "safety";
  check_each 0 ["contains_source_payloads"; "contains_credentials"; "delivery_authorized"]
    (λ _ key _, complain_if (negb (is_bool (dict_get safety key) false))
                  ("safety." +:+ key +:+ " must be false")) tt ;;
  match dict_get safety "notes" with
  | VList ((_ :: _) as notes) => check_each 0 notes check_note tt
  | _ => complain "safety.notes must be a non-empty array"
  end.

(** What the checks of a manifest produce for the report. *)
Record manifest : Type := Manifest {
  m_root : items;
  m_briefing_id : option string;
  m_expected_ids : list string;
  m_receipts : list value;
  m_gathered : gathered;
  m_missing : list string;
}.

Definition check_manifest (v : value) : checked manifest :=
  _walk_public_safe v "$" ;;
  root ← _exact_object v ROOT_KEYS "$";
  complain_if (negb (py_eq (dict_get root "schema_version") (VStr LANE_SCHEMA)))
    ("schema_version must be " +:+ LANE_SCHEMA) ;;
  briefing_id ← _text (dict_get root "briefing_id") "briefing_id" 5 96;
  slug_complaint briefing_id "briefing_id has an invalid format" ;;
  _sha (dict_get root "policy_sha256") "policy_sha256" ;;
  '(start, end_) ← check_window root;
  expected_ids ← check_expected_lanes root;
  '(receipts, g) ← check_receipts root start end_;
  missing ← check_coverage expected_ids (observed_ids g) receipts;
  check_safety root ;;
  pass (Manifest root briefing_id expected_ids receipts g missing).

(** [item.get("lane_id", "")] as a sort key. *)
Definition lane_key (receipt : value) : string :=
  match receipt with
  | VDict d => py_str (dict_get_or d "lane_id" (VStr EmptyString))
  | _ => EmptyString
  end.
Definition lane_leb (a b : value) : bool := str_leb (lane_key a) (lane_key b).

Definition envelope (m : manifest) : value :=
  VDict [("schema_version", VStr "portfolio_briefing_input.v1");
    ("briefing_id", opt_str (m_briefing_id m));
    ("scheduled_window", dict_get (m_root m) "scheduled_window");
    ("policy_sha256", dict_get (m_root m) "policy_sha256");
    ("lane_receipts", VList (stable_sort lane_leb (normalized (m_gathered m))))].

Definition blocking_of (m : manifest) : list string := blocking (m_gathered m) ++ m_missing m.

(** [set(a) == set(b)] *)
Definition same_set (a b : list string) : bool :=
  forallb (λ x, mem_str x b) a && forallb (λ x, mem_str x a) b.

Definition receipt_ready (receipt : value) : bool :=
  match receipt with
  | VDict d => match dict_get d "status" with
               | VStr s => mem_str s READY_STATUSES
               | _ => false
               end
  | _ => false
  end.

Record LaneReport : Type := mkLaneReport {
  valid : bool;
  ready_for_composition : bool;
  report_briefing_id : option string;
  manifest_sha256 : option string;
  envelope_sha256 : option string;
  expected_lane_count : nat;
  receipt_count : nat;
  blocking_lanes : list string;
  errors : list string;
}.

Definition validate_lane_manifest (v : value) : result LaneReport :=
  match check_manifest v with
  | Failed e => Raise e
  | Done m errors =>
      let observed := observed_ids (m_gathered m) in
      let ready :=
        bool_decide (errors = []) && bool_decide (blocking_of m = [])
        && same_set observed (m_expected_ids m) && forallb receipt_ready (m_receipts m) in
      let '(manifest_digest, envelope_digest, errors) :=
        match (digest ← canonical_sha256 v;
               envelope_digest ← canonical_sha256 (envelope m);
               Ok (digest, envelope_digest)) with
        | Ok (digest, envelope_digest) => (Some digest, Some envelope_digest, errors)
        | Raise e =>
            (None, None,
             errors ++ ["manifest cannot be canonically serialized: " +:+ exn_msg e])
        end in
      Ok (mkLaneReport (bool_decide (errors = [])) ready (m_briefing_id m) manifest_digest
            envelope_digest (length (m_expected_ids m)) (length (m_receipts m))
            (sorted_set (blocking_of m)) errors)
  end.

(** ** Delivery states *)

Definition contract_error (msg : string) : exn := Exn ContractError msg.

(** [if errors: raise ContractError("; ".join(errors))] *)
Definition raise_errors {A} (m : checked A) : result A :=
  match m with
  | Failed e => Raise e
  | Done a errors =>
      raise_if (negb (bool_decide (errors = []))) (contract_error (str_join "; " errors)) ;;
      Ok a
  end.

(** The fields that only some states have. *)
Definition check_outcome (current receipt remote failure : value) : checked unit :=
  if py_eq current (VStr "delivered") then
    _sha receipt "delivery_state.receipt_id" ;;
    _sha remote "delivery_state.remote_identity_sha256" ;;
    complain_if (negb (is_none failure)) "delivered state must not contain failure_class"
  else
    failed ← lift (in_strings current ["retryable"; "terminal_failed"; "reconciling"]);
    if failed : bool then
      _text failure "delivery_state.failure_class" 3 96 ;;
      complain_if (negb (is_none receipt) || negb (is_none remote))
        (py_str current +:+ " state must not claim a delivery receipt")
    else
      complain_if (negb (is_none receipt) || negb (is_none remote) || negb (is_none failure))
        (py_str current +:+ " state must not contain receipt or failure fields").

Definition check_delivery_state (v : value) : checked unit :=
  state ← _exact_object v STATE_KEYS "delivery_state";
  complain_if (negb (py_eq (dict_get state "schema_version") (VStr DELIVERY_SCHEMA)))
    ("delivery_state.schema_version must be " +:+ DELIVERY_SCHEMA) ;;
  briefing_id ← _text (dict_get state "briefing_id") "delivery_state.briefing_id" 5 96;
  slug_complaint briefing_id "delivery_state.briefing_id has an invalid format" ;;
  known ← lift (in_strings (dict_get state "state") DELIVERY_STATES);
  complain_if (negb known) "delivery_state.state is unsupported" ;;
  _sha (dict_get state "content_sha256") "delivery_state.content_sha256" ;;
  destination ← _text (dict_get state "destination_id") "delivery_state.destination_id" 3 96;
  slug_complaint destination "delivery_state.destination_id has an invalid format" ;;
  _sha (dict_get state "operation_id") "delivery_state.operation_id" ;;
  token ← _non_negative (dict_get state "fencing_token") "delivery_state.fencing_token";
  attempt ← _non_negative (dict_get state "attempt") "delivery_state.attempt";
  complain_if (is_zero token) "delivery_state.fencing_token must be positive" ;;
  complain_if (is_zero attempt) "delivery_state.attempt must be positive" ;;
  check_outcome (dict_get state "state") (dict_get state "receipt_id")
    (dict_get state "remote_identity_sha256") (dict_get state "failure_class").

Definition validate_delivery_state (v : value) : result unit :=
  raise_errors (check_delivery_state v).

(** [d.update(kvs)] *)
Definition dict_update (d kvs : items) : items :=
  foldl (λ d kv, dict_set d kv.1 kv.2) d kvs.

Definition check_command (command : value)
  : checked (items * option string * option string * option Z) :=
  cmd ← _exact_object command COMMAND_KEYS "command";
  kind ← _text (dict_get cmd "kind") "command.kind" 3 64;
  operation ← _sha (dict_get cmd "operation_id") "command.operation_id";
  token ← _non_negative (dict_get cmd "fencing_token") "command.fencing_token";
  pass (cmd, kind, operation, token).

(** [int(v)] and [str(v)] of the integers and texts a valid state holds. *)
Definition int_field (d : items) (key : string) : result Z :=
  match dict_get d key with
  | VInt z => Ok z
  | _ => Raise (Exn TypeError "int() argument is not a number")
  end.

(** The guards of a command: the states it is legal in, and ownership. *)
Definition legal_from (kind : string) (state : string) (states : list string) : result unit :=
  raise_if (negb (mem_str state states))
    (contract_error (kind +:+ " is illegal from " +:+ state)).
Definition same_owner (d : items) (operation : string) (token : Z) : result unit :=
  current_token ← int_field d "fencing_token";
  raise_if (negb (token =? current_token)
            || negb (String.eqb operation (py_str (dict_get d "operation_id"))))
    (contract_error "command does not own the current fenced operation").

(** Leaving a delivery attempt without a receipt. *)
Definition without_receipt (state failure : string) : items :=
  [("state", VStr state); ("receipt_id", VNone); ("remote_identity_sha256", VNone);
   ("failure_class", VStr failure)].

Definition failure_of (cmd : items) : result string :=
  failure ← raise_errors (_text (dict_get cmd "failure_class") "command.failure_class" 3 96);
  match failure with
  | Some failure => Ok failure
  | None => Raise (Exn AssertionError EmptyString)
  end.

Definition receipt_of (cmd : items) : result (option string * option string) :=
  raise_errors
    (receipt ← _sha (dict_get cmd "receipt_id") "command.receipt_id";
     remote ← _sha (dict_get cmd "remote_identity_sha256") "command.remote_identity_sha256";
     pass (receipt, remote)).

Definition claim (d : items) (state operation : string) (token : Z) : result items :=
  legal_from "claim" state ["prepared"; "retryable"] ;;
  current_token ← int_field d "fencing_token";
  raise_if (token <=? current_token)
    (contract_error "claim requires a strictly newer fencing token") ;;
  attempt ← int_field d "attempt";
  Ok (dict_update d
        [("state", VStr "claimed"); ("operation_id", VStr operation);
         ("fencing_token", VInt token);
         ("attempt", VInt (attempt + (if String.eqb state "retryable" then 1 else 0)));
         ("receipt_id", VNone); ("remote_identity_sha256", VNone); ("failure_class", VNone)]).

Definition fail_from (kind : string) (states : list string) (target : string)
    (d cmd : items) (state operation : string) (token : Z) : result items :=
  legal_from kind state states ;;
  same_owner d operation token ;;
  failure ← failure_of cmd;
  Ok (dict_update d (without_receipt target failure)).

Definition dispatch (d cmd : items) (kind state operation : string) (token : Z) : result items :=
  if String.eqb kind "claim" then claim d state operation token
  else if String.eqb kind "begin_delivery" then
    legal_from kind state ["claimed"] ;;
    same_owner d operation token ;;
    Ok (dict_set d "state" (VStr "delivering"))
  else if String.eqb kind "accept_receipt" then
    legal_from kind state ["delivering"; "reconciling"] ;;
    same_owner d operation token ;;
    '(receipt, remote) ← receipt_of cmd;
    Ok (dict_update d
          [("state", VStr "delivered"); ("receipt_id", opt_str receipt);
           ("remote_identity_sha256", opt_str remote); ("failure_class", VNone)])
  else if String.eqb kind "record_retryable_failure" then
    fail_from kind ["delivering"] "retryable" d cmd state operation token
  else if String.eqb kind "record_terminal_failure" then
    fail_from kind ["claimed"; "delivering"; "reconciling"] "terminal_failed" d cmd state
      operation token
  else if String.eqb kind "mark_ambiguous" then
    fail_from kind ["delivering"] "reconciling" d cmd state operation token
  else if String.eqb kind "reconcile_not_delivered" then
    legal_from kind state ["reconciling"] ;;
    same_owner d operation token ;;
    Ok (dict_update d (without_receipt "retryable" "reconciled_not_delivered"))
  else Raise (contract_error ("unsupported command kind: " +:+ kind)).

Definition transition_delivery (current command : value) : result value :=
  validate_delivery_state current ;;
  '(cmd, kind, operation, token) ← raise_errors (check_command command);
  match current, kind, operation, token with
  | VDict d, Some kind, Some operation, Some token =>
      candidate ← dispatch d cmd kind (py_str (dict_get d "state")) operation token;
      validate_delivery_state (VDict candidate) ;;
      Ok (VDict candidate)
  | _, _, _, _ => Raise (Exn AssertionError EmptyString)
  end.

End Briefing.
