(* ===== verification/BriefingTheorems.v ===== *)
(** * Daily briefing: results

    Which manifests are accepted and when one is ready, that the order in which
    receipts arrive changes neither the verdict nor the envelope's digest, and
    that the delivery documents follow a fenced state machine. *)
From S2P Require Import Prelude PyValue Sha256 Json Contract DateTime RecoveryCommon GitObjects.
From S2P Require Import Collect Briefing.
From Stdlib Require Import Ascii.
From Stdlib Require Sorted.

Module BriefingTheorems.
Import Briefing.
Open Scope Z_scope.

#[global] Arguments _non_negative : simpl never.
#[global] Arguments slug_complaint : simpl never.
#[global] Arguments list_of_at_most : simpl never.

(** ** Fields *)

Definition text_field (v : value) (lo hi : Z) : Prop := ∃ s, v = VStr s ∧ lo <= slen s <= hi.
Definition slug_field (v : value) (lo hi : Z) (s : string) : Prop :=
  v = VStr s ∧ lo <= slen s <= hi ∧ SLUG s = true.
Definition sha_field (v : value) : Prop := ∃ s, v = VStr s ∧ SHA256 s = true.
Definition instant_field (v : value) (t : Z) : Prop :=
  ∃ s, v = VStr s ∧ 20 <= slen s <= 64 ∧ denotes s t.

Lemma non_negative_clean v path o :
  _non_negative v path = Done o [] ↔ ∃ z, v = VInt z ∧ o = Some z ∧ 0 <= z.
Proof.
  unfold _non_negative.
  assert (∀ msg, (complain msg ;; pass (@None Z)) = Done o [] ↔ False) as Hc.
  { intros msg. rewrite bind_clean. split; [|done]. by intros (u & ?%complain_not_clean & _). }
  destruct v; rewrite ?Hc; try (split; [done|by intros (? & ? & _)]).
  destruct (Z.ltb_spec z 0); rewrite ?Hc, ?pass_clean.
  - split; [done|]. intros (? & [= ->] & _ & ?). lia.
  - split; [intros <-; eauto|]. by intros (? & [= ->] & -> & _).
Qed.

Lemma slug_complaint_clean o msg u :
  slug_complaint o msg = Done u [] ↔ ∀ s, o = Some s → SLUG s = true.
Proof.
  unfold slug_complaint. rewrite complain_if_clean. destruct o as [s|].
  - rewrite negb_false_iff. split; [by intros ? ? [= ->]|auto].
  - done.
Qed.

Lemma list_of_at_most_clean v lo hi msg l :
  list_of_at_most v lo hi msg = Done l [] ↔ v = VList l ∧ lo <= Z.of_nat (length l) <= hi.
Proof.
  unfold list_of_at_most.
  assert (∀ l : list value, (complain msg ;; pass (@nil value)) = Done l [] ↔ False) as Hc.
  { intros l'. rewrite bind_clean. split; [|done]. by intros (u & ?%complain_not_clean & _). }
  destruct v as [| | | | |l'|]; rewrite ?Hc; try (split; [done|by intros [? _]]).
  destruct (_ && _) eqn:Hb; rewrite ?Hc.
  - rewrite pass_clean. bool_hyps. split; [by intros <-|by intros [[= ->] _]].
  - split; [done|]. intros [[= ->] H]. apply andb_false_iff in Hb. rewrite !Z.leb_gt in Hb. lia.
Qed.

Lemma timestamp_field v path o :
  _timestamp v path = Done o [] ↔ ∃ t, o = Some t ∧ instant_field v t.
Proof. rewrite timestamp_clean. unfold instant_field. naive_solver. Qed.

Lemma slug_of_some s msg u : slug_complaint (Some s) msg = Done u [] → SLUG s = true.
Proof. rewrite slug_complaint_clean. auto. Qed.

Ltac fields :=
  repeat (clean_step ||
    match goal with
    | H : slug_complaint (Some _) _ = Done _ [] |- _ => apply slug_of_some in H
    | H : _non_negative _ _ = Done _ [] |- _ =>
        let E := fresh "Hdoc" in apply non_negative_clean in H as (? & E & ? & ?); try subst
    | H : list_of_at_most _ _ _ _ = Done _ [] |- _ =>
        let E := fresh "Hdoc" in apply list_of_at_most_clean in H as [E ?]
    end).

(** ** Lanes *)

(** What a receipt says: its lane, its two identities, whether it is ready. *)
Record lane_receipt : Type := LaneReceipt {
  lane : string;
  operation : string;
  path_identity : string;
  lane_ready : bool;
}.

(** The result a receipt may claim under its status. *)
Inductive result_ok (d : items) : bool → Prop :=
  | lane_success n m : dict_get d "status" = VStr "success" → sha_field (dict_get d "result_sha256") →
      dict_get d "result_bytes" = VInt n → 0 < n → dict_get d "item_count" = VInt m → 0 < m →
      dict_get d "reason_code" = VNone → result_ok d true
  | lane_no_results n : dict_get d "status" = VStr "no_results" →
      sha_field (dict_get d "result_sha256") →
      dict_get d "result_bytes" = VInt n → 0 <= n → dict_get d "item_count" = VInt 0 →
      dict_get d "reason_code" = VNone → result_ok d true
  | lane_not_ready s : dict_get d "status" = VStr s →
      s ∈ ["failed"; "blocked"; "unavailable"; "skipped"] →
      dict_get d "result_sha256" = VNone → dict_get d "result_bytes" = VNone →
      dict_get d "item_count" = VNone → text_field (dict_get d "reason_code") 3 96 →
      result_ok d false.

(** An acceptable receipt of the window from [start] until before [end_]. *)
Record receipt_ok (start end_ : Z) (d : items) (r : lane_receipt) : Prop := {
  receipt_keys : same_keys d RECEIPT_KEYS = true;
  receipt_lane : slug_field (dict_get d "lane_id") 3 64 (lane r);
  receipt_times : ∃ observed retained, instant_field (dict_get d "observed_at") observed ∧
    instant_field (dict_get d "retained_until") retained ∧
    start <= observed < end_ ∧ observed < retained;
  receipt_commit : ∃ s, dict_get d "producer_commit" = VStr s ∧ COMMIT s = true;
  receipt_schema : text_field (dict_get d "schema_version") 3 96;
  receipt_cursor : sha_field (dict_get d "source_cursor_sha256");
  receipt_operation : dict_get d "operation_id" = VStr (operation r) ∧ SHA256 (operation r) = true;
  receipt_path : dict_get d "path_identity" = VStr (path_identity r) ∧
    SHA256 (path_identity r) = true;
  receipt_result : result_ok d (lane_ready r);
}.

Lemma lane_of_clean d path o :
  lane_of d path = Done o [] ↔ ∃ s, o = Some s ∧ slug_field (dict_get d "lane_id") 3 64 s.
Proof.
  unfold lane_of, slug_field. split.
  - intros H. fields. eauto.
  - intros (s & -> & Hv & Hn & Hs). rewrite bind_clean. exists (Some s).
    rewrite text_clean. split; [eauto|]. rewrite bind_clean. exists tt.
    rewrite slug_complaint_clean. split; [by intros ? [= ->]|done].
Qed.

Lemma status_of_clean d path o :
  status_of d path = Done o [] ↔
  ∃ s, o = Some s ∧ dict_get d "status" = VStr s ∧ s ∈ TERMINAL_LANE_STATUSES.
Proof.
  unfold status_of. split.
  - intros H. cleaned. apply negb_false_iff, mem_str_In in Hc0. eauto.
  - intros (s & -> & Hv & Hs). rewrite bind_clean. exists (Some s). rewrite text_clean. split.
    + exists s. repeat (split; [done|]).
      assert (Forall (λ s, 3 <= slen s <= 32) TERMINAL_LANE_STATUSES) as Hall
        by (repeat constructor; by vm_compute).
      rewrite Forall_forall in Hall. by apply Hall.
    + rewrite bind_clean. exists tt. rewrite complain_if_clean, negb_false_iff, mem_str_In. done.
Qed.

Lemma check_times_clean s e d path u :
  check_times (Some s) (Some e) d path = Done u [] ↔
  ∃ observed retained, instant_field (dict_get d "observed_at") observed ∧
    instant_field (dict_get d "retained_until") retained ∧
    s <= observed < e ∧ observed < retained.
Proof.
  unfold check_times. split.
  - intros H. apply bind_clean in H as (o & (t & -> & Ho)%timestamp_field & H).
    apply bind_clean in H as (o' & (t' & -> & Hr)%timestamp_field & H). cleaned.
    simpl in *. rewrite Z.geb_leb in H. bool_hyps. exists t, t'. repeat (split; [done|]). lia.
  - intros (t & t' & Ho & Hr & Ht & Ht'). rewrite bind_clean. exists (Some t).
    rewrite timestamp_field. split; [eauto|]. rewrite bind_clean. exists (Some t').
    rewrite timestamp_field. split; [eauto|]. destruct u.
    repeat (rewrite bind_clean; exists tt; split; [apply complain_if_clean; simpl; lia|]).
    apply complain_if_clean. simpl. rewrite Z.geb_leb. lia.
Qed.

Lemma fresh_digest_clean d key path seen l :
  fresh_digest d key path seen = Done l [] ↔
  ∃ s, dict_get d key = VStr s ∧ SHA256 s = true ∧ s ∉ seen ∧ l = seen ++ [s].
Proof.
  unfold fresh_digest. split.
  - intros H. cleaned. exists x. repeat (split; [done|]). split; [|done].
    rewrite <- mem_str_In. congruence.
  - intros (s & Hv & Hs & Hn & ->). rewrite bind_clean. exists (Some s). rewrite sha_clean.
    split; [eauto|]. rewrite bind_clean. exists tt. split; [|done].
    apply complain_if_clean, not_true_iff_false. by rewrite mem_str_In.
Qed.

Lemma check_result_sound d path s b :
  dict_get d "status" = VStr s → s ∈ TERMINAL_LANE_STATUSES →
  check_result d path (Some s) = Done b [] → result_ok d (negb b).
Proof.
  intros Hs Hin. unfold check_result.
  destruct (is_ready (Some s)) eqn:Hr; intros H; fields; rewrite ?orb_false_iff, ?not_none_false in *.
  - unfold is_ready, READY_STATUSES in Hr. apply mem_str_In in Hr. unfold eq_status, eq_opt in *. simpl in *.
    rewrite !elem_of_cons, elem_of_nil in Hr. destruct Hr as [->|[->|[]]]; simpl in *.
    + apply Z.eqb_neq in Hc3. rewrite andb_true_r in Hc4. apply Z.eqb_neq in Hc4.
      eapply lane_success; [done|by eexists|done|lia|done|lia|done].
    + apply negb_false_iff, Z.eqb_eq in Hc2. subst.
      eapply lane_no_results; [done|by eexists|done..].
  - destruct Hc as [[? ?] ?]. apply (lane_not_ready _ s); try done; [|by eexists].
    unfold TERMINAL_LANE_STATUSES in Hin. apply elem_of_app in Hin as [Hin|]; [|done].
    apply mem_str_In in Hin. unfold is_ready in Hr. congruence.
Qed.

Ltac clean_fields :=
  repeat (clean_goal ||
    match goal with
    | |- _non_negative _ _ ≫= _ = _ =>
        eapply bind_value_clean;
          [apply non_negative_clean; eexists;
           split; [first [eassumption|reflexivity]|split; [reflexivity|lia]]|]
    | |- slug_complaint (Some _) _ ≫= _ = _ =>
        apply (bind_value_clean _ _ tt); [apply slug_complaint_clean; by intros ? [= <-]|]
    end).

Lemma check_result_complete d path s b :
  dict_get d "status" = VStr s → result_ok d (negb b) →
  check_result d path (Some s) = Done b [].
Proof.
  intros Hs H. unfold check_result. remember (negb b) as r eqn:Hb. destruct H as
    [n m Hst [x [Hx Hsha]] Hn ? Hm ? Hr|n Hst [x [Hx Hsha]] Hn ? Hm Hr
    |st Hst Hin H1 H2 H3 [x [Hx Hlen]]];
    apply (f_equal negb) in Hb; rewrite negb_involutive in Hb; subst b;
    rewrite Hst in Hs; injection Hs as <-.
  - rewrite Hr. simpl. clean_fields; simpl; rewrite ?andb_true_r; try done; apply Z.eqb_neq; lia.
  - rewrite Hr. simpl. clean_fields; simpl; try done. by rewrite andb_false_r.
  - assert (is_ready (Some st) = false) as ->.
    { apply not_true_iff_false. unfold is_ready. rewrite mem_str_In. intros Hr.
      unfold READY_STATUSES in Hr. rewrite !elem_of_cons, elem_of_nil in *. naive_solver. }
    rewrite H1, H2, H3. clean_fields; done.
Qed.

Lemma result_status d b :
  result_ok d b → ∃ s, dict_get d "status" = VStr s ∧ s ∈ TERMINAL_LANE_STATUSES.
Proof.
  intros H. unfold TERMINAL_LANE_STATUSES. setoid_rewrite elem_of_app.
  destruct H as [? ? Hs| ? Hs|? Hs Hin]; eexists; (split; [exact Hs|]); [left|left|by right];
    by apply (bool_decide_eq_true_1 _).
Qed.

Lemma check_receipt_clean s e j raw g g' :
  check_receipt (Some s) (Some e) j raw g = Done g' [] ↔
  ∃ d r, raw = VDict d ∧ receipt_ok s e d r ∧
    operation r ∉ operations g ∧ path_identity r ∉ path_identities g ∧
    g' = Gathered (observed_ids g ++ [lane r]) (normalized g ++ [raw])
      (blocking g ++ (if lane_ready r then [] else [lane r]))
      (operations g ++ [operation r]) (path_identities g ++ [path_identity r]).
Proof.
  unfold check_receipt. split.
  - intros H. apply bind_clean in H as (d & (-> & Hkeys)%exact_object_clean & H).
    apply bind_clean in H as (o & (l & -> & Hlane)%lane_of_clean & H).
    apply bind_clean in H as (o & (st & -> & Hst & Hin)%status_of_clean & H).
    apply bind_clean in H as (u & Ht%check_times_clean & H).
    fields.
    repeat match goal with H : fresh_digest _ _ _ _ = _ |- _ =>
      apply fresh_digest_clean in H as (? & ? & ? & ? & ->) end.
    match goal with H : check_result _ _ _ = Done ?b _ |- _ =>
      apply check_result_sound in H; [|done..] end.
    exists d. eexists (LaneReceipt l _ _ (negb _)).
    split; [done|]. split; [split; simpl; eauto; eexists; eauto|].
    simpl. repeat (split; [done|]). by destruct a4.
  - intros (d & r & -> & [H1 H2 H3 [x [H4 H4']] [y [H5 H5']] [z [H6 H6']] [H7 H8] [H9 H10] H11]
      & Hop & Hpath & ->).
    destruct (result_status _ _ H11) as (st & Hst & Hin).
    eapply bind_value_clean; [by apply exact_object_clean|].
    eapply bind_value_clean; [apply lane_of_clean; eauto|].
    eapply bind_value_clean; [apply status_of_clean; eauto|].
    apply (bind_value_clean _ _ tt); [by apply check_times_clean|].
    clean_fields.
    eapply bind_value_clean; [apply fresh_digest_clean; eauto 10|].
    eapply bind_value_clean; [apply fresh_digest_clean; eauto 10|].
    eapply bind_value_clean;
      [apply (check_result_complete _ _ _ (negb (lane_ready r))); [done|by rewrite negb_involutive]|].
    by destruct (lane_ready r).
Qed.

(** ** The loop over the receipts *)

(** New values: distinct, and none seen before. *)
Definition fresh_for (seen l : list string) : Prop := NoDup l ∧ ∀ x, x ∈ l → x ∉ seen.

Lemma fresh_for_cons seen x l :
  fresh_for seen (x :: l) ↔ x ∉ seen ∧ fresh_for (seen ++ [x]) l.
Proof.
  unfold fresh_for. rewrite NoDup_cons. setoid_rewrite elem_of_cons.
  setoid_rewrite not_elem_of_app. setoid_rewrite list_elem_of_singleton. naive_solver.
Qed.

Definition read_as (s e : Z) (raw : value) (r : lane_receipt) : Prop :=
  ∃ d, raw = VDict d ∧ receipt_ok s e d r.

(** What a list of receipts adds to what was gathered before. *)
Definition gather (g : gathered) (raws : list value) (rs : list lane_receipt) : gathered :=
  Gathered (observed_ids g ++ map lane rs) (normalized g ++ raws)
    (blocking g ++ map lane (List.filter (λ r, negb (lane_ready r)) rs))
    (operations g ++ map operation rs) (path_identities g ++ map path_identity rs).

Lemma gather_cons g raw r raws rs :
  gather (Gathered (observed_ids g ++ [lane r]) (normalized g ++ [raw])
      (blocking g ++ (if lane_ready r then [] else [lane r]))
      (operations g ++ [operation r]) (path_identities g ++ [path_identity r])) raws rs =
  gather g (raw :: raws) (r :: rs).
Proof.
  unfold gather. simpl. rewrite <- !app_assoc. by destruct (lane_ready r).
Qed.

Lemma receipts_loop s e i raws g g' :
  check_each i raws (check_receipt (Some s) (Some e)) g = Done g' [] ↔
  ∃ rs, Forall2 (read_as s e) raws rs ∧ fresh_for (operations g) (map operation rs) ∧
    fresh_for (path_identities g) (map path_identity rs) ∧ g' = gather g raws rs.
Proof.
  revert i g; induction raws as [|raw raws IH]; intros i g; simpl.
  - rewrite pass_clean. split.
    + intros <-. exists []. destruct g. unfold gather, fresh_for. simpl. rewrite !app_nil_r.
      repeat split; try constructor; by intros ? ?%not_elem_of_nil.
    + intros (rs & Hrs%Forall2_nil_inv_l & _ & _ & ->). subst. destruct g. unfold gather. simpl.
      by rewrite !app_nil_r.
  - rewrite bind_clean. split.
    + intros (g1 & (d & r & -> & Hr & Hop & Hpath & ->)%check_receipt_clean & H).
      rewrite IH in H. destruct H as (rs & Hrs & H1 & H2 & ->). exists (r :: rs).
      split; [constructor; [by exists d|done]|]. csimpl. rewrite !fresh_for_cons.
      repeat (split; [done|]). apply gather_cons.
    + intros (rs' & Hrs & H1 & H2 & ->).
      apply Forall2_cons_inv_l in Hrs as (r & rs & (d & -> & Hr) & Hrs & ->). csimpl in *.
      rewrite fresh_for_cons in H1, H2. destruct H1 as [H1 H1'], H2 as [H2 H2'].
      eexists. split; [apply check_receipt_clean; eauto 10|]. apply IH.
      exists rs. rewrite gather_cons. done.
Qed.

Lemma expected_loop i raws ids ids' :
  check_each i raws check_expected ids = Done ids' [] ↔
  ∃ l, Forall2 (λ v s, slug_field v 3 64 s) raws l ∧ ids' = ids ++ l.
Proof.
  revert i ids; induction raws as [|raw raws IH]; intros i ids; simpl.
  - rewrite pass_clean. split.
    + intros <-. exists []. by rewrite app_nil_r.
    + intros (l & ->%Forall2_nil_inv_l & ->). by rewrite app_nil_r.
  - rewrite bind_clean. unfold check_expected at 1. setoid_rewrite IH. split.
    + intros (ids1 & H & l & Hl & ->). fields. exists (x :: l).
      split; [constructor; [by split|done]|]. by rewrite <- app_assoc.
    + intros (l' & H & ->). apply Forall2_cons_inv_l in H as (x & l & (? & ? & ?) & Hl & ->).
      exists (ids ++ [x]). split; [clean_fields; cbv beta match; clean_fields|]. exists l. split; [done|].
      by rewrite <- app_assoc.
Qed.

(** ** Manifests *)

(** What the fixed parts of a manifest say. *)
Definition window_ok (root : items) (s e : Z) : Prop :=
  ∃ w, dict_get root "scheduled_window" = VDict w ∧ same_keys w WINDOW_KEYS = true ∧
    instant_field (dict_get w "start") s ∧ instant_field (dict_get w "end") e ∧
    text_field (dict_get w "timezone") 3 64 ∧ s < e.

Definition safety_ok (root : items) : Prop :=
  ∃ d n notes, dict_get root "safety" = VDict d ∧ same_keys d SAFETY_KEYS = true ∧
    dict_get d "contains_source_payloads" = VBool false ∧
    dict_get d "contains_credentials" = VBool false ∧
    dict_get d "delivery_authorized" = VBool false ∧
    dict_get d "notes" = VList (n :: notes) ∧
    ∀ note, note ∈ n :: notes → text_field note 8 500.

(** An acceptable manifest: its window, its expected lanes, and one receipt
    for each of them, with distinct lanes, operations and paths. *)
Record manifest_ok (v : value) (root : items) (id : string) (s e : Z) (expected : list string)
    (raws : list value) (rs : list lane_receipt) : Prop := {
  ok_root : v = VDict root ∧ same_keys root ROOT_KEYS = true;
  ok_walk : no_forbidden forbidden_keys v;
  ok_schema : dict_get root "schema_version" = VStr LANE_SCHEMA;
  ok_id : slug_field (dict_get root "briefing_id") 5 96 id;
  ok_policy : sha_field (dict_get root "policy_sha256");
  ok_window : window_ok root s e;
  ok_expected : ∃ l, dict_get root "expected_lanes" = VList l ∧ 1 <= Z.of_nat (length l) <= 64 ∧
    Forall2 (λ v s, slug_field v 3 64 s) l expected;
  ok_receipts : dict_get root "receipts" = VList raws ∧ Z.of_nat (length raws) <= 64 ∧
    Forall2 (read_as s e) raws rs;
  ok_lanes : NoDup expected ∧ map lane rs ≡ₚ expected;
  ok_identities : NoDup (map operation rs) ∧ NoDup (map path_identity rs);
  ok_safety : safety_ok root;
}.

Lemma is_bool_false v b : negb (is_bool v b) = false ↔ v = VBool b.
Proof.
  destruct v as [|b'| | | | |]; simpl; try (split; [done|by intros [=]]).
  destruct b, b'; simpl; split; congruence.
Qed.

Lemma check_window_clean root p :
  check_window root = Done p [] ↔ ∃ s e, p = (Some s, Some e) ∧ window_ok root s e.
Proof.
  unfold check_window, window_ok. split.
  - intros H. apply bind_clean in H as (w & (Hw & Hk)%exact_object_clean & H).
    apply bind_clean in H as (o & (s & -> & Hs)%timestamp_field & H).
    apply bind_clean in H as (o' & (e & -> & He)%timestamp_field & H). fields.
    simpl in *. rewrite Z.geb_leb in Hc0. bool_hyps. exists s, e. split; [done|].
    exists w. repeat (split; [done|]). split; [by eexists|done].
  - intros (s & e & -> & w & Hw & Hk & Hs & He & [tz [Htz Hlen]] & Hse).
    eapply bind_value_clean; [by apply exact_object_clean|].
    eapply bind_value_clean; [apply timestamp_field; eauto|].
    eapply bind_value_clean; [apply timestamp_field; eauto|]. clean_fields.
    simpl. rewrite Z.geb_leb. by apply Z.leb_gt.
Qed.

Lemma check_expected_lanes_clean root ids :
  check_expected_lanes root = Done ids [] ↔
  (∃ l, dict_get root "expected_lanes" = VList l ∧ 1 <= Z.of_nat (length l) <= 64 ∧
    Forall2 (λ v s, slug_field v 3 64 s) l ids) ∧ NoDup ids.
Proof.
  unfold check_expected_lanes. split.
  - intros H. apply bind_clean in H as (l & [Hl Hn]%list_of_at_most_clean & H).
    apply bind_clean in H as (ids' & (l' & Hl' & ->)%expected_loop & H). fields.
    simpl. bool_hyps. eauto 10.
  - intros ((l & Hl & Hn & Hids) & Hnd).
    eapply bind_value_clean; [by apply list_of_at_most_clean|].
    eapply bind_value_clean; [apply expected_loop; eauto|]. clean_fields.
    by apply negb_false_iff, bool_decide_eq_true.
Qed.

Lemma check_receipts_clean root s e p :
  check_receipts root (Some s) (Some e) = Done p [] ↔
  ∃ raws rs, dict_get root "receipts" = VList raws ∧ Z.of_nat (length raws) <= 64 ∧
    Forall2 (read_as s e) raws rs ∧ NoDup (map operation rs) ∧ NoDup (map path_identity rs) ∧
    NoDup (map lane rs) ∧ p = (raws, gather (Gathered [] [] [] [] []) raws rs).
Proof.
  unfold check_receipts, fresh_for.
  assert (∀ l, fresh_for [] l ↔ NoDup l) as Hfresh.
  { intros l. unfold fresh_for. split; [by intros [? _]|]. intros Hl. split; [done|].
    intros x _. apply not_elem_of_nil. }
  split.
  - intros H. apply bind_clean in H as (raws & [Hl Hn]%list_of_at_most_clean & H).
    apply bind_clean in H as (g & (rs & Hrs & H1 & H2 & ->)%receipts_loop & H).
    simpl in H1, H2. rewrite Hfresh in H1, H2. fields. bool_hyps.
    exists raws, rs. repeat (split; [done || lia|]). done.
  - intros (raws & rs & Hl & Hn & Hrs & H1 & H2 & H3 & ->).
    eapply bind_value_clean; [apply list_of_at_most_clean; split; [done|lia]|].
    eapply bind_value_clean.
    { apply receipts_loop. exists rs. simpl. rewrite !Hfresh. done. }
    clean_fields. by apply negb_false_iff, bool_decide_eq_true.
Qed.

Lemma check_coverage_clean expected observed (raws : list value) missing :
  NoDup expected → NoDup observed → length raws = length observed →
  check_coverage expected observed raws = Done missing [] ↔ missing = [] ∧ observed ≡ₚ expected.
Proof.
  intros He Ho Hlen. unfold check_coverage. split.
  - intros H. fields. bool_hyps. split; [done|]. apply sorted_diff_nil in Hc, Hc0.
    by apply NoDup_Permutation; [done..|]; set_solver.
  - intros [-> Hp]. assert (expected ⊆ observed) as H1 by (intros x; by rewrite Hp).
    assert (observed ⊆ expected) as H2 by (intros x; by rewrite Hp).
    apply sorted_diff_nil in H1, H2. rewrite H1, H2. clean_fields; [done|done|].
    rewrite Hlen, Hp. by apply negb_false_iff, Nat.eqb_eq.
Qed.

Lemma check_safety_clean root u : check_safety root = Done u [] ↔ safety_ok root.
Proof.
  unfold check_safety, safety_ok. split.
  - intros H. apply bind_clean in H as (d & [Hd Hk]%exact_object_clean & H).
    apply bind_clean in H as ([] & Hflags & H).
    rewrite check_each_clean in Hflags.
    pose proof (λ i k Hi, proj1 (complain_if_clean _ _ _) (Hflags i k Hi)) as Hf.
    destruct (dict_get d "notes") as [| | | | |[|n notes]|] eqn:Hnotes;
      try by apply complain_not_clean in H.
    destruct u. rewrite check_each_clean in H.
    exists d, n, notes. repeat (split; [done|]).
    split; [by apply is_bool_false, (Hf 0%nat)|]. split; [by apply is_bool_false, (Hf 1%nat)|].
    split; [by apply is_bool_false, (Hf 2%nat)|]. split; [done|].
    intros note (j & Hj)%list_elem_of_lookup. specialize (H j note Hj).
    unfold check_note in H. fields. by eexists.
  - intros (d & n & notes & Hd & Hk & H1 & H2 & H3 & Hn & Hnotes). destruct u.
    eapply bind_value_clean; [by apply exact_object_clean|].
    apply (bind_value_clean _ _ tt).
    + apply check_each_clean. intros j key Hj. apply complain_if_clean, is_bool_false.
      destruct j as [|[|[|j]]]; simpl in Hj; by simplify_eq.
    + rewrite Hn. apply check_each_clean. intros j note Hj.
      destruct (Hnotes note) as (t & Ht & Hlen); [by eapply list_elem_of_lookup_2|].
      unfold check_note. clean_fields.
Qed.

(** What the checks of an acceptable manifest gather. *)
Definition gathered_manifest (root : items) (id : string) (expected : list string)
    (raws : list value) (rs : list lane_receipt) : manifest :=
  Manifest root (Some id) expected raws (gather (Gathered [] [] [] [] []) raws rs) [].

Lemma manifest_clean v m :
  check_manifest v = Done m [] ↔
  ∃ root id s e expected raws rs, manifest_ok v root id s e expected raws rs ∧
    m = gathered_manifest root id expected raws rs.
Proof.
  unfold check_manifest. split.
  - intros H. apply bind_clean in H as ([] & Hwalk & H).
    assert (no_forbidden forbidden_keys v) as Hno.
    { eapply walk_safe_nil. unfold _walk_public_safe in Hwalk. by injection Hwalk. }
    apply bind_clean in H as (root & [Hv Hk]%exact_object_clean & H).
    apply bind_clean in H as ([] & Hs%complain_if_clean%negb_false_iff%py_eq_str & H).
    apply bind_clean in H as (o & (id & Hid & -> & Hidn)%text_clean & H).
    apply bind_clean in H as ([] & Hslug%slug_of_some & H).
    apply bind_clean in H as (o & (pol & Hpol & -> & Hpols)%sha_clean & H).
    apply bind_clean in H as (p & (s & e & -> & Hw)%check_window_clean & H).
    apply bind_clean in H as (expected & [Hexp Hnd]%check_expected_lanes_clean & H).
    apply bind_clean in H as (p & (raws & rs & Hl & Hn & Hrs & Ho & Hp & Hlane & ->)
      %check_receipts_clean & H).
    apply bind_clean in H as (missing & Hcov & H).
    apply check_coverage_clean in Hcov as [-> Hperm];
      [|done..|simpl; by rewrite length_map, (Forall2_length _ _ _ Hrs)].
    apply bind_clean in H as ([] & Hsafe%check_safety_clean & H). fields.
    exists root, id, s, e, expected, raws, rs. split; [|done]. split; try done; by eexists.
  - intros (root & id & s & e & expected & raws & rs & [[Hv Hk] Hwalk Hs (Hid & Hidn & Hslug)
      [pol [Hpol Hpols]] Hw Hexp (Hl & Hn & Hrs) [Hnd Hperm] [Ho Hp] Hsafe] & ->).
    apply (bind_value_clean _ _ tt).
    { unfold _walk_public_safe. f_equal. by apply walk_safe_nil. }
    eapply bind_value_clean; [by apply exact_object_clean|]. clean_fields.
    { by apply negb_false_iff, py_eq_str. }
    eapply bind_value_clean; [apply check_window_clean; eauto|]. cbv beta match.
    eapply bind_value_clean; [by apply check_expected_lanes_clean|].
    eapply bind_value_clean.
    { apply check_receipts_clean. exists raws, rs. repeat (split; [done|]). by rewrite Hperm. }
    cbv beta match. eapply bind_value_clean.
    { apply check_coverage_clean; simpl; [done|by rewrite Hperm| |done].
      by rewrite length_map, (Forall2_length _ _ _ Hrs). }
    apply (bind_value_clean _ _ tt); [by apply check_safety_clean|]. done.
Qed.

(** ** The report *)

Lemma returns_non_negative v path : returns (_non_negative v path).
Proof. unfold _non_negative. solve_returns. Qed.
Lemma returns_slug_complaint o msg : returns (slug_complaint o msg).
Proof. unfold slug_complaint. solve_returns. Qed.
Lemma returns_list_of_at_most v lo hi msg : returns (list_of_at_most v lo hi msg).
Proof. unfold list_of_at_most. solve_returns. Qed.
#[export] Hint Resolve returns_non_negative returns_slug_complaint returns_list_of_at_most : returns.

Lemma returns_check_receipt start end_ i raw g : returns (check_receipt start end_ i raw g).
Proof.
  unfold check_receipt, lane_of, status_of, check_times, fresh_digest, check_result.
  solve_returns.
Qed.
#[export] Hint Resolve returns_check_receipt : returns.

Lemma manifest_returns v : returns (check_manifest v).
Proof.
  unfold check_manifest. apply returns_bind; [done|]. intros _.
  unfold check_window, check_expected_lanes, check_receipts, check_coverage, check_safety,
    check_expected, check_note. solve_returns.
Qed.

Lemma receipt_ready_iff s e raw r : read_as s e raw r → receipt_ready raw = lane_ready r.
Proof.
  intros (d & -> & H). destruct (receipt_result _ _ _ _ H) as [? ? Hs|? Hs|st Hs Hin];
    unfold receipt_ready; rewrite Hs; [done..|].
  apply not_true_iff_false. rewrite mem_str_In. unfold READY_STATUSES.
  rewrite !elem_of_cons, elem_of_nil in *. naive_solver.
Qed.

Lemma receipts_ready_iff s e raws rs :
  Forall2 (read_as s e) raws rs →
  forallb receipt_ready raws = true ↔ ∀ r, r ∈ rs → lane_ready r = true.
Proof.
  induction 1 as [|raw r raws rs Hr _ IH]; simpl.
  - split; [by intros _ ? ?%not_elem_of_nil|done].
  - rewrite (receipt_ready_iff _ _ _ _ Hr), andb_true_iff, IH. setoid_rewrite elem_of_cons.
    naive_solver.
Qed.

(** The lanes that block a gathered manifest. *)
Lemma blocking_elem root id expected raws rs l :
  l ∈ blocking_of (gathered_manifest root id expected raws rs) ↔
  ∃ r, r ∈ rs ∧ lane r = l ∧ lane_ready r = false.
Proof.
  unfold blocking_of, gathered_manifest, gather. simpl. rewrite app_nil_r.
  rewrite list_elem_of_fmap. setoid_rewrite list_elem_of_In. setoid_rewrite filter_In.
  setoid_rewrite negb_true_iff. naive_solver.
Qed.

Lemma nothing_blocks root id expected raws rs :
  bool_decide (blocking_of (gathered_manifest root id expected raws rs) = []) = true ↔
  ∀ r, r ∈ rs → lane_ready r = true.
Proof.
  rewrite bool_decide_eq_true, empty_iff. setoid_rewrite blocking_elem. split.
  - intros H r Hr. destruct (lane_ready r) eqn:E; [done|]. destruct (H (lane r)). eauto.
  - intros H l (r & Hr & _ & E). rewrite (H r Hr) in E. done.
Qed.

Lemma gathered_same_set v root id s e expected raws rs :
  manifest_ok v root id s e expected raws rs →
  same_set (observed_ids (m_gathered (gathered_manifest root id expected raws rs))) expected = true.
Proof.
  intros [_ _ _ _ _ _ _ _ [_ Hp] _ _]. unfold same_set.
  cbn [m_gathered gathered_manifest gather observed_ids app].
  rewrite andb_true_iff, !forallb_forall. setoid_rewrite <- list_elem_of_In.
  setoid_rewrite mem_str_In. split; intros x; by rewrite Hp.
Qed.

Lemma envelope_finite v root id s e expected raws rs :
  manifest_ok v root id s e expected raws rs → finite_floats v = true →
  finite_floats (envelope (gathered_manifest root id expected raws rs)) = true.
Proof.
  intros [[-> _] _ _ _ _ _ _ (Hr & _ & _) _ _ _] Hf. unfold envelope.
  pose proof (finite_dict_get _ "scheduled_window" Hf) as Hw.
  pose proof (finite_dict_get _ "policy_sha256" Hf) as Hp.
  pose proof (finite_dict_get _ "receipts" Hf) as Hl. rewrite Hr, finite_list in Hl.
  assert (finite_floats (VList (stable_sort lane_leb raws)) = true) as Hs.
  { apply finite_list. intros x Hx%stable_sort_elem. by apply Hl. }
  cbn [finite_floats forallb snd m_root m_briefing_id gathered_manifest m_gathered gather
    normalized app opt_str] in *.
  by rewrite Hw, Hp, Hs.
Qed.

(** A report on a manifest whose checks are clean, and on any other. *)
Lemma clean_report v root id s e expected raws rs :
  manifest_ok v root id s e expected raws rs →
  ∃ r, validate_lane_manifest v = Ok r ∧ valid r = finite_floats v ∧
    (ready_for_composition r = true ↔ ∀ x, x ∈ rs → lane_ready x = true) ∧
    blocking_lanes r = sorted_set (blocking_of (gathered_manifest root id expected raws rs)) ∧
    (finite_floats v = true → envelope_sha256 r =
      Some (sha256_value (envelope (gathered_manifest root id expected raws rs)))).
Proof.
  intros H. unfold validate_lane_manifest.
  rewrite (proj2 (manifest_clean v (gathered_manifest root id expected raws rs))) by eauto 10.
  pose proof (gathered_same_set _ _ _ _ _ _ _ _ H) as Hset. simpl m_expected_ids.
  destruct (ok_receipts _ _ _ _ _ _ _ _ H) as (_ & _ & Hrs).
  pose proof (receipts_ready_iff _ _ _ _ Hrs) as Hready.
  destruct (finite_floats v) eqn:Hf.
  - rewrite canonical_sha256_Ok, canonical_sha256_Ok by (done || by eapply envelope_finite).
    eexists. split; [reflexivity|]. cbn [valid ready_for_composition blocking_lanes
      envelope_sha256]. split; [done|].
    split; [|done]. rewrite !andb_true_iff, Hset, nothing_blocks, <- Hready. simpl. naive_solver.
  - destruct (canonical_sha256 v) as [d|err] eqn:Hc; 
      [apply canonical_sha256_finite in Hc; congruence|].
    eexists. split; [reflexivity|]. cbn [valid ready_for_composition blocking_lanes
      envelope_sha256]. split; [done|].
    split; [|done]. rewrite !andb_true_iff, Hset, nothing_blocks, <- Hready. simpl. naive_solver.
Qed.

Lemma unclean_report v m es :
  check_manifest v = Done m es → es ≠ [] →
  ∃ r, validate_lane_manifest v = Ok r ∧ valid r = false ∧ ready_for_composition r = false.
Proof.
  intros Hm Hes. unfold validate_lane_manifest. rewrite Hm.
  rewrite (bool_decide_eq_false_2 (es = [])) by done. simpl.
  destruct (canonical_sha256 v) as [d|err]; simpl; [destruct (canonical_sha256 _); simpl|];
    (eexists; split; [reflexivity|]; simpl; split; [|done]); apply bool_decide_eq_false_2; try done;
    by intros [? ?]%app_nil.
Qed.

(** A manifest is acceptable in some reading, or in none and then refused. *)
Lemma report_cases v :
  (∃ root id s e expected raws rs, manifest_ok v root id s e expected raws rs) ∨
  (∀ root id s e expected raws rs, ¬ manifest_ok v root id s e expected raws rs) ∧
    ∃ r, validate_lane_manifest v = Ok r ∧ valid r = false ∧ ready_for_composition r = false.
Proof.
  pose proof (manifest_returns v) as Hret.
  destruct (check_manifest v) as [m es|err] eqn:Hm; [|done].
  destruct (decide (es = [])) as [->|Hes].
  - left. apply manifest_clean in Hm as (root & id & s & e & expected & raws & rs & H & _).
    eauto 10.
  - right. split; [|by eapply unclean_report].
    intros root id s e expected raws rs H.
    pose proof (proj2 (manifest_clean v (gathered_manifest root id expected raws rs))) as Hc.
    rewrite Hm in Hc. apply Hes.
    assert (Done m es = Done (gathered_manifest root id expected raws rs) []) as [= _ ->];
      [apply Hc; eauto 10|done].
Qed.

(** C11: Every document gets a report: no exception escapes.  A manifest is
    valid exactly when its canonical form exists and it declares a window, a
    policy, expected lanes and false safety flags, and has for each expected
    lane exactly one well-formed receipt observed inside the window, with
    distinct operations and paths and nothing prohibited anywhere; it is ready
    for composition exactly when, further, every receipt is a success with
    items and bytes or an explicit empty result; and otherwise the lanes it
    lists as blocking are exactly those whose receipt is not ready. *)
Theorem manifest_verdict v :
  ∃ r, validate_lane_manifest v = Ok r ∧
    (valid r = true ↔ finite_floats v = true ∧
      ∃ root id s e expected raws rs, manifest_ok v root id s e expected raws rs) ∧
    (ready_for_composition r = true ↔
      ∃ root id s e expected raws rs, manifest_ok v root id s e expected raws rs ∧
        ∀ x, x ∈ rs → lane_ready x = true) ∧
    ∀ root id s e expected raws rs, manifest_ok v root id s e expected raws rs →
      ∀ l, l ∈ blocking_lanes r ↔ ∃ x, x ∈ rs ∧ lane x = l ∧ lane_ready x = false.
Proof.
  destruct (report_cases v) as [(root & id & s & e & expected & raws & rs & H)|
    (Hno & r & Hr & Hv & Hready)].
  - destruct (clean_report _ _ _ _ _ _ _ _ H) as (r & Hr & Hv & Hready & Hb & _).
    exists r. split; [done|]. split; [rewrite Hv; naive_solver|].
    assert (∀ root' id' s' e' expected' raws' rs',
      manifest_ok v root' id' s' e' expected' raws' rs' →
      (ready_for_composition r = true ↔ ∀ x, x ∈ rs' → lane_ready x = true) ∧
      blocking_lanes r = sorted_set (blocking_of (gathered_manifest root' id' expected' raws' rs')))
      as Hall.
    { intros root' id' s' e' expected' raws' rs' H'.
      destruct (clean_report _ _ _ _ _ _ _ _ H') as (r' & Hr' & _ & ? & ? & _).
      rewrite Hr in Hr'. by injection Hr' as <-. }
    split.
    + split; [intros Hx; exists root, id, s, e, expected, raws, rs; split; [done|by apply Hready]|].
      intros (root' & id' & s' & e' & expected' & raws' & rs' & H' & Hx).
      by apply (Hall _ _ _ _ _ _ _ H').
    + intros root' id' s' e' expected' raws' rs' H' l.
      rewrite (proj2 (Hall _ _ _ _ _ _ _ H')), sorted_set_elem. apply blocking_elem.
  - exists r. split; [done|]. rewrite Hv, Hready. naive_solver.
Qed.

(** ** The order of arrival *)

(** Two manifests that list the same receipts in some order. *)
Record reordered (root root' : items) (raws raws' : list value) : Prop := {
  re_perm : raws ≡ₚ raws';
  re_get k : k ≠ "receipts" → dict_get root k = dict_get root' k;
  re_left : dict_get root "receipts" = VList raws;
  re_right : dict_get root' "receipts" = VList raws';
  re_keys : same_keys root ROOT_KEYS = same_keys root' ROOT_KEYS;
  re_walk : no_forbidden forbidden_keys (VDict root) ↔ no_forbidden forbidden_keys (VDict root');
  re_finite : finite_floats (VDict root) = finite_floats (VDict root');
}.

Lemma reordered_sym root root' raws raws' :
  reordered root root' raws raws' → reordered root' root raws' raws.
Proof. intros []. split; try done; intros; symmetry; auto. Qed.

Lemma list_finite_perm l l' : l ≡ₚ l' → finite_floats (VList l) = finite_floats (VList l').
Proof. intros Hp. apply eq_iff_eq_true. rewrite !finite_list. by setoid_rewrite Hp. Qed.

Lemma reorder_receipts root raws raws' :
  dict_get root "receipts" = VList raws → raws ≡ₚ raws' →
  reordered root (dict_set root "receipts" (VList raws')) raws raws'.
Proof.
  intros Hget Hp.
  assert (dict_get (dict_set root "receipts" (VList raws')) "receipts" = VList raws') as Hget'
    by by rewrite dict_get_set.
  assert (∀ k, k ≠ "receipts" →
    dict_get root k = dict_get (dict_set root "receipts" (VList raws')) k) as Hother.
  { intros k Hk. rewrite dict_get_set. by destruct (String.eqb_spec k "receipts"). }
  destruct (dict_set_split root "receipts" (VList raws') _ Hget) as (d1 & d2 & Heq & Heq');
    [done|]. rewrite Heq' in *. subst root. split; try done.
  - unfold same_keys, dict_keys. by rewrite !fmap_app, !fmap_cons.
  - rewrite !no_forbidden_dict.
    assert (no_forbidden forbidden_keys (VList raws) ↔ no_forbidden forbidden_keys (VList raws'))
      as Hl by (rewrite !no_forbidden_list; by setoid_rewrite Hp).
    setoid_rewrite elem_of_app. setoid_rewrite elem_of_cons.
    split; intros H k x [Hin|[[= -> ->]|Hin]]; try (apply H; tauto);
      (edestruct (H "receipts") as [? ?]; [right; by left|]; split; [done|by apply Hl]).
  - pose proof (list_finite_perm _ _ Hp) as Hl. simpl in *. rewrite !forallb_app. simpl.
    by rewrite Hl.
Qed.

Lemma manifest_reordered root root' raws raws' id s e expected rs :
  reordered root root' raws raws' →
  manifest_ok (VDict root) root id s e expected raws rs →
  ∃ rs', rs ≡ₚ rs' ∧ manifest_ok (VDict root') root' id s e expected raws' rs'.
Proof.
  intros [Hp Hget Hl Hr Hk Hwalk _] [[_ H1] H2 H3 H4 H5 H6 H7 (_ & H8 & H9) [H10 H11] [H12 H13] H14].
  destruct (Permutation_Forall2 Hp H9) as (rs' & Hrs & H9').
  exists rs'. split; [done|].
  unfold window_ok, safety_ok in *. rewrite ?Hget in H3, H4, H5, H6, H7, H14 by done.
  split; rewrite <- ?Hk, <- ?Hwalk, <- ?Hrs; try done.
  split; [done|]. split; [by rewrite <- Hp|done].
Qed.

Lemma blocking_reordered root root' id id' expected expected' raws raws' rs rs' :
  rs ≡ₚ rs' →
  sorted_set (blocking_of (gathered_manifest root id expected raws rs)) =
  sorted_set (blocking_of (gathered_manifest root' id' expected' raws' rs')).
Proof.
  intros Hp. apply sorted_set_ext. intros l. rewrite !blocking_elem. by setoid_rewrite Hp.
Qed.

Lemma envelope_reordered root root' raws raws' id s e expected rs rs' :
  reordered root root' raws raws' →
  manifest_ok (VDict root) root id s e expected raws rs →
  envelope (gathered_manifest root id expected raws rs) =
  envelope (gathered_manifest root' id expected raws' rs').
Proof.
  intros Hre H. unfold envelope, gathered_manifest, gather.
  cbn [m_root m_briefing_id m_gathered normalized app].
  rewrite !(re_get _ _ _ _ Hre) by done. do 7 f_equal. apply f_equal.
  apply stable_sort_key_perm; [by destruct Hre|].
  destruct (ok_receipts _ _ _ _ _ _ _ _ H) as (_ & _ & Hrs).
  destruct (ok_lanes _ _ _ _ _ _ _ _ H) as [Hnd Hp]. rewrite <- Hp in Hnd.
  assert (map lane_key raws = map lane rs) as ->; [|done].
  clear -Hrs. induction Hrs as [|raw r raws rs (d & -> & Hr) _ IH]; simpl; [done|].
  f_equal; [|done]. destruct (receipt_lane _ _ _ _ Hr) as (Hl & _).
  unfold dict_get in Hl. by rewrite (dict_get_default _ _ _ _ Hl).
Qed.

(** The order in which receipts arrive changes nothing: two manifests that
    list the same receipts in different orders are both valid or both not,
    both ready or both not, and when valid they block the same lanes and give
    the envelope the same digest, so the composed briefing is the same. *)
Theorem arrival_order_irrelevant root raws raws' :
  dict_get root "receipts" = VList raws → raws ≡ₚ raws' →
  ∃ r r', validate_lane_manifest (VDict root) = Ok r ∧
    validate_lane_manifest (VDict (dict_set root "receipts" (VList raws'))) = Ok r' ∧
    valid r = valid r' ∧ ready_for_composition r = ready_for_composition r' ∧
    (valid r = true → envelope_sha256 r = envelope_sha256 r' ∧
      blocking_lanes r = blocking_lanes r').
Proof.
  intros Hget Hp. pose proof (reorder_receipts root raws raws' Hget Hp) as Hre.
  generalize dependent (dict_set root "receipts" (VList raws')). intros root' Hre.
  destruct (report_cases (VDict root)) as [(root0 & id & s & e & expected & raws0 & rs & H)|
    (Hno & r & Hr & Hv & Hready)].
  - assert (root0 = root) as -> by (destruct H as [[[= ->] _]]; done).
    assert (raws0 = raws) as ->.
    { destruct (ok_receipts _ _ _ _ _ _ _ _ H) as [Hl _]. rewrite Hget in Hl. by injection Hl. }
    destruct (manifest_reordered _ _ _ _ _ _ _ _ _ Hre H) as (rs' & Hrs & H').
    destruct (clean_report _ _ _ _ _ _ _ _ H) as (r & Hr & Hv & Hready & Hb & He).
    destruct (clean_report _ _ _ _ _ _ _ _ H') as (r' & Hr' & Hv' & Hready' & Hb' & He').
    exists r, r'. repeat (split; [done|]). rewrite Hv, Hv', (re_finite _ _ _ _ Hre).
    split; [done|]. split.
    { apply eq_iff_eq_true. rewrite Hready, Hready'. by setoid_rewrite Hrs. }
    intros Hf. rewrite He, He' by (done || by rewrite (re_finite _ _ _ _ Hre)).
    split; [|rewrite Hb, Hb'; by apply blocking_reordered].
    do 2 f_equal. by eapply envelope_reordered.
  - destruct (report_cases (VDict root')) as [(root0 & id & s & e & expected & raws0 & rs & H)|
      (_ & r' & Hr' & Hv' & Hready')].
    + assert (root0 = root') as -> by (destruct H as [[[= ->] _]]; done).
      assert (raws0 = raws') as ->.
      { destruct (ok_receipts _ _ _ _ _ _ _ _ H) as [Hl _].
        rewrite (re_right _ _ _ _ Hre) in Hl. by injection Hl. }
      destruct (manifest_reordered _ _ _ _ _ _ _ _ _ (reordered_sym _ _ _ _ Hre) H)
        as (rs' & _ & H'). by apply Hno in H'.
    + exists r, r'. rewrite Hv, Hv', Hready, Hready'. done.
Qed.

(** ** A manifest of two lanes *)

Definition digest_of_char (c : ascii) : string := Nat.iter 64 (String c) EmptyString.
Definition example_receipt (lane status : string) (c : ascii) (count : Z) : value :=
  VDict [("lane_id", VStr lane); ("status", VStr status);
    ("observed_at", VStr "2026-09-03T08:00:00-04:00");
    ("producer_commit", VStr (Nat.iter 40 (String c) EmptyString));
    ("schema_version", VStr "lane-result/v1");
    ("source_cursor_sha256", VStr (digest_of_char c));
    ("result_sha256", VStr (digest_of_char c)); ("result_bytes", VInt 512);
    ("item_count", VInt count); ("operation_id", VStr (digest_of_char c));
    ("path_identity", VStr (digest_of_char c));
    ("retained_until", VStr "2026-10-03T12:00:00Z"); ("reason_code", VNone)].
Definition example_receipts : list value :=
  [example_receipt "linear" "no_results" "b"%char 0; example_receipt "github" "success" "a"%char 3].
Definition example_manifest : items :=
  [("schema_version", VStr LANE_SCHEMA); ("briefing_id", VStr "daily-briefing-2026-09-03");
   ("scheduled_window", VDict [("start", VStr "2026-09-03T07:00:00-04:00");
      ("end", VStr "2026-09-04T07:00:00-04:00"); ("timezone", VStr "America/New_York")]);
   ("policy_sha256", VStr (digest_of_char "f"%char));
   ("expected_lanes", VList [VStr "github"; VStr "linear"]);
   ("receipts", VList example_receipts);
   ("safety", VDict [("contains_source_payloads", VBool false);
      ("contains_credentials", VBool false); ("delivery_authorized", VBool false);
      ("notes", VList [VStr "synthetic hashes only"])])].

Example example_manifest_ready :
  ∃ r, validate_lane_manifest (VDict example_manifest) = Ok r ∧ valid r = true ∧
    ready_for_composition r = true ∧ blocking_lanes r = [] ∧ errors r = [].
Proof. eexists. split; [vm_compute; reflexivity|]. vm_compute. done. Qed.

(** A missing receipt makes the manifest invalid and blocks its lane. *)
Example example_missing :
  ∃ r, validate_lane_manifest (VDict (dict_set example_manifest "receipts"
      (VList [example_receipt "github" "success" "a"%char 3]))) = Ok r ∧
    blocking_lanes r = ["linear"] ∧
    errors r = ["missing lane receipts: ['linear']"; "receipt count must equal expected lane count"].
Proof. eexists. split; [vm_compute; reflexivity|]. vm_compute. done. Qed.

Lemma arrival_order_irrelevant_witness :
  ∃ r r', validate_lane_manifest (VDict example_manifest) = Ok r ∧
    validate_lane_manifest
      (VDict (dict_set example_manifest "receipts" (VList (reverse example_receipts)))) = Ok r' ∧
    valid r = valid r' ∧ ready_for_composition r = ready_for_composition r' ∧
    (valid r = true → envelope_sha256 r = envelope_sha256 r' ∧
      blocking_lanes r = blocking_lanes r').
Proof.
  exact (arrival_order_irrelevant example_manifest example_receipts (reverse example_receipts)
    eq_refl (Permutation_sym (reverse_Permutation example_receipts))).
Defined.

End BriefingTheorems.
