(* ===== verification/DeliveryTheorems.v ===== *)
(** * Daily briefing deliveries: results

    The documents of [transition_delivery] are the documents of typed delivery
    states, its commands act on them as a fenced state machine does, and along
    any run the fence never goes back, the identity of the delivery is fixed, a
    settled delivery stays settled and a stale owner can do nothing. *)
From S2P Require Import Prelude PyValue Sha256 Json Contract DateTime RecoveryCommon GitObjects.
From S2P Require Import Collect Briefing BriefingTheorems.
From Stdlib Require Import Ascii.

Module DeliveryTheorems.
Import Briefing.
Import BriefingTheorems.
Open Scope Z_scope.

(** ** Typed states *)

(** A phase with the fields that only it has. *)
Inductive phase : Type :=
  | Prepared
  | Claimed
  | Delivering
  | Delivered (receipt remote : string)
  | Retryable (failure : string)
  | TerminalFailed (failure : string)
  | Reconciling (failure : string).

Record delivery : Type := Delivery {
  briefing_id : string;
  the_phase : phase;
  content : string;
  destination : string;
  owner : string;
  fence : Z;
  attempt : Z;
}.

Definition phase_name (p : phase) : string :=
  match p with
  | Prepared => "prepared" | Claimed => "claimed" | Delivering => "delivering"
  | Delivered _ _ => "delivered" | Retryable _ => "retryable"
  | TerminalFailed _ => "terminal_failed" | Reconciling _ => "reconciling"
  end.
Definition phase_receipt (p : phase) : value :=
  match p with Delivered receipt _ => VStr receipt | _ => VNone end.
Definition phase_remote (p : phase) : value :=
  match p with Delivered _ remote => VStr remote | _ => VNone end.
Definition phase_failure (p : phase) : value :=
  match p with
  | Retryable failure | TerminalFailed failure | Reconciling failure => VStr failure
  | _ => VNone
  end.
Definition phase_ok (p : phase) : Prop :=
  match p with
  | Delivered receipt remote => SHA256 receipt = true ∧ SHA256 remote = true
  | Retryable failure | TerminalFailed failure | Reconciling failure => 3 <= slen failure <= 96
  | _ => True
  end.

(** The document of a state. *)
Definition delivery_items (s : delivery) : items :=
  [("schema_version", VStr DELIVERY_SCHEMA); ("briefing_id", VStr (briefing_id s));
   ("state", VStr (phase_name (the_phase s))); ("content_sha256", VStr (content s));
   ("destination_id", VStr (destination s)); ("operation_id", VStr (owner s));
   ("fencing_token", VInt (fence s)); ("attempt", VInt (attempt s));
   ("receipt_id", phase_receipt (the_phase s));
   ("remote_identity_sha256", phase_remote (the_phase s));
   ("failure_class", phase_failure (the_phase s))].

Record well_formed (s : delivery) : Prop := {
  wf_briefing : 5 <= slen (briefing_id s) <= 96 ∧ SLUG (briefing_id s) = true;
  wf_content : SHA256 (content s) = true;
  wf_destination : 3 <= slen (destination s) <= 96 ∧ SLUG (destination s) = true;
  wf_owner : SHA256 (owner s) = true;
  wf_fence : 0 < fence s;
  wf_attempt : 0 < attempt s;
  wf_phase : phase_ok (the_phase s);
}.

(** ** Documents of states *)

(** [d] is a document of the state [s], its items in any order. *)
Definition shows (d : items) (s : delivery) : Prop :=
  same_keys d STATE_KEYS = true ∧ Forall (λ kx, dict_get d kx.1 = kx.2) (delivery_items s).

Lemma raise_errors_Ok {A} (m : checked A) a : raise_errors m = Ok a ↔ m = Done a [].
Proof.
  unfold raise_errors. destruct m as [b es|err]; [|done]. rewrite bind_Ok.
  setoid_rewrite raise_if_Ok. setoid_rewrite negb_false_iff. setoid_rewrite bool_decide_eq_true.
  split; [by intros (_ & -> & [= ->])|]. intros [= -> ->]. by exists tt.
Qed.

Lemma in_strings_Ok v l b : in_strings v l = Ok b →
  (b = true ↔ ∃ s, v = VStr s ∧ s ∈ l).
Proof.
  destruct v; simpl; intros [= <-]; try (split; [done|by intros (? & ? & _)]).
  rewrite mem_str_In. naive_solver.
Qed.

(** The phase that the fields of an accepted document spell. *)
Lemma outcome_phase current receipt remote failure :
  (∃ s, current = VStr s ∧ s ∈ DELIVERY_STATES) →
  check_outcome current receipt remote failure = Done tt [] ↔
  ∃ p, phase_ok p ∧ current = VStr (phase_name p) ∧ receipt = phase_receipt p ∧
    remote = phase_remote p ∧ failure = phase_failure p.
Proof.
  intros (s & -> & Hs). unfold DELIVERY_STATES in Hs. rewrite !elem_of_cons, elem_of_nil in Hs.
  unfold check_outcome. split.
  - destruct Hs as [->|[->|[->|[->|[->|[->|[->|[]]]]]]]]; simpl; rewrite ?lift_bind; intros H;
      fields; rewrite ?orb_false_iff, ?not_none_false in *;
      repeat match goal with H : _ ∧ _ |- _ => destruct H end; simplify_eq.
    + by exists Prepared.
    + by exists Claimed.
    + by exists Delivering.
    + match goal with |- ∃ p, _ ∧ _ ∧ VStr ?r = _ ∧ VStr ?m = _ ∧ _ =>
        by exists (Delivered r m) end.
    + by exists (Retryable x).
    + by exists (TerminalFailed x).
    + by exists (Reconciling x).
  - intros (p & Hp & [= ->] & -> & -> & ->). destruct p; simpl in *; rewrite ?lift_bind;
      [| | |destruct Hp| | |]; clean_fields; done.
Qed.

Lemma shows_get d s k x : shows d s → (k, x) ∈ delivery_items s → dict_get d k = x.
Proof. intros [_ H] Hin. rewrite Forall_forall in H. by apply (H (k, x)). Qed.

(** Reads the fields of a document that shows a state. *)
Ltac shown :=
  repeat match goal with
  | Hshow : shows ?d ?s |- context [dict_get ?d ?k] =>
      rewrite (shows_get d s k _ Hshow) by
        (unfold delivery_items; repeat first [by left | right])
  end.

Lemma check_state_clean v :
  check_delivery_state v = Done tt [] ↔ ∃ d s, v = VDict d ∧ shows d s ∧ well_formed s.
Proof.
  unfold check_delivery_state. split.
  - intros H. apply bind_clean in H as (d & [-> Hkeys]%exact_object_clean & H).
    apply bind_clean in H as ([] & Hs%complain_if_clean%negb_false_iff%py_eq_str & H).
    fields.
    match goal with H : in_strings _ _ = Ok ?b, Hb : negb ?b = false |- _ =>
      apply in_strings_Ok in H; apply negb_false_iff in Hb; apply H in Hb end.
    apply outcome_phase in H as (p & Hp & Hst & Hr & Hm & Hf); [|done].
    simpl in *. repeat match goal with H : (_ =? 0) = false |- _ => apply Z.eqb_neq in H end.
    match goal with
    | Hb : dict_get d "briefing_id" = VStr ?b, Hc : dict_get d "content_sha256" = VStr ?c,
      Hd : dict_get d "destination_id" = VStr ?de, Ho : dict_get d "operation_id" = VStr ?o,
      Ht : dict_get d "fencing_token" = VInt ?t, Ha : dict_get d "attempt" = VInt ?a |- _ =>
        exists d, (Delivery b p c de o t a)
    end.
    split; [done|]. split; [split; [done|]|split; simpl; done || lia].
    unfold delivery_items. simpl. repeat (apply Forall_cons; split; [assumption|]).
    apply Forall_nil_2.
  - intros (d & s & -> & Hshow & [[H1 H2] H3 [H4 H5] H6 H7 H8 H9]).
    eapply bind_value_clean; [apply exact_object_clean; split; [done|apply Hshow]|].
    assert (in_strings (VStr (phase_name (the_phase s))) DELIVERY_STATES = Ok true) as Hin
      by by destruct (the_phase s).
    shown. rewrite Hin. clean_fields; simpl; try (apply Z.eqb_neq; lia); try done.
    apply outcome_phase; [|by exists (the_phase s)].
    eexists. split; [done|]. destruct (the_phase s); by apply (bool_decide_eq_true_1 _).
Qed.

Lemma validate_state_Ok v :
  validate_delivery_state v = Ok tt ↔ ∃ d s, v = VDict d ∧ shows d s ∧ well_formed s.
Proof. unfold validate_delivery_state. by rewrite raise_errors_Ok, check_state_clean. Qed.

(** ** The fenced machine *)

Inductive command : Type :=
  | Claim
  | BeginDelivery
  | AcceptReceipt (receipt remote : string)
  | RetryableFailure (failure : string)
  | TerminalFailure (failure : string)
  | MarkAmbiguous (failure : string)
  | NotDelivered.

Definition command_kind (c : command) : string :=
  match c with
  | Claim => "claim" | BeginDelivery => "begin_delivery" | AcceptReceipt _ _ => "accept_receipt"
  | RetryableFailure _ => "record_retryable_failure"
  | TerminalFailure _ => "record_terminal_failure" | MarkAmbiguous _ => "mark_ambiguous"
  | NotDelivered => "reconcile_not_delivered"
  end.

(** [cmd] is a document of the command [c] by the operation with the token. *)
Record reads (cmd : items) (operation : string) (token : Z) (c : command) : Prop := {
  reads_keys : same_keys cmd COMMAND_KEYS = true;
  reads_kind : dict_get cmd "kind" = VStr (command_kind c);
  reads_operation : dict_get cmd "operation_id" = VStr operation ∧ SHA256 operation = true;
  reads_token : dict_get cmd "fencing_token" = VInt token ∧ 0 <= token;
  reads_arguments :
    match c with
    | AcceptReceipt receipt remote =>
        dict_get cmd "receipt_id" = VStr receipt ∧ SHA256 receipt = true ∧
        dict_get cmd "remote_identity_sha256" = VStr remote ∧ SHA256 remote = true
    | RetryableFailure failure | TerminalFailure failure | MarkAmbiguous failure =>
        dict_get cmd "failure_class" = VStr failure ∧ 3 <= slen failure <= 96
    | _ => True
    end;
}.

Definition set_phase (s : delivery) (p : phase) : delivery :=
  Delivery (briefing_id s) p (content s) (destination s) (owner s) (fence s) (attempt s).
Definition set_claim (s : delivery) (operation : string) (token extra : Z) : delivery :=
  Delivery (briefing_id s) Claimed (content s) (destination s) operation token
    (attempt s + extra).

(** The command comes from the operation that holds the fence. *)
Definition owns (operation : string) (token : Z) (s : delivery) : Prop :=
  operation = owner s ∧ token = fence s.

Inductive delivers (operation : string) (token : Z) (s : delivery) : command → delivery → Prop :=
  | claim_first : the_phase s = Prepared → fence s < token →
      delivers operation token s Claim (set_claim s operation token 0)
  | claim_again f : the_phase s = Retryable f → fence s < token →
      delivers operation token s Claim (set_claim s operation token 1)
  | begins : the_phase s = Claimed → owns operation token s →
      delivers operation token s BeginDelivery (set_phase s Delivering)
  | accepts receipt remote : the_phase s = Delivering ∨ (∃ f, the_phase s = Reconciling f) →
      owns operation token s →
      delivers operation token s (AcceptReceipt receipt remote)
        (set_phase s (Delivered receipt remote))
  | fails_retryably f : the_phase s = Delivering → owns operation token s →
      delivers operation token s (RetryableFailure f) (set_phase s (Retryable f))
  | fails_terminally f :
      the_phase s = Claimed ∨ the_phase s = Delivering ∨ (∃ f, the_phase s = Reconciling f) →
      owns operation token s →
      delivers operation token s (TerminalFailure f) (set_phase s (TerminalFailed f))
  | is_ambiguous f : the_phase s = Delivering → owns operation token s →
      delivers operation token s (MarkAmbiguous f) (set_phase s (Reconciling f))
  | was_not_delivered f : the_phase s = Reconciling f → owns operation token s →
      delivers operation token s NotDelivered (set_phase s (Retryable "reconciled_not_delivered")).

Lemma delivers_well_formed operation token cmd s c s' :
  well_formed s → reads cmd operation token c → delivers operation token s c s' → well_formed s'.
Proof.
  intros [H1 H2 H3 H4 H5 H6 H7] [_ _ [_ Hop] [_ Htok] Hargs] Hs.
  destruct Hs; split; simpl in *; try done; try lia; naive_solver.
Qed.

(** Setting the fields of a document sets those of its state. *)
Lemma shows_set_phase d s p :
  shows d s →
  shows (dict_update d
      [("state", VStr (phase_name p)); ("receipt_id", phase_receipt p);
       ("remote_identity_sha256", phase_remote p); ("failure_class", phase_failure p)])
    (set_phase s p).
Proof.
  intros Hshow. split.
  - unfold dict_update. simpl. repeat apply same_keys_set; try done. by destruct Hshow.
  - unfold delivery_items, dict_update, set_phase. simpl.
    repeat (apply Forall_cons; split; [simpl; rewrite !dict_get_set; simpl; by shown|]).
    apply Forall_nil_2.
Qed.

Lemma shows_begin d s :
  the_phase s = Claimed → shows d s →
  shows (dict_set d "state" (VStr "delivering")) (set_phase s Delivering).
Proof.
  intros Hp Hshow. split; [apply same_keys_set; [by destruct Hshow|done]|].
  unfold delivery_items, set_phase. simpl.
  repeat (apply Forall_cons; split; [simpl; rewrite !dict_get_set; simpl; shown; by rewrite ?Hp|]).
  apply Forall_nil_2.
Qed.

Lemma shows_claim d s operation token extra :
  shows d s →
  shows (dict_update d
      [("state", VStr "claimed"); ("operation_id", VStr operation);
       ("fencing_token", VInt token); ("attempt", VInt (attempt s + extra));
       ("receipt_id", VNone); ("remote_identity_sha256", VNone); ("failure_class", VNone)])
    (set_claim s operation token extra).
Proof.
  intros Hshow. split.
  - unfold dict_update. simpl. repeat apply same_keys_set; try done. by destruct Hshow.
  - unfold delivery_items, dict_update, set_claim. simpl.
    repeat (apply Forall_cons; split; [simpl; rewrite !dict_get_set; simpl; by shown|]).
    apply Forall_nil_2.
Qed.

(** ** The guards of a command *)

Lemma legal_from_Ok kind state states u :
  legal_from kind state states = Ok u ↔ state ∈ states.
Proof. unfold legal_from. by rewrite raise_if_Ok, negb_false_iff, mem_str_In. Qed.

Lemma fence_field d s : shows d s → int_field d "fencing_token" = Ok (fence s).
Proof. intros Hshow. unfold int_field. by shown. Qed.
Lemma attempt_field d s : shows d s → int_field d "attempt" = Ok (attempt s).
Proof. intros Hshow. unfold int_field. by shown. Qed.

Lemma same_owner_Ok d s operation token u :
  shows d s → same_owner d operation token = Ok u ↔ owns operation token s.
Proof.
  intros Hshow. unfold same_owner, owns. rewrite (fence_field d s Hshow). rewrite ok_bind.
  rewrite raise_if_Ok, orb_false_iff, !negb_false_iff, Z.eqb_eq, String.eqb_eq.
  shown. simpl. tauto.
Qed.

Lemma failure_of_Ok cmd f :
  failure_of cmd = Ok f ↔ dict_get cmd "failure_class" = VStr f ∧ 3 <= slen f <= 96.
Proof.
  unfold failure_of. rewrite bind_Ok. setoid_rewrite raise_errors_Ok. setoid_rewrite text_clean.
  split.
  - by intros (o & (g & -> & -> & Hn) & [= ->]).
  - intros [-> Hn]. exists (Some f). eauto.
Qed.

Lemma command_receipt_Ok cmd r :
  receipt_of cmd = Ok r ↔ ∃ receipt remote, r = (Some receipt, Some remote) ∧
    dict_get cmd "receipt_id" = VStr receipt ∧ SHA256 receipt = true ∧
    dict_get cmd "remote_identity_sha256" = VStr remote ∧ SHA256 remote = true.
Proof.
  unfold receipt_of. rewrite raise_errors_Ok. split.
  - intros H. fields. eauto 10.
  - intros (receipt & remote & -> & H1 & H2 & H3 & H4). by clean_fields.
Qed.

(** Decides membership of a phase in a literal list of states. *)
Ltac phase_cases H s :=
  destruct (the_phase s) eqn:?; simpl in H;
  try (exfalso; revert H; apply (bool_decide_eq_false_1 _); reflexivity).

(** ** The documents follow the machine *)

Lemma fail_from_Ok kind states target d cmd s operation token d' :
  shows d s →
  fail_from kind states target d cmd (phase_name (the_phase s)) operation token = Ok d' ↔
  ∃ f, phase_name (the_phase s) ∈ states ∧ owns operation token s ∧
    dict_get cmd "failure_class" = VStr f ∧ 3 <= slen f <= 96 ∧
    d' = dict_update d (without_receipt target f).
Proof.
  intros Hshow. unfold fail_from. split.
  - intros H. apply bind_Ok in H as ([] & Hl%legal_from_Ok & H).
    apply bind_Ok in H as ([] & Ho%(same_owner_Ok d s) & H); [|done].
    apply bind_Ok in H as (f & [Hf Hn]%failure_of_Ok & [= <-]). eauto 10.
  - intros (f & Hl & Ho & Hf & Hn & ->).
    rewrite (proj2 (legal_from_Ok _ _ _ tt) Hl). rewrite ok_bind.
    rewrite (proj2 (same_owner_Ok d s _ _ tt Hshow) Ho). rewrite ok_bind.
    by rewrite (proj2 (failure_of_Ok _ _) (conj Hf Hn)).
Qed.

Lemma claim_Ok d s operation token d' :
  shows d s →
  claim d (phase_name (the_phase s)) operation token = Ok d' →
  ∃ s', delivers operation token s Claim s' ∧ shows d' s'.
Proof.
  intros Hshow H. unfold claim in H. apply bind_Ok in H as ([] & Hl%legal_from_Ok & H).
  rewrite (fence_field d s Hshow) in H. rewrite ok_bind in H.
  apply bind_Ok in H as ([] & Ht%raise_if_Ok & H). apply Z.leb_gt in Ht.
  rewrite (attempt_field d s Hshow) in H. rewrite ok_bind in H. injection H as <-.
  phase_cases Hl s.
  - exists (set_claim s operation token 0). split; [by apply claim_first|]. by apply shows_claim.
  - exists (set_claim s operation token 1). split; [by eapply claim_again|]. by apply shows_claim.
Qed.

Lemma command_dispatch_sound d cmd s kind operation token d' :
  shows d s → same_keys cmd COMMAND_KEYS = true → dict_get cmd "kind" = VStr kind →
  dict_get cmd "operation_id" = VStr operation → SHA256 operation = true →
  dict_get cmd "fencing_token" = VInt token → 0 <= token →
  dispatch d cmd kind (phase_name (the_phase s)) operation token = Ok d' →
  ∃ c s', reads cmd operation token c ∧ delivers operation token s c s' ∧ shows d' s'.
Proof.
  intros Hshow Hk Hkind Hop Hsha Htok Hpos. unfold dispatch.
  destruct (String.eqb_spec kind "claim") as [->|_].
  { intros (s' & Hs & Hd)%(claim_Ok d s); [|done]. exists Claim, s'. done. }
  destruct (String.eqb_spec kind "begin_delivery") as [->|_].
  { intros H. apply bind_Ok in H as ([] & Hl%legal_from_Ok & H).
    apply bind_Ok in H as ([] & Ho%(same_owner_Ok d s) & [= <-]); [|done].
    exists BeginDelivery, (set_phase s Delivering). split; [done|].
    phase_cases Hl s. split; [by apply begins|]. by apply shows_begin. }
  destruct (String.eqb_spec kind "accept_receipt") as [->|_].
  { intros H. apply bind_Ok in H as ([] & Hl%legal_from_Ok & H).
    apply bind_Ok in H as ([] & Ho%(same_owner_Ok d s) & H); [|done].
    apply bind_Ok in H as (r & (receipt & remote & -> & Hargs)%command_receipt_Ok & [= <-]).
    exists (AcceptReceipt receipt remote), (set_phase s (Delivered receipt remote)).
    split; [done|]. split; [apply accepts; [phase_cases Hl s; eauto|done]|].
    exact (shows_set_phase d s (Delivered receipt remote) Hshow). }
  destruct (String.eqb_spec kind "record_retryable_failure") as [->|_].
  { intros (f & Hl & Ho & Hf & Hn & ->)%fail_from_Ok; [|done].
    exists (RetryableFailure f), (set_phase s (Retryable f)). split; [done|].
    phase_cases Hl s. split; [by apply fails_retryably|].
    exact (shows_set_phase d s (Retryable f) Hshow). }
  destruct (String.eqb_spec kind "record_terminal_failure") as [->|_].
  { intros (f & Hl & Ho & Hf & Hn & ->)%fail_from_Ok; [|done].
    exists (TerminalFailure f), (set_phase s (TerminalFailed f)). split; [done|].
    split; [apply fails_terminally; [phase_cases Hl s; eauto|done]|].
    exact (shows_set_phase d s (TerminalFailed f) Hshow). }
  destruct (String.eqb_spec kind "mark_ambiguous") as [->|_].
  { intros (f & Hl & Ho & Hf & Hn & ->)%fail_from_Ok; [|done].
    exists (MarkAmbiguous f), (set_phase s (Reconciling f)). split; [done|].
    phase_cases Hl s. split; [by apply is_ambiguous|].
    exact (shows_set_phase d s (Reconciling f) Hshow). }
  destruct (String.eqb_spec kind "reconcile_not_delivered") as [->|_]; [|done].
  intros H. apply bind_Ok in H as ([] & Hl%legal_from_Ok & H).
  apply bind_Ok in H as ([] & Ho%(same_owner_Ok d s) & [= <-]); [|done].
  exists NotDelivered, (set_phase s (Retryable "reconciled_not_delivered")).
  split; [done|]. phase_cases Hl s. split; [by eapply was_not_delivered|].
  exact (shows_set_phase d s (Retryable "reconciled_not_delivered") Hshow).
Qed.

Lemma dispatch_complete d cmd s operation token c s' :
  shows d s → reads cmd operation token c → delivers operation token s c s' →
  ∃ d', dispatch d cmd (command_kind c) (phase_name (the_phase s)) operation token = Ok d' ∧
    shows d' s'.
Proof.
  intros Hshow [_ _ _ _ Hargs] Hs.
  assert (∀ kind p l, p ∈ l → legal_from kind p l = Ok tt) as Hlegal
    by (intros; by apply legal_from_Ok).
  destruct Hs as [Hp Hlt|f Hp Hlt|Hp Ho|receipt remote Hp Ho|f Hp Ho|f Hp Ho|f Hp Ho|f Hp Ho];
    unfold dispatch; simpl command_kind; cbn [String.eqb Ascii.eqb Bool.eqb];
    try (pose proof (proj2 (same_owner_Ok d s _ _ tt Hshow) Ho) as Hown).
  - unfold claim. rewrite Hp, (Hlegal _ _ _ ltac:(by left)), ok_bind, (fence_field d s Hshow),
      ok_bind, raise_if_false by by apply Z.leb_gt.
    rewrite ok_bind, (attempt_field d s Hshow), ok_bind. eexists. split; [reflexivity|].
    by apply (shows_claim d s).
  - unfold claim. rewrite Hp, (Hlegal _ _ _ ltac:(right; by left)), ok_bind,
      (fence_field d s Hshow), ok_bind, raise_if_false by by apply Z.leb_gt.
    rewrite ok_bind, (attempt_field d s Hshow), ok_bind. eexists. split; [reflexivity|].
    by apply (shows_claim d s).
  - rewrite Hp, (Hlegal _ _ _ ltac:(by left)), ok_bind, Hown, ok_bind.
    eexists. split; [reflexivity|]. by apply shows_begin.
  - rewrite Hlegal by (destruct Hp as [->|[f ->]]; simpl; by (apply (bool_decide_eq_true_1 _))).
    rewrite ok_bind, Hown, ok_bind, (proj2 (command_receipt_Ok cmd (Some receipt, Some remote)))
      by eauto 10.
    rewrite ok_bind. eexists. split; [reflexivity|].
    exact (shows_set_phase d s (Delivered receipt remote) Hshow).
  - destruct Hargs as [Hf Hn]. eexists. split.
    { apply (fail_from_Ok _ _ _ d cmd s); [done|]. exists f. rewrite Hp.
      split; [by left|]. eauto. }
    exact (shows_set_phase d s (Retryable f) Hshow).
  - destruct Hargs as [Hf Hn]. eexists. split.
    { apply (fail_from_Ok _ _ _ d cmd s); [done|]. exists f. split; [|eauto].
      destruct Hp as [->|[->|[g ->]]]; simpl; by (apply (bool_decide_eq_true_1 _)). }
    exact (shows_set_phase d s (TerminalFailed f) Hshow).
  - destruct Hargs as [Hf Hn]. eexists. split.
    { apply (fail_from_Ok _ _ _ d cmd s); [done|]. exists f. rewrite Hp.
      split; [by left|]. eauto. }
    exact (shows_set_phase d s (Reconciling f) Hshow).
  - rewrite Hp, (Hlegal _ _ _ ltac:(by left)), ok_bind, Hown, ok_bind.
    eexists. split; [reflexivity|].
    exact (shows_set_phase d s (Retryable "reconciled_not_delivered") Hshow).
Qed.

Lemma check_command_clean v p :
  check_command v = Done p [] ↔
  ∃ cmd kind operation token, p = (cmd, Some kind, Some operation, Some token) ∧ v = VDict cmd ∧
    same_keys cmd COMMAND_KEYS = true ∧ dict_get cmd "kind" = VStr kind ∧ 3 <= slen kind <= 64 ∧
    dict_get cmd "operation_id" = VStr operation ∧ SHA256 operation = true ∧
    dict_get cmd "fencing_token" = VInt token ∧ 0 <= token.
Proof.
  unfold check_command. split.
  - intros H. apply bind_clean in H as (cmd & [-> Hk]%exact_object_clean & H). fields. eauto 20.
  - intros (cmd & kind & operation & token & -> & -> & Hk & H1 & H2 & H3 & H4 & H5 & H6).
    by clean_fields.
Qed.

(** A command on a valid document, the validations resolved. *)
Lemma transition_shown d s command :
  shows d s → well_formed s →
  transition_delivery (VDict d) command =
    '(cmd, kind, operation, token) ← raise_errors (check_command command);
    match kind, operation, token with
    | Some kind, Some operation, Some token =>
        candidate ← dispatch d cmd kind (phase_name (the_phase s)) operation token;
        validate_delivery_state (VDict candidate) ;; Ok (VDict candidate)
    | _, _, _ => Raise (Exn AssertionError EmptyString)
    end.
Proof.
  intros Hshow Hwf. unfold transition_delivery.
  rewrite (proj2 (validate_state_Ok (VDict d))) by eauto. rewrite ok_bind.
  assert (py_str (dict_get d "state") = phase_name (the_phase s)) as -> by by shown.
  destruct (raise_errors (check_command command)) as [[[[cmd kind] operation] token]|e]; [|done].
  rewrite !ok_bind. by destruct kind, operation, token.
Qed.

Lemma transition_sound d s command next :
  shows d s → well_formed s → transition_delivery (VDict d) command = Ok next →
  ∃ cmd operation token c s' d', command = VDict cmd ∧ reads cmd operation token c ∧
    delivers operation token s c s' ∧ well_formed s' ∧ next = VDict d' ∧ shows d' s'.
Proof.
  intros Hshow Hwf. rewrite (transition_shown d s) by done. intros H.
  apply bind_Ok in H as (p & Hp%raise_errors_Ok & H).
  apply check_command_clean in Hp as
    (cmd & kind & operation & token & -> & -> & Hk & H1 & _ & H2 & H3 & H4 & H5).
  apply bind_Ok in H as (d' & Hd & ([] & _ & [= <-])%bind_Ok).
  destruct (command_dispatch_sound d cmd s kind operation token d') as (c & s' & Hr & Hs & Hd'); try done.
  exists cmd, operation, token, c, s', d'. repeat (split; [done|]).
  split; [by eapply delivers_well_formed|done].
Qed.

Lemma transition_complete d s cmd operation token c s' :
  shows d s → well_formed s → reads cmd operation token c → delivers operation token s c s' →
  ∃ d', transition_delivery (VDict d) (VDict cmd) = Ok (VDict d') ∧ shows d' s'.
Proof.
  intros Hshow Hwf Hr Hs. rewrite (transition_shown d s) by done.
  destruct (dispatch_complete d cmd s operation token c s') as (d' & Hd & Hd'); [done..|].
  exists d'. split; [|done]. pose proof Hr as [Hk H1 [H2 H3] [H4 H5] _].
  rewrite (proj2 (raise_errors_Ok _ (cmd, Some (command_kind c), Some operation, Some token))).
  - rewrite ok_bind, Hd, ok_bind, (proj2 (validate_state_Ok (VDict d'))); [done|].
    exists d', s'. repeat (split; [done|]). by eapply delivers_well_formed.
  - apply check_command_clean. exists cmd, (command_kind c), operation, token.
    repeat (split; [done|]). split; [by destruct c|done].
Qed.

(** ** Refused commands *)

Lemma raises_errors {A} (m : checked A) : returns m → raises_only ContractError (raise_errors m).
Proof. destruct m as [a es|e]; [|done]. intros _. unfold raise_errors. solve_raises. Qed.

Lemma raises_failure_of cmd : raises_only ContractError (failure_of cmd).
Proof.
  unfold failure_of. apply raises_only_bind; [apply raises_errors; auto with returns|].
  by intros o (s & _ & -> & _)%raise_errors_Ok%text_clean.
Qed.

Lemma raises_receipt_of cmd : raises_only ContractError (receipt_of cmd).
Proof. apply raises_errors. solve_returns. Qed.

Lemma raises_check_command v : raises_only ContractError (raise_errors (check_command v)).
Proof. apply raises_errors. unfold check_command. solve_returns. Qed.
#[local] Hint Resolve raises_failure_of raises_receipt_of raises_check_command : raises.

Lemma command_dispatch_raises d cmd s kind state operation token :
  shows d s → raises_only ContractError (dispatch d cmd kind state operation token).
Proof.
  intros Hshow. unfold dispatch, claim, fail_from, same_owner, legal_from.
  rewrite (fence_field d s Hshow), (attempt_field d s Hshow).
  solve_raises.
Qed.

Lemma transition_raises d s command :
  shows d s → well_formed s → raises_only ContractError (transition_delivery (VDict d) command).
Proof.
  intros Hshow Hwf. rewrite (transition_shown d s) by done.
  apply raises_only_bind; [apply raises_check_command|].
  intros p (cmd & kind & operation & token & -> & -> & Hk & H1 & _ & H2 & H3 & H4 & H5)
    %raise_errors_Ok%check_command_clean.
  apply raises_only_bind; [by eapply command_dispatch_raises|]. intros d' Hd.
  destruct (command_dispatch_sound d cmd s kind operation token d') as (c & s' & Hr & Hs & Hd'); try done.
  rewrite (proj2 (validate_state_Ok (VDict d'))); [done|].
  exists d', s'. repeat (split; [done|]). by eapply delivers_well_formed.
Qed.

(** ** Results *)

(** C36: A delivery document is accepted exactly when it is, up to the order of
    its fields, the document of a well-formed typed state: one of the seven
    phases with exactly the fields of that phase (a receipt and a remote
    identity when delivered, a failure class when retryable, failed or
    reconciling, nothing otherwise), slugs and digests of the right shape, and
    a positive fence and attempt. *)
Theorem delivery_documents_typed v :
  validate_delivery_state v = Ok tt ↔ ∃ d s, v = VDict d ∧ shows d s ∧ well_formed s.
Proof. apply validate_state_Ok. Qed.

(** C25: On documents of well-formed states [transition_delivery] is the fenced
    machine [delivers]: what it accepts is a command document whose typed
    command the machine can take, and its result shows the machine's next
    state, well-formed again; every command the machine can take is accepted;
    and every other command raises [ContractError]. *)
Theorem transition_refines_machine d s command :
  shows d s → well_formed s →
  (∀ next, transition_delivery (VDict d) command = Ok next →
    ∃ cmd operation token c s' d', command = VDict cmd ∧ reads cmd operation token c ∧
      delivers operation token s c s' ∧ well_formed s' ∧ next = VDict d' ∧ shows d' s') ∧
  (∀ cmd operation token c s', command = VDict cmd → reads cmd operation token c →
    delivers operation token s c s' →
    ∃ d', transition_delivery (VDict d) command = Ok (VDict d') ∧ shows d' s') ∧
  raises_only ContractError (transition_delivery (VDict d) command).
Proof.
  intros Hshow Hwf. split; [|split].
  - intros next. by apply transition_sound.
  - intros cmd operation token c s' ->. by apply transition_complete.
  - by eapply transition_raises.
Qed.

(** One accepted command. *)
Definition document_step (v v' : value) : Prop := ∃ command, transition_delivery v command = Ok v'.

Definition settled (s : delivery) : Prop :=
  match the_phase s with Delivered _ _ | TerminalFailed _ => True | _ => False end.

(** What no run takes back. *)
Definition advances (s s' : delivery) : Prop :=
  briefing_id s' = briefing_id s ∧ content s' = content s ∧ destination s' = destination s ∧
  fence s <= fence s' ∧ attempt s <= attempt s' ∧ (settled s → s' = s).

Lemma delivers_advances operation token s c s' : delivers operation token s c s' → advances s s'.
Proof.
  intros Hs. unfold advances, settled.
  destruct Hs as [Hp ?|f Hp ?|Hp Ho|receipt remote Hp Ho|f Hp Ho|f Hp Ho|f Hp Ho|f Hp Ho];
    simpl; repeat (split; [done || lia|]);
    repeat match goal with
    | H : _ ∨ _ |- _ => destruct H as [H|H]
    | H : ∃ _, _ |- _ => destruct H as [? H]
    end; by rewrite Hp.
Qed.

Lemma delivers_unsettled operation token s c s' : delivers operation token s c s' → ¬ settled s.
Proof.
  unfold settled. intros Hs Hset.
  destruct Hs as [Hp ?|f Hp ?|Hp Ho|receipt remote Hp Ho|f Hp Ho|f Hp Ho|f Hp Ho|f Hp Ho];
    repeat match goal with
    | H : _ ∨ _ |- _ => destruct H as [H|H]
    | H : ∃ _, _ |- _ => destruct H as [? H]
    end; by rewrite Hp in Hset.
Qed.

Lemma state_advances_trans s1 s2 s3 : advances s1 s2 → advances s2 s3 → advances s1 s3.
Proof.
  intros (H1 & H2 & H3 & H4 & H5 & H6) (H7 & H8 & H9 & H10 & H11 & H12).
  unfold advances. repeat (split; [congruence || lia|]). intros Hs.
  rewrite (H6 Hs) in *. by apply H12.
Qed.

Lemma run_advances d s v :
  shows d s → well_formed s → rtc document_step (VDict d) v →
  ∃ d' s', v = VDict d' ∧ shows d' s' ∧ well_formed s' ∧ advances s s' ∧ (settled s → d' = d).
Proof.
  intros Hshow Hwf Hrun. remember (VDict d) as u eqn:Hu. revert d s Hu Hshow Hwf.
  induction Hrun as [u|u u' v [command Hstep] _ IH]; intros d s -> Hshow Hwf.
  - exists d, s. unfold advances. repeat (split; [done|]). done.
  - destruct (transition_sound d s command u' Hshow Hwf Hstep)
      as (cmd & operation & token & c & s1 & d1 & -> & Hr & Hs & Hwf1 & -> & Hshow1).
    destruct (IH d1 s1 eq_refl Hshow1 Hwf1) as (d' & s' & -> & Hshow' & Hwf' & Hadv & _).
    exists d', s'. repeat (split; [done|]).
    split; [eapply state_advances_trans; [by eapply delivers_advances|done]|].
    intros Hset. by apply delivers_unsettled in Hs.
Qed.

(** C33: Deliveries are fenced.  Along any run of accepted commands the
    briefing, its content and its destination are fixed and neither the fence
    nor the attempt goes back; a delivered or terminally failed document is
    never replaced; and at every point of the run a command that carries an
    older fence than the document's is refused with [ContractError]. *)
Theorem deliveries_are_fenced d s v :
  shows d s → well_formed s → rtc document_step (VDict d) v →
  ∃ d' s', v = VDict d' ∧ shows d' s' ∧ advances s s' ∧ (settled s → d' = d) ∧
    ∀ cmd operation token c, reads cmd operation token c → token < fence s' →
      ∃ msg, transition_delivery v (VDict cmd) = Raise (Exn ContractError msg).
Proof.
  intros Hshow Hwf Hrun.
  destruct (run_advances d s v Hshow Hwf Hrun) as (d' & s' & -> & Hshow' & Hwf' & Hadv & Hset).
  exists d', s'. repeat (split; [done|]). intros cmd operation token c Hr Hlt.
  pose proof (transition_raises d' s' (VDict cmd) Hshow' Hwf') as Hraise.
  destruct (transition_delivery (VDict d') (VDict cmd)) as [next|[cls msg]] eqn:Ht.
  - destruct (transition_sound d' s' _ _ Hshow' Hwf' Ht)
      as (cmd' & operation' & token' & c' & s2 & d2 & [= <-] & Hr' & Hs & _).
    assert (token' = token) as ->.
    { destruct Hr as [_ _ _ [H1 _] _], Hr' as [_ _ _ [H2 _] _]. rewrite H1 in H2. by injection H2. }
    exfalso. destruct Hs as [Hp ?|f Hp ?|Hp [? ?]|receipt remote Hp [? ?]|f Hp [? ?]|f Hp [? ?]
      |f Hp [? ?]|f Hp [? ?]]; lia.
  - simpl in Hraise. subst cls. by exists msg.
Qed.

(** ** A delivery *)

Definition example_state : delivery :=
  Delivery "daily-briefing-2026-09-03" Delivering (digest_of_char "a"%char) "email-primary"
    (digest_of_char "b"%char) 7 1.
Definition example_command : items :=
  [("kind", VStr "accept_receipt"); ("operation_id", VStr (digest_of_char "b"%char));
   ("fencing_token", VInt 7); ("receipt_id", VStr (digest_of_char "c"%char));
   ("remote_identity_sha256", VStr (digest_of_char "d"%char)); ("failure_class", VNone)].
Definition example_delivered : delivery :=
  set_phase example_state (Delivered (digest_of_char "c"%char) (digest_of_char "d"%char)).

Lemma example_shows : shows (delivery_items example_state) example_state.
Proof. split; [by vm_compute|]. repeat constructor. Qed.
Lemma example_well_formed : well_formed example_state.
Proof. by split; vm_compute. Qed.
Lemma example_accepted :
  transition_delivery (VDict (delivery_items example_state)) (VDict example_command) =
    Ok (VDict (delivery_items example_delivered)).
Proof. vm_compute. reflexivity. Qed.
Lemma example_run :
  rtc document_step (VDict (delivery_items example_state))
    (VDict (delivery_items example_delivered)).
Proof. apply rtc_once. exists (VDict example_command). apply example_accepted. Qed.

(** An unknown state that is a list is not reported as an unsupported state:
    the membership test itself raises. *)
Example unhashable_state :
  validate_delivery_state
    (VDict (dict_set (delivery_items example_state) "state" (VList []))) =
    Raise (Exn TypeError "unhashable type: 'list'").
Proof. vm_compute. reflexivity. Qed.

Lemma transition_refines_machine_witness :
  let d := delivery_items example_state in
  let command := VDict example_command in
  (∀ next, transition_delivery (VDict d) command = Ok next →
    ∃ cmd operation token c s' d', command = VDict cmd ∧ reads cmd operation token c ∧
      delivers operation token example_state c s' ∧ well_formed s' ∧ next = VDict d' ∧
      shows d' s') ∧
  (∀ cmd operation token c s', command = VDict cmd → reads cmd operation token c →
    delivers operation token example_state c s' →
    ∃ d', transition_delivery (VDict d) command = Ok (VDict d') ∧ shows d' s') ∧
  raises_only ContractError (transition_delivery (VDict d) command).
Proof.
  exact (transition_refines_machine _ _ (VDict example_command) example_shows
    example_well_formed).
Defined.

Lemma deliveries_are_fenced_witness :
  let s := example_state in
  ∃ d' s', VDict (delivery_items example_delivered) = VDict d' ∧ shows d' s' ∧ advances s s' ∧
    (settled s → d' = delivery_items s) ∧
    ∀ cmd operation token c, reads cmd operation token c → token < fence s' →
      ∃ msg, transition_delivery (VDict (delivery_items example_delivered)) (VDict cmd) =
        Raise (Exn ContractError msg).
Proof. exact (deliveries_are_fenced _ _ _ example_shows example_well_formed example_run). Defined.

End DeliveryTheorems.
