(* ===== verification/Fields.v ===== *)
(** * Field checks the portfolio contracts share

    [portfolio_remediation_queue.py], [portfolio_release_manifest.py] and
    [digest_provenance.py] carry copies of these checks, over those of
    [Collect]; each comes with what it accepts. *)
From S2P Require Import Prelude PyValue DateTime RecoveryCommon GitObjects Collect Url.
From Stdlib Require Import Ascii.
From Stdlib Require Sorted.
Open Scope Z_scope.

Definition _slug (v : value) (path : string) : checked (option string) :=
  shaped_text SLUG " has an invalid slug format" v path 3 96.

Definition _integer (v : value) (path : string) (minimum maximum : Z) : checked (option Z) :=
  let complaint :=
    complain (path +:+ " must be an integer in " +:+ str_int minimum +:+ ".." +:+ str_int maximum) ;;
    pass None in
  match v with
  | VInt z => if (minimum <=? z) && (z <=? maximum) then pass (Some z) else complaint
  | _ => complaint
  end.

Definition _strings (v : value) (path : string) (minimum maximum item_minimum item_maximum : Z)
  : checked (list string) :=
  let complaint :=
    complain (path +:+ " must contain " +:+ str_int minimum +:+ ".." +:+ str_int maximum
      +:+ " strings") ;; pass [] in
  match v with
  | VList l =>
      if (minimum <=? Z.of_nat (length l)) && (Z.of_nat (length l) <=? maximum) then
        texts ← check_each 0 l (λ index raw texts,
          text ← _text raw (path +:+ "[" +:+ str_nat index +:+ "]") item_minimum item_maximum;
          pass (texts ++ match text with Some text => [text] | None => [] end)) [];
        complain_if (negb (bool_decide (NoDup texts))) (path +:+ " must not contain duplicates") ;;
        pass texts
      else complaint
  | _ => complaint
  end.

(** An identity, reported when it was seen before, and added to those seen. *)
Definition identity (kind : string) (name : option string) (seen : list string)
  : checked (list string) :=
  match name with
  | Some s =>
      complain_if (mem_str s seen) ("duplicate " +:+ kind +:+ ": " +:+ s) ;;
      pass (if mem_str s seen then seen else seen ++ [s])
  | None => pass seen
  end.

Definition not_canonical (u : Url.url) : bool :=
  negb (String.eqb (Url.scheme u) "https") || Url.is_empty (Url.netloc u)
  || is_some (Url.username u) || is_some (Url.password u)
  || negb (Url.is_empty (Url.query u)) || negb (Url.is_empty (Url.fragment u)).

(** One score of a table of scores, each from 0 to 100. *)
Definition read_score (object : items) (path : string) (_ : nat) (name : string)
    (scores : list (string * Z)) : checked (list (string * Z)) :=
  score ← _integer (dict_get object name) (path +:+ ".scores." +:+ name) 0 100;
  pass (match score with Some z => assoc_set scores name z | None => scores end).

(** [mapping[key]] *)
Definition subscript (mapping : list (string * Z)) (key : string) : result Z :=
  match assoc_get mapping key with
  | Some z => Ok z
  | None => Raise (Exn KeyError (repr_str key))
  end.

(** ** What the checks accept *)

Lemma integer_clean v path lo hi o :
  _integer v path lo hi = Done o [] → ∃ z, v = VInt z ∧ o = Some z ∧ lo <= z <= hi.
Proof.
  unfold _integer. destruct v; try (intros H; cleaned; done).
  destruct (_ && _) eqn:Hb; intros H; [|cleaned; done]. cleaned. bool_hyps. eauto.
Qed.

Lemma texts_loop path lo hi i l texts r :
  check_each i l (λ index raw texts,
    text ← _text raw (path +:+ "[" +:+ str_nat index +:+ "]") lo hi;
    pass (texts ++ match text with Some text => [text] | None => [] end)) texts = Done r [] →
  ∃ ss, l = map VStr ss ∧ r = texts ++ ss.
Proof.
  revert i texts; induction l as [|v l IH]; intros i texts; simpl.
  - intros H. cleaned. exists []. by rewrite app_nil_r.
  - intros H. apply bind_clean in H as (t & Ht & H). cleaned.
    apply IH in H as (ss & -> & ->). exists (x :: ss). by rewrite <- app_assoc.
Qed.

Lemma strings_clean v path lo hi ilo ihi l :
  _strings v path lo hi ilo ihi = Done l [] → v = strs l ∧ NoDup l.
Proof.
  unfold _strings. destruct v as [| | | | |vs|]; try (intros H; cleaned; done).
  destruct (_ && _); intros H; [|cleaned; done]. apply bind_clean in H as (r & Hr & H).
  cleaned. apply texts_loop in Hr as (ss & -> & Hss). simpl in Hss. subst. bool_hyps. done.
Qed.

#[global] Arguments _slug : simpl never.
#[global] Arguments _integer : simpl never.
#[global] Arguments _strings : simpl never.

Lemma identity_clean kind s seen l :
  identity kind (Some s) seen = Done l [] → s ∉ seen ∧ l = seen ++ [s].
Proof.
  unfold identity. intros H. cleaned. rewrite Hc. split; [|done].
  rewrite <- mem_str_In. congruence.
Qed.

#[global] Arguments identity : simpl never.

Ltac field_step :=
  clean_step ||
  match goal with
  | H : _integer _ _ _ _ = Done _ [] |- _ =>
      let E := fresh "Hint" in apply integer_clean in H as (? & E & ? & ?); try subst
  | H : supported _ _ _ = Done _ [] |- _ =>
      let E := fresh "Hset" in apply supported_clean in H as (? & E & ?)
  | H : _strings _ _ _ _ _ _ = Done _ [] |- _ =>
      let E := fresh "Hstrs" in apply strings_clean in H as [E ?]
  | H : _slug _ _ = Done _ [] |- _ => unfold _slug in H
  end.
Ltac field_steps := repeat field_step.

Lemma scores_loop object path i order acc r :
  NoDup (acc.*1 ++ order) →
  check_each i order (read_score object path) acc = Done r [] →
  r = acc ++ map (λ n, (n, int_at object n)) order ∧
  ∀ n, n ∈ order → dict_get object n = VInt (int_at object n) ∧ 0 <= int_at object n <= 100.
Proof.
  revert i acc; induction order as [|n order IH]; intros i acc Hnd; simpl.
  - intros H. cleaned. rewrite app_nil_r. split; [done|]. by intros n ?%not_elem_of_nil.
  - intros H. apply bind_clean in H as (acc1 & Hn & H). unfold read_score in Hn. field_steps.
    pose proof (int_at_int _ _ _ Hint) as Hx. subst.
    apply NoDup_app in Hnd as (Hacc & Hdis & [Hn Hord]%NoDup_cons).
    assert (n ∉ acc.*1) as Hfresh by (intros Hin; apply (Hdis n Hin); by left).
    rewrite assoc_set_fresh in H by done. apply IH in H as [-> Hall].
    + rewrite <- app_assoc. split; [done|]. intros m [->|Hm]%elem_of_cons; auto.
    + rewrite fmap_app. simpl. rewrite <- app_assoc. apply NoDup_app. split; [done|].
      split; [exact Hdis|]. by apply NoDup_cons.
Qed.

(** A table of scores by name. *)
Lemma subscript_table (f : string → Z) order name :
  name ∈ order → subscript (map (λ n, (n, f n)) order) name = Ok (f name).
Proof.
  intros Hn. unfold subscript.
  assert (assoc_get (map (λ n, (n, f n)) order) name = Some (f name)) as ->; [|done].
  induction order as [|m l IH]; simpl; [by apply not_elem_of_nil in Hn|].
  destruct (String.eqb_spec name m) as [->|Hne]; [done|]. apply IH.
  by apply elem_of_cons in Hn as [|].
Qed.

(** A loop whose every step reads one document and adds it to what the
    accumulator stands for. *)
Lemma gathers_each {A B D} (P : D → Prop) (doc : D → A) (holds : list D → B → Prop)
    (body : nat → A → B → checked B) :
  (∀ i x ds acc acc', body i x acc = Done acc' [] → holds ds acc →
    ∃ d, x = doc d ∧ P d ∧ holds (ds ++ [d]) acc') →
  ∀ i l ds acc acc', check_each i l body acc = Done acc' [] → holds ds acc →
  ∃ es, l = map doc es ∧ Forall P es ∧ holds (ds ++ es) acc'.
Proof.
  intros Hstep i l. revert i; induction l as [|x l IH]; intros i ds acc acc'; simpl.
  - intros H Hacc. cleaned. exists []. rewrite app_nil_r. auto.
  - intros H Hacc. apply bind_clean in H as (acc1 & Hx & H).
    destruct (Hstep _ _ _ _ _ Hx Hacc) as (d & -> & Hd & Hacc1).
    destruct (IH _ _ _ _ H Hacc1) as (es & -> & Hall & Hes).
    exists (d :: es). split; [done|]. split; [by constructor|]. by rewrite <- app_assoc in Hes.
Qed.

(** ** Ranks

    Ranks that are the positions in a sorted list are the order it is sorted
    by. *)

Lemma sorted_lookup_lt {A} (R : A → A → Prop) l i j x y :
  Sorted.StronglySorted R l → l !! i = Some x → l !! j = Some y → (i < j)%nat → R x y.
Proof.
  intros Hs. revert i j. induction Hs as [|z l _ IH Hz]; intros i j; [done|].
  destruct i as [|i], j as [|j]; simpl; [lia| |lia|].
  - intros [= ->] Hj _. rewrite Forall_forall in Hz. apply Hz. by eapply list_elem_of_lookup_2.
  - intros Hi Hj Hij. eapply IH; [done..|lia].
Qed.

Lemma str_ltb_iff s t : String.ltb s t = true ↔ String.le s t ∧ s ≠ t.
Proof.
  unfold String.ltb, String.le, String.leb. destruct (String.compare s t) eqn:Hc; simpl.
  - apply String.compare_eq_iff in Hc. naive_solver.
  - split; [|done]. intros _. split; [done|]. intros ->.
    pose proof (String.compare_antisym t t) as Ha. by rewrite Hc in Ha.
  - naive_solver.
Qed.

Section ranked.
Context {A K : Type} (key : A → K) (rank_of : K → Z) (leb : K → K → bool).
Context (leb_total : ∀ x y, leb x y = true ∨ leb y x = true).
Context (leb_trans : Transitive (λ x y, leb x y = true)).
Context (before : A → A → Prop) (before_asym : ∀ a b, before a b → ¬ before b a).
Context (ds : list A).
Context (leb_before : ∀ a b, a ∈ ds → b ∈ ds → a ≠ b → leb (key a) (key b) = true → before a b).
Context (key_unique : ∀ a b, a ∈ ds → b ∈ ds → key a = key b → a = b).
Context (Hranks : map rank_of (stable_sort leb (map key ds)) = map Z.of_nat (seq 1 (length ds))).

Lemma ranked_position d :
  d ∈ ds → ∃ i, stable_sort leb (map key ds) !! i = Some (key d) ∧
    rank_of (key d) = Z.of_nat (S i).
Proof using Hranks.
  intros Hd. assert (key d ∈ stable_sort leb (map key ds)) as (i & Hi)%list_elem_of_lookup.
  { rewrite stable_sort_elem. by apply list_elem_of_fmap_2. }
  exists i. split; [done|]. apply (f_equal (.!! i)) in Hranks.
  rewrite !list_lookup_fmap, Hi in Hranks. simpl in Hranks.
  destruct (seq 1 (length ds) !! i) eqn:Hs; [|done].
  apply lookup_seq in Hs as [-> _]. by injection Hranks.
Qed.

Lemma ranks_follow a b :
  a ∈ ds → b ∈ ds → rank_of (key a) < rank_of (key b) → before a b.
Proof using leb_total leb_trans leb_before Hranks.
  intros Ha Hb Hlt. apply leb_before; [done..|by intros ->; lia|].
  destruct (ranked_position a Ha) as (i & Hi & Hri), (ranked_position b Hb) as (j & Hj & Hrj).
  pose proof (stable_sort_Sorted leb leb_total (map key ds)) as Hs.
  apply Sorted.Sorted_StronglySorted in Hs; [|exact leb_trans].
  apply (sorted_lookup_lt _ _ i j _ _ Hs Hi Hj). lia.
Qed.

Lemma ranks_are_positions a b :
  a ∈ ds → b ∈ ds → rank_of (key a) < rank_of (key b) ↔ before a b.
Proof using leb_total leb_trans leb_before before_asym key_unique Hranks.
  intros Ha Hb. split; [by apply ranks_follow|]. intros Hab.
  destruct (Z.lt_trichotomy (rank_of (key a)) (rank_of (key b))) as [?|[Heq|Hlt]]; [done| |].
  - destruct (ranked_position a Ha) as (i & Hi & Hri), (ranked_position b Hb) as (j & Hj & Hrj).
    assert (i = j) as -> by lia. rewrite Hi in Hj. injection Hj as Hk.
    apply key_unique in Hk; [|done..]. subst. by destruct (before_asym b b).
  - destruct (before_asym a b Hab). by apply ranks_follow.
Qed.
End ranked.
