(* ===== verification/Cycles.v ===== *)
(** * Cycles among dependencies

    [portfolio_remediation_queue.py] and [digest_provenance.py] search their
    dependencies for cycles with the same nested function [visit]; results are
    in [CycleTheorems]. *)
From S2P Require Import Prelude PyValue.

Module Cycles.

Abbreviation graph := (list (string * list string)).

(** The state the nested [visit] closes over; the stack is the list [visit]
    is passed, one object shared by all calls below a root. *)
Record search : Type := Search {
  visiting : gset string;
  visited : gset string;
  cycles : list string;
  stack : list string;
}.

(** [stack[stack.index(node):]] *)
Definition from_node (node : string) (stack : list string) : list string :=
  match list_find (node =.) stack with
  | Some (index, _) => drop index stack
  | None => []
  end.

Definition report_cycle (node : string) (s : search) : search :=
  Search (visiting s) (visited s)
    (cycles s ++ [str_join " -> " (from_node node (stack s) ++ [node])]) (stack s).
Definition enter (node : string) (s : search) : search :=
  Search ({[node]} ∪ visiting s) (visited s) (cycles s) (stack s ++ [node]).
Definition leave (node : string) (s : search) : search :=
  Search (visiting s ∖ {[node]}) ({[node]} ∪ visited s) (cycles s)
    (take (length (stack s) - 1) (stack s)).

Definition too_deep : exn := Exn RecursionError "maximum recursion depth exceeded".

(** [visit], [calls] being the number of nested calls the interpreter still
    allows. *)
Fixpoint visit (g : graph) (calls : nat) (node : string) (s : search) : result search :=
  match calls with
  | O => Raise too_deep
  | S calls =>
      if bool_decide (node ∈ visited s) then Ok s
      else if bool_decide (node ∈ visiting s) then Ok (report_cycle node s)
      else
        s ← for_each (default [] (assoc_get g node))
              (λ dependency s, if is_some (assoc_get g dependency) then visit g calls dependency s
                               else Ok s)
              (enter node s);
        Ok (leave node s)
  end.

Definition visit_root (g : graph) (calls : nat) (node : string) (s : search) : result search :=
  visit g calls node (Search (visiting s) (visited s) (cycles s) []).

Definition _find_cycles (calls : nat) (g : graph) : result (list string) :=
  s ← for_each g.*1 (visit_root g calls) (Search ∅ ∅ [] []);
  Ok (cycles s).

End Cycles.
