(* ===== verification/CycleTheorems.v ===== *)
(** * The dependency search: results

    [_find_cycles], the search of the remediation queue and of the research
    digest, finds a cycle exactly when the dependency graph has one, and needs
    no more nested calls than the graph has nodes, plus one. *)
From S2P Require Import Prelude PyValue Cycles.

Module CycleTheorems.
Import Cycles.

Section search.
Context (g : graph).

Definition has (node : string) : Prop := is_some (assoc_get g node) = true.
(** A dependency that is itself a finding. *)
Definition edge (x y : string) : Prop :=
  ∃ dependencies, assoc_get g x = Some dependencies ∧ y ∈ dependencies ∧ has y.
Definition cyclic : Prop := ∃ x, tc edge x x.
(** Every chain of dependencies from [x] ends. *)
Definition grounded (x : string) : Prop := Acc (λ y x, edge x y) x.

Fixpoint path (l : list string) : Prop :=
  match l with
  | x :: ((y :: _) as l) => edge x y ∧ path l
  | _ => True
  end.

Lemma has_key node : has node ↔ node ∈ g.*1.
Proof.
  unfold has. induction g as [|[k ds] l IH]; csimpl.
  - by rewrite elem_of_nil.
  - rewrite elem_of_cons, <- IH. destruct (String.eqb_spec node k) as [->|Hne]; simpl; [|naive_solver].
    split; auto.
Qed.

Lemma path_app l1 l2 : path (l1 ++ l2) → path l2.
Proof. induction l1 as [|x l1 IH]; [done|]. destruct l1, l2; simpl in *; naive_solver. Qed.

Lemma path_snoc l x y : path (l ++ [x]) → edge x y → path ((l ++ [x]) ++ [y]).
Proof. induction l as [|z l IH]; [by simpl|]. destruct l; simpl in *; naive_solver. Qed.

Lemma path_cycle l1 x l2 : path ((l1 ++ x :: l2) ++ [x]) → tc edge x x.
Proof.
  rewrite <- app_assoc. intros H%path_app.
  enough (∀ x y, path ((x :: l2) ++ [y]) → tc edge x y) by auto.
  clear. induction l2 as [|z l2 IH]; intros x y.
  - intros [H _]. by apply tc_once.
  - intros [H Hp]. eapply tc_l; [done|]. by apply IH.
Qed.

Lemma grounded_not_cyclic x : grounded x → ¬ tc edge x x.
Proof.
  induction 1 as [x _ IH]. intros H.
  assert (∃ y, edge x y ∧ rtc edge y x) as (y & Hxy & Hyx).
  { inversion H as [? ? ?|? y ? ? Hy]; subst; [eexists; split; [done|by apply rtc_refl]|].
    exists y. split; [done|]. by apply tc_rtc. }
  apply (IH y Hxy). eapply tc_rtc_l; [done|]. by apply tc_once.
Qed.

(** What holds of the search at every call and return. *)
Record sound (s : search) : Prop := Sound {
  sound_visiting : visiting s = list_to_set (stack s);
  sound_NoDup : NoDup (stack s);
  sound_nodes : ∀ x, x ∈ stack s → has x;
  sound_visited : cycles s = [] → ∀ x, x ∈ visited s → grounded x;
  sound_cycles : cycles s ≠ [] → cyclic;
}.

(** The search went on from [s] to [s']. *)
Record extends (s s' : search) : Prop := Extends {
  extends_stack : stack s' = stack s;
  extends_visited : visited s ⊆ visited s';
  extends_cycles : cycles s' = [] → cycles s = [];
}.

#[export] Instance extends_preorder : PreOrder extends.
Proof.
  split; [by constructor|]. intros a b c [] []. constructor; [congruence|set_solver|auto].
Qed.

Lemma stack_bound s node :
  sound s → has node → node ∉ stack s → (length (stack s) < length g)%nat.
Proof.
  intros Hs Hn Hnew. rewrite <- (length_fmap fst g).
  apply (submseteq_length (node :: stack s)). apply NoDup_submseteq.
  - apply NoDup_cons. by split; [|apply sound_NoDup].
  - intros x [->|Hx]%elem_of_cons; apply has_key; [done|]. by eapply sound_nodes.
Qed.

Lemma visiting_on_stack s node : sound s → node ∈ visiting s ↔ node ∈ stack s.
Proof. intros Hs. rewrite (sound_visiting s Hs). set_solver. Qed.

Lemma report_sound s node :
  sound s → node ∈ visiting s → path (stack s ++ [node]) → sound (report_cycle node s).
Proof.
  intros Hs Hn Hp. constructor; simpl; try apply Hs.
  - by intros [_ [=]]%app_nil.
  - intros _. apply (visiting_on_stack s node Hs), list_elem_of_split in Hn as (l1 & l2 & Hn).
    rewrite Hn in Hp. exists node. by eapply path_cycle.
Qed.

Lemma enter_sound s node :
  sound s → has node → node ∉ visiting s → sound (enter node s).
Proof.
  intros Hs Hh Hn. rewrite (visiting_on_stack s node Hs) in Hn.
  constructor; cbn [visiting visited cycles stack enter]; try apply Hs.
  - rewrite (sound_visiting s Hs). set_solver.
  - apply NoDup_app. split; [apply Hs|]. split; [|apply NoDup_singleton].
    by intros x Hx ->%list_elem_of_singleton.
  - intros x [Hx | ->%list_elem_of_singleton]%elem_of_app; [by eapply sound_nodes|done].
Qed.

Lemma leave_sound s s' node :
  sound s' → stack s' = stack s ++ [node] →
  (cycles s' = [] → ∀ y, edge node y → y ∈ visited s') → sound (leave node s').
Proof.
  intros Hs Hst Hdeps. pose proof (sound_NoDup s' Hs) as Hnd. rewrite Hst in Hnd.
  apply NoDup_app in Hnd as (Hnd & Hnew & _).
  assert (node ∉ stack s) as Hnode by (intros H; by apply (Hnew node H), list_elem_of_singleton).
  assert (take (length (stack s') - 1) (stack s') = stack s) as Htake.
  { rewrite Hst, length_app. simpl. rewrite take_app_length'; [done|lia]. }
  constructor; cbn [visiting visited cycles stack leave]; rewrite ?Htake.
  - rewrite (sound_visiting s' Hs), Hst. set_solver.
  - exact Hnd.
  - intros x Hx. eapply sound_nodes; [done|]. rewrite Hst. set_solver.
  - intros Hc x [->%elem_of_singleton|Hx]%elem_of_union; [|by eapply sound_visited].
    constructor. intros y Hy. eapply sound_visited; [done..|]. by apply Hdeps.
  - apply Hs.
Qed.

(** What a visit of [node] does, from a search [s] whose path leads there. *)
Definition visits (step : search → result search) (node : string) (s : search) : Prop :=
  ∃ s', step s = Ok s' ∧ sound s' ∧ extends s s' ∧ (cycles s' = [] → node ∈ visited s').

Lemma visit_dependencies (body : string → search → result search) deps s :
  (∀ y s', y ∈ deps → sound s' → stack s' = stack s → has y → visits (body y) y s') →
  sound s →
  ∃ s', for_each deps (λ y s, if is_some (assoc_get g y) then body y s else Ok s) s = Ok s' ∧
    sound s' ∧ extends s s' ∧ (cycles s' = [] → ∀ y, y ∈ deps → has y → y ∈ visited s').
Proof.
  revert s; induction deps as [|y deps IH]; intros s Hbody Hs; simpl.
  { exists s. split; [done|]. split; [done|]. split; [done|]. by intros _ y ?%not_elem_of_nil. }
  assert (∃ s1, (if is_some (assoc_get g y) then body y s else Ok s) = Ok s1 ∧ sound s1 ∧
    extends s s1 ∧ (cycles s1 = [] → has y → y ∈ visited s1)) as (s1 & -> & Hs1 & He1 & Hy).
  { destruct (is_some (assoc_get g y)) eqn:Hh.
    - destruct (Hbody y s) as (s1 & -> & ? & ? & ?); [by left|done..|]. by exists s1; auto.
    - exists s. split; [done|]. split; [done|]. split; [done|]. unfold has. congruence. }
  destruct (IH s1) as (s2 & Hfor & Hs2 & He2 & Hdeps); [|done|].
  { intros z s' Hz Hs' Hst. apply Hbody; [by right|done|]. by rewrite Hst, (extends_stack _ _ He1). }
  exists s2. split; [exact Hfor|]. split; [done|]. split; [by etransitivity|].
  intros Hc z [->|Hz]%elem_of_cons Hh; [|by apply Hdeps].
  apply (extends_visited _ _ He2), Hy; [|done]. by apply (extends_cycles _ _ He2).
Qed.

Lemma visit_spec calls node s :
  sound s → has node → path (stack s ++ [node]) → (length g < calls + length (stack s))%nat →
  visits (visit g calls node) node s.
Proof.
  revert node s; induction calls as [|calls IH]; intros node s Hs Hh Hp Hfuel.
  { assert (length (stack s) <= length g)%nat; [|lia].
    rewrite <- (length_fmap fst g). apply submseteq_length, NoDup_submseteq; [apply Hs|].
    intros x Hx. apply has_key. by eapply sound_nodes. }
  unfold visits. cbn [visit]. case_bool_decide as Hv; [by exists s|].
  case_bool_decide as Hn.
  { exists (report_cycle node s). split; [done|]. split; [by apply report_sound|].
    split; [constructor; simpl; [done..|by intros [_ [=]]%app_nil]|by intros [_ [=]]%app_nil]. }
  assert (node ∉ stack s) as Hnew by by rewrite <- (visiting_on_stack s node Hs).
  pose proof (stack_bound s node Hs Hh Hnew) as Hroom.
  destruct (visit_dependencies (visit g calls) (default [] (assoc_get g node)) (enter node s))
    as (s' & -> & Hs' & He & Hdeps); [|by apply enter_sound|].
  { intros y s1 Hy Hs1 Hst Hhy. apply IH; [done..| |].
    - rewrite Hst. apply path_snoc; [done|]. destruct (assoc_get g node) as [ds|] eqn:Hg; simpl in Hy.
      + by exists ds.
      + by apply not_elem_of_nil in Hy.
    - rewrite Hst. simpl. rewrite length_app. simpl. lia. }
  destruct He as [Hst Hvis Hcyc]. simpl in Hst, Hvis, Hcyc.
  exists (leave node s'). split; [done|]. split; [|split].
  - apply (leave_sound s); [done..|]. intros Hc y (ds & Hg & Hy & Hhy). apply Hdeps; [done| |done].
    by rewrite Hg.
  - constructor; simpl; [|set_solver|done].
    rewrite Hst, length_app. simpl. rewrite take_app_length'; [done|lia].
  - intros _. simpl. set_solver.
Qed.

Lemma visit_roots_spec calls roots s :
  (length g < calls)%nat → (∀ x, x ∈ roots → has x) → sound s → stack s = [] →
  ∃ s', for_each roots (visit_root g calls) s = Ok s' ∧ sound s' ∧ stack s' = [] ∧
    (cycles s' = [] → cycles s = [] ∧ ∀ x, x ∈ roots → x ∈ visited s') ∧ visited s ⊆ visited s'.
Proof.
  intros Hc. revert s; induction roots as [|x roots IH]; intros s Hr Hs Hst; simpl.
  { exists s. repeat (split; [done|]). split; [|done]. split; [done|]. by intros x ?%not_elem_of_nil. }
  destruct (visit_spec calls x s) as (s1 & Hx & Hs1 & [He1 He2 He3] & Hv);
    [done|apply Hr; by left|by rewrite Hst|lia|].
  assert (visit_root g calls x s = Ok s1) as ->.
  { unfold visit_root. rewrite <- Hx. f_equal. destruct s; simpl in *. by subst. }
  destruct (IH s1) as (s2 & Hfor & Hs2 & Hst2 & Hcyc & Hvis);
    [intros y Hy; apply Hr; by right|done|by rewrite He1|].
  exists s2. split; [exact Hfor|]. split; [done|]. split; [done|]. split; [|set_solver].
  intros H. destruct (Hcyc H) as [H1 Hall]. split; [auto|].
  intros y [->|Hy]%elem_of_cons; [|auto]. apply Hvis. auto.
Qed.

End search.

(** The search returns, and its verdict is the right one. *)
Lemma search_decides (calls : nat) (g : graph) :
  (length g < calls)%nat →
  ∃ found, _find_cycles calls g = Ok found ∧ (found = [] ↔ ¬ cyclic g).
Proof.
  intros Hc. unfold _find_cycles.
  destruct (visit_roots_spec g calls g.*1 (Search ∅ ∅ [] [])) as (s & -> & Hs & _ & Hall & _);
    [done| |by constructor; simpl; try set_solver; try constructor|done|].
  { intros x Hx. by apply has_key. }
  exists (cycles s). split; [done|]. split.
  - intros Hnil (x & Hx). destruct (Hall Hnil) as [_ Hv].
    apply (grounded_not_cyclic g x); [|done]. eapply sound_visited; [done..|].
    apply Hv, has_key. assert (∃ y, edge g x y) as (y & ds & Hg & _).
    { inversion Hx; subst; eauto. }
    unfold has. by rewrite Hg.
  - intros Hn. destruct (cycles s) eqn:Hcs; [done|]. destruct Hn. apply (sound_cycles g s Hs).
    by rewrite Hcs.
Qed.

(** C29: With as many nested calls as the graph has nodes and one more,
    [_find_cycles] returns, and reports a cycle exactly when the dependency
    graph has one. *)
Theorem find_cycles_exact (calls : nat) (g : graph) :
  (length g < calls)%nat →
  ∃ found, _find_cycles calls g = Ok found ∧ (found = [] ↔ ¬ cyclic g).
Proof. apply search_decides. Qed.

Lemma find_cycles_exact_witness :
  (2 < 3)%nat ∧
  ∃ found, _find_cycles 3 [("a", ["b"]); ("b", ["a"])] = Ok found ∧
    (found = [] ↔ ¬ cyclic [("a", ["b"]); ("b", ["a"])]).
Proof. split; [lia|]. apply (find_cycles_exact 3). simpl. lia. Defined.

End CycleTheorems.
