(* ===== verification/Remediation.v ===== *)
(** * Portfolio remediation queue

    [src/scripts/portfolio_remediation_queue.py]: the validation of a queue of
    remediation findings: the inventory of repositories, the findings with
    their anchors, dispositions, risk scores and ranks, the dependency graph
    and its cycles, duplicates, and the safety flags. *)
From S2P Require Import Prelude PyValue Sha256 Json Contract DateTime Regex RecoveryCommon.
From S2P Require Import GitObjects Collect Url Fields Cycles.
From Stdlib Require Import Ascii.

Module Remediation.
Export Cycles.
Open Scope Z_scope.

Definition SCHEMA : string := "portfolio-remediation-queue/v1".
Definition identity_char (c : ascii) : bool := is_alnum c || one_of "_.-" c.
Definition REPOSITORY (s : string) : bool :=
  match Url.str_partition "/" s with
  | (owner, Some name) =>
      negb (Url.is_empty owner) && all_chars identity_char owner
      && negb (Url.is_empty name) && all_chars identity_char name
  | (_, None) => false
  end.
Definition LINEAR (s : string) : bool :=
  starts_with s "DEN-"
  && match String.substring 4 (String.length s - 4) s with
     | String c s => in_range "1" "9" c && all_chars is_digit s
     | EmptyString => false
     end.
Definition BRANCH : string → bool := rx_rep (λ c, is_alnum c || one_of "._/-" c) 3 240.

Definition ROOT_KEYS : list string :=
  ["schema_version"; "queue_id"; "generated_at"; "baseline"; "repositories"; "findings"; "safety"].
Definition BASELINE_KEYS : list string :=
  ["observed_at"; "catalog_sha256"; "policy_sha256"; "repository_count"].
Definition REPOSITORY_KEYS : list string :=
  ["repository"; "visibility"; "lifecycle"; "canonical_role"; "default_branch"; "observed_head";
   "linear_project_url"; "github_project_url"; "agents_sha256"; "toolchain"; "ci_state";
   "security_policy"; "license_spdx"; "release_path"; "test_maturity"; "deployment_boundary";
   "expectation_profile"; "current_state_sha256"].
Definition FINDING_KEYS : list string :=
  ["id"; "rank"; "repository"; "category"; "state"; "severity"; "disposition"; "evidence_sha256";
   "baseline_value_sha256"; "current_value_sha256"; "linear_anchor"; "github_anchor"; "owner";
   "duplicate_of"; "depends_on"; "scores"; "remediation"].
Definition SCORE_KEYS : list string :=
  ["security"; "data_integrity"; "user_impact"; "dependency_centrality"; "operational_risk";
   "effort"; "test_evidence"].
Definition REMEDIATION_KEYS : list string :=
  ["branch_name"; "base_commit"; "acceptance_checks"; "dry_run"; "apply_authorized";
   "residual_risk"].
Definition unauthorized : list string :=
  ["repository_creation_authorized"; "visibility_changes_authorized";
   "branch_protection_changes_authorized"; "merge_authorized"; "deployment_authorized";
   "dns_changes_authorized"; "database_changes_authorized"].
Definition SAFETY_KEYS : list string := ["read_only"; "dry_run"] ++ unauthorized ++ ["notes"].

Definition VISIBILITIES : list string := ["public"; "private"; "internal"].
Definition LIFECYCLES : list string := ["active"; "archived"; "superseded"; "fork"].
Definition ROLES : list string :=
  ["interfaces"; "clients"; "lib_core"; "orm_core"; "sync"; "web_server"; "api_server"; "flutter";
   "native_desktop"; "lambdas"; "infra"; "monorepo"; "tests"; "docs"; "governance"; "package";
   "mcp"; "cli"; "control_plane"; "other"].
Definition CI_STATES : list string := ["present_green"; "present_unknown"; "missing"; "exempt"].
Definition RELEASE_PATHS : list string :=
  ["none"; "source_artifact"; "native_artifact"; "container"; "site"; "multiple"].
Definition TEST_MATURITIES : list string := ["L0"; "L1"; "L2"; "L3"; "L4"; "L5"].
Definition DEPLOYMENT_BOUNDARIES : list string := ["none"; "test"; "production"; "shared"].
Definition CATEGORIES : list string :=
  ["missing_repository"; "misplaced_repository"; "instruction_drift"; "ci_missing";
   "security_policy_missing"; "license_missing"; "release_gap"; "test_maturity_gap";
   "deployment_isolation"; "dependency_boundary"; "branch_protection_drift"; "stale_baseline";
   "ownership_unresolved"; "duplicate_tracking"; "visibility_mismatch"].
Definition FINDING_STATES : list string :=
  ["missing"; "drifted"; "superseded"; "intentionally_exempt"; "externally_blocked";
   "already_remediated"].
Definition SEVERITIES : list string := ["critical"; "high"; "medium"; "low"].
Definition ACTIONABLE_DISPOSITIONS : list string := ["draft_pr"; "amend_existing"].
Definition NOOP_DISPOSITIONS : list string :=
  ["noop_completed"; "noop_exempt"; "noop_blocked"; "noop_duplicate"].
Definition DISPOSITIONS : list string := ACTIONABLE_DISPOSITIONS ++ NOOP_DISPOSITIONS.
Definition SEVERITY_WEIGHT : list (string * Z) :=
  [("critical", 4); ("high", 3); ("medium", 2); ("low", 1)].
Definition DISPOSITION_TIER : list (string * Z) :=
  [("draft_pr", 0); ("amend_existing", 0); ("noop_blocked", 1); ("noop_completed", 2);
   ("noop_exempt", 2); ("noop_duplicate", 2)].
Definition forbidden_keys : list string :=
  ["access_token"; "api_key"; "authorization"; "credential"; "secret"; "private_key";
   "raw_repository_payload"; "apply_token"].

Definition _pairs (pairs : list (string * value)) : result items := pairs_of QueueError pairs.

(** ** Field checks *)

Definition _optional_sha (v : value) (path : string) : checked (option string) :=
  if is_none v then pass None else _sha v path.

Definition _repository (v : value) (path : string) : checked (option string) :=
  shaped_text REPOSITORY " must be an owner/repository identity" v path 3 200.

Definition _url (v : value) (path : string) (allowed_hosts : option (list string))
  : checked (option string) :=
  if is_none v then pass None else
  text ← _text v path 12 1000;
  match text with
  | None => pass None
  | Some s =>
      parsed ← lift (Url.urlparse s);
      if not_canonical parsed then
        complain (path +:+ " must be canonical HTTPS without userinfo, query, or fragment") ;;
        pass None
      else match allowed_hosts with
           | Some hosts =>
               if negb (mem_str (Url.netloc parsed) hosts)
               then complain (path +:+ " host is not allowed") ;; pass None
               else pass (Some s)
           | None => pass (Some s)
           end
  end.

(** [str.isdigit] below 256: the superscripts are digits too, and [int]
    refuses them. *)
Definition is_digit_char (c : ascii) : bool :=
  is_digit c || existsb (N.eqb (code c)) [178; 179; 185]%N.
Definition int_of_text (s : string) : result Z :=
  if all_chars is_digit s then int_of_str s
  else Raise (Exn ValueError ("invalid literal for int() with base 10: " +:+ repr_str s)).

(** The parts of a path name an issue or a pull request. *)
Definition is_anchor (parts : list string) : result bool :=
  match parts with
  | [_; _; kind; number] =>
      if mem_str kind ["issues"; "pull"] && all_chars is_digit_char number
      then n ← int_of_text number; Ok (1 <=? n)
      else Ok false
  | _ => Ok false
  end.

Definition _github_anchor (v : value) (path : string) : checked (option string) :=
  text ← _url v path (Some ["github.com"]);
  match text with
  | None => pass None
  | Some s =>
      parsed ← lift (Url.urlparse s);
      let parts := List.filter (λ part, negb (Url.is_empty part))
                     (Url.str_split "/" (Url.path parsed)) in
      exact ← lift (is_anchor parts);
      if exact : bool then pass (Some s)
      else complain (path +:+ " must be an exact GitHub issue or pull-request URL") ;; pass None
  end.

Definition unsafe_branch (s : string) : bool :=
  negb (BRANCH s) || starts_with s "/" || ends_with s "/" || contains "//" s || contains ".." s
  || ends_with s "." || contains "@{" s.

Definition _branch (v : value) (path : string) : checked (option string) :=
  shaped_text (λ s, negb (unsafe_branch s)) " is not a safe Git branch name" v path 3 240.

Definition _walk_safe (v : value) (path : string) : checked unit :=
  Done tt (walk_safe forbidden_keys v path).

(** ** Repository records *)

(** [if v is not None: check(v)] *)
Definition when_given (v : value) (check : value → checked (option string)) : checked unit :=
  if is_none v then pass tt else check v ;; pass tt.

Definition check_head (record : items) (path : string) : checked unit :=
  let default_branch := dict_get record "default_branch" in
  let observed_head := dict_get record "observed_head" in
  when_given default_branch (λ v, _branch v (path +:+ ".default_branch")) ;;
  when_given observed_head (λ v, _commit v (path +:+ ".observed_head")) ;;
  if py_eq (dict_get record "lifecycle") (VStr "active") then
    complain_if (is_none default_branch)
      (path +:+ ".default_branch is required for active repositories") ;;
    complain_if (is_none observed_head)
      (path +:+ ".observed_head is required for active repositories")
  else pass tt.

Definition check_projects (record : items) (path : string) : checked unit :=
  _url (dict_get record "linear_project_url") (path +:+ ".linear_project_url")
    (Some ["linear.app"]) ;;
  _url (dict_get record "github_project_url") (path +:+ ".github_project_url")
    (Some ["github.com"]) ;;
  _optional_sha (dict_get record "agents_sha256") (path +:+ ".agents_sha256") ;;
  _strings (dict_get record "toolchain") (path +:+ ".toolchain") 0 24 1 120 ;;
  pass tt.

Definition check_posture (record : items) (path : string) : checked unit :=
  supported (dict_get record "ci_state") CI_STATES (path +:+ ".ci_state") ;;
  complain_if (match dict_get record "security_policy" with VBool _ => false | _ => true end)
    (path +:+ ".security_policy must be boolean") ;;
  when_given (dict_get record "license_spdx") (λ v, _text v (path +:+ ".license_spdx") 1 64) ;;
  supported (dict_get record "release_path") RELEASE_PATHS (path +:+ ".release_path") ;;
  supported (dict_get record "test_maturity") TEST_MATURITIES (path +:+ ".test_maturity") ;;
  supported (dict_get record "deployment_boundary") DEPLOYMENT_BOUNDARIES
    (path +:+ ".deployment_boundary") ;;
  _slug (dict_get record "expectation_profile") (path +:+ ".expectation_profile") ;;
  _sha (dict_get record "current_state_sha256") (path +:+ ".current_state_sha256") ;;
  pass tt.

Definition _validate_repository_record (raw : value) (index : nat) : checked (option string) :=
  let path := "repositories[" +:+ str_nat index +:+ "]" in
  record ← _exact_object raw REPOSITORY_KEYS path;
  repository ← _repository (dict_get record "repository") (path +:+ ".repository");
  supported (dict_get record "visibility") VISIBILITIES (path +:+ ".visibility") ;;
  supported (dict_get record "lifecycle") LIFECYCLES (path +:+ ".lifecycle") ;;
  supported (dict_get record "canonical_role") ROLES (path +:+ ".canonical_role") ;;
  check_head record path ;;
  check_projects record path ;;
  check_posture record path ;;
  pass repository.

(** ** Scores, remediation and safety *)

Definition _score_composite (scores : list (string * Z)) : result Z :=
  security ← subscript scores "security";
  data_integrity ← subscript scores "data_integrity";
  user_impact ← subscript scores "user_impact";
  dependency_centrality ← subscript scores "dependency_centrality";
  operational_risk ← subscript scores "operational_risk";
  effort ← subscript scores "effort";
  test_evidence ← subscript scores "test_evidence";
  Ok (security * 25 + data_integrity * 20 + user_impact * 15 + dependency_centrality * 15
      + operational_risk * 15 + (100 - effort) * 5 + test_evidence * 5).

(** [disposition in SET], for a disposition known to be hashable. *)
Definition value_in (v : value) (choices : list string) : bool :=
  match v with VStr s => mem_str s choices | _ => false end.

Definition _validate_remediation (v : value) (path : string) (disposition : value)
  : checked unit :=
  remediation ← _exact_object v REMEDIATION_KEYS path;
  let branch_name := dict_get remediation "branch_name" in
  let base_commit := dict_get remediation "base_commit" in
  let checks := dict_get remediation "acceptance_checks" in
  (if value_in disposition ACTIONABLE_DISPOSITIONS then
     _branch branch_name (path +:+ ".branch_name") ;;
     _commit base_commit (path +:+ ".base_commit") ;;
     _strings checks (path +:+ ".acceptance_checks") 2 16 8 500 ;;
     pass tt
   else if value_in disposition NOOP_DISPOSITIONS then
     complain_if (negb (is_none branch_name) || negb (is_none base_commit))
       (path +:+ " no-op dispositions must not declare a branch or base") ;;
     _strings checks (path +:+ ".acceptance_checks") 0 8 8 500 ;;
     pass tt
   else pass tt) ;;
  complain_if (negb (is_bool (dict_get remediation "dry_run") true))
    (path +:+ ".dry_run must be true") ;;
  complain_if (negb (is_bool (dict_get remediation "apply_authorized") false))
    (path +:+ ".apply_authorized must be false") ;;
  _text (dict_get remediation "residual_risk") (path +:+ ".residual_risk") 8 500 ;;
  pass tt.

Definition _validate_safety (root : items) : checked unit :=
  safety ← _exact_object (dict_get root "safety") SAFETY_KEYS "safety";
  complain_if (negb (is_bool (dict_get safety "read_only") true)) "safety.read_only must be true" ;;
  complain_if (negb (is_bool (dict_get safety "dry_run") true)) "safety.dry_run must be true" ;;
  check_each 0 unauthorized
    (λ _ key _, complain_if (negb (is_bool (dict_get safety key) false))
                  ("safety." +:+ key +:+ " must be false")) tt ;;
  _strings (dict_get safety "notes") "safety.notes" 1 12 8 500 ;;
  pass tt.

(** ** Findings *)

(** What the loop over the findings has gathered; [graph], [rank_by_id] and the
    anchors are dicts, [ids] a set. *)
Record gathered : Type := Gathered {
  ids : list string;
  github_anchors : list (string * string);
  linear_anchors : list (string * string);
  dependencies_of : graph;
  rank_inputs : list (Z * Z * Z * Z * string);
  rank_by_id : list (string * Z);
  actionable_count : nat;
  blocked_count : nat;
  noop_count : nat;
}.

(** The identity of a finding: its id, rank and repository. *)
Definition check_identity (inventory : list string) (finding : items) (path : string)
    (known : list string) : checked (option string * option Z) :=
  finding_id ← _slug (dict_get finding "id") (path +:+ ".id");
  complain_if (match finding_id with Some id => mem_str id known | None => false end)
    ("duplicate finding id: " +:+ default EmptyString finding_id) ;;
  rank ← _integer (dict_get finding "rank") (path +:+ ".rank") 1 100000;
  repository ← _repository (dict_get finding "repository") (path +:+ ".repository");
  complain_if (match repository with Some r => negb (mem_str r inventory) | None => false end)
    (path +:+ ".repository is absent from the inventory") ;;
  pass (finding_id, rank).

(** How the disposition goes with the state; what it adds to the counts. *)
Definition check_disposition (finding : items) (path : string) : checked (nat * nat * nat) :=
  let state := dict_get finding "state" in
  let disposition := dict_get finding "disposition" in
  supported (dict_get finding "category") CATEGORIES (path +:+ ".category") ;;
  supported state FINDING_STATES (path +:+ ".state") ;;
  supported (dict_get finding "severity") SEVERITIES (path +:+ ".severity") ;;
  supported disposition DISPOSITIONS (path +:+ ".disposition") ;;
  if value_in disposition ACTIONABLE_DISPOSITIONS then
    complain_if (value_in state ["already_remediated"; "intentionally_exempt"; "superseded"])
      (path +:+ " state " +:+ py_str state +:+ " cannot use an actionable disposition") ;;
    pass (1, 0, 0)%nat
  else if py_eq disposition (VStr "noop_blocked") then
    complain_if (negb (py_eq state (VStr "externally_blocked")))
      (path +:+ ".noop_blocked requires externally_blocked state") ;;
    pass (0, 1, 1)%nat
  else if value_in disposition NOOP_DISPOSITIONS then pass (0, 0, 1)%nat
  else pass (0, 0, 0)%nat.

(** [s.strip() != s] *)
Definition edge_whitespace (s : string) : bool :=
  match String.list_ascii_of_string s with
  | [] => false
  | c :: l => is_space c || is_space (List.last l c)
  end.

(** The evidence digests, the two anchors and the owner. *)
Definition check_evidence (finding : items) (path : string)
  : checked (option string * option string) :=
  _sha (dict_get finding "evidence_sha256") (path +:+ ".evidence_sha256") ;;
  _optional_sha (dict_get finding "baseline_value_sha256") (path +:+ ".baseline_value_sha256") ;;
  _optional_sha (dict_get finding "current_value_sha256") (path +:+ ".current_value_sha256") ;;
  linear ← _text (dict_get finding "linear_anchor") (path +:+ ".linear_anchor") 5 32;
  complain_if (match linear with Some s => negb (LINEAR s) | None => false end)
    (path +:+ ".linear_anchor must be a DEN-N identifier") ;;
  github ← _github_anchor (dict_get finding "github_anchor") (path +:+ ".github_anchor");
  owner ← _text (dict_get finding "owner") (path +:+ ".owner") 2 160;
  complain_if (match owner with Some s => edge_whitespace s | None => false end)
    (path +:+ ".owner must not contain edge whitespace") ;;
  pass (linear, github).

Definition check_duplicate_of (finding : items) (path : string) : checked unit :=
  let duplicate_of := dict_get finding "duplicate_of" in
  if py_eq (dict_get finding "disposition") (VStr "noop_duplicate") then
    _slug duplicate_of (path +:+ ".duplicate_of") ;; pass tt
  else complain_if (negb (is_none duplicate_of))
         (path +:+ ".duplicate_of must be null unless noop_duplicate").

(** An anchor belongs to the first finding that names it. *)
Definition claim_anchor (kind : string) (disposition : value) (finding_id : option string)
    (rank : option Z) (anchor : option string) (anchors : list (string * string))
  : checked (list (string * string)) :=
  match finding_id, rank, anchor with
  | Some id, Some _, Some anchor =>
      match assoc_get anchors anchor with
      | Some previous =>
          complain_if (negb (py_eq disposition (VStr "noop_duplicate")))
            (kind +:+ " anchor " +:+ anchor +:+ " is shared by non-duplicate findings "
             +:+ previous +:+ " and " +:+ id) ;;
          pass anchors
      | None => pass (anchors ++ [(anchor, id)])
      end
  | _, _, _ => pass anchors
  end.

Definition ranking_data (finding : items) (finding_id : option string) (rank : option Z)
    (scores : list (string * Z)) : result (list (Z * Z * Z * Z * string)) :=
  match finding_id, rank, dict_get finding "severity", dict_get finding "disposition" with
  | Some id, Some rank, VStr severity, VStr disposition =>
      if mem_str severity SEVERITIES && mem_str disposition DISPOSITIONS
         && (length scores =? length SCORE_KEYS)%nat then
        tier ← subscript DISPOSITION_TIER disposition;
        weight ← subscript SEVERITY_WEIGHT severity;
        composite ← _score_composite scores;
        Ok [(rank, tier, - weight, - composite, id)]
      else Ok []
  | _, _, _, _ => Ok []
  end.

(** The iteration order of the set [SCORE_KEYS] depends on the hash seed. *)
Section validate.
Context (score_order : list string).
(** How deep calls of [visit] may nest before the interpreter gives up. *)
Context (recursion_limit : nat).

Definition check_scores (finding : items) (path : string) : checked (list (string * Z)) :=
  score_object ← _exact_object (dict_get finding "scores") SCORE_KEYS (path +:+ ".scores");
  check_each 0 score_order (read_score score_object path) [].

(** [for index, raw in enumerate(findings)] *)
Definition check_finding (inventory : list string) (index : nat) (raw : value) (g : gathered)
  : checked gathered :=
  let path := "findings[" +:+ str_nat index +:+ "]" in
  finding ← _exact_object raw FINDING_KEYS path;
  let disposition := dict_get finding "disposition" in
  '(finding_id, rank) ← check_identity inventory finding path (ids g);
  '(actionable, blocked, noop) ← check_disposition finding path;
  '(linear, github) ← check_evidence finding path;
  check_duplicate_of finding path ;;
  dependencies ← _strings (dict_get finding "depends_on") (path +:+ ".depends_on") 0 32 3 96;
  scores ← check_scores finding path;
  _validate_remediation (dict_get finding "remediation") (path +:+ ".remediation") disposition ;;
  linear_anchors ← claim_anchor "Linear" disposition finding_id rank linear (linear_anchors g);
  github_anchors ← claim_anchor "GitHub" disposition finding_id rank github (github_anchors g);
  inputs ← lift (ranking_data finding finding_id rank scores);
  pass (Gathered
    (match finding_id with
     | Some id => if mem_str id (ids g) then ids g else ids g ++ [id]
     | None => ids g
     end)
    github_anchors linear_anchors
    (match finding_id with
     | Some id => assoc_set (dependencies_of g) id dependencies
     | None => dependencies_of g
     end)
    (rank_inputs g ++ inputs)
    (match finding_id, rank with
     | Some id, Some rank => assoc_set (rank_by_id g) id rank
     | _, _ => rank_by_id g
     end)
    (actionable_count g + actionable) (blocked_count g + blocked) (noop_count g + noop)).

(** ** Ranking *)

Definition rank_of (x : Z * Z * Z * Z * string) : Z := x.1.1.1.1.
(** [key=lambda item: (item[1], item[2], item[3], item[4])] *)
Definition rank_leb (x y : Z * Z * Z * Z * string) : bool :=
  let '(_, t, w, c, i) := x in
  let '(_, t', w', c', i') := y in
  (t <? t') || (t =? t') && ((w <? w') || (w =? w') && ((c <? c') || (c =? c') && str_leb i i')).

Definition check_ranks (findings : list value) (inputs : list (Z * Z * Z * Z * string))
  : checked unit :=
  complain_if (negb (bool_decide
      (stable_sort Z.leb (map rank_of inputs) = map Z.of_nat (seq 1 (length findings)))))
    "finding ranks must be unique and contiguous from 1" ;;
  let deterministic := stable_sort rank_leb inputs in
  complain_if (negb (bool_decide
      (map rank_of deterministic = map Z.of_nat (seq 1 (length inputs)))))
    "finding ranks must follow disposition tier, severity, risk score, and finding-id tie-breaking" ;;
  complain_if (negb (length inputs =? length findings)%nat)
    "every finding must have complete deterministic ranking data".

(** ** Dependencies, cycles and duplicates *)

Definition check_dependency (g : gathered) (id dependency : string) : checked unit :=
  if String.eqb dependency id then
    complain ("finding " +:+ id +:+ " cannot depend on itself")
  else if negb (mem_str dependency (ids g)) then
    complain ("finding " +:+ id +:+ " depends on unknown finding " +:+ dependency)
  else match assoc_get (rank_by_id g) id, assoc_get (rank_by_id g) dependency with
       | Some rank, Some earlier =>
           complain_if (rank <=? earlier)
             ("finding " +:+ id +:+ " dependency " +:+ dependency +:+ " must rank earlier")
       | _, _ => pass tt
       end.

Definition check_dependencies (g : gathered) : checked unit :=
  check_each 0 (dependencies_of g)
    (λ _ node _, check_each 0 node.2 (λ _ dependency _, check_dependency g node.1 dependency) tt) tt ;;
  found ← lift (_find_cycles recursion_limit (dependencies_of g));
  check_each 0 found (λ _ cycle _, complain ("finding dependency cycle: " +:+ cycle)) tt.

(** [{raw.get("id"): raw for raw in findings if ...}] *)
Definition by_id (findings : list value) : list (string * items) :=
  fold_left (λ acc raw,
    match raw with
    | VDict d => match dict_get d "id" with VStr id => assoc_set acc id d | _ => acc end
    | _ => acc
    end) findings [].

Definition check_target (findings : list (string * items)) (id : string) (raw : items)
  : checked unit :=
  if py_eq (dict_get raw "disposition") (VStr "noop_duplicate") then
    let target := dict_get raw "duplicate_of" in
    key ← lift (text_key target);
    match key ≫= assoc_get findings with
    | None =>
        complain ("duplicate finding " +:+ id +:+ " references unknown target " +:+ py_str target)
    | Some original =>
        complain_if (py_eq (dict_get original "disposition") (VStr "noop_duplicate"))
          ("duplicate finding " +:+ id +:+ " cannot target another duplicate")
    end
  else pass tt.

Definition check_targets (findings : list value) : checked unit :=
  let named := by_id findings in
  check_each 0 named (λ _ entry _, check_target named entry.1 entry.2) tt.

(** ** The queue *)

Definition check_baseline (root : items) (generated : option Z) : checked (option Z) :=
  baseline ← _exact_object (dict_get root "baseline") BASELINE_KEYS "baseline";
  observed ← _timestamp (dict_get baseline "observed_at") "baseline.observed_at";
  _sha (dict_get baseline "catalog_sha256") "baseline.catalog_sha256" ;;
  _sha (dict_get baseline "policy_sha256") "baseline.policy_sha256" ;;
  declared ← _integer (dict_get baseline "repository_count") "baseline.repository_count" 0 100000;
  match generated, observed with
  | Some generated, Some observed =>
      complain_if (generated <? observed) "baseline.observed_at cannot follow generated_at" ;;
      complain_if (31 * day_us <? generated - observed)
        "baseline is older than the 31-day remediation limit"
  | _, _ => pass tt
  end ;;
  pass declared.

(** [root.get(key)] as a list of 1 to 100000 records. *)
Definition records (root : items) (key : string) : checked (list value) :=
  let complaint := complain (key +:+ " must contain 1..100000 records") ;; pass [] in
  match dict_get root key with
  | VList l =>
      if (1 <=? Z.of_nat (length l)) && (Z.of_nat (length l) <=? 100000) then pass l else complaint
  | _ => complaint
  end.

Definition check_repositories (root : items) (declared : option Z)
  : checked (list value * list string) :=
  repositories ← records root "repositories";
  repository_ids ← check_each 0 repositories (λ index raw repository_ids,
    repository ← _validate_repository_record raw index;
    pass (repository_ids ++ match repository with Some r => [r] | None => [] end)) [];
  complain_if (negb (bool_decide (NoDup repository_ids)))
    "repositories must not contain duplicate identities" ;;
  complain_if
    (match declared with
     | Some n => negb (n =? Z.of_nat (length repositories))
     | None => false
     end) "baseline.repository_count must equal the repository records" ;;
  pass (repositories, repository_ids).

Definition check_queue (v : value) : checked (list value * list value * gathered) :=
  _walk_safe v "$" ;;
  root ← _exact_object v ROOT_KEYS "$";
  complain_if (negb (py_eq (dict_get root "schema_version") (VStr SCHEMA)))
    ("schema_version must be " +:+ SCHEMA) ;;
  _slug (dict_get root "queue_id") "queue_id" ;;
  generated ← _timestamp (dict_get root "generated_at") "generated_at";
  declared ← check_baseline root generated;
  '(repositories, inventory) ← check_repositories root declared;
  findings ← records root "findings";
  g ← check_each 0 findings (check_finding inventory) (Gathered [] [] [] [] [] [] 0 0 0);
  check_ranks findings (rank_inputs g) ;;
  check_dependencies g ;;
  check_targets findings ;;
  _validate_safety root ;;
  pass (repositories, findings, g).

Record QueueReport : Type := mkQueueReport {
  valid : bool;
  queue_sha256 : option string;
  repository_count : nat;
  finding_count : nat;
  report_actionable : nat;
  report_blocked : nat;
  report_noop : nat;
  errors : list string;
}.

Definition validate (v : value) : result QueueReport :=
  match check_queue v with
  | Failed e => Raise e
  | Done (repositories, findings, g) errors =>
      let '(checksum, errors) :=
        match canonical_sha256 v with
        | Ok digest => (Some digest, errors)
        | Raise e =>
            (None, errors ++ ["queue cannot be canonically serialized: " +:+ exn_msg e])
        end in
      Ok (mkQueueReport (bool_decide (errors = [])) checksum (length repositories)
            (length findings) (actionable_count g) (blocked_count g) (noop_count g) errors)
  end.
End validate.

End Remediation.
