(* ===== verification/RemediationTheorems.v ===== *)
(** * Remediation queue: results

    What a queue that is accepted guarantees about its findings: their
    identities, the order of their ranks, their dependencies, duplicates and
    anchors, and that nothing in it authorises a change. *)
From S2P Require Import Prelude PyValue Sha256 Json Contract DateTime Regex RecoveryCommon.
From S2P Require Import GitObjects Collect Url Fields Remediation CycleTheorems.
From Stdlib Require Import Ascii.
From Stdlib Require Sorted.

Module RemediationTheorems.
Import Remediation.
Open Scope Z_scope.

(** ** What the checks of a field accept *)

Lemma optional_sha_clean v path o :
  _optional_sha v path = Done o [] → v = VNone ∨ ∃ s, v = VStr s ∧ SHA256 s = true.
Proof.
  unfold _optional_sha. destruct (is_none v) eqn:Hn; [apply is_none_true in Hn; auto|].
  intros H. cleaned. eauto.
Qed.

Lemma url_clean v path hosts o :
  _url v path (Some hosts) = Done o [] → v = opt_str o.
Proof.
  unfold _url. destruct (is_none v) eqn:Hn; [apply is_none_true in Hn; intros; by cleaned|].
  intros H. cleaned. destruct (not_canonical _); [by cleaned|].
  destruct (negb _); by cleaned.
Qed.

Lemma anchor_clean v path o : _github_anchor v path = Done o [] → v = opt_str o.
Proof.
  unfold _github_anchor. intros H. apply bind_clean in H as (t & ->%url_clean & H).
  destruct t; [|by cleaned]. cleaned. destruct a0; by cleaned.
Qed.

#[global] Arguments _optional_sha : simpl never.
#[global] Arguments _url : simpl never.
#[global] Arguments _github_anchor : simpl never.
#[global] Arguments _branch : simpl never.
#[global] Arguments _repository : simpl never.

Ltac fields :=
  repeat (field_step ||
    match goal with
    | H : _optional_sha _ _ = Done _ [] |- _ => apply optional_sha_clean in H
    | H : _github_anchor _ _ = Done _ [] |- _ => apply anchor_clean in H
    | H : _url _ _ (Some _) = Done _ [] |- _ => apply url_clean in H
    | H : _branch _ _ = Done _ [] |- _ => unfold _branch in H
    | H : _repository _ _ = Done _ [] |- _ => unfold _repository in H
    end).

(** ** What a finding says *)

Definition finding_id (d : items) : string := text_at d "id".
Definition rank (d : items) : Z := int_at d "rank".
Definition disposition (d : items) : string := text_at d "disposition".
Definition state (d : items) : string := text_at d "state".
Definition depends_on (d : items) : list string := texts_at d "depends_on".
Definition score (d : items) (name : string) : Z := int_at (object_at d "scores") name.

Definition tier (d : items) : Z := default 0 (assoc_get DISPOSITION_TIER (disposition d)).
Definition weight (d : items) : Z := default 0 (assoc_get SEVERITY_WEIGHT (text_at d "severity")).
Definition risk (d : items) : Z :=
  score d "security" * 25 + score d "data_integrity" * 20 + score d "user_impact" * 15
  + score d "dependency_centrality" * 15 + score d "operational_risk" * 15
  + (100 - score d "effort") * 5 + score d "test_evidence" * 5.

(** The order of the ranks: actionable work first, then the more severe, then
    the riskier, then by identity. *)
Definition comes_before (a b : items) : Prop :=
  tier a < tier b ∨ tier a = tier b ∧
  (weight b < weight a ∨ weight a = weight b ∧
   (risk b < risk a ∨ risk a = risk b ∧
    String.ltb (finding_id a) (finding_id b) = true)).

(** A plan that may only be dry-run. *)
Definition dry_run_only (d : items) : Prop :=
  dict_get (object_at d "remediation") "dry_run" = VBool true ∧
  dict_get (object_at d "remediation") "apply_authorized" = VBool false.

(** An actionable plan names a safe branch and an exact base; another none. *)
Definition plan_ok (d : items) : Prop :=
  if mem_str (disposition d) ACTIONABLE_DISPOSITIONS then
    ∃ branch base, dict_get (object_at d "remediation") "branch_name" = VStr branch ∧
      unsafe_branch branch = false ∧
      dict_get (object_at d "remediation") "base_commit" = VStr base ∧ COMMIT base = true
  else
    dict_get (object_at d "remediation") "branch_name" = VNone ∧
    dict_get (object_at d "remediation") "base_commit" = VNone.

Record finding_ok (inventory : list string) (d : items) : Prop := {
  ok_keys : same_keys d FINDING_KEYS = true;
  ok_id : dict_get d "id" = VStr (finding_id d);
  ok_rank : dict_get d "rank" = VInt (rank d);
  ok_repository : dict_get d "repository" = VStr (text_at d "repository") ∧
    text_at d "repository" ∈ inventory;
  ok_state : dict_get d "state" = VStr (state d) ∧ state d ∈ FINDING_STATES;
  ok_severity : dict_get d "severity" = VStr (text_at d "severity") ∧
    text_at d "severity" ∈ SEVERITIES;
  ok_disposition : dict_get d "disposition" = VStr (disposition d) ∧
    disposition d ∈ DISPOSITIONS;
  ok_actionable : disposition d ∈ ACTIONABLE_DISPOSITIONS →
    state d ∉ ["already_remediated"; "intentionally_exempt"; "superseded"];
  ok_blocked : disposition d = "noop_blocked" → state d = "externally_blocked";
  ok_duplicate : if String.eqb (disposition d) "noop_duplicate"
    then dict_get d "duplicate_of" = VStr (text_at d "duplicate_of")
    else dict_get d "duplicate_of" = VNone;
  ok_linear : dict_get d "linear_anchor" = VStr (text_at d "linear_anchor") ∧
    LINEAR (text_at d "linear_anchor") = true;
  ok_depends_on : dict_get d "depends_on" = strs (depends_on d) ∧ NoDup (depends_on d);
  ok_scores : ∀ name, name ∈ SCORE_KEYS →
    dict_get (object_at d "scores") name = VInt (score d name) ∧ 0 <= score d name <= 100;
  ok_plan : plan_ok d;
  ok_dry_run : dry_run_only d;
}.

(** ** One finding *)

(** Replaces what a finding says by the fields it was read from. *)
Ltac read_fields :=
  unfold finding_id, rank, state, disposition, depends_on in *; read_at.

Section score_order.
Context (score_order : list string) (Hscores : score_order ≡ₚ SCORE_KEYS).

Lemma check_scores_clean d path r :
  check_scores score_order d path = Done r [] →
  r = map (λ n, (n, score d n)) score_order ∧
  ∀ n, n ∈ SCORE_KEYS → dict_get (object_at d "scores") n = VInt (score d n) ∧ 0 <= score d n <= 100.
Proof using Hscores.
  unfold check_scores. intros H. cleaned. apply scores_loop in H as [-> H].
  - unfold score. rewrite (object_at_dict _ _ _ Hdoc). split; [done|].
    intros n Hn. apply H. by rewrite Hscores.
  - simpl. rewrite Hscores. apply (bool_decide_eq_true_1 _). reflexivity.
Qed.

Lemma score_composite_risk d :
  _score_composite (map (λ n, (n, score d n)) score_order) = Ok (risk d).
Proof using Hscores.
  unfold _score_composite.
  rewrite !subscript_table by (rewrite Hscores; apply mem_str_In; reflexivity).
  by rewrite !ok_bind.
Qed.

(** The ranking data of a finding. *)
Definition input (d : items) : Z * Z * Z * Z * string :=
  (rank d, tier d, - weight d, - risk d, finding_id d).

Lemma ranking_data_input d l :
  dict_get d "severity" = VStr (text_at d "severity") → text_at d "severity" ∈ SEVERITIES →
  dict_get d "disposition" = VStr (disposition d) → disposition d ∈ DISPOSITIONS →
  ranking_data d (Some (finding_id d)) (Some (rank d)) (map (λ n, (n, score d n)) score_order)
    = Ok l →
  l = [input d].
Proof using Hscores.
  unfold ranking_data. intros -> Hs%mem_str_In -> Hd%mem_str_In. rewrite Hs, Hd.
  rewrite length_map, (Permutation_length Hscores). simpl. rewrite score_composite_risk.
  unfold subscript. intros H. unfold input, tier, weight.
  destruct (assoc_get DISPOSITION_TIER (disposition d)); [|done].
  destruct (assoc_get SEVERITY_WEIGHT (text_at d "severity")); [|done].
  rewrite !ok_bind in H. by injection H as <-.
Qed.
End score_order.

Lemma check_remediation_clean v path d u :
  _validate_remediation (dict_get d "remediation") path v = Done u [] →
  v = VStr (disposition d) → disposition d ∈ DISPOSITIONS →
  plan_ok d ∧ dry_run_only d.
Proof.
  unfold _validate_remediation, plan_ok, dry_run_only. intros H -> Hd. cleaned.
  rewrite (object_at_dict _ _ _ Hdoc). apply negb_false_iff in Hc1, Hc2.
  assert (∀ v b, is_bool v b = true → v = VBool b) as Hbool.
  { intros [| [] | | | | |] []; done. }
  apply Hbool in Hc1, Hc2. split; [|done]. cbn [value_in] in Hc0.
  destruct (mem_str (disposition d) ACTIONABLE_DISPOSITIONS) eqn:Ha.
  - fields. eexists _, _. split; [eassumption|]. split; [by apply negb_true_iff|].
    split; [eassumption|done].
  - assert (mem_str (disposition d) NOOP_DISPOSITIONS = true) as Hn.
    { apply mem_str_In. apply elem_of_app in Hd as [Hd%mem_str_In|]; [congruence|done]. }
    rewrite Hn in Hc0. fields. bool_hyps. split; by apply is_none_true.
Qed.

Lemma check_disposition_clean d path r :
  check_disposition d path = Done r [] →
  (dict_get d "state" = VStr (state d) ∧ state d ∈ FINDING_STATES) ∧
  (dict_get d "severity" = VStr (text_at d "severity") ∧ text_at d "severity" ∈ SEVERITIES) ∧
  (dict_get d "disposition" = VStr (disposition d) ∧ disposition d ∈ DISPOSITIONS) ∧
  (disposition d ∈ ACTIONABLE_DISPOSITIONS →
    state d ∉ ["already_remediated"; "intentionally_exempt"; "superseded"]) ∧
  (disposition d = "noop_blocked" → state d = "externally_blocked").
Proof.
  unfold check_disposition. intros H. fields. read_fields.
  rewrite Hset, Hset1 in H. cbn [value_in] in H.
  repeat (split; [by split|]). destruct (mem_str x ACTIONABLE_DISPOSITIONS) eqn:Ha.
  - cleaned. split; [|by intros ->]. intros _ Hin%mem_str_In. congruence.
  - split; [intros Hin%mem_str_In; congruence|]. intros ->. cbn [py_eq] in H.
    rewrite String.eqb_refl in H. cleaned. bool_hyps. by apply String.eqb_eq.
Qed.

Lemma check_identity_clean inventory d path known oid orank :
  check_identity inventory d path known = Done (oid, orank) [] →
  dict_get d "id" = VStr (finding_id d) ∧ oid = Some (finding_id d) ∧ finding_id d ∉ known ∧
  dict_get d "rank" = VInt (rank d) ∧ orank = Some (rank d) ∧
  dict_get d "repository" = VStr (text_at d "repository") ∧ text_at d "repository" ∈ inventory.
Proof.
  unfold check_identity. intros H. fields.
  match goal with E : (_, _) = (_, _) |- _ => injection E as <- <- end.
  read_fields. simpl in *.
  repeat (split; [done|]). split; [intros Hin%mem_str_In; congruence|].
  repeat (split; [done|]). apply mem_str_In. by bool_hyps.
Qed.

Lemma check_evidence_clean d path linear github :
  check_evidence d path = Done (linear, github) [] →
  dict_get d "linear_anchor" = VStr (text_at d "linear_anchor") ∧
  LINEAR (text_at d "linear_anchor") = true ∧
  dict_get d "linear_anchor" = opt_str linear ∧ dict_get d "github_anchor" = opt_str github.
Proof.
  unfold check_evidence. intros H. fields.
  match goal with E : (_, _) = (_, _) |- _ => injection E as <- <- end.
  read_fields. bool_hyps. auto.
Qed.

Lemma check_duplicate_of_clean d path u :
  check_duplicate_of d path = Done u [] → dict_get d "disposition" = VStr (disposition d) →
  if String.eqb (disposition d) "noop_duplicate"
  then dict_get d "duplicate_of" = VStr (text_at d "duplicate_of")
  else dict_get d "duplicate_of" = VNone.
Proof.
  unfold check_duplicate_of. intros H Hd. rewrite Hd in H. simpl in H.
  destruct (String.eqb _ _); fields; [by read_fields|].
  bool_hyps. by apply is_none_true.
Qed.

(** ** What the loop gathers *)

(** The findings of which an anchor is known, each the first to name it. *)
Record anchors_of (key : string) (ds : list items) (anchors : list (string * string)) : Prop := {
  anchors_known : ∀ d a, d ∈ ds → dict_get d key = VStr a → is_some (assoc_get anchors a) = true;
  anchors_first : ∀ i j d e a, (i < j)%nat → ds !! i = Some d → ds !! j = Some e →
    dict_get d key = VStr a → dict_get e key = VStr a → disposition e = "noop_duplicate";
}.

Lemma claim_anchor_step kind key ds d id r o anchors anchors' :
  claim_anchor kind (VStr (disposition d)) (Some id) (Some r) o anchors = Done anchors' [] →
  dict_get d key = opt_str o → anchors_of key ds anchors →
  anchors_of key (ds ++ [d]) anchors'.
Proof.
  intros H Hd [Hknown Hfirst]. unfold claim_anchor in H.
  assert ((∀ d' a, d' ∈ ds → dict_get d' key = VStr a → is_some (assoc_get anchors' a) = true) ∧
    (∀ a, dict_get d key = VStr a → is_some (assoc_get anchors' a) = true ∧
      (is_some (assoc_get anchors a) = true → disposition d = "noop_duplicate"))) as [H1 H2].
  { destruct o as [a|]; simpl in Hd; [|cleaned; split; [done|]; by intros a; rewrite Hd].
    destruct (assoc_get anchors a) as [previous|] eqn:Ha; cleaned.
    - split; [done|]. intros b Hb. rewrite Hd in Hb. injection Hb as <-. rewrite Ha. split; [done|].
      intros _. bool_hyps. by apply String.eqb_eq.
    - split.
      + intros d' b Hd' Hb. specialize (Hknown d' b Hd' Hb). revert Hknown. clear.
        induction anchors as [|[k x] l IH]; simpl; [done|]. by destruct (String.eqb b k).
      + intros b Hb. rewrite Hd in Hb. injection Hb as <-. rewrite Ha. split; [|done]. clear -Ha.
        induction anchors as [|[k x] l IH]; simpl in *; [by rewrite String.eqb_refl|].
        destruct (String.eqb a k); [done|auto]. }
  split.
  - intros e a [He| ->%list_elem_of_singleton]%elem_of_app Hk; [by eapply H1|by apply H2].
  - intros i j e f a Hij Hi Hj He Hf.
    assert (i < length (ds ++ [d]))%nat by (by eapply lookup_lt_Some).
    assert (j < length (ds ++ [d]))%nat as Hlt by (by eapply lookup_lt_Some).
    rewrite length_app in Hlt. simpl in Hlt. rewrite lookup_app_l in Hi by lia.
    destruct (decide (j < length ds)%nat) as [Hjl|Hjl].
    + rewrite lookup_app_l in Hj by lia. by eapply (Hfirst i j).
    + rewrite list_lookup_middle in Hj by lia. injection Hj as <-. apply H2 with a; [done|].
      eapply Hknown; [by eapply list_elem_of_lookup_2|done].
Qed.

(** The findings read so far. *)
Record gathered_from (ds : list items) (g : gathered) : Prop := {
  from_ids : ids g = map finding_id ds;
  from_NoDup : NoDup (map finding_id ds);
  from_dependencies : dependencies_of g = map (λ d, (finding_id d, depends_on d)) ds;
  from_inputs : rank_inputs g = map input ds;
  from_ranks : rank_by_id g = map (λ d, (finding_id d, rank d)) ds;
  from_linear : anchors_of "linear_anchor" ds (linear_anchors g);
  from_github : anchors_of "github_anchor" ds (github_anchors g);
}.

Section queue.
Context (score_order : list string) (Hscores : score_order ≡ₚ SCORE_KEYS).

(** One more finding is read. *)
Lemma finding_step inventory i raw ds g g' :
  check_finding score_order inventory i raw g = Done g' [] → gathered_from ds g →
  ∃ d, raw = VDict d ∧ finding_ok inventory d ∧ gathered_from (ds ++ [d]) g'.
Proof using Hscores.
  unfold check_finding. cbv zeta. intros H [Hids Hnd Hdeps Hin Hranks Hlin Hgit].
  apply bind_clean in H as (d & [-> Hkeys]%exact_object_clean & H).
  apply bind_clean in H as ([oid orank] & Hid & H).
  apply check_identity_clean in Hid as (Hid & -> & Hnew & Hrank & -> & Hrepo & Hinv).
  apply bind_clean in H as ([[p q] r] & Hdis & H).
  apply check_disposition_clean in Hdis as ([Hst Hst'] & [Hsev Hsev'] & [Hd Hd'] & Hact & Hblk).
  apply bind_clean in H as ([lin git] & Hev & H).
  apply check_evidence_clean in Hev as (Hlin1 & Hlin2 & Hlin3 & Hgit3).
  apply bind_clean in H as (u & Hdup & H).
  apply check_duplicate_of_clean in Hdup; [|done].
  apply bind_clean in H as (deps & [Hdo Hdo']%strings_clean & H).
  pose proof (texts_at_strs _ _ _ Hdo : depends_on d = deps) as <-.
  apply bind_clean in H as (scores & (-> & Hsc)%(check_scores_clean score_order Hscores) & H).
  apply bind_clean in H as (u' & Hrem & H).
  apply (check_remediation_clean _ _ d) in Hrem as [Hplan Hdry]; [|done..].
  apply bind_clean in H as (lin' & Hl & H). apply bind_clean in H as (git' & Hg & H).
  rewrite Hd in Hl, Hg.
  apply bind_clean in H as (inputs & Hi%lift_clean & H). cleaned.
  apply (ranking_data_input score_order Hscores) in Hi; [|done..]. subst inputs.
  exists d. split; [done|]. split; [by constructor|].
  assert (finding_id d ∉ map finding_id ds) as Hfresh by by rewrite <- Hids.
  assert (mem_str (finding_id d) (ids g) = false) as ->.
  { apply not_true_iff_false. by rewrite mem_str_In. }
  assert (∀ (B : Type) (f : items → B), (map (λ d, (finding_id d, f d)) ds).*1 = map finding_id ds)
    as Hmap by (intros; by rewrite <- list_fmap_compose).
  constructor; cbn [ids dependencies_of rank_inputs rank_by_id linear_anchors github_anchors];
    rewrite ?map_app; cbn [map].
  - by rewrite Hids.
  - apply NoDup_app. split; [done|]. split; [|apply NoDup_singleton].
    by intros x Hx ->%list_elem_of_singleton.
  - rewrite Hdeps. apply assoc_set_fresh. by rewrite Hmap.
  - by rewrite Hin.
  - rewrite Hranks. apply assoc_set_fresh. by rewrite Hmap.
  - by eapply claim_anchor_step.
  - by eapply claim_anchor_step.
Qed.

Lemma no_findings : gathered_from [] (Gathered [] [] [] [] [] [] 0 0 0).
Proof.
  constructor; simpl; try done; try constructor; try (by intros ? ? ?%not_elem_of_nil);
    intros i ? ? ? ? ? [=].
Qed.

End queue.

(** ** Ranks *)

Lemma rank_leb_spec x y :
  rank_leb x y = true ↔
  let '(_, t, w, c, i) := x in let '(_, t', w', c', i') := y in
  t < t' ∨ t = t' ∧ (w < w' ∨ w = w' ∧ (c < c' ∨ c = c' ∧ String.le i i')).
Proof.
  destruct x as [[[[r t] w] c] i], y as [[[[r' t'] w'] c'] i']. unfold rank_leb.
  rewrite !orb_true_iff, !andb_true_iff, !orb_true_iff, !andb_true_iff, !orb_true_iff,
    !andb_true_iff, !Z.ltb_lt, !Z.eqb_eq. unfold str_leb, String.le. by rewrite Is_true_true.
Qed.

Lemma finding_rank_leb_total x y : rank_leb x y = true ∨ rank_leb y x = true.
Proof.
  rewrite !rank_leb_spec. destruct x as [[[[r t] w] c] i], y as [[[[r' t'] w'] c'] i'].
  destruct (Z.lt_trichotomy t t') as [?|[->|?]]; [by auto| |by auto].
  destruct (Z.lt_trichotomy w w') as [?|[->|?]]; [by auto 10| |by auto 10].
  destruct (Z.lt_trichotomy c c') as [?|[->|?]]; [by auto 10| |by auto 10].
  destruct (total String.le i i'); auto 12.
Qed.

#[export] Instance rank_leb_trans : Transitive (λ x y, rank_leb x y = true).
Proof.
  intros x y z. rewrite !rank_leb_spec.
  destruct x as [[[[r1 t1] w1] c1] i1], y as [[[[r2 t2] w2] c2] i2], z as [[[[r3 t3] w3] c3] i3].
  intros [H1|(-> & [H1|(-> & [H1|(-> & H1)])])] [H2|(<- & [H2|(<- & [H2|(<- & H2)])])];
    try (left; lia); right; (split; [done|]); try (left; lia);
    right; (split; [done|]); try (left; lia); right; (split; [done|]). by etransitivity.
Qed.

Lemma comes_before_asym a b : comes_before a b → ¬ comes_before b a.
Proof.
  unfold comes_before. rewrite !str_ltb_iff. intros H1 H2.
  destruct H1 as [?|(? & [?|(? & [?|(? & Hle & Hne)])])],
    H2 as [?|(? & [?|(? & [?|(? & Hle' & _)])])]; try lia.
  apply Hne. by apply (anti_symm String.le).
Qed.

Lemma leb_comes_before a b :
  rank_leb (input a) (input b) = true → finding_id a ≠ finding_id b → comes_before a b.
Proof.
  rewrite rank_leb_spec. unfold input, comes_before. rewrite str_ltb_iff.
  intros [?|(? & [?|(? & [?|(? & ?)])])] Hne; [left; lia| | |]; right; (split; [lia|]);
    [left; lia| |]; right; (split; [lia|]); [left; lia|]. right. split; [lia|done].
Qed.

Lemma ranks_are_priorities ds a b :
  NoDup (map finding_id ds) →
  map rank_of (stable_sort rank_leb (map input ds)) = map Z.of_nat (seq 1 (length ds)) →
  a ∈ ds → b ∈ ds → rank a < rank b ↔ comes_before a b.
Proof.
  intros Hnd Hranks. assert (∀ x y, x ∈ ds → y ∈ ds → finding_id x = finding_id y → x = y) as Hinj
    by (intros x y Hx Hy Heq; by apply (key_inj finding_id ds)).
  apply (ranks_are_positions input rank_of rank_leb finding_rank_leb_total rank_leb_trans
    comes_before comes_before_asym ds).
  - intros x y Hx Hy Hne Hle. apply leb_comes_before; [done|]. intros Heq. by apply Hne, Hinj.
  - intros x y Hx Hy Heq. apply Hinj; [done..|]. by injection Heq.
  - exact Hranks.
Qed.

(** ** The whole queue *)

Lemma dependency_clean ds g d x u :
  gathered_from ds g → d ∈ ds → check_dependency g (finding_id d) x = Done u [] →
  ∃ e, e ∈ ds ∧ finding_id e = x ∧ rank e < rank d.
Proof.
  intros [Hids Hnd _ _ Hr _ _] Hd. unfold check_dependency.
  destruct (String.eqb x (finding_id d)); [by intros ?%complain_not_clean|].
  destruct (mem_str x (ids g)) eqn:Hx; [|by intros ?%complain_not_clean]. cbn [negb].
  rewrite mem_str_In, Hids in Hx. apply list_elem_of_fmap in Hx as (e & -> & He).
  assert (∀ e, e ∈ ds → assoc_get (rank_by_id g) (finding_id e) = Some (rank e)) as Hget.
  { intros e' He'. rewrite Hr. apply assoc_get_elem.
    - by rewrite <- list_fmap_compose.
    - by apply (list_elem_of_fmap_2 (λ d, (finding_id d, rank d))). }
  rewrite !Hget by done. rewrite complain_if_clean, Z.leb_gt. eauto.
Qed.

Lemma dependencies_clean limit ds g u :
  gathered_from ds g → check_dependencies limit g = Done u [] →
  (∀ d x, d ∈ ds → x ∈ depends_on d → ∃ e, e ∈ ds ∧ finding_id e = x ∧ rank e < rank d) ∧
  _find_cycles limit (dependencies_of g) = Ok [].
Proof.
  unfold check_dependencies. intros Hg H. apply bind_clean in H as (u1 & Hdeps & H).
  apply bind_clean in H as (found & Hf%lift_clean & H). rewrite check_each_clean in Hdeps. rewrite check_each_clean in H. split.
  - intros d x Hd (k & Hk)%list_elem_of_lookup.
    destruct (proj1 (list_elem_of_lookup _ _) Hd) as (j & Hj).
    specialize (Hdeps j (finding_id d, depends_on d)).
    rewrite (from_dependencies _ _ Hg), list_lookup_fmap, Hj in Hdeps.
    specialize (Hdeps eq_refl). rewrite check_each_clean in Hdeps. specialize (Hdeps k x Hk).
    by eapply dependency_clean.
  - destruct found as [|c found]; [done|]. specialize (H 0%nat c eq_refl).
    by apply complain_not_clean in H.
Qed.

Lemma by_id_findings ds :
  NoDup (map finding_id ds) → (∀ d, d ∈ ds → dict_get d "id" = VStr (finding_id d)) →
  by_id (map VDict ds) = map (λ d, (finding_id d, d)) ds.
Proof.
  intros Hnd Hid. unfold by_id.
  enough (∀ acc, NoDup (acc.*1 ++ map finding_id ds) →
    fold_left (λ acc raw, match raw with
      | VDict d => match dict_get d "id" with VStr id => assoc_set acc id d | _ => acc end
      | _ => acc end) (map VDict ds) acc = acc ++ map (λ d, (finding_id d, d)) ds) as H
    by by apply (H []).
  clear Hnd. induction ds as [|d ds IH]; intros acc Hnd; simpl; [by rewrite app_nil_r|].
  rewrite (Hid d) by by left. csimpl in Hnd. apply NoDup_app in Hnd as (H1 & H2 & H3).
  apply NoDup_cons in H3 as [H3 H4].
  assert (finding_id d ∉ acc.*1) as Hf by (intros H; apply (H2 _ H); by left).
  rewrite assoc_set_fresh by done. rewrite IH.
  - by rewrite <- app_assoc.
  - intros e He. apply Hid. by right.
  - rewrite fmap_app. simpl. rewrite <- app_assoc. apply NoDup_app. split; [done|].
    split; [exact H2|]. by apply NoDup_cons.
Qed.

Lemma some_bind {A B} (a : A) (f : A → option B) : Some a ≫= f = f a.
Proof. done. Qed.

Lemma targets_clean inventory ds u :
  NoDup (map finding_id ds) → Forall (finding_ok inventory) ds →
  check_targets (map VDict ds) = Done u [] →
  ∀ d, d ∈ ds → disposition d = "noop_duplicate" →
  ∃ e, e ∈ ds ∧ finding_id e = text_at d "duplicate_of" ∧ disposition e ≠ "noop_duplicate".
Proof.
  intros Hnd Hok. rewrite Forall_forall in Hok. unfold check_targets. cbv zeta.
  rewrite by_id_findings; [|done|intros d Hd; by apply Hok].
  destruct u. rewrite check_each_clean. intros H d Hd Hdis.
  destruct (proj1 (list_elem_of_lookup _ _) Hd) as (j & Hj).
  specialize (H j (finding_id d, d)). rewrite list_lookup_fmap, Hj in H. specialize (H eq_refl).
  unfold check_target in H. simpl in H. destruct (ok_disposition _ _ (Hok d Hd)) as [Hv _].
  pose proof (ok_duplicate _ _ (Hok d Hd)) as Hdup.
  rewrite Hdis in Hdup. simpl in Hdup. rewrite Hv, Hdis, Hdup in H. cbn [py_eq] in H.
  rewrite String.eqb_refl in H. cbn [text_key] in H. rewrite lift_bind, some_bind in H.
  destruct (assoc_get (map (λ d, (finding_id d, d)) ds) (text_at d "duplicate_of")) as [e|] eqn:He;
    [|by apply complain_not_clean in H].
  apply assoc_get_elem in He; [|by rewrite <- list_fmap_compose].
  apply list_elem_of_fmap in He as (e' & [= He ->] & Hin). exists e'. split; [done|]. split; [done|].
  intros Hbad. destruct (ok_disposition _ _ (Hok e' Hin)) as [Hv' _].
  rewrite complain_if_clean, Hv', Hbad in H.
  cbn [py_eq] in H. by rewrite String.eqb_refl in H.
Qed.
End RemediationTheorems.
