(* ===== verification/QueueTheorems.v ===== *)
(** * Remediation queue: accepted queues

    What [validate] guarantees of a queue it reports as valid, whatever the
    iteration order of its set of score names. *)
From S2P Require Import Prelude PyValue Sha256 Json Contract DateTime RecoveryCommon GitObjects.
From S2P Require Import Collect Url Fields Remediation CycleTheorems RemediationTheorems.
From Stdlib Require Import Ascii.

Module QueueTheorems.
Import Remediation CycleTheorems RemediationTheorems.
Open Scope Z_scope.

(** ** The parts of an accepted queue *)

Definition identity (r : items) : string := text_at r "repository".

(** An active repository is bound to a branch and an exact commit. *)
Record repository_ok (r : items) : Prop := {
  repository_identity : dict_get r "repository" = VStr (identity r) ∧ REPOSITORY (identity r) = true;
  repository_head : dict_get r "lifecycle" = VStr "active" →
    ∃ branch head, dict_get r "default_branch" = VStr branch ∧ unsafe_branch branch = false ∧
      dict_get r "observed_head" = VStr head ∧ COMMIT head = true;
}.

(** The baseline is at most 31 days old and counts the repositories. *)
Definition baseline_ok (root : items) (rs : list items) : Prop :=
  let baseline := object_at root "baseline" in
  ∃ generated observed,
    denotes (text_at root "generated_at") generated ∧
    denotes (text_at baseline "observed_at") observed ∧
    0 <= generated - observed <= 31 * day_us ∧
    dict_get baseline "repository_count" = VInt (Z.of_nat (length rs)).

Definition safety_ok (safety : items) : Prop :=
  dict_get safety "read_only" = VBool true ∧ dict_get safety "dry_run" = VBool true ∧
  ∀ key, key ∈ unauthorized → dict_get safety key = VBool false.

Record accepted (limit : nat) (v : value) (root : items) (rs ds : list items) : Prop := {
  accepted_root : v = VDict root;
  accepted_walk : no_forbidden forbidden_keys v;
  accepted_baseline : baseline_ok root rs;
  accepted_repositories : dict_get root "repositories" = VList (map VDict rs);
  accepted_inventory : NoDup (map identity rs) ∧ Forall repository_ok rs;
  accepted_findings : dict_get root "findings" = VList (map VDict ds);
  accepted_each : Forall (finding_ok (map identity rs)) ds;
  accepted_ids : NoDup (map finding_id ds);
  accepted_ranks : map rank_of (stable_sort rank_leb (map input ds))
    = map Z.of_nat (seq 1 (length ds));
  accepted_dependencies : ∀ d x, d ∈ ds → x ∈ depends_on d →
    ∃ e, e ∈ ds ∧ finding_id e = x ∧ rank e < rank d;
  accepted_cycles : _find_cycles limit (map (λ d, (finding_id d, depends_on d)) ds) = Ok [];
  accepted_targets : ∀ d, d ∈ ds → disposition d = "noop_duplicate" →
    ∃ e, e ∈ ds ∧ finding_id e = text_at d "duplicate_of" ∧ disposition e ≠ "noop_duplicate";
  accepted_anchors : ∀ key i j d e a, key ∈ ["linear_anchor"; "github_anchor"] → (i < j)%nat →
    ds !! i = Some d → ds !! j = Some e → dict_get d key = VStr a → dict_get e key = VStr a →
    disposition e = "noop_duplicate";
  accepted_safety : safety_ok (object_at root "safety");
}.

Lemma safety_clean root u :
  _validate_safety root = Done u [] → safety_ok (object_at root "safety").
Proof.
  unfold _validate_safety, safety_ok. intros H. fields. read_fields. bool_hyps.
  apply is_bool_true in Hc0, Hc1. split; [done|]. split; [done|].
  intros key (j & Hj)%list_elem_of_lookup. rewrite check_each_clean in Hc2.
  specialize (Hc2 j key Hj). apply complain_if_clean in Hc2. bool_hyps. by apply is_bool_true.
Qed.

Lemma when_given_clean v check u :
  when_given v check = Done u [] → v = VNone ∨ ∃ o, check v = Done o [].
Proof.
  unfold when_given. destruct (is_none v) eqn:Hv; [apply is_none_true in Hv; auto|].
  intros H. apply bind_clean in H as (o & Ho & _). eauto.
Qed.

Lemma head_clean r path u :
  check_head r path = Done u [] → dict_get r "lifecycle" = VStr "active" →
  ∃ branch head, dict_get r "default_branch" = VStr branch ∧ unsafe_branch branch = false ∧
    dict_get r "observed_head" = VStr head ∧ COMMIT head = true.
Proof.
  unfold check_head. intros H Hlife. apply bind_clean in H as (u1 & Hb%when_given_clean & H).
  apply bind_clean in H as (u2 & Hh%when_given_clean & H). rewrite Hlife in H. cbn [py_eq] in H.
  rewrite String.eqb_refl in H. cleaned.
  destruct Hb as [Hb|(o & Hb)]; [by rewrite Hb in Hc|].
  destruct Hh as [Hh|(o' & Hh)]; [by rewrite Hh in H|]. fields. bool_hyps. eauto 10.
Qed.

Lemma repository_clean raw i o :
  _validate_repository_record raw i = Done o [] →
  ∃ r, raw = VDict r ∧ o = Some (identity r) ∧ repository_ok r.
Proof.
  unfold _validate_repository_record. cbv zeta. intros H.
  apply bind_clean in H as (r & [-> _]%exact_object_clean & H).
  apply bind_clean in H as (name & Hname & H).
  do 3 apply bind_clean in H as (? & _ & H). apply bind_clean in H as (? & Hhead & H).
  do 2 apply bind_clean in H as (? & _ & H). apply pass_clean in H as <-. fields.
  exists r. unfold identity. rewrite (text_at_str _ _ _ Hdoc). split; [done|]. split; [done|].
  constructor; [unfold identity; by rewrite (text_at_str _ _ _ Hdoc)|].
  by eapply head_clean.
Qed.

Lemma repositories_loop i raws ids ids' :
  check_each i raws (λ index raw repository_ids,
    repository ← _validate_repository_record raw index;
    pass (repository_ids ++ match repository with Some r => [r] | None => [] end)) ids
    = Done ids' [] →
  ∃ rs, raws = map VDict rs ∧ ids' = ids ++ map identity rs ∧ Forall repository_ok rs.
Proof.
  revert i ids; induction raws as [|raw raws IH]; intros i ids; simpl.
  - intros H. cleaned. exists []. by rewrite app_nil_r.
  - intros H. apply bind_clean in H as (ids1 & Hraw & H).
    apply bind_clean in Hraw as (o & (r & -> & -> & Hr)%repository_clean & Hp). cleaned.
    apply IH in H as (rs & -> & -> & Hall). exists (r :: rs). rewrite <- app_assoc.
    split; [done|]. split; [done|]. by constructor.
Qed.

Lemma records_clean root key l : records root key = Done l [] → dict_get root key = VList l.
Proof.
  unfold records. destruct (dict_get root key); try (intros H; by cleaned).
  destruct (_ && _); intros H; by cleaned.
Qed.

Lemma check_repositories_clean root declared repositories inventory :
  check_repositories root declared = Done (repositories, inventory) [] →
  ∃ rs, dict_get root "repositories" = VList (map VDict rs) ∧ inventory = map identity rs ∧
    NoDup (map identity rs) ∧ Forall repository_ok rs ∧
    ∀ n, declared = Some n → n = Z.of_nat (length rs).
Proof.
  unfold check_repositories. intros H. apply bind_clean in H as (raws & Hraws%records_clean & H).
  apply bind_clean in H as (ids & (rs & -> & -> & Hall)%repositories_loop & H). cleaned.
  match goal with E : (_, _) = (_, _) |- _ => injection E as <- <- end.
  bool_hyps. exists rs. repeat (split; [done|]). intros n ->. bool_hyps.
  by rewrite length_map in *.
Qed.

Lemma check_baseline_clean root t declared :
  check_baseline root (Some t) = Done declared [] →
  ∃ o n, denotes (text_at (object_at root "baseline") "observed_at") o ∧
    0 <= t - o <= 31 * day_us ∧ declared = Some n ∧
    dict_get (object_at root "baseline") "repository_count" = VInt n.
Proof.
  unfold check_baseline. intros H. fields. read_fields. bool_hyps.
  eexists _, _. split; [eassumption|]. split; [lia|]. by split.
Qed.

(** Dependencies that rank earlier form no cycle. *)
Definition dependency_graph (ds : list items) : graph :=
  map (λ d, (finding_id d, depends_on d)) ds.

Section descending.
Context (ds : list items) (Hnd : NoDup (map finding_id ds)).
Context (Hdeps : ∀ d x, d ∈ ds → x ∈ depends_on d →
  ∃ e, e ∈ ds ∧ finding_id e = x ∧ rank e < rank d).

Lemma edge_descends d y :
  d ∈ ds → edge (dependency_graph ds) (finding_id d) y →
  ∃ e, e ∈ ds ∧ finding_id e = y ∧ rank e < rank d.
Proof using Hnd Hdeps.
  intros Hd (deps & Hget & Hy & _). apply Hdeps; [done|].
  apply assoc_get_elem in Hget; [|by unfold dependency_graph; rewrite <- list_fmap_compose].
  apply list_elem_of_fmap in Hget as (d' & [= Hid ->] & Hd').
  by rewrite (key_inj finding_id ds d d' Hnd Hd Hd' Hid).
Qed.

Lemma path_descends x y :
  tc (edge (dependency_graph ds)) x y → ∀ d, d ∈ ds → finding_id d = x →
  ∃ e, e ∈ ds ∧ finding_id e = y ∧ rank e < rank d.
Proof using Hnd Hdeps.
  induction 1 as [x y Hxy|x y z Hxy _ IH]; intros d Hd <-;
    destruct (edge_descends d y Hd Hxy) as (e & He & Hid & Hlt); [by exists e|].
  destruct (IH e He Hid) as (f & Hf & Hfid & Hlt'). exists f. repeat (split; [done|]). lia.
Qed.

Lemma descending_not_cyclic : ¬ cyclic (dependency_graph ds).
Proof using Hnd Hdeps.
  intros (x & Hx). assert (∃ d, d ∈ ds ∧ finding_id d = x) as (d & Hd & Hid).
  { assert (∃ y, edge (dependency_graph ds) x y) as (y & deps & Hget & _)
      by (inversion Hx; subst; eauto).
    apply assoc_get_elem in Hget; [|by unfold dependency_graph; rewrite <- list_fmap_compose].
    apply list_elem_of_fmap in Hget as (d & [= -> _] & Hd). eauto. }
  destruct (path_descends x x Hx d Hd Hid) as (e & He & Hid' & Hlt).
  rewrite (key_inj finding_id ds e d Hnd He Hd) in Hlt by congruence. lia.
Qed.
End descending.

Section accepted_queues.
Context (score_order : list string) (Hscores : score_order ≡ₚ SCORE_KEYS) (limit : nat).

Lemma check_queue_clean v repositories findings g :
  check_queue score_order limit v = Done (repositories, findings, g) [] →
  ∃ root rs ds, accepted limit v root rs ds.
Proof using Hscores.
  unfold check_queue. intros H. apply bind_clean in H as (u & Hwalk & H).
  injection Hwalk as _ Hwalk%walk_safe_nil.
  apply bind_clean in H as (root & [-> Hkeys]%exact_object_clean & H).
  do 2 apply bind_clean in H as (? & _ & H).
  apply bind_clean in H as (generated & (s & t & Hgen & -> & _ & Hden)%timestamp_clean & H).
  apply bind_clean in H as (declared & (o & n & Ho & Hage & -> & Hcount)%check_baseline_clean & H).
  apply bind_clean in H as ([raws inventory] & Hr & H).
  apply check_repositories_clean in Hr as (rs & Hrs & -> & Hinv & Hall & Hn).
  specialize (Hn n eq_refl). subst n.
  apply bind_clean in H as (fs & Hfs%records_clean & H).
  apply bind_clean in H as (g' & Hg & H).
  apply (gathers_each _ VDict gathered_from _ (finding_step score_order Hscores _) _ _ []) in Hg as (ds & -> & Hok & Hfrom);
    [|exact no_findings].
  apply bind_clean in H as (u1 & Hranks & H). apply bind_clean in H as (u2 & Hdeps & H).
  apply bind_clean in H as (u3 & Htargets & H). apply bind_clean in H as (u4 & Hsafe & _).
  simpl in Hfrom. destruct (dependencies_clean _ _ _ _ Hfrom Hdeps) as [Hd Hcyc].
  destruct Hfrom as [Hids Hnd Hgraph Hin Hrk Hl Hgit].
  exists root, rs, ds. unfold check_ranks in Hranks. cleaned. bool_hyps.
  constructor; try done.
  - exists t, o. by rewrite (text_at_str _ _ _ Hgen).
  - rewrite Hin, length_map in *. done.
  - by rewrite <- Hgraph.
  - by eapply targets_clean.
  - intros key i j d e a Hkey. rewrite !elem_of_cons, elem_of_nil in Hkey.
    destruct Hkey as [->|[->|[]]]; [by apply (anchors_first _ _ _ Hl)|
      by apply (anchors_first _ _ _ Hgit)].
  - by eapply safety_clean.
Qed.

Lemma validate_accepted v r :
  validate score_order limit v = Ok r → valid r = true →
  ∃ root rs ds, accepted limit v root rs ds.
Proof using Hscores.
  unfold validate. destruct (check_queue score_order limit v) as [[[repos fs] g] es|e] eqn:Hq; [|done].
  destruct (canonical_sha256 v); intros [= <-] Hv; simpl in Hv; bool_hyps.
  - subst. by eapply check_queue_clean.
  - by apply app_nil in Hv as [_ ?].
Qed.

(** In a valid queue the ranks are 1 to n, each once, and one finding ranks
    before another exactly when it comes first by tier, then severity, then
    weighted risk score, then identity. *)
Theorem valid_queue_is_ranked (v : value) (r : QueueReport) :
  validate score_order limit v = Ok r → valid r = true →
  ∃ root ds, v = VDict root ∧ dict_get root "findings" = VList (map VDict ds) ∧
    map rank ds ≡ₚ map Z.of_nat (seq 1 (length ds)) ∧
    ∀ a b, a ∈ ds → b ∈ ds → rank a < rank b ↔ comes_before a b.
Proof using Hscores.
  intros Hr Hv. destruct (validate_accepted v r Hr Hv) as (root & rs & ds & []).
  exists root, ds. split; [done|]. split; [done|]. split.
  - rewrite <- accepted_ranks0, stable_sort_Permutation, map_map. done.
  - intros a b. by apply ranks_are_priorities.
Qed.

(** C34: In a valid queue every dependency names a finding of the queue that
    ranks earlier, so no finding depends on itself through others. *)
Theorem valid_queue_is_schedulable (v : value) (r : QueueReport) :
  validate score_order limit v = Ok r → valid r = true →
  ∃ root ds, v = VDict root ∧ dict_get root "findings" = VList (map VDict ds) ∧
    (∀ d x, d ∈ ds → x ∈ depends_on d → ∃ e, e ∈ ds ∧ finding_id e = x ∧ rank e < rank d) ∧
    ¬ cyclic (dependency_graph ds).
Proof using Hscores.
  intros Hr Hv. destruct (validate_accepted v r Hr Hv) as (root & rs & ds & []).
  exists root, ds. repeat (split; [done|]). by apply descending_not_cyclic.
Qed.

(** A valid queue authorises nothing: it is read-only and dry-run, every
    authorisation flag is false, every plan may only be dry-run, only
    actionable findings name a branch and a base, no finding already
    remediated, exempt or superseded is actionable, and no key of the document
    is a prohibited one. *)
Theorem valid_queue_authorizes_nothing (v : value) (r : QueueReport) :
  validate score_order limit v = Ok r → valid r = true →
  no_forbidden forbidden_keys v ∧
  ∃ root ds, v = VDict root ∧ dict_get root "findings" = VList (map VDict ds) ∧
    safety_ok (object_at root "safety") ∧
    ∀ d, d ∈ ds → dry_run_only d ∧ plan_ok d ∧
      (disposition d ∈ ACTIONABLE_DISPOSITIONS →
        state d ∉ ["already_remediated"; "intentionally_exempt"; "superseded"]).
Proof using Hscores.
  intros Hr Hv. destruct (validate_accepted v r Hr Hv) as (root & rs & ds & []).
  split; [done|]. exists root, ds. repeat (split; [done|]). intros d Hd.
  rewrite Forall_forall in accepted_each0. by destruct (accepted_each0 d Hd).
Qed.

(** In a valid queue identities are unique, every finding is about a
    repository of the inventory, a duplicate names another finding that is not
    a duplicate, and of the findings that share a Linear or GitHub anchor all
    but the first are duplicates. *)
Theorem valid_queue_tracks_once (v : value) (r : QueueReport) :
  validate score_order limit v = Ok r → valid r = true →
  ∃ root rs ds, v = VDict root ∧ dict_get root "findings" = VList (map VDict ds) ∧
    dict_get root "repositories" = VList (map VDict rs) ∧ Forall repository_ok rs ∧
    NoDup (map identity rs) ∧ NoDup (map finding_id ds) ∧
    (∀ d, d ∈ ds → identity d ∈ map identity rs) ∧
    (∀ d, d ∈ ds → disposition d = "noop_duplicate" →
      ∃ e, e ∈ ds ∧ finding_id e = text_at d "duplicate_of" ∧ disposition e ≠ "noop_duplicate") ∧
    (∀ key i j d e a, key ∈ ["linear_anchor"; "github_anchor"] → (i < j)%nat →
      ds !! i = Some d → ds !! j = Some e → dict_get d key = VStr a → dict_get e key = VStr a →
      disposition e = "noop_duplicate").
Proof using Hscores.
  intros Hr Hv. destruct (validate_accepted v r Hr Hv) as (root & rs & ds & []).
  destruct accepted_inventory0 as [Hnd Hall]. exists root, rs, ds.
  repeat (split; [done|]). split; [|by split].
  intros d Hd. rewrite Forall_forall in accepted_each0. by apply (accepted_each0 d Hd).
Qed.

(** The baseline of a valid queue was observed no later than the queue was
    generated and at most 31 days before, and counts its repositories. *)
Theorem valid_queue_is_fresh (v : value) (r : QueueReport) :
  validate score_order limit v = Ok r → valid r = true →
  ∃ root rs, v = VDict root ∧ dict_get root "repositories" = VList (map VDict rs) ∧
    baseline_ok root rs.
Proof using Hscores.
  intros Hr Hv. destruct (validate_accepted v r Hr Hv) as (root & rs & ds & []). eauto.
Qed.
End accepted_queues.

(** ** A queue of two findings, one the duplicate of the other *)

Definition sample_finding (id : string) (rank : Z) (state severity disposition : string)
    (duplicate_of branch base : value) (checks depends_on : list string) : value :=
  VDict [("id", VStr id); ("rank", VInt rank); ("repository", VStr "acme/server");
    ("category", VStr "ci_missing"); ("state", VStr state); ("severity", VStr severity);
    ("disposition", VStr disposition);
    ("evidence_sha256", VStr "4444444444444444444444444444444444444444444444444444444444444444");
    ("baseline_value_sha256", VNone); ("current_value_sha256", VNone);
    ("linear_anchor", VStr "DEN-12"); ("github_anchor", VStr "https://github.com/acme/server/issues/7");
    ("owner", VStr "Server team"); ("duplicate_of", duplicate_of);
    ("depends_on", strs depends_on);
    ("scores", VDict (map (λ k, (k, VInt 50)) SCORE_KEYS));
    ("remediation", VDict [("branch_name", branch); ("base_commit", base);
      ("acceptance_checks", strs checks); ("dry_run", VBool true);
      ("apply_authorized", VBool false); ("residual_risk", VStr "None that is known.")])].

Definition sample_repository : value :=
  VDict [("repository", VStr "acme/server"); ("visibility", VStr "public");
    ("lifecycle", VStr "active"); ("canonical_role", VStr "api_server");
    ("default_branch", VStr "main");
    ("observed_head", VStr "1111111111111111111111111111111111111111");
    ("linear_project_url", VStr "https://linear.app/acme/project/server");
    ("github_project_url", VStr "https://github.com/orgs/acme/projects/1");
    ("agents_sha256", VNone); ("toolchain", strs ["Rust 1.97.0"]);
    ("ci_state", VStr "missing"); ("security_policy", VBool true); ("license_spdx", VStr "MIT");
    ("release_path", VStr "container"); ("test_maturity", VStr "L2");
    ("deployment_boundary", VStr "production"); ("expectation_profile", VStr "rust-api-server");
    ("current_state_sha256", VStr "3333333333333333333333333333333333333333333333333333333333333333")].

Definition sample_findings : list value :=
  [sample_finding "ci-missing" 1 "missing" "high" "draft_pr" VNone (VStr "ci/add-workflow")
     (VStr "1111111111111111111111111111111111111111")
     ["The workflow runs."; "The tests pass."] [];
   sample_finding "ci-missing-again" 2 "superseded" "high" "noop_duplicate" (VStr "ci-missing")
     VNone VNone [] ["ci-missing"]].

Definition sample_queue : value :=
  VDict [("schema_version", VStr SCHEMA); ("queue_id", VStr "sample-queue");
    ("generated_at", VStr "2026-09-04T11:00:00-04:00");
    ("baseline", VDict [("observed_at", VStr "2026-08-31T12:00:00Z");
      ("catalog_sha256", VStr "aaaaaaaaaaaaaaaaaaaaaaaaaaaaaaaaaaaaaaaaaaaaaaaaaaaaaaaaaaaaaaaa");
      ("policy_sha256", VStr "bbbbbbbbbbbbbbbbbbbbbbbbbbbbbbbbbbbbbbbbbbbbbbbbbbbbbbbbbbbbbbbb");
      ("repository_count", VInt 1)]);
    ("repositories", VList [sample_repository]); ("findings", VList sample_findings);
    ("safety", VDict (map (λ k, (k, VBool true)) ["read_only"; "dry_run"]
      ++ map (λ k, (k, VBool false)) unauthorized
      ++ [("notes", strs ["Planning evidence only."])]))].

Definition sample_report : QueueReport :=
  mkQueueReport true (Some (sha256_value sample_queue)) 1 2 1 0 1 [].

(** The set of score names iterated in another order than it is written in. *)
Lemma reversed_scores : reverse SCORE_KEYS ≡ₚ SCORE_KEYS.
Proof. apply reverse_Permutation. Qed.

Lemma sample_validates : validate (reverse SCORE_KEYS) 3 sample_queue = Ok sample_report.
Proof. vm_compute. reflexivity. Qed.

Lemma valid_queue_is_ranked_witness :
  let v := sample_queue in validate (reverse SCORE_KEYS) 3 v = Ok sample_report ∧
  (∃ root ds, v = VDict root ∧ dict_get root "findings" = VList (map VDict ds) ∧
    map rank ds ≡ₚ map Z.of_nat (seq 1 (length ds)) ∧
    ∀ a b, a ∈ ds → b ∈ ds → rank a < rank b ↔ comes_before a b).
Proof.
  split; [exact sample_validates|].
  exact (valid_queue_is_ranked _ reversed_scores 3 sample_queue sample_report sample_validates eq_refl).
Defined.

Lemma valid_queue_is_schedulable_witness :
  let v := sample_queue in validate (reverse SCORE_KEYS) 3 v = Ok sample_report ∧
  (∃ root ds, v = VDict root ∧ dict_get root "findings" = VList (map VDict ds) ∧
    (∀ d x, d ∈ ds → x ∈ depends_on d → ∃ e, e ∈ ds ∧ finding_id e = x ∧ rank e < rank d) ∧
    ¬ cyclic (dependency_graph ds)).
Proof.
  split; [exact sample_validates|].
  exact (valid_queue_is_schedulable _ reversed_scores 3 sample_queue sample_report sample_validates eq_refl).
Defined.

Lemma valid_queue_authorizes_nothing_witness :
  let v := sample_queue in validate (reverse SCORE_KEYS) 3 v = Ok sample_report ∧
  (no_forbidden forbidden_keys v ∧
  ∃ root ds, v = VDict root ∧ dict_get root "findings" = VList (map VDict ds) ∧
    safety_ok (object_at root "safety") ∧
    ∀ d, d ∈ ds → dry_run_only d ∧ plan_ok d ∧
      (disposition d ∈ ACTIONABLE_DISPOSITIONS →
        state d ∉ ["already_remediated"; "intentionally_exempt"; "superseded"])).
Proof.
  split; [exact sample_validates|].
  exact (valid_queue_authorizes_nothing _ reversed_scores 3 sample_queue sample_report sample_validates eq_refl).
Defined.

Lemma valid_queue_tracks_once_witness :
  let v := sample_queue in validate (reverse SCORE_KEYS) 3 v = Ok sample_report ∧
  (∃ root rs ds, v = VDict root ∧ dict_get root "findings" = VList (map VDict ds) ∧
    dict_get root "repositories" = VList (map VDict rs) ∧ Forall repository_ok rs ∧
    NoDup (map identity rs) ∧ NoDup (map finding_id ds) ∧
    (∀ d, d ∈ ds → identity d ∈ map identity rs) ∧
    (∀ d, d ∈ ds → disposition d = "noop_duplicate" →
      ∃ e, e ∈ ds ∧ finding_id e = text_at d "duplicate_of" ∧ disposition e ≠ "noop_duplicate") ∧
    (∀ key i j d e a, key ∈ ["linear_anchor"; "github_anchor"] → (i < j)%nat →
      ds !! i = Some d → ds !! j = Some e → dict_get d key = VStr a → dict_get e key = VStr a →
      disposition e = "noop_duplicate")).
Proof.
  split; [exact sample_validates|].
  exact (valid_queue_tracks_once _ reversed_scores 3 sample_queue sample_report sample_validates eq_refl).
Defined.

Lemma valid_queue_is_fresh_witness :
  let v := sample_queue in validate (reverse SCORE_KEYS) 3 v = Ok sample_report ∧
  (∃ root rs, v = VDict root ∧ dict_get root "repositories" = VList (map VDict rs) ∧
    baseline_ok root rs).
Proof.
  split; [exact sample_validates|].
  exact (valid_queue_is_fresh _ reversed_scores 3 sample_queue sample_report sample_validates eq_refl).
Defined.

(** ** Inputs on which the validator raises, and URLs it accepts *)

Example unhashable_visibility :
  supported (VList []) VISIBILITIES "repositories[0].visibility" =
  Failed (Exn TypeError "unhashable type: 'list'").
Proof. reflexivity. Qed.

(** The superscript two is a digit that [int] refuses. *)
Example superscript_number :
  _github_anchor (VStr ("https://github.com/acme/server/issues/" +:+ String "178" EmptyString))
    "findings[0].github_anchor" =
  Failed (Exn ValueError ("invalid literal for int() with base 10: '"
    +:+ String "178" EmptyString +:+ "'")).
Proof. vm_compute. reflexivity. Qed.

Example unmatched_bracket :
  _github_anchor (VStr "https://[github.com/acme") "findings[0].github_anchor" =
  Failed (Exn ValueError "Invalid IPv6 URL").
Proof. vm_compute. reflexivity. Qed.

Example loose_anchors_accepted :
  Forall (λ s, _github_anchor (VStr s) "findings[0].github_anchor" = Done (Some s) [])
    ["  https://github.com/acme/server/issues/7"; "HTTPS://github.com/acme//server/issues/007";
     "https://github.com/acme/server/issues/7;closed"; "https://github.com/acme/server/issues/7?"]
  ∧ _github_anchor VNone "findings[0].github_anchor" = Done None [].
Proof. split; [|reflexivity]. repeat constructor; vm_compute; reflexivity. Qed.

(** A chain of three findings needs three nested calls. *)
Example deep_chain_raises :
  _find_cycles 2 [("one", ["two"]); ("two", ["three"]); ("three", [])] = Raise too_deep.
Proof. vm_compute. reflexivity. Qed.

End QueueTheorems.
