(* ===== verification/ScoreOrderTheorems.v ===== *)
(** * Remediation queue: the order of the score names

    [validate] iterates the set of score names, whose order changes with the
    hash seed of the process.  Two runs on the same document agree on
    everything but the order of the complaints. *)
From S2P Require Import Prelude PyValue Sha256 Json RecoveryCommon GitObjects Collect Fields Remediation.
From S2P Require Import RemediationTheorems QueueTheorems.

Module ScoreOrderTheorems.
Import Remediation RemediationTheorems QueueTheorems.
Open Scope Z_scope.

(** ** Computations that agree up to the order of their complaints *)

Definition agree {A B} (R : A → B → Prop) (m : checked A) (m' : checked B) : Prop :=
  match m, m' with
  | Done a es, Done b es' => R a b ∧ es ≡ₚ es'
  | Failed e, Failed e' => e = e'
  | _, _ => False
  end.

Lemma agree_refl {A} (m : checked A) : agree eq m m.
Proof. by destruct m. Qed.

Lemma agree_bind {A A' B B'} (R : A → A' → Prop) (S : B → B' → Prop) m m' f f' :
  agree R m m' → (∀ a a', R a a' → agree S (f a) (f' a')) → agree S (m ≫= f) (m' ≫= f').
Proof.
  destruct m as [a es|e], m' as [a' es'|e']; simpl; try done.
  intros [Ha Hes] H. specialize (H a a' Ha). unfold mbind, checked_bind.
  destruct (f a), (f' a'); simpl in *; try done. destruct H as [? Hp]. split; [done|].
  by rewrite Hes, Hp.
Qed.

(** The same first step on both sides. *)
Lemma agree_then {A B B'} (S : B → B' → Prop) (m : checked A) f f' :
  (∀ a, agree S (f a) (f' a)) → agree S (m ≫= f) (m ≫= f').
Proof. intros H. apply (agree_bind eq); [apply agree_refl|]. by intros a _ <-. Qed.

Lemma agree_each {A B} i (l : list A) (body body' : nat → A → B → checked B) acc :
  (∀ i x acc, agree eq (body i x acc) (body' i x acc)) →
  agree eq (check_each i l body acc) (check_each i l body' acc).
Proof.
  intros H. revert i acc; induction l as [|x l IH]; intros i acc; simpl; [done|].
  apply (agree_bind eq); [apply H|]. intros b _ <-. apply IH.
Qed.

(** ** The scores of a finding *)

Section scores.
Context (object : items) (path : string).

Definition accepted_score (name : string) : option Z :=
  match dict_get object name with
  | VInt z => if (0 <=? z) && (z <=? 100) then Some z else None
  | _ => None
  end.
Definition score_complaint (name : string) : list string :=
  match accepted_score name with
  | Some _ => []
  | None => [(path +:+ ".scores." +:+ name) +:+ " must be an integer in " +:+ str_int 0 +:+ ".."
              +:+ str_int 100]
  end.

Lemma read_score_result i name scores :
  read_score object path i name scores =
  Done (match accepted_score name with Some z => assoc_set scores name z | None => scores end)
    (score_complaint name).
Proof.
  unfold read_score, _integer, score_complaint, accepted_score.
  destruct (dict_get object name); try reflexivity. by destruct (_ && _).
Qed.

Definition score_entries (order : list string) : list (string * Z) :=
  omap (λ n, (λ z, (n, z)) <$> accepted_score n) order.

Lemma scores_result i order acc :
  NoDup (acc.*1 ++ order) →
  check_each i order (read_score object path) acc =
  Done (acc ++ score_entries order) (flat_map score_complaint order).
Proof.
  revert i acc; induction order as [|n order IH]; intros i acc Hnd; simpl.
  { by rewrite app_nil_r. }
  apply NoDup_app in Hnd as (Hacc & Hdis & [Hn Hord]%NoDup_cons).
  assert (n ∉ acc.*1) as Hfresh by (intros Hin; apply (Hdis n Hin); by left).
  rewrite read_score_result. unfold mbind at 1, checked_bind at 1.
  unfold score_entries. csimpl. destruct (accepted_score n) as [z|] eqn:Hz; csimpl.
  - rewrite assoc_set_fresh by done. rewrite IH.
    + by rewrite <- app_assoc.
    + rewrite fmap_app. simpl. rewrite <- app_assoc. apply NoDup_app. split; [done|].
      split; [exact Hdis|]. by apply NoDup_cons.
  - rewrite IH; [done|]. apply NoDup_app. split; [done|]. split; [|done].
    intros x Hx Hx'. apply (Hdis x Hx). by right.
Qed.

Lemma score_entries_keys order : NoDup order → NoDup (score_entries order).*1.
Proof.
  unfold score_entries. induction 1 as [|n order Hn _ IH]; csimpl; [constructor|].
  destruct (accepted_score n); csimpl; [|done]. constructor; [|done].
  intros (p & -> & Hp)%list_elem_of_fmap. apply list_elem_of_omap in Hp as (m & Hm & Hp).
  by destruct (accepted_score m); simplify_eq/=.
Qed.
End scores.

Section orders.
Context (o o' : list string) (Ho : o ≡ₚ SCORE_KEYS) (Ho' : o' ≡ₚ SCORE_KEYS) (limit : nat).

Lemma orders_NoDup l : l ≡ₚ SCORE_KEYS → NoDup l.
Proof. intros ->. apply (bool_decide_eq_true_1 _). reflexivity. Qed.

Lemma check_scores_agree finding path :
  agree (λ l l', NoDup l.*1 ∧ l ≡ₚ l') (check_scores o finding path) (check_scores o' finding path).
Proof using Ho Ho'.
  unfold check_scores. apply agree_then. intros object.
  rewrite !scores_result by (simpl; by apply orders_NoDup). simpl.
  assert (o ≡ₚ o') as Hp by by rewrite Ho, Ho'. split; [split|].
  - by apply score_entries_keys, orders_NoDup.
  - unfold score_entries. by rewrite Hp.
  - by rewrite Hp.
Qed.

Lemma ranking_data_agree finding id rank l l' :
  NoDup l.*1 → l ≡ₚ l' → ranking_data finding id rank l = ranking_data finding id rank l'.
Proof.
  intros Hnd Hp. unfold ranking_data, _score_composite, subscript.
  rewrite (Permutation_length Hp). by rewrite !(assoc_get_perm l l') by done.
Qed.

Lemma check_finding_agree inventory i raw g :
  agree eq (check_finding o inventory i raw g) (check_finding o' inventory i raw g).
Proof using Ho Ho'.
  unfold check_finding. cbv zeta. apply agree_then. intros finding. apply agree_then.
  intros [id rank]. apply agree_then. intros [[a b] n]. apply agree_then. intros [linear github].
  apply agree_then. intros _. apply agree_then. intros dependencies.
  apply (agree_bind _ _ _ _ _ _ (check_scores_agree finding _)). intros scores scores' [Hnd Hp].
  apply agree_then. intros _. apply agree_then. intros lin. apply agree_then. intros git.
  rewrite (ranking_data_agree _ _ _ _ _ Hnd Hp). apply agree_refl.
Qed.

Lemma check_queue_agree v : agree eq (check_queue o limit v) (check_queue o' limit v).
Proof using Ho Ho'.
  unfold check_queue. do 5 (apply agree_then; intros ?). apply agree_then. intros declared.
  apply agree_then. intros [repositories inventory]. apply agree_then. intros findings.
  apply (agree_bind eq); [|intros g _ <-; apply agree_refl].
  apply agree_each. intros. apply check_finding_agree.
Qed.
End orders.

(** Two reports that differ in the order of the complaints only. *)
Record same_report (r r' : QueueReport) : Prop := {
  same_valid : valid r = valid r';
  same_sha256 : queue_sha256 r = queue_sha256 r';
  same_repositories : repository_count r = repository_count r';
  same_findings : finding_count r = finding_count r';
  same_actionable : report_actionable r = report_actionable r';
  same_blocked : report_blocked r = report_blocked r';
  same_noop : report_noop r = report_noop r';
  same_errors : errors r ≡ₚ errors r';
}.

Lemma empty_perm (l l' : list string) : l ≡ₚ l' → bool_decide (l = []) = bool_decide (l' = []).
Proof.
  intros Hp. apply bool_decide_ext. split; intros ->; [by apply Permutation_nil|].
  by apply Permutation_nil_r.
Qed.

(** Two runs of [validate] on the same document, with the set of score
    names iterated in any two orders, either raise the same exception or report
    the same verdict, checksum and counts and the same complaints, in some
    order. *)
Theorem score_order_irrelevant (o o' : list string) (limit : nat) (v : value) :
  o ≡ₚ SCORE_KEYS → o' ≡ₚ SCORE_KEYS →
  match validate o limit v, validate o' limit v with
  | Ok r, Ok r' => same_report r r'
  | Raise e, Raise e' => e = e'
  | _, _ => False
  end.
Proof.
  intros Ho Ho'. unfold validate. pose proof (check_queue_agree o o' Ho Ho' limit v) as H.
  destruct (check_queue o limit v) as [[[repos fs] g] es|e],
    (check_queue o' limit v) as [[[repos' fs'] g'] es'|e']; try done; simpl in H.
  destruct H as [[= <- <- <-] Hp]. destruct (canonical_sha256 v); constructor; simpl; try done;
    rewrite ?(empty_perm _ _ Hp); try done.
  - apply empty_perm. by rewrite Hp.
  - by rewrite Hp.
Qed.

Lemma score_order_irrelevant_witness :
  SCORE_KEYS ≡ₚ SCORE_KEYS ∧ reverse SCORE_KEYS ≡ₚ SCORE_KEYS ∧
  match validate SCORE_KEYS 3 sample_queue, validate (reverse SCORE_KEYS) 3 sample_queue with
  | Ok r, Ok r' => same_report r r'
  | Raise e, Raise e' => e = e'
  | _, _ => False
  end.
Proof.
  split; [reflexivity|]. split; [apply reversed_scores|].
  apply (score_order_irrelevant SCORE_KEYS (reverse SCORE_KEYS) 3 sample_queue);
    [reflexivity|apply reversed_scores].
Defined.

End ScoreOrderTheorems.
