(* ===== verification/Release.v ===== *)
(** * Portfolio release manifest

    [src/scripts/portfolio_release_manifest.py]: the validation of a release
    manifest in planning or closure mode: coverage, repositories, lanes,
    capabilities, artifacts, the decision and the safety flags, the reasons that
    keep a release from closing, and the report. *)
From S2P Require Import Prelude PyValue Sha256 Json Contract DateTime Regex RecoveryCommon.
From S2P Require Import GitObjects Collect Url Fields.
From Stdlib Require Import Ascii SpecFloat.

Module Release.
Open Scope Z_scope.

Definition SCHEMA : string := "portfolio-release-manifest/v1".
Definition ROOT_KEYS : list string :=
  ["schema_version"; "release_id"; "generated_at"; "coverage"; "repositories"; "capabilities";
   "artifacts"; "lanes"; "blockers"; "decision"; "safety"].
Definition COVERAGE_KEYS : list string :=
  ["catalog_complete"; "expected_repository_count"; "observed_repository_count";
   "unresolved_repository_count"].
Definition REPOSITORY_KEYS : list string :=
  ["id"; "github_url"; "role"; "environment"; "status"; "head_sha"; "default_branch";
   "visibility"; "archived"; "superseded"; "linear_anchor"].
Definition CAPABILITY_KEYS : list string :=
  ["id"; "implementation_repositories"; "independent_lanes"; "maturity"; "status"; "blockers"].
Definition ARTIFACT_KEYS : list string :=
  ["id"; "repository_id"; "kind"; "status"; "sha256"; "provenance_sha256"].
Definition LANE_KEYS : list string :=
  ["id"; "kind"; "status"; "head_sha"; "evidence_sha256"; "destructive"; "independent"; "blockers"].
Definition DECISION_KEYS : list string := ["value"; "rationale"; "approved_by"; "decided_at"].
Definition unauthorized : list string :=
  ["deployment_authorized"; "migration_authorized"; "credential_rotation_authorized";
   "real_user_enrollment_authorized"].
Definition SAFETY_KEYS : list string := "read_only" :: unauthorized ++ ["notes"].
Definition REQUIRED_LANE_KINDS : list string :=
  ["contract"; "sdk-clean-consumer"; "browser"; "security"; "migration"; "recovery"; "scale";
   "rollback"].
Definition DESTRUCTIVE_LANE_KINDS : list string := ["security"; "recovery"; "scale"; "rollback"].
Definition STATUSES : list string := ["planned"; "verified"; "blocked"].
Definition LANE_STATUSES : list string := ["planned"; "green"; "red"; "blocked"].
Definition ENVIRONMENTS : list string := ["production"; "test"; "shared-tooling"].
Definition VISIBILITIES : list string := ["public"; "private"; "internal"].
Definition DECISIONS : list string := ["go"; "hold"; "stop"].
Definition PROHIBITED_FIELDS : list string :=
  ["raw_prompt"; "prompt_text"; "message_body"; "credential"; "access_token"; "api_key";
   "private_key"; "secret_value"].

(** ** Patterns *)

Definition BRANCH : string → bool := rx_rep (λ c, is_alnum c || one_of "._/-" c) 1 200.
Definition LINEAR (s : string) : bool :=
  starts_with s "DEN-"
  && match String.substring 4 (String.length s - 4) s with
     | String c s => in_range "1" "9" c && all_chars is_digit s
     | EmptyString => false
     end.
Definition GIT_SHA : string → bool := rx_rep is_hex 40 40.

Definition EMAIL : regex :=
  Seq WordBoundary (Seq (Plus (Class (either_case (λ c, is_upper c || is_digit c || one_of "._%+-" c))))
    (Seq (Lit "@") (Seq (Plus (Class (either_case (λ c, is_upper c || is_digit c || one_of ".-" c))))
      (Seq (Lit ".") (Seq (AtLeast 2 (Class (either_case is_upper))) WordBoundary))))).

Definition token_char (c : ascii) : bool := is_alnum c || (code c =? 95)%N.
Definition credential_char (c : ascii) : bool := is_alnum c || one_of "._~+/=-" c.
Definition spaces : regex := Star (Class is_space).
(** [api[_-]?key] in either case *)
Definition api_key : regex := Seq (ILit "api") (Seq (Opt (Class (one_of "_-"))) (ILit "key")).

Definition SECRET_PATTERNS : list regex :=
  [Seq WordBoundary (Seq (Lit "ghp_") (Seq (AtLeast 16 (Class is_alnum)) WordBoundary));
   Seq WordBoundary (Seq (Lit "github_pat_") (Seq (AtLeast 16 (Class token_char)) WordBoundary));
   Seq WordBoundary (Seq (Lit "lin_api_") (Seq (AtLeast 16 (Class token_char)) WordBoundary));
   Seq WordBoundary (Seq (Alt (ILit "bearer") (ILit "basic"))
     (Seq (Plus (Class is_space)) (AtLeast 20 (Class credential_char))));
   Seq (Class (one_of "?&"))
     (Seq (alternatives [ILit "token"; ILit "access_token"; api_key; ILit "secret"; ILit "password"])
       (Lit "="));
   Seq WordBoundary
     (Seq (alternatives [ILit "token"; api_key; ILit "secret"; ILit "password"])
       (Seq spaces (Seq (Class (one_of ":=")) (Seq spaces (AtLeast 12 (Class credential_char))))));
   Seq (Lit "-----BEGIN ")
     (Seq (Opt (alternatives [Lit "RSA "; Lit "EC "; Lit "OPENSSH "])) (Lit "PRIVATE KEY-----"))].

Definition sensitive (s : string) : bool :=
  Regex.search EMAIL s || existsb (λ p, Regex.search p s) SECRET_PATTERNS.

Definition manifest_error (msg : string) : exn := Exn ManifestError msg.

Definition _pairs (pairs : list (string * value)) : result items := pairs_of ManifestError pairs.

Fixpoint _walk (v : value) (path : string) : list string :=
  match v with
  | VDict d =>
      flat_map (λ kv,
        (if mem_str (casefold kv.1) PROHIBITED_FIELDS
         then [path +:+ "." +:+ kv.1 +:+ " is a prohibited sensitive field"] else [])
        ++ _walk kv.2 (path +:+ "." +:+ kv.1)) d
  | VList l =>
      (fix go (index : nat) (l : list value) : list string :=
         match l with
         | [] => []
         | x :: l => _walk x (path +:+ "[" +:+ str_nat index +:+ "]") ++ go (S index) l
         end) O l
  | VStr s =>
      (if MAX_TEXT <? slen s then [path +:+ " exceeds the text bound"] else [])
      ++ (if sensitive s
          then [path +:+ " contains prohibited personal or credential material"] else [])
  | _ => []
  end.

(** ** Field checks *)

Definition _array (v : value) (path : string) (minimum maximum : Z) : checked (list value) :=
  match v with
  | VList l =>
      complain_if (negb ((minimum <=? Z.of_nat (length l)) && (Z.of_nat (length l) <=? maximum)))
        (path +:+ " must contain between " +:+ str_int minimum +:+ " and " +:+ str_int maximum
         +:+ " items") ;;
      pass l
  | _ => complain (path +:+ " must be an array") ;; pass []
  end.

Definition _text (v : value) (path : string) (minimum maximum : Z) : checked (option string) :=
  let complaint :=
    complain (path +:+ " must be text of length " +:+ str_int minimum +:+ ".."
      +:+ str_int maximum) ;; pass None in
  match v with
  | VStr s => if (minimum <=? slen s) && (slen s <=? maximum) then pass (Some s) else complaint
  | _ => complaint
  end.

(** A text of a shape; a text of another shape is complained of, and kept. *)
Definition kept_text (shape : string → bool) (complaint : string) (v : value) (path : string)
    (minimum maximum : Z) : checked (option string) :=
  text ← _text v path minimum maximum;
  complain_if (match text with Some s => negb (shape s) | None => false end) (path +:+ complaint) ;;
  pass text.

Definition _slug (v : value) (path : string) : checked (option string) :=
  kept_text SLUG " must be a lowercase slug" v path 3 96.

Definition _strings (v : value) (path : string) (minimum maximum : Z) : checked (list string) :=
  items ← _array v path minimum maximum;
  texts ← check_each 0 items (λ index raw texts,
    text ← _text raw (path +:+ "[" +:+ str_nat index +:+ "]") 1 500;
    pass (texts ++ match text with Some text => [text] | None => [] end)) [];
  complain_if (negb (bool_decide (NoDup texts))) (path +:+ " must not contain duplicates") ;;
  pass texts.

Definition _count (v : value) (path : string) : checked (option Z) :=
  let complaint := complain (path +:+ " must be null or a non-negative integer") ;; pass None in
  match v with
  | VNone => pass None
  | VInt z => if z <? 0 then complaint else pass (Some z)
  | _ => complaint
  end.

(** The instant is not used. *)
Definition _timestamp (v : value) (path : string) : checked unit :=
  text ← _text v path 20 64;
  match text with
  | None => pass tt
  | Some s =>
      match fromisoformat (str_replace s "Z" utc_suffix) with
      | None => complain (path +:+ " must be ISO-8601")
      | Some (_, None) => complain (path +:+ " must include a UTC offset")
      | Some (_, Some _) => pass tt
      end
  end.

Definition is_github_repo (u : Url.url) : bool :=
  String.eqb (Url.scheme u) "https" && String.eqb (Url.netloc u) "github.com"
  && Url.is_empty (Url.query u) && Url.is_empty (Url.fragment u)
  && (length (List.filter (λ part, negb (Url.is_empty part)) (Url.str_split "/" (Url.path u)))
      =? 2)%nat.

Definition _github_repo (v : value) (path : string) : checked (option string) :=
  text ← _text v path 20 300;
  match text with
  | None => pass None
  | Some s =>
      parsed ← lift (Url.urlparse s);
      complain_if (negb (is_github_repo parsed))
        (path +:+ " must be an exact GitHub repository URL") ;;
      pass (Some s)
  end.

Definition _optional_pattern (v : value) (path : string) (pattern : string → bool) (length : Z)
    (name : string) : checked (option string) :=
  if is_none v then pass None
  else kept_text pattern (" must be null or a lowercase " +:+ name) v path length length.

Definition _normalize_objects (v : value) (expected : list string) (path : string)
  : checked (list items) :=
  raws ← _array v path 1 10000;
  check_each 0 raws (λ index raw objects,
    object ← _exact_object raw expected (path +:+ "[" +:+ str_nat index +:+ "]");
    pass (objects ++ [object])) [].

(** [if not isinstance(item.get(field), bool)] for each field. *)
Definition booleans (item : items) (path : string) (fields : list string) : checked unit :=
  check_each 0 fields (λ _ field _,
    complain_if (match dict_get item field with VBool _ => false | _ => true end)
      (path +:+ "." +:+ field +:+ " must be boolean")) tt.

(** ** Coverage *)

Record coverage : Type := Coverage {
  catalog_complete : bool;
  expected_count : option Z;
  observed_count : option Z;
  unresolved_count : option Z;
}.

Definition check_coverage (root : items) : checked coverage :=
  coverage ← _exact_object (dict_get root "coverage") COVERAGE_KEYS "coverage";
  complete ← match dict_get coverage "catalog_complete" with
             | VBool b => pass b
             | _ => complain "coverage.catalog_complete must be boolean" ;; pass false
             end;
  expected ← _count (dict_get coverage "expected_repository_count")
    "coverage.expected_repository_count";
  observed ← _count (dict_get coverage "observed_repository_count")
    "coverage.observed_repository_count";
  unresolved ← _count (dict_get coverage "unresolved_repository_count")
    "coverage.unresolved_repository_count";
  pass (Coverage complete expected observed unresolved).

Definition check_counts (c : coverage) (repositories : list items) : checked unit :=
  complain_if
    (match observed_count c with
     | Some n => negb (n =? Z.of_nat (length repositories))
     | None => false
     end) "coverage.observed_repository_count must equal repositories length" ;;
  complain_if
    (match expected_count c, observed_count c, unresolved_count c with
     | Some expected, Some observed, Some unresolved => negb (observed + unresolved =? expected)
     | _, _, _ => false
     end)
    "observed_repository_count + unresolved_repository_count must equal expected_repository_count".

(** ** Repositories *)

Definition check_repository (index : nat) (item : items) (seen : list string * list string)
  : checked (list string * list string) :=
  let '(ids, urls) := seen in
  let path := "repositories[" +:+ str_nat index +:+ "]" in
  repository_id ← _slug (dict_get item "id") (path +:+ ".id");
  ids ← identity "repository id" repository_id ids;
  url ← _github_repo (dict_get item "github_url") (path +:+ ".github_url");
  urls ← identity "repository URL" url urls;
  _text (dict_get item "role") (path +:+ ".role") 3 120 ;;
  supported (dict_get item "environment") ENVIRONMENTS (path +:+ ".environment") ;;
  let status := dict_get item "status" in
  supported status STATUSES (path +:+ ".status") ;;
  head ← _optional_pattern (dict_get item "head_sha") (path +:+ ".head_sha") GIT_SHA 40 "Git SHA";
  kept_text BRANCH " has an invalid format" (dict_get item "default_branch")
    (path +:+ ".default_branch") 1 200 ;;
  supported (dict_get item "visibility") VISIBILITIES (path +:+ ".visibility") ;;
  booleans item path ["archived"; "superseded"] ;;
  kept_text LINEAR " must be a DEN-N identifier" (dict_get item "linear_anchor")
    (path +:+ ".linear_anchor") 5 32 ;;
  complain_if (py_eq status (VStr "verified") && negb (is_some head))
    (path +:+ ".head_sha is required when status is verified") ;;
  pass (ids, urls).

(** ** Lanes *)

Record lane_index : Type := LaneIndex {
  lane_ids : list string;
  lanes_by_id : list (string * items);
  lanes_by_kind : list (string * list items);
}.

(** [lanes_by_kind.setdefault(kind, []).append(item)] *)
Definition add_kind (index : list (string * list items)) (kind : string) (item : items)
  : list (string * list items) :=
  assoc_set index kind (default [] (assoc_get index kind) ++ [item]).

Definition check_lane (index : nat) (item : items) (seen : lane_index) : checked lane_index :=
  let path := "lanes[" +:+ str_nat index +:+ "]" in
  lane_id ← _slug (dict_get item "id") (path +:+ ".id");
  ids ← identity "lane id" lane_id (lane_ids seen);
  kind ← _slug (dict_get item "kind") (path +:+ ".kind");
  let status := dict_get item "status" in
  supported status LANE_STATUSES (path +:+ ".status") ;;
  head ← _optional_pattern (dict_get item "head_sha") (path +:+ ".head_sha") GIT_SHA 40 "Git SHA";
  evidence ← _optional_pattern (dict_get item "evidence_sha256") (path +:+ ".evidence_sha256")
    SHA256 64 "SHA-256 digest";
  booleans item path ["destructive"; "independent"] ;;
  blockers ← _strings (dict_get item "blockers") (path +:+ ".blockers") 0 1000;
  complain_if (py_eq status (VStr "green")
               && (negb (is_some head) || negb (is_some evidence) || negb (bool_decide (blockers = []))))
    (path +:+ " green lane requires head, evidence, and zero blockers") ;;
  pass (LaneIndex ids
    (match lane_id with Some s => assoc_set (lanes_by_id seen) s item | None => lanes_by_id seen end)
    (match kind with Some s => add_kind (lanes_by_kind seen) s item | None => lanes_by_kind seen end)).

(** ** Capabilities and artifacts *)

Definition check_references (path kind : string) (references known : list string) : checked unit :=
  check_each 0 references (λ _ name _,
    complain_if (negb (mem_str name known))
      (path +:+ " references unknown " +:+ kind +:+ " " +:+ name)) tt.

Definition check_capability (repository_ids lane_ids : list string) (index : nat) (item : items)
    (ids : list string) : checked (list string) :=
  let path := "capabilities[" +:+ str_nat index +:+ "]" in
  capability_id ← _slug (dict_get item "id") (path +:+ ".id");
  ids ← identity "capability id" capability_id ids;
  repositories ← _strings (dict_get item "implementation_repositories")
    (path +:+ ".implementation_repositories") 1 1000;
  check_references path "repository" repositories repository_ids ;;
  lanes ← _strings (dict_get item "independent_lanes") (path +:+ ".independent_lanes") 1 1000;
  check_references path "lane" lanes lane_ids ;;
  complain_if
    (match dict_get item "maturity" with
     | VInt n => negb ((0 <=? n) && (n <=? 5))
     | _ => true
     end) (path +:+ ".maturity must be an integer from 0 through 5") ;;
  supported (dict_get item "status") STATUSES (path +:+ ".status") ;;
  _strings (dict_get item "blockers") (path +:+ ".blockers") 0 1000 ;;
  pass ids.

Definition check_artifact (repository_ids : list string) (index : nat) (item : items)
    (ids : list string) : checked (list string) :=
  let path := "artifacts[" +:+ str_nat index +:+ "]" in
  artifact_id ← _slug (dict_get item "id") (path +:+ ".id");
  ids ← identity "artifact id" artifact_id ids;
  repository_id ← _slug (dict_get item "repository_id") (path +:+ ".repository_id");
  match repository_id with
  | Some s => check_references path "repository" [s] repository_ids
  | None => pass tt
  end ;;
  _slug (dict_get item "kind") (path +:+ ".kind") ;;
  let status := dict_get item "status" in
  supported status STATUSES (path +:+ ".status") ;;
  sha ← _optional_pattern (dict_get item "sha256") (path +:+ ".sha256") SHA256 64 "SHA-256 digest";
  provenance ← _optional_pattern (dict_get item "provenance_sha256") (path +:+ ".provenance_sha256")
    SHA256 64 "SHA-256 digest";
  complain_if (py_eq status (VStr "verified") && (negb (is_some sha) || negb (is_some provenance)))
    (path +:+ " verified artifact requires content and provenance digests") ;;
  pass ids.

(** ** Decision and safety *)

Definition check_decision (root : items) : checked (value * list string) :=
  decision ← _exact_object (dict_get root "decision") DECISION_KEYS "decision";
  supported (dict_get decision "value") DECISIONS "decision.value" ;;
  _text (dict_get decision "rationale") "decision.rationale" 12 1000 ;;
  approved_by ← _strings (dict_get decision "approved_by") "decision.approved_by" 0 1000;
  _timestamp (dict_get decision "decided_at") "decision.decided_at" ;;
  pass (dict_get decision "value", approved_by).

Definition check_safety (root : items) : checked unit :=
  safety ← _exact_object (dict_get root "safety") SAFETY_KEYS "safety";
  complain_if (negb (is_bool (dict_get safety "read_only") true)) "safety.read_only must be true" ;;
  check_each 0 unauthorized (λ _ field _,
    complain_if (negb (is_bool (dict_get safety field) false))
      ("safety." +:+ field +:+ " must be false")) tt ;;
  _strings (dict_get safety "notes") "safety.notes" 1 20 ;;
  pass tt.

(** ** The manifest *)

(** What the checks leave for the closure decision. *)
Record manifest : Type := Manifest {
  m_coverage : coverage;
  repositories : list items;
  lanes : list items;
  index : lane_index;
  capabilities : list items;
  artifacts : list items;
  m_blockers : list string;
  decision_value : value;
  approved_by : list string;
}.

Definition check_manifest (v : value) : checked manifest :=
  Done tt (_walk v "$") ;;
  root ← _exact_object v ROOT_KEYS "$";
  complain_if (negb (py_eq (dict_get root "schema_version") (VStr SCHEMA)))
    ("schema_version must be " +:+ SCHEMA) ;;
  _slug (dict_get root "release_id") "release_id" ;;
  _timestamp (dict_get root "generated_at") "generated_at" ;;
  coverage ← check_coverage root;
  repositories ← _normalize_objects (dict_get root "repositories") REPOSITORY_KEYS "repositories";
  '(repository_ids, _) ← check_each 0 repositories check_repository ([], []);
  check_counts coverage repositories ;;
  lanes ← _normalize_objects (dict_get root "lanes") LANE_KEYS "lanes";
  index ← check_each 0 lanes check_lane (LaneIndex [] [] []);
  capabilities ← _normalize_objects (dict_get root "capabilities") CAPABILITY_KEYS "capabilities";
  check_each 0 capabilities (check_capability repository_ids (lane_ids index)) [] ;;
  artifacts ← _normalize_objects (dict_get root "artifacts") ARTIFACT_KEYS "artifacts";
  check_each 0 artifacts (check_artifact repository_ids) [] ;;
  blockers ← _strings (dict_get root "blockers") "blockers" 0 1000;
  '(decision_value, approved_by) ← check_decision root;
  check_safety root ;;
  pass (Manifest coverage repositories lanes index capabilities artifacts blockers decision_value
          approved_by).

(** ** Closure *)

(** [bool(v)] *)
Definition truthy (v : value) : bool :=
  match v with
  | VNone => false
  | VBool b => b
  | VInt z => negb (z =? 0)
  | VFloat (S754_zero _) => false
  | VFloat _ => true
  | VStr s => negb (String.eqb s EmptyString)
  | VList l => negb (bool_decide (length l = 0%nat))
  | VDict d => negb (bool_decide (length d = 0%nat))
  end.

(** [iter(v)] *)
Definition not_iterable (type : string) : exn :=
  Exn TypeError ("'" +:+ type +:+ "' object is not iterable").
Definition iterate (v : value) : result (list value) :=
  match v with
  | VList l => Ok l
  | VDict d => Ok (map VStr (dict_keys d))
  | VStr s => Ok (map (λ c, VStr (String c EmptyString)) (String.list_ascii_of_string s))
  | VNone => Raise (not_iterable "NoneType")
  | VBool _ => Raise (not_iterable "bool")
  | VInt _ => Raise (not_iterable "int")
  | VFloat _ => Raise (not_iterable "float")
  end.

(** [any(p(x) for x in l)], which stops at the first hit. *)
Fixpoint any_of (p : value → result bool) (l : list value) : result bool :=
  match l with
  | [] => Ok false
  | x :: l => hit ← p x; if hit : bool then Ok true else any_of p l
  end.

Definition is_status (item : items) (status : string) : bool :=
  py_eq (dict_get item "status") (VStr status).

Definition lane_fails (by_id : list (string * items)) (lane_id : value) : result bool :=
  key ← text_key lane_id;
  let lane := default [] (match key with Some s => assoc_get by_id s | None => None end) in
  Ok (negb (is_status lane "green") || negb (is_bool (dict_get lane "independent") true)).

Definition coverage_reasons (c : coverage) : list string :=
  (if catalog_complete c then [] else ["catalog_complete must be true"])
  ++ match expected_count c, observed_count c, unresolved_count c with
     | Some expected, Some observed, Some unresolved =>
         if negb (unresolved =? 0) || negb (expected =? observed)
         then ["repository coverage must be complete"] else []
     | _, _, _ => ["coverage counts must be known"]
     end.

Definition not_releasable (item : items) : bool :=
  negb (is_status item "verified") || is_none (dict_get item "head_sha")
  || is_bool (dict_get item "archived") true || is_bool (dict_get item "superseded") true.

Definition immature (v : value) : bool :=
  match v with VInt n => n <? 4 | _ => true end.

Definition lacks_evidence (by_id : list (string * items)) (item : items) : result bool :=
  let lane_refs := dict_get_or item "independent_lanes" (VList []) in
  if negb (is_status item "verified") || immature (dict_get item "maturity")
     || truthy (dict_get item "blockers") || negb (truthy lane_refs)
  then Ok true
  else refs ← iterate lane_refs; any_of (lane_fails by_id) refs.

Definition not_verified (item : items) : bool :=
  negb (is_status item "verified") || is_none (dict_get item "sha256")
  || is_none (dict_get item "provenance_sha256").

(** The reason each item gives, by its position. *)
Definition reasons_each (l : list items) (p : items → result bool) (reason : nat → string)
  : result (list string) :=
  for_enum 0 l (λ i item reasons, hit ← p item;
    Ok (reasons ++ if hit : bool then [reason i] else [])) [].

Definition certified (kind : string) (lane : items) : bool :=
  is_status lane "green" && is_bool (dict_get lane "independent") true
  && (negb (mem_str kind DESTRUCTIVE_LANE_KINDS) || is_bool (dict_get lane "destructive") true).

Section validate.
(** The iteration order of the set [REQUIRED_LANE_KINDS]. *)
Context (kind_order : list string).

Definition kind_reasons (by_kind : list (string * list items)) : list string :=
  let missing := sorted_diff REQUIRED_LANE_KINDS (by_kind.*1) in
  (if bool_decide (missing = []) then []
   else ["missing required lane kinds: " +:+ str_join ", " missing])
  ++ flat_map (λ kind,
       if existsb (certified kind) (default [] (assoc_get by_kind kind)) then []
       else ["required lane kind is not certified: " +:+ kind]) kind_order.

Definition closure_reasons (m : manifest) : result (list string) :=
  repository_reasons ← reasons_each (repositories m) (λ item, Ok (not_releasable item))
    (λ i, "repository " +:+ str_nat i +:+ " is not releasable");
  capability_reasons ← reasons_each (capabilities m) (lacks_evidence (lanes_by_id (index m)))
    (λ i, "capability " +:+ str_nat i +:+ " lacks independent maturity-four evidence");
  artifact_reasons ← reasons_each (artifacts m) (λ item, Ok (not_verified item))
    (λ i, "artifact " +:+ str_nat i +:+ " is not verified");
  Ok (coverage_reasons (m_coverage m) ++ repository_reasons ++ capability_reasons
      ++ artifact_reasons ++ kind_reasons (lanes_by_kind (index m))
      ++ (if bool_decide (m_blockers m = []) then [] else ["manifest blockers must be empty"])
      ++ (if py_eq (decision_value m) (VStr "go") && negb (bool_decide (approved_by m = []))
          then [] else ["decision must be approved go"])).

Record ManifestReport : Type := mkManifestReport {
  valid : bool;
  closure_ready : bool;
  mode : string;
  manifest_sha256 : option string;
  repository_count : nat;
  capability_count : nat;
  artifact_count : nat;
  lane_count : nat;
  errors : list string;
  warnings : list string;
}.

Definition closure_errors (m : manifest) (mode : string) (reasons : list string) : list string :=
  (if py_eq (decision_value m) (VStr "go") && negb (bool_decide (reasons = []))
   then ["decision.value cannot be go before closure: " +:+ str_join "; " reasons] else [])
  ++ (if String.eqb mode "closure" && negb (bool_decide (reasons = []))
      then map (λ reason, "closure: " +:+ reason) reasons else []).

Definition manifest_warnings (m : manifest) : list string :=
  (if catalog_complete (m_coverage m) then []
   else ["catalog is incomplete; closure is blocked"])
  ++ (if bool_decide (m_blockers m = []) then []
      else ["manifest has " +:+ str_nat (length (m_blockers m)) +:+ " explicit blocker(s)"]).

(** [digest] renders NaN and infinities, so it never raises. *)
Definition validate (v : value) (mode : string) : result ManifestReport :=
  raise_if (negb (mem_str mode ["planning"; "closure"]))
    (manifest_error "mode must be planning or closure") ;;
  match check_manifest v with
  | Failed e => Raise e
  | Done m errors =>
      reasons ← closure_reasons m;
      let errors := errors ++ closure_errors m mode reasons in
      Ok (mkManifestReport (bool_decide (errors = []))
            (bool_decide (reasons = []) && bool_decide (errors = [])) mode
            (Some (sha256_value v)) (length (repositories m)) (length (capabilities m))
            (length (artifacts m)) (length (lanes m)) errors (manifest_warnings m))
  end.
End validate.

End Release.
