(* ===== verification/ReleaseTheorems.v ===== *)
(** * Release manifest: results

    When [validate] reports a manifest as closure-ready, how the verdict
    depends on the mode and the decision, and that it does not depend on the
    iteration order of the set of required lane kinds. *)
From S2P Require Import Prelude PyValue Sha256 Json Contract DateTime RecoveryCommon GitObjects.
From S2P Require Import Collect Url Fields Release.
From Stdlib Require Import Ascii.

Module ReleaseTheorems.
Import Release.
Open Scope Z_scope.

(** ** What the checks of a field accept *)

Lemma array_clean v path lo hi l : _array v path lo hi = Done l [] → v = VList l.
Proof. unfold _array. destruct v; intros H; by cleaned. Qed.

Lemma release_text_clean v path lo hi o :
  _text v path lo hi = Done o [] → ∃ s, v = VStr s ∧ o = Some s.
Proof.
  unfold _text. destruct v; try (intros H; by cleaned).
  destruct (_ && _); intros H; [cleaned; eauto|by cleaned].
Qed.

Lemma kept_text_clean shape msg v path lo hi o :
  kept_text shape msg v path lo hi = Done o [] → ∃ s, v = VStr s ∧ o = Some s ∧ shape s = true.
Proof.
  unfold kept_text. intros H. apply bind_clean in H as (t & (s & -> & ->)%release_text_clean & H).
  cleaned. bool_hyps. eauto.
Qed.

Lemma optional_pattern_clean v path p n name o :
  _optional_pattern v path p n name = Done o [] →
  v = opt_str o ∧ ∀ s, o = Some s → p s = true.
Proof.
  unfold _optional_pattern. destruct (is_none v) eqn:Hn; intros H.
  - apply is_none_true in Hn as ->. by cleaned.
  - apply kept_text_clean in H as (s & -> & -> & Hp). split; [done|by intros ? [= <-]].
Qed.

Lemma release_texts_loop path i l texts r :
  check_each i l (λ index raw texts,
    text ← _text raw (path +:+ "[" +:+ str_nat index +:+ "]") 1 500;
    pass (texts ++ match text with Some text => [text] | None => [] end)) texts = Done r [] →
  ∃ ss, l = map VStr ss ∧ r = texts ++ ss.
Proof.
  revert i texts; induction l as [|v l IH]; intros i texts; simpl.
  - intros H. cleaned. exists []. by rewrite app_nil_r.
  - intros H. apply bind_clean in H as (t & Ht & H).
    apply bind_clean in Ht as (o & (s & -> & ->)%release_text_clean & Ht). cleaned.
    apply IH in H as (ss & -> & ->). exists (s :: ss). by rewrite <- app_assoc.
Qed.

Lemma release_strings_clean v path lo hi l :
  _strings v path lo hi = Done l [] → v = strs l ∧ NoDup l.
Proof.
  unfold _strings. intros H. apply bind_clean in H as (vs & ->%array_clean & H).
  apply bind_clean in H as (r & Hr & H). cleaned.
  apply release_texts_loop in Hr as (ss & -> & Hss). simpl in Hss. subst. by bool_hyps.
Qed.

Lemma count_clean v path o :
  _count v path = Done o [] → v = VNone ∧ o = None ∨ ∃ z, v = VInt z ∧ o = Some z ∧ 0 <= z.
Proof.
  unfold _count. destruct v; try (intros H; by cleaned).
  - intros H. cleaned. by left.
  - destruct (Z.ltb_spec z 0); intros H'; [by cleaned|]. cleaned. right. eauto.
Qed.

Lemma normalize_clean v expected path l :
  _normalize_objects v expected path = Done l [] → v = VList (map VDict l).
Proof.
  unfold _normalize_objects. intros H. apply bind_clean in H as (raws & ->%array_clean & H).
  enough (∀ i acc, check_each i raws (λ index raw objects,
      object ← _exact_object raw expected (path +:+ "[" +:+ str_nat index +:+ "]");
      pass (objects ++ [object])) acc = Done l [] → ∃ ds, raws = map VDict ds ∧ l = acc ++ ds)
    as Hloop by (by destruct (Hloop _ _ H) as (ds & -> & ->)).
  clear H. induction raws as [|raw raws IH]; intros i acc; simpl; intros H.
  - cleaned. exists []. by rewrite app_nil_r.
  - apply bind_clean in H as (acc1 & Ho & H).
    apply bind_clean in Ho as (d & [-> _]%exact_object_clean & Ho). cleaned.
    destruct (IH _ _ H) as (ds & -> & ->). exists (d :: ds). by rewrite <- app_assoc.
Qed.

Lemma booleans_clean item path fields u :
  booleans item path fields = Done u [] → ∀ field, field ∈ fields → ∃ b, dict_get item field = VBool b.
Proof.
  unfold booleans. rewrite check_each_clean. intros H field (j & Hj)%list_elem_of_lookup.
  specialize (H j field Hj). apply complain_if_clean in H.
  destruct (dict_get item field); try done. eauto.
Qed.

Lemma references_clean path kind l known u :
  check_references path kind l known = Done u [] → ∀ s, s ∈ l → s ∈ known.
Proof.
  unfold check_references. rewrite check_each_clean. intros H s (j & Hj)%list_elem_of_lookup.
  specialize (H j s Hj). apply complain_if_clean, negb_false_iff in H. by apply mem_str_In.
Qed.

#[global] Arguments _array : simpl never.
#[global] Arguments _text : simpl never.
#[global] Arguments kept_text : simpl never.
#[global] Arguments _slug : simpl never.
#[global] Arguments _strings : simpl never.
#[global] Arguments _count : simpl never.
#[global] Arguments _timestamp : simpl never.
#[global] Arguments _github_repo : simpl never.
#[global] Arguments _optional_pattern : simpl never.
#[global] Arguments _normalize_objects : simpl never.
#[global] Arguments booleans : simpl never.
#[global] Arguments check_references : simpl never.

Ltac fields :=
  repeat (clean_step ||
    match goal with
    | H : supported _ _ _ = Done _ [] |- _ =>
        let E := fresh "Hset" in apply supported_clean in H as (? & E & ?)
    | H : _slug _ _ = Done _ [] |- _ => unfold _slug in H
    | H : kept_text _ _ _ _ _ _ = Done _ [] |- _ =>
        let E := fresh "Htext" in apply kept_text_clean in H as (? & E & -> & ?)
    | H : Release._text _ _ _ _ = Done _ [] |- _ =>
        let E := fresh "Htext" in apply release_text_clean in H as (? & E & ->)
    | H : _strings _ _ _ _ = Done _ [] |- _ =>
        let E := fresh "Hstrs" in apply release_strings_clean in H as [E ?]
    | H : _optional_pattern _ _ _ _ _ = Done _ [] |- _ =>
        let E := fresh "Hopt" in apply optional_pattern_clean in H as [E ?]
    | H : booleans _ _ _ = Done _ [] |- _ =>
        let E := fresh "Hbool" in pose proof (booleans_clean _ _ _ _ H) as E; clear H
    | H : check_references _ _ _ _ = Done _ [] |- _ =>
        let E := fresh "Hrefs" in pose proof (references_clean _ _ _ _ _ H) as E; clear H
    | H : identity _ (Some _) _ = Done _ [] |- _ =>
        let E := fresh "Hnew" in apply identity_clean in H as [E ->]
    end).

(** ** What the records of a manifest say *)

Definition id_of (d : items) : string := text_at d "id".
Definition kind_of (d : items) : string := text_at d "kind".
Definition status_is (d : items) (s : string) : Prop := dict_get d "status" = VStr s.

Record repository_ok (r : items) : Prop := {
  repository_named : dict_get r "id" = VStr (id_of r) ∧ SLUG (id_of r) = true;
  repository_head : ∀ h, dict_get r "head_sha" = VStr h → GIT_SHA h = true;
  repository_head_typed : dict_get r "head_sha" = VNone ∨ ∃ h, dict_get r "head_sha" = VStr h;
  repository_flags : ∀ flag, flag ∈ ["archived"; "superseded"] → ∃ b, dict_get r flag = VBool b;
}.

(** A green lane has run at an exact head, with evidence and no blocker. *)
Record lane_ok (l : items) : Prop := {
  lane_named : dict_get l "id" = VStr (id_of l) ∧ dict_get l "kind" = VStr (kind_of l);
  lane_green : status_is l "green" →
    ∃ head evidence, dict_get l "head_sha" = VStr head ∧ GIT_SHA head = true ∧
      dict_get l "evidence_sha256" = VStr evidence ∧ SHA256 evidence = true ∧
      dict_get l "blockers" = VList [];
}.

Record capability_ok (repositories lanes : list string) (c : items) : Prop := {
  capability_repositories : ∃ names, dict_get c "implementation_repositories" = strs names ∧
    ∀ s, s ∈ names → s ∈ repositories;
  capability_lanes : ∃ names, dict_get c "independent_lanes" = strs names ∧
    ∀ s, s ∈ names → s ∈ lanes;
  capability_maturity : ∃ n, dict_get c "maturity" = VInt n ∧ 0 <= n <= 5;
  capability_blockers : ∃ l, dict_get c "blockers" = strs l;
}.

Record artifact_ok (repositories : list string) (a : items) : Prop := {
  artifact_repository : ∃ s, dict_get a "repository_id" = VStr s ∧ s ∈ repositories;
  artifact_digests : ∀ key, key ∈ ["sha256"; "provenance_sha256"] →
    dict_get a key = VNone ∨ ∃ s, dict_get a key = VStr s ∧ SHA256 s = true;
}.

Lemma opt_digest v (o : option string) (p : string → bool) :
  v = opt_str o → (∀ s, o = Some s → p s = true) → v = VNone ∨ ∃ s, v = VStr s ∧ p s = true.
Proof. destruct o as [s|]; simpl; [right; eauto|by left]. Qed.

Lemma release_repository_clean i r ids urls ids' urls' :
  check_repository i r (ids, urls) = Done (ids', urls') [] →
  repository_ok r ∧ id_of r ∉ ids ∧ ids' = ids ++ [id_of r].
Proof.
  unfold check_repository. cbv zeta. intros H. fields.
  match goal with E : (_, _) = (_, _) |- _ => injection E as <- <- end.
  unfold id_of. read_at. split; [|done]. constructor; unfold id_of; read_at; try done.
  - rewrite Hopt. intros h Hh. destruct a6; simpl in Hh; [|done]. injection Hh as <-. eauto.
  - rewrite Hopt. destruct a6; [right; by eexists|by left].
Qed.

Lemma NoDup_snoc {A} (l : list A) x : NoDup l → x ∉ l → NoDup (l ++ [x]).
Proof.
  intros Hl Hx. apply NoDup_app. split; [done|]. split; [|apply NoDup_singleton].
  by intros y Hy ->%list_elem_of_singleton.
Qed.

Lemma release_repositories_loop i rs ids urls ids' urls' :
  check_each i rs check_repository (ids, urls) = Done (ids', urls') [] → NoDup ids →
  Forall repository_ok rs ∧ ids' = ids ++ map id_of rs ∧ NoDup ids'.
Proof.
  revert i ids urls; induction rs as [|r rs IH]; intros i ids urls; simpl.
  - intros H Hnd. apply (proj1 (pass_clean _ _)) in H. injection H as <- <-.
    rewrite app_nil_r. by split.
  - intros H Hnd. apply bind_clean in H as ([ids1 urls1] & Hr & H).
    apply release_repository_clean in Hr as (Hok & Hnew & ->).
    apply IH in H as (Hall & -> & Hnd'); [|by apply NoDup_snoc].
    rewrite <- app_assoc. split; [by constructor|]. split; [done|]. by rewrite <- app_assoc in Hnd'.
Qed.

(** ** Lanes, by identity and by kind *)

Record indexed (ls : list items) (index : lane_index) : Prop := {
  indexed_ids : lane_ids index = map id_of ls;
  indexed_NoDup : NoDup (map id_of ls);
  indexed_by_id : lanes_by_id index = map (λ l, (id_of l, l)) ls;
  indexed_by_kind : ∀ kind l, l ∈ default [] (assoc_get (lanes_by_kind index) kind) ↔
    l ∈ ls ∧ kind_of l = kind;
}.

Lemma green_complete status (head evidence : option string) (blockers : list string) :
  py_eq status (VStr "green")
    && (negb (is_some head) || negb (is_some evidence) || negb (bool_decide (blockers = []))) = false →
  status = VStr "green" → ∃ h e, head = Some h ∧ evidence = Some e ∧ blockers = [].
Proof.
  intros H ->. cbn [py_eq] in H. rewrite String.eqb_refl in H. simpl in H.
  destruct head, evidence; try done. simpl in H. bool_hyps. eauto.
Qed.

Lemma lane_clean i l ls index index' :
  check_lane i l index = Done index' [] → indexed ls index →
  lane_ok l ∧ indexed (ls ++ [l]) index'.
Proof.
  unfold check_lane. cbv zeta. intros H [Hids Hnd Hby Hkind]. fields. split.
  - constructor; unfold id_of, kind_of, status_is; read_at; [done|]. intros Hg.
    match goal with E : py_eq _ _ && _ = false |- _ =>
      destruct (green_complete _ _ _ _ E Hg) as (h & e & -> & -> & ->) end.
    simpl in *. eauto 10.
  - assert (id_of l = x1) as Hid by (unfold id_of; by read_at).
    assert (kind_of l = x0) as Hk by (unfold kind_of; by read_at).
    rewrite Hids in Hnew. rewrite <- Hid in Hnew.
    constructor; cbn [lane_ids lanes_by_id lanes_by_kind]; rewrite ?map_app; cbn [map].
    + by rewrite Hids, Hid.
    + by apply NoDup_snoc.
    + rewrite Hby, <- Hid. apply assoc_set_fresh. by rewrite <- list_fmap_compose.
    + intros k m. unfold add_kind. rewrite assoc_get_set, elem_of_app, list_elem_of_singleton.
      destruct (String.eqb_spec k x0) as [->|Hne].
      * simpl. rewrite elem_of_app, list_elem_of_singleton, Hkind. naive_solver.
      * rewrite Hkind. naive_solver.
Qed.

Lemma lanes_loop i new ls index index' :
  check_each i new check_lane index = Done index' [] → indexed ls index →
  Forall lane_ok new ∧ indexed (ls ++ new) index'.
Proof.
  revert i ls index; induction new as [|l new IH]; intros i ls index; simpl.
  - intros H Hi. cleaned. by rewrite app_nil_r.
  - intros H Hi. apply bind_clean in H as (index1 & Hl & H).
    destruct (lane_clean _ _ _ _ _ Hl Hi) as [Hok Hi1].
    destruct (IH _ _ _ H Hi1) as [Hall Hi']. rewrite <- app_assoc in Hi'.
    split; [by constructor|done].
Qed.

Lemma no_lanes : indexed [] (LaneIndex [] [] []).
Proof. constructor; simpl; [done|constructor|done|]. intros k l. rewrite elem_of_nil. naive_solver. Qed.

(** ** Capabilities and artifacts *)

Lemma capability_clean repositories lanes i c ids ids' :
  check_capability repositories lanes i c ids = Done ids' [] →
  capability_ok repositories lanes c.
Proof.
  unfold check_capability. cbv zeta. intros H. fields.
  destruct (dict_get c "maturity") as [| |n| | | |] eqn:Hm; try done. bool_hyps.
  constructor; eauto 10.
Qed.

Lemma artifact_clean repositories i a ids ids' :
  check_artifact repositories i a ids = Done ids' [] → artifact_ok repositories a.
Proof.
  unfold check_artifact. cbv zeta. intros H. fields. constructor.
  - eexists. split; [eassumption|]. apply Hrefs. by left.
  - intros key Hkey. rewrite !elem_of_cons, elem_of_nil in Hkey.
    destruct Hkey as [->|[->|[]]]; by eapply opt_digest.
Qed.

Lemma each_clean {B} (P : items → Prop) (body : nat → items → B → checked B) i l acc acc' :
  (∀ i x acc acc', body i x acc = Done acc' [] → P x) →
  check_each i l body acc = Done acc' [] → Forall P l.
Proof.
  intros Hbody. revert i acc; induction l as [|x l IH]; intros i acc H; [constructor|].
  simpl in H. apply bind_clean in H as (acc1 & Hx & H). constructor; [by eapply Hbody|].
  by eapply IH.
Qed.

(** ** Coverage, decision and safety *)

Definition safety_ok (safety : items) : Prop :=
  dict_get safety "read_only" = VBool true ∧
  ∀ key, key ∈ unauthorized → dict_get safety key = VBool false.

Lemma release_safety_clean root u :
  check_safety root = Done u [] → safety_ok (object_at root "safety").
Proof.
  unfold check_safety, safety_ok. intros H. fields. read_at. bool_hyps.
  apply is_bool_true in Hc0. split; [done|].
  intros key (j & Hj)%list_elem_of_lookup. rewrite check_each_clean in Hc1.
  specialize (Hc1 j key Hj). apply complain_if_clean in Hc1. bool_hyps. by apply is_bool_true.
Qed.

Lemma decision_clean root value approved :
  check_decision root = Done (value, approved) [] →
  dict_get (object_at root "decision") "value" = value ∧
  dict_get (object_at root "decision") "approved_by" = strs approved.
Proof.
  unfold check_decision. intros H. fields.
  match goal with E : (_, _) = (_, _) |- _ => injection E as <- <- end. by read_at.
Qed.

Definition counted (coverage : items) (key : string) (o : option Z) : Prop :=
  dict_get coverage key = match o with Some n => VInt n | None => VNone end.

Lemma count_counted d key path o : _count (dict_get d key) path = Done o [] → counted d key o.
Proof. by intros [[? ->]|(z & Hz & -> & _)]%count_clean. Qed.

Lemma coverage_clean root c :
  check_coverage root = Done c [] →
  dict_get (object_at root "coverage") "catalog_complete" = VBool (catalog_complete c) ∧
  counted (object_at root "coverage") "expected_repository_count" (expected_count c) ∧
  counted (object_at root "coverage") "observed_repository_count" (observed_count c) ∧
  counted (object_at root "coverage") "unresolved_repository_count" (unresolved_count c).
Proof.
  unfold check_coverage. intros H. apply bind_clean in H as (d & [Hd _]%exact_object_clean & H).
  rewrite (object_at_dict _ _ _ Hd). apply bind_clean in H as (b & Hb & H).
  apply bind_clean in H as (e & He%count_counted & H).
  apply bind_clean in H as (o & Ho%count_counted & H).
  apply bind_clean in H as (n & Hn%count_counted & H). apply pass_clean in H as <-. simpl.
  split; [|done]. destruct (dict_get d "catalog_complete"); cleaned; done.
Qed.

(** ** A manifest without a complaint *)

Record shaped (v : value) (root : items) (m : manifest) : Prop := {
  shaped_root : v = VDict root;
  shaped_public : ∀ s, occurs v (VStr s) → sensitive s = false;
  shaped_repositories : dict_get root "repositories" = VList (map VDict (repositories m)) ∧
    Forall repository_ok (repositories m) ∧ NoDup (map id_of (repositories m));
  shaped_lanes : dict_get root "lanes" = VList (map VDict (lanes m)) ∧
    Forall lane_ok (lanes m) ∧ indexed (lanes m) (index m);
  shaped_capabilities : dict_get root "capabilities" = VList (map VDict (capabilities m)) ∧
    Forall (capability_ok (map id_of (repositories m)) (map id_of (lanes m))) (capabilities m);
  shaped_artifacts : dict_get root "artifacts" = VList (map VDict (artifacts m)) ∧
    Forall (artifact_ok (map id_of (repositories m))) (artifacts m);
  shaped_coverage : let coverage := object_at root "coverage" in
    dict_get coverage "catalog_complete" = VBool (catalog_complete (m_coverage m)) ∧
    counted coverage "expected_repository_count" (expected_count (m_coverage m)) ∧
    counted coverage "observed_repository_count" (observed_count (m_coverage m)) ∧
    counted coverage "unresolved_repository_count" (unresolved_count (m_coverage m));
  shaped_observed : ∀ n, observed_count (m_coverage m) = Some n →
    n = Z.of_nat (length (repositories m));
  shaped_blockers : dict_get root "blockers" = strs (m_blockers m);
  shaped_decision : dict_get (object_at root "decision") "value" = decision_value m ∧
    dict_get (object_at root "decision") "approved_by" = strs (approved_by m);
  shaped_safety : safety_ok (object_at root "safety");
}.

Lemma walk_public v path : _walk v path = [] → ∀ s, occurs v (VStr s) → sensitive s = false.
Proof.
  revert path; induction v as [|b|z|f|t|l IH|d IH] using value_nested_ind; intros path H s Ho;
    try (by apply occurs_leaf in Ho).
  - apply occurs_leaf in Ho as [= ->]; [|done]. simpl in H. apply app_nil in H as [_ H].
    by destruct (sensitive t).
  - apply occurs_list_iff in Ho as [|(x & Hx & Ho)]; [done|].
    rewrite Forall_forall in IH. simpl in H. revert H. generalize 0%nat as i.
    intros i H.
    assert (∃ p, _walk x p = []) as [p Hp]; [|by eapply IH].
    revert i H. induction l as [|y l IHl]; [by apply not_elem_of_nil in Hx|].
    intros i [Hy Hl]%app_nil. apply elem_of_cons in Hx as [->|Hx]; [by eexists|].
    eapply IHl; [|done|exact Hl]. intros z Hz. apply IH. by right.
  - apply occurs_dict_iff in Ho as [|(k & x & Hx & Ho)]; [done|].
    rewrite Forall_forall in IH. specialize (IH (k, x) Hx). simpl in H.
    assert (∃ p, _walk x p = []) as [p Hp]; [|by eapply IH].
    clear IH. induction d as [|[k' y] d IHd]; [by apply not_elem_of_nil in Hx|].
    simpl in H. apply app_nil in H as [[_ Hy]%app_nil Hd].
    apply elem_of_cons in Hx as [[= -> ->]|Hx]; [by eexists|auto].
Qed.

Lemma check_manifest_clean v m : check_manifest v = Done m [] → ∃ root, shaped v root m.
Proof.
  unfold check_manifest. intros H. apply bind_clean in H as (u & Hwalk & H).
  injection Hwalk as _ Hwalk. pose proof (walk_public v "$" Hwalk) as Hpublic. clear Hwalk.
  apply bind_clean in H as (root & [-> _]%exact_object_clean & H).
  do 3 apply bind_clean in H as (? & _ & H).
  apply bind_clean in H as (c & Hcov%coverage_clean & H).
  apply bind_clean in H as (rs & Hrs%normalize_clean & H).
  apply bind_clean in H as ([ids urls] & Hr & H).
  apply release_repositories_loop in Hr as (Hrall & -> & Hrnd); [|constructor].
  apply bind_clean in H as (u1 & Hcounts & H).
  apply bind_clean in H as (ls & Hls%normalize_clean & H).
  apply bind_clean in H as (index & Hl & H).
  apply (lanes_loop _ _ [] _ _) in Hl as [Hlall Hindex]; [|exact no_lanes]. simpl in Hindex.
  apply bind_clean in H as (cs & Hcs%normalize_clean & H).
  apply bind_clean in H as (u2 & Hc & H).
  apply (each_clean (capability_ok (map id_of rs) (map id_of ls))) in Hc;
    [|intros i c' acc acc' Hx; rewrite <- (indexed_ids _ _ Hindex); by eapply capability_clean].
  apply bind_clean in H as (arts & Harts%normalize_clean & H).
  apply bind_clean in H as (u3 & Ha & H).
  apply (each_clean (artifact_ok (map id_of rs))) in Ha; [|intros; by eapply artifact_clean].
  apply bind_clean in H as (blockers & [Hb _]%release_strings_clean & H).
  apply bind_clean in H as ([value approved] & Hd%decision_clean & H).
  apply bind_clean in H as (u4 & Hs%release_safety_clean & H). apply pass_clean in H as <-.
  exists root. constructor; simpl; try done.
  intros n Hn. unfold check_counts in Hcounts. rewrite Hn in Hcounts. cleaned. bool_hyps. done.
Qed.

(** ** When a release may close *)

Definition green_independent (l : items) : Prop :=
  status_is l "green" ∧ dict_get l "independent" = VBool true.

Record closed (root : items) (m : manifest) : Prop := {
  closed_coverage : let coverage := object_at root "coverage" in
    let n := VInt (Z.of_nat (length (repositories m))) in
    dict_get coverage "catalog_complete" = VBool true ∧
    dict_get coverage "expected_repository_count" = n ∧
    dict_get coverage "observed_repository_count" = n ∧
    dict_get coverage "unresolved_repository_count" = VInt 0;
  closed_repositories : ∀ r, r ∈ repositories m → status_is r "verified" ∧
    (∃ h, dict_get r "head_sha" = VStr h ∧ GIT_SHA h = true) ∧
    dict_get r "archived" = VBool false ∧ dict_get r "superseded" = VBool false;
  closed_capabilities : ∀ c, c ∈ capabilities m → status_is c "verified" ∧
    (∃ n, dict_get c "maturity" = VInt n ∧ 4 <= n <= 5) ∧ dict_get c "blockers" = VList [] ∧
    ∃ names, dict_get c "independent_lanes" = strs names ∧ names ≠ [] ∧
      ∀ s, s ∈ names → ∃ l, l ∈ lanes m ∧ id_of l = s ∧ green_independent l;
  closed_artifacts : ∀ a, a ∈ artifacts m → status_is a "verified" ∧
    ∀ key, key ∈ ["sha256"; "provenance_sha256"] → ∃ s, dict_get a key = VStr s ∧ SHA256 s = true;
  closed_lanes : ∀ kind, kind ∈ REQUIRED_LANE_KINDS →
    ∃ l, l ∈ lanes m ∧ kind_of l = kind ∧ green_independent l ∧
      (kind ∈ DESTRUCTIVE_LANE_KINDS → dict_get l "destructive" = VBool true);
  closed_blockers : dict_get root "blockers" = VList [];
  closed_decision : dict_get (object_at root "decision") "value" = VStr "go" ∧ approved_by m ≠ [];
}.

(** ** Reasons *)

Lemma reasons_each_total l p f reason :
  (∀ x, x ∈ l → p x = Ok (f x)) →
  ∃ rs, reasons_each l p reason = Ok rs ∧ (rs = [] ↔ ∀ x, x ∈ l → f x = false).
Proof.
  unfold reasons_each. intros Hp.
  enough (∀ i acc, ∃ rs, for_enum i l (λ i item reasons, hit ← p item;
      Ok (reasons ++ if hit : bool then [reason i] else [])) acc = Ok rs ∧
      (rs = [] ↔ acc = [] ∧ ∀ x, x ∈ l → f x = false)) as H.
  { destruct (H 0%nat []) as (rs & Hrs & Hiff). exists rs. split; [done|]. naive_solver. }
  induction l as [|x l IH]; intros i acc; simpl.
  - exists acc. split; [done|]. setoid_rewrite elem_of_nil. naive_solver.
  - rewrite (Hp x) by by left. rewrite !ok_bind.
    destruct (IH ltac:(intros; apply Hp; by right) (S i) (acc ++ if f x then [reason i] else []))
      as (rs & Hrs & Hiff). exists rs. split; [done|]. rewrite Hiff. setoid_rewrite elem_of_cons.
    destruct (f x) eqn:Hx.
    + split; [by intros [[_ ?]%app_nil _]|]. intros [_ H]. specialize (H x (or_introl eq_refl)).
      congruence.
    + rewrite app_nil_r. naive_solver.
Qed.

Lemma any_of_total p f l : (∀ x, x ∈ l → p x = Ok (f x)) → any_of p l = Ok (existsb f l).
Proof.
  intros H. induction l as [|x l IH]; simpl; [done|]. rewrite H by by left. rewrite ok_bind.
  destruct (f x); [done|]. apply IH. intros. apply H. by right.
Qed.

Lemma dict_get_present d k default x : dict_get d k = x → x ≠ VNone → dict_get_or d k default = x.
Proof.
  unfold dict_get. induction d as [|[k' y] d IH]; simpl; [by intros <-|].
  by destruct (String.eqb k k').
Qed.

Lemma truthy_strs l : truthy (strs l) = negb (bool_decide (l = [])).
Proof. by destruct l. Qed.

Lemma strs_inj l l' : strs l = strs l' → l = l'.
Proof.
  unfold strs. intros [= H]. revert l' H. induction l as [|s l IH]; intros [|s' l']; try done.
  intros [= -> H]. f_equal. by apply IH.
Qed.

Lemma is_status_true d s : is_status d s = true ↔ status_is d s.
Proof. apply py_eq_str. Qed.

Lemma is_bool_iff v b : is_bool v b = true ↔ v = VBool b.
Proof. split; [apply is_bool_true|]. intros ->. by destruct b. Qed.

Lemma assoc_get_in {A} (l : list (string * A)) k e : assoc_get l k = Some e → (k, e) ∈ l.
Proof.
  induction l as [|[j x] l IH]; simpl; [done|].
  destruct (String.eqb_spec k j) as [->|]; [intros [= ->]; by left|]. intros H. right. auto.
Qed.

Section shaped.
Context (v : value) (root : items) (m : manifest) (Hm : shaped v root m).

Lemma lane_named_in s l :
  assoc_get (lanes_by_id (index m)) s = Some l ↔ l ∈ lanes m ∧ id_of l = s.
Proof using Hm.
  destruct (shaped_lanes _ _ _ Hm) as (_ & _ & [_ Hnd -> _]). rewrite assoc_get_elem.
  - rewrite list_elem_of_fmap. naive_solver.
  - by rewrite <- list_fmap_compose.
Qed.

Definition lane_lacking (x : value) : bool :=
  match x with
  | VStr s => match assoc_get (lanes_by_id (index m)) s with
              | Some l => negb (is_status l "green") || negb (is_bool (dict_get l "independent") true)
              | None => true
              end
  | _ => true
  end.

Lemma lane_fails_text s : lane_fails (lanes_by_id (index m)) (VStr s) = Ok (lane_lacking (VStr s)).
Proof.
  unfold lane_fails. simpl. rewrite ok_bind. simpl.
  by destruct (assoc_get (lanes_by_id (index m)) s).
Qed.

Lemma lane_lacking_false s :
  lane_lacking (VStr s) = false ↔ ∃ l, l ∈ lanes m ∧ id_of l = s ∧ green_independent l.
Proof using Hm.
  simpl. unfold green_independent. setoid_rewrite <- is_status_true. setoid_rewrite <- is_bool_iff.
  destruct (assoc_get (lanes_by_id (index m)) s) as [l|] eqn:Hl.
  - rewrite orb_false_iff, !negb_false_iff. apply lane_named_in in Hl as Hl'. split.
    + intros [? ?]. exists l. naive_solver.
    + intros (l' & Hin & Hid & ? & ?).
      assert (assoc_get (lanes_by_id (index m)) s = Some l') as Heq by by apply lane_named_in.
      rewrite Hl in Heq. by injection Heq as ->.
  - split; [done|]. intros (l & Hin & Hid & _).
    assert (assoc_get (lanes_by_id (index m)) s = Some l) as Heq by by apply lane_named_in.
    congruence.
Qed.

(** Whether a capability lacks evidence, for well-formed capabilities. *)
Definition lacking (c : items) : bool :=
  negb (is_status c "verified") || immature (dict_get c "maturity")
  || truthy (dict_get c "blockers") || negb (truthy (dict_get c "independent_lanes"))
  || match dict_get c "independent_lanes" with VList l => existsb lane_lacking l | _ => true end.

Lemma lacks_evidence_lacking c :
  c ∈ capabilities m → lacks_evidence (lanes_by_id (index m)) c = Ok (lacking c).
Proof using Hm.
  intros Hc. destruct (shaped_capabilities _ _ _ Hm) as [_ Hall]. rewrite Forall_forall in Hall.
  destruct (capability_lanes _ _ _ (Hall c Hc)) as (names & Hn & _).
  unfold lacks_evidence, lacking. rewrite (dict_get_present _ _ _ _ Hn) by done. rewrite Hn.
  destruct (_ || negb (truthy (strs names))) eqn:Hfirst; [done|]. simpl.
  rewrite ok_bind. apply any_of_total. intros x Hx.
  apply list_elem_of_fmap in Hx as (s & -> & _). apply lane_fails_text.
Qed.

Lemma lacking_false c :
  c ∈ capabilities m →
  lacking c = false ↔ status_is c "verified" ∧
    (∃ n, dict_get c "maturity" = VInt n ∧ 4 <= n <= 5) ∧ dict_get c "blockers" = VList [] ∧
    ∃ names, dict_get c "independent_lanes" = strs names ∧ names ≠ [] ∧
      ∀ s, s ∈ names → ∃ l, l ∈ lanes m ∧ id_of l = s ∧ green_independent l.
Proof using Hm.
  intros Hc. destruct (shaped_capabilities _ _ _ Hm) as [_ Hall]. rewrite Forall_forall in Hall.
  destruct (Hall c Hc) as [_ (names & Hn & _) (n & Hmat & Hrange) (bs & Hb)].
  unfold lacking. rewrite Hn, Hmat, Hb, !truthy_strs. cbn [immature].
  rewrite !orb_false_iff, !negb_false_iff, is_status_true, Z.ltb_ge, negb_true_iff,
    bool_decide_eq_true, bool_decide_eq_false. cbn [strs].
  assert (existsb lane_lacking (map VStr names) = false ↔
    ∀ s, s ∈ names → ∃ l, l ∈ lanes m ∧ id_of l = s ∧ green_independent l) as ->.
  { setoid_rewrite <- lane_lacking_false. rewrite <- not_true_iff_false, existsb_elem_of. split.
    - intros H s Hs. apply not_true_iff_false. intros Ht. apply H.
      exists (VStr s). split; [by apply list_elem_of_fmap_2|done].
    - intros H (x & (s & -> & Hs)%list_elem_of_fmap & Hx). rewrite H in Hx by done. done. }
  split.
  - intros [[[[? ?] ->] ?] ?]. split; [done|]. split; [exists n; split; [done|lia]|].
    split; [done|]. by exists names.
  - intros (? & (? & [= <-] & ? & ?) & Hbs & names' & Heq & Hne & Hnames).
    apply strs_inj in Heq as <-. apply (strs_inj _ []) in Hbs as ->. repeat split; done.
Qed.

Lemma coverage_reasons_nil :
  coverage_reasons (m_coverage m) = [] ↔
  let coverage := object_at root "coverage" in
  let n := VInt (Z.of_nat (length (repositories m))) in
  dict_get coverage "catalog_complete" = VBool true ∧
  dict_get coverage "expected_repository_count" = n ∧
  dict_get coverage "observed_repository_count" = n ∧
  dict_get coverage "unresolved_repository_count" = VInt 0.
Proof using Hm.
  destruct (shaped_coverage _ _ _ Hm) as (Hc & He & Ho & Hu). unfold counted in *. cbv zeta.
  rewrite Hc, He, Ho, Hu. pose proof (shaped_observed _ _ _ Hm) as Hobs. unfold coverage_reasons.
  rewrite app_nil.
  destruct (catalog_complete (m_coverage m)), (expected_count (m_coverage m)) as [e|],
    (observed_count (m_coverage m)) as [o|], (unresolved_count (m_coverage m)) as [n|];
    try (split; [by intros [? ?]|by intros (? & ? & ? & ?)]).
  specialize (Hobs o eq_refl). subst o.
  destruct (Z.eqb_spec n 0) as [->|], (Z.eqb_spec e (Z.of_nat (length (repositories m)))) as [->|];
    simpl; split; try done; naive_solver.
Qed.

Lemma not_releasable_false r :
  r ∈ repositories m →
  not_releasable r = false ↔ status_is r "verified" ∧
    (∃ h, dict_get r "head_sha" = VStr h ∧ GIT_SHA h = true) ∧
    dict_get r "archived" = VBool false ∧ dict_get r "superseded" = VBool false.
Proof using Hm.
  intros Hr. destruct (shaped_repositories _ _ _ Hm) as (_ & Hall & _).
  rewrite Forall_forall in Hall. destruct (Hall r Hr) as [_ Hsha Htyped Hflags].
  destruct (Hflags "archived") as [a Ha]; [by left|].
  destruct (Hflags "superseded") as [b Hb]; [right; by left|].
  unfold not_releasable. rewrite Ha, Hb, !orb_false_iff, negb_false_iff, is_status_true.
  destruct Htyped as [Hh|[h Hh]]; rewrite Hh; simpl.
  - naive_solver.
  - specialize (Hsha h Hh). destruct a, b; naive_solver.
Qed.

Lemma not_verified_false a :
  a ∈ artifacts m →
  not_verified a = false ↔ status_is a "verified" ∧
    ∀ key, key ∈ ["sha256"; "provenance_sha256"] → ∃ s, dict_get a key = VStr s ∧ SHA256 s = true.
Proof using Hm.
  intros Ha. destruct (shaped_artifacts _ _ _ Hm) as [_ Hall]. rewrite Forall_forall in Hall.
  destruct (Hall a Ha) as [_ Hdig]. unfold not_verified.
  rewrite !orb_false_iff, negb_false_iff, is_status_true. split.
  - intros [[? H1] H2]. split; [done|]. intros key Hkey. destruct (Hdig key Hkey) as [Hn|]; [|done].
    rewrite !elem_of_cons, elem_of_nil in Hkey.
    destruct Hkey as [->|[->|[]]]; by rewrite Hn in *.
  - intros [? H]. destruct (H "sha256") as (s & -> & _); [by left|].
    destruct (H "provenance_sha256") as (s' & -> & _); [right; by left|]. done.
Qed.

Lemma certified_iff kind :
  existsb (certified kind) (default [] (assoc_get (lanes_by_kind (index m)) kind)) = true ↔
  ∃ l, l ∈ lanes m ∧ kind_of l = kind ∧ green_independent l ∧
    (kind ∈ DESTRUCTIVE_LANE_KINDS → dict_get l "destructive" = VBool true).
Proof using Hm.
  destruct (shaped_lanes _ _ _ Hm) as (_ & _ & [_ _ _ Hkind]). rewrite existsb_elem_of.
  setoid_rewrite Hkind. unfold certified, green_independent.
  setoid_rewrite andb_true_iff. setoid_rewrite andb_true_iff. setoid_rewrite orb_true_iff.
  setoid_rewrite negb_true_iff. setoid_rewrite is_status_true. setoid_rewrite is_bool_iff.
  setoid_rewrite <- mem_str_In. destruct (mem_str kind DESTRUCTIVE_LANE_KINDS); naive_solver.
Qed.

Lemma kind_reasons_nil order :
  order ≡ₚ REQUIRED_LANE_KINDS →
  kind_reasons order (lanes_by_kind (index m)) = [] ↔
  ∀ kind, kind ∈ REQUIRED_LANE_KINDS →
    ∃ l, l ∈ lanes m ∧ kind_of l = kind ∧ green_independent l ∧
      (kind ∈ DESTRUCTIVE_LANE_KINDS → dict_get l "destructive" = VBool true).
Proof using Hm.
  intros Hp. setoid_rewrite <- Hp. setoid_rewrite <- certified_iff. unfold kind_reasons.
  rewrite app_nil.
  assert (flat_map (λ kind, if existsb (certified kind)
      (default [] (assoc_get (lanes_by_kind (index m)) kind)) then []
      else ["required lane kind is not certified: " +:+ kind]) order = [] ↔
    ∀ kind, kind ∈ order → existsb (certified kind)
      (default [] (assoc_get (lanes_by_kind (index m)) kind)) = true) as ->.
  { clear Hp. induction order as [|k order IH]; simpl.
    - split; [by intros _ k ?%not_elem_of_nil|done].
    - rewrite app_nil, IH. setoid_rewrite elem_of_cons.
      destruct (existsb _ _) eqn:Hk; [naive_solver|]. split; [by intros []|].
      intros H. specialize (H k (or_introl eq_refl)). congruence. }
  split; [by intros []|]. intros H. split; [|done].
  assert (sorted_diff REQUIRED_LANE_KINDS (lanes_by_kind (index m)).*1 = []) as ->; [|done].
  apply sorted_diff_nil. intros k Hk. rewrite <- Hp in Hk. specialize (H k Hk).
  destruct (assoc_get (lanes_by_kind (index m)) k) as [l|] eqn:Hl; [|done].
  apply assoc_get_in in Hl. by apply (list_elem_of_fmap_2 fst) in Hl.
Qed.

(** The reasons against closing are computed without an exception, and there
    is none exactly when the release may close. *)
Lemma closure_reasons_closed order :
  order ≡ₚ REQUIRED_LANE_KINDS →
  ∃ reasons, closure_reasons order m = Ok reasons ∧ (reasons = [] ↔ closed root m).
Proof using Hm.
  intros Hp. unfold closure_reasons.
  edestruct (reasons_each_total (repositories m) (λ item, Ok (not_releasable item)) not_releasable)
    as (rr & Hrr & Hr); [done|]. rewrite Hrr, ok_bind.
  edestruct (reasons_each_total (capabilities m) (lacks_evidence (lanes_by_id (index m))) lacking)
    as (cr & Hcr & Hc); [apply lacks_evidence_lacking|]. rewrite Hcr, ok_bind.
  edestruct (reasons_each_total (artifacts m) (λ item, Ok (not_verified item)) not_verified)
    as (ar & Har & Ha); [done|]. rewrite Har, ok_bind.
  eexists. split; [reflexivity|]. rewrite !app_nil, Hr, Hc, Ha, coverage_reasons_nil.
  rewrite (kind_reasons_nil order Hp).
  assert ((if bool_decide (m_blockers m = []) then [] else ["manifest blockers must be empty"]) = []
    ↔ dict_get root "blockers" = VList []) as ->.
  { rewrite (shaped_blockers _ _ _ Hm). case_bool_decide as Hb; [by rewrite Hb|].
    split; [done|]. intros Heq. by apply (strs_inj _ []) in Heq. }
  assert ((if py_eq (decision_value m) (VStr "go") && negb (bool_decide (approved_by m = []))
      then [] else ["decision must be approved go"]) = [] ↔
    dict_get (object_at root "decision") "value" = VStr "go" ∧ approved_by m ≠ []) as ->.
  { rewrite (proj1 (shaped_decision _ _ _ Hm)), <- py_eq_str. destruct (py_eq _ _); simpl.
    - case_bool_decide; naive_solver.
    - naive_solver. }
  split.
  - intros (H1 & H2 & H3 & H4 & H5 & H6 & H7). constructor; try done.
    + intros r Hin. by apply not_releasable_false, H2.
    + intros c Hin. by apply lacking_false, H3.
    + intros a Hin. by apply not_verified_false, H4.
  - intros [H1 H2 H3 H4 H5 H6 H7]. repeat split; try done; try apply H1; try apply H7.
    + intros r Hin. by apply not_releasable_false, H2.
    + intros c Hin. by apply lacking_false, H3.
    + intros a Hin. by apply not_verified_false, H4.
Qed.
End shaped.

(** ** The verdict *)

Lemma closure_errors_nil m mode : closure_errors m mode [] = [].
Proof.
  unfold closure_errors. rewrite bool_decide_eq_true_2 by done. simpl. by rewrite !andb_false_r.
Qed.

Section verdict.
Context (order : list string) (Hp : order ≡ₚ REQUIRED_LANE_KINDS).

(** C14: A manifest is reported closure-ready exactly when its checks complain
    of nothing and it may close: complete coverage, every repository verified
    at an exact head and live, every capability verified at maturity four or
    five with green independent lanes, every artifact verified with both
    digests, a certified lane of every required kind, no blocker, and an
    approved decision to go. *)
Theorem closure_verdict (v : value) (mode_ : string) (r : ManifestReport) :
  validate order v mode_ = Ok r →
  closure_ready r = true ↔
  ∃ root m, check_manifest v = Done m [] ∧ shaped v root m ∧ closed root m.
Proof using Hp.
  unfold validate. intros H. apply bind_Ok in H as (u & _ & H).
  destruct (check_manifest v) as [m es|e] eqn:Hcheck; [|done].
  apply bind_Ok in H as (reasons & Hreasons & [= <-]). cbn [closure_ready].
  rewrite andb_true_iff, !bool_decide_eq_true, app_nil. split.
  - intros [-> [-> _]]. destruct (check_manifest_clean v m Hcheck) as [root Hm].
    exists root, m. split; [done|]. split; [done|].
    destruct (closure_reasons_closed v root m Hm order Hp) as (rs & Hrs & Hiff).
    apply Hiff. congruence.
  - intros (root & m' & [= -> ->] & Hm & Hclosed).
    destruct (closure_reasons_closed v root m' Hm order Hp) as (rs & Hrs & Hiff).
    rewrite Hreasons in Hrs. injection Hrs as ->. apply Hiff in Hclosed as ->.
    by rewrite closure_errors_nil.
Qed.

(** A manifest without a complaint is always reported on: computing the
    reasons against closing raises nothing. *)
Lemma clean_manifest_reports (v : value) (mode_ : string) (m : manifest) :
  check_manifest v = Done m [] → mode_ ∈ ["planning"; "closure"] →
  ∃ r, validate order v mode_ = Ok r.
Proof using Hp.
  intros Hcheck Hmode%mem_str_In. unfold validate. rewrite Hmode, Hcheck. simpl.
  destruct (check_manifest_clean v m Hcheck) as [root Hm].
  destruct (closure_reasons_closed v root m Hm order Hp) as (rs & -> & _). by eexists.
Qed.
End verdict.

(** What valid means: in closure mode the same as closure-ready; in both
    modes closure-ready implies valid, and a valid manifest that decides to go
    is closure-ready. *)
Theorem valid_by_mode (order : list string) (v : value) (mode_ : string) (r : ManifestReport) :
  validate order v mode_ = Ok r →
  (mode_ = "closure" → valid r = closure_ready r) ∧
  (closure_ready r = true → valid r = true) ∧
  (dict_get (object_at match v with VDict root => root | _ => [] end "decision") "value" = VStr "go" →
   valid r = true → closure_ready r = true).
Proof.
  unfold validate. intros H. apply bind_Ok in H as (u & _ & H).
  destruct (check_manifest v) as [m es|e] eqn:Hcheck; [|done].
  apply bind_Ok in H as (reasons & _ & [= <-]). cbn [closure_ready valid].
  destruct (decide (reasons = [])) as [->|Hne].
  { rewrite (bool_decide_eq_true_2 ([] = [])) by done. simpl. auto. }
  rewrite (bool_decide_eq_false_2 (reasons = [])) by done. simpl. split; [|split; [done|]].
  - intros ->. apply bool_decide_eq_false. intros [_ H]%app_nil.
    unfold closure_errors in H. apply app_nil in H as [_ H].
    rewrite bool_decide_eq_false_2 in H by done. simpl in H. by destruct reasons.
  - intros Hgo H. apply bool_decide_eq_true, app_nil in H as [-> H].
    destruct (check_manifest_clean v m Hcheck) as [root Hm].
    rewrite (shaped_root _ _ _ Hm), (proj1 (shaped_decision _ _ _ Hm)) in Hgo.
    unfold closure_errors in H. apply app_nil in H as [H _]. rewrite Hgo in H.
    rewrite bool_decide_eq_false_2 in H by done. cbn [py_eq] in H.
    by rewrite String.eqb_refl in H.
Qed.

(** ** A release that closes *)

Definition sample_lane (kind : string) : value :=
  VDict [("id", VStr (kind +:+ "-lane")); ("kind", VStr kind); ("status", VStr "green");
    ("head_sha", VStr "1111111111111111111111111111111111111111");
    ("evidence_sha256", VStr "eeeeeeeeeeeeeeeeeeeeeeeeeeeeeeeeeeeeeeeeeeeeeeeeeeeeeeeeeeeeeeee");
    ("destructive", VBool (mem_str kind DESTRUCTIVE_LANE_KINDS)); ("independent", VBool true);
    ("blockers", VList [])].

Definition sample_release : value :=
  VDict [("schema_version", VStr SCHEMA); ("release_id", VStr "sample-release");
    ("generated_at", VStr "2026-09-04T11:00:00Z");
    ("coverage", VDict [("catalog_complete", VBool true); ("expected_repository_count", VInt 1);
      ("observed_repository_count", VInt 1); ("unresolved_repository_count", VInt 0)]);
    ("repositories", VList [VDict [("id", VStr "server");
      ("github_url", VStr "https://github.com/acme/server"); ("role", VStr "api server");
      ("environment", VStr "production"); ("status", VStr "verified");
      ("head_sha", VStr "1111111111111111111111111111111111111111");
      ("default_branch", VStr "main"); ("visibility", VStr "public"); ("archived", VBool false);
      ("superseded", VBool false); ("linear_anchor", VStr "DEN-12")]]);
    ("capabilities", VList [VDict [("id", VStr "sign-in");
      ("implementation_repositories", strs ["server"]);
      ("independent_lanes", strs ["browser-lane"]); ("maturity", VInt 4);
      ("status", VStr "verified"); ("blockers", VList [])]]);
    ("artifacts", VList [VDict [("id", VStr "server-image"); ("repository_id", VStr "server");
      ("kind", VStr "container"); ("status", VStr "verified");
      ("sha256", VStr "aaaaaaaaaaaaaaaaaaaaaaaaaaaaaaaaaaaaaaaaaaaaaaaaaaaaaaaaaaaaaaaa");
      ("provenance_sha256", VStr "bbbbbbbbbbbbbbbbbbbbbbbbbbbbbbbbbbbbbbbbbbbbbbbbbbbbbbbbbbbbbbbb")]]);
    ("lanes", VList (map sample_lane REQUIRED_LANE_KINDS)); ("blockers", VList []);
    ("decision", VDict [("value", VStr "go"); ("rationale", VStr "Every lane is green.");
      ("approved_by", strs ["Release owner"]); ("decided_at", VStr "2026-09-04T12:00:00Z")]);
    ("safety", VDict (("read_only", VBool true) :: map (λ k, (k, VBool false)) unauthorized
      ++ [("notes", strs ["Promotion is a separate step."])]))].

Definition sample_release_report : ManifestReport :=
  mkManifestReport true true "closure" (Some (sha256_value sample_release)) 1 1 1 8 [] [].

Lemma reversed_kinds : reverse REQUIRED_LANE_KINDS ≡ₚ REQUIRED_LANE_KINDS.
Proof. apply reverse_Permutation. Qed.

Lemma sample_release_validates :
  validate (reverse REQUIRED_LANE_KINDS) sample_release "closure" = Ok sample_release_report.
Proof. vm_compute. reflexivity. Qed.

Lemma closure_verdict_witness :
  reverse REQUIRED_LANE_KINDS ≡ₚ REQUIRED_LANE_KINDS ∧
  validate (reverse REQUIRED_LANE_KINDS) sample_release "closure" = Ok sample_release_report ∧
  (closure_ready sample_release_report = true ↔
   ∃ root m, check_manifest sample_release = Done m [] ∧ shaped sample_release root m ∧
     closed root m).
Proof.
  split; [exact reversed_kinds|]. split; [exact sample_release_validates|].
  exact (closure_verdict _ reversed_kinds sample_release "closure" sample_release_report
    sample_release_validates).
Defined.

Lemma valid_by_mode_witness :
  validate (reverse REQUIRED_LANE_KINDS) sample_release "closure" = Ok sample_release_report ∧
  (closure_ready sample_release_report = true → valid sample_release_report = true).
Proof.
  split; [exact sample_release_validates|].
  exact (proj1 (proj2 (valid_by_mode _ sample_release "closure" sample_release_report
    sample_release_validates))).
Defined.

(** ** Inputs on which the validator raises, and identities it misses *)

Example lanes_not_iterable :
  lacks_evidence [] [("status", VStr "verified"); ("maturity", VInt 5); ("blockers", VList []);
    ("independent_lanes", VInt 1)] = Raise (not_iterable "int").
Proof. reflexivity. Qed.

(** One repository under two URLs. *)
Example repository_url_twins :
  Forall (λ s, _github_repo (VStr s) "repositories[0].github_url" = Done (Some s) [])
    ["https://github.com/acme/server"; "https://github.com/acme/server/";
     "https://github.com/acme/server;tree"].
Proof. repeat constructor; vm_compute; reflexivity. Qed.

End ReleaseTheorems.
