(* ===== verification/Digest.v ===== *)
(** * Evidence digests

    [src/scripts/digest_provenance.py]: the validation of a digest of job
    opportunities or of research, its window and safety flags, every item with
    its provenance, the ranks, the rules over companies and over superseded
    research, and the report. *)
From S2P Require Import Prelude PyValue Sha256 Json Contract DateTime Regex RecoveryCommon.
From S2P Require Import GitObjects Collect Url Fields Cycles.
From Stdlib Require Import Ascii SpecFloat.

Module Digest.
Import Cycles.
Open Scope Z_scope.

Definition SCHEMA : string := "evidence-digest/v1".
Definition CURRENCY : string → bool := rx_rep is_upper 3 3.
Definition ROOT_KEYS : list string :=
  ["schema_version"; "digest_id"; "kind"; "generated_at"; "window"; "policy_sha256"; "items";
   "safety"].
Definition WINDOW_KEYS : list string := ["start"; "end"; "timezone"].
Definition unauthorized : list string :=
  ["contains_credentials"; "contains_personal_data"; "applications_authorized";
   "outreach_authorized"; "external_mutations_authorized"].
Definition SAFETY_KEYS : list string := unauthorized ++ ["notes"].
Definition OPPORTUNITY_KEYS : list string :=
  ["id"; "rank"; "company_id"; "company_name"; "requisition_id"; "title"; "canonical_url";
   "source_kind"; "verified_at"; "posted_at"; "expires_at"; "locations"; "remote_policy";
   "employment_type"; "role_family"; "compensation"; "fit"; "fiducia_opportunity_ids";
   "content_sha256"].
Definition COMPENSATION_KEYS : list string :=
  ["currency"; "minimum"; "maximum"; "period"; "evidence_url"].
Definition FIT_KEYS : list string :=
  ["score"; "must_have_matches"; "preferred_matches"; "must_have_gaps"; "preferred_gaps";
   "unknowns"; "evidence_sha256"].
Definition RESEARCH_KEYS : list string :=
  ["id"; "rank"; "title"; "authors"; "source_kind"; "canonical_url"; "stable_identifier";
   "publication_date"; "updated_at"; "retrieved_at"; "source_sha256"; "status"; "supersedes";
   "themes"; "claims"; "interpretation"; "uncertainty"; "proposed_experiments"; "scores";
   "summary_sha256"].
Definition CLAIM_KEYS : list string := ["statement"; "source_fragment_sha256"].
Definition SCORE_KEYS : list string :=
  ["relevance"; "novelty"; "evidence_quality"; "implementation_cost"; "falsifiability"].
Definition OPPORTUNITY_SOURCES : list string := ["employer_careers"; "official_ats"; "employer_api"].
Definition REMOTE_POLICIES : list string :=
  ["remote"; "hybrid"; "onsite"; "location_dependent"; "unknown"].
Definition EMPLOYMENT_TYPES : list string :=
  ["full_time"; "part_time"; "contract"; "temporary"; "internship"].
Definition ROLE_FAMILIES : list string :=
  ["platform"; "cloud"; "sre"; "devops"; "sdk_tooling"; "observability"; "distributed_systems";
   "full_stack_infrastructure"; "developer_relations"; "sales_engineering";
   "engineering_leadership"].
Definition COMPENSATION_PERIODS : list string := ["hour"; "month"; "year"].
Definition RESEARCH_SOURCES : list string :=
  ["peer_reviewed_paper"; "official_preprint"; "standard"; "specification";
   "official_documentation"; "official_release_notes"; "repository_release"].
Definition RESEARCH_THEMES : list string :=
  ["rust"; "distributed-systems"; "formal-methods"; "databases"; "observability";
   "rpc-schema-tooling"; "ai-agent-safety"; "developer-infrastructure"].
Definition forbidden_keys : list string :=
  ["resume"; "cover_letter"; "email_address"; "phone_number"; "application_payload";
   "outreach_message"; "access_token"; "api_key"; "authorization"; "credential"; "secret";
   "raw_source"].

Definition _pairs (pairs : list (string * value)) : result items := pairs_of DigestError pairs.

(** ** Field checks *)

(** An aware date-time: its wall clock and its offset. *)
Record datetime : Type := Datetime { wall : Z; offset : Z }.
(** Aware date-times compare by the instant they denote. *)
Definition instant (d : datetime) : Z := wall d - offset d.
(** The ordinal of [d.date()]. *)
Definition date_of (d : datetime) : Z := wall d / day_us + 1.

Definition _timestamp (v : value) (path : string) : checked (option datetime) :=
  text ← _text v path 20 64;
  match text with
  | None => pass None
  | Some s =>
      match fromisoformat (str_replace s "Z" utc_suffix) with
      | None => complain (path +:+ " must be ISO-8601") ;; pass None
      | Some (_, None) => complain (path +:+ " must include a UTC offset") ;; pass None
      | Some (wall, Some offset) => pass (Some (Datetime wall offset))
      end
  end.

Definition _optional_timestamp (v : value) (path : string) : checked (option datetime) :=
  if is_none v then pass None else _timestamp v path.

Definition _date (v : value) (path : string) : checked (option Z) :=
  text ← _text v path 10 10;
  match text with
  | None => pass None
  | Some s =>
      match date_fromisoformat s with
      | Some ordinal => pass (Some ordinal)
      | None => complain (path +:+ " must be YYYY-MM-DD") ;; pass None
      end
  end.

(** [float(n)]: rounded to the nearest double. *)
Definition double_of_int (n : Z) : spec_float := binary_normalize 53 1024 n 0 false.
Definition too_large : exn := Exn OverflowError "int too large to convert to float".
Definition float_of (v : value) : result (option spec_float) :=
  match v with
  | VFloat f => Ok (Some f)
  | VInt n =>
      match double_of_int n with
      | S754_infinity _ => Raise too_large
      | f => Ok (Some f)
      end
  | _ => Ok None
  end.

Definition _number (v : value) (path : string) (minimum maximum : Z) : checked (option spec_float) :=
  number ← lift (float_of v);
  match number with
  | None => complain (path +:+ " must be a number") ;; pass None
  | Some f =>
      if SFleb (double_of_int minimum) f && SFleb f (double_of_int maximum) then pass (Some f)
      else complain (path +:+ " must be in " +:+ str_int minimum +:+ ".." +:+ str_int maximum) ;;
           pass None
  end.

Definition _url (v : value) (path : string) : checked (option string) :=
  text ← _text v path 12 1000;
  match text with
  | None => pass None
  | Some s =>
      parsed ← lift (Url.urlparse s);
      if not_canonical parsed then
        complain (path +:+ " must be canonical HTTPS without userinfo, query, or fragment") ;;
        pass None
      else pass (Some s)
  end.

Definition _walk_safe (v : value) (path : string) : checked unit :=
  Done tt (walk_safe forbidden_keys v path).

(** A complaint about two date-times, when both were read. *)
Definition complain_both (x y : option datetime) (p : Z → Z → bool) (msg : string) : checked unit :=
  complain_if (match x, y with Some x, Some y => p (instant x) (instant y) | _, _ => false end) msg.

(** [if v not in SET: errors.append(msg)] *)
Definition recognized (v : value) (choices : list string) (msg : string) : checked unit :=
  known ← lift (in_strings v choices);
  complain_if (negb known) msg.

(** ** Window and safety *)

Definition _validate_window (root : items) : checked (option datetime * option datetime) :=
  window ← _exact_object (dict_get root "window") WINDOW_KEYS "window";
  start ← _timestamp (dict_get window "start") "window.start";
  end_ ← _timestamp (dict_get window "end") "window.end";
  _text (dict_get window "timezone") "window.timezone" 3 64 ;;
  complain_both start end_ (λ s e, e <=? s) "window.start must be before window.end" ;;
  pass (start, end_).

Definition _validate_safety (root : items) : checked unit :=
  safety ← _exact_object (dict_get root "safety") SAFETY_KEYS "safety";
  check_each 0 unauthorized
    (λ _ key _, complain_if (negb (is_bool (dict_get safety key) false))
                  ("safety." +:+ key +:+ " must be false")) tt ;;
  _strings (dict_get safety "notes") "safety.notes" 1 12 8 500 ;;
  pass tt.

(** A date-time of an item inside the window. *)
Definition check_in_window (stamp start end_ : option datetime) (path : string) : checked unit :=
  complain_both stamp start Z.ltb (path +:+ " precedes the digest window") ;;
  complain_both stamp end_ (λ s e, e <=? s) (path +:+ " must fall inside the digest window").

(** ** Opportunities *)

Definition _validate_compensation (v : value) (path : string) : checked unit :=
  if is_none v then pass tt else
  compensation ← _exact_object v COMPENSATION_KEYS path;
  currency ← _text (dict_get compensation "currency") (path +:+ ".currency") 3 3;
  complain_if (match currency with Some s => negb (CURRENCY s) | None => false end)
    (path +:+ ".currency must be an uppercase ISO-style code") ;;
  minimum ← _number (dict_get compensation "minimum") (path +:+ ".minimum") 0 100000000;
  maximum ← _number (dict_get compensation "maximum") (path +:+ ".maximum") 0 100000000;
  complain_if (match minimum, maximum with Some a, Some b => SFltb b a | _, _ => false end)
    (path +:+ ".minimum must not exceed maximum") ;;
  supported (dict_get compensation "period") COMPENSATION_PERIODS (path +:+ ".period") ;;
  _url (dict_get compensation "evidence_url") (path +:+ ".evidence_url") ;;
  pass tt.

Definition _validate_fit (v : value) (path : string) : checked (option Z) :=
  fit ← _exact_object v FIT_KEYS path;
  score ← _integer (dict_get fit "score") (path +:+ ".score") 0 100;
  check_each 0 ["must_have_matches"; "preferred_matches"; "must_have_gaps"; "preferred_gaps";
                "unknowns"]
    (λ _ field _, _strings (dict_get fit field) (path +:+ "." +:+ field) 0 24 2 300 ;; pass tt) tt ;;
  _sha (dict_get fit "evidence_sha256") (path +:+ ".evidence_sha256") ;;
  pass score.

(** What the loop over the items gathers; [company_roles] and
    [company_fiducia] are dicts, [ids], [requisitions] and [urls] sets. *)
Record opportunities : Type := Opportunities {
  ids : list string;
  requisitions : list (string * string);
  urls : list string;
  ranks : list (Z * Z * string * string);
  company_roles : list (string * nat);
  company_fiducia : list (string * list string);
}.

Definition claim_requisition (company requisition : option string) (seen : list (string * string))
  : checked (list (string * string)) :=
  match company, requisition with
  | Some company, Some requisition =>
      complain_if (bool_decide ((company, requisition) ∈ seen))
        ("duplicate requisition identity: (" +:+ repr_str company +:+ ", "
         +:+ repr_str requisition +:+ ")") ;;
      pass (if bool_decide ((company, requisition) ∈ seen) then seen
            else seen ++ [(company, requisition)])
  | _, _ => pass seen
  end.

Definition check_opportunity_times (start end_ : option datetime) (item : items) (path : string)
  : checked unit :=
  verified ← _timestamp (dict_get item "verified_at") (path +:+ ".verified_at");
  posted ← _optional_timestamp (dict_get item "posted_at") (path +:+ ".posted_at");
  expires ← _optional_timestamp (dict_get item "expires_at") (path +:+ ".expires_at");
  check_in_window verified start end_ (path +:+ ".verified_at") ;;
  complain_both posted verified (λ p v, v <? p) (path +:+ ".posted_at must not follow verified_at") ;;
  complain_both expires verified Z.leb (path +:+ ".expires_at must follow verified_at").

Definition check_opportunity_terms (item : items) (path : string) : checked (option Z) :=
  _strings (dict_get item "locations") (path +:+ ".locations") 1 16 2 120 ;;
  supported (dict_get item "remote_policy") REMOTE_POLICIES (path +:+ ".remote_policy") ;;
  supported (dict_get item "employment_type") EMPLOYMENT_TYPES (path +:+ ".employment_type") ;;
  supported (dict_get item "role_family") ROLE_FAMILIES (path +:+ ".role_family") ;;
  _validate_compensation (dict_get item "compensation") (path +:+ ".compensation") ;;
  _validate_fit (dict_get item "fit") (path +:+ ".fit").

Definition check_fiducia (item : items) (path : string) : checked (list string) :=
  fiducia ← _strings (dict_get item "fiducia_opportunity_ids")
    (path +:+ ".fiducia_opportunity_ids") 0 12 3 96;
  check_each 0 fiducia (λ number opportunity_id _,
    complain_if (negb (SLUG opportunity_id))
      (path +:+ ".fiducia_opportunity_ids[" +:+ str_nat number +:+ "] has an invalid slug")) tt ;;
  pass fiducia.

(** One more role of a company; its first Fiducia set is the one all others
    have to equal. *)
Definition claim_company (company : string) (fiducia : list string)
    (roles : list (string * nat)) (sets : list (string * list string))
  : checked (list (string * nat) * list (string * list string)) :=
  let roles := assoc_set roles company (default 0 (assoc_get roles company) + 1)%nat in
  let normalized := sorted_strs fiducia in
  match assoc_get sets company with
  | None => pass (roles, assoc_set sets company normalized)
  | Some previous =>
      complain_if (negb (bool_decide (previous = normalized)))
        ("company " +:+ company +:+ " must use one consistent Fiducia opportunity set") ;;
      pass (roles, sets)
  end.

Definition check_opportunity (start end_ : option datetime) (index : nat) (raw : value)
    (g : opportunities) : checked opportunities :=
  let path := "items[" +:+ str_nat index +:+ "]" in
  item ← _exact_object raw OPPORTUNITY_KEYS path;
  item_id ← _slug (dict_get item "id") (path +:+ ".id");
  ids ← identity "item id" item_id (ids g);
  rank ← _integer (dict_get item "rank") (path +:+ ".rank") 1 10000;
  company ← _slug (dict_get item "company_id") (path +:+ ".company_id");
  _text (dict_get item "company_name") (path +:+ ".company_name") 2 160 ;;
  requisition ← _text (dict_get item "requisition_id") (path +:+ ".requisition_id") 1 128;
  _text (dict_get item "title") (path +:+ ".title") 4 200 ;;
  url ← _url (dict_get item "canonical_url") (path +:+ ".canonical_url");
  urls ← identity "canonical_url" url (urls g);
  requisitions ← claim_requisition company requisition (requisitions g);
  recognized (dict_get item "source_kind") OPPORTUNITY_SOURCES
    (path +:+ ".source_kind must be an official first-party source") ;;
  check_opportunity_times start end_ item path ;;
  score ← check_opportunity_terms item path;
  fiducia ← check_fiducia item path;
  _sha (dict_get item "content_sha256") (path +:+ ".content_sha256") ;;
  '(roles, sets) ← match company with
                   | Some company =>
                       claim_company company fiducia (company_roles g) (company_fiducia g)
                   | None => pass (company_roles g, company_fiducia g)
                   end;
  pass (Opportunities ids requisitions urls
    (ranks g ++ match rank, score, company, requisition with
                | Some rank, Some score, Some company, Some requisition =>
                    [(rank, - score, company, requisition)]
                | _, _, _, _ => []
                end)
    roles sets).

Definition opportunity_rank (x : Z * Z * string * string) : Z := x.1.1.1.
(** [key=lambda entry: (entry[1], entry[2], entry[3])] *)
Definition opportunity_leb (x y : Z * Z * string * string) : bool :=
  let '(_, s, c, r) := x in
  let '(_, s', c', r') := y in
  (s <? s') || (s =? s') && str_pair_leb (c, r) (c', r').

(** The ranks are 1 to the number of items, in the order of the entries. *)
Definition check_ranks {K} (rank_of : K → Z) (leb : K → K → bool) (count : nat) (entries : list K)
    (contiguous ordered complete : string) : checked unit :=
  complain_if (negb (bool_decide
    (stable_sort Z.leb (map rank_of entries) = map Z.of_nat (seq 1 count)))) contiguous ;;
  complain_if (negb (bool_decide
    (map rank_of (stable_sort leb entries) = map Z.of_nat (seq 1 (length entries))))) ordered ;;
  complain_if (negb (length entries =? count)%nat) complete.

Definition check_company (roles : list (string * nat)) (_ : nat) (entry : string * list string)
    (count : nat) : checked nat :=
  let '(company, opportunity_ids) := entry in
  if bool_decide (opportunity_ids = []) then pass count
  else
    let role_count := default 0%nat (assoc_get roles company) in
    complain_if (negb (bool_decide (role_count ∈ [2; 3]%nat)))
      ("Fiducia company " +:+ company +:+ " must have exactly 2 or 3 job roles; got "
       +:+ str_nat role_count) ;;
    pass (S count).

Definition _validate_opportunities (l : list value) (start end_ : option datetime)
  : checked (nat * nat) :=
  g ← check_each 0 l (check_opportunity start end_) (Opportunities [] [] [] [] [] []);
  check_ranks opportunity_rank opportunity_leb (length l) (ranks g)
    "opportunity ranks must be unique and contiguous from 1"
    "opportunity ranks must follow fit score descending with company/requisition tie-breaking"
    "every opportunity item must have a valid rank and fit identity" ;;
  fiducia_companies ← check_each 0 (company_fiducia g) (check_company (company_roles g)) 0%nat;
  pass (length (company_roles g), fiducia_companies).

(** ** Research *)

(** What the loop over the items gathers; [supersession] is a dict, [r_ids],
    [identifiers] and [r_urls] sets. *)
Record research : Type := Research {
  r_ids : list string;
  identifiers : list string;
  r_urls : list string;
  r_ranks : list (Z * Z * string);
  supersession : graph;
}.

Definition _research_composite (scores : list (string * Z)) : result Z :=
  relevance ← subscript scores "relevance";
  novelty ← subscript scores "novelty";
  evidence_quality ← subscript scores "evidence_quality";
  implementation_cost ← subscript scores "implementation_cost";
  falsifiability ← subscript scores "falsifiability";
  Ok (relevance * 30 + novelty * 20 + evidence_quality * 25 + (100 - implementation_cost) * 10
      + falsifiability * 15).

Definition check_research_times (start end_ : option datetime) (item : items) (path : string)
  : checked unit :=
  published ← _date (dict_get item "publication_date") (path +:+ ".publication_date");
  updated ← _optional_timestamp (dict_get item "updated_at") (path +:+ ".updated_at");
  retrieved ← _timestamp (dict_get item "retrieved_at") (path +:+ ".retrieved_at");
  check_in_window retrieved start end_ (path +:+ ".retrieved_at") ;;
  complain_if (match published, retrieved with
               | Some published, Some retrieved => date_of retrieved <? published
               | _, _ => false
               end) (path +:+ ".publication_date cannot be in the future") ;;
  complain_both updated retrieved (λ u r, r <? u) (path +:+ ".updated_at cannot follow retrieved_at").

Definition check_claim (path : string) (claim_index : nat) (raw_claim : value) (_ : unit)
  : checked unit :=
  let claim_path := path +:+ ".claims[" +:+ str_nat claim_index +:+ "]" in
  claim ← _exact_object raw_claim CLAIM_KEYS claim_path;
  _text (dict_get claim "statement") (claim_path +:+ ".statement") 8 500 ;;
  _sha (dict_get claim "source_fragment_sha256") (claim_path +:+ ".source_fragment_sha256") ;;
  pass tt.

Definition check_claims (item : items) (path : string) : checked unit :=
  let complaint := complain (path +:+ ".claims must contain 1..24 source-bound claims") in
  match dict_get item "claims" with
  | VList claims =>
      if (1 <=? Z.of_nat (length claims)) && (Z.of_nat (length claims) <=? 24)
      then check_each 0 claims (check_claim path) tt
      else complaint
  | _ => complaint
  end.

Definition check_themes (item : items) (path : string) : checked unit :=
  themes ← _strings (dict_get item "themes") (path +:+ ".themes") 1 8 3 96;
  check_each 0 themes (λ number theme _,
    complain_if (negb (mem_str theme RESEARCH_THEMES))
      (path +:+ ".themes[" +:+ str_nat number +:+ "] is unsupported")) tt.

Definition research_rank (x : Z * Z * string) : Z := x.1.1.
(** [key=lambda entry: (entry[1], entry[2])] *)
Definition research_leb (x y : Z * Z * string) : bool :=
  let '(_, s, i) := x in
  let '(_, s', i') := y in
  (s <? s') || (s =? s') && str_leb i i'.

Definition check_supersedes (ids : list string) (_ : nat) (entry : string * list string) (_ : unit)
  : checked unit :=
  let '(item_id, dependencies) := entry in
  check_each 0 dependencies (λ _ dependency _,
    if String.eqb dependency item_id
    then complain ("research item " +:+ item_id +:+ " cannot supersede itself")
    else complain_if (negb (mem_str dependency ids))
           ("research item " +:+ item_id +:+ " supersedes unknown item " +:+ dependency)) tt.

(** The calls of [visit] nest at most once per item and once more
    ([CycleTheorems.find_cycles_exact]); there are at most 200 items, well
    within the interpreter's limit. *)
Definition check_supersession (ids : list string) (g : graph) : checked unit :=
  check_each 0 g (check_supersedes ids) tt ;;
  found ← lift (_find_cycles (S (length g)) g);
  check_each 0 found (λ _ cycle _, complain ("research supersession cycle: " +:+ cycle)) tt.

Section validate.
(** The iteration order of the set [SCORE_KEYS], which depends on the hash
    seed. *)
Context (score_order : list string).

Definition check_scores (item : items) (path : string) : checked (list (string * Z)) :=
  score_object ← _exact_object (dict_get item "scores") SCORE_KEYS (path +:+ ".scores");
  check_each 0 score_order (read_score score_object path) [].

Definition ranking_entry (rank : option Z) (item_id : option string) (scores : list (string * Z))
  : result (list (Z * Z * string)) :=
  match rank, item_id with
  | Some rank, Some item_id =>
      if (length scores =? length SCORE_KEYS)%nat
      then composite ← _research_composite scores; Ok [(rank, - composite, item_id)]
      else Ok []
  | _, _ => Ok []
  end.

Definition check_research (start end_ : option datetime) (index : nat) (raw : value) (g : research)
  : checked research :=
  let path := "items[" +:+ str_nat index +:+ "]" in
  item ← _exact_object raw RESEARCH_KEYS path;
  item_id ← _slug (dict_get item "id") (path +:+ ".id");
  ids ← identity "item id" item_id (r_ids g);
  rank ← _integer (dict_get item "rank") (path +:+ ".rank") 1 10000;
  _text (dict_get item "title") (path +:+ ".title") 4 300 ;;
  _strings (dict_get item "authors") (path +:+ ".authors") 1 64 2 160 ;;
  recognized (dict_get item "source_kind") RESEARCH_SOURCES
    (path +:+ ".source_kind must be a recognized primary source") ;;
  url ← _url (dict_get item "canonical_url") (path +:+ ".canonical_url");
  urls ← identity "canonical_url" url (r_urls g);
  identifier ← _text (dict_get item "stable_identifier") (path +:+ ".stable_identifier") 3 300;
  identifiers ← identity "stable_identifier" identifier (identifiers g);
  check_research_times start end_ item path ;;
  _sha (dict_get item "source_sha256") (path +:+ ".source_sha256") ;;
  complain_if (negb (py_eq (dict_get item "status") (VStr "active")))
    (path +:+ ".status must be active for shortlist inclusion") ;;
  supersedes ← _strings (dict_get item "supersedes") (path +:+ ".supersedes") 0 16 3 96;
  check_themes item path ;;
  check_claims item path ;;
  _strings (dict_get item "interpretation") (path +:+ ".interpretation") 1 16 8 500 ;;
  _strings (dict_get item "uncertainty") (path +:+ ".uncertainty") 1 16 8 500 ;;
  _strings (dict_get item "proposed_experiments") (path +:+ ".proposed_experiments") 0 16 8 500 ;;
  scores ← check_scores item path;
  _sha (dict_get item "summary_sha256") (path +:+ ".summary_sha256") ;;
  entry ← lift (ranking_entry rank item_id scores);
  pass (Research ids identifiers urls (r_ranks g ++ entry)
    (match item_id with
     | Some item_id => assoc_set (supersession g) item_id supersedes
     | None => supersession g
     end)).

Definition _validate_research (l : list value) (start end_ : option datetime) : checked unit :=
  g ← check_each 0 l (check_research start end_) (Research [] [] [] [] []);
  check_ranks research_rank research_leb (length l) (r_ranks g)
    "research ranks must be unique and contiguous from 1"
    "research ranks must follow the deterministic composite score with item-id tie-breaking"
    "every research item must have complete deterministic scores" ;;
  check_supersession (r_ids g) (supersession g).

(** ** The digest *)

Definition records (root : items) : checked (list value) :=
  let complaint := complain "items must contain 1..200 records" ;; pass [] in
  match dict_get root "items" with
  | VList l =>
      if (1 <=? Z.of_nat (length l)) && (Z.of_nat (length l) <=? 200) then pass l else complaint
  | _ => complaint
  end.

(** The kind, the number of items, and the companies. *)
Definition check_digest (v : value) : checked (option string * nat * (nat * nat)) :=
  _walk_safe v "$" ;;
  root ← _exact_object v ROOT_KEYS "$";
  complain_if (negb (py_eq (dict_get root "schema_version") (VStr SCHEMA)))
    ("schema_version must be " +:+ SCHEMA) ;;
  _slug (dict_get root "digest_id") "digest_id" ;;
  kind ← _text (dict_get root "kind") "kind" 3 32;
  complain_if (negb (bool_decide (kind ∈ [Some "opportunity"; Some "research"])))
    "kind must be opportunity or research" ;;
  generated ← _timestamp (dict_get root "generated_at") "generated_at";
  '(start, end_) ← _validate_window root;
  check_in_window generated start end_ "generated_at" ;;
  _sha (dict_get root "policy_sha256") "policy_sha256" ;;
  l ← records root;
  companies ← (if bool_decide (kind = Some "opportunity") then _validate_opportunities l start end_
               else if bool_decide (kind = Some "research")
                    then _validate_research l start end_ ;; pass (0, 0)%nat
                    else pass (0, 0)%nat);
  _validate_safety root ;;
  pass (kind, length l, companies).

Record DigestReport : Type := mkDigestReport {
  valid : bool;
  digest_kind : option string;
  digest_sha256 : option string;
  item_count : nat;
  company_count : nat;
  fiducia_company_count : nat;
  errors : list string;
}.

Definition validate (v : value) : result DigestReport :=
  match check_digest v with
  | Failed e => Raise e
  | Done (kind, count, (companies, fiducia)) errors =>
      let '(checksum, errors) :=
        match canonical_sha256 v with
        | Ok digest => (Some digest, errors)
        | Raise e =>
            (None, errors ++ ["digest cannot be canonically serialized: " +:+ exn_msg e])
        end in
      Ok (mkDigestReport (bool_decide (errors = [])) kind checksum count companies fiducia errors)
  end.
End validate.

End Digest.
