(* ===== verification/DigestTheorems.v ===== *)
(** * Evidence digests: results

    What a digest that is accepted guarantees: the provenance of every
    opportunity and its place in the ranking, the rule over the roles of a
    company, and that nothing in the digest is authorised or prohibited. *)
From S2P Require Import Prelude PyValue Sha256 Json Contract DateTime Regex RecoveryCommon.
From S2P Require Import GitObjects Collect Url Fields Cycles Digest.
From Stdlib Require Import Ascii SpecFloat.

Module DigestTheorems.
Import Cycles Digest.
Open Scope Z_scope.

(** ** What the checks of a field accept *)

(** A text is the aware date-time [d]. *)
Definition reads (s : string) (d : datetime) : Prop :=
  fromisoformat (str_replace s "Z" utc_suffix) = Some (wall d, Some (offset d)).
(** A field holds a date-time. *)
Definition given (item : items) (key : string) (d : datetime) : Prop :=
  ∃ s, dict_get item key = VStr s ∧ reads s d.

Lemma aware_clean v path o :
  _timestamp v path = Done o [] → ∃ s d, v = VStr s ∧ o = Some d ∧ reads s d.
Proof.
  unfold _timestamp, reads. intros H. cleaned.
  destruct (fromisoformat _) as [[w [z|]]|] eqn:Hf; [|by cleaned..].
  cleaned. by exists x, (Datetime w z).
Qed.

Lemma optional_aware_clean item key path o :
  _optional_timestamp (dict_get item key) path = Done o [] →
  ∀ d, given item key d ↔ o = Some d.
Proof.
  unfold _optional_timestamp, given. destruct (is_none _) eqn:Hn; intros H d.
  - cleaned. apply is_none_true in Hn. rewrite Hn. split; [by intros (? & [=] & _)|done].
  - apply aware_clean in H as (s & e & Hs & -> & He). rewrite Hs. split.
    + intros (? & [= <-] & Hd). unfold reads in He, Hd. rewrite He in Hd.
      destruct d, e; simpl in *. by injection Hd as -> ->.
    + intros [= <-]. eauto.
Qed.

Lemma reads_given item key s d : dict_get item key = VStr s → reads s d → given item key d.
Proof. unfold given. eauto. Qed.

Lemma complain_both_clean x y p msg u :
  complain_both (Some x) (Some y) p msg = Done u [] ↔ p (instant x) (instant y) = false.
Proof. unfold complain_both. apply complain_if_clean. Qed.

Lemma in_window_clean t s e path u :
  check_in_window (Some t) (Some s) (Some e) path = Done u [] →
  instant s <= instant t < instant e.
Proof.
  unfold check_in_window. intros H. apply bind_clean in H as (? & Hs & He).
  apply complain_both_clean in Hs, He. bool_hyps. lia.
Qed.

Lemma digest_url_clean v path o :
  _url v path = Done o [] →
  ∃ s u, v = VStr s ∧ o = Some s ∧ Url.urlparse s = Ok u ∧ not_canonical u = false.
Proof.
  unfold _url. intros H. cleaned. destruct (not_canonical _) eqn:Hc0; [by cleaned|].
  cleaned. eauto 10.
Qed.

Lemma recognized_clean v choices msg u :
  recognized v choices msg = Done u [] → ∃ s, v = VStr s ∧ s ∈ choices.
Proof.
  unfold recognized. intros H. cleaned. destruct v; simpl in Hc; try done;
    injection Hc as <-; try done. apply negb_false_iff, mem_str_In in H. eauto.
Qed.

Lemma number_clean v path lo hi o :
  _number v path lo hi = Done o [] → ∃ f, float_of v = Ok (Some f) ∧ o = Some f ∧
    SFleb (double_of_int lo) f = true ∧ SFleb f (double_of_int hi) = true.
Proof.
  unfold _number. intros H. cleaned. destruct a as [f|]; [|by cleaned].
  destruct (_ && _) eqn:Hb; [|by cleaned]. cleaned. apply andb_true_iff in Hb as [? ?]. eauto.
Qed.

#[global] Arguments Digest._timestamp : simpl never.
#[global] Arguments _optional_timestamp : simpl never.
#[global] Arguments complain_both : simpl never.
#[global] Arguments check_in_window : simpl never.
#[global] Arguments Digest._url : simpl never.
#[global] Arguments recognized : simpl never.
#[global] Arguments _number : simpl never.

Ltac fields :=
  repeat (field_step ||
    match goal with
    | H : _timestamp _ _ = Done _ [] |- _ =>
        let E := fresh "Hstamp" in apply aware_clean in H as (? & ? & E & ? & ?); try subst
    | H : check_in_window (Some _) (Some _) (Some _) _ = Done _ [] |- _ => apply in_window_clean in H
    | H : _url _ _ = Done _ [] |- _ =>
        let E := fresh "Hurl" in apply digest_url_clean in H as (? & ? & E & ? & ? & ?); try subst
    | H : recognized _ _ _ = Done _ [] |- _ =>
        let E := fresh "Hset" in apply recognized_clean in H as (? & E & ?)
    | H : _number _ _ _ _ = Done _ [] |- _ =>
        let E := fresh "Hnum" in apply number_clean in H as (? & E & ? & ? & ?); try subst
    | H : identity _ (Some _) _ = Done _ [] |- _ => apply identity_clean in H as [? ?]; try subst
    end).

(** ** What an opportunity says *)

Definition item_id (d : items) : string := text_at d "id".
Definition rank (d : items) : Z := int_at d "rank".
Definition company (d : items) : string := text_at d "company_id".
Definition requisition (d : items) : string := text_at d "requisition_id".
Definition fit_score (d : items) : Z := int_at (object_at d "fit") "score".
Definition fiducia (d : items) : list string := texts_at d "fiducia_opportunity_ids".

(** The order of the ranks: the better fit first, then by company and
    requisition. *)
Definition better_fit (a b : items) : Prop :=
  fit_score b < fit_score a ∨ fit_score a = fit_score b ∧
  (String.ltb (company a) (company b) = true ∨
   company a = company b ∧ String.ltb (requisition a) (requisition b) = true).

(** Verified inside the window, after it was posted and before it expires. *)
Definition verified_in (s e : Z) (d : items) : Prop :=
  ∃ t, given d "verified_at" t ∧ s <= instant t < e ∧
    (∀ p, given d "posted_at" p → instant p <= instant t) ∧
    (∀ x, given d "expires_at" x → instant t < instant x).

(** Both ends of the pay are bounded numbers, the lower not above the upper. *)
Definition compensation_ok (v : value) : Prop :=
  v = VNone ∨ ∃ c lo hi, v = VDict c ∧
    float_of (dict_get c "minimum") = Ok (Some lo) ∧ float_of (dict_get c "maximum") = Ok (Some hi) ∧
    SFleb (double_of_int 0) lo = true ∧ SFleb hi (double_of_int 100000000) = true ∧
    SFltb hi lo = false.

Record opportunity_ok (s e : Z) (d : items) : Prop := {
  op_keys : same_keys d OPPORTUNITY_KEYS = true;
  op_id : dict_get d "id" = VStr (item_id d);
  op_rank : dict_get d "rank" = VInt (rank d);
  op_company : dict_get d "company_id" = VStr (company d) ∧ SLUG (company d) = true;
  op_requisition : dict_get d "requisition_id" = VStr (requisition d);
  op_source : dict_get d "source_kind" = VStr (text_at d "source_kind") ∧
    text_at d "source_kind" ∈ OPPORTUNITY_SOURCES;
  op_url : ∃ u, Url.urlparse (text_at d "canonical_url") = Ok u ∧ not_canonical u = false;
  op_verified : verified_in s e d;
  op_compensation : compensation_ok (dict_get d "compensation");
  op_score : dict_get (object_at d "fit") "score" = VInt (fit_score d) ∧ 0 <= fit_score d <= 100;
  op_fiducia : dict_get d "fiducia_opportunity_ids" = strs (fiducia d) ∧ NoDup (fiducia d) ∧
    Forall (λ s, SLUG s = true) (fiducia d);
  op_content : SHA256 (text_at d "content_sha256") = true;
}.

Lemma opportunity_times s e d path u :
  check_opportunity_times (Some s) (Some e) d path = Done u [] →
  verified_in (instant s) (instant e) d.
Proof.
  unfold check_opportunity_times. intros H. cleaned.
  apply aware_clean in Hc as (text & t & Ht & -> & Hreads).
  pose proof (optional_aware_clean _ _ _ _ Hc0) as Hposted.
  pose proof (optional_aware_clean _ _ _ _ Hc1) as Hexpires.
  exists t. split; [by eapply reads_given|]. split; [by eapply in_window_clean|]. split.
  - intros p ->%Hposted. apply complain_both_clean in Hc3. bool_hyps. lia.
  - intros x ->%Hexpires. apply complain_both_clean in H. bool_hyps. lia.
Qed.

Lemma compensation_clean v path u : _validate_compensation v path = Done u [] → compensation_ok v.
Proof.
  unfold _validate_compensation, compensation_ok. destruct (is_none v) eqn:Hn; intros H.
  - left. by apply is_none_true.
  - right. fields. eexists _, _, _. repeat (split; [eassumption|]). done.
Qed.

Lemma fit_clean v path o :
  _validate_fit v path = Done o [] →
  ∃ fit z, v = VDict fit ∧ o = Some z ∧ dict_get fit "score" = VInt z ∧ 0 <= z <= 100.
Proof.
  unfold _validate_fit. intros H. apply bind_clean in H as (fit & [-> _]%exact_object_clean & H).
  apply bind_clean in H as (score & (z & Hz & -> & Hb)%integer_clean & H).
  do 2 apply bind_clean in H as (? & _ & H). cleaned. eauto 10.
Qed.

Lemma fiducia_clean d path l :
  check_fiducia d path = Done l [] →
  l = fiducia d ∧ dict_get d "fiducia_opportunity_ids" = strs (fiducia d) ∧ NoDup (fiducia d) ∧
  Forall (λ s, SLUG s = true) (fiducia d).
Proof.
  unfold check_fiducia, fiducia. intros H. apply bind_clean in H as (f & [Hf Hnd]%strings_clean & H).
  apply bind_clean in H as (u & Hall & H). cleaned. rewrite (texts_at_strs _ _ _ Hf).
  repeat (split; [done|]). apply Forall_forall. intros s (j & Hj)%list_elem_of_lookup.
  rewrite check_each_clean in Hall. specialize (Hall j s Hj). apply complain_if_clean in Hall.
  by apply negb_false_iff.
Qed.

(** ** The companies of the items read so far *)

Definition roles_of (ds : list items) (c : string) : nat :=
  length (filter (λ d, company d = c) ds).

Record companies_of (ds : list items) (roles : list (string * nat))
    (sets : list (string * list string)) : Prop := {
  of_roles : ∀ c, default 0%nat (assoc_get roles c) = roles_of ds c;
  of_keys : roles.*1 = sets.*1;
  of_NoDup : NoDup sets.*1;
  of_known : ∀ c, c ∈ sets.*1 ↔ c ∈ map company ds;
  of_sets : ∀ d, d ∈ ds → assoc_get sets (company d) = Some (sorted_strs (fiducia d));
}.

Lemma assoc_get_unknown {A} (l : list (string * A)) k : assoc_get l k = None ↔ k ∉ l.*1.
Proof.
  induction l as [|[j x] l IH]; csimpl; [split; [intros _; apply not_elem_of_nil|done]|].
  rewrite not_elem_of_cons. destruct (String.eqb_spec k j) as [->|Hne]; [naive_solver|].
  rewrite IH. naive_solver.
Qed.

Lemma claim_company_step d ds roles sets roles' sets' :
  claim_company (company d) (fiducia d) roles sets = Done (roles', sets') [] →
  companies_of ds roles sets → companies_of (ds ++ [d]) roles' sets'.
Proof.
  unfold claim_company. intros H [Hroles Hkeys Hnd Hknown Hsets].
  assert (∃ sets1, roles' = assoc_set roles (company d) (roles_of ds (company d) + 1)%nat ∧
    sets' = assoc_set sets (company d) sets1 ∧ sets1 = sorted_strs (fiducia d) ∧
    ∀ s, assoc_get sets (company d) = Some s → s = sets1) as (s & -> & -> & Hs & Hsame).
  { rewrite Hroles in H. destruct (assoc_get sets (company d)) as [previous|] eqn:Hget; cleaned.
    - match goal with E : (_, _) = (_, _) |- _ => injection E as <- <- end.
      apply negb_false_iff, bool_decide_eq_true in Hc as ->.
      exists (sorted_strs (fiducia d)). rewrite (assoc_set_same sets) by done. naive_solver.
    - match goal with E : (_, _) = (_, _) |- _ => injection E as <- <- end. naive_solver. }
  split.
  - intros c. rewrite assoc_get_set. unfold roles_of. rewrite filter_app, length_app.
    destruct (String.eqb_spec c (company d)) as [->|Hne].
    + rewrite filter_cons_True by done. done.
    + rewrite filter_cons_False by congruence. simpl. rewrite Nat.add_0_r. apply Hroles.
  - by rewrite !assoc_set_keys, Hkeys.
  - by apply assoc_set_NoDup.
  - intros c. rewrite assoc_set_keys, map_app. case_bool_decide as Hin; simpl;
      rewrite !elem_of_app, ?Hknown, list_elem_of_singleton; [|done].
    split; [auto|]. intros [?| ->]; [done|by apply Hknown].
  - intros e [He| ->%list_elem_of_singleton]%elem_of_app; rewrite assoc_get_set.
    + destruct (String.eqb_spec (company e) (company d)) as [Heq|Hne]; [|by apply Hsets].
      rewrite <- (Hsame (sorted_strs (fiducia e))); [done|]. rewrite <- Heq. by apply Hsets.
    + by rewrite String.eqb_refl, Hs.
Qed.

(** ** One more opportunity *)

(** The identity, of which there is one of each. *)
Definition requisition_of (d : items) : string * string := (company d, requisition d).
Definition entry (d : items) : Z * Z * string * string :=
  (rank d, - fit_score d, company d, requisition d).

Record gathered_from (ds : list items) (g : opportunities) : Prop := {
  from_ids : ids g = map item_id ds;
  from_ids_NoDup : NoDup (map item_id ds);
  from_requisitions : requisitions g = map requisition_of ds;
  from_NoDup : NoDup (map requisition_of ds);
  from_ranks : ranks g = map entry ds;
  from_companies : companies_of ds (company_roles g) (company_fiducia g);
}.

Lemma claim_requisition_clean c r seen l :
  claim_requisition (Some c) (Some r) seen = Done l [] → (c, r) ∉ seen ∧ l = seen ++ [(c, r)].
Proof.
  unfold claim_requisition. intros H. cleaned. bool_hyps.
  by rewrite bool_decide_eq_false_2.
Qed.

Lemma NoDup_one_more {A} (l : list A) x : NoDup l → x ∉ l → NoDup (l ++ [x]).
Proof.
  intros Hl Hx. apply NoDup_app. split; [done|]. split; [|apply NoDup_singleton].
  by intros y Hy ->%list_elem_of_singleton.
Qed.

Lemma opportunity_step s e i raw ds g g' :
  check_opportunity (Some s) (Some e) i raw g = Done g' [] → gathered_from ds g →
  ∃ d, raw = VDict d ∧ opportunity_ok (instant s) (instant e) d ∧ gathered_from (ds ++ [d]) g'.
Proof.
  unfold check_opportunity. cbv zeta. intros H [Hids Hidnd Hreq Hnd Hranks Hcomp].
  apply bind_clean in H as (d & [-> Hkeys]%exact_object_clean & H).
  apply bind_clean in H as (oid & Hid & H). apply bind_clean in H as (ids' & Hids' & H).
  apply bind_clean in H as (orank & Hrank & H). apply bind_clean in H as (oc & Hc & H).
  apply bind_clean in H as (? & _ & H). apply bind_clean in H as (oreq & Hr & H).
  apply bind_clean in H as (? & _ & H). apply bind_clean in H as (ourl & Hurl & H).
  apply bind_clean in H as (urls' & _ & H). apply bind_clean in H as (reqs' & Hreqs' & H).
  apply bind_clean in H as (u1 & Hsource & H). apply bind_clean in H as (u2 & Htimes & H).
  apply opportunity_times in Htimes.
  apply bind_clean in H as (oscore & Hterms & H).
  apply bind_clean in H as (f & (-> & Hf & Hfnd & Hslugs)%fiducia_clean & H).
  apply bind_clean in H as (osha & Hsha & H). apply bind_clean in H as ([roles sets] & Hclaim & H).
  unfold check_opportunity_terms in Hterms. do 4 apply bind_clean in Hterms as (? & _ & Hterms).
  apply bind_clean in Hterms as (? & Hpay%compensation_clean & Hfit).
  apply fit_clean in Hfit as (fit & z & Hfit & -> & Hz & Hbounds).
  fields. apply (claim_requisition_clean _ _ _ _) in Hreqs' as [Hnew ->].
  exists d. split; [done|].
  pose proof (text_at_str _ _ _ Hdoc2 : item_id d = _) as <-.
  pose proof (text_at_str _ _ _ Hdoc1 : company d = _) as <-.
  pose proof (text_at_str _ _ _ Hdoc0 : requisition d = _) as <-.
  pose proof (int_at_int _ _ _ Hint : rank d = _) as <-.
  assert (fit_score d = z) as <-
    by (unfold fit_score; by rewrite (object_at_dict _ _ _ Hfit), (int_at_int _ _ _ Hz)).
  split.
  - constructor; try done; read_at; try done.
    by exists x8.
  - constructor; cbn [ids requisitions ranks company_roles company_fiducia];
      rewrite ?map_app; cbn [map].
    + by rewrite Hids.
    + apply NoDup_one_more; [done|]. by rewrite <- Hids.
    + by rewrite Hreq.
    + apply NoDup_one_more; [done|]. by rewrite <- Hreq.
    + by rewrite Hranks.
    + by eapply claim_company_step.
Qed.

Lemma no_opportunities : gathered_from [] (Opportunities [] [] [] [] [] []).
Proof.
  constructor; simpl; try done; try constructor; simpl; try done; try constructor.
  by intros ? ?%not_elem_of_nil.
Qed.

(** ** Ranks *)

Definition str_lt (s t : string) : Prop := String.ltb s t = true.
#[export] Instance str_lt_trans : Transitive str_lt.
Proof.
  intros s t u. unfold str_lt. rewrite !str_ltb_iff. intros [Hst Hne] [Htu Hne'].
  split; [by etransitivity|]. intros ->. by apply Hne, (anti_symm String.le).
Qed.
Lemma str_lt_asym s t : str_lt s t → ¬ str_lt t s.
Proof.
  unfold str_lt. rewrite !str_ltb_iff. intros [Hst Hne] [Hts _]. by apply Hne, (anti_symm String.le).
Qed.
Lemma str_leb_iff s t : str_leb s t = true ↔ str_lt s t ∨ s = t.
Proof.
  unfold str_lt. rewrite str_ltb_iff. unfold str_leb, String.le. rewrite Is_true_true.
  destruct (decide (s = t)) as [->|]; [|naive_solver]. split; [auto|]. intros _.
  by destruct (str_leb_total t t).
Qed.

Lemma str_pair_leb_iff p q :
  str_pair_leb p q = true ↔ str_lt p.1 q.1 ∨ p.1 = q.1 ∧ (str_lt p.2 q.2 ∨ p.2 = q.2).
Proof.
  unfold str_pair_leb. rewrite <- str_leb_iff. destruct (String.eqb_spec p.1 q.1) as [Heq|Hne].
  - split; [auto|]. intros [H|[_ H]]; [|done]. exfalso. rewrite Heq in H. by apply (str_lt_asym _ _ H).
  - rewrite (str_leb_iff p.1 q.1 : String.leb p.1 q.1 = true ↔ _). naive_solver.
Qed.

Lemma opportunity_leb_iff x y :
  opportunity_leb x y = true ↔
  let '(_, s, c, r) := x in let '(_, s', c', r') := y in
  s < s' ∨ s = s' ∧ (str_lt c c' ∨ c = c' ∧ (str_lt r r' ∨ r = r')).
Proof.
  destruct x as [[[? s] c] r], y as [[[? s'] c'] r']. unfold opportunity_leb.
  by rewrite orb_true_iff, andb_true_iff, str_pair_leb_iff, Z.ltb_lt, Z.eqb_eq.
Qed.

Lemma opportunity_leb_total x y : opportunity_leb x y = true ∨ opportunity_leb y x = true.
Proof.
  destruct x as [[[? s] c] r], y as [[[? s'] c'] r']. unfold opportunity_leb.
  rewrite !orb_true_iff, !andb_true_iff, !Z.ltb_lt, !Z.eqb_eq.
  destruct (str_pair_leb_total (c, r) (c', r')), (Z.lt_trichotomy s s') as [?|[?|?]]; auto.
Qed.

#[export] Instance opportunity_leb_trans : Transitive (λ x y, opportunity_leb x y = true).
Proof.
  intros [[[? s1] c1] r1] [[[? s2] c2] r2] [[[? s3] c3] r3]. rewrite !opportunity_leb_iff.
  intros [?|(-> & [?|(-> & H1)])] [?|(<- & [?|(<- & H2)])]; try (left; lia);
    right; (split; [done|]); try (by left); [left; by etransitivity|].
  right. split; [done|]. destruct H1 as [?| ->], H2 as [?| <-]; auto. left. by etransitivity.
Qed.

Lemma better_fit_asym a b : better_fit a b → ¬ better_fit b a.
Proof.
  unfold better_fit. change (String.ltb ?s ?t = true) with (str_lt s t).
  intros [?|(? & [H|(Heq & H)])] [?|(? & [H'|(Heq' & H')])]; try lia;
    try (by apply (str_lt_asym _ _ H)).
  - rewrite Heq' in H. by apply (str_lt_asym _ _ H).
  - rewrite Heq in H'. by apply (str_lt_asym _ _ H').
Qed.

Lemma ranks_follow_fit ds a b :
  NoDup (map requisition_of ds) →
  map opportunity_rank (stable_sort opportunity_leb (map entry ds))
    = map Z.of_nat (seq 1 (length ds)) →
  a ∈ ds → b ∈ ds → rank a < rank b ↔ better_fit a b.
Proof.
  intros Hnd Hranks.
  assert (∀ x y, x ∈ ds → y ∈ ds → requisition_of x = requisition_of y → x = y) as Hinj
    by (intros x y Hx Hy Heq; by apply (key_inj requisition_of ds)).
  apply (ranks_are_positions entry opportunity_rank opportunity_leb opportunity_leb_total
    opportunity_leb_trans better_fit better_fit_asym ds); [| |exact Hranks].
  - intros x y Hx Hy Hne. rewrite opportunity_leb_iff. unfold entry, better_fit.
    intros [?|(? & [?|(? & [?|?])])]; [left; lia|right; split; [lia|auto]..|].
    destruct Hne. apply Hinj; [done..|]. unfold requisition_of. congruence.
  - intros x y Hx Hy Heq. apply Hinj; [done..|]. unfold requisition_of.
    by injection Heq as _ _ -> ->.
Qed.

(** ** The companies of the whole digest *)

(** The companies that carry Fiducia opportunities. *)
Definition fiducia_items (ds : list items) : list items := filter (λ d, fiducia d ≠ []) ds.
Definition distinct (l : list string) : nat := length (remove_dups l).

Lemma distinct_length (l m : list string) :
  NoDup m → (∀ c, c ∈ m ↔ c ∈ l) → length m = distinct l.
Proof.
  intros Hnd H. apply Permutation_length, NoDup_Permutation; [done|apply NoDup_remove_dups|].
  intros c. by rewrite elem_of_remove_dups.
Qed.

Lemma company_count_clean ds roles sets :
  companies_of ds roles sets → length roles = distinct (map company ds).
Proof.
  intros [_ Hkeys Hnd Hknown _]. rewrite <- (length_fmap fst roles), Hkeys.
  by apply distinct_length.
Qed.

Lemma companies_loop roles i sets n count :
  check_each i sets (check_company roles) n = Done count [] →
  count = (n + length (filter (λ e, e.2 ≠ []) sets))%nat ∧
  ∀ c l, (c, l) ∈ sets → l ≠ [] → default 0%nat (assoc_get roles c) ∈ [2; 3]%nat.
Proof.
  revert i n; induction sets as [|[c l] sets IH]; intros i n; simpl.
  - intros H. cleaned. split; [lia|]. by intros ?? ?%not_elem_of_nil.
  - intros H. apply bind_clean in H as (n1 & Hc & H). apply IH in H as [-> Hall].
    case_bool_decide as Hl.
    + cleaned. rewrite filter_cons_False by auto. split; [done|].
      intros c' l' [[= -> ->]|?]%elem_of_cons Hl'; [done|by eapply Hall].
    + cleaned. apply negb_false_iff, bool_decide_eq_true in Hc0.
      rewrite filter_cons_True by auto. simpl. split; [lia|].
      intros c' l' [[= -> ->]|?]%elem_of_cons; eauto.
Qed.

Lemma fiducia_count_clean ds roles sets :
  companies_of ds roles sets →
  length (filter (λ e, e.2 ≠ []) sets) = distinct (map company (fiducia_items ds)).
Proof.
  intros [_ _ Hnd Hknown Hsets]. rewrite <- (length_fmap fst).
  apply distinct_length.
  - eapply sublist_NoDup; [exact Hnd|]. apply fmap_sublist, sublist_filter.
  - intros c. rewrite !list_elem_of_fmap. unfold fiducia_items. split.
    + intros ([c' l] & -> & [Hl Hin]%list_elem_of_filter). simpl in Hl |- *.
      assert (c' ∈ map company ds) as (d & -> & Hd)%list_elem_of_fmap
        by (apply Hknown, list_elem_of_fmap; by exists (c', l)).
      exists d. split; [done|]. apply list_elem_of_filter. split; [|done]. intros Hf.
      apply assoc_get_elem in Hin; [|done]. rewrite (Hsets d Hd), Hf in Hin. by injection Hin as <-.
    + intros (d & -> & [Hf Hd]%list_elem_of_filter).
      exists (company d, sorted_strs (fiducia d)). split; [done|]. apply list_elem_of_filter.
      split; [simpl; by rewrite sorted_strs_nil|]. apply assoc_get_elem; auto.
Qed.

(** Everything a clean run of the loops says of the opportunities. *)
Record opportunities_ok (s e : Z) (ds : list items) (counts : nat * nat) : Prop := {
  all_ok : Forall (opportunity_ok s e) ds;
  all_ids : NoDup (map item_id ds);
  all_requisitions : NoDup (map requisition_of ds);
  all_ranks : map rank ds ≡ₚ map Z.of_nat (seq 1 (length ds));
  all_ranked : ∀ a b, a ∈ ds → b ∈ ds → rank a < rank b ↔ better_fit a b;
  all_roles : ∀ d, d ∈ ds → fiducia d ≠ [] → roles_of ds (company d) ∈ [2; 3]%nat;
  all_consistent : ∀ d d', d ∈ ds → d' ∈ ds → company d = company d' → fiducia d ≡ₚ fiducia d';
  all_counts : counts = (distinct (map company ds), distinct (map company (fiducia_items ds)));
}.

Lemma check_ranks_clean {K} (rank_of : K → Z) leb n l m1 m2 m3 u :
  check_ranks rank_of leb n l m1 m2 m3 = Done u [] →
  length l = n ∧ map rank_of l ≡ₚ map Z.of_nat (seq 1 (length l)) ∧
  map rank_of (stable_sort leb l) = map Z.of_nat (seq 1 (length l)).
Proof.
  unfold check_ranks. intros H. cleaned.
  apply negb_false_iff, Nat.eqb_eq in H as <-.
  apply negb_false_iff, bool_decide_eq_true in Hc, Hc0. split; [done|]. split; [|done].
  by rewrite <- Hc, stable_sort_Permutation.
Qed.

Lemma opportunities_clean l s e counts :
  _validate_opportunities l (Some s) (Some e) = Done counts [] →
  ∃ ds, l = map VDict ds ∧ opportunities_ok (instant s) (instant e) ds counts.
Proof.
  unfold _validate_opportunities. intros H. apply bind_clean in H as (g & Hg & H).
  apply (gathers_each _ VDict gathered_from _ (opportunity_step s e) _ _ []) in Hg
    as (ds & -> & Hall & Hfrom); [|exact no_opportunities].
  simpl in Hfrom. destruct Hfrom as [_ Hids _ Hnd Hranks Hcomp].
  apply bind_clean in H as (u & (Hlen & Hperm & Hsorted)%check_ranks_clean & H).
  apply bind_clean in H as (n & [-> Hroles]%companies_loop & H). cleaned.
  rewrite Hranks in *. rewrite map_map, length_map in *.
  exists ds. split; [done|]. constructor; try done.
  - intros a b. by apply ranks_follow_fit.
  - intros d Hd Hf. rewrite <- (of_roles _ _ _ Hcomp).
    apply (Hroles _ (sorted_strs (fiducia d))); [|by rewrite sorted_strs_nil].
    apply assoc_get_elem; [apply Hcomp|by apply (of_sets _ _ _ Hcomp)].
  - intros d d' Hd Hd' Heq. rewrite <- (sorted_strs_Permutation (fiducia d)).
    rewrite <- (sorted_strs_Permutation (fiducia d')).
    pose proof (of_sets _ _ _ Hcomp d Hd) as H1. rewrite Heq, (of_sets _ _ _ Hcomp d' Hd') in H1.
    by injection H1 as ->.
  - by rewrite (company_count_clean _ _ _ Hcomp), (fiducia_count_clean _ _ _ Hcomp).
Qed.

(** ** The whole digest *)

(** The window, and the digest made inside it. *)
Definition window_ok (root : items) (s e : datetime) : Prop :=
  given (object_at root "window") "start" s ∧ given (object_at root "window") "end" e ∧
  instant s < instant e ∧
  ∃ g, given root "generated_at" g ∧ instant s <= instant g < instant e.

Record sealed (v : value) (root : items) (s e : datetime) : Prop := {
  sealed_root : v = VDict root;
  sealed_walk : no_forbidden forbidden_keys v;
  sealed_window : window_ok root s e;
  sealed_policy : SHA256 (text_at root "policy_sha256") = true;
  sealed_safety : ∀ key, key ∈ unauthorized → dict_get (object_at root "safety") key = VBool false;
}.

Lemma window_clean root a b :
  _validate_window root = Done (a, b) [] →
  ∃ s e, a = Some s ∧ b = Some e ∧ instant s < instant e ∧
    given (object_at root "window") "start" s ∧ given (object_at root "window") "end" e.
Proof.
  unfold _validate_window. intros H. fields.
  match goal with E : (_, _) = (_, _) |- _ => injection E as <- <- end.
  apply complain_both_clean in Hc3. bool_hyps. eexists _, _. do 2 (split; [reflexivity|]).
  split; [lia|]. rewrite (object_at_dict _ _ _ Hdoc). split; by eapply reads_given.
Qed.

Lemma digest_safety_clean root u :
  _validate_safety root = Done u [] →
  ∀ key, key ∈ unauthorized → dict_get (object_at root "safety") key = VBool false.
Proof.
  unfold _validate_safety. intros H key (j & Hj)%list_elem_of_lookup. fields.
  rewrite (object_at_dict _ _ _ Hdoc). rewrite check_each_clean in Hc0.
  specialize (Hc0 j key Hj). apply complain_if_clean, negb_false_iff in Hc0. by apply is_bool_true.
Qed.

Section digests.
Context (score_order : list string).

(** What was checked of the items, by the kind of the digest. *)
Definition items_checked (kind : string) (l : list value) (s e : datetime) (counts : nat * nat)
  : Prop :=
  (kind = "opportunity" ∧ _validate_opportunities l (Some s) (Some e) = Done counts []) ∨
  (kind = "research" ∧ counts = (0, 0)%nat ∧
   _validate_research score_order l (Some s) (Some e) = Done tt []).

Lemma check_digest_clean v kind n counts :
  check_digest score_order v = Done (kind, n, counts) [] →
  ∃ root s e l k, sealed v root s e ∧ dict_get root "items" = VList l ∧ n = length l ∧
    dict_get root "kind" = VStr k ∧ kind = Some k ∧ items_checked k l s e counts.
Proof.
  unfold check_digest. intros H. apply bind_clean in H as (u & Hwalk & H).
  injection Hwalk as _ Hwalk%walk_safe_nil.
  apply bind_clean in H as (root & [-> Hkeys]%exact_object_clean & H).
  do 2 apply bind_clean in H as (? & _ & H).
  apply bind_clean in H as (okind & (k & Hk & -> & _)%text_clean & H).
  apply bind_clean in H as (u1 & Hkind%complain_if_clean%negb_false_iff%bool_decide_eq_true & H).
  apply bind_clean in H as (og & (text & g & Hg & -> & Hgen)%aware_clean & H).
  apply bind_clean in H as ([a b] & (s & e & -> & -> & Hlt & Hs & He)%window_clean & H).
  apply bind_clean in H as (u2 & Hin%in_window_clean & H).
  apply bind_clean in H as (osha & (sha & Hsha & -> & Hpolicy)%sha_clean & H).
  apply bind_clean in H as (l & Hl & H). apply bind_clean in H as (companies & Hitems & H).
  apply bind_clean in H as (u3 & Hsafe & H). cleaned.
  match goal with E : (_, _) = (_, _) |- _ => injection E as <- <- <- end.
  assert (dict_get root "items" = VList l) as Hl'.
  { unfold records in Hl. destruct (dict_get root "items"); try by cleaned.
    destruct (_ && _); by cleaned. }
  exists root, s, e, l, k. split; [|do 4 (split; [done|])].
  - constructor; [done|done| |by read_at|by eapply digest_safety_clean].
    split; [done|]. split; [done|]. split; [done|]. exists g. split; [by eapply reads_given|done].
  - unfold items_checked. rewrite !elem_of_cons, elem_of_nil in Hkind.
    destruct Hkind as [[= ->]|[[= ->]|[]]]; [by left|right].
    rewrite bool_decide_eq_false_2, bool_decide_eq_true_2 in Hitems by done. cleaned. done.
Qed.

Lemma validate_clean v r :
  validate score_order v = Ok r → valid r = true →
  digest_sha256 r = Some (sha256_value v) ∧
  ∃ root s e l k, sealed v root s e ∧ dict_get root "items" = VList l ∧
    item_count r = length l ∧ dict_get root "kind" = VStr k ∧ digest_kind r = Some k ∧
    items_checked k l s e (company_count r, fiducia_company_count r).
Proof.
  unfold validate. destruct (check_digest score_order v) as [[[kind n] [c f]] es|] eqn:Hd; [|done].
  destruct (canonical_sha256 v) as [sha|] eqn:Hsha; intros [= <-] Hv; simpl in Hv |- *; bool_hyps.
  - subst es. apply check_digest_clean in Hd as (root & s & e & l & k & Hd).
    split; [|by exists root, s, e, l, k]. pose proof (canonical_sha256_finite _ _ Hsha) as Hf.
    rewrite canonical_sha256_Ok in Hsha by done. by injection Hsha as ->.
  - by apply app_nil in Hv as [_ ?].
Qed.

(** In a valid digest of opportunities every item comes from an official
    source and was verified inside the window; the ranks are 1 to n, and one
    item ranks before another exactly when it fits better, companies and
    requisitions breaking ties; no requisition is listed twice. *)
Theorem valid_opportunities_ranked (v : value) (r : DigestReport) :
  validate score_order v = Ok r → valid r = true → digest_kind r = Some "opportunity" →
  ∃ root s e ds, v = VDict root ∧ dict_get root "items" = VList (map VDict ds) ∧
    window_ok root s e ∧ Forall (opportunity_ok (instant s) (instant e)) ds ∧
    map rank ds ≡ₚ map Z.of_nat (seq 1 (length ds)) ∧
    (∀ a b, a ∈ ds → b ∈ ds → rank a < rank b ↔ better_fit a b) ∧
    NoDup (map requisition_of ds).
Proof.
  intros H Hv Hk. apply validate_clean in H as (_ & root & s & e & l & k & Hs & Hl & _ & _ & Hk' & Hi);
    [|done]. rewrite Hk' in Hk. injection Hk as ->.
  destruct Hi as [[_ (ds & -> & Hds)%opportunities_clean]|[[=] _]].
  exists root, s, e, ds. destruct Hs, Hds. done.
Qed.

(** C18: In a valid digest of opportunities a company that carries Fiducia
    opportunities has exactly two or three roles, and all roles of a company
    carry the same ones; the report counts the companies and those that carry
    any. *)
Theorem fiducia_companies_whole (v : value) (r : DigestReport) :
  validate score_order v = Ok r → valid r = true → digest_kind r = Some "opportunity" →
  ∃ root ds, v = VDict root ∧ dict_get root "items" = VList (map VDict ds) ∧
    (∀ d, d ∈ ds → fiducia d ≠ [] → roles_of ds (company d) ∈ [2; 3]%nat) ∧
    (∀ d d', d ∈ ds → d' ∈ ds → company d = company d' → fiducia d ≡ₚ fiducia d') ∧
    company_count r = distinct (map company ds) ∧
    fiducia_company_count r = distinct (map company (fiducia_items ds)).
Proof.
  intros H Hv Hk. apply validate_clean in H as (_ & root & s & e & l & k & Hs & Hl & _ & _ & Hk' & Hi);
    [|done]. rewrite Hk' in Hk. injection Hk as ->.
  destruct Hi as [[_ (ds & -> & Hds)%opportunities_clean]|[[=] _]].
  exists root, ds. destruct Hs, Hds as [_ _ _ _ _ ? ? [= -> ->]]. done.
Qed.

(** A valid digest of either kind is reported under its own checksum; it
    authorises nothing and declares that it holds no credentials and no
    personal data, and no key of it, at any depth, is a prohibited one. *)
Theorem valid_digest_is_sealed (v : value) (r : DigestReport) :
  validate score_order v = Ok r → valid r = true →
  digest_sha256 r = Some (sha256_value v) ∧ no_forbidden forbidden_keys v ∧
  ∃ root, v = VDict root ∧
    (digest_kind r = Some "opportunity" ∨ digest_kind r = Some "research") ∧
    ∀ key, key ∈ unauthorized → dict_get (object_at root "safety") key = VBool false.
Proof.
  intros H Hv. apply validate_clean in H as (Hsha & root & s & e & l & k & Hs & _ & _ & _ & -> & Hi);
    [|done]. destruct Hs. split; [done|]. split; [done|]. exists root. split; [done|].
  split; [|done]. destruct Hi as [[-> _]|[-> _]]; auto.
Qed.
End digests.

(** ** A digest of opportunities *)

Definition sample_sha : string := "aaaaaaaaaaaaaaaaaaaaaaaaaaaaaaaaaaaaaaaaaaaaaaaaaaaaaaaaaaaaaaaa".
Definition pay (n : Z) : value := VFloat (double_of_int n).

Definition sample_opportunity (id : string) (rank : Z) (requisition : string) (score : Z) : value :=
  VDict [("id", VStr id); ("rank", VInt rank); ("company_id", VStr "acme");
    ("company_name", VStr "Acme"); ("requisition_id", VStr requisition);
    ("title", VStr "Platform engineer");
    ("canonical_url", VStr ("https://jobs.acme.test/" +:+ requisition));
    ("source_kind", VStr "official_ats"); ("verified_at", VStr "2026-09-04T12:00:00+02:00");
    ("posted_at", VStr "2026-09-01T00:00:00Z"); ("expires_at", VNone); ("locations", strs ["Berlin"]);
    ("remote_policy", VStr "hybrid"); ("employment_type", VStr "full_time");
    ("role_family", VStr "platform");
    ("compensation", VDict [("currency", VStr "EUR"); ("minimum", VInt 90000);
      ("maximum", pay 120000); ("period", VStr "year");
      ("evidence_url", VStr "https://acme.test/pay")]);
    ("fit", VDict [("score", VInt score); ("must_have_matches", strs ["Rust"]);
      ("preferred_matches", VList []); ("must_have_gaps", VList []); ("preferred_gaps", VList []);
      ("unknowns", VList []); ("evidence_sha256", VStr sample_sha)]);
    ("fiducia_opportunity_ids", strs ["fiducia-one"]); ("content_sha256", VStr sample_sha)].

Definition sample_root (kind : string) (l : list value) : value :=
  VDict [("schema_version", VStr SCHEMA); ("digest_id", VStr "daily-digest"); ("kind", VStr kind);
    ("generated_at", VStr "2026-09-04T23:00:00Z");
    ("window", VDict [("start", VStr "2026-09-04T00:00:00Z"); ("end", VStr "2026-09-05T00:00:00Z");
      ("timezone", VStr "UTC")]);
    ("policy_sha256", VStr sample_sha); ("items", VList l);
    ("safety", VDict (map (λ k, (k, VBool false)) unauthorized
      ++ [("notes", strs ["Nothing is sent."])]))].

Definition sample_digest : value :=
  sample_root "opportunity"
    [sample_opportunity "second-role" 2 "req-1" 80; sample_opportunity "first-role" 1 "req-2" 90].
Definition sample_report : DigestReport :=
  mkDigestReport true (Some "opportunity") (Some (sha256_value sample_digest)) 2 1 1 [].

Lemma sample_digest_validates : validate SCORE_KEYS sample_digest = Ok sample_report.
Proof. vm_compute. reflexivity. Qed.

Lemma valid_opportunities_ranked_witness :
  validate SCORE_KEYS sample_digest = Ok sample_report ∧
  ∃ root s e ds, sample_digest = VDict root ∧ dict_get root "items" = VList (map VDict ds) ∧
    window_ok root s e ∧ Forall (opportunity_ok (instant s) (instant e)) ds ∧
    map rank ds ≡ₚ map Z.of_nat (seq 1 (length ds)) ∧
    (∀ a b, a ∈ ds → b ∈ ds → rank a < rank b ↔ better_fit a b) ∧
    NoDup (map requisition_of ds).
Proof.
  split; [exact sample_digest_validates|].
  exact (valid_opportunities_ranked SCORE_KEYS sample_digest sample_report
    sample_digest_validates eq_refl eq_refl).
Defined.

Lemma fiducia_companies_whole_witness :
  validate SCORE_KEYS sample_digest = Ok sample_report ∧
  ∃ root ds, sample_digest = VDict root ∧ dict_get root "items" = VList (map VDict ds) ∧
    (∀ d, d ∈ ds → fiducia d ≠ [] → roles_of ds (company d) ∈ [2; 3]%nat) ∧
    (∀ d d', d ∈ ds → d' ∈ ds → company d = company d' → fiducia d ≡ₚ fiducia d') ∧
    company_count sample_report = distinct (map company ds) ∧
    fiducia_company_count sample_report = distinct (map company (fiducia_items ds)).
Proof.
  split; [exact sample_digest_validates|].
  exact (fiducia_companies_whole SCORE_KEYS sample_digest sample_report
    sample_digest_validates eq_refl eq_refl).
Defined.

Lemma valid_digest_is_sealed_witness :
  validate SCORE_KEYS sample_digest = Ok sample_report ∧
  digest_sha256 sample_report = Some (sha256_value sample_digest) ∧
  no_forbidden forbidden_keys sample_digest.
Proof.
  split; [exact sample_digest_validates|].
  destruct (valid_digest_is_sealed SCORE_KEYS sample_digest sample_report sample_digest_validates
    eq_refl) as (Hsha & Hwalk & _). exact (conj Hsha Hwalk).
Defined.

(** ** Inputs on which the validator raises, and texts it lets through *)

Example huge_salary_raises :
  _number (VInt (2 ^ 1024)) "items[0].compensation.minimum" 0 100000000 = Failed too_large.
Proof. reflexivity. Qed.

(** The complaint asks for [YYYY-MM-DD]; a week date is accepted. *)
Example week_date_accepted :
  _date (VStr "2026-W36-5") "items[0].publication_date" =
  _date (VStr "2026-09-04") "items[0].publication_date" ∧
  _date (VStr "2026-W36-5") "items[0].publication_date" = Done (Some 739863) [].
Proof. split; vm_compute; reflexivity. Qed.

End DigestTheorems.
