(* ===== verification/ResearchTheorems.v ===== *)
(** * Research digests: results

    What a digest of research that is accepted guarantees: the provenance of
    every item, its place in the ranking, and that supersession stays inside
    the digest and never comes back to where it started. *)
From S2P Require Import Prelude PyValue Sha256 Json Contract DateTime Regex RecoveryCommon.
From S2P Require Import GitObjects Collect Url Fields Cycles CycleTheorems Digest DigestTheorems.
From Stdlib Require Import Ascii SpecFloat.

Module ResearchTheorems.
Import Cycles CycleTheorems Digest DigestTheorems.
Open Scope Z_scope.

(** ** What a research item says *)

Definition supersedes (d : items) : list string := texts_at d "supersedes".
Definition identifier (d : items) : string := text_at d "stable_identifier".
Definition score (d : items) (name : string) : Z := int_at (object_at d "scores") name.
Definition merit (d : items) : Z :=
  score d "relevance" * 30 + score d "novelty" * 20 + score d "evidence_quality" * 25
  + (100 - score d "implementation_cost") * 10 + score d "falsifiability" * 15.

(** The order of the ranks: the greater merit first, then by identity. *)
Definition more_merit (a b : items) : Prop :=
  merit b < merit a ∨ merit a = merit b ∧ String.ltb (item_id a) (item_id b) = true.

(** Retrieved inside the window, not before it was published or updated. *)
Definition retrieved_in (s e : Z) (d : items) : Prop :=
  ∃ t day, given d "retrieved_at" t ∧ s <= instant t < e ∧
    (∀ u, given d "updated_at" u → instant u <= instant t) ∧
    date_fromisoformat (text_at d "publication_date") = Some day ∧ day <= date_of t.

(** Every claim names the fragment of the source it rests on. *)
Definition claims_ok (d : items) : Prop :=
  ∃ claims, dict_get d "claims" = VList (map VDict claims) ∧ claims ≠ [] ∧
    Forall (λ c, SHA256 (text_at c "source_fragment_sha256") = true) claims.

Record research_ok (s e : Z) (d : items) : Prop := {
  re_keys : same_keys d RESEARCH_KEYS = true;
  re_id : dict_get d "id" = VStr (item_id d);
  re_rank : dict_get d "rank" = VInt (rank d);
  re_source : dict_get d "source_kind" = VStr (text_at d "source_kind") ∧
    text_at d "source_kind" ∈ RESEARCH_SOURCES;
  re_url : ∃ u, Url.urlparse (text_at d "canonical_url") = Ok u ∧ not_canonical u = false;
  re_retrieved : retrieved_in s e d;
  re_active : dict_get d "status" = VStr "active";
  re_supersedes : dict_get d "supersedes" = strs (supersedes d);
  re_claims : claims_ok d;
  re_scores : ∀ name, name ∈ SCORE_KEYS →
    dict_get (object_at d "scores") name = VInt (score d name) ∧ 0 <= score d name <= 100;
  re_sources : SHA256 (text_at d "source_sha256") = true ∧ SHA256 (text_at d "summary_sha256") = true;
}.

Lemma date_clean v path o :
  _date v path = Done o [] → ∃ s day, v = VStr s ∧ o = Some day ∧ date_fromisoformat s = Some day.
Proof.
  unfold _date. intros H. cleaned. destruct (date_fromisoformat x) eqn:Hd; cleaned. eauto.
Qed.

Lemma research_times s e d path u :
  check_research_times (Some s) (Some e) d path = Done u [] →
  retrieved_in (instant s) (instant e) d.
Proof.
  unfold check_research_times. intros H. cleaned.
  apply date_clean in Hc as (day_text & day & Hday & -> & Hread).
  pose proof (optional_aware_clean _ _ _ _ Hc0) as Hupdated.
  apply aware_clean in Hc1 as (text & t & Ht & -> & Hreads).
  apply in_window_clean in Hc2. bool_hyps.
  exists t, day. split; [by eapply reads_given|]. split; [done|]. split; [|by read_at; split; [|lia]].
  intros x ->%Hupdated. apply complain_both_clean in H. bool_hyps. lia.
Qed.

Lemma claims_loop path i l u :
  check_each i l (check_claim path) tt = Done u [] →
  ∃ claims, l = map VDict claims ∧
    Forall (λ c, SHA256 (text_at c "source_fragment_sha256") = true) claims.
Proof.
  intros H. apply (gathers_each (λ c, SHA256 (text_at c "source_fragment_sha256") = true) VDict
    (λ _ _, True) (check_claim path)) with (ds := []) in H as (claims & -> & Hall & _); [by eauto| |done].
  clear. intros i x ds [] [] H _. unfold check_claim in H. fields. eexists. split; [reflexivity|].
  by read_at.
Qed.

Lemma claims_clean d path u : check_claims d path = Done u [] → claims_ok d.
Proof.
  unfold check_claims, claims_ok. destruct (dict_get d "claims") as [| | | | |l|]; try (intros; by cleaned).
  destruct (_ && _) eqn:Hb; [|intros; by cleaned]. intros (claims & -> & Hall)%claims_loop.
  exists claims. split; [done|]. split; [|done]. intros ->. done.
Qed.

(** ** One more research item *)

Section score_order.
Context (score_order : list string) (Hscores : score_order ≡ₚ SCORE_KEYS).

Definition research_entry (d : items) : Z * Z * string := (rank d, - merit d, item_id d).

Lemma check_scores_ok d path r :
  check_scores score_order d path = Done r [] →
  r = map (λ n, (n, score d n)) score_order ∧
  ∀ n, n ∈ SCORE_KEYS → dict_get (object_at d "scores") n = VInt (score d n) ∧ 0 <= score d n <= 100.
Proof using Hscores.
  unfold check_scores. intros H. cleaned. apply scores_loop in H as [-> H].
  - unfold score. rewrite (object_at_dict _ _ _ Hdoc). split; [done|].
    intros n Hn. apply H. by rewrite Hscores.
  - simpl. rewrite Hscores. apply (bool_decide_eq_true_1 _). reflexivity.
Qed.

Lemma ranking_entry_ok d l :
  ranking_entry (Some (rank d)) (Some (item_id d)) (map (λ n, (n, score d n)) score_order) = Ok l →
  l = [research_entry d].
Proof using Hscores.
  unfold ranking_entry. rewrite length_map, (Permutation_length Hscores). simpl.
  unfold _research_composite.
  rewrite !subscript_table by (rewrite Hscores; apply mem_str_In; reflexivity).
  rewrite !ok_bind. by intros [= <-].
Qed.

Record gathered_research (ds : list items) (g : research) : Prop := {
  from_r_ids : r_ids g = map item_id ds;
  from_r_NoDup : NoDup (map item_id ds);
  from_identifiers : identifiers g = map identifier ds;
  from_identifiers_NoDup : NoDup (map identifier ds);
  from_r_ranks : r_ranks g = map research_entry ds;
  from_supersession : supersession g = map (λ d, (item_id d, supersedes d)) ds;
}.

Lemma research_step s e i raw ds g g' :
  check_research score_order (Some s) (Some e) i raw g = Done g' [] → gathered_research ds g →
  ∃ d, raw = VDict d ∧ research_ok (instant s) (instant e) d ∧ gathered_research (ds ++ [d]) g'.
Proof using Hscores.
  unfold check_research. cbv zeta. intros H [Hids Hnd Hidents Hidnd Hranks Hgraph].
  apply bind_clean in H as (d & [-> Hkeys]%exact_object_clean & H).
  apply bind_clean in H as (oid & Hid & H). apply bind_clean in H as (ids' & Hids' & H).
  apply bind_clean in H as (orank & Hrank & H).
  do 2 apply bind_clean in H as (? & _ & H).
  apply bind_clean in H as (u1 & Hsource & H). apply bind_clean in H as (ourl & Hurl & H).
  apply bind_clean in H as (urls' & _ & H). apply bind_clean in H as (oident & Hident & H).
  apply bind_clean in H as (idents' & Hidents' & H).
  apply bind_clean in H as (u2 & Htimes%research_times & H).
  apply bind_clean in H as (osha & Hsha & H). apply bind_clean in H as (u3 & Hactive & H).
  apply bind_clean in H as (sup & [Hsup _]%strings_clean & H).
  apply bind_clean in H as (u4 & _ & H). apply bind_clean in H as (u5 & Hclaims%claims_clean & H).
  do 3 apply bind_clean in H as (? & _ & H).
  apply bind_clean in H as (scores & [-> Hsc]%check_scores_ok & H).
  apply bind_clean in H as (osum & Hsum & H). apply bind_clean in H as (entry & Hentry & H).
  pose proof (texts_at_strs _ _ _ Hsup : supersedes d = sup) as <-. fields.
  pose proof (text_at_str _ _ _ Hdoc2 : item_id d = _) as <-.
  exists d. split; [done|].
  pose proof (int_at_int _ _ _ Hint : rank d = _) as <-.
  pose proof (text_at_str _ _ _ Hdoc1 : identifier d = _) as <-.
  apply ranking_entry_ok in Hentry as ->.
  split.
  - constructor; try done; read_at; try done; [by exists x10|].
    by apply negb_false_iff, py_eq_str in Hactive.
  - constructor; cbn [r_ids identifiers r_ranks supersession]; rewrite ?map_app; cbn [map].
    + by rewrite Hids.
    + apply NoDup_one_more; [done|]. by rewrite <- Hids.
    + by rewrite Hidents.
    + apply NoDup_one_more; [done|]. by rewrite <- Hidents.
    + by rewrite Hranks.
    + rewrite Hgraph. apply assoc_set_fresh. rewrite <- list_fmap_compose.
      change (item_id d ∉ map item_id ds). by rewrite <- Hids.
Qed.

Lemma no_research : gathered_research [] (Research [] [] [] [] []).
Proof. constructor; simpl; try done; constructor. Qed.

(** ** Ranks *)

Lemma research_leb_iff x y :
  research_leb x y = true ↔
  let '(_, s, i) := x in let '(_, s', i') := y in s < s' ∨ s = s' ∧ (str_lt i i' ∨ i = i').
Proof.
  destruct x as [[? s] i], y as [[? s'] i']. unfold research_leb.
  by rewrite orb_true_iff, andb_true_iff, str_leb_iff, Z.ltb_lt, Z.eqb_eq.
Qed.

Lemma research_leb_total x y : research_leb x y = true ∨ research_leb y x = true.
Proof.
  destruct x as [[? s] i], y as [[? s'] i']. unfold research_leb.
  rewrite !orb_true_iff, !andb_true_iff, !Z.ltb_lt, !Z.eqb_eq.
  destruct (str_leb_total i i'), (Z.lt_trichotomy s s') as [?|[?|?]]; auto.
Qed.

#[export] Instance research_leb_trans : Transitive (λ x y, research_leb x y = true).
Proof.
  intros [[? s1] i1] [[? s2] i2] [[? s3] i3]. rewrite !research_leb_iff.
  intros [?|(-> & H1)] [?|(<- & H2)]; try (left; lia); right; (split; [done|]).
  destruct H1 as [?| ->], H2 as [?| <-]; auto. left. by etransitivity.
Qed.

Lemma more_merit_asym a b : more_merit a b → ¬ more_merit b a.
Proof.
  unfold more_merit. change (String.ltb ?s ?t = true) with (str_lt s t).
  intros [?|(? & H)] [?|(? & H')]; try lia. by apply (str_lt_asym _ _ H).
Qed.

Lemma ranks_follow_merit ds a b :
  NoDup (map item_id ds) →
  map research_rank (stable_sort research_leb (map research_entry ds))
    = map Z.of_nat (seq 1 (length ds)) →
  a ∈ ds → b ∈ ds → rank a < rank b ↔ more_merit a b.
Proof.
  intros Hnd Hranks.
  assert (∀ x y, x ∈ ds → y ∈ ds → item_id x = item_id y → x = y) as Hinj
    by (intros x y Hx Hy Heq; by apply (key_inj item_id ds)).
  apply (ranks_are_positions research_entry research_rank research_leb research_leb_total
    research_leb_trans more_merit more_merit_asym ds); [| |exact Hranks].
  - intros x y Hx Hy Hne. rewrite research_leb_iff. unfold research_entry, more_merit.
    intros [?|(? & [?|?])]; [left; lia|right; split; [lia|done]|]. by destruct Hne; apply Hinj.
  - intros x y Hx Hy Heq. apply Hinj; [done..|]. by injection Heq.
Qed.

(** ** Supersession *)

Definition supersession_graph (ds : list items) : graph :=
  map (λ d, (item_id d, supersedes d)) ds.

Lemma supersession_clean ds u :
  check_supersession (map item_id ds) (supersession_graph ds) = Done u [] →
  (∀ d x, d ∈ ds → x ∈ supersedes d → x ≠ item_id d ∧ x ∈ map item_id ds) ∧
  ¬ cyclic (supersession_graph ds).
Proof.
  unfold check_supersession. intros H. apply bind_clean in H as (u1 & Hall & H).
  apply bind_clean in H as (found & Hfound%lift_clean & H).
  destruct (search_decides (S (length (supersession_graph ds))) (supersession_graph ds))
    as (found' & Hf & Hiff); [lia|].
  rewrite Hfound in Hf. injection Hf as <-. split.
  - intros d x (j & Hj)%list_elem_of_lookup (k & Hk)%list_elem_of_lookup.
    rewrite check_each_clean in Hall. specialize (Hall j (item_id d, supersedes d)).
    unfold supersession_graph in Hall. rewrite list_lookup_fmap, Hj in Hall.
    specialize (Hall eq_refl). simpl in Hall. rewrite check_each_clean in Hall.
    specialize (Hall k x Hk). destruct (String.eqb_spec x (item_id d)); cleaned.
    apply negb_false_iff, mem_str_In in Hall. done.
  - apply Hiff. rewrite check_each_clean in H. destruct found as [|c found]; [done|].
    by specialize (H 0%nat c eq_refl); cleaned.
Qed.

Lemma research_clean l s e u :
  _validate_research score_order l (Some s) (Some e) = Done u [] →
  ∃ ds, l = map VDict ds ∧ Forall (research_ok (instant s) (instant e)) ds ∧
    NoDup (map item_id ds) ∧ NoDup (map identifier ds) ∧
    map rank ds ≡ₚ map Z.of_nat (seq 1 (length ds)) ∧
    (∀ a b, a ∈ ds → b ∈ ds → rank a < rank b ↔ more_merit a b) ∧
    (∀ d x, d ∈ ds → x ∈ supersedes d → x ≠ item_id d ∧ x ∈ map item_id ds) ∧
    ¬ cyclic (supersession_graph ds).
Proof using Hscores.
  unfold _validate_research. intros H. apply bind_clean in H as (g & Hg & H).
  apply (gathers_each _ VDict gathered_research _ (research_step s e) _ _ []) in Hg
    as (ds & -> & Hall & Hfrom); [|exact no_research].
  simpl in Hfrom. destruct Hfrom as [Hids Hnd _ Hidents Hranks Hgraph].
  apply bind_clean in H as (u1 & (Hlen & Hperm & Hsorted)%check_ranks_clean & H).
  rewrite Hids, Hgraph in H. apply supersession_clean in H as [Hsup Hcyc].
  rewrite Hranks in *. rewrite map_map, length_map in *.
  exists ds. repeat (split; [done|]). split; [|done].
  intros a b. by apply ranks_follow_merit.
Qed.

(** In a valid digest of research every item comes from a primary source,
    was retrieved inside the window and not before it was published or updated,
    and rests its claims on fragments of the source; the ranks are 1 to n, and
    one item ranks before another exactly when its composite score is greater,
    or the same with the smaller identity. *)
Theorem valid_research_ranked (v : value) (r : DigestReport) :
  validate score_order v = Ok r → valid r = true → digest_kind r = Some "research" →
  ∃ root s e ds, v = VDict root ∧ dict_get root "items" = VList (map VDict ds) ∧
    window_ok root s e ∧ Forall (research_ok (instant s) (instant e)) ds ∧
    map rank ds ≡ₚ map Z.of_nat (seq 1 (length ds)) ∧
    (∀ a b, a ∈ ds → b ∈ ds → rank a < rank b ↔ more_merit a b) ∧
    NoDup (map item_id ds) ∧ NoDup (map identifier ds).
Proof using Hscores.
  intros H Hv Hk. apply validate_clean in H as (_ & root & s & e & l & k & Hs & Hl & _ & _ & Hk' & Hi);
    [|done]. rewrite Hk' in Hk. injection Hk as ->.
  destruct Hi as [[[=] _]|(_ & _ & (ds & -> & Hds)%research_clean)].
  exists root, s, e, ds. destruct Hs. naive_solver.
Qed.

(** In a valid digest of research an item supersedes only other items of
    the digest, and no chain of supersessions comes back to its start. *)
Theorem supersession_is_acyclic (v : value) (r : DigestReport) :
  validate score_order v = Ok r → valid r = true → digest_kind r = Some "research" →
  ∃ root ds, v = VDict root ∧ dict_get root "items" = VList (map VDict ds) ∧
    (∀ d x, d ∈ ds → x ∈ supersedes d → x ≠ item_id d ∧ x ∈ map item_id ds) ∧
    ¬ cyclic (supersession_graph ds).
Proof using Hscores.
  intros H Hv Hk. apply validate_clean in H as (_ & root & s & e & l & k & Hs & Hl & _ & _ & Hk' & Hi);
    [|done]. rewrite Hk' in Hk. injection Hk as ->.
  destruct Hi as [[[=] _]|(_ & _ & (ds & -> & Hds)%research_clean)].
  exists root, ds. destruct Hs. naive_solver.
Qed.
End score_order.

(** ** A digest of research *)

Definition sample_research (id : string) (rank relevance : Z) (supersedes : list string) : value :=
  VDict [("id", VStr id); ("rank", VInt rank); ("title", VStr "A verified store");
    ("authors", strs ["Ada Author"]); ("source_kind", VStr "peer_reviewed_paper");
    ("canonical_url", VStr ("https://papers.test/" +:+ id));
    ("stable_identifier", VStr ("doi:10.1000/" +:+ id));
    ("publication_date", VStr "2026-09-01"); ("updated_at", VNone);
    ("retrieved_at", VStr "2026-09-04T12:00:00Z"); ("source_sha256", VStr sample_sha);
    ("status", VStr "active"); ("supersedes", strs supersedes);
    ("themes", strs ["formal-methods"]);
    ("claims", VList [VDict [("statement", VStr "The store is linearizable.");
      ("source_fragment_sha256", VStr sample_sha)]]);
    ("interpretation", strs ["It applies to us."]); ("uncertainty", strs ["One proof is sketched."]);
    ("proposed_experiments", VList []);
    ("scores", VDict [("relevance", VInt relevance); ("novelty", VInt 50);
      ("evidence_quality", VInt 80); ("implementation_cost", VInt 40); ("falsifiability", VInt 60)]);
    ("summary_sha256", VStr sample_sha)].

Definition sample_survey : value :=
  sample_root "research"
    [sample_research "later-paper" 1 90 ["early-paper"]; sample_research "early-paper" 2 70 []].
Definition sample_survey_report : DigestReport :=
  mkDigestReport true (Some "research") (Some (sha256_value sample_survey)) 2 0 0 [].

Lemma reversed_score_keys : reverse SCORE_KEYS ≡ₚ SCORE_KEYS.
Proof. apply reverse_Permutation. Qed.

Lemma sample_survey_validates :
  validate (reverse SCORE_KEYS) sample_survey = Ok sample_survey_report.
Proof. vm_compute. reflexivity. Qed.

Lemma valid_research_ranked_witness :
  validate (reverse SCORE_KEYS) sample_survey = Ok sample_survey_report ∧
  ∃ root s e ds, sample_survey = VDict root ∧ dict_get root "items" = VList (map VDict ds) ∧
    window_ok root s e ∧ Forall (research_ok (instant s) (instant e)) ds ∧
    map rank ds ≡ₚ map Z.of_nat (seq 1 (length ds)) ∧
    (∀ a b, a ∈ ds → b ∈ ds → rank a < rank b ↔ more_merit a b) ∧
    NoDup (map item_id ds) ∧ NoDup (map identifier ds).
Proof.
  split; [exact sample_survey_validates|].
  exact (valid_research_ranked _ reversed_score_keys sample_survey sample_survey_report
    sample_survey_validates eq_refl eq_refl).
Defined.

Lemma supersession_is_acyclic_witness :
  validate (reverse SCORE_KEYS) sample_survey = Ok sample_survey_report ∧
  ∃ root ds, sample_survey = VDict root ∧ dict_get root "items" = VList (map VDict ds) ∧
    (∀ d x, d ∈ ds → x ∈ supersedes d → x ≠ item_id d ∧ x ∈ map item_id ds) ∧
    ¬ cyclic (supersession_graph ds).
Proof.
  split; [exact sample_survey_validates|].
  exact (supersession_is_acyclic _ reversed_score_keys sample_survey sample_survey_report
    sample_survey_validates eq_refl eq_refl).
Defined.

End ResearchTheorems.
