(* ===== verification/MergeGuard.v ===== *)
(** * Semantic merge guard

    [src/scripts/semantic_merge_guard.py]: the preview of a merge in a detached
    worktree, with the checks of its result and of the repository it started
    from.  Git is a program outside the repository: what it answers is a
    parameter ([reply]), which may depend on every command before, and the
    commands themselves are the state of a computation.  Bytes git prints are
    ASCII: decoding them changes nothing. *)
From S2P Require Import Prelude PyValue Regex GitObjects Url.
From Stdlib Require Import Ascii.

Module MergeGuard.
Open Scope Z_scope.

Definition EXIT_OK : Z := 0.
Definition EXIT_REVIEW_REQUIRED : Z := 2.
Definition EXIT_ERROR : Z := 3.

Definition FULL_SHA_RE : string → bool := rx_rep is_hex 40 40.
Definition guard_error (msg : string) : exn := Exn GuardError msg.

(** ** Commands

    A command is the directory git runs in and its arguments. *)

Record command : Type := Command { cwd : string; args : list string }.
Record command_result : Type := CommandResult {
  returncode : Z;
  stdout : string;
  stderr : string;
}.

Definition guard (A : Type) : Type := list command → result A * list command.
#[export] Instance guard_ret : MRet guard := λ A a h, (Ok a, h).
#[export] Instance guard_bind : MBind guard := λ A B f m h,
  match m h with
  | (Ok a, h) => f a h
  | (Raise e, h) => (Raise e, h)
  end.
Definition raise {A} (e : exn) : guard A := λ h, (Raise e, h).
Definition raise_when (b : bool) (e : exn) : guard unit := if b then raise e else mret tt.
(** A step that may raise and runs no command. *)
Definition pure {A} (r : result A) : guard A := λ h, (r, h).
Fixpoint each {A B : Type} (l : list A) (body : A → B → guard B) (acc : B) : guard B :=
  match l with
  | [] => mret acc
  | x :: l => acc ← body x acc; each l body acc
  end.
(** [try: body finally: final] *)
Definition finally {A} (body : guard A) (final : guard unit) : guard A := λ h,
  let '(r, h) := body h in
  match final h with
  | (Ok _, h) => (r, h)
  | (Raise e, h) => (Raise e, h)
  end.

(** ** Texts *)

Definition nul : ascii := "000"%char.
Definition tab : ascii := "009"%char.
Definition line_feed : ascii := "010"%char.
Definition carriage_return : ascii := "013"%char.

(** [splitlines()]: of [bytes] at line feeds and carriage returns, of [str] at
    every line boundary; a carriage return and a line feed count once. *)
Definition bytes_line_end (c : ascii) : bool := existsb (N.eqb (code c)) [10; 13]%N.
Definition str_line_end (c : ascii) : bool :=
  existsb (N.eqb (code c)) [10; 11; 12; 13; 28; 29; 30; 133]%N.
Fixpoint splitlines (line_end : ascii → bool) (s : string) : list string :=
  match s with
  | EmptyString => []
  | String c rest =>
      if line_end c then
        EmptyString :: match rest with
                       | String d rest' =>
                           if Ascii.eqb c carriage_return && Ascii.eqb d line_feed
                           then splitlines line_end rest' else splitlines line_end rest
                       | EmptyString => []
                       end
      else match splitlines line_end rest with
           | line :: lines => String c line :: lines
           | [] => [String c EmptyString]
           end
  end.

(** [s.split()] *)
Definition words (s : string) : list string :=
  let split := fix go (s : string) : list string :=
    match s with
    | EmptyString => [EmptyString]
    | String c s =>
        if is_space c then EmptyString :: go s
        else match go s with
             | word :: rest => String c word :: rest
             | [] => [String c EmptyString]
             end
    end in
  List.filter (λ word, negb (Url.is_empty word)) (split s).

(** [payload.strip(b"\n")] *)
Fixpoint strip_feeds_left (s : string) : string :=
  match s with
  | String c rest => if Ascii.eqb c line_feed then strip_feeds_left rest else s
  | EmptyString => EmptyString
  end.
Fixpoint strip_feeds_right (s : string) : string :=
  match s with
  | EmptyString => EmptyString
  | String c rest =>
      match strip_feeds_right rest with
      | EmptyString => if Ascii.eqb c line_feed then EmptyString else String c EmptyString
      | rest => String c rest
      end
  end.

Definition nul_paths (payload : string) : list string :=
  List.filter (λ part, negb (Url.is_empty part)) (Url.str_split nul payload).

Definition text (r : command_result) : string := strip (stdout r).

(** Unpacking a sequence of another length. *)
Definition unpack_error (expected got : nat) : exn :=
  Exn ValueError
    (if (got <? expected)%nat
     then "not enough values to unpack (expected " +:+ str_nat expected +:+ ", got "
          +:+ str_nat got +:+ ")"
     else "too many values to unpack (expected " +:+ str_nat expected +:+ ")").

(** ** Findings *)

Inductive finding : Type :=
  | unresolved_conflict_marker (path : string) (line : nat)
  | duplicate_toml_table (path name : string) (first line : nat)
  | invalid_json (path : string) (line column : nat)
  | duplicate_json_key (path name : string)
  | duplicate_rust_module_declaration (path name : string) (first line : nat)
  | duplicate_rust_field_at_same_block_depth (path name : string) (first line : nat)
  | git_diff_check_failed.

(** Of a single line: a run of seven [<] or [|], or of six or seven [>], alone
    or followed by a space and anything. *)
Definition annotated (s : string) : bool :=
  match s with
  | EmptyString => true
  | String c _ => Ascii.eqb c " "
  end.
Definition marker (prefix s : string) : bool :=
  starts_with s prefix
  && annotated (String.substring (String.length prefix) (String.length s - String.length prefix) s).
Definition CONFLICT_MARKER_RE (s : string) : bool :=
  marker "<<<<<<<" s || marker ">>>>>>" s || marker ">>>>>>>" s || marker "|||||||" s.

Definition skip_spaces (s : string) : string := (Url.str_span is_space s).2.

(** Between spaces a name in brackets, which holds no bracket, then perhaps a
    comment: the name of the table. *)
Definition TOML_TABLE_RE (s : string) : option string :=
  match skip_spaces s with
  | String "[" rest =>
      let '(name, rest) := Url.str_span (λ c, negb (one_of "[]" c)) rest in
      match rest with
      | String "]" rest =>
          if negb (Url.is_empty name)
             && match skip_spaces rest with
                | EmptyString => true
                | String c _ => Ascii.eqb c "#"
                end
          then Some name else None
      | _ => None
      end
  | _ => None
  end.

Definition ident_start (c : ascii) : bool := is_lower c || is_upper c || one_of "_" c.
Definition ident_char (c : ascii) : bool := is_alnum c || one_of "_" c.
(** The identifier a text starts with, and what follows it. *)
Definition identifier (s : string) : option (string * string) :=
  match s with
  | String c _ => if ident_start c then Some (Url.str_span ident_char s) else None
  | EmptyString => None
  end.

(** What follows a word and at least one space. *)
Definition spaced_word (word s : string) : option string :=
  if starts_with s word then
    match String.substring (String.length word) (String.length s - String.length word) s with
    | String c rest => if is_space c then Some (skip_spaces rest) else None
    | EmptyString => None
    end
  else None.

(** Perhaps [pub], [mod], an identifier and a semicolon, spaces between them:
    the name of the module. *)
Definition RUST_MOD_RE (s : string) : option string :=
  let s := skip_spaces s in
  rest ← spaced_word "mod" (default s (spaced_word "pub" s));
  '(name, rest) ← identifier rest;
  match skip_spaces rest with
  | String ";" rest => if Url.is_empty (skip_spaces rest) then Some name else None
  | _ => None
  end.

(** An identifier, a colon, spaces and at least one more character that is not a
    colon.  The spaces after the colon may be matched by what follows instead,
    so that only a colon next to the first is refused. *)
Definition field_name (s : string) : option string :=
  '(name, rest) ← identifier s;
  match skip_spaces rest with
  | String ":" (String c _) => if Ascii.eqb c ":" then None else Some name
  | _ => None
  end.
(** What follows [pub], perhaps with a restriction in parentheses, and at least
    one space. *)
Definition visibility (s : string) : option string :=
  if starts_with s "pub(" then
    match Url.str_partition ")" s with
    | (_, Some (String c rest)) => if is_space c then Some (skip_spaces rest) else None
    | _ => None
    end
  else spaced_word "pub" s.
(** A field, after its visibility when it has one; [pub] itself may be the name
    of the field. *)
Definition RUST_FIELD_RE (s : string) : option string :=
  let s := skip_spaces s in
  match visibility s ≫= field_name with
  | Some name => Some name
  | None => field_name s
  end.

(** A table of the lines names were first seen at. *)
Abbreviation seen := (list (string * nat)).

(** [line.split("//", 1)[0]] *)
Fixpoint before_comment (s : string) : string :=
  if starts_with s "//" then EmptyString
  else match s with
       | EmptyString => EmptyString
       | String c rest => String c (before_comment rest)
       end.
Definition count_char (c : ascii) (s : string) : nat :=
  length (List.filter (Ascii.eqb c) (String.list_ascii_of_string s)).

(** A name at a line: reported with the line it was first seen at, or
    remembered. *)
Definition note (report : string → nat → nat → finding) (name : option string) (line : nat)
    (table : seen) : list finding * seen :=
  match name with
  | None => ([], table)
  | Some name =>
      match assoc_get table name with
      | Some first => ([report name first line], table)
      | None => ([], assoc_set table name line)
      end
  end.

Record rust_scan : Type := RustScan {
  rust_findings : list finding;
  module_lines : seen;
  fields_by_depth : list seen;
  depth : nat;
}.

(** [while len(fields_by_depth) <= depth: fields_by_depth.append({})] *)
Definition grown (tables : list seen) (depth : nat) : list seen :=
  tables ++ replicate (S depth - length tables) [].
Definition open_brace (s : list seen * nat) : list seen * nat :=
  let depth := S s.2 in
  (if (length s.1 <=? depth)%nat then s.1 ++ [[]] else <[depth := []]> s.1, depth).
Definition close_brace (s : list seen * nat) : list seen * nat :=
  if (0 <? s.2)%nat then (<[s.2 := []]> s.1, s.2 - 1)%nat else s.

Definition scan_line (path : string) (line_number : nat) (original_line : string) (s : rust_scan)
  : rust_scan :=
  let line := before_comment original_line in
  let '(found, module_lines) :=
    note (duplicate_rust_module_declaration path) (RUST_MOD_RE line) line_number (module_lines s) in
  let tables := grown (fields_by_depth s) (depth s) in
  let '(found', fields) :=
    note (duplicate_rust_field_at_same_block_depth path) (RUST_FIELD_RE line) line_number
      (default [] (tables !! depth s)) in
  let '(tables, depth) :=
    Nat.iter (count_char "}" line) close_brace
      (Nat.iter (count_char "{" line) open_brace (<[depth s := fields]> tables, depth s)) in
  RustScan (rust_findings s ++ found ++ found') module_lines tables depth.

(** [for line_number, line in enumerate(lines, start=i)] *)
Fixpoint numbered {A} (i : nat) (lines : list string) (body : nat → string → A → A) (acc : A) : A :=
  match lines with
  | [] => acc
  | line :: lines => numbered (S i) lines body (body i line acc)
  end.

Definition scan_rust (path source : string) : list finding :=
  rust_findings (numbered 1 (splitlines str_line_end source) (scan_line path)
                   (RustScan [] [] [[]] 0)).

Definition toml_line (path : string) (line_number : nat) (line : string)
    (s : list finding * seen) : list finding * seen :=
  let '(found, tables) :=
    note (duplicate_toml_table path) (strip <$> TOML_TABLE_RE line) line_number s.2 in
  (s.1 ++ found, tables).
Definition toml_findings (path source : string) : list finding :=
  (numbered 1 (splitlines str_line_end source) (toml_line path) ([], [])).1.

Definition conflict_markers (path source : string) : list finding :=
  numbered 1 (splitlines str_line_end source)
    (λ line_number line found,
       if CONFLICT_MARKER_RE line then found ++ [unresolved_conflict_marker path line_number]
       else found) [].

(** [Path(s).suffix.lower()] *)
Definition path_name (s : string) : string :=
  default EmptyString
    (last (List.filter (λ part, negb (Url.is_empty part || String.eqb part ".")) (Url.str_split "/" s))).
Definition suffix (s : string) : string :=
  let name := path_name s in
  match Url.str_rpartition "." name with
  | Some (stem, extension) =>
      if Url.is_empty stem || Url.is_empty extension then EmptyString
      else Url.str_lower (String "." extension)
  | None => EmptyString
  end.

(** ** The reports *)

Record row : Type := Row { row_sha : string; parents : list string; authored_at : string }.
Record stage : Type := Stage { mode : string; blob : string; bytes : Z }.
Record conflict : Type := Conflict { conflict_path : string; stages : list (string * stage) }.

Record side : Type := Side {
  ref : string;
  sha : string;
  side_history : list row;
  ref_stable : option bool;
}.

(** The invariants that stay false in every report are left out. *)
Record report : Type := Report {
  status : string;
  safe_to_publish : bool;
  safe_to_open_review_pr : bool;
  base : side;
  head : side;
  merge_base : string;
  review_paths : list string;
  preview_changed_paths : list string;
  conflict_paths : list string;
  conflicts : list conflict;
  findings : list finding;
  preview_tree : option string;
  branch_ref_updated : bool;
  required_next_step : string;
}.

Record arguments : Type := Arguments {
  repo : string;
  base_ref : string;
  head_ref : string;
  history_depth : nat;
}.

(** ** Git *)

Section git.
(** What git answers to a command, after the commands before it; [Raise] when
    the process cannot be started. *)
Context (reply : list command → command → result command_result).
(** The files: whether the worktree exists, and a text of it, after commands. *)
Context (worktree_exists : list command → bool).
Context (read_small_text : list command → string → option string).
(** What [json.loads] finds: keys that repeat, or where the text is malformed;
    [Raise] for its other exceptions ([RecursionError], [ValueError] for a long
    number).  The model has no reader of JSON. *)
Context (json_loads : string → result (list string + nat * nat)).
(** [Path(s).resolve()], and the directory [tempfile.mkdtemp] makes. *)
Context (resolve : string → string) (worktree_parent : string).

Definition run (c : command) (check : bool) : guard command_result := λ h,
  match reply h c with
  | Ok r =>
      if check && negb (returncode r =? 0)
      then (Raise (guard_error ("command failed (" +:+ str_int (returncode r) +:+ "): "
                    +:+ str_join " " (take 3 (args c)))), h ++ [c])
      else (Ok r, h ++ [c])
  | Raise e => (Raise e, h ++ [c])
  end.

Definition git_with (check : bool) (repo : string) (arguments : list string)
  : guard command_result := run (Command repo ("git" :: arguments)) check.
Definition git : string → list string → guard command_result := git_with true.

Definition resolve_commit (repo ref : string) : guard string :=
  r ← git repo ["rev-parse"; "--verify"; ref +:+ "^{commit}"];
  raise_when (negb (FULL_SHA_RE (text r)))
    (guard_error ("Git did not resolve " +:+ repr_str ref +:+ " to a full commit identity")) ;;
  mret (text r).

Definition head_refs (repo : string) : guard (gmap string string) :=
  r ← git repo ["for-each-ref"; "--format=%(refname)%00%(objectname)"; "refs/heads"];
  each (splitlines bytes_line_end (stdout r)) (λ line refs,
    if Url.is_empty line then mret refs
    else match Url.str_partition nul line with
         | (name, Some sha) => mret (<[name := sha]> refs)
         | (_, None) => raise (unpack_error 2 1)
         end) ∅.

Definition changed_paths (worktree : string) : guard (list string) :=
  r ← git worktree ["diff"; "--cached"; "--name-only"; "-z"];
  mret (sorted_strs (nul_paths (stdout r))).

Definition candidate_changed_paths (repo merge_base base_sha head_sha : string)
  : guard (list string) :=
  paths ← each [base_sha; head_sha] (λ descendant paths,
    r ← git repo ["diff"; "--name-only"; "-z"; merge_base; descendant];
    mret (paths ++ nul_paths (stdout r))) [];
  mret (sorted_set paths).

Definition history (repo sha : string) (depth : nat) : guard (list row) :=
  r ← git repo ["log"; "--max-count=" +:+ str_nat depth; "--format=%H%x00%P%x00%aI%x1e"; sha];
  each (Url.str_split "030" (stdout r)) (λ record rows,
    let record := strip_feeds_right (strip_feeds_left record) in
    if Url.is_empty record then mret rows
    else match Url.str_split nul record with
         | [sha; parents; authored_at] => mret (rows ++ [Row sha (words parents) authored_at])
         | _ => raise (guard_error "unexpected git log record shape")
         end) [].

(** [grouped.setdefault(path, ...)["stages"][stage] = entry] *)
Definition add_stage (grouped : list (string * list (string * stage))) (path name : string)
    (entry : stage) : list (string * list (string * stage)) :=
  assoc_set grouped path (assoc_set (default [] (assoc_get grouped path)) name entry).

Definition conflict_stages (worktree : string) (wanted : list string) : guard (list conflict) :=
  r ← git worktree ["ls-files"; "-u"; "-z"];
  grouped ← each (Url.str_split nul (stdout r)) (λ entry grouped,
    if Url.is_empty entry then mret grouped
    else match Url.str_partition tab entry with
         | (_, None) => raise (unpack_error 2 1)
         | (metadata, Some path) =>
             match words metadata with
             | [mode; sha; stage] =>
                 if negb (mem_str path wanted) then mret grouped
                 else
                   r ← git worktree ["cat-file"; "-s"; sha];
                   size ← pure (int_of_text (text r));
                   mret (add_stage grouped path stage (Stage mode sha size))
             | parts => raise (unpack_error 3 (length parts))
             end
         end) [];
  mret (map (λ path, Conflict path (default [] (assoc_get grouped path)))
          (sorted_strs grouped.*1)).

Definition duplicate_json_keys (source : string) : result (list string + nat * nat) :=
  match json_loads source with
  | Ok (inl duplicates) => Ok (inl (sorted_set duplicates))
  | other => other
  end.

Definition file_findings (relative source : string) : result (list finding) :=
  more ← (if String.eqb (suffix relative) ".toml" then Ok (toml_findings relative source)
          else if String.eqb (suffix relative) ".json" then
            keys ← duplicate_json_keys source;
            Ok (match keys with
                | inl duplicates => map (duplicate_json_key relative) duplicates
                | inr (line, column) => [invalid_json relative line column]
                end)
          else if String.eqb (suffix relative) ".rs" then Ok (scan_rust relative source)
          else Ok []);
  Ok (conflict_markers relative source ++ more).

Definition semantic_findings (paths : list string) : guard (list finding) :=
  each paths (λ relative findings h,
    (match read_small_text h relative with
     | Some source => more ← file_findings relative source; Ok (findings ++ more)
     | None => Ok findings
     end, h)) [].

(** ** The preview *)

Definition worktree : string := worktree_parent +:+ "/worktree".

Definition merge_args (head_sha : string) : list string :=
  ["-c"; "rerere.enabled=false"; "-c"; "merge.conflictStyle=diff3"; "merge"; "--no-commit";
   "--no-ff"; "--no-rerere-autoupdate"; head_sha].

Definition resolution_step : string :=
  "Create a fresh feature branch from the current reviewed base; inspect the merge base, both stage blobs, 3-10 relevant commits on each side, APIs, schemas, migrations, tests, documentation, and related repositories; implement the conceptual union; then rerun this guard.".
Definition correction_step : string :=
  "Correct the suspicious clean-merge result in a fresh feature branch, run repository-specific compile/test/documentation gates, and rerun this guard.".
Definition publication_step : string :=
  "Publish this exact preview tree only as a feature-branch pull request, then require the repository-specific build, test, review, and immutable-head merge gates.".

Definition manual_resolution (r : report) : guard (Z * report) :=
  unmerged ← git_with false worktree ["diff"; "--name-only"; "--diff-filter=U"; "-z"];
  let conflicts := nul_paths (stdout unmerged) in
  raise_when (bool_decide (conflicts = []))
    (guard_error "merge failed without producing reviewable unmerged paths") ;;
  let paths := sorted_strs conflicts in
  stages ← conflict_stages worktree paths;
  mret (EXIT_REVIEW_REQUIRED,
    Report "manual_resolution_required" (safe_to_publish r) (safe_to_open_review_pr r) (base r)
      (head r) (merge_base r) (review_paths r) (preview_changed_paths r) paths stages (findings r)
      (preview_tree r) (branch_ref_updated r) resolution_step).

Definition clean_merge (r : report) : guard (Z * report) :=
  paths ← changed_paths worktree;
  diff_check ← git_with false worktree ["diff"; "--cached"; "--check"];
  found ← semantic_findings paths;
  let found := found ++ (if returncode diff_check =? 0 then [] else [git_diff_check_failed]) in
  tree ← git worktree ["write-tree"];
  let clean := bool_decide (length found = 0%nat) in
  mret (if clean then EXIT_OK else EXIT_REVIEW_REQUIRED,
    Report (if clean then "clean_preview" else "semantic_validation_failed")
      (if clean then false else safe_to_publish r)
      (if clean then true else safe_to_open_review_pr r) (base r) (head r) (merge_base r)
      (review_paths r) paths (conflict_paths r) (conflicts r) found (Some (text tree))
      (branch_ref_updated r) (if clean then publication_step else correction_step)).

Definition when_worktree (b : bool) (repo : string) (arguments : list string) : guard unit := λ h,
  if worktree_exists h && b then (git_with false repo arguments ;; mret tt) h else (Ok tt, h).

Definition cleanup (root : string) (merge_started : bool) : guard unit :=
  when_worktree merge_started worktree ["merge"; "--abort"] ;;
  when_worktree true root ["worktree"; "remove"; "--force"; worktree] ;;
  git_with false root ["worktree"; "prune"] ;;
  mret tt.

(** The merge starts inside [try]; [merge_started] is set when it was run. *)
Definition preview (root base_sha head_sha : string) (r : report) : guard (Z * report) := λ h,
  match (git root ["worktree"; "add"; "--detach"; worktree; base_sha] ;;
         git_with false worktree (merge_args head_sha)) h with
  | (Raise e, h) => finally (raise e) (cleanup root false) h
  | (Ok merge, h) =>
      finally (if returncode merge =? 0 then clean_merge r else manual_resolution r)
        (cleanup root true) h
  end.

(** ** The whole run *)

Definition investigate_step : string :=
  "Stop automation and investigate unexpected source-repository mutation.".
Definition restart_step : string :=
  "Restart from freshly reviewed immutable base and head SHAs.".

Definition check_mutation (mutated refs_moved : bool) (o : Z * report) : Z * report :=
  let '(code, r) := o in
  if mutated then
    (EXIT_ERROR,
     Report "source_repository_mutated" false (safe_to_open_review_pr r) (base r) (head r)
       (merge_base r) (review_paths r) (preview_changed_paths r) (conflict_paths r) (conflicts r)
       (findings r) (preview_tree r) refs_moved investigate_step)
  else o.

(** The side of the report a key names. *)
Inductive side_key : Set := base_key | head_key.
Definition set_stable (key : side_key) (stable : bool) (r : report) : report :=
  let mark s := Side (ref s) (sha s) (side_history s) (Some stable) in
  Report (status r) (safe_to_publish r) (safe_to_open_review_pr r)
    (if key is base_key then mark (base r) else base r)
    (if key is head_key then mark (head r) else head r)
    (merge_base r) (review_paths r) (preview_changed_paths r) (conflict_paths r) (conflicts r)
    (findings r) (preview_tree r) (branch_ref_updated r) (required_next_step r).
Definition ref_moved (r : report) : report :=
  Report "input_ref_moved" false (safe_to_open_review_pr r) (base r) (head r) (merge_base r)
    (review_paths r) (preview_changed_paths r) (conflict_paths r) (conflicts r) (findings r)
    (preview_tree r) (branch_ref_updated r) restart_step.

Definition recheck (root : string) (key : side_key) (ref expected : string) (o : Z * report)
  : guard (Z * report) :=
  let '(code, r) := o in
  if FULL_SHA_RE ref then mret (code, set_stable key true r)
  else
    actual ← resolve_commit root ref;
    let stable := String.eqb actual expected in
    let r := set_stable key stable r in
    mret (if stable then (code, r) else (EXIT_ERROR, ref_moved r)).

Definition execute (a : arguments) : guard (Z * report) :=
  top ← git (resolve (repo a)) ["rev-parse"; "--show-toplevel"];
  let root := resolve (text top) in
  original_head ← resolve_commit root "HEAD";
  refs_before ← head_refs root;
  base_sha ← resolve_commit root (base_ref a);
  head_sha ← resolve_commit root (head_ref a);
  merge_base_result ← git_with false root ["merge-base"; base_sha; head_sha];
  raise_when (negb (returncode merge_base_result =? 0))
    (guard_error "base and head have no merge base") ;;
  let merge_base := text merge_base_result in
  raise_when (negb (FULL_SHA_RE merge_base))
    (guard_error "Git returned an invalid merge-base identity") ;;
  review_paths ← candidate_changed_paths root merge_base base_sha head_sha;
  base_history ← history root base_sha (history_depth a);
  head_history ← history root head_sha (history_depth a);
  o ← preview root base_sha head_sha
        (Report "started" false false (Side (base_ref a) base_sha base_history None)
           (Side (head_ref a) head_sha head_history None) merge_base review_paths [] [] [] [] None
           false "manual review");
  final_head ← resolve_commit root "HEAD";
  refs_after ← head_refs root;
  let o := check_mutation
             (negb (String.eqb final_head original_head) || negb (bool_decide (refs_after = refs_before)))
             (negb (bool_decide (refs_after = refs_before))) o in
  o ← recheck root base_key (base_ref a) base_sha o;
  recheck root head_key (head_ref a) head_sha o.

(** What [main] writes: the review, or the error that stopped it. *)
Inductive outcome : Type := Reviewed (r : report) | Stopped (e : exn).

Definition main (a : arguments) : Z * outcome * list command :=
  match execute a [] with
  | (Ok (code, r), h) => (code, Reviewed r, h)
  | (Raise e, h) => (EXIT_ERROR, Stopped e, h)
  end.
End git.

(** What both kinds of report say. *)
Definition outcome_status (o : outcome) : string :=
  match o with Reviewed r => status r | Stopped _ => "guard_error" end.
Definition outcome_publishes (o : outcome) : bool :=
  match o with Reviewed r => safe_to_publish r | Stopped _ => false end.
Definition outcome_opens_review (o : outcome) : bool :=
  match o with Reviewed r => safe_to_open_review_pr r | Stopped _ => false end.

End MergeGuard.
