(* ===== verification/MergeGuardTheorems.v ===== *)
(** * Semantic merge guard: results

    Whatever git answers, the guard runs no command that moves a branch or makes
    a commit, leaves no worktree behind, and its exit status says what it found.
    An offer to open a review survives a reference that moved. *)
From S2P Require Import Prelude PyValue Regex GitObjects Url MergeGuard.
From Stdlib Require Import Ascii.

Module MergeGuardTheorems.
Import MergeGuard.
Open Scope Z_scope.

(** ** Commands a computation runs, and what it returns *)

Definition performs {A} (P : command → Prop) (m : guard A) (Q : A → Prop) : Prop :=
  ∀ h, (∃ cs, (m h).2 = h ++ cs ∧ Forall P cs) ∧
    match (m h).1 with Ok a => Q a | Raise _ => True end.

Section performs.
Context (P : command → Prop).

Lemma performs_ret {A} (a : A) (Q : A → Prop) : Q a → performs P (mret a) Q.
Proof. intros Ha h. split; [|done]. exists []. by rewrite app_nil_r. Qed.

Lemma performs_raise {A} e (Q : A → Prop) : performs P (raise e) Q.
Proof. intros h. split; [|done]. exists []. by rewrite app_nil_r. Qed.

Lemma performs_raise_when b e : performs P (raise_when b e) (λ _, b = false).
Proof. destruct b; [apply performs_raise|by apply performs_ret]. Qed.

Lemma performs_pure {A} (r : result A) (Q : A → Prop) : (∀ a, r = Ok a → Q a) → performs P (pure r) Q.
Proof.
  intros H h. split; [exists []; by rewrite app_nil_r|]. simpl. destruct r; [by apply H|done].
Qed.

Lemma performs_bind {A B} (m : guard A) (f : A → guard B) Q R :
  performs P m Q → (∀ a, Q a → performs P (f a) R) → performs P (m ≫= f) R.
Proof.
  intros Hm Hf h. destruct (Hm h) as [(cs & Hh & Hcs) Hr].
  unfold mbind, guard_bind. destruct (m h) as [[a|e] h1]; simpl in *; [|by split; [exists cs|]].
  destruct (Hf a Hr h1) as [(cs' & Hh' & Hcs') Hr']. split; [|done].
  exists (cs ++ cs'). rewrite Hh', Hh, <- app_assoc. by split; [|apply Forall_app].
Qed.

Lemma performs_weaken {A} (m : guard A) (Q R : A → Prop) :
  performs P m Q → (∀ a, Q a → R a) → performs P m R.
Proof.
  intros Hm H h. destruct (Hm h) as [Hc Hr]. split; [done|]. destruct (m h).1; auto.
Qed.

Lemma performs_each {A B} (R : A → Prop) (l : list A) (body : A → B → guard B) acc :
  Forall R l → (∀ x acc, R x → performs P (body x acc) (λ _, True)) →
  performs P (each l body acc) (λ _, True).
Proof.
  intros Hl Hbody. revert acc; induction Hl as [|x l Hx _ IH]; intros acc; simpl;
    [by apply performs_ret|].
  eapply performs_bind; [by apply Hbody|]. intros b _. apply IH.
Qed.

Lemma performs_loop {A B} (l : list A) (body : A → B → guard B) acc :
  (∀ x acc, performs P (body x acc) (λ _, True)) → performs P (each l body acc) (λ _, True).
Proof. intros H. apply (performs_each (λ _, True)); [by apply Forall_true|auto]. Qed.

Lemma performs_finally {A} (body : guard A) final Q :
  performs P body Q → performs P final (λ _, True) → performs P (finally body final) Q.
Proof.
  intros Hb Hf h. unfold finally. destruct (Hb h) as [(cs & Hh & Hcs) Hr].
  destruct (body h) as [r h1]; simpl in *. destruct (Hf h1) as [(cs' & Hh' & Hcs') _].
  destruct (final h1) as [[u|e] h2]; simpl in *; (split; [|done]); exists (cs ++ cs');
    rewrite Hh', Hh, <- app_assoc; by split; [|apply Forall_app].
Qed.

Lemma performs_run reply c check : P c → performs P (run reply c check) (λ _, True).
Proof.
  intros Hc h. unfold run. destruct (reply h c) as [r|e]; [destruct (_ && _)|]; simpl;
    (split; [exists [c]; by auto|done]).
Qed.

Lemma performs_when {A} (m m' : guard A) (b : bool) Q :
  performs P m Q → performs P m' Q → performs P (if b then m else m') Q.
Proof. by destruct b. Qed.
End performs.

(** ** The commands of the guard *)

Section guard.
Context (reply : list command → command → result command_result).
Context (worktree_exists : list command → bool).
Context (read_small_text : list command → string → option string).
Context (json_loads : string → result (list string + nat * nat)).
Context (resolve : string → string) (worktree_parent : string).

Abbreviation worktree := (worktree worktree_parent).

(** The commands that only look, argument by argument: at the repository, where
    every commit but a name to resolve is a full identity, and at the index of
    a worktree.  [write-tree] adds a tree to the store and names it nowhere. *)
Inductive looks : list string → Prop :=
  | shows_toplevel : looks ["rev-parse"; "--show-toplevel"]
  | resolves name : looks ["rev-parse"; "--verify"; name +:+ "^{commit}"]
  | lists_branches :
      looks ["for-each-ref"; "--format=%(refname)%00%(objectname)"; "refs/heads"]
  | finds_base b h : FULL_SHA_RE b = true → FULL_SHA_RE h = true → looks ["merge-base"; b; h]
  | compares b h : FULL_SHA_RE b = true → FULL_SHA_RE h = true →
      looks ["diff"; "--name-only"; "-z"; b; h]
  | logs n sha : FULL_SHA_RE sha = true →
      looks ["log"; "--max-count=" +:+ str_nat n; "--format=%H%x00%P%x00%aI%x1e"; sha]
  | staged_names : looks ["diff"; "--cached"; "--name-only"; "-z"]
  | staged_check : looks ["diff"; "--cached"; "--check"]
  | unmerged_names : looks ["diff"; "--name-only"; "--diff-filter=U"; "-z"]
  | unmerged_stages : looks ["ls-files"; "-u"; "-z"]
  | blob_size blob : looks ["cat-file"; "-s"; blob]
  | names_tree : looks ["write-tree"].

(** Commands that move no reference of the repository and make no commit: they
    look; they check a commit out, detached, in a worktree of their own; they
    merge there without a commit ([--no-commit], and [--no-ff] so that nothing
    is fast-forwarded), without the recorded resolutions; or they undo that
    merge and remove that worktree.  What is checked out and merged is named by
    a full identity. *)
Inductive harmless : command → Prop :=
  | inspects dir l : looks l → harmless (Command dir ("git" :: l))
  | adds root sha : FULL_SHA_RE sha = true →
      harmless (Command root ["git"; "worktree"; "add"; "--detach"; worktree; sha])
  | merges sha : FULL_SHA_RE sha = true →
      harmless (Command worktree ["git"; "-c"; "rerere.enabled=false"; "-c";
        "merge.conflictStyle=diff3"; "merge"; "--no-commit"; "--no-ff"; "--no-rerere-autoupdate"; sha])
  | aborts : harmless (Command worktree ["git"; "merge"; "--abort"])
  | removes root : harmless (Command root ["git"; "worktree"; "remove"; "--force"; worktree])
  | prunes root : harmless (Command root ["git"; "worktree"; "prune"]).

#[local] Hint Constructors looks : core.

Abbreviation does := (performs harmless).

Lemma does_inspect check dir l : looks l → does (git_with reply check dir l) (λ _, True).
Proof. intros Hl. by apply performs_run, inspects. Qed.

Lemma does_resolve_commit repo ref :
  does (resolve_commit reply repo ref) (λ sha, FULL_SHA_RE sha = true).
Proof.
  unfold resolve_commit. eapply performs_bind; [apply does_inspect; auto|]. intros r _.
  eapply performs_bind; [apply performs_raise_when|]. intros _ H%negb_false_iff. by apply performs_ret.
Qed.

Lemma does_head_refs repo : does (head_refs reply repo) (λ _, True).
Proof.
  unfold head_refs. eapply performs_bind; [apply does_inspect; auto|]. intros r _.
  apply performs_loop. intros line refs. destruct (Url.is_empty line); [by apply performs_ret|].
  destruct (Url.str_partition nul line) as [? []]; [by apply performs_ret|apply performs_raise].
Qed.

Lemma does_changed_paths dir : does (changed_paths reply dir) (λ _, True).
Proof.
  unfold changed_paths. eapply performs_bind; [apply does_inspect; auto|]. intros r _.
  by apply performs_ret.
Qed.

Lemma does_candidate_paths repo mb b h :
  FULL_SHA_RE mb = true → FULL_SHA_RE b = true → FULL_SHA_RE h = true →
  does (candidate_changed_paths reply repo mb b h) (λ _, True).
Proof.
  intros Hmb Hb Hh. unfold candidate_changed_paths.
  eapply performs_bind; [|intros; by apply performs_ret].
  apply (performs_each _ (λ d, FULL_SHA_RE d = true)); [by repeat constructor|].
  intros d paths Hd. eapply performs_bind; [apply does_inspect; auto|].
  intros r _. by apply performs_ret.
Qed.

Lemma does_history repo sha n :
  FULL_SHA_RE sha = true → does (history reply repo sha n) (λ _, True).
Proof.
  intros Hsha. unfold history. eapply performs_bind; [apply does_inspect; auto|]. intros r _.
  apply performs_loop. intros record rows. cbv zeta. destruct (Url.is_empty _); [by apply performs_ret|].
  destruct (Url.str_split nul _) as [|? [|? [|? []]]]; try apply performs_raise. by apply performs_ret.
Qed.

Lemma does_conflict_stages dir wanted : does (conflict_stages reply dir wanted) (λ _, True).
Proof.
  unfold conflict_stages. eapply performs_bind; [apply does_inspect; auto|]. intros r _.
  eapply performs_bind; [|intros; by apply performs_ret].
  apply performs_loop. intros entry grouped. destruct (Url.is_empty entry); [by apply performs_ret|].
  destruct (Url.str_partition tab entry) as [metadata [path|]]; [|apply performs_raise].
  destruct (words metadata) as [|mode [|sha [|stage []]]]; try apply performs_raise.
  destruct (negb _); [by apply performs_ret|].
  eapply performs_bind; [apply does_inspect; auto|]. intros size _.
  eapply performs_bind; [by apply (performs_pure _ _ (λ _, True))|]. intros n _. by apply performs_ret.
Qed.

Lemma does_cleanup root started :
  does (cleanup reply worktree_exists worktree_parent root started) (λ _, True).
Proof.
  assert (∀ b dir l, harmless (Command dir ("git" :: l)) →
    does (when_worktree reply worktree_exists b dir l) (λ _, True)) as Hwhen.
  { intros b dir l Hl h. unfold when_worktree. destruct (_ && _).
    - apply (performs_bind _ (git_with reply false dir l) _ (λ _, True) (λ _, True));
        [by apply performs_run|intros; by apply performs_ret].
    - by apply (performs_ret _ tt (λ _, True)). }
  unfold cleanup. eapply performs_bind; [apply Hwhen, aborts|]. intros _ _.
  eapply performs_bind; [apply Hwhen, removes|]. intros _ _.
  eapply performs_bind; [apply performs_run, prunes|]. intros _ _. by apply performs_ret.
Qed.

(** ** What a review says *)

(** A report of the preview, by the exit status it goes with. *)
Definition previewed (o : Z * report) : Prop :=
  let '(code, r) := o in
  safe_to_publish r = false ∧ branch_ref_updated r = false ∧
  (code = EXIT_OK ∧ status r = "clean_preview" ∧ findings r = [] ∧ conflict_paths r = [] ∨
   code = EXIT_REVIEW_REQUIRED ∧
   (status r = "manual_resolution_required" ∧ conflict_paths r ≠ [] ∨
    status r = "semantic_validation_failed" ∧ findings r ≠ [])).

(** The report the preview starts from. *)
Definition fresh (r : report) : Prop :=
  safe_to_publish r = false ∧ branch_ref_updated r = false ∧ findings r = [] ∧ conflict_paths r = [].

Lemma does_manual_resolution r :
  does (manual_resolution reply worktree_parent r) (λ o, fresh r → previewed o).
Proof.
  unfold manual_resolution.
  eapply performs_bind; [apply does_inspect; auto|]. intros unmerged _. cbv zeta.
  eapply performs_bind; [apply performs_raise_when|]. intros _ Hne%bool_decide_eq_false.
  eapply performs_bind; [apply does_conflict_stages|]. intros stages _.
  apply performs_ret. intros (Hp & Hb & Hf & Hc).
  split; [done|]. split; [done|]. right. split; [done|]. left. split; [done|]. simpl. by rewrite sorted_strs_nil.
Qed.

Lemma does_clean_merge r :
  does (clean_merge reply read_small_text json_loads worktree_parent r) (λ o, fresh r → previewed o).
Proof.
  unfold clean_merge.
  eapply performs_bind; [apply does_changed_paths|]. intros paths _.
  eapply performs_bind; [apply does_inspect; auto|]. intros diff _.
  eapply (performs_bind _ _ _ (λ _, True)).
  { apply performs_loop. intros path acc h. split; [exists []; by rewrite app_nil_r|].
    by destruct (_ : result (list finding)). }
  intros found _. eapply performs_bind; [apply does_inspect; auto|]. intros tree _.
  apply performs_ret. intros (Hp & Hb & Hf & Hc). case_bool_decide as Hl; (split; [done|]; split; [done|]).
  - left. apply length_zero_iff_nil in Hl. split_and!; [done..|exact Hl|exact Hc].
  - right. split; [done|]. right. split; [done|]. intros Hnil. by apply length_zero_iff_nil in Hnil.
Qed.

Lemma does_preview root b h r :
  FULL_SHA_RE b = true → FULL_SHA_RE h = true → fresh r →
  does (preview reply worktree_exists read_small_text json_loads worktree_parent root b h r)
    previewed.
Proof.
  intros Hb Hh Hr h0. unfold preview.
  set (start := (git reply root ["worktree"; "add"; "--detach"; worktree; b] ;;
    git_with reply false worktree (merge_args h)) : guard command_result).
  assert (does start (λ _, True)) as Hstart.
  { eapply performs_bind; [by apply performs_run, adds|]. intros _ _. by apply performs_run, merges. }
  destruct (Hstart h0) as [(cs & Heq & Hcs) _].
  destruct (start h0) as [[merge|e] h1]; simpl in Heq; subst h1.
  - assert (does (finally (if returncode merge =? 0
      then clean_merge reply read_small_text json_loads worktree_parent r
      else manual_resolution reply worktree_parent r)
      (cleanup reply worktree_exists worktree_parent root true)) previewed) as H.
    { apply performs_finally; [|apply does_cleanup]. apply performs_when.
      - eapply performs_weaken; [apply does_clean_merge|]. auto.
      - eapply performs_weaken; [apply does_manual_resolution|]. auto. }
    destruct (H (h0 ++ cs)) as [(cs' & -> & Hcs') Hq]. split; [|done].
    exists (cs ++ cs'). rewrite <- app_assoc. by split; [|apply Forall_app].
  - assert (does (finally (A:=Z * report) (raise e)
      (cleanup reply worktree_exists worktree_parent root false)) previewed) as H
      by (apply performs_finally; [apply performs_raise|apply does_cleanup]).
    destruct (H (h0 ++ cs)) as [(cs' & -> & Hcs') Hq]. split; [|done].
    exists (cs ++ cs'). rewrite <- app_assoc. by split; [|apply Forall_app].
Qed.

(** ** The exit status *)

(** A review, by its exit status; a side whose reference did not hold still
    spoils it. *)
Definition reviewed (sides : list (report → side)) (o : Z * report) : Prop :=
  let '(code, r) := o in
  safe_to_publish r = false ∧
  (code = EXIT_OK ∧ status r = "clean_preview" ∧ findings r = [] ∧ conflict_paths r = [] ∨
   code = EXIT_REVIEW_REQUIRED ∧
   (status r = "manual_resolution_required" ∧ conflict_paths r ≠ [] ∨
    status r = "semantic_validation_failed" ∧ findings r ≠ []) ∨
   code = EXIT_ERROR ∧ status r ∈ ["source_repository_mutated"; "input_ref_moved"]) ∧
  (code ≠ EXIT_ERROR → branch_ref_updated r = false ∧
     ∀ side, side ∈ sides → ref_stable (side r) = Some true).

Lemma check_mutation_reviewed mutated moved o :
  previewed o → reviewed [] (check_mutation mutated moved o).
Proof.
  destruct o as [code r]. intros (Hp & Hb & Hcase). unfold check_mutation. destruct mutated.
  - split; [done|]. split; [|done]. right. right. split; [done|]. simpl. set_solver.
  - split; [done|]. split; [naive_solver|]. intros _. split; [done|]. by intros ? ?%not_elem_of_nil.
Qed.

Lemma does_recheck root key ref expected sides side o :
  reviewed sides o →
  (side, key) ∈ [(base, base_key); (head, head_key)] →
  (∀ s, s ∈ sides → s = base ∧ key = head_key) →
  does (recheck reply root key ref expected o) (reviewed (side :: sides)).
Proof.
  intros Ho Hside Hother. destruct o as [code r].
  assert (reviewed (side :: sides) (code, set_stable key true r)) as Hstable.
  { destruct Ho as (Hp & Hcase & Hst). split; [done|]. split; [exact Hcase|].
    intros Hcode. destruct (Hst Hcode) as [Hb Hall]. split; [done|].
    intros s [->|Hs]%elem_of_cons.
    - rewrite !elem_of_cons, elem_of_nil in Hside. by destruct Hside as [[= -> ->]|[[= -> ->]|[]]].
    - destruct (Hother s Hs) as [-> ->]. by apply Hall. }
  unfold recheck. destruct (FULL_SHA_RE ref); [by apply performs_ret|].
  eapply performs_bind; [apply does_resolve_commit|]. intros actual _. cbv zeta.
  apply performs_ret. destruct (String.eqb actual expected); [done|].
  split; [done|]. split; [|done]. right. right. split; [done|]. simpl. set_solver.
Qed.

Abbreviation execute :=
  (execute reply worktree_exists read_small_text json_loads resolve worktree_parent).
Abbreviation main := (main reply worktree_exists read_small_text json_loads resolve worktree_parent).

Lemma does_execute a : does (execute a) (reviewed [head; base]).
Proof.
  unfold MergeGuard.execute. eapply performs_bind; [apply does_inspect; auto|]. intros top _. cbv zeta.
  eapply performs_bind; [apply does_resolve_commit|]. intros original _.
  eapply performs_bind; [apply does_head_refs|]. intros refs _.
  eapply performs_bind; [apply does_resolve_commit|]. intros b Hb.
  eapply performs_bind; [apply does_resolve_commit|]. intros h Hh.
  eapply performs_bind; [apply does_inspect; auto|]. intros mb _.
  eapply performs_bind; [apply performs_raise_when|]. intros _ _.
  eapply performs_bind; [apply performs_raise_when|]. intros _ Hmb%negb_false_iff.
  eapply performs_bind; [by apply does_candidate_paths|]. intros paths _.
  eapply performs_bind; [by apply does_history|]. intros bh _.
  eapply performs_bind; [by apply does_history|]. intros hh _.
  eapply performs_bind; [by apply does_preview|]. intros o Ho.
  eapply performs_bind; [apply does_resolve_commit|]. intros final _.
  eapply performs_bind; [apply does_head_refs|]. intros refs' _.
  eapply performs_bind; [apply (does_recheck _ base_key _ _ [] base)|].
  - by apply check_mutation_reviewed.
  - set_solver.
  - by intros ? ?%not_elem_of_nil.
  - intros o' Ho'. apply (does_recheck _ head_key _ _ [base] head); [done|set_solver|].
    by intros s ->%list_elem_of_singleton.
Qed.


(** C16: Whatever git answers, every command the guard runs is one of a fixed
    list, argument by argument: it only looks, or checks a commit out, detached,
    in a worktree of the guard's own, merges there with [--no-commit] and
    [--no-ff], undoes the merge or removes the worktree.  So none moves a branch
    or makes a commit, and what is compared, checked out and merged is named by
    a full commit identity. *)
Theorem guard_is_harmless (a : arguments) (code : Z) (o : outcome) (h : list command) :
  main a = (code, o, h) → Forall harmless h.
Proof.
  unfold MergeGuard.main. intros H. destruct (does_execute a []) as [(cs & Hh & Hcs) _].
  destruct (execute a []) as [[[c r]|e] h1]; simpl in Hh; subst h1;
    by injection H as <- <- <-.
Qed.


(** ** The worktree *)

(** Git can always be started. *)
Definition git_starts : Prop := ∀ h c, ∃ r, reply h c = Ok r.

Lemma when_worktree_ends b dir l h :
  git_starts → when_worktree reply worktree_exists b dir l h =
    (Ok tt, h ++ if worktree_exists h && b then [Command dir ("git" :: l)] else []).
Proof.
  intros Hg. unfold when_worktree. destruct (_ && b); [|by rewrite app_nil_r].
  unfold mbind, guard_bind, git_with, run. by destruct (Hg h (Command dir ("git" :: l))) as [r ->].
Qed.

Lemma finally_cleans {A} (body : guard A) root started before cs result after (Q : A → Prop) :
  git_starts →
  finally body (cleanup reply worktree_exists worktree_parent root started) (before ++ cs)
    = (result, after) →
  does body Q →
  ∃ cs, after = (before ++ cs)
    ++ (if worktree_exists (before ++ cs)
        then [Command root ["git"; "worktree"; "remove"; "--force"; worktree]] else [])
    ++ [Command root ["git"; "worktree"; "prune"]].
Proof.
  intros Hg H Hbody. unfold finally in H. destruct (Hbody (before ++ cs)) as [(cs1 & Heq & _) _].
  destruct (body (before ++ cs)) as [r h1]; simpl in Heq; subst h1.
  unfold cleanup, mbind, guard_bind in H. rewrite !when_worktree_ends in H by done.
  set (aborted := if worktree_exists ((before ++ cs) ++ cs1) && started
    then [Command worktree ["git"; "merge"; "--abort"]] else []) in H.
  set (h2 := ((before ++ cs) ++ cs1) ++ aborted) in H.
  unfold git_with, run in H.
  destruct (Hg (h2 ++ if worktree_exists h2 && true
    then [Command root ["git"; "worktree"; "remove"; "--force"; worktree]] else [])
    (Command root ["git"; "worktree"; "prune"])) as [p Hp].
  rewrite Hp in H. simpl in H. injection H as <- <-. rewrite andb_true_r.
  exists (cs ++ cs1 ++ aborted).
  assert (before ++ cs ++ cs1 ++ aborted = h2) as -> by (unfold h2; by rewrite <- !app_assoc).
  by rewrite <- app_assoc.
Qed.

(** However a preview ends, the last commands ask for the worktree to be
    removed when it exists, and pruned. *)
Theorem preview_leaves_no_worktree (root b h : string) (r : report) (before after : list command)
    (result : result (Z * report)) :
  git_starts →
  preview reply worktree_exists read_small_text json_loads worktree_parent root b h r before
    = (result, after) →
  ∃ cs, after = (before ++ cs)
    ++ (if worktree_exists (before ++ cs)
        then [Command root ["git"; "worktree"; "remove"; "--force"; worktree]] else [])
    ++ [Command root ["git"; "worktree"; "prune"]].
Proof.
  intros Hg H. unfold preview in H.
  set (start := (git reply root ["worktree"; "add"; "--detach"; worktree; b] ;;
    git_with reply false worktree (merge_args h)) : guard command_result) in H.
  assert (performs (λ _, True) start (λ _, True)) as Hstart.
  { eapply performs_bind; [by apply performs_run|]. intros _ _. by apply performs_run. }
  destruct (Hstart before) as [(cs & Heq & _) _].
  destruct (start before) as [[merge|e] h1]; simpl in Heq; subst h1.
  - eapply finally_cleans; [done|exact H|].
    destruct (returncode merge =? 0); [apply does_clean_merge|apply does_manual_resolution].
  - eapply finally_cleans; [done|exact H|]. apply (performs_raise harmless e (λ _, True)).
Qed.
End guard.

(** ** Tables that are declared twice *)

Section tables.
Context (path : string) (lines : list string).

(** The table line [n] declares, the first line being line 1. *)
Definition table_at (n : nat) : option string :=
  match n with
  | O => None
  | S n => line ← lines !! n; strip <$> TOML_TABLE_RE line
  end.

#[local] Arguments table_at : simpl never.

Definition first_at (name : string) (i : nat) : Prop :=
  table_at i = Some name ∧ ∀ j, (j < i)%nat → table_at j ≠ Some name.
Definition repeated (f : finding) (k : nat) : Prop :=
  ∃ name i j, f = duplicate_toml_table path name i j ∧ first_at name i ∧ (i < j <= k)%nat ∧
    table_at j = Some name.

(** What the loop has found and remembered after [k] lines. *)
Definition scanned (k : nat) (s : list finding * seen) : Prop :=
  (∀ f, f ∈ s.1 ↔ repeated f k) ∧
  ∀ name, match assoc_get s.2 name with
          | Some i => first_at name i ∧ (i <= k)%nat
          | None => ∀ j, (j <= k)%nat → table_at j ≠ Some name
          end.

Lemma repeated_step f k :
  repeated f (S k) ↔ repeated f k ∨
  ∃ name i, f = duplicate_toml_table path name i (S k) ∧ first_at name i ∧ (i <= k)%nat ∧
    table_at (S k) = Some name.
Proof.
  unfold repeated. split.
  - intros (name & i & j & -> & Hi & Hij & Hj). destruct (decide (j = S k)) as [->|].
    + right. exists name, i. split_and!; [done..|lia|done].
    + left. exists name, i, j. split_and!; [done..|lia|lia|done].
  - intros [(name & i & j & -> & Hi & Hij & Hj)|(name & i & -> & Hi & Hle & Hj)].
    + exists name, i, j. split_and!; [done..|lia|lia|done].
    + exists name, i, (S k). split_and!; [done..|lia|lia|done].
Qed.

Lemma first_unique name i i' : first_at name i → first_at name i' → i = i'.
Proof.
  intros [Hi Hm] [Hi' Hm']. destruct (Nat.lt_trichotomy i i') as [H|[H|H]]; [|done|].
  - by destruct (Hm' i H).
  - by destruct (Hm i' H).
Qed.

Lemma toml_step k line s :
  lines !! k = Some line → scanned k s → scanned (S k) (toml_line path (S k) line s).
Proof.
  intros Hline [Hfs Htable]. assert (table_at (S k) = strip <$> TOML_TABLE_RE line) as Hat
    by (unfold table_at; by rewrite Hline). destruct s as [fs table]. unfold toml_line, note. simpl in *.
  rewrite <- Hat. destruct (table_at (S k)) as [n|] eqn:Hn.
  - pose proof (Htable n) as Hseen. destruct (assoc_get table n) as [i|] eqn:Hget; split; simpl.
    + intros f. rewrite elem_of_app, list_elem_of_singleton, repeated_step, Hfs.
      setoid_rewrite Hn. split; [|intros [?|(name & i' & -> & Hi' & Hle & [= <-])]; [by left|right]].
      * intros [?| ->]; [by left|right]. exists n, i. by destruct Hseen.
      * f_equal. by eapply first_unique; [|apply Hseen].
    + intros name. pose proof (Htable name) as H. destruct (assoc_get table name) eqn:Hg.
      * split; [apply H|]. destruct H. lia.
      * intros j Hj. destruct (decide (j = S k)) as [->|]; [|apply H; lia]. rewrite Hn. congruence.
    + intros f. rewrite app_nil_r, repeated_step, Hfs. setoid_rewrite Hn. split; [auto|].
      intros [?|(name & i & -> & [Hi _] & Hle & [= <-])]; [done|]. by destruct (Hseen i Hle).
    + intros name. rewrite assoc_get_set. pose proof (Htable name) as H.
      destruct (String.eqb_spec name n) as [->|Hne].
      * split; [|lia]. split; [done|]. intros j Hj. apply Hseen. lia.
      * destruct (assoc_get table name); [split; [apply H|]; destruct H; lia|].
        intros j Hj. destruct (decide (j = S k)) as [->|]; [|apply H; lia]. rewrite Hn. congruence.
  - split; simpl.
    + intros f. rewrite app_nil_r, repeated_step, Hfs. setoid_rewrite Hn. split; [auto|].
      by intros [?|(name & i & -> & _ & _ & [=])].
    + intros name. pose proof (Htable name) as H. destruct (assoc_get table name).
      * split; [apply H|]. destruct H. lia.
      * intros j Hj. destruct (decide (j = S k)) as [->|]; [by rewrite Hn|apply H; lia].
Qed.

Lemma toml_loop k rest s :
  drop k lines = rest → (k <= length lines)%nat → scanned k s →
  scanned (length lines) (numbered (S k) rest (toml_line path) s).
Proof.
  revert k s; induction rest as [|line rest IH]; intros k s Hdrop Hk Hs; simpl.
  - apply (f_equal length) in Hdrop. rewrite length_drop in Hdrop. simpl in Hdrop.
    by replace (length lines) with k by lia.
  - assert (lines !! k = Some line) as Hline.
    { rewrite <- (Nat.add_0_r k), <- lookup_drop, Hdrop. done. }
    assert (k < length lines)%nat by (by eapply lookup_lt_Some). apply IH; [|lia|by apply toml_step].
    rewrite (drop_S _ line) in Hdrop by done. by injection Hdrop.
Qed.
End tables.

(** The guard reports exactly the TOML tables a file declares again: each
    later declaration, with the line of the first. *)
Theorem toml_duplicates_exact (path source : string) (f : finding) :
  f ∈ toml_findings path source ↔
  ∃ name i j, f = duplicate_toml_table path name i j ∧ (i < j)%nat ∧
    table_at (splitlines str_line_end source) i = Some name ∧
    table_at (splitlines str_line_end source) j = Some name ∧
    ∀ k, (k < i)%nat → table_at (splitlines str_line_end source) k ≠ Some name.
Proof.
  unfold toml_findings. set (lines := splitlines str_line_end source).
  assert (scanned path lines 0 ([], [])) as H0.
  { split; simpl.
    - intros f'. split; [by intros ?%not_elem_of_nil|]. intros (? & ? & ? & _ & _ & ? & _). lia.
    - intros name j Hj. by replace j with 0%nat by lia. }
  destruct (toml_loop path lines 0 lines ([], []) (drop_0 _) ltac:(lia) H0) as [Hfs _].
  rewrite Hfs. unfold repeated, first_at. split.
  - intros (name & i & j & -> & [Hi Hm] & Hij & Hj). exists name, i, j. naive_solver lia.
  - intros (name & i & j & -> & Hij & Hi & Hj & Hm). exists name, i, j. split_and!; try done; try lia.
    destruct j as [|j]; [lia|]. unfold table_at in Hj. destruct (lines !! j) eqn:Hl; [|done].
    apply lookup_lt_Some in Hl. lia.
Qed.

(** ** A repository *)

#[export] Instance command_eq_dec : EqDecision command.
Proof. solve_decision. Defined.

Definition says (s : string) : result command_result := Ok (CommandResult 0 s EmptyString).
Definition sha_of (c : ascii) : string := String.string_of_list_ascii (repeat c 40).

(** Git in a repository with branches [main] and [feature], which merge
    cleanly; [main] moves when it is asked for again, if [moves]. *)
Definition sample_git (moves : bool) (h : list command) (c : command) : result command_result :=
  match args c with
  | ["git"; "rev-parse"; "--show-toplevel"] => says "/repo"
  | ["git"; "rev-parse"; "--verify"; name] =>
      says (if String.eqb name "feature^{commit}" then sha_of "b"
            else if moves && String.eqb name "main^{commit}" && bool_decide (c ∈ h) then sha_of "d"
            else sha_of "a")
  | "git" :: "merge-base" :: _ => says (sha_of "a")
  | "git" :: "write-tree" :: _ => says (sha_of "c")
  | _ => says EmptyString
  end.

Definition sample_arguments : arguments := Arguments "." "main" "feature" 10.
Definition sample_main (moves : bool) : Z * outcome * list command :=
  main (sample_git moves) (λ _, true) (λ _ _, None) (λ _, Ok (inl [])) (λ s, s) "/tmp/guard"
    sample_arguments.

Definition sample_outcome : outcome := (sample_main false).1.2.
Definition sample_commands : list command := (sample_main false).2.

Lemma sample_guard : sample_main false = (EXIT_OK, sample_outcome, sample_commands).
Proof. vm_compute. reflexivity. Qed.

Lemma guard_is_harmless_witness :
  sample_main false = (EXIT_OK, sample_outcome, sample_commands) ∧
  Forall (harmless "/tmp/guard") sample_commands.
Proof.
  split; [exact sample_guard|].
  exact (guard_is_harmless (sample_git false) (λ _, true) (λ _ _, None) (λ _, Ok (inl [])) (λ s, s)
    "/tmp/guard" sample_arguments EXIT_OK sample_outcome sample_commands sample_guard).
Defined.


Lemma sample_git_starts : git_starts (sample_git false).
Proof.
  intros h [dir l]. unfold sample_git, says. cbn [args].
  repeat match goal with |- context [match ?x with _ => _ end] => destruct x end; by eexists.
Qed.

Definition sample_started : report :=
  Report "started" false false (Side "main" (sha_of "a") [] None)
    (Side "feature" (sha_of "b") [] None) (sha_of "a") [] [] [] [] [] None false "manual review".
Definition sample_preview : result (Z * report) * list command :=
  preview (sample_git false) (λ _, true) (λ _ _, None) (λ _, Ok (inl [])) "/tmp/guard" "/repo"
    (sha_of "a") (sha_of "b") sample_started [].

Lemma sample_previews : sample_preview = (sample_preview.1, sample_preview.2).
Proof. by destruct sample_preview. Qed.

Lemma preview_leaves_no_worktree_witness :
  git_starts (sample_git false) ∧
  ∃ cs, sample_preview.2 = ([] ++ cs)
    ++ [Command "/repo" ["git"; "worktree"; "remove"; "--force"; "/tmp/guard/worktree"]]
    ++ [Command "/repo" ["git"; "worktree"; "prune"]].
Proof.
  split; [exact sample_git_starts|].
  exact (preview_leaves_no_worktree (sample_git false) (λ _, true) (λ _ _, None) (λ _, Ok (inl []))
    "/tmp/guard" "/repo" (sha_of "a") (sha_of "b") sample_started [] sample_preview.2
    sample_preview.1 sample_git_starts sample_previews).
Defined.

(** ** A reference that moves *)

(** A reference that moves during a clean preview is noticed, with exit
    status 3, and yet the report offers to open a review of the preview. *)
Theorem moved_reference_still_offered :
  ∃ o h, sample_main true = (EXIT_ERROR, o, h) ∧ outcome_status o = "input_ref_moved" ∧
    outcome_opens_review o = true.
Proof.
  exists (sample_main true).1.2, (sample_main true).2. vm_compute. repeat split.
Qed.

(** ** The scans on small texts *)

Definition crlf (lines : list string) : string := String.concat (String line_feed EmptyString) lines.

(** Fields of sibling blocks do not clash; fields of one block do. *)
Example rust_blocks :
  scan_rust "a.rs" (crlf ["struct A {"; "  pub id: u8,"; "}"; "struct B {"; "  id: u8,";
    "  pub(crate) id: u8, // again"; "}"; "mod x;"; "pub mod x;"])
  = [duplicate_rust_field_at_same_block_depth "a.rs" "id" 5 6;
     duplicate_rust_module_declaration "a.rs" "x" 8 9].
Proof. vm_compute. reflexivity. Qed.

(** What is taken for a field, with and without a visibility. *)
Example rust_paths_and_types :
  map RUST_FIELD_RE ["  a::b(c);"; "x: : y"; "pub : T"; "pub(super) name : T"; "fn f(x: T) {"]
  = [None; Some "x"; Some "pub"; Some "name"; None].
Proof. vm_compute. reflexivity. Qed.

(** Six [>] suffice for an end marker; seven [=] are not looked for. *)
Example markers :
  map CONFLICT_MARKER_RE
    ["<<<<<<< HEAD"; "<<<<<<<HEAD"; "======="; ">>>>>>"; ">>>>>>> x"; "|||||||"]
  = [true; false; false; true; true; true].
Proof. vm_compute. reflexivity. Qed.

End MergeGuardTheorems.
