(* ===== verification/Watchdog.v ===== *)
(** * Overnight job watchdog

    [src/tools/overnight_job_watchdog.py]: which night a moment belongs to, the
    report on the scheduled runs of that night, and the validation of the
    evidence a run left behind.  Parameters: the time-zone database
    ([ZoneInfo]), the answers of GitHub ([urlopen]), the reader of JSON
    ([json_loads]) and what the files hold.  A date is an ordinal, a wall clock
    and an instant are microseconds since 0001-01-01T00:00:00. *)
From S2P Require Import Prelude PyValue Sha256 Json Contract DateTime Regex RecoveryCommon.
From S2P Require Import GitObjects Url Collect.
From Stdlib Require Import Ascii SpecFloat.

Module Watchdog.
Open Scope Z_scope.

Definition MAX_RESPONSE_BYTES : Z := 2097152.
Definition SHA256_RE : string → bool := rx_rep is_hex 64 64.
Definition OUTPUT_RE : string → bool :=
  rx_head_rep is_lower (λ c, is_lower c || is_digit c || one_of "_" c) 0 63.

Definition watchdog_error (msg : string) : exn := Exn WatchdogError msg.

(** ** Fields *)

Definition _object (v : value) (field : string) : result items :=
  expect_dict v (watchdog_error (field +:+ " must be an object")).

Definition as_dict (v : value) : option items :=
  match v with VDict d => Some d | _ => None end.
Definition _objects (v : value) (field : string) : result (list items) :=
  let e := watchdog_error (field +:+ " must be an array of objects") in
  match v with
  | VList l => match mapM as_dict l with Some ds => Ok ds | None => Raise e end
  | _ => Raise e
  end.

Definition is_blank (s : string) : bool :=
  Url.is_empty (strip s).
Definition no_control (s : string) : bool := all_chars (λ c, negb (code c <? 32)%N) s.
Definition _text (v : value) (field : string) (maximum : Z) : result string :=
  s ← expect_str (λ s, negb (is_blank s) && (slen s <=? maximum)) v
        (watchdog_error (field +:+ " must be non-empty bounded text"));
  raise_if (negb (no_control s)) (watchdog_error (field +:+ " contains control characters")) ;;
  Ok s.

Definition _positive (v : value) (field : string) : result Z :=
  expect_int (λ z, 0 <? z) v (watchdog_error (field +:+ " must be a positive integer")).
Definition _non_negative (v : value) (field : string) : result Z :=
  expect_int (λ z, 0 <=? z) v (watchdog_error (field +:+ " must be a non-negative integer")).
Definition _digest (v : value) (field : string) : result string :=
  expect_str SHA256_RE v (watchdog_error (field +:+ " must be a lowercase SHA-256 digest")).
Definition _canonical_digest (d : items) : string := sha256_value (VDict d).

(** [v == s] for a text [s]; [v or w]. *)
Definition is_text (v : value) (s : string) : bool :=
  match v with VStr t => String.eqb t s | _ => false end.
Definition either (v w : value) : value := if truthy v then v else w.

(** ** Moments *)

Definition parse_text_instant (s : string) : result Z :=
  let text := if ends_with s "Z" then String.substring 0 (String.length s - 1) s +:+ "+00:00"
              else s in
  match fromisoformat text with
  | None => Raise (watchdog_error "timestamp must use ISO-8601")
  | Some (_, None) => Raise (watchdog_error "timestamp must include an offset")
  | Some (wall, Some offset) => to_utc wall offset
  end.
(** [clock] is the present. *)
Definition parse_instant (clock : Z) (s : option string) : result Z :=
  match s with None => Ok clock | Some s => parse_text_instant s end.
Definition _github_instant (v : value) (field : string) : result Z :=
  s ← _text v field 64; parse_text_instant s.

(** A time zone: its offset from UTC at an instant, and at a time its wall
    clocks show (the first of the two when they show it twice). *)
Record zone : Type := Zone {
  offset_at : Z → Z;
  offset_of : Z → Z;
}.

(** [t.astimezone(zone)]: what the wall clocks show. *)
Definition to_local (z : zone) (t : Z) : result Z := instant_add t (offset_at z t).

Definition offset_suffix (offset : Z) : string :=
  let a := Z.abs offset in
  let secs := a / 1000000 in
  let us := a mod 1000000 in
  String (if offset <? 0 then "-" else "+")
    (zero_padded 2 (secs / 3600) (String ":" (zero_padded 2 (secs / 60 mod 60)
      (if (secs mod 60 =? 0) && (us =? 0) then EmptyString
       else String ":" (zero_padded 2 (secs mod 60)
              (if us =? 0 then EmptyString else String "." (zero_padded 6 us EmptyString))))))).
Definition utc_isoformat (t : Z) : string := isoformat t "+00:00".
(** [t.astimezone(zone).isoformat()], and that of a wall time. *)
Definition local_isoformat (z : zone) (t wall : Z) : string :=
  isoformat wall (offset_suffix (offset_at z t)).
Definition wall_isoformat (z : zone) (wall : Z) : string :=
  isoformat wall (offset_suffix (offset_of z wall)).
Definition date_isoformat (day : Z) : string :=
  let '(y, m, d) := ord_to_ymd day in
  zero_padded 4 y (String "-" (zero_padded 2 m (String "-" (zero_padded 2 d EmptyString)))).

Definition minutes (n : Z) : Z := n * 60000000.
Definition date_of (wall : Z) : Z := wall / day_us + 1.
Definition at_time (day hour minute : Z) : Z := (day - 1) * day_us + minutes (hour * 60 + minute).

(** [int(delta.total_seconds() // 60)]: the microseconds divided by [10^6] in
    double precision, the floor of that by 60. *)
Definition whole_minutes (us : Z) : Z :=
  let a := Z.abs us in
  if a <? 1000000 then if us <? 0 then -1 else 0
  else
    let k := 52 - Z.log2 (a / 1000000) in
    Z.sgn us * FloatRepr.round_div (a * 2 ^ k) 1000000 / (60 * 2 ^ k).

(** [strptime(s, "%H:%M")]: an hour of up to two digits, as many as fit, a colon
    and a minute of up to two digits, as many as fit. *)
Definition hour_of (s : string) : option (Z * string) :=
  match s with
  | String a (String b rest) =>
      if (Ascii.eqb a "2" && in_range "0" "3" b) || (in_range "0" "1" a && is_digit b)
      then Some (digit_val a * 10 + digit_val b, rest)
      else if is_digit a then Some (digit_val a, String b rest) else None
  | String a rest => if is_digit a then Some (digit_val a, rest) else None
  | EmptyString => None
  end.
Definition minute_of (s : string) : option (Z * string) :=
  match s with
  | String a (String b rest) =>
      if in_range "0" "5" a && is_digit b then Some (digit_val a * 10 + digit_val b, rest)
      else if is_digit a then Some (digit_val a, String b rest) else None
  | String a rest => if is_digit a then Some (digit_val a, rest) else None
  | EmptyString => None
  end.
Definition _parse_local_time (s : string) : result (Z * Z) :=
  match hour_of s with
  | Some (hour, String ":" rest) =>
      match minute_of rest with
      | Some (minute, EmptyString) => Ok (hour, minute)
      | _ => Raise (watchdog_error "local_time must use HH:MM")
      end
  | _ => Raise (watchdog_error "local_time must use HH:MM")
  end.

(** ** The catalog *)

(** An entry of the catalog, with the fields that are read of it. *)
Record entry : Type := Entry {
  id : string;
  workflow : string;
  branch : string;
  timezone : string;
  local_time : string;
  max_dispatch_delay_minutes : Z;
  settlement_minutes : Z;
  execution_job : string;
  run_key_prefix : string;
  terminal_artifact_prefix : string;
  report_artifact_prefix : string;
  terminal_receipt_file : string;
  terminal_receipt_schema : string;
  report_ledger_file : string;
  report_markdown_file : string;
}.

Record LogicalNight : Type := Night {
  logical_date : Z;
  scheduled_at : Z;
  latest_dispatch_at : Z;
  settlement_at : Z;
  expected_run_key : string;
}.

Section zones.
(** [ZoneInfo(name)]: [None] for [ZoneInfoNotFoundError]. *)
Context (ZoneInfo : string → result (option zone)).

Definition _zone (name : string) : result zone :=
  found ← ZoneInfo name;
  match found with
  | Some z => Ok z
  | None => Raise (watchdog_error ("unknown timezone: " +:+ name))
  end.

Definition bounded_minutes (raw : items) (job_id field : string) (lower upper : Z) : result Z :=
  expect_int (λ z, (lower <=? z) && (z <=? upper)) (dict_get raw field)
    (watchdog_error (job_id +:+ "." +:+ field +:+ " must be between " +:+ str_int lower
       +:+ " and " +:+ str_int upper)).

Definition load_entry (raw : items) (validated : list entry) : result (list entry) :=
  job_id ← _text (dict_get raw "id") "job.id" 80;
  raise_if (mem_str job_id (map id validated)) (watchdog_error "watchdog job IDs must be unique") ;;
  let text field := _text (dict_get raw field) (job_id +:+ "." +:+ field) in
  workflow ← text "workflow" 160;
  raise_if (negb (ends_with workflow ".yml" || ends_with workflow ".yaml"))
    (watchdog_error (job_id +:+ ".workflow must name YAML")) ;;
  branch ← text "branch" 255;
  timezone ← text "timezone" 100;
  _zone timezone ;;
  local_time ← text "local_time" 5;
  _parse_local_time local_time ;;
  delay ← bounded_minutes raw job_id "max_dispatch_delay_minutes" 1 720;
  settlement ← bounded_minutes raw job_id "settlement_minutes" 1 1440;
  raise_if (settlement <? delay)
    (watchdog_error (job_id +:+ ".settlement_minutes precedes dispatch window")) ;;
  execution_job ← text "execution_job" 100;
  run_key_prefix ← text "run_key_prefix" 100;
  terminal_artifact_prefix ← text "terminal_artifact_prefix" 160;
  report_artifact_prefix ← text "report_artifact_prefix" 160;
  terminal_receipt_file ← text "terminal_receipt_file" 160;
  terminal_receipt_schema ← text "terminal_receipt_schema" 160;
  report_ledger_file ← text "report_ledger_file" 160;
  report_markdown_file ← text "report_markdown_file" 160;
  Ok (validated ++ [Entry job_id workflow branch timezone local_time delay settlement execution_job
        run_key_prefix terminal_artifact_prefix report_artifact_prefix terminal_receipt_file
        terminal_receipt_schema report_ledger_file report_markdown_file]).

Definition load_catalog (document : items) : result (list entry) :=
  raise_if (negb (is_text (dict_get document "schema_version") "overnight_jobs.v2"))
    (watchdog_error "unsupported watchdog catalog schema") ;;
  jobs ← _objects (dict_get document "jobs") "watchdog catalog.jobs";
  raise_if (bool_decide (jobs = [])) (watchdog_error "watchdog catalog must contain jobs") ;;
  for_each jobs load_entry [].

Definition select_entry (entries : list entry) (job_id : string) : result entry :=
  match List.filter (λ e, String.eqb (id e) job_id) entries with
  | [e] => Ok e
  | _ => Raise (watchdog_error ("catalog must contain exactly one job " +:+ repr_str job_id))
  end.

(** ** The night *)

(** [d - timedelta(days=1)] *)
Definition day_before (day : Z) : result Z :=
  match check_ord (day - 1) with Some day => Ok day | None => Raise date_out_of_range end.

Definition chosen_date (local_now hour minute : Z) (e : entry) (explicit_date : option string)
  : result Z :=
  let today := date_of local_now in
  let settled :=
    deadline ← instant_add (at_time today hour minute) (minutes (settlement_minutes e));
    if deadline <=? local_now then Ok today else day_before today in
  match explicit_date with
  | None => settled
  | Some s =>
      if String.eqb s EmptyString then settled
      else match date_fromisoformat s with
           | Some day => Ok day
           | None => Raise (watchdog_error "logical date must use YYYY-MM-DD")
           end
  end.

Definition logical_night (now : Z) (e : entry) (explicit_date : option string)
  : result LogicalNight :=
  z ← _zone (timezone e);
  local_now ← to_local z now;
  '(hour, minute) ← _parse_local_time (local_time e);
  day ← chosen_date local_now hour minute e explicit_date;
  let scheduled := at_time day hour minute in
  latest ← instant_add scheduled (minutes (max_dispatch_delay_minutes e));
  settlement ← instant_add scheduled (minutes (settlement_minutes e));
  Ok (Night day scheduled latest settlement
        (run_key_prefix e +:+ ":scheduled:" +:+ date_isoformat day)).
End zones.

(** ** Where runs are listed *)

Record client : Type := Client {
  list_runs : string → result (list items);
  list_jobs : Z → result (list items);
  list_artifacts : Z → result (list items);
}.

Definition SnapshotClient (payload : items) : result client :=
  runs ← _objects (dict_get payload "workflow_runs") "workflow_runs";
  jobs ← _object (dict_get payload "jobs_by_run") "jobs_by_run";
  artifacts ← _object (dict_get payload "artifacts_by_run") "artifacts_by_run";
  Ok (Client (λ _, Ok runs)
        (λ run_id, _objects (dict_get_or jobs (str_int run_id) (VList []))
                     ("jobs_by_run." +:+ str_int run_id))
        (λ run_id, _objects (dict_get_or artifacts (str_int run_id) (VList []))
                     ("artifacts_by_run." +:+ str_int run_id))).

(** What [urlopen] comes to: a response, an HTTP error status, no connection or
    no answer in time, or another exception. *)
Inductive reply : Type :=
  | Response (status : Z) (body : string)
  | HTTPError (code : Z)
  | Unreachable
  | Failure (e : exn).

Definition transient (r : reply) : bool :=
  match r with
  | HTTPError code => bool_decide (code ∈ [429; 500; 502; 503; 504])
  | Unreachable => true
  | _ => false
  end.

Section github.
(** The answer to a request for a URL, the number of requests for it before. *)
Context (urlopen : string → nat → reply).
Context (json_loads : string → result value).

Definition read_response (status : Z) (body : string) : result items :=
  raise_if (MAX_RESPONSE_BYTES <? slen body) (watchdog_error "GitHub response exceeded size limit") ;;
  raise_if (negb ((200 <=? status) && (status <? 300)))
    (watchdog_error ("GitHub returned HTTP " +:+ str_int status)) ;;
  document ← (if String.eqb body EmptyString then Ok (VDict []) else json_loads body);
  _object document "GitHub response".

(** The error of a request that is not made again. *)
Definition request_error (r : reply) : exn :=
  match r with
  | HTTPError code => watchdog_error ("GitHub returned HTTP " +:+ str_int code)
  | Failure e => e
  | _ => watchdog_error "GitHub request failed"
  end.
Definition answer (r : reply) : result items :=
  match r with
  | Response status body => read_response status body
  | r => Raise (request_error r)
  end.

(** [remaining] attempts; the answer, and the quarters of a second slept
    between attempts. *)
Fixpoint get_from (remaining attempt : nat) (url : string) : result items * list Z :=
  match remaining with
  | O => (Raise (watchdog_error "GitHub request failed"), [])
  | S remaining =>
      let r := urlopen url attempt in
      if transient r && negb (attempt =? 3)%nat then
        let '(result, waits) := get_from remaining (S attempt) url in
        (result, 2 ^ Z.of_nat attempt :: waits)
      else (answer r, [])
  end.
Definition get (url : string) : result items * list Z := get_from 4 0 url.

Definition GitHubClient (repository token api_url : string) (timeout : spec_float) : result client :=
  raise_if (negb (contains "/" repository)) (watchdog_error "repository must use owner/name") ;;
  raise_if (is_blank token) (watchdog_error "GITHUB_TOKEN is required") ;;
  raise_if (negb (SFltb (S754_zero false) timeout && SFleb timeout (binary_normalize 53 1024 60 0 false)))
    (watchdog_error "timeout must be in (0, 60]") ;;
  let base := Url.rstrip_slash api_url +:+ "/repos/" +:+ repository in
  let of_run run_id kind :=
    n ← _positive (VInt run_id) "run_id";
    body ← (get (base +:+ "/actions/runs/" +:+ str_int n +:+ "/" +:+ kind +:+ "?per_page=100")).1;
    _objects (dict_get body kind) kind in
  Ok (Client
        (λ workflow,
           body ← (get (base +:+ "/actions/workflows/" +:+ Url.quote workflow
                        +:+ "/runs?event=schedule&per_page=50")).1;
           _objects (dict_get body "workflow_runs") "workflow_runs")
        (λ run_id, of_run run_id "jobs")
        (λ run_id, of_run run_id "artifacts")).
End github.

(** ** An attempt *)

Record attempt : Type := Attempt {
  run_id : Z;
  run_attempt : Z;
  run_url : value;
  head_sha : value;
  started_at : string;
  started_local : string;
  dispatch_delay_minutes : Z;
  terminal_artifact_name : string;
  terminal_artifact_id : value;
  report_artifact_name : string;
  report_artifact_id : value;
  attempt_reasons : list string;
}.
(** [a["status"] == "success"] *)
Definition succeeded (a : attempt) : bool := bool_decide (attempt_reasons a = []).

Definition reason_if (b : bool) (reason : string) : list string := if b then [reason] else [].
Definition not_successful (d : items) : bool :=
  negb (is_text (dict_get d "status") "completed") || negb (is_text (dict_get d "conclusion") "success").
Definition outcome_of (d : items) : string :=
  py_str (either (dict_get d "conclusion") (dict_get d "status")).

Definition _unique_named (l : list items) (name kind : string) : result (option items) :=
  match List.filter (λ item, is_text (dict_get item "name") name) l with
  | [] => Ok None
  | [item] => Ok (Some item)
  | _ => Raise (watchdog_error ("duplicate " +:+ kind +:+ " " +:+ repr_str name))
  end.

Definition bad_size (v : value) : bool :=
  match v with
  | VNone => false
  | VInt n => n <=? 0
  | _ => true
  end.
Definition artifact_reasons (artifact : option items) (name label : string) : list string :=
  match artifact with
  | None => [label +:+ " artifact " +:+ repr_str name +:+ " was absent"]
  | Some artifact =>
      reason_if (negb (is_bool (dict_get artifact "expired") false)) (label +:+ " artifact is expired")
      ++ reason_if (bad_size (dict_get artifact "size_in_bytes")) (label +:+ " artifact is empty")
  end.
Definition execution_reasons (e : entry) (execution : option items) : list string :=
  let job := "required job " +:+ repr_str (execution_job e) in
  match execution with
  | None => [job +:+ " was absent"]
  | Some execution => reason_if (not_successful execution) (job +:+ " concluded " +:+ outcome_of execution)
  end.
Definition run_reasons (e : entry) (run : items) (delay : Z) : list string :=
  reason_if (negb (is_text (dict_get run "event") "schedule")) "event was not schedule"
  ++ reason_if (negb (is_text (dict_get run "head_branch") (branch e)))
       "run did not use expected default branch"
  ++ reason_if (negb ((0 <=? delay) && (delay <=? max_dispatch_delay_minutes e)))
       ("dispatch delay " +:+ str_int delay +:+ "m was outside governed window")
  ++ reason_if (not_successful run) ("workflow concluded " +:+ outcome_of run).

Definition artifact_id (artifact : option items) : value :=
  match artifact with Some artifact => dict_get artifact "id" | None => VNone end.
Definition run_started (run : items) : result Z :=
  _github_instant (either (dict_get run "run_started_at") (dict_get run "created_at")) "run.started_at".
Definition artifact_name (prefix : string) (run_id run_attempt : Z) : string :=
  prefix +:+ str_int run_id +:+ "-" +:+ str_int run_attempt.

Section reports.
Context (ZoneInfo : string → result (option zone)).

Definition evaluate_attempt (run : items) (e : entry) (night : LogicalNight)
    (jobs artifacts : list items) : result attempt :=
  run_id ← _positive (dict_get run "id") "run.id";
  run_attempt ← _positive (dict_get_or run "run_attempt" (VInt 1)) "run.run_attempt";
  started ← run_started run;
  z ← _zone ZoneInfo (timezone e);
  local_started ← to_local z started;
  let delay := whole_minutes (local_started - scheduled_at night) in
  let terminal_name := artifact_name (terminal_artifact_prefix e) run_id run_attempt in
  let report_name := artifact_name (report_artifact_prefix e) run_id run_attempt in
  execution ← _unique_named jobs (execution_job e) "job";
  terminal ← _unique_named artifacts terminal_name "artifact";
  report ← _unique_named artifacts report_name "artifact";
  Ok (Attempt run_id run_attempt (dict_get run "html_url") (dict_get run "head_sha")
        (utc_isoformat started) (local_isoformat z started local_started) delay
        terminal_name (artifact_id terminal) report_name (artifact_id report)
        (run_reasons e run delay ++ execution_reasons e execution
         ++ artifact_reasons terminal terminal_name "terminal"
         ++ artifact_reasons report report_name "report")).

(** ** The report *)

Record report : Type := Report {
  generated_at : string;
  report_job : entry;
  report_date : string;
  report_run_key : string;
  report_scheduled_at : string;
  report_latest_dispatch_at : string;
  report_settlement_at : string;
  selected_attempt : option attempt;
  attempts : list attempt;
  inspection_error_count : nat;
  reasons : list string;
}.
(** [report["status"] == "success"] *)
Definition report_succeeded (r : report) : bool :=
  is_some (selected_attempt r) && bool_decide (reasons r = []).

(** A listed run: its start and its attempt, or [None] outside the window. *)
Definition inspect_run (c : client) (e : entry) (night : LogicalNight) (run : items)
  : result (option (Z * attempt)) :=
  started ← run_started run;
  z ← _zone ZoneInfo (timezone e);
  local_started ← to_local z started;
  if (scheduled_at night <=? local_started) && (local_started <=? latest_dispatch_at night) then
    n ← _positive (dict_get run "id") "run.id";
    jobs ← list_jobs c n;
    artifacts ← list_artifacts c n;
    a ← evaluate_attempt run e night jobs artifacts;
    Ok (Some (started, a))
  else Ok None.

Definition inspect_next (c : client) (e : entry) (night : LogicalNight) (run : items)
    (acc : list (Z * attempt) * nat) : result (list (Z * attempt) * nat) :=
  match inspect_run c e night run with
  | Ok None => Ok acc
  | Ok (Some a) => Ok (acc.1 ++ [a], acc.2)
  | Raise err => if bool_decide (exn_cls err = WatchdogError) then Ok (acc.1, S acc.2) else Raise err
  end.

Definition started_leb (x y : Z * attempt) : bool := x.1 <=? y.1.

Definition build_report (c : client) (e : entry) (night : LogicalNight) (now : Z) : result report :=
  runs ← list_runs c (workflow e);
  '(inspected, inspection_errors) ← for_each (take 30 runs) (inspect_next c e night) ([], 0%nat);
  let ordered := map snd (stable_sort started_leb inspected) in
  let successful := List.filter succeeded ordered in
  z ← _zone ZoneInfo (timezone e);
  local_now ← to_local z now;
  Ok (Report (utc_isoformat now) e (date_isoformat (logical_date night)) (expected_run_key night)
        (wall_isoformat z (scheduled_at night)) (wall_isoformat z (latest_dispatch_at night))
        (wall_isoformat z (settlement_at night)) (last successful) ordered inspection_errors
        (reason_if (local_now <? settlement_at night) "settlement deadline has not passed"
         ++ (if bool_decide (ordered = [])
             then ["no scheduled workflow run began inside governed window"]
             else reason_if (bool_decide (successful = []))
                    "no attempt had successful execution and both evidence artifacts")
         ++ reason_if (0 <? Z.of_nat inspection_errors)
              "one or more attempts could not be inspected safely")).
End reports.

Definition attempt_value (a : attempt) : value :=
  VDict [("run_id", VInt (run_id a)); ("run_attempt", VInt (run_attempt a));
         ("run_url", run_url a); ("head_sha", head_sha a);
         ("started_at", VStr (started_at a)); ("started_local", VStr (started_local a));
         ("dispatch_delay_minutes", VInt (dispatch_delay_minutes a));
         ("terminal_artifact_name", VStr (terminal_artifact_name a));
         ("terminal_artifact_id", terminal_artifact_id a);
         ("report_artifact_name", VStr (report_artifact_name a));
         ("report_artifact_id", report_artifact_id a);
         ("status", VStr (if succeeded a then "success" else "failure"));
         ("reasons", strs (attempt_reasons a))].
Definition outcome (r : report) : string := if report_succeeded r then "success" else "failure".
Definition report_value (r : report) : value :=
  VDict [("schema_version", VStr "overnight_watchdog_report.v2");
         ("generated_at", VStr (generated_at r)); ("job_id", VStr (id (report_job r)));
         ("workflow", VStr (workflow (report_job r))); ("timezone", VStr (timezone (report_job r)));
         ("logical_date", VStr (report_date r)); ("expected_run_key", VStr (report_run_key r));
         ("scheduled_at", VStr (report_scheduled_at r));
         ("latest_dispatch_at", VStr (report_latest_dispatch_at r));
         ("settlement_at", VStr (report_settlement_at r)); ("status", VStr (outcome r));
         ("selected_attempt", from_option attempt_value VNone (selected_attempt r));
         ("attempts", VList (map attempt_value (attempts r)));
         ("inspection_error_count", VInt (Z.of_nat (inspection_error_count r)));
         ("reasons", strs (reasons r))].

Definition code_span (s : string) : string := "`" +:+ s +:+ "`".
Definition render_markdown (r : report) : string :=
  str_join "
" (["# Recent-chat reconciliation watchdog"; EmptyString;
    "**Outcome: " +:+ (if report_succeeded r then "SUCCESS" else "FAILURE") +:+ "**"; EmptyString;
    "- Logical date: " +:+ code_span (report_date r);
    "- Expected run key: " +:+ code_span (report_run_key r);
    "- Scheduled at: " +:+ code_span (report_scheduled_at r);
    "- Settlement at: " +:+ code_span (report_settlement_at r);
    "- Attempts inspected: " +:+ code_span (str_nat (length (attempts r)))]
   ++ match selected_attempt r with
      | Some a =>
          ["- Selected run: " +:+ code_span (str_int (run_id a)) +:+ " attempt "
             +:+ code_span (str_int (run_attempt a));
           "- Dispatch delay: " +:+ code_span (str_int (dispatch_delay_minutes a) +:+ " minutes");
           "- Terminal artifact: " +:+ code_span (terminal_artifact_name a);
           "- Report artifact: " +:+ code_span (report_artifact_name a)]
      | None => []
      end
   ++ (if bool_decide (reasons r = []) then []
       else [EmptyString; "## Reasons"; EmptyString] ++ map (λ reason, "- " +:+ reason) (reasons r))
   ++ [EmptyString]).

(** ** The evidence *)

(** What the files of an attempt hold, as [_read_json] and [read_text] return
    it; whether the report directory is a regular one. *)
Record files : Type := Files {
  receipt_file : result items;
  report_dir_regular : bool;
  ledger_file : string → result items;
  markdown_file : string → result string;
}.

(** The attempt the evidence must belong to. *)
Record binding : Type := Binding {
  bound_run_key : string;
  bound_run_id : Z;
  bound_run_attempt : Z;
  bound_terminal_artifact : string;
  bound_report_artifact : string;
}.

(** What the checks of the receipt find in it. *)
Record receipt_facts : Type := Facts {
  receipt_digest : string;
  prompts_scanned : Z;
  actionable_items : Z;
  dispositioned_items : Z;
  report_sha256 : string;
  manifest_sha256 : string;
  completion_summary : items;
}.

(** The digest a receipt carries, which is that of everything else in it. *)
Definition check_digest (receipt : items) : result string :=
  supplied ← _digest (dict_get receipt "receipt_sha256") "receipt.receipt_sha256";
  let unsigned := List.filter (λ kv, negb (String.eqb kv.1 "receipt_sha256")) receipt in
  raise_if (negb (String.eqb (_canonical_digest unsigned) supplied))
    (watchdog_error "terminal receipt digest mismatch") ;;
  Ok supplied.

Definition check_dispositions (completion : items) (actionable : Z) : result unit :=
  dispositions ← _object (dict_get completion "dispositions") "completion.dispositions";
  let count name :=
    _non_negative (dict_get_or dispositions name (VInt 0)) ("dispositions." +:+ name) in
  complete ← count "complete";
  landed ← count "already_landed";
  for_each ["in_review"; "blocked_with_owner"; "deferred_with_owner"] (λ name _,
    n ← count name;
    raise_if (negb (n =? 0)) (watchdog_error ("dispositions." +:+ name +:+ " must be zero"))) tt ;;
  raise_if (negb (complete + landed =? actionable))
    (watchdog_error "finished dispositions do not equal actionable items").

Definition check_completion (completion : items) (prompts actionable : Z) : result unit :=
  raise_if (negb (is_bool (dict_get completion "all_work_complete") true))
    (watchdog_error "all_work_complete is not true") ;;
  unfinished ← _non_negative (dict_get completion "unfinished_items") "unfinished_items";
  raise_if (negb (unfinished =? 0)) (watchdog_error "unfinished_items must be zero") ;;
  n ← _non_negative (dict_get completion "prompts_scanned") "completion.prompts_scanned";
  raise_if (negb (n =? prompts)) (watchdog_error "prompt counts disagree") ;;
  n ← _non_negative (dict_get completion "actionable_items") "completion.actionable_items";
  raise_if (negb (n =? actionable)) (watchdog_error "actionable counts disagree") ;;
  check_dispositions completion actionable.

Definition check_receipt (e : entry) (run_key : string) (receipt : items) : result receipt_facts :=
  raise_if (negb (is_text (dict_get receipt "schema_version") (terminal_receipt_schema e)))
    (watchdog_error "unsupported terminal receipt schema") ;;
  supplied ← check_digest receipt;
  raise_if (negb (is_text (dict_get receipt "status") "complete")
            || negb (is_text (dict_get receipt "work_status") "complete"))
    (watchdog_error "terminal receipt does not report complete work") ;;
  raise_if (negb (is_text (dict_get receipt "job_status") "succeeded"))
    (watchdog_error "terminal receipt job did not succeed") ;;
  raise_if (negb (is_text (dict_get receipt "run_key") run_key))
    (watchdog_error "terminal receipt run key mismatch") ;;
  _text (dict_get receipt "job_id") "receipt.job_id" 200 ;;
  _positive (dict_get receipt "attempts") "receipt.attempts" ;;
  validation ← _object (dict_get receipt "validation") "receipt.validation";
  raise_if (negb (is_text (dict_get validation "run_key") run_key)
            || negb (is_text (dict_get validation "status") "complete"))
    (watchdog_error "completion validation does not bind to logical night") ;;
  raise_if (negb (is_text (dict_get validation "source_coverage_status") "complete"))
    (watchdog_error "source coverage is incomplete") ;;
  prompts ← _non_negative (dict_get validation "prompts_scanned") "prompts_scanned";
  actionable ← _non_negative (dict_get validation "actionable_items") "actionable_items";
  dispositioned ← _non_negative (dict_get validation "dispositioned_items") "dispositioned_items";
  raise_if (negb (actionable =? dispositioned))
    (watchdog_error "not every actionable item was dispositioned") ;;
  report ← _digest (dict_get validation "report_sha256") "report_sha256";
  manifest ← _digest (dict_get validation "manifest_sha256") "manifest_sha256";
  completion ← _object (dict_get receipt "completion_summary") "completion_summary";
  check_completion completion prompts actionable ;;
  Ok (Facts supplied prompts actionable dispositioned report manifest completion).

Definition check_ledger (e : entry) (b : binding) (facts : receipt_facts) (ledger : items)
  : result unit :=
  raise_if (negb (is_text (dict_get ledger "schema_version") "overnight_run_ledger.v1"))
    (watchdog_error "unsupported run ledger schema") ;;
  raise_if (negb (is_text (dict_get ledger "job_id") (id e))
            || negb (is_text (dict_get ledger "workflow") (workflow e)))
    (watchdog_error "run ledger job identity mismatch") ;;
  raise_if (negb (py_eq (dict_get ledger "run_id") (VInt (bound_run_id b)))
            || negb (py_eq (dict_get ledger "run_attempt") (VInt (bound_run_attempt b))))
    (watchdog_error "run ledger execution identity mismatch") ;;
  raise_if (negb (is_text (dict_get ledger "outcome") "success"))
    (watchdog_error "run ledger outcome is not success") ;;
  raise_if (negb (is_bool (dict_get ledger "reconciliation_complete") true))
    (watchdog_error "run ledger reconciliation_complete is not true") ;;
  raise_if (negb (is_bool (dict_get ledger "all_work_complete") true))
    (watchdog_error "run ledger all_work_complete is not true") ;;
  unfinished ← _non_negative (dict_get ledger "unfinished_items") "ledger.unfinished_items";
  raise_if (negb (unfinished =? 0)) (watchdog_error "run ledger unfinished_items must be zero") ;;
  raise_if (negb (is_text (dict_get ledger "terminal_receipt_sha256") (receipt_digest facts)))
    (watchdog_error "run ledger terminal receipt digest mismatch") ;;
  raise_if (negb (py_eq (dict_get ledger "artifact_manifest")
                    (strs [bound_terminal_artifact b; bound_report_artifact b])))
    (watchdog_error "run ledger artifact manifest mismatch") ;;
  completion ← _object (dict_get ledger "completion_summary") "ledger.completion_summary";
  raise_if (negb (py_eq (VDict completion) (VDict (completion_summary facts))))
    (watchdog_error "run ledger completion summary mismatch").

(** The document returned for accepted evidence. *)
Definition validation_value (e : entry) (b : binding) (facts : receipt_facts) : value :=
  VDict [("schema_version", VStr "recent_chat_reconciliation_evidence_validation.v1");
         ("status", VStr "success"); ("job_id", VStr (id e)); ("run_key", VStr (bound_run_key b));
         ("run_id", VInt (bound_run_id b)); ("run_attempt", VInt (bound_run_attempt b));
         ("prompts_scanned", VInt (prompts_scanned facts));
         ("actionable_items", VInt (actionable_items facts));
         ("dispositioned_items", VInt (dispositioned_items facts));
         ("unfinished_items", VInt 0); ("all_work_complete", VBool true);
         ("source_coverage_status", VStr "complete");
         ("terminal_receipt_sha256", VStr (receipt_digest facts));
         ("report_sha256", VStr (report_sha256 facts));
         ("manifest_sha256", VStr (manifest_sha256 facts))].

Definition validate_evidence (e : entry) (f : files) (b : binding) : result value :=
  receipt ← receipt_file f;
  facts ← check_receipt e (bound_run_key b) receipt;
  raise_if (negb (report_dir_regular f))
    (watchdog_error "report evidence is not a regular directory") ;;
  ledger ← ledger_file f (report_ledger_file e);
  markdown ← markdown_file f (report_markdown_file e);
  raise_if (is_blank markdown || negb (contains "Outcome: **SUCCESS**" markdown))
    (watchdog_error "report markdown does not record success") ;;
  check_ledger e b facts ledger ;;
  Ok (validation_value e b facts).

(** ** Outputs *)

Definition is_line_end (c : ascii) : bool := existsb (N.eqb (code c)) [10; 13]%N.

(** The lines written, [key=value], and whether all were. *)
Fixpoint _write_outputs (values : items) : list string * result unit :=
  match values with
  | [] => ([], Ok tt)
  | (key, raw) :: values =>
      let text := if is_none raw then EmptyString else py_str raw in
      if negb (OUTPUT_RE key) then
        ([], Raise (watchdog_error ("invalid output key: " +:+ key)))
      else if negb (all_chars (λ c, negb (is_line_end c)) text) then
        ([], Raise (watchdog_error ("output " +:+ key +:+ " must be single-line")))
      else
        let '(lines, written) := _write_outputs values in
        ((key +:+ "=" +:+ text) :: lines, written)
  end.

Definition report_outputs (e : entry) (r : report) : items :=
  let selected := if report_succeeded r then selected_attempt r else None in
  let of_selected (f : attempt → value) := from_option f (VStr EmptyString) selected in
  [("status", VStr (outcome r)); ("job_id", VStr (id e));
   ("expected_run_key", VStr (report_run_key r));
   ("run_id", of_selected (λ a, VInt (run_id a)));
   ("run_attempt", of_selected (λ a, VInt (run_attempt a)));
   ("terminal_artifact_name", of_selected (λ a, VStr (terminal_artifact_name a)));
   ("report_artifact_name", of_selected (λ a, VStr (report_artifact_name a)));
   ("terminal_receipt_file", VStr (terminal_receipt_file e));
   ("report_ledger_file", VStr (report_ledger_file e));
   ("report_markdown_file", VStr (report_markdown_file e))].

(** ** The commands *)

Section commands.
Context (ZoneInfo : string → result (option zone)).
(** The catalog file, and the present. *)
Context (catalog : result items) (clock : Z).

Definition catalog_entry (job_id : string) : result entry :=
  document ← catalog; entries ← load_catalog ZoneInfo document; select_entry entries job_id.

(** What a command leaves behind: the report it wrote, the output lines, and the
    status or the exception it ends with. *)
Record ending {A : Type} : Type := Ending {
  written : option A;
  output_lines : list string;
  status : result Z;
}.
Arguments ending A : clear implicits.

Definition finish {A} (prepared : result (A * items * Z)) : ending A :=
  match prepared with
  | Raise e => Ending A None [] (Raise e)
  | Ok (a, outputs, code) =>
      let '(lines, done) := _write_outputs outputs in
      Ending A (Some a) lines ((λ _, code) <$> done)
  end.

Definition locate (job_id : string) (now logical_date : option string) (source : result client)
  : ending report :=
  finish (
    e ← catalog_entry job_id;
    now ← parse_instant clock now;
    night ← logical_night ZoneInfo now e logical_date;
    c ← source;
    r ← build_report ZoneInfo c e night now;
    Ok (r, report_outputs e r, if report_succeeded r then 0 else 1)).

Definition validate_command (job_id : string) (f : files) (b : binding) : ending value :=
  finish (
    e ← catalog_entry job_id;
    validated ← validate_evidence e f b;
    Ok (validated, [("status", VStr "success")], 0)).

(** [main]: the process status, or an exception that is not caught. *)
Definition main (status : result Z) : result Z :=
  match status with
  | Raise e =>
      if bool_decide (exn_cls e ∈ [WatchdogError; OSError; JSONDecodeError]) then Ok 2 else Raise e
  | Ok code => Ok code
  end.

(** ** Fixtures *)

Definition repeated (c : ascii) (n : nat) : string := Nat.iter n (String c) EmptyString.
Definition fixture_run_key : string := "recent-chat-reconciliation:scheduled:2026-08-10".
Definition fixture_completion : value :=
  VDict [("prompts_scanned", VInt 12); ("actionable_items", VInt 3);
         ("dispositions", VDict [("complete", VInt 2); ("already_landed", VInt 1);
            ("in_review", VInt 0); ("blocked_with_owner", VInt 0); ("deferred_with_owner", VInt 0)]);
         ("unfinished_items", VInt 0); ("all_work_complete", VBool true)].
Definition unsigned_receipt : items :=
  [("schema_version", VStr "recent_chat_reconciliation_receipt.v1");
   ("status", VStr "complete"); ("work_status", VStr "complete");
   ("recorded_at", VStr "2026-08-10T05:45:00+00:00"); ("run_key", VStr fixture_run_key);
   ("scheduled_for", VStr "2026-08-10T00:30:00-05:00");
   ("observed_local_time", VStr "2026-08-10T00:34:00-05:00"); ("recovered", VBool false);
   ("job_name", VStr "Recent-96-hours ChatGPT introspection and reconciliation");
   ("job_id", VStr "job-1"); ("job_status", VStr "succeeded"); ("attempts", VInt 1);
   ("updated_at", VStr "2026-08-10T05:44:00Z");
   ("validation", VDict [("run_key", VStr fixture_run_key); ("status", VStr "complete");
      ("prompts_scanned", VInt 12); ("actionable_items", VInt 3); ("dispositioned_items", VInt 3);
      ("source_coverage_status", VStr "complete"); ("report_sha256", VStr (repeated "a" 64));
      ("manifest_sha256", VStr (repeated "b" 64))]);
   ("completion_summary", fixture_completion)].
Definition _fixture_receipt : items :=
  dict_set unsigned_receipt "receipt_sha256" (VStr (_canonical_digest unsigned_receipt)).

Definition fixture_terminal (e : entry) : string := artifact_name (terminal_artifact_prefix e) 42 1.
Definition fixture_report (e : entry) : string := artifact_name (report_artifact_prefix e) 42 1.
Definition fixture_snapshot (e : entry) : items :=
  [("workflow_runs", VList [VDict
      [("id", VInt 42); ("run_attempt", VInt 1); ("event", VStr "schedule");
       ("status", VStr "completed"); ("conclusion", VStr "success");
       ("head_branch", VStr (branch e)); ("head_sha", VStr (repeated "c" 40));
       ("run_started_at", VStr "2026-08-10T05:34:00Z"); ("created_at", VStr "2026-08-10T05:34:00Z");
       ("html_url", VStr "https://example.invalid/runs/42")]]);
   ("jobs_by_run", VDict [("42", VList [VDict
      [("name", VStr (execution_job e)); ("status", VStr "completed");
       ("conclusion", VStr "success")]])]);
   ("artifacts_by_run", VDict [("42", VList
      [VDict [("id", VInt 101); ("name", VStr (fixture_terminal e)); ("expired", VBool false);
              ("size_in_bytes", VInt 1024)];
       VDict [("id", VInt 102); ("name", VStr (fixture_report e)); ("expired", VBool false);
              ("size_in_bytes", VInt 2048)]])])].
Definition fixture_ledger (e : entry) : items :=
  [("schema_version", VStr "overnight_run_ledger.v1"); ("job_id", VStr (id e));
   ("workflow", VStr (workflow e)); ("repository", VStr "ORESoftware/ai-agent-coordinator.rs");
   ("timezone", VStr (timezone e)); ("local_time", VStr (local_time e));
   ("lookback_hours", VInt 96); ("overlap_hours", VInt 6); ("run_id", VInt 42);
   ("run_attempt", VInt 1); ("run_url", VStr "https://example.invalid/runs/42");
   ("sha", VStr (repeated "c" 40)); ("started_at", VStr "2026-08-10T05:34:00Z");
   ("completed_at", VStr "2026-08-10T05:45:00Z"); ("outcome", VStr "success");
   ("reconciliation_complete", VBool true); ("all_work_complete", VBool true);
   ("unfinished_items", VInt 0);
   ("completion_summary", dict_get _fixture_receipt "completion_summary");
   ("error_summary", VList []);
   ("terminal_receipt_sha256", dict_get _fixture_receipt "receipt_sha256");
   ("artifact_manifest", strs [fixture_terminal e; fixture_report e])].
Definition fixture_markdown : string :=
  "# Recent-96-hours ChatGPT reconciliation

- Outcome: **SUCCESS**
- All work complete: `True`
- Unfinished items: `0`
".

Record fixtures : Type := Fixtures {
  fixture_entry : entry;
  snapshot_document : items;
  receipt_document : items;
  ledger_document : items;
  markdown_document : string;
}.
Definition emit_fixtures (job_id : string) : result fixtures :=
  e ← catalog_entry job_id;
  raise_if (negb (String.eqb (terminal_receipt_schema e) "recent_chat_reconciliation_receipt.v1"))
    (watchdog_error ("no fixture receipt is modelled for job " +:+ repr_str (id e))) ;;
  Ok (Fixtures e (fixture_snapshot e) _fixture_receipt (fixture_ledger e) fixture_markdown).
End commands.

End Watchdog.
