(* ===== verification/WatchdogTheorems.v ===== *)
(** * Overnight job watchdog: theorems

    [Watchdog]: a report says success exactly when the night has settled, every
    listed run could be inspected and one of them did all it had to; evidence is
    accepted exactly when receipt, ledger and report agree about finished work;
    which night a moment belongs to; what the dispatch delay measures. *)
From S2P Require Import Prelude PyValue Sha256 Json Contract DateTime Regex RecoveryCommon.
From S2P Require Import GitObjects Collect Watchdog.
From Stdlib Require Import Ascii SpecFloat.

Module WatchdogTheorems.
Open Scope Z_scope.
Import Watchdog.

(** ** Small facts *)

Lemma is_text_true v s : is_text v s = true ↔ v = VStr s.
Proof.
  destruct v; simpl; try done. rewrite String.eqb_eq. split; [by intros ->|by intros [= ->]].
Qed.
Lemma is_bool_eq v b : is_bool v b = true ↔ v = VBool b.
Proof. destruct v; simpl; try done. rewrite eqb_true_iff. split; [by intros ->|by intros [= ->]]. Qed.

Lemma positive_Ok v field n : _positive v field = Ok n ↔ v = VInt n ∧ 0 < n.
Proof. unfold _positive. by rewrite expect_int_Ok, Z.ltb_lt. Qed.

Lemma reason_if_nil b reason : reason_if b reason = [] ↔ b = false.
Proof. by destruct b. Qed.

Lemma last_nonempty {A} (l : list A) : is_some (last l) = true ↔ l ≠ [].
Proof. split; [by intros H ->|]. intros H. destruct (last l) eqn:Hl; [done|by apply last_None in Hl]. Qed.

Lemma filter_nonempty {A} (p : A → bool) (l : list A) :
  List.filter p l ≠ [] ↔ ∃ x, x ∈ l ∧ p x = true.
Proof.
  setoid_rewrite list_elem_of_In. setoid_rewrite <- filter_In.
  destruct (List.filter p l) as [|x f]; split; try done; [by intros [? []]|].
  intros _. exists x. by left.
Qed.

Lemma Zones_found ZoneInfo name z : _zone ZoneInfo name = Ok z ↔ ZoneInfo name = Ok (Some z).
Proof.
  unfold _zone. destruct (ZoneInfo name) as [[z'|]|]; simpl; try done.
  split; [by intros [= ->]|by intros [= ->]].
Qed.

Lemma instant_add_Ok t us t' : instant_add t us = Ok t' ↔ t' = t + us ∧ representable t' = true.
Proof.
  unfold instant_add. destruct (representable (t + us)) eqn:H.
  - split; [by intros [= <-]|by intros [-> _]].
  - split; [done|]. intros [-> H']. congruence.
Qed.

(** Below 544 years the division in double precision loses no minute. *)
Lemma whole_minutes_exact us : 0 <= us < 2 ^ 34 * 1000000 → whole_minutes us = us / 60000000.
Proof.
  intros Hus. unfold whole_minutes. rewrite Z.abs_eq by lia.
  destruct (us <? 1000000) eqn:Hsmall; bool_hyps.
  - rewrite (proj2 (Z.ltb_ge us 0)) by lia. symmetry. apply Z.div_small. lia.
  - cbv zeta. pose proof (whole_seconds_exact us Hus) as H.
    unfold whole_seconds in H. rewrite (proj2 (Z.ltb_ge _ _)) in H by lia. cbv zeta in H.
    rewrite Z.sgn_pos, Z.mul_1_l by lia.
    set (k := 52 - _) in *. assert (0 < 2 ^ k).
    { apply Z.pow_pos_nonneg; [lia|]. subst k.
      assert (Z.log2 (us / 1000000) < 34); [|lia].
      apply Z.log2_lt_pow2; [euclid|]. euclid. }
    rewrite (Z.mul_comm 60), <- Z.div_div by lia. rewrite H. euclid.
Qed.

(** ** Attempts *)

(** The only element of a list with a name. *)
Definition only_named (l : list items) (name : string) (d : items) : Prop :=
  ∃ before after, l = before ++ d :: after ∧ dict_get d "name" = VStr name ∧
    ∀ x, x ∈ before ++ after → dict_get x "name" ≠ VStr name.

Lemma filter_named_nil l name :
  List.filter (λ item, is_text (dict_get item "name") name) l = [] ↔
  ∀ x, x ∈ l → dict_get x "name" ≠ VStr name.
Proof.
  rewrite empty_iff. setoid_rewrite list_elem_of_In. setoid_rewrite filter_In.
  setoid_rewrite is_text_true. naive_solver.
Qed.

Lemma filter_named l name d :
  List.filter (λ item, is_text (dict_get item "name") name) l = [d] ↔ only_named l name d.
Proof.
  unfold only_named. split.
  - induction l as [|x l IH]; [done|]. simpl.
    destruct (is_text (dict_get x "name") name) eqn:Hx.
    + intros [= -> Hl]. exists [], l. rewrite filter_named_nil in Hl.
      by rewrite is_text_true in Hx.
    + intros (before & after & -> & Hd & H)%IH. exists (x :: before), after.
      split; [done|split; [done|]]. intros y [->|Hy]%elem_of_cons; [|by apply H].
      rewrite <- is_text_true. congruence.
  - intros (before & after & -> & Hd & H). rewrite List.filter_app. simpl.
    rewrite (proj2 (is_text_true _ _) Hd).
    rewrite (proj2 (filter_named_nil before name)), (proj2 (filter_named_nil after name)); [done|..];
      intros x Hx; apply H, elem_of_app; auto.
Qed.

Lemma unique_named l name kind d : _unique_named l name kind = Ok (Some d) ↔ only_named l name d.
Proof.
  rewrite <- filter_named. unfold _unique_named.
  destruct (List.filter _ l) as [|x [|]]; split; try done; by intros [= ->].
Qed.

(** What the report asks of a job, and of an artifact. *)
Definition went_well (d : items) : Prop :=
  dict_get d "status" = VStr "completed" ∧ dict_get d "conclusion" = VStr "success".
Definition usable (artifact : items) : Prop :=
  dict_get artifact "expired" = VBool false ∧
  (dict_get artifact "size_in_bytes" = VNone ∨ ∃ n, dict_get artifact "size_in_bytes" = VInt n ∧ 0 < n).

Lemma not_successful_false d : not_successful d = false ↔ went_well d.
Proof.
  unfold not_successful, went_well. by rewrite orb_false_iff, !negb_false_iff, !is_text_true.
Qed.

Lemma artifact_reasons_nil o name label :
  artifact_reasons o name label = [] ↔ ∃ d, o = Some d ∧ usable d.
Proof.
  unfold artifact_reasons, usable. destruct o as [d|]; [|by split; [|intros (? & ? & _)]].
  rewrite app_nil, !reason_if_nil, negb_false_iff, is_bool_eq.
  assert (bad_size (dict_get d "size_in_bytes") = false ↔
    (dict_get d "size_in_bytes" = VNone ∨ ∃ n, dict_get d "size_in_bytes" = VInt n ∧ 0 < n)) as ->.
  { destruct (dict_get d "size_in_bytes"); simpl; try rewrite Z.leb_gt; naive_solver. }
  naive_solver.
Qed.

Lemma execution_reasons_nil e o :
  execution_reasons e o = [] ↔ ∃ d, o = Some d ∧ went_well d.
Proof.
  unfold execution_reasons. destruct o as [d|]; [|by split; [|intros (? & ? & _)]].
  rewrite reason_if_nil, not_successful_false. naive_solver.
Qed.

Lemma run_reasons_nil e run delay :
  run_reasons e run delay = [] ↔
  dict_get run "event" = VStr "schedule" ∧ dict_get run "head_branch" = VStr (branch e) ∧
  0 <= delay <= max_dispatch_delay_minutes e ∧ went_well run.
Proof.
  unfold run_reasons. rewrite !app_nil, !reason_if_nil, !negb_false_iff, !is_text_true.
  rewrite andb_true_iff, !Z.leb_le, not_successful_false. done.
Qed.

Section night.
Context (ZoneInfo : string → result (option zone)) (c : client) (e : entry) (night : LogicalNight).

(** A listed run that did all it had to: it started at [started], inside the
    window; it was scheduled, on the right branch, and succeeded; so did the one
    job that does the work; and both artifacts are there, once, and usable. *)
Record passes (run : items) (started : Z) : Prop := Passes {
  passes_started : run_started run = Ok started;
  passes_window : ∃ z wall, ZoneInfo (timezone e) = Ok (Some z) ∧ to_local z started = Ok wall ∧
    scheduled_at night <= wall <= latest_dispatch_at night;
  passes_event : dict_get run "event" = VStr "schedule";
  passes_branch : dict_get run "head_branch" = VStr (branch e);
  passes_run : went_well run;
  passes_evidence : ∃ n m jobs artifacts,
    dict_get run "id" = VInt n ∧ 0 < n ∧
    dict_get_or run "run_attempt" (VInt 1) = VInt m ∧ 0 < m ∧
    list_jobs c n = Ok jobs ∧ list_artifacts c n = Ok artifacts ∧
    (∃ job, only_named jobs (execution_job e) job ∧ went_well job) ∧
    (∃ d, only_named artifacts (artifact_name (terminal_artifact_prefix e) n m) d ∧ usable d) ∧
    (∃ d, only_named artifacts (artifact_name (report_artifact_prefix e) n m) d ∧ usable d);
}.

(** The window of a night is that of its entry. *)
Definition governed : Prop :=
  latest_dispatch_at night = scheduled_at night + minutes (max_dispatch_delay_minutes e) ∧
  1 <= max_dispatch_delay_minutes e <= 720.

Lemma delay_in_window wall :
  governed → scheduled_at night <= wall <= latest_dispatch_at night →
  0 <= whole_minutes (wall - scheduled_at night) <= max_dispatch_delay_minutes e.
Proof using.
  unfold governed, minutes. intros [Hlatest Hmax] Hwall.
  rewrite whole_minutes_exact by lia. euclid.
Qed.

(** A run is inspected with success exactly when it passes. *)
Lemma inspect_passes run started :
  governed →
  passes run started ↔ ∃ a, inspect_run ZoneInfo c e night run = Ok (Some (started, a)) ∧ succeeded a = true.
Proof using.
  intros Hgov. unfold inspect_run, evaluate_attempt, succeeded. split.
  - intros [Hs (z & wall & Hz & Hwall & Hwin) Hevent Hbranch Hrun
      (n & m & jobs & artifacts & Hn & Hn0 & Hm & Hm0 & Hj & Ha & (j & Hjob & Hjok) & (t & Ht & Htok) & r & Hr & Hrok)].
    rewrite Hs, ok_bind, (proj2 (Zones_found _ _ _) Hz), ok_bind, Hwall, ok_bind.
    rewrite (proj2 (andb_true_iff _ _)) by (rewrite !Z.leb_le; lia).
    rewrite (proj2 (positive_Ok (dict_get run "id") "run.id" n)) by done.
    rewrite ok_bind, Hj, ok_bind, Ha, ok_bind, ok_bind.
    rewrite (proj2 (positive_Ok _ "run.run_attempt" m)) by done. rewrite !ok_bind, Hwall, ok_bind.
    rewrite (proj2 (unique_named _ _ "job" _) Hjob), ok_bind.
    rewrite (proj2 (unique_named _ _ "artifact" _) Ht), ok_bind.
    rewrite (proj2 (unique_named _ _ "artifact" _) Hr), !ok_bind.
    eexists. split; [done|]. cbn [attempt_reasons]. apply bool_decide_eq_true.
    rewrite !app_nil, run_reasons_nil, execution_reasons_nil, !artifact_reasons_nil.
    pose proof (delay_in_window wall Hgov Hwin). split; [done|]. eauto 10.
  - intros (a & (started' & Hs & (z & Hz%Zones_found & (wall & Hwall & H)%bind_Ok)%bind_Ok)%bind_Ok & Hok).
    destruct (_ && _) eqn:Hwin; [|done]. bool_hyps. rewrite Hs in H. rewrite (proj2 (Zones_found _ _ _) Hz) in H. inv_result. cbn [attempt_reasons] in Hok. bool_hyps.
    rewrite !app_nil, run_reasons_nil, execution_reasons_nil, !artifact_reasons_nil in Hok.
    repeat match goal with H : _positive _ _ = Ok _ |- _ => apply positive_Ok in H as [? ?] end.
    match goal with H : ?x = VInt ?a, H' : ?x = VInt ?b |- _ => assert (b = a) as -> by congruence end.
    destruct Hok as ((? & ? & _ & ?) & (j & -> & ?) & (t & -> & ?) & r & -> & ?).
    repeat match goal with H : _unique_named _ _ _ = Ok _ |- _ => apply unique_named in H end.
    split; try done.
    + eexists _, wall. eauto.
    + do 4 eexists. repeat split; eauto.
Qed.

(** ** The report *)

Lemma inspect_loop runs l n :
  for_each runs (inspect_next ZoneInfo c e night) ([], 0%nat) = Ok (l, n) →
  (∀ x, x ∈ l ↔ ∃ run, run ∈ runs ∧ inspect_run ZoneInfo c e night run = Ok (Some x)) ∧
  (n = 0%nat ↔ ∀ run, run ∈ runs → ∃ o, inspect_run ZoneInfo c e night run = Ok o).
Proof using.
  intros H.
  apply (for_each_prefix (λ done acc,
    (∀ x, x ∈ acc.1 ↔ ∃ run, run ∈ done ∧ inspect_run ZoneInfo c e night run = Ok (Some x)) ∧
    (acc.2 = 0%nat ↔ ∀ run, run ∈ done → ∃ o, inspect_run ZoneInfo c e night run = Ok o)) _ _ [])
    in H; [done| |].
  - clear. intros done run acc acc' [IHl IHn] H. unfold inspect_next in H.
    setoid_rewrite elem_of_app. setoid_rewrite list_elem_of_singleton.
    destruct (inspect_run ZoneInfo c e night run) as [[a|]|err] eqn:Hrun.
    + injection H as <-. simpl. setoid_rewrite elem_of_app. setoid_rewrite list_elem_of_singleton.
      split; [|rewrite IHn; split; [intros H r [?| ->]|intros H r ?]; eauto].
      intros x. rewrite IHl. split; [intros [(r & ? & ?)| ->]; eauto|].
      intros (r & [?| ->] & ?); [eauto|]. right. congruence.
    + injection H as <-. split; [|rewrite IHn; split; [intros H r [?| ->]|intros H r ?]; eauto].
      intros x. rewrite IHl. split; [intros (r & ? & ?); eauto|].
      intros (r & [?| ->] & ?); [eauto|congruence].
    + case_bool_decide; [|done]. injection H as <-. simpl. split.
      * intros x. rewrite IHl. split; [intros (r & ? & ?); eauto|].
        intros (r & [?| ->] & ?); [eauto|congruence].
      * split; [done|]. intros Hall. destruct (Hall run) as [o Ho]; [by right|]. congruence.
  - split; simpl; [|split; [by intros _ ? ?%not_elem_of_nil|done]]. intros x. split.
    + by intros ?%not_elem_of_nil.
    + by intros (? & ?%not_elem_of_nil & _).
Qed.

(** What a report is made of. *)
Lemma build_report_Ok now r :
  build_report ZoneInfo c e night now = Ok r →
  ∃ runs l n z local_now, list_runs c (workflow e) = Ok runs ∧
    for_each (take 30 runs) (inspect_next ZoneInfo c e night) ([], 0%nat) = Ok (l, n) ∧
    ZoneInfo (timezone e) = Ok (Some z) ∧ to_local z now = Ok local_now ∧
    attempts r = map snd (stable_sort started_leb l) ∧
    selected_attempt r = last (List.filter succeeded (attempts r)) ∧
    (reasons r = [] ↔ settlement_at night <= local_now ∧ n = 0%nat ∧
       List.filter succeeded (attempts r) ≠ []).
Proof using.
  unfold build_report. intros (runs & Hruns & H)%bind_Ok.
  apply bind_Ok in H as ([l n] & Hl & (z & Hz%Zones_found & (local_now & Hnow & [= <-])%bind_Ok)%bind_Ok).
  exists runs, l, n, z, local_now. cbn [attempts selected_attempt reasons].
  do 6 (split; [done|]).
  rewrite !app_nil, !reason_if_nil, Z.ltb_ge.
  assert ((0 <? Z.of_nat n) = false ↔ n = 0%nat) as -> by (rewrite Z.ltb_ge; lia).
  set (ordered := map snd _). case_bool_decide as Ho.
  - rewrite Ho. naive_solver.
  - rewrite reason_if_nil, bool_decide_eq_false. naive_solver.
Qed.

Lemma report_attempt_passes now r :
  governed → build_report ZoneInfo c e night now = Ok r →
  List.filter succeeded (attempts r) ≠ [] ↔
  ∃ runs run started, list_runs c (workflow e) = Ok runs ∧ run ∈ take 30 runs ∧ passes run started.
Proof using.
  intros Hgov (runs & l & n & z & local_now & Hruns & [Hl _]%inspect_loop & _ & _ & Hr & _)%build_report_Ok.
  assert (List.filter succeeded (attempts r) ≠ [] ↔ ∃ started a, (started, a) ∈ l ∧ succeeded a = true) as ->.
  { rewrite filter_nonempty, Hr. setoid_rewrite list_elem_of_fmap. setoid_rewrite stable_sort_elem.
    split; [intros (a & ([s a'] & -> & Hin) & Ha); eauto|].
    intros (s & a & Hin & Ha). exists a. split; [by exists (s, a)|done]. }
  split.
  - intros (started & a & (run & Hin & Hrun)%Hl & Ha). exists runs, run, started.
    split; [done|split; [done|]]. apply inspect_passes; eauto.
  - intros (runs' & run & started & ? & Hin & (a & Hrun & Ha)%inspect_passes); [|done].
    exists started, a. split; [|done]. apply Hl. exists run. split; [congruence|done].
Qed.
End night.

(** The last success of a list in order of start is the latest one. *)
Lemma last_success_latest (l : list (Z * attempt)) a :
  Sorted.StronglySorted (in_order started_leb) l →
  last (List.filter succeeded (map snd l)) = Some a →
  ∃ started, (started, a) ∈ l ∧ succeeded a = true ∧
    ∀ started' a', (started', a') ∈ l → succeeded a' = true → started' <= started.
Proof.
  induction 1 as [|[s x] l Hsorted IH Hhd]; [done|]. simpl.
  assert (last (List.filter succeeded (map snd l)) = Some a →
    ∃ started, (started, a) ∈ (s, x) :: l ∧ succeeded a = true ∧
      ∀ started' a', (started', a') ∈ (s, x) :: l → succeeded a' = true → started' <= started) as Hrest.
  { intros (t & Hin & Ha & Hmax)%IH. exists t. split; [by right|split; [done|]].
    intros s' a' [[= -> ->]|Hin']%elem_of_cons Ha'; [|eauto].
    rewrite List.Forall_forall in Hhd. apply Z.leb_le, (Hhd (t, a)), list_elem_of_In. done. }
  destruct (succeeded x) eqn:Hx; [|done]. rewrite last_cons.
  destruct (last _) eqn:Hlast; [done|]. intros [= ->].
  exists s. split; [by left|split; [done|]].
  intros s' a' [[= -> ->]|Hin]%elem_of_cons Ha'; [lia|]. exfalso.
  apply last_None in Hlast. apply (proj2 (filter_nonempty succeeded (map snd l))); [|done].
  exists a'. split; [|done]. apply list_elem_of_fmap. by exists (s', a').
Qed.

#[local] Instance started_trans : Transitive (in_order started_leb).
Proof. intros x y z. unfold in_order, started_leb. rewrite !Z.leb_le. lia. Qed.

Lemma sorted_starts l : Sorted.StronglySorted (in_order started_leb) (stable_sort started_leb l).
Proof.
  apply Sorted.Sorted_StronglySorted; [exact started_trans|].
  apply stable_sort_Sorted. intros x y. apply Z_leb_total.
Qed.

(** ** Catalogs and nights *)

(** What the catalog guarantees of an entry. *)
Definition well_formed (e : entry) : Prop :=
  1 <= max_dispatch_delay_minutes e <= 720 ∧
  max_dispatch_delay_minutes e <= settlement_minutes e <= 1440 ∧
  ∃ hour minute, _parse_local_time (local_time e) = Ok (hour, minute).

Section nights.
Context (ZoneInfo : string → result (option zone)).

Lemma load_entry_Ok raw validated validated' :
  load_entry ZoneInfo raw validated = Ok validated' →
  ∃ e, validated' = validated ++ [e] ∧ id e ∉ map id validated ∧ well_formed e.
Proof.
  unfold load_entry, bounded_minutes. intros H. inv_checks. eexists. split; [done|]. cbn [id].
  split; [by rewrite <- mem_str_In; congruence|].
  bool_hyps. unfold well_formed. cbn [max_dispatch_delay_minutes settlement_minutes local_time].
  split; [lia|split; [lia|]].
  match goal with H : _parse_local_time _ = Ok ?p |- _ => destruct p; eauto end.
Qed.

Lemma load_catalog_Ok document entries :
  load_catalog ZoneInfo document = Ok entries →
  NoDup (map id entries) ∧ ∀ e, e ∈ entries → well_formed e.
Proof.
  unfold load_catalog. intros H. inv_result.
  match goal with H : for_each _ _ _ = Ok _ |- _ => revert H end.
  apply (for_each_inv (λ es, NoDup (map id es) ∧ ∀ e, e ∈ es → well_formed e)).
  - intros raw es es' _ [Hnd Hwf] (e & -> & Hnew & He)%load_entry_Ok. split.
    + rewrite map_app. apply NoDup_app. split; [done|]. split; [|apply NoDup_singleton].
      by intros i Hi ->%list_elem_of_singleton.
    + intros x [Hx| ->%list_elem_of_singleton]%elem_of_app; auto.
  - split; [constructor|]. by intros e ?%not_elem_of_nil.
Qed.

Lemma logical_night_Ok now e date night :
  logical_night ZoneInfo now e date = Ok night →
  ∃ z local_now hour minute, ZoneInfo (timezone e) = Ok (Some z) ∧ to_local z now = Ok local_now ∧
    _parse_local_time (local_time e) = Ok (hour, minute) ∧
    chosen_date local_now hour minute e date = Ok (logical_date night) ∧
    scheduled_at night = at_time (logical_date night) hour minute ∧
    latest_dispatch_at night = scheduled_at night + minutes (max_dispatch_delay_minutes e) ∧
    settlement_at night = scheduled_at night + minutes (settlement_minutes e) ∧
    expected_run_key night = run_key_prefix e +:+ ":scheduled:" +:+ date_isoformat (logical_date night).
Proof.
  unfold logical_night.
  intros (z & Hz%Zones_found & (local_now & Hnow & H)%bind_Ok)%bind_Ok.
  apply bind_Ok in H as ([hour minute] & Htime & (day & Hday & H)%bind_Ok).
  apply bind_Ok in H as (latest & [-> _]%instant_add_Ok & (settlement & [-> _]%instant_add_Ok & [= <-])%bind_Ok).
  by exists z, local_now, hour, minute.
Qed.

Lemma night_governed now e date night :
  well_formed e → logical_night ZoneInfo now e date = Ok night → governed e night.
Proof. intros [? _] (? & ? & ? & ? & _ & _ & _ & _ & _ & ? & _)%logical_night_Ok. done. Qed.
End nights.

(** C6: A report of a loaded catalog's entry says success exactly when the
    night's settlement has passed, every one of the thirty runs looked at could
    be inspected, and one of them passes: it started inside the window, was
    scheduled, ran on the right branch and succeeded, so did the job that does
    the work, and both artifacts are there, once, and usable.  The selected
    attempt is that of the latest such run. *)
Theorem watchdog_success_is_earned (ZoneInfo : string → result (option zone)) (c : client)
    (document : items) (entries : list entry) (e : entry) (now : Z) (date : option string)
    (night : LogicalNight) (r : report) :
  load_catalog ZoneInfo document = Ok entries → e ∈ entries →
  logical_night ZoneInfo now e date = Ok night →
  build_report ZoneInfo c e night now = Ok r →
  ∃ runs z local_now, list_runs c (workflow e) = Ok runs ∧
    ZoneInfo (timezone e) = Ok (Some z) ∧ to_local z now = Ok local_now ∧
    (report_succeeded r = true ↔
       settlement_at night <= local_now ∧
       (∀ run, run ∈ take 30 runs → ∃ o, inspect_run ZoneInfo c e night run = Ok o) ∧
       ∃ run started, run ∈ take 30 runs ∧ passes ZoneInfo c e night run started) ∧
    (∀ a, selected_attempt r = Some a →
       ∃ run started, run ∈ take 30 runs ∧ passes ZoneInfo c e night run started ∧
         inspect_run ZoneInfo c e night run = Ok (Some (started, a)) ∧
         ∀ run' started', run' ∈ take 30 runs → passes ZoneInfo c e night run' started' →
           started' <= started).
Proof.
  intros [_ Hwf]%load_catalog_Ok He Hn Hr.
  pose proof (night_governed _ _ _ _ _ (Hwf _ He) Hn) as Hgov.
  pose proof (report_attempt_passes _ _ _ _ _ _ Hgov Hr) as Hpass.
  apply build_report_Ok in Hr as (runs & l & n & z & local_now & Hruns & Hl & Hz & Hnow & Ha & Hsel & Hrs).
  pose proof (inspect_loop _ _ _ _ _ _ _ Hl) as [Hmem Hcount].
  exists runs, z, local_now. do 3 (split; [done|]). split.
  - unfold report_succeeded.
    rewrite andb_true_iff, bool_decide_eq_true, Hsel, last_nonempty, Hrs, <- Hcount, Hpass.
    split.
    + intros [_ (Hs & Hn0 & runs' & run & started & Hruns' & Hin & Hp)].
      assert (runs' = runs) as -> by congruence. eauto 6.
    + intros (Hs & Hn0 & run & started & Hin & Hp). split; eauto 10.
  - intros a Hlast. rewrite Hsel, Ha in Hlast.
    apply last_success_latest in Hlast as (started & Hin & Hok & Hmax); [|apply sorted_starts].
    rewrite stable_sort_elem in Hin. apply Hmem in Hin as (run & Hin & Hrun).
    exists run, started. split; [done|]. split; [apply inspect_passes; eauto|]. split; [done|].
    intros run' s' Hin' (a' & Hrun' & Ha')%inspect_passes; [|done].
    apply (Hmax s' a'); [|done]. rewrite stable_sort_elem. apply Hmem. eauto.
Qed.

(** ** Evidence *)

Lemma non_negative_Ok v field n : _non_negative v field = Ok n ↔ v = VInt n ∧ 0 <= n.
Proof. unfold _non_negative. by rewrite expect_int_Ok, Z.leb_le. Qed.
Lemma digest_Ok v field s : _digest v field = Ok s ↔ v = VStr s ∧ SHA256_RE s = true.
Proof. unfold _digest. by rewrite expect_str_Ok. Qed.
Lemma object_Ok v field d : _object v field = Ok d ↔ v = VDict d.
Proof. unfold _object, expect_dict. destruct v; split; congruence. Qed.

(** A bounded text of one line that is not blank. *)
Definition bounded_text (s : string) (maximum : Z) : Prop :=
  is_blank s = false ∧ slen s <= maximum ∧ no_control s = true.
Lemma text_Ok v field maximum s :
  Watchdog._text v field maximum = Ok s ↔ v = VStr s ∧ bounded_text s maximum.
Proof.
  unfold Watchdog._text, bounded_text. rewrite bind_Ok. setoid_rewrite expect_str_Ok.
  setoid_rewrite andb_true_iff. setoid_rewrite Z.leb_le. setoid_rewrite negb_true_iff.
  setoid_rewrite bind_Ok. setoid_rewrite raise_if_Ok. setoid_rewrite negb_false_iff. split.
  - intros (t & [-> [? ?]] & u & ? & [= <-]). done.
  - intros [-> (? & ? & ?)]. exists s. split; [done|]. by exists tt.
Qed.

(** Turns the checks of a computation that succeeded into facts. *)
Ltac checked_facts :=
  repeat match goal with
  | H : _ ≫= _ = Ok _ |- _ =>
      let a := fresh "a" in let Ha := fresh "Hok" in apply bind_Ok in H as (a & Ha & H)
  | H : raise_if _ _ = Ok _ |- _ => apply raise_if_Ok in H
  | H : _ || _ = false |- _ => apply orb_false_iff in H as [? ?]
  | H : negb _ = false |- _ => apply negb_false_iff in H
  | H : is_text _ _ = true |- _ => apply is_text_true in H
  | H : is_bool _ _ = true |- _ => apply is_bool_eq in H
  | H : (_ =? _) = true |- _ => apply Z.eqb_eq in H
  | H : String.eqb _ _ = true |- _ => apply String.eqb_eq in H
  | H : _positive _ _ = Ok _ |- _ => apply positive_Ok in H as [? ?]
  | H : _non_negative _ _ = Ok _ |- _ => apply non_negative_Ok in H as [? ?]
  | H : _digest _ _ = Ok _ |- _ => apply digest_Ok in H as [? ?]
  | H : _object _ _ = Ok _ |- _ => apply object_Ok in H
  | H : Watchdog._text _ _ _ = Ok _ |- _ => apply text_Ok in H as [? ?]
  | H : Ok _ = Ok _ |- _ => injection H as H
  end.
(** Runs the checks of a computation whose facts are among the hypotheses. *)
Ltac check_holds :=
  repeat match goal with
  | |- _ || _ = false => apply orb_false_iff; split
  | |- negb _ = false => apply negb_false_iff
  | |- is_text _ _ = true => apply is_text_true
  | |- is_bool _ _ = true => apply is_bool_eq
  | |- (_ =? _) = true => apply Z.eqb_eq
  | |- String.eqb _ _ = true => apply String.eqb_eq
  end; eauto.
Ltac pass_check :=
  first
    [ rewrite ok_bind
    | erewrite (proj2 (positive_Ok _ _ _)) by eauto
    | erewrite (proj2 (non_negative_Ok _ _ _)) by eauto
    | erewrite (proj2 (digest_Ok _ _ _)) by eauto
    | erewrite (proj2 (object_Ok _ _ _)) by eauto
    | erewrite (proj2 (text_Ok _ _ _ _)) by eauto
    | rewrite raise_if_false by check_holds ].

(** ** Evidence: what it must say *)

(** The receipt carries the digest of the rest of it. *)
Definition sealed (receipt : items) (digest : string) : Prop :=
  dict_get receipt "receipt_sha256" = VStr digest ∧ SHA256_RE digest = true ∧
  _canonical_digest (List.filter (λ kv, negb (String.eqb kv.1 "receipt_sha256")) receipt) = digest.

(** A count in a document: a non-negative integer. *)
Definition counts (v : value) (n : Z) : Prop := v = VInt n ∧ 0 <= n.

(** All work is finished: nothing is left, and the items finished or already
    landed are the actionable ones; the categories of unfinished items are
    empty. *)
Definition all_finished (completion : items) (prompts actionable : Z) : Prop :=
  dict_get completion "all_work_complete" = VBool true ∧
  dict_get completion "unfinished_items" = VInt 0 ∧
  dict_get completion "prompts_scanned" = VInt prompts ∧
  dict_get completion "actionable_items" = VInt actionable ∧
  ∃ dispositions complete landed, dict_get completion "dispositions" = VDict dispositions ∧
    counts (dict_get_or dispositions "complete" (VInt 0)) complete ∧
    counts (dict_get_or dispositions "already_landed" (VInt 0)) landed ∧
    complete + landed = actionable ∧
    ∀ name, name ∈ ["in_review"; "blocked_with_owner"; "deferred_with_owner"] →
      dict_get_or dispositions name (VInt 0) = VInt 0.

Lemma check_digest_Ok receipt digest : check_digest receipt = Ok digest ↔ sealed receipt digest.
Proof.
  unfold check_digest, sealed. split.
  - intros H. checked_facts. by subst.
  - intros (? & ? & ?). repeat pass_check. done.
Qed.

Lemma check_completion_Ok completion prompts actionable u :
  0 <= prompts → 0 <= actionable →
  check_completion completion prompts actionable = Ok u ↔ all_finished completion prompts actionable.
Proof.
  intros Hp Ha. unfold check_completion, check_dispositions, all_finished, counts. split.
  - intros H. checked_facts. subst.
    match goal with H : for_each _ _ _ = Ok ?u |- _ => destruct u; rewrite for_each_unit_Ok in H; rename H into Hzero end.
    do 4 (split; [done|]). do 3 eexists. split; [done|]. split; [done|split; [done|split; [done|]]].
    intros name Hname%Hzero. checked_facts. by subst.
  - intros (? & ? & ? & ? & dispositions & complete & landed & ? & [? ?] & [? ?] & ? & Hzero).
    assert (0 <= 0) by lia.
    repeat pass_check. destruct u.
    rewrite (proj2 (for_each_unit_Ok _ _ tt)); [by repeat pass_check|].
    intros name Hname%Hzero. by repeat pass_check.
Qed.

(** What the receipt of a run must say, and what is taken from it. *)
Record receipt_says (e : entry) (run_key : string) (receipt : items) (facts : receipt_facts) : Prop := {
  receipt_sealed : sealed receipt (receipt_digest facts);
  receipt_identity :
    dict_get receipt "schema_version" = VStr (terminal_receipt_schema e) ∧
    dict_get receipt "run_key" = VStr run_key ∧
    (∃ job_id, dict_get receipt "job_id" = VStr job_id ∧ bounded_text job_id 200) ∧
    ∃ n, dict_get receipt "attempts" = VInt n ∧ 0 < n;
  receipt_complete :
    dict_get receipt "status" = VStr "complete" ∧ dict_get receipt "work_status" = VStr "complete" ∧
    dict_get receipt "job_status" = VStr "succeeded";
  receipt_validation : ∃ validation, dict_get receipt "validation" = VDict validation ∧
    dict_get validation "run_key" = VStr run_key ∧
    dict_get validation "status" = VStr "complete" ∧
    dict_get validation "source_coverage_status" = VStr "complete" ∧
    counts (dict_get validation "prompts_scanned") (prompts_scanned facts) ∧
    counts (dict_get validation "actionable_items") (actionable_items facts) ∧
    counts (dict_get validation "dispositioned_items") (dispositioned_items facts) ∧
    dict_get validation "report_sha256" = VStr (report_sha256 facts) ∧
    dict_get validation "manifest_sha256" = VStr (manifest_sha256 facts) ∧
    SHA256_RE (report_sha256 facts) = true ∧ SHA256_RE (manifest_sha256 facts) = true;
  receipt_counts : actionable_items facts = dispositioned_items facts;
  receipt_finished : dict_get receipt "completion_summary" = VDict (completion_summary facts) ∧
    all_finished (completion_summary facts) (prompts_scanned facts) (actionable_items facts);
}.

(** What the ledger of the run must say: it is the ledger of this attempt and of
    this receipt, and agrees that all work is finished. *)
Definition ledger_says (e : entry) (b : binding) (facts : receipt_facts) (ledger : items) : Prop :=
  dict_get ledger "schema_version" = VStr "overnight_run_ledger.v1" ∧
  dict_get ledger "job_id" = VStr (id e) ∧ dict_get ledger "workflow" = VStr (workflow e) ∧
  py_eq (dict_get ledger "run_id") (VInt (bound_run_id b)) = true ∧
  py_eq (dict_get ledger "run_attempt") (VInt (bound_run_attempt b)) = true ∧
  dict_get ledger "outcome" = VStr "success" ∧
  dict_get ledger "reconciliation_complete" = VBool true ∧
  dict_get ledger "all_work_complete" = VBool true ∧ dict_get ledger "unfinished_items" = VInt 0 ∧
  dict_get ledger "terminal_receipt_sha256" = VStr (receipt_digest facts) ∧
  dict_get ledger "artifact_manifest" = strs [bound_terminal_artifact b; bound_report_artifact b] ∧
  ∃ completion, dict_get ledger "completion_summary" = VDict completion ∧
    py_eq (VDict completion) (VDict (completion_summary facts)) = true.

Lemma check_receipt_Ok e run_key receipt facts :
  check_receipt e run_key receipt = Ok facts ↔ receipt_says e run_key receipt facts.
Proof.
  unfold check_receipt. split.
  - intros H. checked_facts. subst.
    repeat match goal with
    | H : check_digest _ = Ok _ |- _ => apply check_digest_Ok in H
    | H : check_completion _ _ _ = Ok _ |- _ => apply check_completion_Ok in H; [|done..]
    end.
    split; cbn [receipt_digest prompts_scanned actionable_items dispositioned_items report_sha256
      manifest_sha256 completion_summary]; unfold counts; eauto 20.
  - intros [Hsealed (? & ? & (? & ? & ?) & ? & ? & ?) (? & ? & ?)
      (v & ? & ? & ? & ? & [? ?] & [? ?] & [? ?] & ? & ? & ? & ?) Hcounts [? Hfinished]].
    rewrite (proj2 (check_digest_Ok _ _) Hsealed). repeat pass_check.
    apply (check_completion_Ok _ _ _ tt) in Hfinished; [|done..]. rewrite Hfinished, ok_bind.
    by destruct facts.
Qed.

Lemma strs_eq v a b : py_eq v (strs [a; b]) = true ↔ v = strs [a; b].
Proof.
  split; [|intros ->; simpl; by rewrite !String.eqb_refl].
  destruct v as [| | | | |[|x [|y [|z l]]]|]; simpl; try done.
  - by rewrite andb_false_r.
  - destruct x, y; simpl; rewrite ?andb_false_r; try done.
    rewrite !andb_true_iff, !String.eqb_eq. by intros (-> & -> & _).
  - by rewrite !andb_false_r.
Qed.

Lemma check_ledger_Ok e b facts ledger :
  check_ledger e b facts ledger = Ok tt ↔ ledger_says e b facts ledger.
Proof.
  unfold check_ledger, ledger_says. split.
  - intros H. checked_facts. subst. rewrite strs_eq in *. eauto 20.
  - rewrite <- strs_eq.
    intros (? & ? & ? & ? & ? & ? & ? & ? & ? & ? & ? & completion & ? & ?). assert (0 <= 0) by lia.
    repeat pass_check. done.
Qed.

(** C8: Evidence is accepted exactly when it shows finished work of this very
    attempt: the receipt carries the digest of its own content, names the run
    key twice, reports complete coverage and complete work, and its counts agree;
    the ledger names the same job, run, attempt, artifacts and receipt digest and
    repeats the receipt's completion summary; and the report records success.
    The accepted values are those of the receipt. *)
Theorem evidence_is_bound (e : entry) (f : files) (b : binding) (v : value) :
  validate_evidence e f b = Ok v ↔
  ∃ receipt ledger markdown facts,
    receipt_file f = Ok receipt ∧ report_dir_regular f = true ∧
    ledger_file f (report_ledger_file e) = Ok ledger ∧
    markdown_file f (report_markdown_file e) = Ok markdown ∧
    receipt_says e (bound_run_key b) receipt facts ∧
    ledger_says e b facts ledger ∧
    is_blank markdown = false ∧ contains "Outcome: **SUCCESS**" markdown = true ∧
    v = validation_value e b facts.
Proof.
  unfold validate_evidence. split.
  - intros (receipt & Hr & (facts & Hfacts%check_receipt_Ok & H)%bind_Ok)%bind_Ok.
    apply bind_Ok in H as (u & Hdir & (ledger & Hl & (markdown & Hm & H)%bind_Ok)%bind_Ok).
    apply bind_Ok in H as (u' & Htext & ([] & Hledger%check_ledger_Ok & [= <-])%bind_Ok).
    checked_facts. exists receipt, ledger, markdown, facts. eauto 20.
  - intros (receipt & ledger & markdown & facts & Hr & Hdir & Hl & Hm & Hfacts & Hledger & ? & ? & ->).
    apply check_receipt_Ok in Hfacts. apply check_ledger_Ok in Hledger.
    rewrite Hr, ok_bind, Hfacts, ok_bind. pass_check. rewrite ok_bind, Hl, ok_bind, Hm, ok_bind.
    pass_check. by rewrite ok_bind, Hledger, ok_bind.
Qed.

(** The files [emit_fixtures] wrote: a report directory with the ledger, then
    the report, which takes the place of a ledger of the same name. *)
Definition emitted_files (x : fixtures) : files :=
  let unreadable := watchdog_error "not a regular file of JSON" in
  let e := fixture_entry x in
  Files (Ok (receipt_document x)) true
    (λ name, if String.eqb name (report_ledger_file e) && negb (String.eqb name (report_markdown_file e))
             then Ok (ledger_document x) else Raise unreadable)
    (λ name, if String.eqb name (report_markdown_file e)
             then Ok (markdown_document x) else Raise unreadable).
Definition emitted_binding (x : fixtures) : binding :=
  Binding fixture_run_key 42 1 (fixture_terminal (fixture_entry x)) (fixture_report (fixture_entry x)).

Lemma fixture_receipt_says e :
  terminal_receipt_schema e = "recent_chat_reconciliation_receipt.v1" →
  ∃ facts, check_receipt e fixture_run_key _fixture_receipt = Ok facts ∧
    receipt_digest facts = _canonical_digest unsigned_receipt ∧
    VDict (completion_summary facts) = fixture_completion.
Proof.
  intros He. unfold check_receipt. rewrite He.
  eexists. split; [|split]; [vm_compute; reflexivity|vm_compute; reflexivity|reflexivity].
Qed.

(** What [emit_fixtures] writes for a job passes the validation of
    evidence, provided the ledger and the report have different names. *)
Theorem fixtures_validate (ZoneInfo : string → result (option zone)) (catalog : result items)
    (job_id : string) (x : fixtures) :
  emit_fixtures ZoneInfo catalog job_id = Ok x →
  report_ledger_file (fixture_entry x) ≠ report_markdown_file (fixture_entry x) →
  is_ok (validate_evidence (fixture_entry x) (emitted_files x) (emitted_binding x)) = true.
Proof.
  unfold emit_fixtures. intros (e & _ & H)%bind_Ok. apply bind_Ok in H as (u & Hschema & [= <-]).
  checked_facts. intros Hnames%String.eqb_neq. unfold validate_evidence, emitted_files, emitted_binding.
  cbn [receipt_file report_dir_regular ledger_file markdown_file bound_run_key fixture_entry
    receipt_document ledger_document markdown_document] in *. rewrite ok_bind, Hnames.
  destruct (fixture_receipt_says e) as (facts & -> & Hdigest & Hcompletion); [done|].
  rewrite !String.eqb_refl, !ok_bind, raise_if_false by reflexivity. cbn [andb negb].
  rewrite !ok_bind, raise_if_false by reflexivity. rewrite ok_bind, (proj2 (check_ledger_Ok _ _ _ _)); [done|].
  unfold ledger_says. rewrite Hdigest.
  do 11 (split; [done || reflexivity|]). eexists. split; [reflexivity|]. rewrite Hcompletion.
  vm_compute. reflexivity.
Qed.

(** ** Which night, and how late *)

Lemma digit_range c : is_digit c = true → 0 <= digit_val c <= 9.
Proof. rewrite is_digit_code. unfold digit_val. lia. Qed.
Lemma low_range c hi : in_range "0" hi c = true → 0 <= digit_val c <= digit_val hi.
Proof.
  unfold in_range, digit_val. rewrite andb_true_iff, !N.leb_le. change (code "0") with 48%N. lia.
Qed.

Lemma hour_range s hour rest : hour_of s = Some (hour, rest) → 0 <= hour < 24.
Proof.
  unfold hour_of. destruct s as [|a [|b s]]; [done| |].
  - destruct (is_digit a) eqn:Ha; [|done]. intros [= <- _]. apply digit_range in Ha. lia.
  - destruct (_ || _) eqn:Hab.
    + intros [= <- _]. apply orb_true_iff in Hab as [H|H]; apply andb_true_iff in H as [Ha Hb].
      * apply Ascii.eqb_eq in Ha as ->. apply low_range in Hb.
        change (digit_val "2") with 2. change (digit_val "3") with 3 in Hb. lia.
      * apply low_range in Ha. apply digit_range in Hb. change (digit_val "1") with 1 in Ha. lia.
    + destruct (is_digit a) eqn:Ha; [|done]. intros [= <- _]. apply digit_range in Ha. lia.
Qed.

Lemma minute_range s minute rest : minute_of s = Some (minute, rest) → 0 <= minute < 60.
Proof.
  unfold minute_of. destruct s as [|a [|b s]]; [done| |].
  - destruct (is_digit a) eqn:Ha; [|done]. intros [= <- _]. apply digit_range in Ha. lia.
  - destruct (_ && _) eqn:Hab.
    + intros [= <- _]. apply andb_true_iff in Hab as [Ha%low_range Hb%digit_range].
      change (digit_val "5") with 5 in Ha. lia.
    + destruct (is_digit a) eqn:Ha; [|done]. intros [= <- _]. apply digit_range in Ha. lia.
Qed.

Lemma local_time_range s hour minute :
  _parse_local_time s = Ok (hour, minute) → 0 <= hour < 24 ∧ 0 <= minute < 60.
Proof.
  unfold _parse_local_time. destruct (hour_of s) as [[h rest]|] eqn:Hh; [|done].
  repeat (case_match; try done). intros [= <- <-].
  split; [by eapply hour_range|by eapply minute_range].
Qed.

Lemma check_ord_Some n m : check_ord n = Some m → m = n.
Proof. unfold check_ord. case_match; congruence. Qed.

Lemma date_of_bounds wall : (date_of wall - 1) * day_us <= wall < date_of wall * day_us.
Proof. unfold date_of, day_us. euclid. Qed.

(** Without an explicit date the watchdog takes the latest night that may
    have settled: the next night's settlement is still to come, and the night's
    own has passed whenever nights settle before the following midnight. *)
Theorem latest_settled_night (ZoneInfo : string → result (option zone)) (document : items)
    (entries : list entry) (e : entry) (now : Z) (date : option string) (night : LogicalNight) :
  load_catalog ZoneInfo document = Ok entries → e ∈ entries →
  date = None ∨ date = Some EmptyString →
  logical_night ZoneInfo now e date = Ok night →
  ∃ z local_now hour minute, ZoneInfo (timezone e) = Ok (Some z) ∧ to_local z now = Ok local_now ∧
    _parse_local_time (local_time e) = Ok (hour, minute) ∧
    settlement_at night = at_time (logical_date night) hour minute + minutes (settlement_minutes e) ∧
    local_now < at_time (logical_date night + 1) hour minute + minutes (settlement_minutes e) ∧
    (hour * 60 + minute + settlement_minutes e <= 1440 → settlement_at night <= local_now).
Proof.
  intros [_ Hwf]%load_catalog_Ok (Hmax & Hsettle & _)%Hwf Hdate
    (z & local_now & hour & minute & Hz & Hnow & Htime & Hday & Hs & _ & Hset & _)%logical_night_Ok.
  exists z, local_now, hour, minute. do 3 (split; [done|]). rewrite Hset, Hs. split; [done|].
  apply local_time_range in Htime. pose proof (date_of_bounds local_now) as Hb.
  assert (∃ deadline, instant_add (at_time (date_of local_now) hour minute)
      (minutes (settlement_minutes e)) = Ok deadline ∧
      (if deadline <=? local_now then Ok (date_of local_now) else day_before (date_of local_now))
        = Ok (logical_date night)) as (deadline & [-> _]%instant_add_Ok & H).
  { unfold chosen_date in Hday. destruct Hdate as [-> | ->]; by apply bind_Ok in Hday. }
  unfold at_time, minutes, day_us in *. destruct (_ <=? local_now) eqn:Hpassed; bool_hyps.
  - injection H as <-. lia.
  - unfold day_before in H. destruct (check_ord _) as [d|] eqn:Hd; [|done].
    apply check_ord_Some in Hd. injection H as <-. subst d. lia.
Qed.

(** C35: The delay of an attempt is what wall clocks counted between the scheduled
    time and the start, in whole minutes: the time that elapsed, plus what the
    zone's offset changed by.  It lies inside the entry's window. *)
Theorem delay_is_of_wall_clocks (ZoneInfo : string → result (option zone)) (c : client)
    (document : items) (entries : list entry) (e : entry) (now : Z) (date : option string)
    (night : LogicalNight) (run : items) (started : Z) (a : attempt) :
  load_catalog ZoneInfo document = Ok entries → e ∈ entries →
  logical_night ZoneInfo now e date = Ok night →
  inspect_run ZoneInfo c e night run = Ok (Some (started, a)) →
  ∃ z, ZoneInfo (timezone e) = Ok (Some z) ∧
    let due := scheduled_at night - offset_of z (scheduled_at night) in
    let change := offset_at z started - offset_of z (scheduled_at night) in
    dispatch_delay_minutes a = (started - due + change) / 60000000 ∧
    0 <= dispatch_delay_minutes a <= max_dispatch_delay_minutes e.
Proof.
  intros [_ Hwf]%load_catalog_Ok He Hn.
  pose proof (night_governed _ _ _ _ _ (Hwf _ He) Hn) as Hgov. destruct Hgov as [Hlatest Hmax].
  unfold inspect_run, evaluate_attempt.
  intros (started' & Hs & (z & Hz & (wall & Hwall & H)%bind_Ok)%bind_Ok)%bind_Ok.
  destruct (_ && _) eqn:Hwin; [|done]. bool_hyps. rewrite Hs, Hz in H. inv_result.
  match goal with H : to_local ?z ?t = Ok ?w |- _ => rename z into zone; rename w into local end.
  apply Zones_found in Hz. exists zone. split; [done|]. cbn [dispatch_delay_minutes].
  assert (governed e night) as Hgov by done.
  pose proof (delay_in_window e night wall Hgov ltac:(done)) as Hdelay.
  assert (local = wall) as -> by congruence. split; [|done].
  unfold minutes in *. rewrite whole_minutes_exact by lia.
  unfold to_local in Hwall. apply instant_add_Ok in Hwall as [-> _]. f_equal. lia.
Qed.

(** ** Requests and outputs *)

(** A request is made at most four times, again only after a transient
    failure, and waiting twice as long each time; the result is that of the last
    answer, transient only at the fourth. *)
Theorem requests_are_bounded (urlopen : string → nat → reply) (json_loads : string → result value)
    (url : string) :
  ∃ n, (n <= 3)%nat ∧ (∀ i, (i < n)%nat → transient (urlopen url i) = true) ∧
    (transient (urlopen url n) = true → n = 3%nat) ∧
    get urlopen json_loads url = (answer json_loads (urlopen url n), take n [1; 2; 4]).
Proof.
  assert (∀ k, (k <= 3)%nat → ∃ n, (k <= n <= 3)%nat ∧
    (∀ i, (k <= i < n)%nat → transient (urlopen url i) = true) ∧
    (transient (urlopen url n) = true → n = 3%nat) ∧
    get_from urlopen json_loads (4 - k) k url
      = (answer json_loads (urlopen url n), map (λ i, 2 ^ Z.of_nat i) (seq k (n - k)))) as H.
  - intros k Hk. remember (3 - k)%nat as d eqn:Hd. revert k Hk Hd.
    induction d as [|d IH]; intros k Hk Hd.
    + assert (k = 3%nat) as -> by lia. exists 3%nat. simpl. rewrite andb_false_r.
      repeat split; lia.
    + replace (4 - k)%nat with (S (4 - S k)) by lia. cbn [get_from].
      rewrite (proj2 (Nat.eqb_neq k 3)) by lia. rewrite andb_true_r.
      destruct (transient (urlopen url k)) eqn:Ht.
      * destruct (IH (S k)) as (n & Hn & Hall & Hlast & Heq); [lia..|]. rewrite Heq.
        exists n. split; [lia|]. split; [|split; [done|]].
        -- intros i Hi. destruct (decide (i = k)) as [->|]; [done|]. apply Hall. lia.
        -- by replace (n - k)%nat with (S (n - S k)) by lia.
      * exists k. rewrite Nat.sub_diag. split; [lia|]. split; [lia|]. split; [congruence|done].
  - destruct (H 0%nat) as (n & Hn & Hall & Hlast & Heq); [lia|].
    exists n. split; [lia|]. split; [intros; apply Hall; lia|]. split; [done|].
    unfold get. change 4%nat with (4 - 0)%nat. rewrite Heq, Nat.sub_0_r. f_equal.
    destruct n as [|[|[|[|]]]]; [done..|lia].
Qed.

Definition output_line (kv : string * value) : string :=
  kv.1 +:+ "=" +:+ (if is_none kv.2 then EmptyString else py_str kv.2).
Definition single_line (s : string) : Prop := all_chars (λ c, negb (is_line_end c)) s = true.

Lemma all_chars_weaken (p q : ascii → bool) s :
  (∀ c, p c = true → q c = true) → all_chars p s = true → all_chars q s = true.
Proof.
  intros Hpq. induction s as [|c s IH]; [done|]. simpl. rewrite !andb_true_iff.
  intros [Hc Hs]. auto.
Qed.

Lemma output_key_single_line key : OUTPUT_RE key = true → single_line key.
Proof.
  unfold OUTPUT_RE, rx_head_rep, rx_rep, single_line. destruct key as [|c s]; [done|].
  rewrite !andb_true_iff. intros [Hc [_ Hs]].
  assert (∀ c, is_lower c || is_digit c || one_of "_" c = true → negb (is_line_end c) = true) as Hok.
  { intros [[] [] [] [] [] [] [] []]; vm_compute; done. }
  simpl. rewrite Hok by by rewrite Hc. by apply (all_chars_weaken _ _ _ Hok).
Qed.

(** The lines written for a job's outputs are those of the first values, in
    order, each [key=text] on one line; all are written unless a key or a text
    is refused. *)
Theorem outputs_are_single_lines (values : items) :
  let '(lines, written) := _write_outputs values in
  ∃ done, done `prefix_of` values ∧ lines = map output_line done ∧ Forall single_line lines ∧
    (written = Ok tt ↔ done = values).
Proof.
  induction values as [|[key raw] values IH]; cbn [_write_outputs]; [by exists []|].
  assert (∀ w : result unit, w ≠ Ok tt → ∃ done, done `prefix_of` (key, raw) :: values ∧
    @nil string = map output_line done ∧ Forall single_line [] ∧ (w = Ok tt ↔ done = (key, raw) :: values))
    as Hstop.
  { intros w Hw. exists []. split; [apply prefix_nil|]. split; [done|]. by split. }
  destruct (OUTPUT_RE key) eqn:Hkey; simpl; [|by apply Hstop].
  destruct (all_chars _ _) eqn:Htext; simpl; [|by apply Hstop].
  destruct (_write_outputs values) as [lines w]. destruct IH as (done & Hpre & -> & Hlines & Hw).
  exists ((key, raw) :: done). split; [by apply prefix_cons|]. split; [done|]. split.
  - constructor; [|done]. unfold single_line. rewrite !all_chars_app, Htext.
    by rewrite (output_key_single_line _ Hkey).
  - rewrite Hw. split; [by intros ->|by intros [= ->]].
Qed.

(** ** How the commands fail *)

Section failures.
Context (ZoneInfo : string → result (option zone)) (Hzones : ∀ name, is_ok (ZoneInfo name) = true).

Abbreviation fails := (raises_in [WatchdogError; OverflowError]).

Lemma fails_watchdog {A} (r : result A) : raises_only WatchdogError r → fails r.
Proof using. intros H. eapply raises_in_only; [exact H|by left]. Qed.
Lemma fails_text v field maximum : fails (Watchdog._text v field maximum).
Proof using. apply fails_watchdog. unfold Watchdog._text, watchdog_error. solve_raises. Qed.
Lemma fails_object v field : fails (Watchdog._object v field).
Proof using. apply fails_watchdog. unfold Watchdog._object, expect_dict, watchdog_error. solve_raises. Qed.
Lemma fails_objects v field : fails (_objects v field).
Proof using. apply fails_watchdog. unfold _objects, watchdog_error. solve_raises. Qed.
Lemma fails_positive v field : fails (_positive v field).
Proof using. apply fails_watchdog. unfold _positive, watchdog_error. auto with raises. Qed.
Lemma fails_minutes raw job field lower upper : fails (bounded_minutes raw job field lower upper).
Proof using. apply fails_watchdog. unfold bounded_minutes, watchdog_error. auto with raises. Qed.
Lemma fails_local_time s : fails (_parse_local_time s).
Proof using. apply fails_watchdog. unfold _parse_local_time, watchdog_error. solve_raises. Qed.
Lemma fails_unique_named l name kind : fails (_unique_named l name kind).
Proof using. apply fails_watchdog. unfold _unique_named, watchdog_error. solve_raises. Qed.
Lemma fails_zone name : fails (_zone ZoneInfo name).
Proof using Hzones.
  apply fails_watchdog. unfold _zone, watchdog_error. specialize (Hzones name).
  destruct (ZoneInfo name); [|done]. solve_raises.
Qed.
Lemma fails_instant_add t us : fails (instant_add t us).
Proof using. unfold instant_add, date_out_of_range. solve_raises_in. Qed.
#[local] Hint Resolve fails_text fails_object fails_objects fails_positive fails_minutes
  fails_local_time fails_unique_named fails_zone fails_instant_add : raises.

Lemma fails_instant s : fails (parse_text_instant s).
Proof using. unfold parse_text_instant, to_utc, watchdog_error. solve_raises_in. Qed.
#[local] Hint Resolve fails_instant : raises.
Lemma fails_run_started run : fails (run_started run).
Proof using. unfold run_started, _github_instant. solve_raises_in. Qed.
#[local] Hint Resolve fails_run_started : raises.

Lemma fails_load_entry raw validated : fails (load_entry ZoneInfo raw validated).
Proof using Hzones. unfold load_entry, watchdog_error. solve_raises_in. Qed.
Lemma fails_load_catalog document : fails (load_catalog ZoneInfo document).
Proof using Hzones.
  unfold load_catalog, watchdog_error. solve_raises_in.
  apply raises_in_for_each. intros. apply fails_load_entry.
Qed.
Lemma fails_select_entry entries job_id : fails (select_entry entries job_id).
Proof using. unfold select_entry, watchdog_error. solve_raises_in. Qed.
Lemma fails_logical_night now e date : fails (logical_night ZoneInfo now e date).
Proof using Hzones.
  unfold logical_night, to_local, chosen_date, day_before, date_out_of_range, watchdog_error.
  solve_raises_in.
Qed.
Lemma fails_evaluate run e night jobs artifacts : fails (evaluate_attempt ZoneInfo run e night jobs artifacts).
Proof using Hzones. unfold evaluate_attempt, to_local. solve_raises_in. Qed.
Lemma fails_snapshot payload : fails (SnapshotClient payload).
Proof using. unfold SnapshotClient. solve_raises_in. Qed.
#[local] Hint Resolve fails_load_catalog fails_select_entry fails_logical_night fails_evaluate
  fails_snapshot : raises.

(** A client that fails as the watchdog does. *)
Definition fails_only (c : client) : Prop :=
  (∀ workflow, fails (list_runs c workflow)) ∧ (∀ n, fails (list_jobs c n)) ∧
  (∀ n, fails (list_artifacts c n)).

Lemma snapshot_fails_only payload c : SnapshotClient payload = Ok c → fails_only c.
Proof using.
  unfold SnapshotClient. intros H. inv_result. split; [done|]. simpl. auto with raises.
Qed.

Lemma fails_build_report c e night now : fails_only c → fails (build_report ZoneInfo c e night now).
Proof using Hzones.
  intros (Hruns & Hjobs & Hartifacts).
  assert (∀ run, fails (inspect_run ZoneInfo c e night run)) as Hinspect.
  { intros run. unfold inspect_run, to_local. solve_raises_in. }
  unfold build_report, to_local. solve_raises_in.
  apply raises_in_for_each. intros run acc _. unfold inspect_next. specialize (Hinspect run).
  destruct (inspect_run _ _ _ _ _) as [[]|]; [done..|]. case_bool_decide; done.
Qed.

Lemma outputs_fail values : raises_only WatchdogError (_write_outputs values).2.
Proof using.
  induction values as [|[key raw] values IH]; simpl; [done|].
  repeat case_match; simplify_eq/=; done.
Qed.
End failures.

(** [locate] on a snapshot ends with 0, 1 or 2, or with an [OverflowError]
    that is not caught: files that hold no date out of range never end it with a
    traceback. *)
Theorem locate_failures_are_typed (ZoneInfo : string → result (option zone))
    (catalog snapshot : result items) (clock : Z) (job_id : string) (now date : option string) :
  (∀ name, is_ok (ZoneInfo name) = true) →
  raises_only WatchdogError catalog → raises_only WatchdogError snapshot →
  match main (status (locate ZoneInfo catalog clock job_id now date (snapshot ≫= SnapshotClient))) with
  | Ok code => code ∈ [0; 1; 2]
  | Raise err => exn_cls err = OverflowError
  end.
Proof.
  intros Hzones Hcatalog Hsnapshot. unfold locate, catalog_entry.
  match goal with |- context [finish ?m] => set (prepared := m) end.
  assert (raises_in [WatchdogError; OverflowError] prepared ∧
    ∀ a outputs code, prepared = Ok (a, outputs, code) → code ∈ [0; 1]) as [Hfail Hcode].
  { subst prepared. split.
    - repeat match goal with |- raises_in _ (_ ≫= _) => apply raises_in_bind; [|intros ? ?] end;
        eauto using fails_watchdog, fails_load_catalog, fails_select_entry, fails_logical_night,
          fails_snapshot, raises_in_Ok.
      + unfold parse_instant. destruct now; [apply fails_instant|done].
      + inv_result. apply fails_build_report; [done|]. by eapply snapshot_fails_only.
    - intros a outputs code H. inv_result. destruct (report_succeeded _); [by left|right; by left]. }
  clearbody prepared. unfold finish. destruct prepared as [[[a outputs] code]|err]; simpl.
  - pose proof (outputs_fail outputs) as Hout. destruct (_write_outputs outputs) as [lines [[]|err]]; simpl in *.
    + specialize (Hcode _ _ _ eq_refl). rewrite !elem_of_cons in *. tauto.
    + rewrite Hout. simpl. right; right; by left.
  - unfold raises_in in Hfail. apply elem_of_cons in Hfail as [Hw|Ho%list_elem_of_singleton]; [rewrite Hw|by rewrite Ho]. simpl.
    right; right; by left.
Qed.

(** ** Samples *)

Definition hours (n : Z) : Z := minutes (n * 60).
(** Lima keeps one offset; New York's changes in the night of 2026-11-01. *)
Definition lima : zone := Zone (λ _, hours (-5)) (λ _, hours (-5)).
Definition fall_back : Z := ymd_to_ord 2026 11 1.
Definition new_york : zone :=
  Zone (λ t, if t <? at_time fall_back 6 0 then hours (-4) else hours (-5))
       (λ wall, if wall <? at_time fall_back 2 0 then hours (-4) else hours (-5)).
Definition sample_zones (name : string) : result (option zone) :=
  Ok (if String.eqb name "America/Lima" then Some lima
      else if String.eqb name "America/New_York" then Some new_york else None).

Definition chat_entry : entry :=
  Entry "recent-chat-reconciliation" "last-30-hours-introspection.yml" "main" "America/Lima" "00:30"
    240 315 "enqueue-and-verify" "recent-chat-reconciliation" "recent-chat-reconciliation-terminal-"
    "recent-chat-reconciliation-report-" "recent-chat-reconciliation-terminal.json"
    "recent_chat_reconciliation_receipt.v1" "run-ledger.json" "report.md".
Definition recovery_entry : entry :=
  Entry "nightly-artifact-recovery" "nightly-artifact-recovery.yml" "main" "America/New_York" "00:37"
    240 310 "enqueue-and-verify" "artifact-recovery" "artifact-recovery-terminal-"
    "nightly-artifact-recovery-report-" "artifact-recovery-terminal-receipt.json"
    "artifact_recovery_schedule_receipt.v1" "run-ledger.json" "report.md".
Definition entry_value (e : entry) : value :=
  VDict [("id", VStr (id e)); ("workflow", VStr (workflow e)); ("branch", VStr (branch e));
    ("timezone", VStr (timezone e)); ("local_time", VStr (local_time e));
    ("max_dispatch_delay_minutes", VInt (max_dispatch_delay_minutes e));
    ("settlement_minutes", VInt (settlement_minutes e)); ("execution_job", VStr (execution_job e));
    ("run_key_prefix", VStr (run_key_prefix e));
    ("terminal_artifact_prefix", VStr (terminal_artifact_prefix e));
    ("report_artifact_prefix", VStr (report_artifact_prefix e));
    ("terminal_receipt_file", VStr (terminal_receipt_file e));
    ("terminal_receipt_schema", VStr (terminal_receipt_schema e));
    ("report_ledger_file", VStr (report_ledger_file e));
    ("report_markdown_file", VStr (report_markdown_file e))].
(** [config/overnight-jobs.json] *)
Definition sample_catalog : items :=
  [("schema_version", VStr "overnight_jobs.v2");
   ("jobs", VList [entry_value chat_entry; entry_value recovery_entry])].

Lemma sample_catalog_loads : load_catalog sample_zones sample_catalog = Ok [chat_entry; recovery_entry].
Proof. vm_compute. reflexivity. Qed.

(** A run of an entry that started at a moment, with its job and artifacts. *)
Definition sample_run (e : entry) (started : string) : items :=
  [("id", VInt 42); ("run_attempt", VInt 1); ("event", VStr "schedule");
   ("status", VStr "completed"); ("conclusion", VStr "success"); ("head_branch", VStr (branch e));
   ("run_started_at", VStr started)].
Definition sample_client (e : entry) (started : string) : client :=
  let artifact name := [("name", VStr name); ("expired", VBool false); ("size_in_bytes", VInt 1024)] in
  Client (λ _, Ok [sample_run e started])
    (λ _, Ok [[("name", VStr (execution_job e)); ("status", VStr "completed");
               ("conclusion", VStr "success")]])
    (λ _, Ok [artifact (fixture_terminal e); artifact (fixture_report e)]).

(** 2026-08-10T13:30Z, and the night in Lima it belongs to. *)
Definition sample_now : Z := at_time (ymd_to_ord 2026 8 10) 13 30.
Definition sample_night : LogicalNight :=
  let day := ymd_to_ord 2026 8 10 in
  Night day (at_time day 0 30) (at_time day 4 30) (at_time day 5 45)
    "recent-chat-reconciliation:scheduled:2026-08-10".
(** 2026-11-01T18:00Z, and the night in New York it belongs to. *)
Definition autumn_now : Z := at_time fall_back 18 0.
Definition autumn_night : LogicalNight :=
  Night fall_back (at_time fall_back 0 37) (at_time fall_back 4 37) (at_time fall_back 5 47)
    "artifact-recovery:scheduled:2026-11-01".

Lemma watchdog_success_is_earned_witness :
  let c := sample_client chat_entry "2026-08-10T05:34:00Z" in
  ∃ r, build_report sample_zones c chat_entry sample_night sample_now = Ok r ∧
    report_succeeded r = true ∧
    ∃ runs z local_now, list_runs c (workflow chat_entry) = Ok runs ∧
      sample_zones (timezone chat_entry) = Ok (Some z) ∧ to_local z sample_now = Ok local_now ∧
      (report_succeeded r = true ↔
         settlement_at sample_night <= local_now ∧
         (∀ run, run ∈ take 30 runs → ∃ o, inspect_run sample_zones c chat_entry sample_night run = Ok o) ∧
         ∃ run started, run ∈ take 30 runs ∧ passes sample_zones c chat_entry sample_night run started) ∧
      (∀ a, selected_attempt r = Some a →
         ∃ run started, run ∈ take 30 runs ∧ passes sample_zones c chat_entry sample_night run started ∧
           inspect_run sample_zones c chat_entry sample_night run = Ok (Some (started, a)) ∧
           ∀ run' started', run' ∈ take 30 runs →
             passes sample_zones c chat_entry sample_night run' started' → started' <= started).
Proof.
  eexists. split; [vm_compute; reflexivity|]. split; [vm_compute; reflexivity|].
  apply (watchdog_success_is_earned sample_zones (sample_client chat_entry "2026-08-10T05:34:00Z")
    sample_catalog [chat_entry; recovery_entry] chat_entry sample_now None sample_night).
  - exact sample_catalog_loads.
  - by left.
  - vm_compute. reflexivity.
  - vm_compute. reflexivity.
Defined.

Lemma fixtures_validate_witness :
  ∃ x, emit_fixtures sample_zones (Ok sample_catalog) "recent-chat-reconciliation" = Ok x ∧
    is_ok (validate_evidence (fixture_entry x) (emitted_files x) (emitted_binding x)) = true.
Proof.
  exists (Fixtures chat_entry (fixture_snapshot chat_entry) _fixture_receipt (fixture_ledger chat_entry)
            fixture_markdown).
  assert (emit_fixtures sample_zones (Ok sample_catalog) "recent-chat-reconciliation"
    = Ok (Fixtures chat_entry (fixture_snapshot chat_entry) _fixture_receipt (fixture_ledger chat_entry)
            fixture_markdown)) as Hemit.
  { unfold emit_fixtures, catalog_entry. rewrite ok_bind, sample_catalog_loads, ok_bind.
    reflexivity. }
  split; [exact Hemit|].
  apply (fixtures_validate sample_zones (Ok sample_catalog) "recent-chat-reconciliation"); [exact Hemit|].
  discriminate.
Defined.

Lemma latest_settled_night_witness :
  ∃ z local_now hour minute, sample_zones (timezone chat_entry) = Ok (Some z) ∧
    to_local z sample_now = Ok local_now ∧
    _parse_local_time (local_time chat_entry) = Ok (hour, minute) ∧
    settlement_at sample_night =
      at_time (logical_date sample_night) hour minute + minutes (settlement_minutes chat_entry) ∧
    local_now < at_time (logical_date sample_night + 1) hour minute + minutes (settlement_minutes chat_entry) ∧
    (hour * 60 + minute + settlement_minutes chat_entry <= 1440 → settlement_at sample_night <= local_now).
Proof.
  apply (latest_settled_night sample_zones sample_catalog [chat_entry; recovery_entry] chat_entry
    sample_now None sample_night).
  - exact sample_catalog_loads.
  - by left.
  - by left.
  - vm_compute. reflexivity.
Defined.

(** The clocks of New York go back an hour in the night of 2026-11-01: a run that
    started 299 minutes after the scheduled time is counted 239 minutes late,
    inside the window of 240 minutes, and succeeds. *)
Lemma delay_is_of_wall_clocks_witness :
  let c := sample_client recovery_entry "2026-11-01T09:36:00Z" in
  let run := sample_run recovery_entry "2026-11-01T09:36:00Z" in
  let started := at_time fall_back 9 36 in
  let due := at_time fall_back 4 37 in
  (started - due) / 60000000 = 299 ∧
  ∃ a, inspect_run sample_zones c recovery_entry autumn_night run = Ok (Some (started, a)) ∧
    dispatch_delay_minutes a = 239 ∧ succeeded a = true ∧
    ∃ z, sample_zones (timezone recovery_entry) = Ok (Some z) ∧
      scheduled_at autumn_night - offset_of z (scheduled_at autumn_night) = due ∧
      let due := scheduled_at autumn_night - offset_of z (scheduled_at autumn_night) in
      let change := offset_at z started - offset_of z (scheduled_at autumn_night) in
      dispatch_delay_minutes a = (started - due + change) / 60000000 ∧
      0 <= dispatch_delay_minutes a <= max_dispatch_delay_minutes recovery_entry.
Proof.
  cbv zeta. split; [reflexivity|]. eexists. split; [vm_compute; reflexivity|].
  split; [reflexivity|]. split; [reflexivity|].
  edestruct (delay_is_of_wall_clocks sample_zones (sample_client recovery_entry "2026-11-01T09:36:00Z")
    sample_catalog [chat_entry; recovery_entry] recovery_entry autumn_now None autumn_night
    (sample_run recovery_entry "2026-11-01T09:36:00Z") (at_time fall_back 9 36)) as (z & Hz & H).
  - exact sample_catalog_loads.
  - by right; left.
  - vm_compute. reflexivity.
  - vm_compute. reflexivity.
  - exists z. split; [exact Hz|]. split; [|exact H].
    injection Hz as <-. vm_compute. reflexivity.
Defined.

(** A run listed with a start in year 1 ends the command with a traceback: the
    [OverflowError] is not counted as an inspection error. *)
Definition ancient_snapshot : items :=
  [("workflow_runs", VList [VDict (sample_run chat_entry "0001-01-01T00:00:00Z")]);
   ("jobs_by_run", VDict []); ("artifacts_by_run", VDict [])].

Lemma locate_failures_are_typed_witness :
  let ending := status (locate sample_zones (Ok sample_catalog) sample_now "recent-chat-reconciliation"
    None None (Ok ancient_snapshot ≫= SnapshotClient)) in
  main ending = Raise date_out_of_range ∧
  match main ending with
  | Ok code => code ∈ [0; 1; 2]
  | Raise err => exn_cls err = OverflowError
  end.
Proof.
  cbv zeta. split; [vm_compute; reflexivity|].
  apply (locate_failures_are_typed sample_zones (Ok sample_catalog) (Ok ancient_snapshot) sample_now
    "recent-chat-reconciliation" None None); [|done|done].
  intros name. unfold sample_zones. done.
Defined.

(** A night that settles after midnight is taken before it has settled. *)
Example late_schedule :
  let e := Entry "late" "late.yml" "main" "America/Lima" "23:00" 240 315 "job" "late" "t-" "r-"
             "t.json" "s" "l.json" "r.md" in
  ∃ night, logical_night sample_zones (at_time (ymd_to_ord 2026 8 10) 7 0) e None = Ok night ∧
    logical_date night = ymd_to_ord 2026 8 9 ∧
    settlement_at night = at_time (ymd_to_ord 2026 8 10) 4 15.
Proof. eexists. split; [vm_compute; reflexivity|]. split; reflexivity. Qed.

(** The ledger's run identity is compared with Python's [==]: [true] is attempt 1. *)
Example ledger_attempt_true :
  let facts := Facts (repeated "a" 64) 0 0 0 (repeated "a" 64) (repeated "b" 64) [] in
  is_ok (check_ledger chat_entry (Binding fixture_run_key 42 1 "t" "r") facts
    [("schema_version", VStr "overnight_run_ledger.v1"); ("job_id", VStr (id chat_entry));
     ("workflow", VStr (workflow chat_entry)); ("run_id", VInt 42); ("run_attempt", VBool true);
     ("outcome", VStr "success"); ("reconciliation_complete", VBool true);
     ("all_work_complete", VBool true); ("unfinished_items", VInt 0);
     ("terminal_receipt_sha256", VStr (repeated "a" 64)); ("artifact_manifest", strs ["t"; "r"]);
     ("completion_summary", VDict [])]) = true.
Proof. vm_compute. reflexivity. Qed.
End WatchdogTheorems.
