(* ===== verification/WorkerTransport.v ===== *)
(** * Recovery worker: effects, requests, the coordinator and the report

    [src/tools/artifact_recovery_worker_runtime/transport.py] and [delivery.py],
    and the effects every part of the worker has.  A computation of the worker
    reads and extends a log of what it did to the world and holds its view of
    the two files the workers of a pool share; what the world answers (servers,
    clocks, disks, the mail server) is a parameter that may depend on the whole
    log, so any behaviour of theirs is covered. *)
From S2P Require Import Prelude PyValue Sha256 Json DateTime Regex RecoveryCommon.
From S2P Require Import GitObjects Url Collect Observation Ledger WorkerCommon.
From Stdlib Require Import Ascii.

Module WorkerTransport.
Import WorkerCommon.
Open Scope Z_scope.

Definition COMPLETION_SCHEMA : string := "artifact_recovery_completion.v1".
Definition DELIVERY_SCHEMA : string := "artifact_recovery_report_delivery.v1".

(** ** Effects *)

Record request : Type := Request {
  method : string;
  url : string;
  token : option string;
  payload : option value;
  user_agent : string;
}.
(** What [opener.open] gives: a response and the bytes of its body, an
    [HTTPError] with its code, or another exception. *)
Inductive http_reply : Type :=
  | HttpResponse (status : Z) (body : string)
  | HttpError (code : Z)
  | HttpRaised (e : exn).

Record email : Type := Email {
  mail_to : string;
  mail_from : string;
  subject : string;
  content : string;
}.
(** How a message is handed over: host, port, security and user name. *)
Record smtp_session : Type := Session {
  smtp_host : string;
  smtp_port : Z;
  smtp_security : string;
  smtp_username : string;
}.

(** What a worker does, in order. *)
Inductive event : Type :=
  | Sent (r : request)
  | ReadClock
  | ReadFile (path : string)
  | Fenced
  | SavedLedger (l : Ledger.ledger)
  | SavedCursors (v : value)
  | SavedRun (path : string) (v : value)
  | Mailed (s : smtp_session) (m : email)
  | Metric (v : value).

(** The files the workers of a pool share: [cursors.json] and [ledger.json],
    each absent or a document. *)
Record shared_files : Type := Shared {
  cursors_file : option value;
  ledger_file : option Ledger.ledger;
}.
(** [state_fence]: the lock is acquired, and the shared files are what the
    workers before left; or the wait times out; or the lock file fails. *)
Inductive fencing : Type :=
  | Acquired (files : shared_files)
  | TimedOut
  | LockFailed (e : exn).
Record world : Type := World { log : list event; shared : shared_files }.

Definition worker (A : Type) : Type := world → result A * world.
#[export] Instance worker_ret : MRet worker := λ A a w, (Ok a, w).
#[export] Instance worker_bind : MBind worker := λ A B f m w,
  match m w with
  | (Ok a, w) => f a w
  | (Raise e, w) => (Raise e, w)
  end.
Definition raise {A} (e : exn) : worker A := λ w, (Raise e, w).
(** A step that may raise and leaves the world alone. *)
Definition pure {A} (r : result A) : worker A := λ w, (r, w).
Definition tell (e : event) : worker unit := λ w, (Ok tt, World (log w ++ [e]) (shared w)).
(** [except WorkerError as exc: handler] *)
Definition catch {A} (body : worker A) (handler : exn → worker A) : worker A := λ w,
  match body w with
  | (Raise e, w) => if is_worker_error e then handler e w else (Raise e, w)
  | r => r
  end.
Fixpoint each {A B : Type} (l : list A) (body : A → B → worker B) (acc : B) : worker B :=
  match l with
  | [] => mret acc
  | x :: l => acc ← body x acc; each l body acc
  end.

(** What the worker reaches in the world. *)
Record environment : Type := Environment {
  reply : list event → request → http_reply;
  json_loads : string → result value;
  clock : list event → Z;
  elapsed_ms : list event → Z;
  environ : string → option string;
  (** a file's document: absent, parsed, or the exception of reading it *)
  read_json : list event → string → option (result value);
  (** a write of a file, which may fail *)
  disk : list event → string → result unit;
  (** waiting for the lock of the shared files *)
  fence : list event → shared_files → fencing;
  (** the outcomes of the heartbeats sent while a job ran *)
  beats : list event → list (result unit);
  smtp : list event → smtp_session → email → result unit;
  message_text : email → string;
  message_bytes : email → string;
}.

Section worker.
Context (env : environment) (config : worker_config).

Definition utc_now : worker Z := λ w,
  (Ok (clock env (log w)), World (log w ++ [ReadClock]) (shared w)).

(** ** [JsonHttpClient.request] *)

Definition size_error : exn := worker_error "remote response exceeded the size limit".
Definition json_error : exn := worker_error "remote service response was not valid JSON".
Definition retryable_code (code : Z) : bool :=
  existsb (Z.eqb code) [408; 409; 425; 429] || ((500 <=? code) && (code <=? 599)).

(** What is made of a reply: the status and, unless it is 204, the object. *)
Definition read_reply (r : http_reply) : result (Z * option items) :=
  match r with
  | HttpError code =>
      Raise (worker_error_as (retryable_code code)
        (if code =? 429 then "rate_limited" else "availability")
        ("remote service returned HTTP " +:+ str_int code))
  | HttpRaised e =>
      if bool_decide (exn_cls e = OSError)
      then Raise (worker_error_as true "availability" "remote service request failed")
      else Raise e
  | HttpResponse status body =>
      raise_if (max_response_bytes config <? slen body) size_error ;;
      if status =? 204 then Ok (status, None) else
      value ← (if Url.is_empty body then Ok (VDict [])
               else match json_loads env body with
                    | Raise e => Raise (if bool_decide (exn_cls e = JSONDecodeError)
                                        then json_error else e)
                    | Ok v => Ok v
                    end);
      match value with
      | VDict d => Ok (status, Some d)
      | _ => Raise (worker_error "remote service response must be a JSON object")
      end
  end.

Definition send (r : request) : worker (Z * option items) := λ w,
  (read_reply (reply env (log w) r), World (log w ++ [Sent r]) (shared w)).

Definition http_request (method url token : string) (payload : option value) (user_agent : string)
  : worker (Z * option items) :=
  send (Request method url (if Url.is_empty token then None else Some token) payload user_agent).

(** ** [CoordinatorClient] *)

Definition WORKER_AGENT : string := "ai-agent-coordinator-artifact-recovery-worker/1".
Definition coordinator_post (path : string) (payload : value) : worker (Z * option items) :=
  http_request "POST" (coordinator_url config +:+ path) (coordinator_token config)
    (Some payload) WORKER_AGENT.

(** [v in {None, worker_id}] *)
Definition unclaimed_or_mine (v : value) : result bool :=
  if is_none v then Ok true else in_strings v [worker_id config].

Definition _validate_claim (job : items) : result unit :=
  raise_if (negb (is_text (dict_get job "task_type") TASK_TYPE))
    (worker_error "coordinator returned an unsupported task type") ;;
  job_id ← expect_string (dict_get job "id") "job.id" 200;
  raise_if (negb (SOURCE_ID_RE job_id)) (worker_error "job.id has an invalid shape") ;;
  mine ← unclaimed_or_mine (dict_get job "claimed_by");
  raise_if (negb mine) (worker_error "coordinator returned a job leased to another worker") ;;
  payload ← expect_object (dict_get job "payload") "job.payload";
  raise_if (negb (is_text (dict_get payload "schema_version") JOB_SCHEMA))
    (worker_error ("job payload schema_version must be " +:+ JOB_SCHEMA)).

Definition claim : worker (option items) :=
  '(status, response) ← coordinator_post "/v1/jobs/claim"
    (VDict [("worker_id", VStr (worker_id config)); ("task_types", strs [TASK_TYPE]);
            ("lease_seconds", VInt (lease_seconds config))]);
  match response with
  | None => mret None
  | Some response =>
      job ← pure (expect_object (dict_get response "job") "coordinator response.job");
      pure (_validate_claim job) ;;
      mret (Some job)
  end.

Definition complete_path (job_id : string) : string := "/v1/jobs/" +:+ job_id +:+ "/complete".
Definition complete (job_id : string) (succeeded : bool) (result : items) (error : option string)
    (retryable : bool) : worker unit :=
  pure (ensure_public_safe (VDict result) "completion result") ;;
  safe_error ← match error with
    | None => mret None
    | Some text =>
        if Url.is_empty text then mret None
        else
          let safe_error := String.substring 0 500 text in
          pure (ensure_public_safe (VStr safe_error) "completion error") ;;
          mret (Some safe_error)
    end;
  coordinator_post (complete_path job_id)
    (VDict [("worker_id", VStr (worker_id config));
            ("outcome", VStr (if succeeded then "succeeded" else "failed"));
            ("result", VDict result); ("error", opt_str safe_error);
            ("retryable", VBool retryable);
            ("retry_delay_seconds", VInt (retry_delay_seconds config))]) ;;
  mret tt.

(** ** [LeaseHeartbeat]

    The thread sends heartbeats until one fails: a [WorkerError] is kept for
    [__exit__], any other exception ends the thread and nothing is kept. *)

Definition heartbeat_interval : Z := Z.max 10 (lease_seconds config / 3).
Fixpoint heartbeat_failure (outcomes : list (result unit)) : option exn :=
  match outcomes with
  | [] => None
  | Ok _ :: outcomes => heartbeat_failure outcomes
  | Raise e :: _ =>
      if is_worker_error e
      then Some (worker_error_as true (error_class e) "coordinator lease heartbeat failed")
      else None
  end.
(** [with LeaseHeartbeat(...): body] *)
Definition with_heartbeat {A} (body : worker A) : worker A := λ w,
  match body w with
  | (Ok a, w) =>
      match heartbeat_failure (beats env (log w)) with
      | Some e => (Raise e, w)
      | None => (Ok a, w)
      end
  | r => r
  end.

(** ** Files

    [atomic_write_json]: a scan for credentials, then the write; [update] is
    what the write does to the shared files. *)

Definition write_file (path : string) (e : event) (update : shared_files → shared_files)
  : worker unit := λ w,
  match disk env (log w) path with
  | Raise e => (Raise e, w)
  | Ok _ => (Ok tt, World (log w ++ [e]) (update (shared w)))
  end.
Definition run_file (path : string) (v : value) : worker unit :=
  pure (ensure_public_safe v path) ;; write_file path (SavedRun path v) id.
(** [ledger_atomic_write_json] scans nothing. *)
Definition ledger_run_file (path : string) (v : value) : worker unit :=
  write_file path (SavedRun path v) id.

(** What [load_json_file] makes of what is read. *)
Definition loaded (field : string) (r : option (result value)) : result value :=
  match r with
  | None => Raise (worker_error (field +:+ " does not exist"))
  | Some (Ok v) => Ok v
  | Some (Raise e) =>
      Raise (if bool_decide (exn_cls e = OSError ∨ exn_cls e = JSONDecodeError)
             then worker_error (field +:+ " is not readable valid JSON") else e)
  end.
Definition load_json_file (path field : string) : worker value := λ w,
  (loaded field (read_json env (log w) path), World (log w ++ [ReadFile path]) (shared w)).

(** [state_transaction]: the body sees what the fence protects. *)
Definition contention_error : exn :=
  worker_error_as true "state_contention"
    "timed out waiting for the shared artifact-recovery state fence".
Definition state_transaction {A} (body : worker A) : worker A := λ w,
  match fence env (log w) (shared w) with
  | TimedOut => (Raise contention_error, w)
  | LockFailed e => (Raise e, w)
  | Acquired files => body (World (log w ++ [Fenced]) files)
  end.

(** ** [emit_metric] *)

Definition emit_metric (name : string) (fields : items) : worker unit :=
  observed_at ← utc_now;
  let event := VDict [("schema_version", VStr "artifact_recovery_metric.v1"); ("name", VStr name);
    ("observed_at", VStr (format_instant observed_at)); ("fields", VDict fields)] in
  pure (ensure_public_safe event "metric") ;;
  tell (Metric event).

(** ** The report by mail *)

(** [^[^@\s]+@[^@\s]+\.[^@\s]+$]: no space, one [@] that is not first, and a
    dot strictly inside the domain. *)
Definition EMAIL_RE (s : string) : bool :=
  match Url.str_partition "@" s with
  | (String _ _, Some domain) =>
      negb (existsb is_space (String.list_ascii_of_string s))
      && negb (Url.has_char "@" domain)
      && Url.has_char "." (String.substring 1 (String.length domain - 2) domain)
  | _ => false
  end.

(** [f"{completion[key]}"]; the engine's completion has every key the report
    names, and so has its summary. *)
Definition shown (d : items) (key : string) : string := py_str (dict_get d key).
Definition line_feed : string := String "010" EmptyString.

Definition report_lines (completion : items) : list string :=
  let summary := object_at completion "summary" in
  ["Nightly artifact-recovery completion receipt"; EmptyString;
   "Outcome: " +:+ shown completion "outcome";
   "Job: " +:+ shown completion "job_id";
   "Run key digest: " +:+ shown completion "run_key_sha256";
   "Completed at: " +:+ shown completion "completed_at";
   "Entries: " +:+ shown summary "entries";
   "Complete: " +:+ shown summary "complete";
   "Excluded: " +:+ shown summary "excluded";
   "Actionable: " +:+ shown summary "actionable";
   "Blocked: " +:+ shown summary "blocked";
   "Source coverage: " +:+ shown (object_at completion "source_coverage") "status";
   EmptyString; "No prompt bodies or credential values are included."].

Definition build_report_email (recipient sender : string) (completion : items) : result email :=
  raise_if (negb (EMAIL_RE recipient))
    (worker_error "ARTIFACT_RECOVERY_REPORT_TO is not a valid email address") ;;
  raise_if (negb (EMAIL_RE sender))
    (worker_error "ARTIFACT_RECOVERY_REPORT_FROM is not a valid email address") ;;
  ensure_public_safe (VDict completion) "completion" ;;
  let message := Email recipient sender
    ("Artifact recovery " +:+ shown completion "outcome" +:+ ": "
     +:+ String.substring 0 12 (shown completion "run_key_sha256"))
    (str_join line_feed (report_lines completion)) in
  ensure_public_safe (VStr (message_text env message)) "email report" ;;
  Ok message.

Definition env_text (name default : string) : string := env_or (environ env) name default.

Definition smtp_settings : result (smtp_session * string) :=
  let sender := strip (env_text "ARTIFACT_RECOVERY_REPORT_FROM" EmptyString) in
  let host := strip (env_text "ARTIFACT_RECOVERY_SMTP_HOST" EmptyString) in
  raise_if (Url.is_empty host)
    (worker_error "ARTIFACT_RECOVERY_SMTP_HOST is required when report delivery is configured") ;;
  port ← match int_of_text (env_text "ARTIFACT_RECOVERY_SMTP_PORT" "587") with
         | Ok port => Ok port
         | Raise _ => Raise (worker_error "ARTIFACT_RECOVERY_SMTP_PORT must be an integer")
         end;
  raise_if (negb ((1 <=? port) && (port <=? 65535)))
    (worker_error "ARTIFACT_RECOVERY_SMTP_PORT is out of range") ;;
  let security :=
    Url.str_lower (strip (env_text "ARTIFACT_RECOVERY_SMTP_SECURITY" "starttls")) in
  raise_if (negb (mem_str security ["starttls"; "tls"; "none"]))
    (worker_error "ARTIFACT_RECOVERY_SMTP_SECURITY must be starttls, tls, or none") ;;
  raise_if (String.eqb security "none" && negb (mem_str host ["localhost"; "127.0.0.1"; "::1"]))
    (worker_error "unencrypted SMTP is permitted only on loopback") ;;
  let username := env_text "ARTIFACT_RECOVERY_SMTP_USERNAME" EmptyString in
  let password_env :=
    env_text "ARTIFACT_RECOVERY_SMTP_PASSWORD_ENV" "ARTIFACT_RECOVERY_SMTP_PASSWORD" in
  raise_if (negb (ENV_NAME_RE password_env))
    (worker_error "ARTIFACT_RECOVERY_SMTP_PASSWORD_ENV is invalid") ;;
  let password := env_text password_env EmptyString in
  raise_if (negb (Bool.eqb (Url.is_empty username) (Url.is_empty password)))
    (worker_error "SMTP username and password must be configured together") ;;
  Ok (Session host port security username, sender).

(** [client.send_message(message)] and the session around it; every
    [SMTPException] is an [OSError]. *)
Definition send_mail (s : smtp_session) (m : email) : worker unit := λ w,
  match smtp env (log w) s m with
  | Ok _ => (Ok tt, World (log w ++ [Mailed s m]) (shared w))
  | Raise e =>
      (Raise (if bool_decide (exn_cls e = OSError)
              then worker_error_as true "availability"
                     "artifact-recovery email report delivery failed"
              else e), w)
  end.

Definition with_digest (name : string) (d : items) : items :=
  d ++ [(name, VStr (sha256_value (VDict d)))].

Definition deliver_report_email (completion : items) : worker items :=
  let recipient := strip (env_text "ARTIFACT_RECOVERY_REPORT_TO" EmptyString) in
  now ← utc_now;
  let generated_at := VStr (format_instant now) in
  if Url.is_empty recipient then
    mret (with_digest "receipt_sha256"
      [("schema_version", VStr DELIVERY_SCHEMA); ("generated_at", generated_at);
       ("configured", VBool false); ("status", VStr "not_configured");
       ("recipient_sha256", VNone); ("message_sha256", VNone)])
  else
    '(session, sender) ← pure smtp_settings;
    message ← pure (build_report_email recipient sender completion);
    send_mail session message ;;
    let receipt := with_digest "receipt_sha256"
      [("schema_version", VStr DELIVERY_SCHEMA); ("generated_at", generated_at);
       ("configured", VBool true); ("status", VStr "delivered");
       ("recipient_sha256", VStr (redacted_digest (Url.str_lower recipient)));
       ("message_sha256", VStr (sha256_hex (message_bytes env message)))] in
    pure (ensure_public_safe (VDict receipt) "delivery receipt") ;;
    mret receipt.
End worker.
End WorkerTransport.
