(* ===== verification/WorkerSources.v ===== *)
(** * Recovery worker: collecting from the sources

    [src/tools/artifact_recovery_worker_runtime/sources.py]: the pages of a
    source adapter are read until one is complete or something is wrong, and a
    receipt says how that went; then the job is validated, duplicate items are
    merged, the coverage report is drawn up and the cursors are loaded.  The
    receipt of a collection and the report have the shape of
    [source_coverage.py]'s, so they are [Coverage]'s records. *)
From S2P Require Import Prelude PyValue Sha256 Json DateTime RecoveryCommon.
From S2P Require Import GitObjects Url Collect Coverage WorkerCommon WorkerTransport.
From Stdlib Require Import Ascii.

Module WorkerSources.
Import WorkerCommon WorkerTransport.
Open Scope Z_scope.

Definition SOURCE_PAGE_SCHEMA : string := "artifact_recovery_source_page.v1".
Definition COVERAGE_SCHEMA : string := "artifact_recovery_source_coverage.v1".
Definition CURSORS_SCHEMA : string := "artifact_recovery_cursors.v1".
Definition SOURCE_AGENT : string := "ai-agent-coordinator-artifact-source/1".

(** The high-water mark is a text when this run set it, and otherwise what the
    cursor file had. *)
Record source_collection : Type := SourceCollection {
  spec : source_spec;
  collected_items : list items;
  receipt : Coverage.receipt;
  high_water_mark : value;
}.

(** ** Pages *)

Record page : Type := Page {
  page_captured_at : Z;
  page_watermark_at : Z;
  page_items : list items;
  page_complete : bool;
  page_next_cursor : option string;
}.

Definition page_error (msg : string) : exn := worker_error_as false "pagination" msg.

Definition read_item (index : nat) (raw : value) : result items :=
  let field := at_index "source page.items" index in
  item ← expect_object raw field;
  origin ← expect_object (dict_get item "origin") (field +:+ ".origin");
  known ← in_strings (dict_get origin "source") ORIGIN_SOURCES;
  raise_if (negb known) (worker_error (field +:+ ".origin.source is unsupported")) ;;
  Ok item.

Definition _validate_page (raw : items) (s : source_spec) : result page :=
  strict_keys raw "source page"
    ["schema_version"; "source"; "captured_at"; "watermark_at"; "items"; "complete"; "next_cursor"] ;;
  raise_if (negb (is_text (dict_get raw "schema_version") SOURCE_PAGE_SCHEMA))
    (worker_error ("source page schema_version must be " +:+ SOURCE_PAGE_SCHEMA)) ;;
  raise_if (negb (is_text (dict_get raw "source") (source s)))
    (worker_error "source page identity does not match the configured adapter") ;;
  captured_at ← parse_instant (dict_get raw "captured_at") "source page.captured_at";
  watermark_at ← parse_instant (dict_get raw "watermark_at") "source page.watermark_at";
  latest ← instant_add captured_at (seconds (5 * 60));
  raise_if (latest <? watermark_at) (worker_error "source watermark is after captured_at") ;;
  complete ← match dict_get raw "complete" with
             | VBool b => Ok b
             | _ => Raise (worker_error "source page.complete must be boolean")
             end;
  next_cursor ← (if is_none (dict_get raw "next_cursor") then Ok None
    else
      cursor ← expect_string (dict_get raw "next_cursor") "source page.next_cursor" 512;
      raise_if (negb (CURSOR_RE cursor))
        (worker_error "source page.next_cursor has an invalid shape") ;;
      Ok (Some cursor));
  raw_items ← expect_list (dict_get raw "items") "source page.items" MAX_ITEMS;
  items ← map_enum 0 raw_items read_item;
  Ok (Page captured_at watermark_at items complete next_cursor).

(** ** Receipts *)

Definition receipt_age (window_end watermark_at : Z) : Z :=
  Z.max 0 (elapsed_seconds window_end watermark_at).

(** What the loop over the pages has so far. *)
Record progress : Type := Progress {
  pages_read : Z;
  items_so_far : list items;
  cursor : option string;
  seen_cursors : list string;
  captured_at : Z;
  watermark_at : Z;
}.

Section collect.
Context (env : environment) (config : worker_config).
Context (s : source_spec) (window_start window_end : Z) (prior_high_water_mark : value).

Definition _success_receipt (p : progress) : Coverage.receipt :=
  let age := receipt_age window_end (watermark_at p) in
  let fresh := age <=? max_age_seconds s in
  Coverage.Receipt (source s) (redacted_digest (identity s)) (sha256_value (strs (capabilities s)))
    (format_instant window_start) (format_instant window_end) (format_instant (captured_at p))
    (format_instant (watermark_at p)) (max_age_seconds s) age
    (Coverage.Pagination true true true (pages_read p) (Z.of_nat (length (items_so_far p)))
       (redacted_digest <$> cursor p))
    "complete" (if fresh then "complete" else "stale")
    (if fresh then None else Some "stale_watermark") (negb fresh).

Definition _failure_receipt (state error_class : string) (retryable : bool) (pages_read items_read : Z)
    (watermark : Z) (terminal_cursor : option string) : Coverage.receipt :=
  Coverage.Receipt (source s) (redacted_digest (identity s)) (sha256_value (strs (capabilities s)))
    (format_instant window_start) (format_instant window_end) (format_instant window_end)
    (format_instant watermark) (max_age_seconds s) (receipt_age window_end watermark)
    (Coverage.Pagination (0 <? pages_read) false false pages_read items_read
       (redacted_digest <$> terminal_cursor))
    state state (Some error_class) retryable.

(** ** The loop over the pages *)

Inductive step : Type :=
  | Continue (p : progress)
  | Finished (p : progress)
  | Stopped (p : progress) (e : exn).

Definition page_url (cursor : option string) : string :=
  endpoint s +:+ "?" +:+ Url.urlencode
    ([("window_start", format_instant window_start); ("window_end", format_instant window_end);
      ("limit", str_int (source_page_size config)); ("include_unresolved", "true")]
     ++ match cursor with Some c => [("cursor", c)] | None => [] end
     ++ if truthy prior_high_water_mark
        then [("high_water_mark", py_str prior_high_water_mark)] else []).

Definition fetch_page (token : string) (p : progress) : worker page :=
  '(_, response) ← http_request env config "GET" (page_url (cursor p)) token None SOURCE_AGENT;
  match response with
  | None => raise (page_error "source adapter returned an empty response")
  | Some raw => pure (_validate_page raw s)
  end.

(** What a valid page adds, and whether it is the last. *)
Definition take_page (p : progress) (page : page) : step :=
  let p := Progress (pages_read p + 1) (items_so_far p) (cursor p) (seen_cursors p)
             (captured_at p) (watermark_at p) in
  if max_pages_per_source config <? pages_read p
  then Stopped p (page_error "source adapter exceeded the page limit") else
  let p := Progress (pages_read p) (items_so_far p ++ page_items page) (cursor p) (seen_cursors p)
             (Z.max (captured_at p) (page_captured_at page))
             (Z.max (watermark_at p) (page_watermark_at page)) in
  if MAX_ITEMS <? Z.of_nat (length (items_so_far p))
  then Stopped p (page_error "source adapter exceeded the item limit") else
  if page_complete page then
    match page_next_cursor page with
    | Some _ => Stopped p (page_error "complete source page must not contain next_cursor")
    | None => Finished p
    end
  else
    match page_next_cursor page with
    | None => Stopped p (page_error "partial source page requires next_cursor")
    | Some next =>
        if mem_str next (seen_cursors p) || eq_opt next (cursor p)
        then Stopped p (page_error "source adapter repeated a pagination cursor")
        else Continue (Progress (pages_read p) (items_so_far p) (Some next)
               (next :: seen_cursors p) (captured_at p) (watermark_at p))
    end.

Definition read_page (token : string) (p : progress) : worker step :=
  catch (page ← fetch_page token p; mret (take_page p page)) (λ e, mret (Stopped p e)).

(** [while True]; [Continue] is what is left when the fuel is gone. *)
Fixpoint read_pages (fuel : nat) (token : string) (p : progress) : worker step :=
  match fuel with
  | O => mret (Continue p)
  | S fuel =>
      step ← read_page token p;
      match step with
      | Continue p => read_pages fuel token p
      | _ => mret step
      end
  end.

Definition start : progress := Progress 0 [] None [] window_end window_start.
(** One page more than the limit allows. *)
Definition page_fuel : nat := S (Z.to_nat (max_pages_per_source config)).
Definition out_of_fuel : exn := Exn AssertionError "out of fuel".

Definition collect : worker source_collection :=
  let token := env_or (environ env) (token_env s) EmptyString in
  if Url.is_empty token then
    mret (SourceCollection s []
      (_failure_receipt "unauthorized" "authorization" false 0 0 window_start None)
      prior_high_water_mark)
  else
    step ← read_pages page_fuel token start;
    match step with
    | Continue _ => raise out_of_fuel
    | Stopped p e =>
        mret (SourceCollection s (items_so_far p)
          (_failure_receipt (if pages_read p =? 0 then "unavailable" else "partial")
             (error_class e) (retryable e) (pages_read p) (Z.of_nat (length (items_so_far p)))
             (watermark_at p) (cursor p))
          prior_high_water_mark)
    | Finished p =>
        let receipt := _success_receipt p in
        mret (SourceCollection s (items_so_far p) receipt
          (if String.eqb (Coverage.state receipt) "complete"
           then VStr (format_instant (watermark_at p)) else prior_high_water_mark))
    end.
End collect.

(** ** The job *)

Definition MANDATORY_FORBIDDEN : list string :=
  ["reuse_chat_pasted_credentials"; "force_push"; "direct_default_branch_write";
   "bypass_protection"; "auto_merge"; "claim_delivery_without_remote_evidence"].

(** [set(values)]; an element without a hash raises. *)
Definition hashed (values : list value) : result unit :=
  for_each values (λ v _, text_key v ;; Ok tt) tt.

Definition validate_job (job : items) : result (string * items * string) :=
  raise_if (negb (is_text (dict_get job "task_type") TASK_TYPE))
    (worker_error "worker accepts only artifact_recovery jobs") ;;
  job_id ← expect_string (dict_get job "id") "job.id" 200;
  payload ← expect_object (dict_get job "payload") "job.payload";
  strict_keys payload "job.payload"
    ["schema_version"; "run"; "tracking"; "source_contract"; "ledger_contract";
     "detection_contract"; "delivery_contract"; "allowed_actions"; "forbidden_actions"] ;;
  raise_if (negb (is_text (dict_get payload "schema_version") JOB_SCHEMA))
    (worker_error ("job.payload.schema_version must be " +:+ JOB_SCHEMA)) ;;
  run ← expect_object (dict_get payload "run") "job.payload.run";
  run_key ← expect_string (dict_get run "run_key") "job.payload.run.run_key" 200;
  raise_if (negb (RUN_KEY_RE run_key))
    (worker_error "job.payload.run.run_key has an invalid shape") ;;
  forbidden ← expect_list (dict_get payload "forbidden_actions") "job.payload.forbidden_actions" 64;
  hashed forbidden ;;
  raise_if (negb (forallb (λ action, existsb (λ v, is_text v action) forbidden) MANDATORY_FORBIDDEN))
    (worker_error "job payload is missing mandatory forbidden actions") ;;
  ensure_public_safe (VDict payload) "job.payload" ;;
  Ok (job_id, payload, run_key).

(** ** Duplicate items *)

(** The key of an item: source, identifier, owner and repository, in one text. *)
Definition item_key (item : items) : result string :=
  origin ← expect_object (dict_get item "origin") "item.origin";
  target ← expect_object (dict_get item "target") "item.target";
  source ← expect_string (dict_get origin "source") "item.origin.source" 32;
  id ← expect_string (dict_get origin "id") "item.origin.id" 200;
  owner ← expect_string (dict_get target "owner") "item.target.owner" 39;
  repository ← expect_string (dict_get target "repository") "item.target.repository" 100;
  Ok (str_join "|" [source; id; owner; repository]).

Definition keyed : Type := list (string * (string * items)).
Definition add_item (item : items) (by_key : keyed) : result keyed :=
  key ← item_key item;
  let digest := sha256_value (VDict item) in
  raise_if (match assoc_get by_key key with
            | Some prior => negb (String.eqb prior.1 digest)
            | None => false
            end) (worker_error "source adapters returned conflicting duplicate items") ;;
  Ok (assoc_set by_key key (digest, item)).

(** The four texts items are sorted by, in the order of tuples. *)
Definition sort_key (item : items) : (string * string) * (string * string) :=
  let origin := object_at item "origin" in
  let target := object_at item "target" in
  ((text_at origin "source", text_at origin "id"),
   (text_at target "owner", text_at target "repository")).
Definition item_leb (a b : items) : bool :=
  let '(origin, target) := sort_key a in
  let '(origin', target') := sort_key b in
  if bool_decide (origin = origin') then str_pair_leb target target'
  else str_pair_leb origin origin'.

Definition _deduplicate_items (all : list items) : result (list items) :=
  by_key ← for_each all add_item [];
  Ok (stable_sort item_leb (map (λ entry, entry.2.2) by_key)).

(** ** The coverage report *)

Definition state_among (states : list (string * string)) (among : list string) (name : string)
  : bool :=
  match assoc_get states name with Some state => mem_str state among | None => false end.

Definition coverage_summary (m : source_manifest_value) (states : list (string * string))
  : Coverage.summary :=
  let blocked := sorted_strs
    (List.filter (state_among states ["unauthorized"; "not_configured"; "excluded"])
       (required_sources m)) in
  let partial := sorted_strs
    (List.filter (state_among states ["partial"; "unavailable"; "stale"]) (required_sources m)) in
  Coverage.Summary
    (if negb (bool_decide (blocked = [])) then "blocked"
     else if negb (bool_decide (partial = [])) then "partial" else "complete")
    (Z.of_nat (length (required_sources m))) (Z.of_nat (length (optional_sources m)))
    (sorted_strs (List.filter (state_among states ["complete"]) (map fst states)))
    partial blocked (sort_items states).

Definition build_coverage (m : source_manifest_value) (collections : list source_collection)
    (generated_at : Z) : result items :=
  let receipts := map receipt collections in
  let states := foldl (λ states r, assoc_set states (Coverage.source r) (Coverage.state r))
    [] receipts in
  let report := Coverage.Report (format_instant generated_at)
    (Coverage.Policy (required_sources m) (optional_sources m) 300)
    (sort_by Coverage.source receipts) (coverage_summary m states) in
  let document := with_digest "report_sha256" (Coverage.report_items report) in
  ensure_public_safe (VDict document) "coverage" ;;
  Ok document.

(** ** The cursors *)

Definition cursor_state (sources : items) : items :=
  [("schema_version", VStr CURSORS_SCHEMA); ("sources", VDict sources)].

Definition load_cursor_state (file : option value) : result items :=
  match file with
  | None => Ok (cursor_state [])
  | Some v =>
      root ← expect_object v "cursor state";
      raise_if (negb (is_text (dict_get root "schema_version") CURSORS_SCHEMA))
        (worker_error "cursor state has an unsupported schema") ;;
      sources ← expect_object (dict_get root "sources") "cursor state.sources";
      Ok (cursor_state sources)
  end.
End WorkerSources.
