(* ===== verification/WorkerEngine.v ===== *)
(** * Recovery worker: a job from claim to report

    [src/tools/artifact_recovery_worker_runtime/engine.py] and the loop of
    [src/tools/run_continuous_artifact_recovery_worker.py].  [run] is the
    source's [RecoveryEngine.run] in three parts: [gather] collects and
    validates, [commit] merges into the files the workers share, inside one
    fenced transaction, and [conclude] decides the outcome and reports it. *)
From S2P Require Import Prelude PyValue Sha256 Json DateTime RecoveryCommon.
From S2P Require Import GitObjects Url Collect Observation Ledger Coverage.
From S2P Require Import WorkerCommon WorkerTransport WorkerSources.
From Stdlib Require Import Ascii.

Module WorkerEngine.
Import WorkerCommon WorkerTransport WorkerSources.
Open Scope Z_scope.

Definition OBSERVATION_SCHEMA : string := "artifact_recovery_observation.v1".
Definition BATCH_SIZE : nat := 50.

(** ** Merging cursors *)

Definition cursor_candidate (c : source_collection) : value :=
  VDict [("high_water_mark", high_water_mark c);
         ("coverage_state", VStr (Coverage.state (receipt c)));
         ("receipt_sha256", VStr (sha256_value (Coverage.receipt_value (receipt c))))].

(** Whether the watermark of the file is later than the collection's. *)
Definition is_ahead (name : string) (prior mark : value) : result bool :=
  let field := "cursor state.sources." +:+ name in
  prior ← expect_object prior field;
  prior_watermark ← expect_string (dict_get prior "high_water_mark") (field +:+ ".high_water_mark") 128;
  before ← parse_instant (VStr prior_watermark) (field +:+ ".high_water_mark");
  now ← parse_instant mark ("collection." +:+ name +:+ ".high_water_mark");
  Ok (now <? before).

Definition merge_cursor (c : source_collection) (sources : items) : result items :=
  let name := source (spec c) in
  if is_none (high_water_mark c) then Ok sources else
  let prior := dict_get sources name in
  ahead ← (if is_none prior then Ok false else is_ahead name prior (high_water_mark c));
  Ok (if ahead : bool then sources else dict_set sources name (cursor_candidate c)).

Definition _merge_cursor_state (current : items) (collections : list source_collection)
    (updated_at : Z) : result items :=
  raise_if (negb (is_text (dict_get current "schema_version") CURSORS_SCHEMA))
    (worker_error "cursor state has an unsupported schema") ;;
  sources ← expect_object (dict_get current "sources") "cursor state.sources";
  merged ← for_each collections merge_cursor sources;
  Ok [("schema_version", VStr CURSORS_SCHEMA); ("updated_at", VStr (format_instant updated_at));
      ("sources", VDict (sort_items merged))].

(** ** Batches *)

(** [[l[i:i + n] for i in range(0, len(l), n)]] *)
Fixpoint slices {A} (fuel n : nat) (l : list A) : list (list A) :=
  match fuel, l with
  | S fuel, _ :: _ => take n l :: slices fuel n (drop n l)
  | _, _ => []
  end.
Definition chunks (all_items : list items) : list (list items) :=
  match slices (length all_items) BATCH_SIZE all_items with
  | [] => [[]]
  | batches => batches
  end.

Definition dict_of (v : value) : items := match v with VDict d => d | _ => [] end.

(** The observation of one chunk: [{**observation, "batch": ..., "items": chunk}]. *)
Definition chunk_observation (observation : Observation.observation) (run_key : string)
    (count index : nat) (chunk : list items) : items :=
  let last := (S index =? count)%nat in
  let batch := Observation.observed_batch observation in
  let batch' :=
    dict_set (dict_set (dict_set (dict_of (Observation.batch_value batch))
      "id" (VStr (run_key +:+ ":batch:" +:+ str_nat (S index))))
      "complete" (VBool (Observation.batch_complete batch && last)))
      "next_cursor" (if last then VNone else VStr ("batch:" +:+ str_nat (S (S index)))) in
  dict_set (dict_set (Observation.observation_items observation) "batch" (VDict batch'))
    "items" (VList (map VDict chunk)).

Definition reconcile_chunks (observation : Observation.observation) (run_key now target_task_id : string)
    (batches : list (list items)) (previous : option Ledger.ledger)
  : result (option Ledger.ledger * option Ledger.queue) :=
  for_enum 0 batches (λ index chunk state,
    '(ledger, queue) ← Ledger.reconcile
      (chunk_observation observation run_key (length batches) index chunk)
      state.1 now (Z.of_nat BATCH_SIZE) target_task_id;
    Ok (Some ledger, Some queue)) (previous, None).

(** ** The run *)

(** What is known once everything is collected and validated. *)
Record gathered : Type := Gathered {
  job_id : string;
  run_key : string;
  target_task_id : string;
  started_at : Z;
  generated_at : Z;
  manifest : source_manifest_value;
  collections : list source_collection;
  all_items : list items;
  observation : Observation.observation;
  coverage : Coverage.report;
  run_dir : string;
}.

Section engine.
Context (env : environment) (config : worker_config).
Context (window_hours overlap_hours : Z).

Definition cursors_path : string := state_dir config +:+ "/cursors.json".
Definition ledger_path : string := state_dir config +:+ "/ledger.json".

(** The shared files as the transaction sees them. *)
Definition read_cursors : worker items := λ w,
  pure (load_cursor_state (cursors_file (shared w))) (World (log w ++ [ReadFile cursors_path]) (shared w)).
Definition read_ledger : worker (option Ledger.ledger) := λ w,
  (Ok (ledger_file (shared w)), World (log w ++ [ReadFile ledger_path]) (shared w)).
Definition save_ledger (l : Ledger.ledger) : worker unit :=
  write_file env ledger_path (SavedLedger l) (λ files, Shared (cursors_file files) (Some l)).
Definition save_cursors (v : items) : worker unit :=
  pure (ensure_public_safe (VDict v) cursors_path) ;;
  write_file env cursors_path (SavedCursors (VDict v))
    (λ files, Shared (Some (VDict v)) (ledger_file files)).

Definition prior_watermark (sources : items) (s : source_spec) : value :=
  match dict_get sources (source s) with
  | VDict prior => dict_get prior "high_water_mark"
  | _ => VNone
  end.

Definition collect_all (m : source_manifest_value) (sources : items) (window_start window_end : Z)
  : worker (list source_collection) :=
  each (specs m) (λ s collections,
    c ← collect env config s window_start window_end (prior_watermark sources s);
    mret (collections ++ [c])) [].

Definition observation_document (run_key : string) (complete : value)
    (window_start window_end generated_at : Z) (all_items : list items) : items :=
  [("schema_version", VStr OBSERVATION_SCHEMA);
   ("generated_at", VStr (format_instant generated_at));
   ("batch", VDict [("id", VStr run_key); ("complete", complete); ("next_cursor", VNone);
      ("source_window", VStr (format_instant window_start +:+ "/" +:+ format_instant window_end))]);
   ("items", VList (map VDict all_items))].

(** What the collections amount to: the observation and the coverage report,
    both accepted by the validators of [artifact_recovery]. *)
Definition assemble (m : source_manifest_value) (run_key : string) (window_start window_end generated_at : Z)
    (collections : list source_collection)
  : result (list items * Observation.observation * Coverage.report) :=
  coverage ← build_coverage m collections generated_at;
  all_items ← _deduplicate_items (concat (map collected_items collections));
  let document := observation_document run_key
    (dict_get (object_at coverage "summary") "complete") window_start window_end generated_at
    all_items in
  ensure_public_safe (VDict document) "observation" ;;
  observation ← Observation.validate_observation document;
  report ← Coverage.build_source_coverage_report (VDict coverage)
    (Some (format_instant generated_at));
  Ok (all_items, observation, report).

Definition gather (job : items) : worker gathered :=
  '(job_id, payload, run_key) ← pure (validate_job job);
  started_at ← utc_now env;
  document ← load_json_file env (source_manifest config) "source manifest";
  manifest ← pure (from_value document);
  pure (enforce_job_contract manifest payload) ;;
  run ← pure (expect_object (dict_get payload "run") "job.payload.run");
  scheduled_for ← pure (parse_instant (dict_get run "scheduled_for") "job.payload.run.scheduled_for");
  latest ← pure (instant_add started_at (seconds 3600));
  pure (raise_if (latest <? scheduled_for)
    (worker_error_as false "clock_skew" "job schedule is beyond the allowed clock skew")) ;;
  window_start ← pure (instant_add started_at (seconds (- (3600 * (window_hours + overlap_hours)))));
  cursors ← state_transaction env read_cursors;
  collections ← collect_all manifest (object_at cursors "sources") window_start started_at;
  generated_at ← utc_now env;
  '(all_items, observation, coverage) ←
    pure (assemble manifest run_key window_start started_at generated_at collections);
  component ← pure (safe_run_component run_key);
  let run_dir := state_dir config +:+ "/runs/" +:+ component in
  run_file env (run_dir +:+ "/observation.json") (VDict (Observation.observation_items observation)) ;;
  run_file env (run_dir +:+ "/source-coverage.json") (Coverage.report_value coverage) ;;
  tracking ← pure (expect_object (dict_get payload "tracking") "job.payload.tracking");
  target_task_id ← pure (expect_string (dict_get tracking "local_cli_task_id")
    "job.payload.tracking.local_cli_task_id" 200);
  mret (Gathered job_id run_key target_task_id started_at generated_at manifest collections all_items
    observation coverage run_dir).

(** The fenced read-modify-write of the ledger and the cursors. *)
Definition commit_files (g : gathered) : worker (Ledger.ledger * Ledger.queue) :=
  cursors ← read_cursors;
  previous ← read_ledger;
  now ← pure (now_utc 0 (Some (format_instant (generated_at g))));
  reconciled ← pure (reconcile_chunks (observation g) (run_key g) now (target_task_id g)
    (chunks (all_items g)) previous);
  match reconciled with
  | (Some ledger, Some queue) =>
      save_ledger ledger ;;
      merged ← pure (_merge_cursor_state cursors (collections g) (generated_at g));
      save_cursors merged ;;
      mret (ledger, queue)
  | _ => raise (Exn AssertionError EmptyString)
  end.
Definition commit (g : gathered) : worker (Ledger.ledger * Ledger.queue) :=
  state_transaction env (commit_files g).

(** ** The outcome *)

Definition is_complete (coverage : Coverage.report) : bool :=
  String.eqb (Coverage.status (Coverage.report_summary coverage)) "complete".

Definition terminal_gates (g : gathered) (ledger_summary : items) : items :=
  let counts := object_at ledger_summary "finding_counts" in
  [("source_coverage_complete", VBool (is_complete (coverage g)));
   ("source_pagination_complete",
     VBool (Observation.batch_complete (Observation.observed_batch (observation g))));
   ("unclassified_items", VInt 0);
   ("unowned_items", VInt (int_at counts "ownership_ambiguous"));
   ("missing_evidence_items", VInt (int_at counts "remote_evidence_incomplete"));
   ("actionable_items", VInt (int_at ledger_summary "actionable"));
   ("blocked_items", VInt (int_at ledger_summary "blocked"))].
Definition gate_open (gate : string * value) : bool :=
  match gate.2 with VBool b => b | VInt z => z =? 0 | _ => false end.

Definition has_succeeded (g : gathered) (ledger_summary : items) : bool :=
  is_complete (coverage g)
  && Observation.batch_complete (Observation.observed_batch (observation g))
  && (int_at ledger_summary "actionable" =? 0) && (int_at ledger_summary "blocked" =? 0)
  && forallb gate_open (terminal_gates g ledger_summary).

Definition completion_items (g : gathered) (completed_at : Z) (queue : Ledger.queue)
    (summary : items) : items :=
  let ledger_summary := object_at summary "summary" in
  let succeeded := has_succeeded g ledger_summary in
  [("schema_version", VStr COMPLETION_SCHEMA); ("job_id", VStr (job_id g));
   ("run_key", VStr (run_key g)); ("run_key_sha256", VStr (redacted_digest (run_key g)));
   ("worker_id_sha256", VStr (redacted_digest (worker_id config)));
   ("started_at", VStr (format_instant (started_at g)));
   ("completed_at", VStr (format_instant completed_at));
   ("outcome", VStr (if succeeded then "succeeded" else "blocked"));
   ("source_coverage", Coverage.summary_value (Coverage.report_summary (coverage g)));
   ("summary", VDict ledger_summary);
   ("terminal_gates", VDict (terminal_gates g ledger_summary));
   ("artifact_digests", VDict
     [("observation_sha256",
        VStr (sha256_value (VDict (Observation.observation_items (observation g)))));
      ("source_coverage_sha256", VStr (Coverage.report_sha256 (coverage g)));
      ("ledger_sha256", dict_get summary "ledger_digest");
      ("cli_queue_sha256", VStr (sha256_value (Ledger.queue_value queue)))]);
   ("retryable", VBool (negb succeeded))].

(** The digest of everything but itself. *)
Definition sealed (d : items) : items :=
  dict_set d "completion_sha256"
    (VStr (sha256_value (VDict (List.filter (λ kv, negb (String.eqb kv.1 "completion_sha256")) d)))).

Definition conclude (g : gathered) (ledger : Ledger.ledger) (queue : Ledger.queue) : worker items :=
  ledger_run_file env (run_dir g +:+ "/ledger.json") (VDict (Ledger.ledger_items ledger)) ;;
  ledger_run_file env (run_dir g +:+ "/cli-queue.json") (Ledger.queue_value queue) ;;
  document ← pure (Ledger.summary_document ledger);
  let summary := dict_of document in
  let ledger_summary := object_at summary "summary" in
  completed_at ← utc_now env;
  let completion := with_digest "completion_sha256" (completion_items g completed_at queue summary) in
  pure (ensure_public_safe (VDict completion) "completion") ;;
  delivery ← deliver_report_email env completion;
  run_file env (run_dir g +:+ "/report-delivery.json") (VDict delivery) ;;
  let completion := sealed (completion ++ [("report_delivery", VDict delivery)]) in
  run_file env (run_dir g +:+ "/completion.json") (VDict completion) ;;
  emit_metric env "artifact_recovery_terminal"
    [("job_id_sha256", VStr (redacted_digest (job_id g)));
     ("outcome", dict_get completion "outcome");
     ("coverage", VStr (Coverage.status (Coverage.report_summary (coverage g))));
     ("entries", dict_get ledger_summary "entries");
     ("actionable", dict_get ledger_summary "actionable");
     ("blocked", dict_get ledger_summary "blocked");
     ("delivery", dict_get delivery "status")] ;;
  mret completion.

Definition run (job : items) : worker items :=
  g ← gather job;
  '(ledger, queue) ← commit g;
  conclude g ledger queue.

(** ** [process_one] *)

Definition duration_ms : worker value := λ w, (Ok (VInt (elapsed_ms env (log w))), w).

Definition UNRESOLVED : string := "artifact recovery has unresolved or incomplete evidence".
Definition outcome_is (completion : items) (outcome : string) : bool :=
  is_text (dict_get completion "outcome") outcome.

Definition attempt_job (job_id : string) (job : items) : worker bool :=
  completion ← with_heartbeat env (run job);
  let succeeded := outcome_is completion "succeeded" in
  complete env config job_id succeeded completion
    (if succeeded then None else Some UNRESOLVED) (negb succeeded) ;;
  duration ← duration_ms;
  emit_metric env "artifact_recovery_job_completed"
    [("job_id_sha256", VStr (redacted_digest job_id)); ("outcome", dict_get completion "outcome");
     ("duration_ms", duration)] ;;
  mret true.

Definition failure_document (job_id : string) (e : exn) (now : Z) : items :=
  with_digest "completion_sha256"
    [("schema_version", VStr COMPLETION_SCHEMA); ("job_id", VStr job_id);
     ("worker_id_sha256", VStr (redacted_digest (worker_id config)));
     ("outcome", VStr "failed"); ("error_class", VStr (error_class e));
     ("retryable", VBool (retryable e)); ("completed_at", VStr (format_instant now))].

Definition report_failure (job_id : string) (e : exn) : worker bool :=
  now ← utc_now env;
  catch (complete env config job_id false (failure_document job_id e now) (Some (exn_msg e))
           (retryable e))
        (λ _, mret tt) ;;
  duration ← duration_ms;
  emit_metric env "artifact_recovery_job_failed"
    [("job_id_sha256", VStr (redacted_digest job_id)); ("error_class", VStr (error_class e));
     ("retryable", VBool (retryable e)); ("duration_ms", duration)] ;;
  raise e.

Definition process_one : worker bool :=
  claimed ← claim env config;
  match claimed with
  | None => emit_metric env "artifact_recovery_claim_empty" [] ;; mret false
  | Some job =>
      job_id ← pure (expect_string (dict_get job "id") "job.id" 200);
      catch (attempt_job job_id job) (report_failure job_id)
  end.

(** ** The loop of the process

    [stop] is the flag the signal handlers set.  [None]: out of fuel, the loop
    is still running.  An exception that leaves [main] ends the process with a
    traceback. *)

Section serve.
Context (stop : list event → bool).

Fixpoint serve (fuel : nat) (w : world) : result (option Z) * world :=
  match fuel with
  | O => (Ok None, w)
  | S fuel =>
      if stop (log w) then (Ok (Some 0), w) else
      match process_one w with
      | (Ok _, w) => if once config then (Ok (Some 0), w) else serve fuel w
      | (Raise e, w) =>
          if is_worker_error e then
            if once config || negb (retryable e) then (Ok (Some 2), w)
            else if stop (log w) then (Ok (Some 0), w) else serve fuel w
          else if bool_decide (exn_cls e = OSError) then (Ok (Some 2), w)
          else (Raise e, w)
      end
  end.
End serve.
End engine.
End WorkerEngine.
