(* ===== verification/WorkerExample.v ===== *)
(** * Recovery worker: an example

    A worker with one source, the job it claims and the servers it talks to.
    The clock advances by [tick] at every reading; everything else answers at
    once and well. *)
From S2P Require Import Prelude PyValue Sha256 Json DateTime RecoveryCommon.
From S2P Require Import GitObjects Url Collect Observation ObservationTheorems Ledger Coverage.
From S2P Require Import WorkerCommon WorkerTransport WorkerSources WorkerEngine.
From Stdlib Require Import Ascii.

Module WorkerExample.
Import WorkerCommon WorkerTransport WorkerSources WorkerEngine.
Open Scope Z_scope.

Definition example_now : Z :=
  match fromisoformat "2026-08-11T04:00:00+00:00" with Some (t, _) => t | None => 0 end.

Definition example_config : worker_config :=
  Config "https://coordinator.test" "token" "/etc/sources.json" "/state" "worker-1"
    300 20 2097152 200 50 900 30 true.

Definition example_spec : source_spec :=
  Spec "chatgpt" "https://source.test" "SOURCE_TOKEN" "account" ["read"] 900 true.

Definition example_manifest : value :=
  VDict [("schema_version", VStr SOURCE_MANIFEST_SCHEMA);
    ("required_sources", strs ["chatgpt"]); ("optional_sources", VList []);
    ("sources", VList [VDict
      [("source", VStr "chatgpt"); ("endpoint", VStr "https://source.test");
       ("token_env", VStr "SOURCE_TOKEN"); ("identity", VStr "account");
       ("capabilities", strs ["read"])]])].

(** What the adapter's page says: its watermark, its items, the next cursor. *)
Definition example_page (watermark : Z) (raw_items : list value) (next_cursor : option string)
  : value :=
  VDict [("schema_version", VStr SOURCE_PAGE_SCHEMA); ("source", VStr "chatgpt");
    ("captured_at", VStr (format_instant watermark)); ("watermark_at", VStr (format_instant watermark));
    ("items", VList raw_items); ("complete", VBool (negb (is_some next_cursor)));
    ("next_cursor", opt_str next_cursor)].

Definition example_job : items :=
  [("task_type", VStr TASK_TYPE); ("id", VStr "job-1"); ("claimed_by", VNone);
   ("payload", VDict
     [("schema_version", VStr JOB_SCHEMA);
      ("run", VDict [("run_key", VStr "nightly-2026-08-11");
                     ("scheduled_for", VStr "2026-08-11T04:00:00Z")]);
      ("tracking", VDict [("local_cli_task_id", VStr DEFAULT_CLI_TASK_ID)]);
      ("source_contract", VDict []);
      ("forbidden_actions", strs MANDATORY_FORBIDDEN)])].

Definition example_claim : value := VDict [("job", VDict example_job)].

(** The example server puts the documents' names into its bodies. *)
Definition example_env (tick : Z) (page : value) : environment := {|
  reply := λ _ r,
    if ends_with (WorkerTransport.url r) "/claim" then HttpResponse 200 "job"
    else if String.eqb (method r) "GET" then HttpResponse 200 "page" else HttpResponse 200 "{}";
  json_loads := λ body,
    if String.eqb body "job" then Ok example_claim
    else if String.eqb body "page" then Ok page else Ok (VDict []);
  clock := λ h, example_now + tick * Z.of_nat (length (List.filter
    (λ e, match e with ReadClock => true | _ => false end) h));
  elapsed_ms := λ _, 0;
  environ := λ name, if String.eqb name "SOURCE_TOKEN" then Some "token" else None;
  read_json := λ _ _, Some (Ok example_manifest);
  disk := λ _ _, Ok tt;
  fence := λ _ files, Acquired files;
  beats := λ _, [];
  smtp := λ _ _ _, Ok tt;
  message_text := content;
  message_bytes := content;
|}.

Definition nothing_saved : shared_files := Shared None None.
Definition example_world : world := World [] nothing_saved.
Definition done_page : value := example_page example_now [ObservationTheorems.delivered_item] None.

(** The collection of the example's source, and the file its merge writes. *)
Definition example_start : Z := example_now - 102 * 3600 * 1000000.
Definition example_collected (page : value) : result source_collection * world :=
  collect (example_env 0 page) example_config example_spec example_start example_now VNone
    example_world.
Definition example_collections (page : value) : list source_collection :=
  match example_collected page with (Ok c, _) => [c] | _ => [] end.
Definition example_merged (page : value) : items :=
  match _merge_cursor_state (cursor_state []) (example_collections page) example_now with
  | Ok merged => merged
  | Raise _ => []
  end.

(** What the example has gathered, and how its job ends. *)
Definition example_gathered (tick : Z) (page : value) : result gathered * world :=
  gather (example_env tick page) example_config 96 6 example_job example_world.
Definition example_run (tick : Z) (page : value) : result items * world :=
  run (example_env tick page) example_config 96 6 example_job example_world.
Definition example_processed (tick : Z) (page : value) : result bool * world :=
  process_one (example_env tick page) example_config 96 6 example_world.
End WorkerExample.
