(* ===== verification/WorkerCollectTheorems.v ===== *)
(** * Recovery worker: results about collections

    Whatever a source adapter answers, its collection ends within the limit of
    pages, never asks the same cursor twice, and its receipt says complete only
    when the adapter said so on a page that was read; the high-water mark moves
    only then. *)
From S2P Require Import Prelude PyValue Sha256 Json DateTime RecoveryCommon.
From S2P Require Import GitObjects Url Collect Coverage WorkerCommon WorkerTransport WorkerSources.
From S2P Require Import WorkerExample.
From Stdlib Require Import Ascii.

Module WorkerCollectTheorems.
Import WorkerCommon WorkerTransport WorkerSources.
Open Scope Z_scope.

(** ** Pages *)

Lemma parse_instant_Ok v f t : parse_instant v f = Ok t → representable t = true.
Proof.
  unfold parse_instant. intros H. repeat case_match; try discriminate H; by eapply to_utc_Ok.
Qed.

Record page_ok (s : source_spec) (p : page) : Prop := {
  page_captured : representable (page_captured_at p) = true;
  page_watermark : representable (page_watermark_at p) = true;
  page_items_bound : Z.of_nat (length (page_items p)) <= MAX_ITEMS;
}.

Lemma validate_page_ok raw s p : _validate_page raw s = Ok p → page_ok s p.
Proof.
  unfold _validate_page. intros H. repeat inv_step. subst.
  repeat match goal with H : parse_instant _ _ = Ok _ |- _ => apply parse_instant_Ok in H end.
  split; simpl; [done..|].
  match goal with H : map_enum _ _ _ = Ok _ |- _ => apply map_enum_length in H as -> end.
  match goal with H : expect_list _ _ _ = Ok ?l |- _ =>
    unfold expect_list in H; destruct (dict_get raw "items"); try discriminate H; repeat inv_step; subst end.
  by bool_hyps.
Qed.

(** ** One page of the loop *)

Section collect.
Context (env : environment) (config : worker_config).
Context (s : source_spec) (window_start window_end : Z) (prior : value).

Let url_at := page_url config s window_start window_end prior.
Definition ask (token : string) (cursor : option string) : event :=
  Sent (Request "GET" (page_url config s window_start window_end prior cursor)
    (if Url.is_empty token then None else Some token) None SOURCE_AGENT).

Definition progress_of (st : step) : progress :=
  match st with Continue p | Finished p | Stopped p _ => p end.

(** What a round of the loop leads to: the page's step, or a stop that keeps
    the progress, or an exception that is not the worker's. *)
Lemma read_page_cases token p w :
  ∃ r, read_page env config s window_start window_end prior token p w =
    (r, World (log w ++ [ask token (cursor p)]) (shared w)) ∧
    match r with
    | Ok st => (∃ page, page_ok s page ∧ st = take_page config p page)
               ∨ (∃ e, is_worker_error e = true ∧ st = Stopped p e)
    | Raise e => is_worker_error e = false
    end.
Proof.
  unfold read_page, catch, fetch_page, http_request, send, mbind, worker_bind.
  destruct (read_reply _ _ _) as [[status [raw|]]|e]; simpl.
  - unfold pure. destruct (_validate_page raw s) as [page|e] eqn:Hv; simpl.
    + eexists. split; [done|]. left. exists page. split; [by eapply validate_page_ok|done].
    + destruct (is_worker_error e) eqn:He; eexists; (split; [done|]); [|done].
      right. eauto.
  - eexists. split; [done|]. right. eexists. split; [|done]. done.
  - destruct (is_worker_error e) eqn:He; eexists; (split; [done|]); [|done]. right. eauto.
Qed.

(** What holds of the progress after a page. *)
Record advanced (p q : progress) (st : step) : Prop := {
  adv_pages : pages_read q = pages_read p + 1;
  adv_items : Z.of_nat (length (items_so_far q)) <=
    Z.of_nat (length (items_so_far p)) + MAX_ITEMS;
  adv_captured : captured_at p <= captured_at q;
  adv_watermark : watermark_at p <= watermark_at q;
  adv_representable : representable (watermark_at p) = true → representable (watermark_at q) = true;
  adv_within : match st with
    | Stopped _ e => is_worker_error e = true ∧ cursor q = cursor p
    | Finished _ => pages_read q <= max_pages_per_source config ∧ cursor q = cursor p ∧
        Z.of_nat (length (items_so_far q)) <= MAX_ITEMS
    | Continue _ => pages_read q <= max_pages_per_source config ∧
        Z.of_nat (length (items_so_far q)) <= MAX_ITEMS ∧
        ∃ next, cursor q = Some next ∧ next ∉ seen_cursors p ∧
          seen_cursors q = next :: seen_cursors p
    end;
}.

Lemma take_page_advances p page :
  page_ok s page → Z.of_nat (length (items_so_far p)) <= MAX_ITEMS →
  advanced p (progress_of (take_page config p page)) (take_page config p page).
Proof.
  intros [Hc Hw Hn] Hp. unfold take_page. simpl.
  assert (representable (watermark_at p) = true →
    representable (Z.max (watermark_at p) (page_watermark_at page)) = true) as Hrep.
  { intros Hr. by destruct (Z.max_spec (watermark_at p) (page_watermark_at page)) as [[_ ->]|[_ ->]]. }
  destruct (_ <? _) eqn:Hpages; simpl; [split; simpl; try done; lia|]. bool_hyps.
  rewrite length_app, Nat2Z.inj_add. destruct (MAX_ITEMS <? _) eqn:Hitems; simpl.
  { split; simpl; rewrite ?length_app; try done; lia. }
  bool_hyps.
  destruct (page_complete page), (page_next_cursor page) as [next|]; simpl;
    try (split; simpl; rewrite ?length_app; repeat split; try done; lia).
  destruct (mem_str next (seen_cursors p) || eq_opt next (cursor p)) eqn:Hseen; simpl.
  - split; simpl; rewrite ?length_app; repeat split; try done; lia.
  - apply orb_false_iff in Hseen as [Hseen _].
    split; simpl; rewrite ?length_app; repeat split; try done; try lia.
    exists next. split; [done|]. split; [|done]. intros Hin%mem_str_In. congruence.
Qed.

(** ** The loop *)

(** The cursors asked so far, and what the loop knows of them. *)
Record asked_ok (asked : list (option string)) (p : progress) : Prop := {
  asked_NoDup : NoDup (asked ++ [cursor p]);
  asked_seen c : Some c ∈ asked ++ [cursor p] → c ∈ seen_cursors p;
  asked_pages : pages_read p = Z.of_nat (length asked);
  asked_within : pages_read p <= max_pages_per_source config;
  asked_items : Z.of_nat (length (items_so_far p)) <= MAX_ITEMS;
}.

(** How the loop ends: [asked] are all the cursors it asked, in order. *)
Definition ended (asked : list (option string)) (p : progress) (r : result step) : Prop :=
  match r with
  | Ok (Continue _) => False
  | Ok (Finished q) => pages_read q = Z.of_nat (length asked) ∧
      pages_read q <= max_pages_per_source config ∧
      Z.of_nat (length (items_so_far q)) <= MAX_ITEMS
  | Ok (Stopped q e) => is_worker_error e = true ∧ pages_read q <= Z.of_nat (length asked) ∧
      Z.of_nat (length (items_so_far q)) <= 2 * MAX_ITEMS
  | Raise e => is_worker_error e = false
  end ∧
  match r with
  | Ok st => watermark_at p <= watermark_at (progress_of st) ∧
      (representable (watermark_at p) = true → representable (watermark_at (progress_of st)) = true)
  | Raise _ => True
  end.

Lemma asked_next asked p q next :
  asked_ok asked p → pages_read q = pages_read p + 1 → pages_read q <= max_pages_per_source config →
  Z.of_nat (length (items_so_far q)) <= MAX_ITEMS → cursor q = Some next →
  next ∉ seen_cursors p → seen_cursors q = next :: seen_cursors p →
  asked_ok (asked ++ [cursor p]) q.
Proof.
  intros [Hnd Hseen Hp Hw Hi] Hpages Hmax Hitems Hc Hnew Hq. split; rewrite ?Hc, ?Hq; try done.
  - apply NoDup_app. split; [done|]. split; [|apply NoDup_singleton].
    intros x Hx ->%list_elem_of_singleton. by apply Hnew, Hseen.
  - intros c [Hin|Hin]%elem_of_app; [right; by apply Hseen|].
    apply list_elem_of_singleton in Hin as [= ->]. by left.
  - rewrite length_app. simpl. lia.
Qed.

Lemma read_pages_ends fuel token p w asked :
  asked_ok asked p → max_pages_per_source config - pages_read p < Z.of_nat fuel →
  ∃ r w' new, read_pages env config s window_start window_end prior fuel token p w = (r, w') ∧
    log w' = log w ++ map (ask token) new ∧ shared w' = shared w ∧ NoDup (asked ++ new) ∧
    Z.of_nat (length (asked ++ new)) <= max_pages_per_source config + 1 ∧
    ended (asked ++ new) p r.
Proof.
  revert p w asked. induction fuel as [|fuel IH]; intros p w asked Hok Hfuel.
  { destruct Hok. simpl in Hfuel. lia. }
  cbn [read_pages]. unfold mbind, worker_bind.
  destruct (read_page_cases token p w) as (r & Hr & Hcase). rewrite Hr.
  pose proof Hok as [Hnd _ Hpages Hmax Hitems].
  assert (Z.of_nat (length (asked ++ [cursor p])) <= max_pages_per_source config + 1 ∧
    Z.of_nat (length (asked ++ [cursor p])) = pages_read p + 1) as [Hlen Hlen']
    by (rewrite length_app; simpl; lia).
  destruct r as [st|e].
  2: { eexists _, _, [cursor p]. repeat (split; [done|]). by repeat split. }
  destruct Hcase as [(page & Hpage & ->)|(e & He & ->)].
  2: { eexists _, _, [cursor p]. repeat (split; [done|]). repeat split; simpl; try done; lia. }
  pose proof (take_page_advances p page Hpage Hitems) as [A1 A2 _ A4 A5 A6].
  destruct (take_page config p page) as [q|q|q e]; simpl in *.
  - destruct A6 as (Hq & Hqi & next & Hn1 & Hn2 & Hn3).
    destruct (IH q (World (log w ++ [ask token (cursor p)]) (shared w)) (asked ++ [cursor p]))
      as (r & w' & new & Hrun & Hlog & Hsh & Hnd' & Hl & [He1 He2]); [by eapply asked_next|lia|].
    exists r, w', (cursor p :: new). simpl in Hlog. rewrite <- app_assoc in Hlog, Hnd', Hl, He1.
    do 5 (split; [done|]). split; [exact He1|].
    destruct r; [|done]. split; [lia|]. naive_solver.
  - eexists _, _, [cursor p]. repeat (split; [done|]). repeat split; simpl; try done; lia.
  - eexists _, _, [cursor p]. repeat (split; [done|]). destruct A6.
    repeat split; simpl; try done; lia.
Qed.

(** Fuel that was enough stays enough. *)
Lemma read_pages_more fuel n token p w :
  (∀ q, (read_pages env config s window_start window_end prior fuel token p w).1 ≠ Ok (Continue q)) →
  read_pages env config s window_start window_end prior (fuel + n) token p w =
    read_pages env config s window_start window_end prior fuel token p w.
Proof.
  revert p w. induction fuel as [|fuel IH]; intros p w H; [by destruct (H p)|].
  cbn [read_pages Nat.add] in *. unfold mbind, worker_bind in *.
  destruct (read_page _ _ _ _ _ _ _ _ _) as [[[q|q|q e]|e] w']; try done. by apply IH.
Qed.

Lemma start_asked : 0 <= max_pages_per_source config →
  asked_ok [] (start window_start window_end).
Proof.
  intros Hmax. split; simpl; try done.
  - apply NoDup_singleton.
  - by intros c ?%list_elem_of_singleton.
Qed.

Lemma page_fuel_enough :
  0 <= max_pages_per_source config →
  max_pages_per_source config - pages_read (start window_start window_end) <
    Z.of_nat (page_fuel config).
Proof. unfold page_fuel. simpl. lia. Qed.

Lemma loop_ends token w :
  0 <= max_pages_per_source config →
  ∃ r w' asked, read_pages env config s window_start window_end prior (page_fuel config) token
      (start window_start window_end) w = (r, w') ∧
    log w' = log w ++ map (ask token) asked ∧ shared w' = shared w ∧ NoDup asked ∧
    Z.of_nat (length asked) <= max_pages_per_source config + 1 ∧
    ended asked (start window_start window_end) r.
Proof.
  intros Hmax.
  destruct (read_pages_ends (page_fuel config) token (start window_start window_end) w [])
    as (r & w' & asked & H); [by apply start_asked|by apply page_fuel_enough|].
  by exists r, w', asked.
Qed.

(** What a collection is: nothing was read without a token, the loop stopped,
    or it finished. *)
Inductive outcome (c : source_collection) : Prop :=
  | NotAdvanced : high_water_mark c = prior →
      Coverage.state (receipt c) ≠ "complete" → outcome c
  | Advanced p : high_water_mark c = VStr (format_instant (watermark_at p)) →
      receipt c = _success_receipt s window_start window_end p →
      Coverage.state (receipt c) = "complete" →
      receipt_age window_end (watermark_at p) <= max_age_seconds s →
      window_start <= watermark_at p →
      (representable window_start = true → representable (watermark_at p) = true) → outcome c.

Lemma collect_outcome w c w' :
  0 <= max_pages_per_source config →
  collect env config s window_start window_end prior w = (Ok c, w') →
  spec c = s ∧ Coverage.source (receipt c) = source s ∧ shared w' = shared w ∧ outcome c.
Proof.
  intros Hmax. unfold collect. destruct (Url.is_empty _).
  { intros [= <- <-]. repeat (split; [done|]). by apply NotAdvanced. }
  destruct (loop_ends (env_or (environ env) (token_env s) EmptyString) w Hmax)
    as (r & w1 & asked & Hrun & _ & Hsh & _ & _ & [He Hw]).
  unfold mbind, worker_bind. rewrite Hrun. destruct r as [[q|q|q e]|e]; [done| | |done].
  - intros [= <- <-]. repeat (split; [done|]).
    destruct (receipt_age window_end (watermark_at q) <=? max_age_seconds s) eqn:Hage.
    + apply (Advanced _ q); simpl; rewrite ?Hage; try done; [by bool_hyps|simpl in Hw; lia|].
      apply Hw.
    + apply NotAdvanced; simpl; rewrite ?Hage; done.
  - intros [= <- <-]. repeat (split; [done|]). apply NotAdvanced; [done|]. simpl.
    by destruct (pages_read q =? 0).
Qed.

(** The receipt of every collection states the age of its watermark at the end
    of the window. *)
Lemma collect_receipt w c w' :
  0 <= max_pages_per_source config →
  collect env config s window_start window_end prior w = (Ok c, w') →
  ∃ t, Coverage.watermark_at (receipt c) = format_instant t ∧
    Coverage.age_seconds (receipt c) = receipt_age window_end t ∧
    (representable window_start = true → representable t = true).
Proof.
  intros Hmax. unfold collect. destruct (Url.is_empty _); [intros [= <- <-]; by exists window_start|].
  destruct (loop_ends (env_or (environ env) (token_env s) EmptyString) w Hmax)
    as (r & w1 & asked & Hrun & _ & _ & _ & _ & [He Hw]).
  unfold mbind, worker_bind. rewrite Hrun.
  destruct r as [[q|q|q e]|e]; [done| | |done]; intros [= <- <-]; exists (watermark_at q);
    (split; [done|]; split; [done|]; apply Hw).
Qed.
End collect.

(** C26: Reading a source ends, whatever its adapter answers.  At most one page
    more than the limit is requested, each under another cursor, nothing else
    is done to the world, and more fuel than [page_fuel] would not change
    anything; what is returned holds at most twice the allowed number of items
    and counts no more pages than were requested. *)
Theorem collection_is_bounded env config s window_start window_end prior w r w' :
  0 <= max_pages_per_source config →
  collect env config s window_start window_end prior w = (r, w') →
  shared w' = shared w ∧
  (∃ token asked, log w' = log w ++ map (ask config s window_start window_end prior token) asked ∧
     NoDup asked ∧ Z.of_nat (length asked) <= max_pages_per_source config + 1 ∧
     ∀ c, r = Ok c → Coverage.pages_read (Coverage.pages (receipt c)) <= Z.of_nat (length asked) ∧
       Z.of_nat (length (collected_items c)) <= 2 * MAX_ITEMS) ∧
  ∀ token n, read_pages env config s window_start window_end prior (page_fuel config + n) token
      (start window_start window_end) w =
    read_pages env config s window_start window_end prior (page_fuel config) token
      (start window_start window_end) w.
Proof.
  intros Hmax H. split; [|split].
  3: { intros token n. apply read_pages_more. intros q Hq.
       destruct (loop_ends env config s window_start window_end prior token w Hmax)
         as (r' & w1 & asked & Hrun & _ & _ & _ & _ & [He _]).
       rewrite Hrun in Hq. simpl in Hq. by subst r'. }
  all: revert H; unfold collect; destruct (Url.is_empty _).
  - by intros [= <- <-].
  - destruct (loop_ends env config s window_start window_end prior
      (env_or (environ env) (token_env s) EmptyString) w Hmax)
      as (r' & w1 & asked & Hrun & _ & Hsh & _).
    unfold mbind, worker_bind. rewrite Hrun. by destruct r' as [[q|q|q e]|e]; intros [= <- <-].
  - intros [= <- <-]. exists EmptyString, []. simpl. rewrite app_nil_r.
    split; [done|]. split; [constructor|]. split; [lia|]. intros c [= <-]. simpl.
    unfold MAX_ITEMS. lia.
  - destruct (loop_ends env config s window_start window_end prior
      (env_or (environ env) (token_env s) EmptyString) w Hmax)
      as (r' & w1 & asked & Hrun & Hlog & _ & Hnd & Hlen & [He _]).
    unfold mbind, worker_bind. rewrite Hrun. intros H. eexists _, asked.
    destruct r' as [[q|q|q e]|e]; [done|..]; injection H as <- <-;
      (split; [done|]; split; [done|]; split; [done|]); intros c [= <-]; simpl;
      unfold MAX_ITEMS in *; lia.
Qed.

(** A collection is complete only when it is.  Its receipt says [complete]
    exactly when the loop finished, on a page that says it is the last, within
    the limits of pages and items, with a watermark that is fresh enough; then,
    and only then, the high-water mark is the latest watermark of the pages.
    In every other case the mark of before is kept. *)
Theorem collection_is_honest env config s window_start window_end prior w c w' :
  0 <= max_pages_per_source config →
  collect env config s window_start window_end prior w = (Ok c, w') →
  (Coverage.state (receipt c) = "complete" ↔
   let token := env_or (environ env) (token_env s) EmptyString in
   Url.is_empty token = false ∧
   ∃ p, read_pages env config s window_start window_end prior (page_fuel config) token
       (start window_start window_end) w = (Ok (Finished p), w') ∧
     receipt_age window_end (watermark_at p) <= max_age_seconds s ∧
     pages_read p <= max_pages_per_source config ∧
     Z.of_nat (length (collected_items c)) <= MAX_ITEMS ∧
     collected_items c = items_so_far p ∧
     high_water_mark c = VStr (format_instant (watermark_at p))) ∧
  (Coverage.state (receipt c) ≠ "complete" → high_water_mark c = prior).
Proof.
  intros Hmax H. split.
  2: { destruct (collect_outcome _ _ _ _ _ _ _ _ _ Hmax H) as (_ & _ & _ & [Hc _|p _ _ Hs _ _ _]);
       [done|]. by intros []. }
  revert H. unfold collect. destruct (Url.is_empty _) eqn:Htok.
  { intros [= <- <-]. split; [done|]. cbv zeta. intros [? _]. congruence. }
  destruct (loop_ends env config s window_start window_end prior
    (env_or (environ env) (token_env s) EmptyString) w Hmax)
    as (r & w1 & asked & Hrun & _ & _ & _ & _ & [He _]).
  unfold mbind, worker_bind. rewrite Hrun. destruct r as [[q|q|q e]|e]; [done| | |done].
  - intros [= <- <-]. simpl. destruct He as (_ & Hp & Hi).
    destruct (_ <=? _) eqn:Hage; bool_hyps; split; try done.
    + intros _. split; [done|]. exists q. by repeat (split; [done|]).
    + intros (_ & p & [= ->] & ? & _). lia.
  - intros [= <- <-]. simpl. split; [by destruct (pages_read q =? 0)|].
    by intros (_ & p & ? & _).
Qed.

(** ** Examples *)

Import WorkerExample.

Definition example_collection : source_collection :=
  match example_collected done_page with
  | (Ok c, _) => c
  | _ => SourceCollection example_spec [] (_failure_receipt example_spec 0 0 EmptyString EmptyString
      false 0 0 0 None) VNone
  end.

Lemma collection_is_bounded_witness :
  let '(r, w') := example_collected done_page in
  shared w' = nothing_saved ∧
  (∃ token asked, log w' = [] ++ map (ask example_config example_spec example_start example_now VNone
       token) asked ∧ NoDup asked ∧ Z.of_nat (length asked) <= 200 + 1 ∧
     ∀ c, r = Ok c → Coverage.pages_read (Coverage.pages (receipt c)) <= Z.of_nat (length asked) ∧
       Z.of_nat (length (collected_items c)) <= 2 * MAX_ITEMS) ∧
  ∀ token n, read_pages (example_env 0 done_page) example_config example_spec example_start
      example_now VNone (page_fuel example_config + n) token (start example_start example_now)
      example_world =
    read_pages (example_env 0 done_page) example_config example_spec example_start example_now VNone
      (page_fuel example_config) token (start example_start example_now) example_world.
Proof.
  destruct (example_collected done_page) as [r w'] eqn:H.
  unfold example_collected in H.
  exact (collection_is_bounded (example_env 0 done_page) example_config example_spec example_start
    example_now VNone example_world r w' ltac:(vm_compute; discriminate) H).
Defined.

Lemma example_collection_complete :
  example_collected done_page = (Ok example_collection, (example_collected done_page).2) ∧
  Coverage.state (receipt example_collection) = "complete".
Proof. split; vm_compute; reflexivity. Qed.

Lemma collection_is_honest_witness :
  Coverage.state (receipt example_collection) = "complete" ∧
  ∃ p, high_water_mark example_collection = VStr (format_instant (watermark_at p)).
Proof.
  destruct example_collection_complete as [Hc Hs]. split; [exact Hs|].
  destruct (collection_is_honest _ example_config _ _ _ _ _ _ _ ltac:(vm_compute; discriminate) Hc)
    as [[H _] _].
  destruct (H Hs) as (_ & p & _ & _ & _ & _ & _ & Hp). by exists p.
Defined.
End WorkerCollectTheorems.
