(* ===== verification/WorkerCursorTheorems.v ===== *)
(** * Recovery worker: results about the shared cursors

    The workers of a pool read the cursor file, collect, and later merge what
    they collected into the file as it then is.  A merge takes, source by source,
    the later of two marks; so in any interleaving of the pool no mark ever goes
    back, and every mark was earned by a complete collection the pool has made. *)
From S2P Require Import Prelude PyValue Sha256 Json DateTime Regex RecoveryCommon.
From S2P Require Import GitObjects Url Collect Coverage WorkerCommon WorkerTransport WorkerSources.
From S2P Require Import WorkerEngine WorkerCollectTheorems WorkerExample.
From Stdlib Require Import Ascii.

Module WorkerCursorTheorems.
Import WorkerCommon WorkerTransport WorkerSources WorkerEngine WorkerCollectTheorems.
Open Scope Z_scope.

(** ** Printed instants *)

Lemma parse_instant_printed t f :
  representable t = true → parse_instant (VStr (format_instant t)) f = Ok t.
Proof.
  intros Ht. unfold parse_instant, format_instant.
  destruct (isoformat_zulu t) as (c & s & -> & ->). unfold utc_suffix.
  rewrite fromisoformat_isoformat by done. by apply to_utc_zero.
Qed.

Lemma strip_right_end s c : is_space c = false → strip_right (s +:+ String c EmptyString) = s +:+ String c EmptyString.
Proof.
  intros Hc. induction s as [|d s IH]; [simpl; by rewrite Hc|].
  change (String d s +:+ String c EmptyString) with (String d (s +:+ String c EmptyString)).
  cbn [strip_right]. rewrite IH. by destruct s.
Qed.

Lemma digit_not_space n : is_space (digit_char n) = false.
Proof.
  pose proof (digit_char_is_digit n) as H. apply is_digit_code in H.
  unfold is_space. repeat (rewrite ?orb_false_iff, ?andb_false_iff, ?N.leb_gt, ?N.eqb_neq). lia.
Qed.

(** A printed instant begins with a digit and ends with [Z]: nothing to strip,
    and it is short. *)
Lemma printed_mark t f : expect_string (VStr (format_instant t)) f 128 = Ok (format_instant t).
Proof.
  unfold format_instant.
  assert (isoformat t "Z" = String.string_of_list_ascii (iso_body t) +:+ "Z") as Hz
    by apply (isoformat_body t ["Z"%char]).
  assert (∃ n l, iso_body t = digit_char n :: l ∧ (length l <= 30)%nat) as (n & l & Hl & Hlen).
  { unfold iso_body. destruct (ord_to_ymd _) as [[y m] d]. unfold iso_chars, digits4.
    destruct (_ =? 0); simpl; eexists _, _; (split; [reflexivity|]); simpl; lia. }
  assert (strip (isoformat t "Z") = isoformat t "Z") as Hs.
  { unfold strip. rewrite Hz. assert (strip_left (String.string_of_list_ascii (iso_body t) +:+ "Z")
      = String.string_of_list_ascii (iso_body t) +:+ "Z") as ->.
    - rewrite Hl. change (String.string_of_list_ascii (digit_char n :: l) +:+ "Z")
        with (String (digit_char n) (String.string_of_list_ascii l +:+ "Z")).
      cbn [strip_left]. by rewrite digit_not_space.
    - by apply strip_right_end. }
  unfold expect_string. rewrite Hs.
  assert (Url.is_empty (isoformat t "Z") = false) as -> by (rewrite Hz, Hl; done).
  assert ((128 <? slen (isoformat t "Z")) = false) as ->; [|done].
  apply Z.ltb_ge. unfold slen. rewrite Hz, length_app_str, string_of_list_length, Hl. simpl. lia.
Qed.

(** ** Marks *)

Definition printed (v : value) : Prop := ∃ t, representable t = true ∧ v = VStr (format_instant t).

(** The mark a source has in the file, and the one a collection brings. *)
Definition read_mark (v : value) : option Z :=
  match parse_instant v EmptyString with Ok t => Some t | Raise _ => None end.
Definition mark (sources : items) (name : string) : option Z :=
  match dict_get sources name with
  | VDict entry => read_mark (dict_get entry "high_water_mark")
  | _ => None
  end.
Definition collected_mark (name : string) (c : source_collection) : option Z :=
  if String.eqb name (source (spec c)) then read_mark (high_water_mark c) else None.
Definition later (a b : option Z) : option Z := union_with (λ x y, Some (Z.max x y)) a b.

(** The sources of a file the program wrote: every mark is a printed instant. *)
Record kept (sources : items) : Prop := {
  kept_keys : NoDup (dict_keys sources);
  kept_marks name : dict_get sources name = VNone ∨
    ∃ entry, dict_get sources name = VDict entry ∧ printed (dict_get entry "high_water_mark");
}.
Definition brings (c : source_collection) : Prop :=
  high_water_mark c = VNone ∨ printed (high_water_mark c).

Lemma read_mark_printed t : representable t = true → read_mark (VStr (format_instant t)) = Some t.
Proof. intros Ht. unfold read_mark. by rewrite parse_instant_printed. Qed.

Lemma is_ahead_printed name entry t u :
  dict_get entry "high_water_mark" = VStr (format_instant t) →
  representable t = true → representable u = true →
  is_ahead name (VDict entry) (VStr (format_instant u)) = Ok (u <? t).
Proof.
  intros He Ht Hu. unfold is_ahead, expect_object. rewrite ok_bind, He, printed_mark, ok_bind.
  by rewrite !parse_instant_printed, !ok_bind by done.
Qed.

Lemma dict_set_NoDup d k v : NoDup (dict_keys d) → NoDup (dict_keys (dict_set d k v)).
Proof.
  unfold dict_keys. induction d as [|[k0 y] d IH]; csimpl; [intros _; apply NoDup_singleton|].
  intros [Hk Hd]%NoDup_cons. destruct (String.eqb_spec k k0) as [->|Hne]; csimpl.
  - by apply NoDup_cons.
  - apply NoDup_cons. split; [|by apply IH].
    intros [->|?]%(dict_keys_set d k v k0); done.
Qed.

Lemma kept_set sources name c :
  kept sources → printed (high_water_mark c) → kept (dict_set sources name (cursor_candidate c)).
Proof.
  intros [Hnd Hm] Hp. split; [by apply dict_set_NoDup|]. intros n. rewrite dict_get_set.
  destruct (String.eqb n name); [|apply Hm]. right. eexists. split; [reflexivity|done].
Qed.

Lemma mark_set sources name c n :
  mark (dict_set sources name (cursor_candidate c)) n =
    if String.eqb n name then read_mark (high_water_mark c) else mark sources n.
Proof. unfold mark. rewrite dict_get_set. by destruct (String.eqb n name). Qed.

(** One collection: the later of the two marks stays. *)
Lemma merge_cursor_later c sources :
  kept sources → brings c →
  ∃ merged, merge_cursor c sources = Ok merged ∧ kept merged ∧
    ∀ name, mark merged name = later (mark sources name) (collected_mark name c).
Proof.
  intros Hk [Hc|(u & Hu & Hc)]; unfold merge_cursor, collected_mark; rewrite Hc.
  - exists sources. split; [done|]. split; [done|]. intros name.
    destruct (String.eqb name _); unfold read_mark; simpl; by destruct (mark sources name).
  - cbn [is_none]. assert (printed (high_water_mark c)) as Hp by (exists u; done).
    destruct (kept_marks _ Hk (source (spec c))) as [Hn|(entry & He & t & Ht & Hm)].
    + rewrite Hn. cbn [is_none]. rewrite ok_bind. eexists. split; [done|].
      split; [by apply kept_set|]. intros name. rewrite mark_set, Hc, read_mark_printed by done.
      destruct (String.eqb_spec name (source (spec c))) as [->|].
      * unfold mark. by rewrite Hn.
      * by destruct (mark sources name).
    + rewrite He. cbn [is_none]. rewrite (is_ahead_printed _ entry t u Hm Ht Hu), ok_bind.
      eexists. split; [done|].
      assert (mark sources (source (spec c)) = Some t) as Hmark
        by (unfold mark; rewrite He, Hm; by apply read_mark_printed).
      rewrite read_mark_printed by done.
      destruct (u <? t) eqn:Hut; bool_hyps.
      * split; [done|]. intros name. destruct (String.eqb_spec name (source (spec c))) as [->|].
        -- rewrite Hmark. simpl. f_equal. lia.
        -- by destruct (mark sources name).
      * split; [by apply kept_set|]. intros name. rewrite mark_set, Hc, read_mark_printed by done.
        destruct (String.eqb_spec name (source (spec c))) as [->|].
        -- rewrite Hmark. simpl. f_equal. lia.
        -- by destruct (mark sources name).
Qed.

Lemma later_assoc a b c : later (later a b) c = later a (later b c).
Proof. destruct a, b, c; simpl; f_equal; lia. Qed.

(** All the marks a list of collections brings for a source. *)
Definition latest (name : string) (cs : list source_collection) : option Z :=
  foldr (λ c, later (collected_mark name c)) None cs.

Lemma merge_all_latest cs sources :
  kept sources → Forall brings cs →
  ∃ merged, for_each cs merge_cursor sources = Ok merged ∧ kept merged ∧
    ∀ name, mark merged name = later (mark sources name) (latest name cs).
Proof.
  intros Hk Hcs. revert sources Hk. induction Hcs as [|c cs Hc _ IH]; intros sources Hk; simpl.
  - exists sources. split; [done|]. split; [done|]. intros name. by destruct (mark sources name).
  - destruct (merge_cursor_later c sources Hk Hc) as (s1 & -> & Hk1 & Hm1). rewrite ok_bind.
    destruct (IH s1 Hk1) as (s2 & Hs2 & Hk2 & Hm2). exists s2. split; [done|]. split; [done|].
    intros name. by rewrite Hm2, Hm1, later_assoc.
Qed.

Lemma sort_items_Permutation {A} (d : list (string * A)) : sort_items d ≡ₚ d.
Proof. apply merge_sort_Permutation. Qed.

Lemma kept_sorted sources : kept sources →
  kept (sort_items sources) ∧ ∀ name, mark (sort_items sources) name = mark sources name.
Proof.
  intros [Hnd Hm]. assert (∀ name, dict_get (sort_items sources) name = dict_get sources name) as Hget.
  { intros name. symmetry. apply dict_get_perm; [by rewrite sort_items_Permutation|done]. }
  split; [split|].
  - unfold dict_keys. by rewrite sort_items_Permutation.
  - intros name. rewrite Hget. apply Hm.
  - intros name. unfold mark. by rewrite Hget.
Qed.

(** The file: absent, or what a merge wrote. *)
Definition kept_file (file : option value) : Prop :=
  match file with
  | None => True
  | Some v => ∃ at_ sources, v = VDict [("schema_version", VStr CURSORS_SCHEMA);
      ("updated_at", at_); ("sources", VDict sources)] ∧ kept sources
  end.
Definition file_mark (file : option value) (name : string) : option Z :=
  match load_cursor_state file with
  | Ok state => mark (object_at state "sources") name
  | Raise _ => None
  end.

Lemma kept_empty : kept [].
Proof. split; [constructor|]. intros name. by left. Qed.

Lemma kept_file_loads file : kept_file file →
  ∃ sources, load_cursor_state file = Ok (cursor_state sources) ∧ kept sources ∧
    ∀ name, file_mark file name = mark sources name.
Proof.
  destruct file as [v|].
  - intros (at_ & sources & -> & Hk). by exists sources.
  - intros _. exists []. split; [done|]. split; [apply kept_empty|done].
Qed.

Lemma merge_state_latest sources cs now :
  kept sources → Forall brings cs →
  ∃ merged, _merge_cursor_state (cursor_state sources) cs now = Ok merged ∧
    kept_file (Some (VDict merged)) ∧
    ∀ name, file_mark (Some (VDict merged)) name = later (mark sources name) (latest name cs).
Proof.
  intros Hk Hcs. destruct (merge_all_latest cs sources Hk Hcs) as (m & Hm & Hkm & Hlater).
  destruct (kept_sorted m Hkm) as [Hks Hsorted].
  unfold _merge_cursor_state. rewrite raise_if_false by reflexivity. rewrite ok_bind.
  change (expect_object (dict_get (cursor_state sources) "sources") "cursor state.sources")
    with (Ok sources : result items). rewrite ok_bind, Hm, ok_bind.
  eexists. split; [reflexivity|]. split; [by eexists _, _|].
  intros name. rewrite <- Hlater, <- Hsorted. done.
Qed.

(** ** A pool of workers

    The state is the file and everything the workers have collected so far.  A
    worker reads the file and collects, whatever its sources answer; some time
    later the file is merged with what it collected, as the file then is.  What
    was collected stays: it may be merged late, again, or never. *)

Record pool : Type := Pool { file : option value; collected : list (list source_collection) }.
Definition fresh_pool : pool := Pool None [].

Inductive pool_step : pool → pool → Prop :=
  | Collects p env config m window_start window_end w state cs w' :
      load_cursor_state (file p) = Ok state → representable window_start = true →
      0 <= max_pages_per_source config →
      collect_all env config m (object_at state "sources") window_start window_end w = (Ok cs, w') →
      pool_step p (Pool (file p) (cs :: collected p))
  | Commits p cs now state merged :
      cs ∈ collected p → load_cursor_state (file p) = Ok state →
      _merge_cursor_state state cs now = Ok merged →
      pool_step p (Pool (Some (VDict merged)) (collected p)).

(** Among everything collected, a complete collection of the source had this
    watermark. *)
Definition earned (made : list (list source_collection)) (name : string) (t : Z) : Prop :=
  ∃ cs c, cs ∈ made ∧ c ∈ cs ∧ source (spec c) = name ∧
    Coverage.state (receipt c) = "complete" ∧
    Coverage.watermark_at (receipt c) = format_instant t.

(** A collection brings a mark it earned itself, or one from the file it read. *)
Definition deserving (made : list (list source_collection)) (c : source_collection) : Prop :=
  brings c ∧ ∀ name t, collected_mark name c = Some t → earned made name t.

Record pool_ok (p : pool) : Prop := {
  pool_file : kept_file (file p);
  pool_earned name t : file_mark (file p) name = Some t → earned (collected p) name t;
  pool_made : Forall (Forall (deserving (collected p))) (collected p);
}.

Lemma earned_cons cs made name t : earned made name t → earned (cs :: made) name t.
Proof. intros (l & c & Hl & H). exists l, c. split; [by right|done]. Qed.

Lemma deserving_cons cs made c : deserving made c → deserving (cs :: made) c.
Proof. intros [Hb He]. split; [done|]. intros name t Ht. by apply earned_cons, He. Qed.

Lemma each_collects env config sources window_start window_end specs acc w cs w' :
  each specs (λ s collections,
    c ← collect env config s window_start window_end (prior_watermark sources s);
    mret (collections ++ [c])) acc w = (Ok cs, w') →
  ∃ new, cs = acc ++ new ∧ Forall (λ c, ∃ s w1 w2,
    collect env config s window_start window_end (prior_watermark sources s) w1 = (Ok c, w2)) new.
Proof.
  revert acc w. induction specs as [|s specs IH]; intros acc w.
  - intros [= <- <-]. exists []. by rewrite app_nil_r.
  - cbn [each]. unfold mbind, worker_bind, mret, worker_ret.
    destruct (collect _ _ s _ _ _ w) as [[c|e] w1] eqn:Hc; [|done].
    intros (new & -> & Hnew)%IH. exists (c :: new). rewrite <- app_assoc. split; [done|].
    constructor; [by exists s, w, w1|done].
Qed.

Lemma prior_kept sources s : kept sources →
  (prior_watermark sources s = VNone ∨ printed (prior_watermark sources s)) ∧
  read_mark (prior_watermark sources s) = mark sources (source s).
Proof.
  intros Hk. unfold prior_watermark, mark.
  destruct (kept_marks _ Hk (source s)) as [->|(entry & -> & Hp)]; [by split; [left|]|].
  by split; [right|].
Qed.

(** What a collection brings: the mark it was given, or its own watermark once
    it is complete. *)
Lemma collection_brings env config s window_start window_end sources w c w' :
  kept sources → representable window_start = true → 0 <= max_pages_per_source config →
  collect env config s window_start window_end (prior_watermark sources s) w = (Ok c, w') →
  brings c ∧ ∀ name t, collected_mark name c = Some t →
    mark sources name = Some t ∨
    source (spec c) = name ∧ Coverage.state (receipt c) = "complete" ∧
      Coverage.watermark_at (receipt c) = format_instant t.
Proof.
  intros Hk Hws Hmax Hc. destruct (prior_kept sources s Hk) as [Hb Hr].
  destruct (collect_outcome _ _ _ _ _ _ _ _ _ Hmax Hc) as (Hs & _ & _ & Hout).
  assert (high_water_mark c = prior_watermark sources s ∨
    ∃ t, representable t = true ∧ high_water_mark c = VStr (format_instant t) ∧
      Coverage.state (receipt c) = "complete" ∧
      Coverage.watermark_at (receipt c) = format_instant t) as Hcase.
  { destruct Hout as [Hp _|p Hp Hrec Hst _ _ Hrep]; [by left|]. right.
    exists (watermark_at p). rewrite Hrec in *. auto. }
  split.
  - unfold brings. destruct Hcase as [->|(t & Ht & -> & _)]; [done|]. right. by exists t.
  - intros name t. unfold collected_mark. rewrite Hs.
    destruct (String.eqb_spec name (source s)) as [->|]; [|done].
    destruct Hcase as [->|(u & Hu & -> & Hst & Hw)].
    + rewrite Hr. by left.
    + rewrite read_mark_printed by done. intros [= <-]. by right.
Qed.

(** So what a worker collects deserves its marks once it is among everything
    collected. *)
Lemma collections_deserving env config m sources window_start window_end w cs w' made :
  kept sources → (∀ name t, mark sources name = Some t → earned made name t) →
  representable window_start = true → 0 <= max_pages_per_source config →
  collect_all env config m sources window_start window_end w = (Ok cs, w') →
  Forall (deserving (cs :: made)) cs.
Proof.
  intros Hk He Hws Hmax Hall.
  apply each_collects in Hall as (new & -> & Hnew). simpl.
  rewrite Forall_forall in Hnew. apply Forall_forall. intros c Hin.
  destruct (Hnew c Hin) as (s & w1 & w2 & Hc).
  destruct (collection_brings _ _ _ _ _ _ _ _ _ Hk Hws Hmax Hc) as [Hb Hm].
  split; [done|]. intros name t Ht. destruct (Hm name t Ht) as [H|H]; [by apply earned_cons, He|].
  exists new, c. split; [by left|]. by split.
Qed.

Lemma later_Some a b t : later a b = Some t → a = Some t ∨ b = Some t.
Proof.
  destruct a as [x|], b as [y|]; simpl; try naive_solver. intros [= <-].
  destruct (Z.max_spec x y) as [[_ ->]|[_ ->]]; auto.
Qed.

Lemma latest_Some name cs t :
  latest name cs = Some t → ∃ c, c ∈ cs ∧ collected_mark name c = Some t.
Proof.
  induction cs as [|c cs IH]; simpl; [done|]. intros [H|H]%later_Some; [exists c; by split; [left|]|].
  destruct (IH H) as (c' & ? & ?). exists c'. by split; [right|].
Qed.

Lemma fresh_pool_ok : pool_ok fresh_pool.
Proof. by split. Qed.

Definition goes_on (p q : pool) : Prop :=
  ∀ name t, file_mark (file p) name = Some t →
    ∃ t', file_mark (file q) name = Some t' ∧ t <= t'.
#[local] Instance goes_on_preorder : PreOrder goes_on.
Proof.
  split; [intros p name t Ht; by exists t|].
  intros p q r Hpq Hqr name t Ht. destruct (Hpq name t Ht) as (t1 & H1 & ?).
  destruct (Hqr name t1 H1) as (t2 & H2 & ?). exists t2. split; [done|lia].
Qed.

Lemma pool_step_ok p q : pool_ok p → pool_step p q → pool_ok q ∧ goes_on p q.
Proof.
  intros [Hf He Hfl]. destruct 1 as
    [p env config m ws we w state cs w' Hload Hws Hmax Hall|p cs now state merged Hin Hload Hm];
    destruct (kept_file_loads _ Hf) as (sources & Hl & Hk & Hmarks);
    rewrite Hl in Hload; injection Hload as <-.
  - split; [|by intros name t Ht; exists t]. split; simpl; [done| |constructor].
    + intros name t Ht. by apply earned_cons, He.
    + eapply collections_deserving; [exact Hk| |exact Hws|exact Hmax|exact Hall].
      intros name t Ht. apply He. by rewrite Hmarks.
    + eapply Forall_impl; [exact Hfl|]. intros l Hd.
      eapply Forall_impl; [exact Hd|]. intros c. apply deserving_cons.
  - pose proof (proj1 (Forall_forall _ _) Hfl cs Hin) as Hcs.
    assert (Forall brings cs) as Hb by (eapply Forall_impl; [exact Hcs|by intros c []]).
    destruct (merge_state_latest sources cs now Hk Hb) as (m & Hm' & Hkept & Hlater).
    rewrite Hm in Hm'. injection Hm' as <-. split; [split|]; simpl; try done.
    + intros name t. rewrite Hlater. intros [H|H]%later_Some; [apply He; by rewrite Hmarks|].
      apply latest_Some in H as (c & Hc & Ht). rewrite Forall_forall in Hcs.
      by apply (Hcs c Hc).
    + intros name t Ht. rewrite Hmarks in Ht. simpl. rewrite Hlater, Ht.
      destruct (latest name cs) as [u|]; simpl; eexists; (split; [done|]); lia.
Qed.

Lemma reachable_pool p : rtc pool_step fresh_pool p → pool_ok p.
Proof.
  intros H. eapply (rtc_inv pool_step pool_ok); [|apply fresh_pool_ok|exact H].
  intros a b Ha Hab. by apply (pool_step_ok a b Ha Hab).
Qed.

(** ** Results *)

(** C9: No source's high-water mark ever goes back, and none is made up.  From an
    empty state directory, however the workers of a pool interleave their
    collections and merges, whatever their sources answer and however late or
    often a collection is merged: a mark the cursor file once held is followed
    only by marks at least as late, and every mark it holds is the watermark of
    a complete collection of that source which a worker of this pool has made. *)
Theorem watermarks_never_regress p q :
  rtc pool_step fresh_pool p → rtc pool_step p q →
  (∀ name t, file_mark (file p) name = Some t →
     ∃ t', file_mark (file q) name = Some t' ∧ t <= t') ∧
  ∀ name t, file_mark (file q) name = Some t → earned (collected q) name t.
Proof.
  intros Hp Hpq. pose proof (reachable_pool p Hp) as Hok. split.
  - eapply (rtc_rel pool_step pool_ok goes_on p q); [|exact Hok|exact Hpq].
    intros a b Ha Hab. by apply pool_step_ok.
  - apply pool_earned, reachable_pool. by etransitivity.
Qed.

(** Merging is taking the later mark, source by source.  On a file the
    program wrote, with collections whose marks are absent or printed
    instants, a merge succeeds and afterwards a source's mark is the latest of
    the mark it had and those the collections bring; so the order in which two
    workers merge does not matter. *)
Theorem merging_takes_the_later current cs now state :
  kept_file current → Forall brings cs → load_cursor_state current = Ok state →
  ∃ merged, _merge_cursor_state state cs now = Ok merged ∧ kept_file (Some (VDict merged)) ∧
    ∀ name, file_mark (Some (VDict merged)) name =
      later (file_mark current name) (latest name cs).
Proof.
  intros Hf Hcs Hload. destruct (kept_file_loads _ Hf) as (sources & Hl & Hk & Hmarks).
  rewrite Hl in Hload. injection Hload as <-.
  destruct (merge_state_latest sources cs now Hk Hcs) as (m & Hm & Hkept & Hlater).
  exists m. split; [done|]. split; [done|]. intros name. by rewrite Hlater, Hmarks.
Qed.

(** ** Examples *)

Import WorkerExample.

Definition example_made : list (list source_collection) := [example_collections done_page].
Definition example_pool : pool := Pool (Some (VDict (example_merged done_page))) example_made.
Definition example_again : pool :=
  Pool (Some (VDict
    (match _merge_cursor_state (cursor_state (object_at (example_merged done_page) "sources"))
             (example_collections done_page) 0 with Ok merged => merged | Raise _ => [] end)))
    example_made.

Lemma example_reached : rtc pool_step fresh_pool example_pool.
Proof.
  eapply (rtc_l _ _ (Pool None example_made)).
  - apply (Collects fresh_pool (example_env 0 done_page) example_config
      (Manifest ["chatgpt"] [] [example_spec]) example_start example_now example_world
      (cursor_state []) _ (example_collected done_page).2); vm_compute; try reflexivity; discriminate.
  - eapply rtc_once, (Commits (Pool None example_made) (example_collections done_page) example_now
      (cursor_state [])); [by left|done|]. vm_compute. reflexivity.
Qed.

Lemma example_step : rtc pool_step example_pool example_again.
Proof.
  eapply rtc_once, (Commits example_pool (example_collections done_page) 0
    (cursor_state (object_at (example_merged done_page) "sources"))); [by left|done|].
  vm_compute. reflexivity.
Qed.

Lemma watermarks_never_regress_witness :
  file_mark (file example_pool) "chatgpt" = Some example_now ∧
  (∃ t', file_mark (file example_again) "chatgpt" = Some t' ∧ example_now <= t') ∧
  ∀ name t, file_mark (file example_again) name = Some t →
    earned [example_collections done_page] name t.
Proof.
  assert (file_mark (file example_pool) "chatgpt" = Some example_now) as H
    by (vm_compute; reflexivity).
  split; [exact H|].
  destruct (watermarks_never_regress _ _ example_reached example_step) as [Hon He].
  exact (conj (Hon _ _ H) He).
Defined.

Lemma example_brings : Forall brings (example_collections done_page).
Proof.
  assert (∃ c, example_collections done_page = [c] ∧
    high_water_mark c = VStr (format_instant example_now)) as (c & -> & Hc)
    by (eexists; split; vm_compute; reflexivity).
  constructor; [|constructor]. right. exists example_now. by split; [vm_compute|].
Qed.

Lemma merging_takes_the_later_witness :
  ∃ merged, _merge_cursor_state (cursor_state []) (example_collections done_page) 0 = Ok merged ∧
    kept_file (Some (VDict merged)) ∧
    ∀ name, file_mark (Some (VDict merged)) name =
      later (file_mark None name) (latest name (example_collections done_page)).
Proof. exact (merging_takes_the_later None _ 0 _ I example_brings eq_refl). Defined.
End WorkerCursorTheorems.
