(* ===== verification/WorkerCommitTheorems.v ===== *)
(** * Recovery worker: results about a commit

    Cutting the items into batches loses none of them: each one has an entry of
    the ledger that was written now.  And the cursors move last: whatever fails,
    a mark advances only once the ledger with the items below it is saved. *)
From S2P Require Import Prelude PyValue Sha256 Json DateTime RecoveryCommon.
From S2P Require Import GitObjects Url Collect Observation ObservationTheorems.
From S2P Require Import Ledger LedgerTheorems ReconcileTheorems Coverage.
From S2P Require Import WorkerCommon WorkerTransport WorkerSources WorkerEngine WorkerExample.
From Stdlib Require Import Ascii.

Module WorkerCommitTheorems.
Import Observation ObservationTheorems ReconcileTheorems.
Import WorkerCommon WorkerTransport WorkerSources WorkerEngine.
Open Scope Z_scope.

(** ** Slices *)

Section slices.
Context {A : Type}.
Implicit Types (l : list A).

Lemma slices_spec fuel n l :
  (0 < n)%nat → (length l <= fuel)%nat →
  concat (slices fuel n l) = l ∧ Forall (λ c, (length c <= n)%nat ∧ c ≠ []) (slices fuel n l).
Proof.
  intros Hn. revert l. induction fuel as [|fuel IH]; intros [|x l] Hl; simpl in *; try done; [lia|].
  assert (length (drop n (x :: l)) <= fuel)%nat as Hd by (rewrite length_drop; simpl; lia).
  destruct (IH _ Hd) as [Hc Hf]. split.
  - change (take n (x :: l) ++ concat (slices fuel n (drop n (x :: l))) = x :: l).
    by rewrite Hc, take_drop.
  - constructor; [|done]. split; [rewrite length_take; lia|]. destruct n; [lia|done].
Qed.
End slices.

Lemma chunks_spec all :
  concat (chunks all) = all ∧ Forall (λ c, (length c <= BATCH_SIZE)%nat) (chunks all) ∧
  chunks all ≠ [].
Proof.
  unfold chunks.
  destruct (slices_spec (length all) BATCH_SIZE all ltac:(unfold BATCH_SIZE; lia) ltac:(done))
    as [Hc Hf].
  destruct (slices _ _ _) as [|c cs]; simpl in *.
  { rewrite <- Hc. split; [done|]. split; [|done]. repeat constructor. }
  split; [done|]. split; [|done]. eapply Forall_impl; [exact Hf|]. by intros ? [].
Qed.

(** ** Batches *)

#[local] Opaque Ledger.reconcile.

(** The item has an entry written now. *)
Definition entered (entries : list (string * Ledger.entry)) (now : string) (raw : items) : Prop :=
  ∃ index i e, normalize_observation_item index (VDict raw) = Ok i ∧
    assoc_get entries (ledger_key i) = Some e ∧ Ledger.last_seen e = now.

Lemma observed_each d raws o :
  dict_get d "items" = VList raws → validate_observation d = Ok o →
  Forall (λ raw, ∃ index i, normalize_observation_item index raw = Ok i ∧
    i ∈ observed_items o) raws.
Proof.
  intros Hraws (raws' & l & [_ _ _ [Hr _] He _ Ho _])%validate_Ok. rewrite Hraws in Hr.
  injection Hr as <-. apply map_enum_Forall2 in He. rewrite Ho. apply Forall_forall.
  intros raw Hraw. apply list_elem_of_lookup in Hraw as [k Hk].
  destruct (Forall2_lookup_l _ _ _ _ _ He Hk) as (i & Hi & j & Hj). exists j, i.
  split; [done|]. rewrite stable_sort_Permutation. by eapply list_elem_of_lookup_2.
Qed.

Lemma observed_length d raws o :
  dict_get d "items" = VList raws → validate_observation d = Ok o →
  length (observed_items o) = length raws.
Proof.
  intros Hraws (raws' & l & [_ _ _ [Hr _] He _ Ho _])%validate_Ok. rewrite Hraws in Hr.
  injection Hr as <-. apply map_enum_length in He. rewrite Ho, <- He.
  by rewrite (Permutation_length (stable_sort_Permutation _ _)).
Qed.

Lemma build_entry_last now prior i c : Ledger.last_seen (Ledger.build_entry now prior i c) = now.
Proof. unfold Ledger.build_entry. by destruct (Ledger.entry_history _ _ _). Qed.

(** One batch: its items are entered, what was entered stays entered, and no
    key is lost. *)
Lemma reconcile_batch obs batch previous now task l q :
  dict_get obs "items" = VList (map VDict batch) → (length batch <= BATCH_SIZE)%nat →
  NoDup (prior_entries previous).*1 →
  Ledger.reconcile obs previous now (Z.of_nat BATCH_SIZE) task = Ok (l, q) →
  NoDup (Ledger.entries l).*1 ∧ Forall (entered (Ledger.entries l) now) batch ∧
  (∀ raw, entered (prior_entries previous) now raw → entered (Ledger.entries l) now raw) ∧
  (∀ k, is_Some (assoc_get (prior_entries previous) k) → is_Some (assoc_get (Ledger.entries l) k)).
Proof.
  intros Hobs Hlen Hnd (o & start & merged & R)%reconcile_Ok.
  destruct (reconciled_entries _ _ _ _ _ _ _ _ _ _ R Hnd) as (Hnd' & Hin & Hout).
  pose proof (rec_observation _ _ _ _ _ _ _ _ _ _ R) as Ho.
  assert (batch_of o (Z.of_nat BATCH_SIZE) = observed_items o) as Hall.
  { unfold batch_of. rewrite Nat2Z.id. apply take_ge.
    rewrite (observed_length _ _ _ Hobs Ho), length_map. done. }
  rewrite Hall in Hin, Hout.
  assert (∀ i, i ∈ observed_items o → ∃ e,
    assoc_get (Ledger.entries l) (ledger_key i) = Some e ∧ Ledger.last_seen e = now) as Hnow.
  { intros i Hi. destruct (Hin i Hi) as (c & _ & He). eexists. split; [exact He|].
    apply build_entry_last. }
  split; [done|]. split; [|split].
  - pose proof (observed_each _ _ _ Hobs Ho) as Hraws. rewrite Forall_forall in Hraws.
    apply Forall_forall. intros raw Hraw.
    destruct (Hraws (VDict raw)) as (j & i & Hn & Hi); [by apply list_elem_of_fmap_2|].
    destruct (Hnow i Hi) as (e & ? & ?). by exists j, i, e.
  - intros raw (j & i & e & Hn & He & Hl).
    destruct (decide (ledger_key i ∈ map ledger_key (observed_items o))) as [Hk|Hk].
    + apply list_elem_of_fmap in Hk as (i' & Heq & Hi'). destruct (Hnow i' Hi') as (e' & ? & ?).
      exists j, i, e'. by rewrite Heq.
    + exists j, i, e. by rewrite Hout.
  - intros k Hk. destruct (decide (k ∈ map ledger_key (observed_items o))) as [Hin'|Hk'].
    + apply list_elem_of_fmap in Hin' as (i' & -> & Hi'). destruct (Hnow i' Hi') as (e' & ? & ?).
      by exists e'.
    + by rewrite Hout.
Qed.

Lemma chunk_items observation run_key count index chunk :
  dict_get (chunk_observation observation run_key count index chunk) "items" = VList (map VDict chunk).
Proof. unfold chunk_observation. by rewrite dict_get_set. Qed.

Lemma chunks_merged observation run_key now task count index batches previous q l' q' :
  Forall (λ c, (length c <= BATCH_SIZE)%nat) batches → NoDup (prior_entries previous).*1 →
  for_enum index batches (λ index chunk state,
    '(ledger, queue) ← Ledger.reconcile (chunk_observation observation run_key count index chunk)
      state.1 now (Z.of_nat BATCH_SIZE) task;
    Ok (Some ledger, Some queue)) (previous, q) = Ok (l', q') →
  NoDup (prior_entries l').*1 ∧ Forall (entered (prior_entries l') now) (concat batches) ∧
  (∀ raw, entered (prior_entries previous) now raw → entered (prior_entries l') now raw) ∧
  (∀ k, is_Some (assoc_get (prior_entries previous) k) → is_Some (assoc_get (prior_entries l') k)).
Proof.
  revert index previous q. induction batches as [|c batches IH]; intros index previous q Hf Hnd.
  - intros [= <- <-]. by split_and!.
  - cbn [for_enum]. intros ([s1 q1] & H1 & Hrest)%bind_Ok.
    apply bind_Ok in H1 as ([l1 q2] & Hrec & [= <- <-]).
    inversion_clear Hf as [|? ? Hc Hcs].
    destruct (reconcile_batch _ c _ _ _ _ _ (chunk_items _ _ _ _ _) Hc Hnd Hrec)
      as (Hnd1 & Hin1 & Hold1 & Hk1).
    destruct (IH _ (Some l1) _ Hcs Hnd1 Hrest) as (Hnd2 & Hin2 & Hold2 & Hk2).
    split; [done|]. split; [|split; [naive_solver|naive_solver]].
    cbn [concat]. apply Forall_app. split; [|done].
    eapply Forall_impl; [exact Hin1|]. intros raw. apply Hold2.
Qed.

Lemma batches_merged observation run_key now task all previous l q :
  NoDup (prior_entries previous).*1 →
  reconcile_chunks observation run_key now task (chunks all) previous = Ok (Some l, q) →
  Forall (entered (Ledger.entries l) now) all ∧ NoDup (Ledger.entries l).*1 ∧
  ∀ k, is_Some (assoc_get (prior_entries previous) k) → is_Some (assoc_get (Ledger.entries l) k).
Proof.
  intros Hnd H. destruct (chunks_spec all) as (Hc & Hlen & _).
  destruct (chunks_merged _ _ _ _ _ _ _ _ _ _ _ Hlen Hnd H) as (H1 & H2 & _ & H4).
  rewrite Hc in H2. done.
Qed.

(** ** Results *)

(** C30: Cutting the items into batches loses none of them.  When all the batches
    of a run are merged into a ledger with distinct keys, every collected item,
    however many there are, has an entry in the resulting ledger under its own
    key, written by this run, and every key the ledger had is still there. *)
Theorem batches_lose_nothing observation run_key now task all previous l q :
  NoDup (prior_entries previous).*1 →
  reconcile_chunks observation run_key now task (chunks all) previous = Ok (Some l, q) →
  Forall (entered (Ledger.entries l) now) all ∧ NoDup (Ledger.entries l).*1 ∧
  ∀ k, is_Some (assoc_get (prior_entries previous) k) → is_Some (assoc_get (Ledger.entries l) k).
Proof. apply batches_merged. Qed.

(** C23: The cursors move last.  Whatever the disk, the fence and the validators
    do, either the cursor file is the one the transaction found, or the commit
    has succeeded: the ledger is saved with every item of the run entered, and
    the cursors are those found merged with the run's collections. *)
Theorem cursors_move_last env config g w r w' files :
  fence env (log w) (shared w) = Acquired files →
  NoDup (prior_entries (ledger_file files)).*1 →
  commit env config g w = (r, w') →
  cursors_file (shared w') = cursors_file files ∨
  ∃ l q now state merged, r = Ok (l, q) ∧ ledger_file (shared w') = Some l ∧
    now_utc 0 (Some (format_instant (generated_at g))) = Ok now ∧
    Forall (entered (Ledger.entries l) now) (all_items g) ∧
    load_cursor_state (cursors_file files) = Ok state ∧
    _merge_cursor_state state (collections g) (generated_at g) = Ok merged ∧
    cursors_file (shared w') = Some (VDict merged).
Proof.
  intros Hf Hnd. unfold commit, state_transaction. rewrite Hf. clear Hf.
  unfold commit_files, mbind, worker_bind, read_cursors, pure. simpl.
  destruct (load_cursor_state (cursors_file files)) as [state|e] eqn:Hload; simpl;
    [|by intros [= <- <-]; left].
  destruct (parse_timestamp _ _) as [now|e] eqn:Hnow; simpl; [|by intros [= <- <-]; left].
  destruct (reconcile_chunks _ _ _ _ _ _) as [[[l|] [q|]]|e] eqn:Hrec; simpl;
    try by intros [= <- <-]; left.
  unfold save_ledger, write_file. simpl.
  destruct (disk env _ (ledger_path config)) as [u|e]; simpl; [|by intros [= <- <-]; left].
  destruct (_merge_cursor_state _ _ _) as [merged|e] eqn:Hmerge; simpl;
    [|by intros [= <- <-]; left].
  unfold save_cursors, mbind, worker_bind, pure, write_file.
  destruct (ensure_public_safe _ _) as [v|e]; simpl; [|by intros [= <- <-]; left].
  destruct (disk env _ (cursors_path config)) as [v'|e]; simpl; [|by intros [= <- <-]; left].
  unfold mret, worker_ret. intros [= <- <-]. right.
  apply batches_merged in Hrec as (Hin & _ & _); [|done].
  exists l, q, now, state, merged. by repeat (split; [done|]).
Qed.

(** ** Examples *)

Import WorkerExample.

Definition raw_of (v : value) : items := match v with VDict d => d | _ => [] end.
Definition example_items : list items := [raw_of delivered_item; raw_of missing_item].
Definition example_chunks : result (option Ledger.ledger * option Ledger.queue) :=
  reconcile_chunks example_normalized "nightly" "2026-08-11T04:00:00Z" DEFAULT_CLI_TASK_ID
    (chunks example_items) None.

Lemma batches_lose_nothing_witness :
  match example_chunks with
  | Ok (Some l, _) => Forall (entered (Ledger.entries l) "2026-08-11T04:00:00Z") example_items ∧
      NoDup (Ledger.entries l).*1 ∧
      ∀ k, is_Some (assoc_get [] k : option Ledger.entry) → is_Some (assoc_get (Ledger.entries l) k)
  | _ => False
  end.
Proof.
  assert (match example_chunks with Ok (Some _, Some _) => true | _ => false end = true) as Hok
    by (vm_compute; reflexivity).
  destruct example_chunks as [[[l|] q]|e] eqn:H; try discriminate Hok. clear Hok.
  exact (batches_lose_nothing _ _ _ _ example_items None l q (NoDup_nil_2) H).
Defined.

Lemma example_commit_succeeds :
  match example_gathered 0 done_page with
  | (Ok g, w) =>
      match shared w with Shared None None => true | _ => false end &&
      is_ok (commit (example_env 0 done_page) example_config g w).1
  | (Raise _, _) => false
  end = true.
Proof. vm_compute. reflexivity. Qed.

Lemma cursors_move_last_witness :
  ∃ g w r w', example_gathered 0 done_page = (Ok g, w) ∧ shared w = nothing_saved ∧
    is_ok r = true ∧
    (cursors_file (shared w') = None ∨
     ∃ l q now state merged, r = Ok (l, q : Ledger.queue) ∧ ledger_file (shared w') = Some l ∧
      now_utc 0 (Some (format_instant (generated_at g))) = Ok now ∧
      Forall (entered (Ledger.entries l) now) (all_items g) ∧
      load_cursor_state None = Ok state ∧
      _merge_cursor_state state (collections g) (generated_at g) = Ok merged ∧
      cursors_file (shared w') = Some (VDict merged)).
Proof.
  pose proof example_commit_succeeds as Hok.
  destruct (example_gathered 0 done_page) as [[g|e] w]; [|discriminate Hok].
  apply andb_true_iff in Hok as [Hsaved Hok].
  assert (shared w = nothing_saved) as Hnothing
    by (destruct (shared w) as [[|] [|]]; [discriminate..|reflexivity]). clear Hsaved.
  destruct (commit (example_env 0 done_page) example_config g w) as [r w'] eqn:Hc.
  exists g, w, r, w'. split; [reflexivity|]. split; [exact Hnothing|]. split; [exact Hok|].
  apply (cursors_move_last (example_env 0 done_page) example_config g w r w' nothing_saved); [|exact NoDup_nil_2|exact Hc].
  change (Acquired (shared w) = Acquired nothing_saved). by rewrite Hnothing.
Defined.
End WorkerCommitTheorems.
