(* ===== verification/WorkerOutcomeTheorems.v ===== *)
(** * Recovery worker: results about a job's outcome

    A job that is reported as succeeded left nothing undone; a run that finishes
    saw every watermark at the same age when it began and when it ended; a job is
    reported at most twice, and an exception that is not the worker's leaves it
    unreported. *)
From S2P Require Import Prelude PyValue Sha256 Json DateTime RecoveryCommon.
From S2P Require Import GitObjects Url Collect Observation ObservationTheorems.
From S2P Require Import Ledger LedgerTheorems ReconcileTheorems Coverage CoverageTheorems.
From S2P Require Import WorkerCommon WorkerTransport WorkerSources WorkerEngine.
From S2P Require Import WorkerCollectTheorems WorkerExample.
From Stdlib Require Import Ascii.

Module WorkerOutcomeTheorems.
Import CoverageTheorems LedgerTheorems ReconcileTheorems.
Import WorkerCommon WorkerTransport WorkerSources WorkerEngine WorkerCollectTheorems.
Open Scope Z_scope.

Lemma bind_world_Ok {A B} (m : worker A) (f : A → worker B) w b w' :
  (m ≫= f) w = (Ok b, w') → ∃ a w1, m w = (Ok a, w1) ∧ f a w1 = (Ok b, w').
Proof. unfold mbind, worker_bind. destruct (m w) as [[a|e] w1]; [eauto|done]. Qed.

Lemma pure_Ok {A} (r : result A) w a w' : pure r w = (Ok a, w') → r = Ok a ∧ w' = w.
Proof. by intros [= -> ->]. Qed.

Ltac run_step :=
  match goal with
  | H : (_ ≫= _) _ = (Ok _, _) |- _ =>
      let a := fresh "a" in let w := fresh "w" in let Ha := fresh "Hstep" in
      apply bind_world_Ok in H as (a & w & Ha & H)
  | H : pure _ _ = (Ok _, _) |- _ => apply pure_Ok in H as [H ->]
  | H : (let '(_, _) := ?p in _) _ = (Ok _, _) |- _ => destruct p
  | H : mret _ _ = (Ok _, _) |- _ => injection H as H <-
  end.

(** ** What a finished run went through *)

Lemma run_Ok env config hours overlap job w completion w' :
  run env config hours overlap job w = (Ok completion, w') →
  ∃ g wg l q wc, gather env config hours overlap job w = (Ok g, wg) ∧
    commit env config g wg = (Ok (l, q), wc) ∧
    conclude env config g l q wc = (Ok completion, w').
Proof. unfold run. intros H. repeat run_step. by eexists _, _, _, _, _. Qed.

(** The windows and the collections behind what was gathered. *)
Record gathering (env : environment) (config : worker_config) (g : gathered) (window_start : Z)
    (sources : items) (w1 w2 : world) : Prop := {
  gathering_start : representable window_start = true;
  gathering_collected : collect_all env config (manifest g) sources window_start (started_at g) w1 =
    (Ok (collections g), w2);
  gathering_assembled : assemble (manifest g) (run_key g) window_start (started_at g)
    (generated_at g) (collections g) = Ok (all_items g, observation g, coverage g);
}.

Lemma instant_add_representable t us u : instant_add t us = Ok u → representable u = true.
Proof. unfold instant_add. destruct (representable _) eqn:H; [by intros [= <-]|done]. Qed.

Lemma gather_Ok env config hours overlap job w g wg :
  gather env config hours overlap job w = (Ok g, wg) →
  ∃ window_start sources w1 w2, gathering env config g window_start sources w1 w2.
Proof.
  unfold gather. intros H. repeat run_step. subst g.
  match goal with Hw : instant_add _ (seconds (- _)) = Ok ?ws,
    Hc : collect_all _ _ _ ?sources ?ws _ ?w1 = (Ok _, ?w2) |- _ =>
    exists ws, sources, w1, w2; split; simpl; [by eapply instant_add_representable|done|] end.
  done.
Qed.

Lemma assemble_Ok m run_key ws we now cs all o r :
  assemble m run_key ws we now cs = Ok (all, o, r) →
  ∃ document, build_coverage m cs now = Ok document ∧
    Coverage.build_source_coverage_report (VDict document) (Some (format_instant now)) = Ok r.
Proof.
  unfold assemble. intros H. repeat inv_step. simplify_eq. eauto.
Qed.

(** ** The outcome of a run *)

Lemma conclude_outcome env config g l q w completion w' :
  conclude env config g l q w = (Ok completion, w') → outcome_is completion "succeeded" = true →
  ∃ document, Ledger.summary_document l = Ok document ∧
    has_succeeded g (object_at (dict_of document) "summary") = true.
Proof.
  unfold conclude. intros H Hout. repeat run_step. subst completion.
  match goal with H : Ledger.summary_document l = Ok ?d |- _ => exists d; split; [done|] end.
  unfold outcome_is, sealed in Hout. rewrite dict_get_set in Hout. simpl in Hout.
  unfold is_text in Hout. by destruct (has_succeeded _ _).
Qed.

(** ** The report on the collections *)

Lemma freshness_age v field now captured skew mark max_age age text w :
  Coverage.normalize_freshness (VDict v) field now captured skew = Ok (mark, max_age, age) →
  dict_get v "watermark_at" = VStr text → parse_datetime (VStr text) "watermark_at" = Ok (text, w) →
  ∀ stated, dict_get v "age_seconds" = VInt stated → stated = Z.max 0 (elapsed_seconds now w).
Proof.
  intros H Htext Hw stated Hstated. unfold Coverage.normalize_freshness in H.
  apply bind_Ok in H as (d & Hd & H). apply strict_object_Ok in Hd as [[= <-] _].
  apply bind_Ok in H as ([mark' w'] & Hp & H). rewrite Htext in Hp.
  assert (w' = w) as ->.
  { apply parse_datetime_Ok in Hp as (Hp & -> & Hrep).
    pose proof (parse_datetime_of _ _ "watermark_at" _ Hp Hrep) as Hp'. congruence. }
  rewrite Hstated in H. repeat inv_step. cbn [is_none] in *. repeat inv_step. subst.
  match goal with H : strict_int (VInt _) _ _ _ = Ok _ |- _ =>
    apply strict_int_Ok in H as ([= ->] & _) end.
  by bool_hyps.
Qed.

(** A receipt the validator accepts states the age its watermark has when the
    report is drawn up. *)
Lemma receipt_age_stated now skew i r r' text w :
  Coverage.normalize_receipt now skew i (Coverage.receipt_value r) = Ok r' →
  Coverage.watermark_at r = text → parse_datetime (VStr text) "watermark_at" = Ok (text, w) →
  Coverage.age_seconds r = Z.max 0 (elapsed_seconds now w).
Proof.
  intros H Htext Hw. unfold Coverage.normalize_receipt in H.
  repeat match goal with
  | H : _ ≫= _ = Ok _ |- _ => apply bind_Ok in H as (? & ? & H)
  | H : (let '(_, _) := ?p in _) = Ok _ |- _ => destruct p
  end.
  match goal with H : strict_object (Coverage.receipt_value r) _ _ = Ok _ |- _ =>
    apply strict_object_Ok in H as [[= <-] _] end.
  match goal with H : Coverage.normalize_freshness _ _ _ _ _ = Ok (?p, _) |- _ =>
    destruct p; rename H into Hfresh end.
  eapply freshness_age; [exact Hfresh|simpl; by rewrite Htext|exact Hw|done].
Qed.

Lemma normalize_sources_same l f l' :
  Coverage.normalize_sources (strs l) f = Ok l' → l' = sorted_strs l.
Proof.
  unfold Coverage.normalize_sources. intros H. repeat inv_step.
  match goal with H : RecoveryCommon.expect_list _ _ _ = _ |- _ =>
    apply expect_list_Ok in H as [[= <-] _] end.
  match goal with H : map_enum _ _ _ = _ |- _ => apply map_enum_Forall2 in H; rename H into Hf end.
  f_equal. clear -Hf. unfold strs in Hf. apply Forall2_fmap_l in Hf.
  induction Hf as [|x y l l' [j Hj] _ IH]; [done|]. apply member_of_Ok in Hj as ([= ->] & _).
  by rewrite IH.
Qed.

Lemma report_policy_same m t p :
  Coverage.normalize_policy
    (Coverage.policy_value (Coverage.Policy (required_sources m) (optional_sources m) t)) = Ok p →
  Coverage.required_sources p = sorted_strs (required_sources m).
Proof.
  unfold Coverage.normalize_policy. intros H.
  apply bind_Ok in H as (d & Hd & H). apply strict_object_Ok in Hd as [[= <-] _].
  apply bind_Ok in H as (rs & Hrs & H). apply normalize_sources_same in Hrs.
  repeat inv_step. done.
Qed.

(** What an accepted report says of the collections behind it. *)
Lemma report_of_collections m cs now document at_ r :
  build_coverage m cs now = Ok document →
  Coverage.build_source_coverage_report (VDict document) at_ = Ok r →
  ∃ t, parse_datetime (VStr (format_instant now)) "generated_at" = Ok (Coverage.generated_at r, t) ∧
    (Coverage.status (Coverage.report_summary r) = "complete" →
     ∀ s, s ∈ required_sources m → ∃ c, c ∈ cs ∧ covered t s (Coverage.receipt_value (receipt c))) ∧
    ∀ c w, c ∈ cs →
      parse_datetime (VStr (Coverage.watermark_at (receipt c))) "watermark_at" =
        Ok (Coverage.watermark_at (receipt c), w) →
      Coverage.age_seconds (receipt c) = Z.max 0 (elapsed_seconds t w).
Proof.
  intros Hdoc (root & t & raws & l & [= <-] & B)%build_Ok. exists t.
  unfold build_coverage in Hdoc. apply bind_Ok in Hdoc as (u & _ & [= <-]).
  pose proof (built_parsed _ _ _ _ _ _ B) as Hparsed. simpl in Hparsed.
  pose proof (built_raws _ _ _ _ _ _ B) as [[= <-] _].
  pose proof (built_policy _ _ _ _ _ _ B) as Hpolicy. apply report_policy_same in Hpolicy.
  split; [exact Hparsed|]. split.
  - intros Hst s Hs. apply (proj1 (built_covered _ _ _ _ _ _ B)) with (s := s) in Hst.
    2: { by rewrite Hpolicy, sorted_strs_Permutation. }
    destruct Hst as (raw & Hraw & Hcov).
    apply list_elem_of_fmap in Hraw as (rc & -> & Hrc%sort_by_elem).
    apply list_elem_of_fmap in Hrc as (c & -> & Hc). by exists c.
  - intros c w Hc Hw. destruct (each_raw _ _ _ _ (built_each _ _ _ _ _ _ B)) as [_ Hr].
    destruct (Hr (Coverage.receipt_value (receipt c))) as (i & rc & _ & Hn).
    { apply list_elem_of_fmap_2, sort_by_elem, list_elem_of_fmap_2, Hc. }
    by eapply receipt_age_stated.
Qed.

(** ** What a computation adds to the log *)

Definition adds {A} (P : event → Prop) (m : worker A) : Prop :=
  ∀ w, ∃ new, log (m w).2 = log w ++ new ∧ Forall P new.

Section adds.
Context (P : event → Prop).

Lemma adds_nothing {A} (m : worker A) : (∀ w, log (m w).2 = log w) → adds P m.
Proof. intros H w. exists []. by rewrite H, app_nil_r. Qed.
Lemma adds_one {A} (m : worker A) e : P e → (∀ w, log (m w).2 = log w ++ [e]) → adds P m.
Proof. intros He H w. exists [e]. by rewrite H; auto. Qed.

Lemma adds_ret {A} (a : A) : adds P (mret a).
Proof. by apply adds_nothing. Qed.
Lemma adds_raise {A} e : adds P (@raise A e).
Proof. by apply adds_nothing. Qed.
Lemma adds_pure {A} (r : result A) : adds P (pure r).
Proof. by apply adds_nothing. Qed.
Lemma adds_tell e : P e → adds P (tell e).
Proof. intros He. by apply (adds_one _ e). Qed.

Lemma adds_bind {A B} (m : worker A) (f : A → worker B) :
  adds P m → (∀ a, adds P (f a)) → adds P (m ≫= f).
Proof.
  intros Hm Hf w. unfold mbind, worker_bind. destruct (Hm w) as (n1 & H1 & HP1).
  destruct (m w) as [[a|e] w1]; simpl in *; [|by exists n1].
  destruct (Hf a w1) as (n2 & H2 & HP2). exists (n1 ++ n2).
  rewrite H2, H1, app_assoc. split; [done|]. by apply Forall_app.
Qed.

Lemma adds_catch {A} (body : worker A) handler :
  adds P body → (∀ e, adds P (handler e)) → adds P (catch body handler).
Proof.
  intros Hb Hh w. unfold catch. destruct (Hb w) as (n1 & H1 & HP1).
  destruct (body w) as [[a|e] w1]; simpl in *; [by exists n1|].
  destruct (is_worker_error e); [|by exists n1]. destruct (Hh e w1) as (n2 & H2 & HP2).
  exists (n1 ++ n2). rewrite H2, H1, app_assoc. split; [done|]. by apply Forall_app.
Qed.

Lemma adds_each {A B} (l : list A) (body : A → B → worker B) acc :
  (∀ x acc, adds P (body x acc)) → adds P (each l body acc).
Proof.
  intros H. revert acc; induction l as [|x l IH]; intros acc; [apply adds_ret|].
  apply adds_bind; [apply H|intros a; apply IH].
Qed.

Lemma adds_write env path e update : P e → adds P (write_file env path e update).
Proof.
  intros He w. unfold write_file. destruct (disk env (log w) path); simpl.
  - exists [e]. auto.
  - exists []. by rewrite app_nil_r.
Qed.

Lemma adds_transaction {A} env (body : worker A) :
  P Fenced → adds P body → adds P (state_transaction env body).
Proof.
  intros Hf Hb w. unfold state_transaction. destruct (fence env (log w) (shared w)) as [files| |e].
  2, 3: exists []; by rewrite app_nil_r.
  destruct (Hb (World (log w ++ [Fenced]) files)) as (n & H & HP). simpl in H.
  exists (Fenced :: n). rewrite H, <- app_assoc. by split; [|constructor].
Qed.

Lemma adds_heartbeat {A} env (body : worker A) : adds P body → adds P (with_heartbeat env body).
Proof.
  intros Hb w. unfold with_heartbeat. destruct (Hb w) as (n & H & HP).
  destruct (body w) as [[a|e] w1]; simpl in *; [|by exists n].
  destruct (heartbeat_failure _); by exists n.
Qed.

Lemma adds_mail env session m : P (Mailed session m) → adds P (send_mail env session m).
Proof.
  intros HP w. unfold send_mail. destruct (smtp env (log w) session m); simpl.
  - exists [Mailed session m]. auto.
  - exists []. by rewrite app_nil_r.
Qed.
End adds.

(** ** Reports to the coordinator *)

(** A request that says how a job ended. *)
Definition is_report (e : event) : bool :=
  match e with
  | Sent r => match payload r with Some (VDict d) => dict_has d "outcome" | _ => false end
  | _ => false
  end.
Definition reports (h : list event) : nat := length (List.filter is_report h).
Definition silent (e : event) : Prop := is_report e = false.

Lemma silent_reports new : Forall silent new → reports new = 0%nat.
Proof. induction 1 as [|e new He _ IH]; [done|]. unfold reports in *. simpl. by rewrite He. Qed.

Ltac adds_step :=
  match goal with
  | |- adds _ (_ ≫= _) => apply adds_bind; [|intros ?]
  | |- adds _ (mret _) => apply adds_ret
  | |- adds _ (raise _) => apply adds_raise
  | |- adds _ (pure _) => apply adds_pure
  | |- adds _ (tell _) => by apply adds_tell
  | |- adds _ (utc_now _) => by apply (adds_one _ _ ReadClock)
  | |- adds _ (load_json_file _ ?p _) => by apply (adds_one _ _ (ReadFile p))
  | |- adds _ (write_file _ _ _ _) => by apply adds_write
  | |- adds _ (send_mail _ _ _) => by apply adds_mail
  | |- adds _ (state_transaction _ _) => apply adds_transaction; [done|]
  | |- adds _ (each _ _ _) => apply adds_each; intros ? ?
  | |- adds _ (let '(_, _) := ?p in _) => destruct p
  | |- adds _ (match ?x with _ => _ end) => destruct x
  end.

Lemma read_pages_silent env config s ws we prior fuel token p :
  adds silent (read_pages env config s ws we prior fuel token p).
Proof.
  revert p. induction fuel as [|fuel IH]; intros p; cbn [read_pages]; [apply adds_ret|].
  apply adds_bind.
  - intros w. destruct (read_page_cases env config s ws we prior token p w) as (r & -> & _).
    exists [ask config s ws we prior token (cursor p)]. by repeat constructor.
  - intros [q|q|q e]; [apply IH|apply adds_ret..].
Qed.

Lemma collect_silent env config s ws we prior : adds silent (collect env config s ws we prior).
Proof.
  unfold collect. destruct (Url.is_empty _); [apply adds_ret|].
  apply adds_bind; [apply read_pages_silent|]. intros ?; repeat adds_step.
Qed.

Lemma read_cursors_silent config : adds silent (read_cursors config).
Proof. by apply (adds_one _ _ (ReadFile (cursors_path config))). Qed.
Lemma read_ledger_silent config : adds silent (read_ledger config).
Proof. by apply (adds_one _ _ (ReadFile (ledger_path config))). Qed.

Lemma emit_metric_silent env name fields : adds silent (emit_metric env name fields).
Proof. unfold emit_metric. repeat adds_step. Qed.
Lemma deliver_silent env completion : adds silent (deliver_report_email env completion).
Proof. unfold deliver_report_email. repeat adds_step. Qed.

Lemma gather_silent env config hours overlap job : adds silent (gather env config hours overlap job).
Proof.
  unfold gather, run_file, collect_all. repeat adds_step.
  - apply read_cursors_silent.
  - apply collect_silent.
Qed.
Lemma commit_silent env config g : adds silent (commit env config g).
Proof.
  unfold commit, commit_files, save_ledger, save_cursors. repeat adds_step.
  - apply read_cursors_silent.
  - apply read_ledger_silent.
Qed.
Lemma conclude_silent env config g l q : adds silent (conclude env config g l q).
Proof.
  unfold conclude, ledger_run_file, run_file. repeat adds_step; [apply deliver_silent|].
  apply emit_metric_silent.
Qed.
Lemma run_silent env config hours overlap job : adds silent (run env config hours overlap job).
Proof.
  unfold run. apply adds_bind; [apply gather_silent|intros g].
  apply adds_bind; [apply commit_silent|intros [l q]; apply conclude_silent].
Qed.

Lemma claim_silent env config : adds silent (claim env config).
Proof.
  unfold claim, coordinator_post, http_request. repeat adds_step. intros w. simpl.
  eexists [_]. split; [done|]. by repeat constructor.
Qed.

Lemma reports_app a b : reports (a ++ b) = (reports a + reports b)%nat.
Proof. unfold reports. by rewrite List.filter_app, length_app. Qed.

(** One report at most, and one exactly when the computation succeeds. *)
Definition reports_once {A} (m : worker A) : Prop :=
  ∀ w, ∃ new, log (m w).2 = log w ++ new ∧ (reports new <= 1)%nat ∧
    (is_ok (m w).1 = true → reports new = 1%nat).

Lemma once_after {A B} (m : worker A) (f : A → worker B) :
  adds silent m → (∀ a, reports_once (f a)) → reports_once (m ≫= f).
Proof.
  intros Hm Hf w. unfold mbind, worker_bind. destruct (Hm w) as (n1 & H1 & Hs).
  destruct (m w) as [[a|e] w1]; simpl in *.
  - destruct (Hf a w1) as (n2 & H2 & Hle & Hok). exists (n1 ++ n2).
    rewrite H2, H1, app_assoc, reports_app, (silent_reports n1 Hs). by simpl.
  - exists n1. rewrite (silent_reports n1 Hs). split_and!; [done|lia|done].
Qed.
Lemma once_before {A B} (m : worker A) (f : A → worker B) :
  reports_once m → (∀ a, adds silent (f a)) → reports_once (m ≫= f).
Proof.
  intros Hm Hf w. unfold mbind, worker_bind. destruct (Hm w) as (n1 & H1 & Hle & Hok).
  destruct (m w) as [[a|e] w1]; simpl in *; [|by exists n1; auto].
  destruct (Hf a w1) as (n2 & H2 & Hs). exists (n1 ++ n2).
  rewrite H2, H1, app_assoc, reports_app, (silent_reports n2 Hs), Nat.add_0_r. by auto.
Qed.

Lemma complete_once env config job_id ok result error retry :
  reports_once (complete env config job_id ok result error retry).
Proof.
  unfold complete. apply once_after; [apply adds_pure|intros _].
  apply once_after; [repeat adds_step|intros safe_error].
  apply once_before; [|intros _; apply adds_ret]. intros w.
  unfold coordinator_post, http_request, send. eexists [_]. simpl. by split_and!.
Qed.

Lemma attempt_once env config hours overlap job_id job :
  reports_once (attempt_job env config hours overlap job_id job).
Proof.
  unfold attempt_job. apply once_after; [apply adds_heartbeat, run_silent|intros completion].
  apply once_before; [apply complete_once|intros _].
  apply adds_bind; [by apply adds_nothing|intros d].
  apply adds_bind; [apply emit_metric_silent|intros _; apply adds_ret].
Qed.

Lemma attempt_true env config hours overlap job_id job w b w' :
  attempt_job env config hours overlap job_id job w = (Ok b, w') → b = true.
Proof. unfold attempt_job. intros H. repeat run_step. done. Qed.

(** A bound on the reports, and a computation that always raises. *)
Definition reports_le {A} (n : nat) (m : worker A) : Prop :=
  ∀ w, ∃ new, log (m w).2 = log w ++ new ∧ (reports new <= n)%nat.
Definition raises {A} (m : worker A) : Prop := ∀ w, ∃ e, (m w).1 = Raise e.

Lemma silent_le {A} (m : worker A) : adds silent m → reports_le 0 m.
Proof. intros H w. destruct (H w) as (n & Hn & Hs). exists n. by rewrite (silent_reports n Hs). Qed.
Lemma once_le {A} (m : worker A) : reports_once m → reports_le 1 m.
Proof. intros H w. destruct (H w) as (n & Hn & Hle & _). by exists n. Qed.

Lemma le_bind {A B} a b (m : worker A) (f : A → worker B) :
  reports_le a m → (∀ x, reports_le b (f x)) → reports_le (a + b) (m ≫= f).
Proof.
  intros Hm Hf w. unfold mbind, worker_bind. destruct (Hm w) as (n1 & H1 & Hl1).
  destruct (m w) as [[x|e] w1]; simpl in *; [|exists n1; split; [done|lia]].
  destruct (Hf x w1) as (n2 & H2 & Hl2). exists (n1 ++ n2).
  rewrite H2, H1, app_assoc, reports_app. split; [done|lia].
Qed.
Lemma le_catch {A} a b (body : worker A) handler :
  reports_le a body → (∀ e, reports_le b (handler e)) → reports_le (a + b) (catch body handler).
Proof.
  intros Hb Hh w. unfold catch. destruct (Hb w) as (n1 & H1 & Hl1).
  destruct (body w) as [[x|e] w1]; simpl in *; [exists n1; split; [done|lia]|].
  destruct (is_worker_error e); [|exists n1; split; [done|lia]].
  destruct (Hh e w1) as (n2 & H2 & Hl2). exists (n1 ++ n2).
  rewrite H2, H1, app_assoc, reports_app. split; [done|lia].
Qed.
Lemma raises_bind {A B} (m : worker A) (f : A → worker B) : (∀ a, raises (f a)) → raises (m ≫= f).
Proof.
  intros Hf w. unfold mbind, worker_bind. destruct (m w) as [[a|e] w1]; [apply Hf|by exists e].
Qed.

(** Telling of a failure: one report at most, and a failure goes on. *)
Lemma report_failure_le env config job_id e : reports_le 1 (report_failure env config job_id e).
Proof.
  unfold report_failure. apply (le_bind 0 1).
  { apply silent_le. by apply (adds_one _ _ ReadClock). }
  intros now. apply (le_bind 1 0); [apply (le_catch 1 0)|].
  - apply once_le, complete_once.
  - intros x. apply silent_le, adds_ret.
  - intros u. apply silent_le. apply adds_bind; [by apply adds_nothing|intros d].
    apply adds_bind; [apply emit_metric_silent|intros _; apply adds_raise].
Qed.
Lemma report_failure_raises env config job_id e : raises (report_failure env config job_id e).
Proof. unfold report_failure. repeat (apply raises_bind; intros ?). intros w. by exists e. Qed.

(** ** Results *)

(** C28: A job is reported at most twice.  A processed job is reported exactly
    once; when nothing was claimed there is no report; and a second report is
    only ever sent for a job whose first report did not go through or was
    followed by a failure, which is then raised. *)
Theorem jobs_are_reported_at_most_twice env config hours overlap w r w' :
  process_one env config hours overlap w = (r, w') →
  ∃ new, log w' = log w ++ new ∧ (reports new <= 2)%nat ∧
    (r = Ok true → reports new = 1%nat) ∧ (r = Ok false → reports new = 0%nat) ∧
    (reports new = 2%nat → ∃ e, r = Raise e).
Proof.
  unfold process_one, mbind, worker_bind. destruct (claim_silent env config w) as (n1 & H1 & Hs1).
  destruct (claim env config w) as [[[job|]|e] w1]; simpl in H1.
  - unfold pure. destruct (expect_string _ _ _) as [job_id|e]; simpl.
    2: { intros [= <- <-]. exists n1. rewrite (silent_reports n1 Hs1). by split_and!; auto. }
    unfold catch. destruct (attempt_once env config hours overlap job_id job w1) as (n2 & H2 & Hle & Hok).
    destruct (attempt_job _ _ _ _ _ _ w1) as [[b|e] w2] eqn:Hrun; simpl in *.
    + intros [= <- <-]. exists (n1 ++ n2). rewrite H2, H1, app_assoc, reports_app, (silent_reports n1 Hs1).
      rewrite Hok by done. split_and!; try done; [lia|]. intros [= ->].
      by apply attempt_true in Hrun.
    + destruct (is_worker_error e).
      * destruct (report_failure_raises env config job_id e w2) as (e' & Hr).
        destruct (report_failure_le env config job_id e w2) as (n3 & H3 & Hle3).
        intros Heq. rewrite Heq in Hr, H3. simpl in Hr, H3. subst r. exists (n1 ++ n2 ++ n3).
        rewrite H3, H2, H1, !app_assoc, !reports_app, (silent_reports n1 Hs1).
        split_and!; try done; [lia|eauto].
      * intros [= <- <-]. exists (n1 ++ n2).
        rewrite H2, H1, app_assoc, reports_app, (silent_reports n1 Hs1). split_and!; try done; [lia|eauto].
  - destruct (emit_metric_silent env "artifact_recovery_claim_empty" [] w1) as (n2 & H2 & Hs2).
    destruct (emit_metric _ _ _ w1) as [[u|e] w2]; simpl in H2; intros [= <- <-]; exists (n1 ++ n2);
      rewrite H2, H1, app_assoc, reports_app, (silent_reports n1 Hs1), (silent_reports n2 Hs2);
      by split_and!; eauto.
  - intros [= <- <-]. exists n1. rewrite (silent_reports n1 Hs1). by split_and!; eauto.
Qed.

Lemma claim_valid env config w job w1 :
  claim env config w = (Ok (Some job), w1) →
  ∃ job_id, expect_string (dict_get job "id") "job.id" 200 = Ok job_id.
Proof.
  unfold claim. intros H. run_step. destruct a as [status [response|]]; repeat run_step; [|done].
  simplify_eq. unfold _validate_claim in *. repeat inv_step. eauto.
Qed.

(** C15: An exception that is not the worker's leaves the job unreported.  When the
    run of a claimed job raises one, [process_one] raises it too, no report at
    all has been sent, and unless it is an [OSError] the whole process ends with
    it. *)
Theorem unexpected_failures_go_unreported env config hours overlap stop fuel w job w1 e w2 :
  claim env config w = (Ok (Some job), w1) →
  run env config hours overlap job w1 = (Raise e, w2) → is_worker_error e = false →
  process_one env config hours overlap w = (Raise e, w2) ∧
  (∃ new, log w2 = log w ++ new ∧ reports new = 0%nat) ∧
  (stop (log w) = false → exn_cls e ≠ OSError →
   serve env config hours overlap stop (S fuel) w = (Raise e, w2)).
Proof.
  intros Hc Hr He.
  assert (process_one env config hours overlap w = (Raise e, w2)) as Hp.
  { destruct (claim_valid _ _ _ _ _ Hc) as [job_id Hid].
    unfold process_one, mbind, worker_bind. rewrite Hc. unfold pure. rewrite Hid.
    unfold catch, attempt_job, mbind, worker_bind, with_heartbeat. by rewrite Hr, He. }
  split; [done|]. split.
  - destruct (claim_silent env config w) as (n1 & H1 & Hs1). rewrite Hc in H1.
    destruct (run_silent env config hours overlap job w1) as (n2 & H2 & Hs2). rewrite Hr in H2.
    exists (n1 ++ n2). simpl in *. rewrite H2, H1, app_assoc, reports_app.
    by rewrite (silent_reports n1 Hs1), (silent_reports n2 Hs2).
  - intros Hstop Hos. cbn [serve]. rewrite Hstop, Hp, He. by rewrite bool_decide_eq_false_2.
Qed.

Lemma collected_receipts env config sources ws we specs acc w cs w' :
  0 <= max_pages_per_source config →
  each specs (λ s collections,
    c ← collect env config s ws we (prior_watermark sources s);
    mret (collections ++ [c])) acc w = (Ok cs, w') →
  ∃ new, cs = acc ++ new ∧ Forall (λ c, Coverage.source (receipt c) = source (spec c) ∧
    ∃ t, Coverage.watermark_at (receipt c) = format_instant t ∧
      Coverage.age_seconds (receipt c) = receipt_age we t ∧
      (representable ws = true → representable t = true)) new.
Proof.
  intros Hmax. revert acc w. induction specs as [|s specs IH]; intros acc w.
  - intros [= <- <-]. exists []. by rewrite app_nil_r.
  - cbn [each]. unfold mbind, worker_bind, mret, worker_ret.
    destruct (collect _ _ s _ _ _ w) as [[c|e] w1] eqn:Hc; [|done].
    intros (new & -> & Hnew)%IH. exists (c :: new). rewrite <- app_assoc. split; [done|].
    constructor; [|done]. destruct (collect_outcome _ _ _ _ _ _ _ _ _ Hmax Hc) as (-> & Hs & _).
    split; [done|]. by eapply collect_receipt.
Qed.

Lemma same_age_soon started generated t :
  t <= started → started <= generated → generated - t < 2 ^ 34 * 1000000 →
  receipt_age started t = receipt_age generated t → generated < started + 1000000.
Proof.
  intros H1 H2 H3. unfold receipt_age. rewrite !elapsed_seconds_exact by lia.
  rewrite !Z.quot_div_nonneg by lia.
  pose proof (Z.div_pos (started - t) 1000000). pose proof (Z.div_pos (generated - t) 1000000).
  rewrite !Z.max_r by lia. intros Heq.
  pose proof (Z.div_mod (started - t) 1000000). pose proof (Z.div_mod (generated - t) 1000000).
  pose proof (Z.mod_pos_bound (started - t) 1000000). pose proof (Z.mod_pos_bound (generated - t) 1000000).
  lia.
Qed.

(** C12: A run finishes only if its collection took no time.  Every receipt states
    the age of its watermark when the run began, and the report is accepted only
    if that is still its age, in whole seconds, when it is drawn up: so if a
    watermark lies before the start, the collection of all sources took less
    than a second. *)
Theorem finished_runs_take_no_time env config hours overlap job w completion w' :
  0 <= max_pages_per_source config →
  run env config hours overlap job w = (Ok completion, w') →
  ∃ g, (∃ wg, gather env config hours overlap job w = (Ok g, wg)) ∧
    (representable (generated_at g) = true → ∀ c, c ∈ collections g →
      ∃ t, Coverage.watermark_at (receipt c) = format_instant t ∧
        receipt_age (started_at g) t = receipt_age (generated_at g) t ∧
        (t <= started_at g → started_at g <= generated_at g →
         generated_at g - t < 2 ^ 34 * 1000000 → generated_at g < started_at g + 1000000)).
Proof.
  intros Hmax (g & wg & l & q & wc & Hg & _ & _)%run_Ok. exists g. split; [by exists wg|].
  intros Hrep c Hc. apply gather_Ok in Hg as (ws & sources & w1 & w2 & [Hws Hcs Ha]).
  apply collected_receipts in Hcs as (new & Hcs & Hnew); [|done]. simpl in Hcs. rewrite Hcs in Hc.
  rewrite Forall_forall in Hnew. destruct (Hnew c Hc) as (_ & t & Ht & Hage & Hrt).
  specialize (Hrt Hws). exists t. split; [done|].
  apply assemble_Ok in Ha as (document & Hdoc & Hbuilt).
  destruct (report_of_collections _ _ _ _ _ _ Hdoc Hbuilt) as (now & Hnow & _ & Hages).
  unfold format_instant in Hnow. rewrite parse_datetime_printed in Hnow by done.
  injection Hnow as _ <-. assert (receipt_age (started_at g) t = receipt_age (generated_at g) t) as Heq.
  { rewrite <- Hage. apply Hages; [by rewrite Hcs|]. rewrite Ht. by apply parse_datetime_printed. }
  split; [done|]. intros. by eapply same_age_soon.
Qed.

(** ** Success *)

Lemma commit_saves env config g w l q w' :
  commit env config g w = (Ok (l, q), w') → SavedLedger l ∈ log w'.
Proof.
  unfold commit, state_transaction. destruct (fence env (log w) (shared w)) as [files| |]; [|done..].
  intros H. unfold commit_files in H. repeat run_step.
  do 2 match goal with H : match ?o with Some _ => _ | None => _ end _ = _ |- _ =>
    destruct o; [|done] end.
  repeat run_step. simplify_eq.
  match goal with H : save_ledger _ _ _ ?w1 = (Ok _, ?w2) |- _ =>
    unfold save_ledger, write_file in H; destruct (disk _ _ _); [|done]; injection H as _ <- end.
  match goal with H : save_cursors _ _ _ _ = (Ok _, _) |- _ =>
    unfold save_cursors in H; repeat run_step; unfold write_file in H; destruct (disk _ _ _);
      [|done]; injection H as _ <- end.
  simpl. rewrite !elem_of_app. left. right. by left.
Qed.

Lemma count_zero s l : Ledger.count s l = 0 → s ∉ l.
Proof.
  intros H Hin. unfold Ledger.count in H. assert (s ∈ List.filter (String.eqb s) l) as Hs.
  { apply list_elem_of_In, filter_In. split; [by apply list_elem_of_In|apply String.eqb_refl]. }
  destruct (List.filter _ l); [by apply not_elem_of_nil in Hs|simpl in H; lia].
Qed.

Lemma succeeded_entries g l document :
  Ledger.summary_document l = Ok document →
  has_succeeded g (object_at (dict_of document) "summary") = true →
  is_complete (coverage g) = true ∧
  Observation.batch_complete (Observation.observed_batch (observation g)) = true ∧
  ∀ k e, (k, e) ∈ Ledger.entries l →
    Ledger.status (Ledger.entry_classification e) ≠ "actionable" ∧
    Ledger.status (Ledger.entry_classification e) ≠ "blocked".
Proof.
  unfold Ledger.summary_document. intros (v & Hv & [= <-])%bind_Ok Hs.
  apply validated_Ok in Hv as ((t & u & _ & _ & ->) & _ & _). unfold has_succeeded in Hs.
  bool_hyps. split; [done|]. split; [done|]. intros k e He.
  repeat match goal with H : int_at _ _ = 0 |- _ => apply count_zero in H end.
  assert (Ledger.status (Ledger.entry_classification e) ∈
    map Ledger.status (map (λ kv, Ledger.entry_classification kv.2) (Ledger.entries l))) as Hin.
  { rewrite map_map. apply list_elem_of_fmap. by exists (k, e). }
  split; intros Heq; rewrite Heq in Hin; done.
Qed.

(** C5: A job reported as succeeded left nothing undone.  For every required
    source there is a collection whose receipt claims completeness, read the
    last page and has a watermark fresh enough at the time of the report; the
    ledger that was saved holds no entry that is actionable or blocked, so that
    every entry that is its observation's is complete or excluded. *)
Theorem success_means_everything env config hours overlap job w completion w' :
  0 <= max_pages_per_source config →
  run env config hours overlap job w = (Ok completion, w') →
  outcome_is completion "succeeded" = true →
  ∃ g l t, (∃ wg, gather env config hours overlap job w = (Ok g, wg)) ∧ SavedLedger l ∈ log w' ∧
    (representable (generated_at g) = true → t = generated_at g) ∧
    (∀ s, s ∈ required_sources (manifest g) → ∃ c, c ∈ collections g ∧ source (spec c) = s ∧
       covered t s (Coverage.receipt_value (receipt c))) ∧
    ∀ k e, (k, e) ∈ Ledger.entries l →
      Ledger.status (Ledger.entry_classification e) ≠ "actionable" ∧
      Ledger.status (Ledger.entry_classification e) ≠ "blocked" ∧
      (entry_ok k e → Ledger.status (Ledger.entry_classification e) ∈ ["complete"; "excluded"]).
Proof.
  intros Hmax (g & wg & l & q & wc & Hg & Hcommit & Hconclude)%run_Ok Hout.
  destruct (conclude_outcome _ _ _ _ _ _ _ _ Hconclude Hout) as (document & Hdoc & Hs).
  destruct (succeeded_entries _ _ _ Hdoc Hs) as (Hcov & _ & Hentries).
  pose proof Hg as Hg'. apply gather_Ok in Hg as (ws & sources & w1 & w2 & [Hws Hcs Ha]).
  apply collected_receipts in Hcs as (new & Hcs & Hnew); [|done]. simpl in Hcs.
  apply assemble_Ok in Ha as (raw & Hraw & Hbuilt).
  destruct (report_of_collections _ _ _ _ _ _ Hraw Hbuilt) as (now & Hnow & Hall & _).
  exists g, l, now. split; [by exists wg|]. split; [|split; [|split]].
  - apply commit_saves in Hcommit. destruct (conclude_silent env config g l q wc) as (n & Hn & _).
    rewrite Hconclude in Hn. simpl in Hn. rewrite Hn. apply elem_of_app. by left.
  - intros Hrep. unfold format_instant in Hnow. rewrite parse_datetime_printed in Hnow by done. congruence.
  - intros s Hin. unfold is_complete in Hcov. apply String.eqb_eq in Hcov.
    destruct (Hall Hcov s Hin) as (c & Hc & Hcovered). exists c. split; [done|]. split; [|done].
    rewrite Hcs in Hc. rewrite Forall_forall in Hnew. destruct (Hnew c Hc) as [<- _].
    destruct Hcovered as (d & pg & fr & n & mark & t & m & [= <-] & Hsrc & _).
    assert (VStr (Coverage.source (receipt c)) = VStr s) as [= ?] by exact Hsrc. done.
  - intros k e He. destruct (Hentries k e He) as [H1 H2]. split; [done|]. split; [done|].
    intros [_ _ Hclass _ _]. apply classify_status in Hclass. revert Hclass H1 H2.
    unfold STATUSES. rewrite !elem_of_cons, elem_of_nil. tauto.
Qed.

(** The process says why it ends.  With status 0 it was asked to stop, or was
    to process one job and did; with status 2 a job failed, with an error that
    is not worth retrying, or with any error when one job was asked for, or
    with an [OSError]. *)
Theorem worker_exit_is_explained env config hours overlap stop fuel w code w' :
  serve env config hours overlap stop fuel w = (Ok (Some code), w') →
  (code = 0 ∧ (stop (log w') = true ∨
     once config = true ∧ ∃ w1 b, process_one env config hours overlap w1 = (Ok b, w'))) ∨
  (code = 2 ∧ ∃ w1 e, process_one env config hours overlap w1 = (Raise e, w') ∧
     (exn_cls e = OSError ∨ is_worker_error e = true ∧ (once config = true ∨ retryable e = false))).
Proof.
  revert w. induction fuel as [|fuel IH]; intros w; [done|]. cbn [serve].
  destruct (stop (log w)) eqn:Hstop; [intros [= <- <-]; by left; split; [|left]|].
  destruct (process_one _ _ _ _ w) as [[b|e] w1] eqn:Hp.
  - destruct (once config) eqn:Honce; [|apply IH].
    intros [= <- <-]. left. split; [done|]. right. split; [done|]. by exists w, b.
  - destruct (is_worker_error e) eqn:He.
    + destruct (once config || negb (retryable e)) eqn:Hend.
      * intros [= <- <-]. right. split; [done|]. exists w, e. split; [done|]. right. split; [done|].
        apply orb_true_iff in Hend as [?|?%negb_true_iff]; auto.
      * destruct (stop (log w1)) eqn:Hstop1; [|apply IH]. intros [= <- <-]. by left; split; [|left].
    + case_bool_decide; [|done]. intros [= <- <-]. right. split; [done|]. exists w, e. auto.
Qed.

(** ** Examples *)

Import WorkerExample.

(** With a clock that stands still the example's job succeeds. *)
Lemma example_succeeds :
  match (example_run 0 done_page).1 with
  | Ok completion => outcome_is completion "succeeded"
  | Raise _ => false
  end = true.
Proof. vm_compute. reflexivity. Qed.

Lemma example_finished :
  ∃ completion w', example_run 0 done_page = (Ok completion, w') ∧
    outcome_is completion "succeeded" = true.
Proof.
  pose proof example_succeeds as H. destruct (example_run 0 done_page) as [[c|e] w']; [|done].
  by exists c, w'.
Qed.

Lemma success_means_everything_witness :
  ∃ completion w' g l t, example_run 0 done_page = (Ok completion, w') ∧ SavedLedger l ∈ log w' ∧
    (∀ s, s ∈ required_sources (manifest g) → ∃ c, c ∈ collections g ∧ source (spec c) = s ∧
       covered t s (Coverage.receipt_value (receipt c))).
Proof.
  destruct example_finished as (completion & w' & Hrun & Hout).
  destruct (success_means_everything (example_env 0 done_page) example_config 96 6 example_job
    example_world completion w' ltac:(vm_compute; discriminate) Hrun Hout)
    as (g & l & t & _ & Hl & _ & Hs & _).
  exists completion, w', g, l, t. split; [exact Hrun|]. split; [exact Hl|exact Hs].
Defined.

Lemma finished_runs_take_no_time_witness :
  ∃ completion w' g, example_run 0 done_page = (Ok completion, w') ∧
    (∃ wg, gather (example_env 0 done_page) example_config 96 6 example_job example_world =
       (Ok g, wg)) ∧
    (representable (generated_at g) = true → ∀ c, c ∈ collections g →
      ∃ t, Coverage.watermark_at (receipt c) = format_instant t ∧
        receipt_age (started_at g) t = receipt_age (generated_at g) t).
Proof.
  destruct example_finished as (completion & w' & Hrun & _).
  destruct (finished_runs_take_no_time (example_env 0 done_page) example_config 96 6 example_job
    example_world completion w' ltac:(vm_compute; discriminate) Hrun) as (g & Hg & Hc).
  exists completion, w', g. split; [exact Hrun|]. split; [exact Hg|]. intros Hrep c Hin.
  destruct (Hc Hrep c Hin) as (t & H1 & H2 & _). exists t. exact (conj H1 H2).
Defined.

(** The same job, when a second passes between two readings of the clock: the
    validator's exception leaves [process_one], and nothing was reported. *)
Definition second : Z := 1000000.
Definition lost : exn :=
  recovery_error "receipts[0].freshness.age_seconds does not match the watermark".
Definition example_claimed : world :=
  (claim (example_env second done_page) example_config example_world).2.

Lemma example_claims :
  claim (example_env second done_page) example_config example_world =
    (Ok (Some example_job), example_claimed).
Proof. vm_compute. reflexivity. Qed.
Lemma example_lost :
  (run (example_env second done_page) example_config 96 6 example_job example_claimed).1 = Raise lost.
Proof. vm_compute. reflexivity. Qed.

Lemma unexpected_failures_go_unreported_witness :
  ∃ w2, process_one (example_env second done_page) example_config 96 6 example_world =
      (Raise lost, w2) ∧
    (∃ new, log w2 = [] ++ new ∧ reports new = 0%nat) ∧
    (serve (example_env second done_page) example_config 96 6 (λ _, false) 1 example_world =
      (Raise lost, w2)).
Proof.
  pose proof example_lost as Hlost.
  destruct (run (example_env second done_page) example_config 96 6 example_job example_claimed)
    as [r w2] eqn:Hrun. simpl in Hlost. subst r. exists w2.
  destruct (unexpected_failures_go_unreported (example_env second done_page) example_config 96 6
    (λ _, false) 0 example_world example_job example_claimed lost w2 example_claims Hrun eq_refl)
    as (H1 & H2 & H3). split; [exact H1|]. split; [exact H2|]. by apply H3.
Defined.

Lemma jobs_are_reported_at_most_twice_witness :
  ∃ r w', example_processed 0 done_page = (r, w') ∧
  ∃ new, log w' = [] ++ new ∧ (reports new <= 2)%nat ∧
    (r = Ok true → reports new = 1%nat) ∧ (r = Ok false → reports new = 0%nat) ∧
    (reports new = 2%nat → ∃ e, r = Raise e).
Proof.
  destruct (example_processed 0 done_page) as [r w'] eqn:H. exists r, w'. split; [reflexivity|].
  exact (jobs_are_reported_at_most_twice (example_env 0 done_page) example_config 96 6
    example_world r w' H).
Defined.

Lemma worker_exit_is_explained_witness :
  ∃ code w', serve (example_env 0 done_page) example_config 96 6 (λ _, true) 1 example_world =
    (Ok (Some code), w') ∧
  ((code = 0 ∧ (true = true ∨
     once example_config = true ∧ ∃ w1 b, process_one (example_env 0 done_page) example_config 96 6 w1
       = (Ok b, w'))) ∨
   (code = 2 ∧ ∃ w1 e, process_one (example_env 0 done_page) example_config 96 6 w1 = (Raise e, w') ∧
     (exn_cls e = OSError ∨
      is_worker_error e = true ∧ (once example_config = true ∨ retryable e = false)))).
Proof.
  exists 0, example_world. split; [done|].
  exact (worker_exit_is_explained (example_env 0 done_page) example_config 96 6 (λ _, true) 1
    example_world 0 example_world eq_refl).
Defined.
End WorkerOutcomeTheorems.
